(* ===== verification/_CoqProject ===== *)
-Q . S2P
Prelude.v
Common.v
BaseEntry.v
Defs.v
MetaSpec.v
DBMeta.v
IndexMeta.v
TableMeta.v
MetaProps.v
TxnContext.v
TxnManager.v
Crc.v
Wire.v
WalEntry.v
WalManager.v
Durability.v
Block.v
Segment.v
TxnStore.v
TableScan.v
Catalog.v
Txn.v
TxnProps.v
Replay.v
ReplayProps.v
Recovery.v
Io.v
FileWorker.v
Buffer.v
BufferProps.v
Arrays.v
Bits.v
Date.v
Bitmap.v
BitmapWords.v
BitmapProps.v
Bitmask.v
BitmaskProps.v
Distance.v
ResultHandler.v
HeapProps.v
ReservoirProps.v
MergeKnn.v
VectorHeap.v
VectorHeapProps.v
DataTypes.v
FunctionSet.v
ScalarFunctions.v
Varchar.v
VarcharProps.v
ScalarOps.v
Casts.v
FunctionProps.v
BinaryOperator.v
BinaryOperatorProps.v
DataBlockCodec.v
RingBuffer.v
RingBufferProps.v
Protocol.v
ProtocolProps.v
