(* ===== verification/Prelude.v ===== *)
(** * Infinity: a verification of its storage engine and connections

    Infinity is a database for vectors and full text, written in C++.  This
    library models its storage engine: the multi-version catalog, transactions,
    the write-ahead log and recovery, the blocks of rows, files and the buffer
    manager, and the data structures that searches and scans use.  It also
    models the values and scalar functions of queries, and the connections of
    clients; every path below is under [src/src/].

    ** The program and how its parts interact

    A query runs in a transaction ([storage/txn/txn.cpp]).  A DDL call puts an
    uncommitted version on the version list of a database, table or index name
    ([storage/meta/]) and remembers a pointer to it; rows are kept in a local
    store per table ([storage/txn/txn_store.cpp]).  [Txn::Commit] takes a commit
    timestamp from the transaction manager ([storage/txn/txn_manager.cpp]), whose
    queue hands the log entries of the transactions to the WAL manager
    ([storage/wal/wal_manager.cpp]) in timestamp order.  The flush thread writes
    them to the log and runs [Txn::CommitBottom], which moves the rows into the
    blocks of the table ([storage/meta/entry/]) and stamps the versions with the
    timestamp.  Checkpoints save the catalog and let old log files go.  At start
    the log is replayed on top of the last checkpoint.

    The data of blocks and indexes is in buffers ([storage/buffer/]), which a file
    worker loads from its file when a handle is taken, and which are spilled to
    a temporary file and freed when memory is short.  A nearest-neighbour search
    gives the distances of the rows that a bit mask shows
    ([storage/column_vector/bitmask.cpp]) to a result handler
    ([storage/knnindex/]), which keeps the best ones of each query.

    A client connects over the PostgreSQL protocol ([network/connection.cpp]): its
    messages are read and answered through ring buffers ([network/buffer_reader.cpp],
    [network/buffer_writer.cpp]).  The functions of a query are chosen by the types of
    their arguments ([function/]) and run on the rows of column vectors
    ([storage/column_vector/]), whose long values are in heaps of chunks.

    ** Files

    - [Prelude]: outcomes of C++ code (return, exception, undefined behaviour),
      machine integers, ordered maps, shared lemmas and tactics.
    - [Common], [Defs]: constants and enumerations; data types, table and index
      definitions.
    - [BaseEntry], [MetaSpec]: version lists, what a reader stops at, the
      changes a DDL call may make, and the interface [VersionedMeta] that the
      metas implement.  [DBMeta], [TableMeta], [IndexMeta]: the three metas, one
      definition per member function.  [MetaProps]: their properties.
    - [TxnContext], [TxnManager]: the state machine of a transaction; ids,
      timestamps and the queue of log entries.
    - [Crc], [Wire], [WalEntry]: the checksum, binary serialisation, WAL
      commands and entries and the iterators over log files.
    - [WalManager], [Durability]: the threads of the WAL manager as actions on a
      state that contains the bytes of the log files, replay, and durability.
    - [Block], [Segment], [TxnStore], [TableScan]: versions of the rows of a
      block, appending to segments, the tables' data and the local store, and
      the scan operator.
    - [Catalog], [Txn], [TxnProps]: the catalog with its databases, tables and
      indexes, the transaction, and what commit and rollback do to the catalog.
    - [Replay], [ReplayProps], [Recovery]: [ReplayWalEntry] with a function for
      each command; replay against a specification of the DDL calls; the replay
      of the files of the log directory.
    - [Io]: the local file system, [FileWriter] and [FileReader].
      [FileWorker], [Buffer], [BufferProps]: the interface [FileImpl] of the file
      workers and its instance for data files; buffer objects, manager and
      handles on top of the interface; their properties.
    - [Arrays], [Bits]: arrays and bits of words, shared by what follows.
    - [Date]: [DateType] of [parser/type/datetime/date_type.cpp].
    - [Bitmap], [BitmapWords], [BitmapProps]: the bitmap of
      [storage/invertedindex/common/bitmap.cpp].
    - [Bitmask], [BitmaskProps]: the bit masks of column vectors, on a store of the
      buffers that masks share.
    - [Distance], [ResultHandler], [HeapProps], [ReservoirProps], [MergeKnn]: the
      order of distances, the result handlers of
      [storage/knnindex/result_handler.cppm], and [merge_knn.cppm].
    - [VectorHeap], [VectorHeapProps]: the heaps of column vectors
      ([storage/column_vector/var_heap.cpp], [fix_heap.cpp]).
    - [DataTypes], [FunctionSet], [ScalarFunctions], [FunctionProps]: data types and
      their common types, the costs of casts and the choice of an overload, and the
      overloads that [function/scalar] registers.
    - [Varchar], [VarcharProps]: string values ([parser/type/complex/varchar.cpp]) on a
      heap of blocks.  [ScalarOps]: the [Run] functions of [function/scalar].
      [Casts]: the casts of [function/cast] and how the binder of expressions
      ([planner/expression_binder.cpp]) puts them around arguments.
    - [BinaryOperator], [BinaryOperatorProps]: the evaluation of a function on two
      column vectors ([storage/column_vector/operator/binary_operator.cppm]).
    - [DataBlockCodec]: the binary form of data blocks ([storage/data_block.cpp]),
      which implements the interface [BlockCodec] of [WalEntry].
    - [RingBuffer], [RingBufferProps]: the buffers of a connection.  [Protocol],
      [ProtocolProps]: [network/pg_protocol_handler.cpp] and
      [network/connection.cpp], on top of the buffers.

    ** Conventions of the model

    A fallible function returns an [outcome]: a value, an exception of the
    project with its message, or undefined behaviour with the reason.  A w-bit
    integer is a [Z], and the conversions of the source are written out
    ([to_u16] and the like).  An operation that runs under one lock is one step.
    The steps of the WAL threads are those of [WalManager.exec]; a process that stops
    inside of a step leaves one of the directories of [WalManager.stopped]: a part of
    the entries of a batch, a rotation without its new file, a part of the files to be
    removed.  An entry is taken to be written whole.  The operations of the buffer
    manager run one after the other; [buffer_races] shows what two loads that overlap
    can do.
    Pointers into the catalog are addresses; the allocator is an argument, and
    theorems ask that new addresses are not those of live objects.  A member
    function keeps its name, with a prefix where two classes share it.

    ** What the theorems show

    - Catalog: a running transaction keeps seeing the same versions
      ([db_snapshot_stable], [table_snapshot_stable]); a reader gets the newest
      version committed before it began; a successful create has overwritten
      nothing of others; rollback restores what readers see.  Commits of creates with
      IF NOT EXISTS that found a database are excluded: they stamp the version found
      ([db_create_ignore_hides]).
    - Transactions: the context goes through its states once; the queue refines
      a specification of slots in timestamp order and loses nothing; a
      committing transaction stamps exactly its own versions ([txn_commit_exact]),
      for creates and drops of databases and tables.
    - WAL: round trips of table definitions, index definitions and log entries;
      the table-driven CRC equals the bit-serial one; damage within an entry is
      detected; the iterators read back what was written; replay reads exactly the
      part of the log that the checkpoints do not cover.  Every committed transaction
      survives a stop of the process ([wal_durability]) if the current log file is then
      neither missing nor empty, no session forced a checkpoint and no rotation
      replaced a rotated file; [rotated_log_ignored], [forced_checkpoint_loses_txn] and
      [rotation_overwrites_log] show that these conditions are needed.
    - Rows: a transaction sees the same rows of a block whatever others do, unless they
      delete a row a second time; appending to a segment keeps the rows in order, if no
      input is cut by the end of a block; deletes are grouped by
      segment and block; repeated scans return each visible row once.
    - Recovery: after a serial history of DDL transactions, a restart rebuilds
      from the log directory the catalog the history led to
      ([recovery_restores_catalog]).
    - Files and buffers: a file writer writes exactly the bytes it was given;
      buffers keep their contents whatever is evicted, saved and loaded; the
      memory in use stays within the limit; a load fails only if the buffers in
      use leave no room.
    - Dates: conversions count the days of the Gregorian calendar and are
      inverse to each other, for numbers and for text.
    - Bitmaps and bit masks refine sequences of booleans; for bit masks with
      reference semantics, in which the masks that share a buffer are one
      vector.
    - Searches: the heap handler and, for [top_k] up to 100, the reservoir handler
      and [MergeKnn] return exactly the best results, in order
      ([merge_knn_top_k]); for larger [top_k] the reservoir can fail
      ([reservoir_gives_up]).
    - Values and functions: heaps give back what was put into them; [Varchar] objects
      refine strings; an overload is chosen exactly when one function is the cheapest,
      and the operands of arithmetic and comparisons are cast to their common type or
      refused; the registered functions are those the theorem lists; integer arithmetic
      is exact or fails; a binary operator computes its function on
      every row, but does not end where a unit of rows mixes nulls and other rows.
    - Connections: what is written through one buffer is read back through the other,
      whatever the socket transfers at a time ([connection_roundtrip]); a session is
      answered, query by query, by messages that a client can tell apart by their
      lengths ([session_answers]).
    - Error cases: each sequence of calls for which the code departs from the
      properties above is a theorem of its own (names like
      [rotated_log_ignored], [txn_drop_created_db_dangling]).

    ** Bounds and fuel

    Loops that are not structural take fuel.  The theorems about them say how
    much is enough, and no theorem assumes that the fuel did not run out.
    - Replay of a log takes one unit per entry and file, a scan one per row and
      block, an append one per input block and target block.  [CommitBottom] takes
      the fuel of the appends; it needs none for a transaction without rows.
    - [RequestSpace] takes one unit per buffer of the queue, and
      [FileWriter::Write] one per byte; variable-length integers have at most 5
      or 10 bytes.
    - The search for the year of a date takes at most 15000 steps, as the range
      of dates is bounded; counting the bits of a word takes one step per bit
      (33 and 65 units); moving down a heap of less than 2^31 elements takes at
      most 32 (33 units).
    - The 200 rounds of [partition_loop] are those of the source.
    - Growing a chunk takes at most 22 doublings; the loops of the heaps take one unit
      per byte, and two more.
    - The rows of a unit with nulls take fuel because the loop need not end; the theorem
      is about every fuel.
    - Sending and reading a string takes one unit per byte, a search in a ring one per
      byte of the ring (4096), and [Run] one per start-up message and request.

    ** Not modelled

    The cells of stored column vectors (rows of blocks are an abstract type), the files
    of vector indexes and the full-text index apart from its bitmap, the JSON text of
    checkpoints, the parser, scheduler and Thrift server, the planner apart from the
    binding of scalar functions, the casts of floating-point numbers, strings and
    embeddings, aggregates and operators other than the table scan.  They do not take part in what the
    theorems are about, or are calls of third-party libraries.  The execution of a
    query, the texts of its values and the number of bytes a socket transfers are
    parameters of the connection; after an exception in one of its buffers the
    connection is not followed further.  Distances that are NaN are outside the
    theorems on searches, because they have no order.  Directories, disk errors
    and the exhaustion of memory are not modelled. *)
From stdpp Require Export base gmap strings list fin_maps sorting.
From Stdlib Require Export ZArith Lia.

Local Open Scope Z_scope.

(** ** Outcomes of C++ code

    A modelled function either returns, throws one of the project's exceptions
    ([Error<E>(msg)] in the source) or of the standard library, or runs into
    undefined behaviour (a null or dangling pointer is dereferenced, memory
    outside a buffer is read). *)

Inductive exn :=
  | StorageException
  | TransactionException
  | ExecutorException
  | CatalogException
  | NotImplementException
  | ParserException
  | TypeException
  | PlannerException
  | NetworkException
  | ClientException
  | FunctionException
  | StdException.

#[export] Instance exn_eq_dec : EqDecision exn.
Proof. solve_decision. Defined.

Inductive outcome (A : Type) :=
  | Ret (a : A)
  | Throw (e : exn) (msg : string)
  | UB (why : string).

Arguments Ret {A} a.
Arguments Throw {A} e msg.
Arguments UB {A} why.

#[export] Instance outcome_ret : MRet outcome := fun A a => Ret a.
#[export] Instance outcome_bind : MBind outcome := fun A B f m =>
  match m with
  | Ret a => f a
  | Throw e s => Throw e s
  | UB s => UB s
  end.

Definition is_ret {A} (m : outcome A) : bool :=
  match m with Ret _ => true | _ => false end.

(** ** Machine integers

    A [w]-bit integer is a [Z]; the conversions below write out the C++
    wrap-around. *)

Definition u_wrap (w z : Z) : Z := z mod 2 ^ w.
Definition s_wrap (w z : Z) : Z := (z + 2 ^ (w - 1)) mod 2 ^ w - 2 ^ (w - 1).

Definition to_u8 := u_wrap 8.
Definition to_u16 := u_wrap 16.
Definition to_u32 := u_wrap 32.
Definition to_u64 := u_wrap 64.
Definition to_i8 := s_wrap 8.
Definition to_i16 := s_wrap 16.
Definition to_i32 := s_wrap 32.
Definition to_i64 := s_wrap 64.

Definition u_range (w z : Z) : Prop := 0 <= z < 2 ^ w.
Definition s_range (w z : Z) : Prop := - 2 ^ (w - 1) <= z < 2 ^ (w - 1).

Lemma u_wrap_id w z : u_range w z -> u_wrap w z = z.
Proof. unfold u_range, u_wrap. intros. by apply Z.mod_small. Qed.

Lemma u_wrap_range w z : 0 <= w -> u_range w (u_wrap w z).
Proof. intros. apply Z.mod_pos_bound. by apply Z.pow_pos_nonneg. Qed.

Lemma s_wrap_id w z : 1 <= w -> s_range w z -> s_wrap w z = z.
Proof.
  unfold s_range, s_wrap. intros Hw Hz.
  assert (2 ^ w = 2 * 2 ^ (w - 1)) as E.
  { rewrite <- Z.pow_succ_r by lia. f_equal. lia. }
  rewrite Z.mod_small; lia.
Qed.

Lemma s_wrap_range w z : 1 <= w -> s_range w (s_wrap w z).
Proof.
  unfold s_range, s_wrap. intros Hw.
  assert (2 ^ w = 2 * 2 ^ (w - 1)) as E.
  { rewrite <- Z.pow_succ_r by lia. f_equal. lia. }
  pose proof (Z.mod_pos_bound (z + 2 ^ (w - 1)) (2 ^ w)).
  assert (0 < 2 ^ w) by (apply Z.pow_pos_nonneg; lia). lia.
Qed.

(** ** [std::map] with integer keys

    A list of bindings in increasing key order. *)

Section OrderedMap.
Context {V : Type}.
Implicit Types (l : list (Z * V)).

Fixpoint om_insert (k : Z) (v : V) l : list (Z * V) :=
  match l with
  | [] => [(k, v)]
  | (k', v') :: rest =>
      if k <? k' then (k, v) :: l
      else if k =? k' then (k, v) :: rest
      else (k', v') :: om_insert k v rest
  end.

Definition om_erase (k : Z) l : list (Z * V) := filter (fun p => p.1 <> k) l.

Fixpoint om_lookup (k : Z) l : option V :=
  match l with
  | [] => None
  | (k', v') :: rest => if k =? k' then Some v' else om_lookup k rest
  end.

Definition om_sorted l : Prop := StronglySorted Z.lt (l.*1).
End OrderedMap.

(** ** Lists *)

Lemma list_filter_all {A} (P : A -> Prop) `{forall x, Decision (P x)} (l : list A) :
  (forall x, x ∈ l -> P x) -> filter P l = l.
Proof.
  induction l as [|a l IH]; intros HP; [done|]. rewrite filter_cons_True by (apply HP; by left).
  f_equal. apply IH. intros x Hx. apply HP. by right.
Qed.

Lemma list_filter_none {A} (P : A -> Prop) `{forall x, Decision (P x)} (l : list A) :
  (forall x, x ∈ l -> ~ P x) -> filter P l = [].
Proof.
  induction l as [|a l IH]; intros HP; [done|]. rewrite filter_cons_False by (apply HP; by left).
  apply IH. intros x Hx. apply HP. by right.
Qed.

Lemma reverse_concat_fmap {A T} (f : T -> list A) (l : list T) :
  reverse (concat (f <$> l)) = concat ((fun x => reverse (f x)) <$> reverse l).
Proof.
  induction l as [|x l IH]; [done|]. rewrite fmap_cons. cbn [concat].
  rewrite reverse_app, reverse_cons, fmap_app, concat_app, IH. cbn [concat fmap list_fmap]. by rewrite app_nil_r.
Qed.

(** ** Shared tactics *)

(** Case analysis on every [match] scrutinee of the goal or the hypotheses,
    remembering the equations. *)
Ltac destruct_match :=
  match goal with
  | |- context [match ?x with _ => _ end] =>
      lazymatch x with context [match _ with _ => _ end] => fail | _ => idtac end;
      destruct x eqn:?
  end.

Ltac destruct_match_in H :=
  match type of H with
  | context [match ?x with _ => _ end] =>
      lazymatch x with context [match _ with _ => _ end] => fail | _ => idtac end;
      destruct x eqn:?
  end.

(** Boolean comparisons of [Z] to propositions. *)
Ltac zbool :=
  repeat match goal with
  | H : (_ && _)%bool = true |- _ => apply andb_true_iff in H as [? ?]
  | H : (_ || _)%bool = false |- _ => apply orb_false_iff in H as [? ?]
  | H : negb _ = true |- _ => apply negb_true_iff in H
  | H : negb _ = false |- _ => apply negb_false_iff in H
  | H : (_ =? _) = true |- _ => apply Z.eqb_eq in H
  | H : (_ =? _) = false |- _ => apply Z.eqb_neq in H
  | H : (_ <? _) = true |- _ => apply Z.ltb_lt in H
  | H : (_ <? _) = false |- _ => apply Z.ltb_ge in H
  | H : (_ <=? _) = true |- _ => apply Z.leb_le in H
  | H : (_ <=? _) = false |- _ => apply Z.leb_gt in H
  | H : (_ >? _) = true |- _ => rewrite Z.gtb_ltb in H; apply Z.ltb_lt in H
  | H : (_ >? _) = false |- _ => rewrite Z.gtb_ltb in H; apply Z.ltb_ge in H
  | H : (_ >=? _) = true |- _ => rewrite Z.geb_leb in H; apply Z.leb_le in H
  | H : (_ >=? _) = false |- _ => rewrite Z.geb_leb in H; apply Z.leb_gt in H
  end.
