(* ===== verification/Common.v ===== *)
(** Program-wide constants and enumerations: [common/default_values.cppm],
    [common/status.cppm], [storage/txn/txn_state.cppm], the conflict types of
    the parser's DDL statements and [EntryType] of [base_entry.cppm]. *)
From S2P Require Import Prelude.

Local Open Scope Z_scope.

(** ** default_values.cppm *)

Definition u64_max : Z := 2 ^ 64 - 1.
Definition UNCOMMIT_TS : Z := u64_max.
Definition DEFAULT_BLOCK_CAPACITY : Z := 8192.
Definition DEFAULT_VECTOR_SIZE : Z := DEFAULT_BLOCK_CAPACITY.
Definition DEFAULT_SEGMENT_CAPACITY : Z := 1024 * 8192.

(** ** status.cppm: a [Status] is its error code; [Status::ok()] *)

Inductive ErrorCode :=
  | kOk
  | kError
  | kNotFound
  | kNotImplemented
  | kReachQueryMemoryLimit
  | kNotSupportedCast
  | kAlreadyExist
  | kNetworkError
  | kServiceUnavailable
  | kWWConflict
  | kDuplicate
  | kUndefined
  | kInvalidIdentifier.

#[export] Instance ErrorCode_eq_dec : EqDecision ErrorCode.
Proof. solve_decision. Defined.

Definition status_ok (s : ErrorCode) : bool :=
  match s with kOk => true | _ => false end.

(** ** extra_ddl_info.h *)

Inductive ConflictType := kInvalidConflict | kIgnore | kErrorConflict | kReplace.

#[export] Instance ConflictType_eq_dec : EqDecision ConflictType.
Proof. solve_decision. Defined.

(** ** txn_state.cppm *)

Inductive TxnState :=
  | kNotStarted
  | kStarted
  | kCommitting
  | kCommitted
  | kRollbacking
  | kRollbacked
  | kInvalid.

#[export] Instance TxnState_eq_dec : EqDecision TxnState.
Proof. solve_decision. Defined.

(** ** base_entry.cppm *)

Inductive EntryType :=
  | kDummy
  | kDatabase
  | kTable
  | kTableIndex
  | kColumnIndex
  | kIRSIndex
  | kSegmentColumnIndex
  | kView
  | kColumn
  | kSegment
  | kBlock
  | kBlockColumn.

#[export] Instance EntryType_eq_dec : EqDecision EntryType.
Proof. solve_decision. Defined.

(** Addresses of heap-allocated entries; [BaseEntry *] in the source. *)
Definition ptr := positive.
Bind Scope positive_scope with ptr.

#[export] Instance ptr_eq_dec : EqDecision ptr := _ : EqDecision positive.
#[export] Instance ptr_countable : Countable ptr := _ : Countable positive.
