(* ===== verification/BaseEntry.v ===== *)
(** The version lists shared by the three catalog metas: [BaseEntry],
    [MergeLists] ([storage/meta/entry/base_entry.cpp(pm)]) and
    [BaseMeta::CheckDDLResult] ([storage/meta/base_meta.cppm]).

    A version list is ordered from the newest to the oldest entry and ends with
    an optional dummy entry. *)
From S2P Require Import Prelude Common.

Local Open Scope Z_scope.

(** [BaseEntry] with the derived part [payload] ([None] for a plain
    [BaseEntry], which is what a dummy entry is) and the address the owning
    [UniquePtr] holds. *)
Record Entry (P : Type) := mkEntry {
  addr : ptr;
  txn_id_ : Z;
  begin_ts_ : Z;
  commit_ts_ : Z;
  deleted_ : bool;
  entry_type_ : EntryType;
  payload : option P;
}.

Arguments mkEntry {P} _ _ _ _ _ _ _.
Arguments addr {P} _.
Arguments txn_id_ {P} _.
Arguments begin_ts_ {P} _.
Arguments commit_ts_ {P} _.
Arguments deleted_ {P} _.
Arguments entry_type_ {P} _.
Arguments payload {P} _.

Section BaseEntry.
Context {P : Type}.
Implicit Types (e : Entry P) (l : list (Entry P)).

(** [BaseEntry(EntryType::kDummy)] *)
Definition dummy_entry (a : ptr) : Entry P := mkEntry a 0 0 0 true kDummy None.

Definition is_dummy e : bool := bool_decide (entry_type_ e = kDummy).

(** [BaseEntry::Committed] *)
Definition Committed e : bool := negb (commit_ts_ e =? UNCOMMIT_TS).

(** [BaseEntry::Commit] *)
Definition Commit (commit_ts : Z) e : Entry P :=
  mkEntry (addr e) (txn_id_ e) (begin_ts_ e) commit_ts (deleted_ e) (entry_type_ e) (payload e).

Definition set_deleted (b : bool) e : Entry P :=
  mkEntry (addr e) (txn_id_ e) (begin_ts_ e) (commit_ts_ e) b (entry_type_ e) (payload e).

(** Writing through a [BaseEntry *]: the entry of the list that lives at
    address [p] commits. *)
Definition CommitAt (p : ptr) (commit_ts : Z) l : list (Entry P) :=
  (fun e => if bool_decide (addr e = p) then Commit commit_ts e else e) <$> l.

(** [MergeLists(list1, list2)]; [MergeFrom] is the virtual [MergeFrom] of the
    entries. [it1] walks [list1], [it2] walks [list2]; [list1.insert(it1, x)]
    puts [x] in front of [it1]. *)
Section MergeLists.
Context (MergeFrom : Entry P -> Entry P -> outcome (Entry P)).

Fixpoint MergeLists (list1 : list (Entry P)) : list (Entry P) -> outcome (list (Entry P)) :=
  fix go (list2 : list (Entry P)) : outcome (list (Entry P)) :=
    match list1, list2 with
    | e1 :: rest1, e2 :: rest2 =>
        if is_dummy e1 then r ← MergeLists rest1 list2; Ret (e1 :: r)
        else if is_dummy e2 then go rest2
        else if (negb (Committed e1) || negb (Committed e2))%bool then
          Throw StorageException "MergeLists requires entries be committed"
        else if commit_ts_ e1 >? commit_ts_ e2 then
          r ← MergeLists rest1 list2; Ret (e1 :: r)
        else if commit_ts_ e1 <? commit_ts_ e2 then
          r ← go rest2; Ret (e2 :: r)
        else
          e ← MergeFrom e1 e2;
          r ← MergeLists rest1 rest2; Ret (e :: r)
    | [], rest2 => Ret (filter (fun e => is_dummy e = false) rest2)
    | rest1, [] => Ret rest1
    end.
End MergeLists.

(** [BaseMeta::CheckDDLResult] *)
Definition CheckDDLResult (result : ErrorCode) (conflict_type : ConflictType) : outcome ErrorCode :=
  match conflict_type with
  | kErrorConflict => Ret result
  | kIgnore =>
      match result with
      | kDuplicate | kNotFound => Ret kOk
      | _ => Ret result
      end
  | _ => Throw StorageException "Invalid conflict type."
  end.

End BaseEntry.
