(* ===== verification/Defs.v ===== *)
(** Schema objects that the catalog stores and the write-ahead log carries:
    [DataType], [ColumnDef], [TableDef], [IndexBase] and its subclasses,
    [IndexDef], [RowID]. Their byte encodings are in [Wire]. *)
From S2P Require Import Prelude Common.

Local Open Scope Z_scope.

(** [parser/type/logical_type.h] *)
Module LogicalType.
Inductive t :=
  | kBoolean | kTinyInt | kSmallInt | kInteger | kBigInt | kHugeInt
  | kDecimal | kFloat | kDouble | kVarchar
  | kDate | kTime | kDateTime | kTimestamp | kInterval
  | kArray | kTuple
  | kPoint | kLine | kLineSeg | kBox | kCircle
  | kUuid | kEmbedding | kRowID | kMixed | kNull | kMissing | kInvalid.

#[global] Instance eq_dec : EqDecision t.
Proof. solve_decision. Defined.

Definition all : list t :=
  [kBoolean; kTinyInt; kSmallInt; kInteger; kBigInt; kHugeInt;
   kDecimal; kFloat; kDouble; kVarchar;
   kDate; kTime; kDateTime; kTimestamp; kInterval;
   kArray; kTuple;
   kPoint; kLine; kLineSeg; kBox; kCircle;
   kUuid; kEmbedding; kRowID; kMixed; kNull; kMissing; kInvalid].
End LogicalType.

(** [parser/type/complex/embedding_type.h] *)
Module EmbeddingDataType.
Inductive t :=
  | kElemBit | kElemInt8 | kElemInt16 | kElemInt32 | kElemInt64
  | kElemFloat | kElemDouble | kElemInvalid.

#[global] Instance eq_dec : EqDecision t.
Proof. solve_decision. Defined.

Definition all : list t :=
  [kElemBit; kElemInt8; kElemInt16; kElemInt32; kElemInt64; kElemFloat; kElemDouble; kElemInvalid].
End EmbeddingDataType.

(** [parser/definition/column_def.h] *)
Module ConstraintType.
Inductive t := kNull | kNotNull | kPrimaryKey | kUnique.

#[global] Instance eq_dec : EqDecision t.
Proof. solve_decision. Defined.

Definition all : list t := [kNull; kNotNull; kPrimaryKey; kUnique].
End ConstraintType.

(** The [TypeInfo] subclasses that the encoder knows. *)
Inductive TypeInfo :=
  | DecimalInfo (precision scale : Z)
  | EmbeddingInfo (embedding_data_type : EmbeddingDataType.t) (dimension : Z).

#[export] Instance TypeInfo_eq_dec : EqDecision TypeInfo.
Proof. solve_decision. Defined.

(** [parser/type/data_type.h] *)
Record DataType := mkDataType {
  type_ : LogicalType.t;
  type_info_ : option TypeInfo;
}.

#[export] Instance DataType_eq_dec : EqDecision DataType.
Proof. solve_decision. Defined.

(** [constraints_] is an [unordered_set]; the list is its iteration order. *)
Record ColumnDef := mkColumnDef {
  id_ : Z;
  column_type_ : DataType;
  name_ : string;
  constraints_ : list ConstraintType.t;
}.

#[export] Instance ColumnDef_eq_dec : EqDecision ColumnDef.
Proof. solve_decision. Defined.

(** [storage/definition/table_def.cppm] *)
Record TableDef := mkTableDef {
  schema_name_ : string;
  table_name_ : string;
  columns_ : list ColumnDef;
}.

#[export] Instance TableDef_eq_dec : EqDecision TableDef.
Proof. solve_decision. Defined.

(** [storage/definition/index_base.cppm] *)
Module MetricType.
Inductive t := kMerticInnerProduct | kMerticL2 | kInvalid.

#[global] Instance eq_dec : EqDecision t.
Proof. solve_decision. Defined.

Definition all : list t := [kMerticInnerProduct; kMerticL2; kInvalid].
End MetricType.

(** [storage/definition/index_hnsw.cppm] *)
Module HnswEncodeType.
Inductive t := kPlain | kLVQ | kInvalid.

#[global] Instance eq_dec : EqDecision t.
Proof. solve_decision. Defined.

Definition all : list t := [kPlain; kLVQ; kInvalid].
End HnswEncodeType.

(** The part of [IndexBase] that its subclass adds; the constructor fixes
    [index_type_]. *)
Inductive IndexParam :=
  | IndexIVFFlat (centroids_count : Z) (metric_type : MetricType.t)
  | IndexHnsw (metric_type : MetricType.t) (encode_type : HnswEncodeType.t) (M ef_construction ef : Z)
  | IndexFullText (analyzer : string).

#[export] Instance IndexParam_eq_dec : EqDecision IndexParam.
Proof. solve_decision. Defined.

Record IndexBase := mkIndexBase {
  file_name_ : string;
  column_names_ : list string;
  index_param_ : IndexParam;
}.

#[export] Instance IndexBase_eq_dec : EqDecision IndexBase.
Proof. solve_decision. Defined.

(** [storage/definition/index_def.cppm] *)
Record IndexDef := mkIndexDef {
  index_name_ : string;
  index_array_ : list IndexBase;
}.

#[export] Instance IndexDef_eq_dec : EqDecision IndexDef.
Proof. solve_decision. Defined.

(** [parser/type/complex/row_id.h] *)
Record RowID := mkRowID {
  segment_id_ : Z;
  segment_offset_ : Z;
}.

#[export] Instance RowID_eq_dec : EqDecision RowID.
Proof. solve_decision. Defined.
