(* ===== verification/MetaSpec.v ===== *)
(** What the version lists of [DBMeta], [TableCollectionMeta] and
    [TableIndexMeta] have in common, independent of which meta owns the list:
    the version a reader stops at, the shapes of change a DDL call may make
    ([ddl_effect]), the well-formedness of a list, and the lemmas about them
    that every meta inherits. *)
From S2P Require Import Prelude Common BaseEntry.

Local Open Scope Z_scope.

Section MetaSpec.
Context {P : Type}.
Implicit Types (e h : Entry P) (l : list (Entry P)).

(** An entry that the transaction [t] has created and not committed. *)
Definition pending_of (t : Z) e : Prop :=
  is_dummy e = false /\ Committed e = false /\ txn_id_ e = t.

(** The entries that decide what a transaction [r] that began at [b] sees: the
    end marker, committed versions older than [b], and its own pending ones. *)
Definition relevant (r b : Z) e : bool :=
  is_dummy e
  || (Committed e && (b >? commit_ts_ e))
  || (negb (Committed e) && (r =? txn_id_ e)).

(** The version a reader stops at; the end marker stands for "no version". *)
Fixpoint reads (r b : Z) l : option (Entry P) :=
  match l with
  | [] => None
  | e :: rest =>
      if relevant r b e then (if is_dummy e then None else Some e)
      else reads r b rest
  end.

(** [t], which began at [b], may put a version on top of [l]: the newest
    version is the end marker, a version committed before [b], or its own. *)
Definition push_ok (t b : Z) l : Prop :=
  match l with
  | [] => True
  | h :: _ => is_dummy h = true \/ (Committed h = true /\ commit_ts_ h < b) \/ pending_of t h
  end.

Definition rolled_back (s : option TxnState) : Prop :=
  s = Some kRollbacking \/ s = Some kRollbacked.

(** The effect of one DDL call by transaction [t], which began at [b], on a
    version list.  [gs] is [TxnManager::GetTxnState]. *)
Inductive ddl_effect (gs : Z -> option TxnState) (t b : Z) : list (Entry P) -> list (Entry P) -> Prop :=
  | eff_none l : ddl_effect gs t b l l
  | eff_init e a : pending_of t e -> ddl_effect gs t b [] [e; dummy_entry a]
  | eff_push e l : l <> [] -> push_ok t b l -> pending_of t e -> ddl_effect gs t b l (e :: l)
  | eff_pop h l : pending_of t h -> ddl_effect gs t b (h :: l) l
  | eff_replace h e l :
      is_dummy h = false -> Committed h = false -> rolled_back (gs (txn_id_ h)) ->
      pending_of t e -> ddl_effect gs t b (h :: l) (e :: l).

(** What other transactions can do to a version list while [r], which began at
    [b], is running: DDL calls, the rollback of their pending entries, and the
    commit of their pending entries at a timestamp not before [b]. *)
Inductive other_step (r b : Z) : list (Entry P) -> list (Entry P) -> Prop :=
  | os_ddl gs t bt l l' :
      t <> r -> gs r = Some kStarted -> ddl_effect gs t bt l l' -> other_step r b l l'
  | os_rollback t l :
      t <> r -> (forall e, e ∈ l -> txn_id_ e = t -> pending_of t e) ->
      other_step r b l (filter (fun e => txn_id_ e <> t) l)
  | os_commit t p ts l :
      t <> r -> b <= ts -> ts < UNCOMMIT_TS ->
      (forall e, e ∈ l -> addr e = p -> pending_of t e) ->
      other_step r b l (CommitAt p ts l).

(** Committed versions from the newest to the oldest, closed by at most one end
    marker. *)
Fixpoint wf_hist l : Prop :=
  match l with
  | [] => True
  | e :: rest =>
      Committed e = true /\ (is_dummy e = true -> rest = []) /\
      Forall (fun e' => commit_ts_ e' <= commit_ts_ e) rest /\ wf_hist rest
  end.

(** A version list: pending versions of one transaction on top of the committed
    history. *)
Definition wf_versions l : Prop :=
  exists t us hs, l = us ++ hs /\ Forall (pending_of t) us /\ wf_hist hs.

(** Commit timestamps are [u64], so [commit_ts_ < UNCOMMIT_TS] and
    [Committed()] are the same test. *)
Definition u64_entries l : Prop := Forall (fun e => 0 <= commit_ts_ e <= UNCOMMIT_TS) l.

(** *** Reading *)

Lemma committed_u64 e :
  commit_ts_ e <= UNCOMMIT_TS -> (commit_ts_ e <? UNCOMMIT_TS) = Committed e.
Proof.
  intros Hle. unfold Committed.
  destruct (commit_ts_ e =? UNCOMMIT_TS) eqn:E; zbool; [apply Z.ltb_ge; lia|apply Z.ltb_lt; lia].
Qed.

Lemma u64_entries_head e l : u64_entries (e :: l) -> (commit_ts_ e <? UNCOMMIT_TS) = Committed e.
Proof. intros [? _]%Forall_cons. apply committed_u64. lia. Qed.

Lemma reads_irrelevant r b e l : relevant r b e = false -> reads r b (e :: l) = reads r b l.
Proof. intros H. simpl. by rewrite H. Qed.

Lemma pending_irrelevant t r b e : pending_of t e -> t <> r -> relevant r b e = false.
Proof.
  intros (Hd & Hc & Ht) Hne. unfold relevant. rewrite Hd, Hc. simpl.
  apply Z.eqb_neq. congruence.
Qed.

Lemma dummy_relevant r b e : is_dummy e = true -> relevant r b e = true.
Proof. unfold relevant. by intros ->. Qed.

Lemma rolled_back_irrelevant gs r b h :
  is_dummy h = false -> Committed h = false -> rolled_back (gs (txn_id_ h)) ->
  gs r = Some kStarted -> relevant r b h = false.
Proof.
  intros Hd Hc Hr Hs. apply (pending_irrelevant (txn_id_ h)); [done|].
  intros E. rewrite E in Hr. destruct Hr; congruence.
Qed.

Lemma ddl_effect_reads gs t b r br l l' :
  t <> r -> gs r = Some kStarted -> ddl_effect gs t b l l' -> reads r br l' = reads r br l.
Proof.
  intros Hne Hs []; simpl;
    repeat match goal with
    | H : pending_of _ _ |- _ => apply (pending_irrelevant _ r br) in H; [|done]; rewrite H
    end; try done.
  rewrite (rolled_back_irrelevant gs); done.
Qed.

Lemma filter_reads r b t l :
  t <> r -> (forall e, e ∈ l -> txn_id_ e = t -> pending_of t e) ->
  reads r b (filter (fun e => txn_id_ e <> t) l) = reads r b l.
Proof.
  intros Hne. induction l as [|e l IH]; intros Hp; [done|].
  rewrite filter_cons. specialize (IH ltac:(intros; apply Hp; [set_solver|done])).
  case_decide as Ht; simpl; rewrite IH; [done|].
  by rewrite (pending_irrelevant t r b e ltac:(apply Hp; [set_solver | lia])).
Qed.

Lemma Commit_irrelevant r b ts e :
  is_dummy e = false -> b <= ts -> ts < UNCOMMIT_TS -> relevant r b (Commit ts e) = false.
Proof.
  intros Hd Hb Hu. unfold relevant, Committed, is_dummy in *. simpl. rewrite Hd. simpl.
  assert ((ts =? UNCOMMIT_TS) = false) as -> by (apply Z.eqb_neq; lia). simpl.
  rewrite orb_false_r. rewrite Z.gtb_ltb. apply Z.ltb_ge. lia.
Qed.

Lemma CommitAt_reads r b t p ts l :
  t <> r -> b <= ts -> ts < UNCOMMIT_TS ->
  (forall e, e ∈ l -> addr e = p -> pending_of t e) ->
  reads r b (CommitAt p ts l) = reads r b l.
Proof.
  intros Hne Hb Hu. induction l as [|e l IH]; intros Hp; [done|].
  specialize (IH ltac:(intros; apply Hp; [set_solver|done])).
  unfold CommitAt in *. rewrite fmap_cons. case_bool_decide as Ha.
  - assert (pending_of t e) as Hpe by (apply Hp; [set_solver|done]).
    rewrite !reads_irrelevant; [done|by apply (pending_irrelevant t)|].
    apply Commit_irrelevant; [apply Hpe|done|done].
  - simpl. by rewrite IH.
Qed.

Lemma other_steps_reads r b l l' : rtc (other_step r b) l l' -> reads r b l' = reads r b l.
Proof.
  induction 1 as [|l1 l2 l3 Hs _ IH]; [done|]. rewrite IH.
  destruct Hs; eauto using ddl_effect_reads, filter_reads, CommitAt_reads.
Qed.

(** *** Latest committed version *)

Lemma wf_hist_reads r b l :
  wf_hist l ->
  match reads r b l with
  | Some e => e ∈ l /\ is_dummy e = false /\ Committed e = true /\ commit_ts_ e < b /\
      forall e', e' ∈ l -> is_dummy e' = false -> commit_ts_ e' < b -> commit_ts_ e' <= commit_ts_ e
  | None => forall e', e' ∈ l -> is_dummy e' = false -> b <= commit_ts_ e'
  end.
Proof.
  induction l as [|e l IH]; [set_solver|].
  intros (Hc & Hd & Hs & Hw). simpl. unfold relevant at 1. rewrite Hc. simpl.
  rewrite orb_false_r.
  destruct (is_dummy e) eqn:He; simpl.
  { rewrite (Hd eq_refl). intros e' [->|]%elem_of_cons; [congruence|set_solver]. }
  rewrite Forall_forall in Hs.
  destruct (b >? commit_ts_ e) eqn:Hb; zbool.
  - split_and!; [set_solver|done|done|done|].
    intros e' [->|Hin]%elem_of_cons _ _; [lia|by apply Hs].
  - specialize (IH Hw). destruct (reads r b l) as [e0|].
    + destruct IH as (? & ? & ? & ? & Hmax). split_and!; [set_solver|done|done|done|].
      intros e' [->|Hin]%elem_of_cons ? ?; [lia|by apply Hmax].
    + intros e' [->|Hin]%elem_of_cons ?; [lia|by apply IH].
Qed.

Lemma reads_skip_pending r b t us l :
  t <> r -> Forall (pending_of t) us -> reads r b (us ++ l) = reads r b l.
Proof.
  intros Hne. induction 1 as [|e us He _ IH]; [done|].
  rewrite <- app_comm_cons, reads_irrelevant; [done|by apply (pending_irrelevant t)].
Qed.

Lemma reads_skip_pending_all r b t us l :
  Forall (pending_of t) us -> (forall e, e ∈ us ++ l -> ~ pending_of r e) ->
  reads r b (us ++ l) = reads r b l.
Proof.
  intros Hus Hno. destruct us as [|u us]; [done|]. apply (reads_skip_pending _ _ t); [|done].
  intros ->. apply (Hno u); [set_solver|]. by inversion Hus.
Qed.

Lemma reads_elem r b l e : reads r b l = Some e -> e ∈ l.
Proof.
  induction l as [|e' l IH]; [done|]. simpl.
  destruct (relevant r b e'), (is_dummy e'); intros; simplify_eq/=; set_solver.
Qed.

Lemma reads_own_pending r b h l : pending_of r h -> reads r b (h :: l) = Some h.
Proof.
  intros (Hd & Hc & Ht). simpl. unfold relevant. rewrite Hd, Hc, Ht. simpl.
  by rewrite Z.eqb_refl.
Qed.

(** *** Preservation of well-formedness *)

Lemma wf_hist_head_committed h l : wf_hist (h :: l) -> Committed h = true.
Proof. by intros (? & _). Qed.

Lemma wf_versions_hist l : wf_hist l -> wf_versions l.
Proof. intros. exists 0, [], l. by repeat constructor. Qed.

Lemma dummy_is_dummy a : is_dummy (P := P) (dummy_entry a) = true.
Proof. done. Qed.

Lemma dummy_committed a : Committed (P := P) (dummy_entry a) = true.
Proof. done. Qed.

Lemma wf_hist_dummy a : wf_hist [@dummy_entry P a].
Proof. by split_and!; try constructor. Qed.

(** A DDL call keeps the list well-formed unless it overwrites the pending
    entry of a transaction that is rolling back. *)
Lemma ddl_effect_wf gs t b l l' :
  (forall h rest, l = h :: rest -> Committed h = false -> ~ rolled_back (gs (txn_id_ h))) ->
  wf_versions l -> ddl_effect gs t b l l' -> wf_versions l'.
Proof.
  intros Hnr (t0 & us & hs & -> & Hus & Hhs) Heff.
  remember (us ++ hs) as l0 eqn:El. destruct Heff as [l|e a He|e l Hne Hok He|h l Hh|h e l Hd Hc Hr He].
  - exists t0, us, hs. by subst.
  - exists t, [e], [dummy_entry a]. split_and!; [done|by constructor|apply wf_hist_dummy].
  - destruct us as [|u us]; simpl in El; subst l.
    + exists t, [e], hs. split_and!; [done|by constructor|done].
    + assert (t0 = t) as ->.
      { inversion Hus as [|? ? Hu _]; subst. destruct Hu as (Hd & Hc & Ht).
        destruct Hok as [?|[[? ?]|(_ & _ & ?)]]; congruence. }
      exists t, (e :: u :: us), hs. split_and!; [done| by constructor |done].
  - destruct us as [|u us]; simpl in El.
    + subst hs. apply wf_hist_head_committed in Hhs. destruct Hh as (_ & ? & _). congruence.
    + injection El as -> ->. exists t0, us, hs. split_and!; [done| by inversion Hus|done].
  - exfalso. by eapply Hnr.
Qed.

Lemma wf_hist_committed l e : wf_hist l -> e ∈ l -> Committed e = true.
Proof.
  induction l as [|h l IH]; [set_solver|].
  intros (Hc & _ & _ & Hw) [->|]%elem_of_cons; auto.
Qed.

(** First updater wins, part one: where [t] may push, every pending version is
    its own. *)
Lemma push_ok_pending t b l e :
  wf_versions l -> push_ok t b l -> e ∈ l -> Committed e = false -> pending_of t e.
Proof.
  intros (t0 & us & hs & -> & Hus & Hhs) Hok Hin Hc.
  apply elem_of_app in Hin as [Hin|Hin];
    [|by rewrite (wf_hist_committed hs e) in Hc].
  rewrite Forall_forall in Hus. destruct us as [|u us]; [set_solver|].
  pose proof (Hus u ltac:(by left)) as (Hud & Huc & Hut).
  destruct Hok as [?|[[? ?]|(_ & _ & ?)]]; [congruence|congruence|].
  assert (t0 = t) as <- by congruence. by apply Hus.
Qed.

(** Part two: where nothing is pending, [t] has seen every committed version. *)
Lemma push_ok_seen t b l e :
  wf_versions l -> push_ok t b l -> Forall (fun e' => Committed e' = true) l ->
  e ∈ l -> is_dummy e = false -> commit_ts_ e < b.
Proof.
  intros (t0 & us & hs & -> & Hus & Hhs) Hok Hall Hin Hd.
  destruct us as [|u us].
  - simpl in *. destruct hs as [|h hs]; [set_solver|].
    destruct Hhs as (Hc & Hdum & Hs & _).
    destruct Hok as [Hh|[[_ Hlt]|(_ & ? & _)]].
    + rewrite (Hdum Hh) in Hin. apply list_elem_of_singleton in Hin. congruence.
    + rewrite Forall_forall in Hs. apply elem_of_cons in Hin as [->|Hin]; [done|].
      specialize (Hs _ Hin). lia.
    + congruence.
  - apply Forall_cons in Hall as [Hu _]. inversion Hus as [|? ? (_ & ? & _) _]. congruence.
Qed.

(** Where [t] may push, it reads the newest version. *)
Lemma push_ok_reads_head t b h l :
  push_ok t b (h :: l) -> reads t b (h :: l) = if is_dummy h then None else Some h.
Proof.
  simpl. unfold relevant. intros [->|[[Hc Hlt]|(Hd & Hc & Ht)]]; [done|..].
  - rewrite Hc. assert ((b >? commit_ts_ h) = true) as -> by (rewrite Z.gtb_ltb; by apply Z.ltb_lt).
    simpl. by rewrite orb_true_r.
  - rewrite Hd, Hc, Ht, Z.eqb_refl. done.
Qed.

(** *** Rolling back *)

(** [l] is [l0] with pending entries of [t] on top (an empty [l0] has gained its
    end marker). *)
Definition stacked (t : Z) l0 l : Prop :=
  exists us, Forall (pending_of t) us /\
    (l = us ++ l0 \/ (l0 = [] /\ exists a, l = us ++ [dummy_entry a])).

Lemma stacked_step gs t b l0 l l' :
  gs t = Some kStarted ->
  (forall e, e ∈ l0 -> txn_id_ e <> t) ->
  (forall h rest, l0 = h :: rest -> Committed h = false -> ~ rolled_back (gs (txn_id_ h))) ->
  stacked t l0 l -> ddl_effect gs t b l l' -> stacked t l0 l'.
Proof.
  intros Hs Hno Hnr Hst Heff.
  destruct Heff as [l|e a He|e l Hne Hok He|h l Hh|h e l Hd Hc Hr He]; [done|..];
    destruct Hst as (us & Hus & Hl).
  - exists [e]. split; [by constructor|right]. split; [|by exists a].
    destruct Hl as [Hl|[-> _]]; [|done]. by destruct us, l0.
  - exists (e :: us). split; [by constructor|].
    destruct Hl as [->|(-> & a & ->)]; [by left|right; eauto].
  - destruct us as [|u us].
    + exfalso. destruct Hh as (Hd & _ & Ht). simpl in Hl.
      destruct Hl as [<-|(_ & a & [= -> _])]; [by apply (Hno h); [set_solver|]|done].
    + exists us. split; [by inversion Hus|].
      destruct Hl as [[= _ ->]|(-> & a & [= _ ->])]; [by left|right; eauto].
  - exfalso. destruct us as [|u us].
    + destruct Hl as [Hl|(_ & a & [= -> _])]; [|done]. by eapply Hnr.
    + assert (h = u) as -> by (destruct Hl as [[= ? _]|(_ & a & [= ? _])]; done).
      apply Forall_cons in Hus as [(_ & _ & Ht) _]. rewrite Ht in Hr. destruct Hr; congruence.
Qed.

Lemma filter_pending t us : Forall (pending_of t) us -> filter (fun e => txn_id_ e <> t) us = [].
Proof.
  induction 1 as [|e us (_ & _ & Ht) _ IH]; [done|].
  rewrite filter_cons_False; [done|]. intros Hne. by apply Hne.
Qed.

Lemma filter_other t l : (forall e, e ∈ l -> txn_id_ e <> t) -> filter (fun e => txn_id_ e <> t) l = l.
Proof.
  induction l as [|e l IH]; intros H; [done|].
  rewrite filter_cons_True by (apply H; by left).
  f_equal. apply IH. intros. apply H. by right.
Qed.

(** Deleting the entries of [t] after any number of its DDL calls gives the
    original list back, up to the end marker of a list that was empty. *)
Lemma stacked_delete t l0 l :
  t <> 0 -> (forall e, e ∈ l0 -> txn_id_ e <> t) -> stacked t l0 l ->
  filter (fun e => txn_id_ e <> t) l = l0 \/
  (l0 = [] /\ exists a, filter (fun e => txn_id_ e <> t) l = [dummy_entry a]).
Proof.
  intros Ht Hno (us & Hus & Hl).
  assert (forall l1 : list (Entry P), filter (fun e => txn_id_ e <> t) (us ++ l1) = filter (fun e => txn_id_ e <> t) l1) as E.
  { intros l1. by rewrite filter_app, (filter_pending t us). }
  destruct Hl as [->|(-> & a & ->)]; rewrite E.
  - left. by apply filter_other.
  - right. split; [done|]. exists a. apply filter_other.
    intros e ->%list_elem_of_singleton. simpl. lia.
Qed.
End MetaSpec.

Create HintDb meta.
#[export] Hint Resolve pending_irrelevant reads_own_pending wf_hist_dummy wf_versions_hist : meta.
#[export] Hint Constructors ddl_effect other_step : meta.

(** ** The interface of a meta

    [vm_ddl gs t b m m'] holds when one of the meta's DDL calls, made by [t]
    which began at [b], returned and took [m] to [m']. *)
Class VersionedMeta (P M : Type) := {
  vm_list : M -> list (Entry P);
  vm_ddl : (Z -> option TxnState) -> Z -> Z -> M -> M -> Prop;
  vm_rollback : M -> Z -> M;
  vm_commit : M -> ptr -> Z -> M;
}.

Class VersionedMetaLaws (P M : Type) `{VersionedMeta P M} := {
  vm_ddl_effect gs t b m m' : vm_ddl gs t b m m' -> ddl_effect gs t b (vm_list m) (vm_list m');
  vm_rollback_list m t : vm_list (vm_rollback m t) = filter (fun e => txn_id_ e <> t) (vm_list m);
  vm_commit_list m p ts : vm_list (vm_commit m p ts) = CommitAt p ts (vm_list m);
}.

Section VersionedMeta.
Context {P M : Type} `{VersionedMetaLaws P M}.
Implicit Types (m : M).

(** The steps other transactions take on a meta while [r], which began at [b],
    is running. *)
Inductive vm_step (r b : Z) : M -> M -> Prop :=
  | vs_ddl gs t bt m m' :
      t <> r -> gs r = Some kStarted -> vm_ddl gs t bt m m' -> vm_step r b m m'
  | vs_rollback t m :
      t <> r -> (forall e, e ∈ vm_list m -> txn_id_ e = t -> pending_of t e) ->
      vm_step r b m (vm_rollback m t)
  | vs_commit t p ts m :
      t <> r -> b <= ts -> ts < UNCOMMIT_TS ->
      (forall e, e ∈ vm_list m -> addr e = p -> pending_of t e) ->
      vm_step r b m (vm_commit m p ts).

Lemma vm_step_other r b m m' : vm_step r b m m' -> other_step r b (vm_list m) (vm_list m').
Proof.
  destruct 1.
  - eapply os_ddl; eauto using vm_ddl_effect.
  - rewrite vm_rollback_list. by apply os_rollback.
  - rewrite vm_commit_list. by apply (os_commit _ _ t).
Qed.

Lemma vm_steps_reads r b m m' :
  rtc (vm_step r b) m m' -> reads r b (vm_list m') = reads r b (vm_list m).
Proof.
  intros Hr. apply other_steps_reads.
  induction Hr; [done|]. eapply rtc_l; eauto using vm_step_other.
Qed.

(** Any number of DDL calls of [t] followed by its rollback. *)
Lemma vm_rollback_restores gs t b m m' :
  t <> 0 -> gs t = Some kStarted ->
  (forall e, e ∈ vm_list m -> txn_id_ e <> t) ->
  (forall h rest, vm_list m = h :: rest -> Committed h = false -> ~ rolled_back (gs (txn_id_ h))) ->
  rtc (vm_ddl gs t b) m m' ->
  vm_list (vm_rollback m' t) = vm_list m \/
  (vm_list m = [] /\ exists a, vm_list (vm_rollback m' t) = [dummy_entry a]).
Proof.
  intros Ht Hs Hno Hnr Hr. rewrite vm_rollback_list. apply stacked_delete; [done|done|].
  set (l0 := vm_list m) in *.
  assert (stacked t l0 (vm_list m)) as Hst by (exists []; split; [constructor|by left]).
  clearbody l0. induction Hr as [|m1 m2 m3 Hd _ IH]; [done|]. apply IH.
  eapply stacked_step; eauto using vm_ddl_effect.
Qed.
End VersionedMeta.
