(* ===== verification/DBMeta.v ===== *)
(** [storage/meta/db_meta.cpp]: the version list of one database name.

    [T] is the type of the table metas a [DBEntry] owns.  Every operation runs
    under the meta's [rw_locker_], so it is one atomic step of the model.  The
    out parameter [BaseEntry *&res_entry] is returned as an optional address;
    [a] and [ad] are the addresses the allocator returns for a new entry and a
    new dummy entry. *)
From S2P Require Import Prelude Common BaseEntry MetaSpec.
From stdpp Require Import pretty.

Local Open Scope Z_scope.

(** [storage/meta/entry/db_entry.cppm]: the derived part of a [DBEntry] *)
Record DBData (T : Type) := mkDBData {
  db_entry_dir_ : string;
  db_name_ : string;
  tables_ : gmap string T;
}.

Arguments mkDBData {T} _ _ _.
Arguments db_entry_dir_ {T} _.
Arguments db_name_ {T} _.
Arguments tables_ {T} _.

Record DBMeta (T : Type) := mkDBMeta {
  meta_db_name_ : string;
  meta_data_dir_ : string;
  db_entry_list_ : list (Entry (DBData T));
}.

Arguments mkDBMeta {T} _ _ _.
Arguments meta_db_name_ {T} _.
Arguments meta_data_dir_ {T} _.
Arguments db_entry_list_ {T} _.

Section DBMeta.
Context {T : Type}.
Implicit Types (db_meta : DBMeta T).

Definition with_entries db_meta (l : list (Entry (DBData T))) : DBMeta T :=
  mkDBMeta (meta_db_name_ db_meta) (meta_data_dir_ db_meta) l.

(** [DBEntry::DBEntry] *)
Definition NewDBEntry (a : ptr) (data_dir db_name : string) (txn_id begin_ts : Z) : Entry (DBData T) :=
  mkEntry a txn_id begin_ts UNCOMMIT_TS false kDatabase
    (Some (mkDBData (data_dir +:+ "/" +:+ db_name +:+ "/txn_" +:+ pretty txn_id) db_name ∅)).

(** [DBMeta::CreateNewEntry] *)
Definition CreateNewEntry db_meta (a ad : ptr) (txn_id begin_ts : Z)
    (txn_mgr : Z -> option TxnState) (conflict_type : ConflictType)
    : outcome (ErrorCode * DBMeta T * option ptr) :=
  let db_entry := NewDBEntry a (meta_data_dir_ db_meta) (meta_db_name_ db_meta) txn_id begin_ts in
  let emplace_front l := Ret (kOk, with_entries db_meta (db_entry :: l), Some a) in
  match db_entry_list_ db_meta with
  | [] => Ret (kOk, with_entries db_meta [db_entry; dummy_entry ad], Some a)
  | header :: rest =>
      if is_dummy header then emplace_front (header :: rest)
      else if Committed header then
        if begin_ts >? commit_ts_ header then
          if deleted_ header then emplace_front (header :: rest)
          else match conflict_type with
               | kIgnore => Ret (kOk, db_meta, Some (addr header))
               | _ => Ret (kDuplicate, db_meta, None)
               end
        else Ret (kWWConflict, db_meta, None)
      else
        match txn_mgr (txn_id_ header) with
        | None => UB "txn_map_[txn_id] is null"
        | Some kStarted =>
            if txn_id_ header =? txn_id then
              if deleted_ header then emplace_front (header :: rest)
              else Ret (kDuplicate, db_meta, None)
            else Ret (kWWConflict, db_meta, None)
        | Some (kCommitting | kCommitted) => Ret (kWWConflict, db_meta, None)
        | Some (kRollbacking | kRollbacked) => emplace_front rest
        | Some _ => Ret (kUndefined, db_meta, None)
        end
  end.

(** [DBMeta::DropNewEntry] *)
Definition DropNewEntry db_meta (a : ptr) (txn_id begin_ts : Z)
    : ErrorCode * DBMeta T * option ptr :=
  match db_entry_list_ db_meta with
  | [] => (kNotFound, db_meta, None)
  | header :: rest =>
      if is_dummy header then (kNotFound, db_meta, None)
      else if Committed header then
        if begin_ts >? commit_ts_ header then
          if deleted_ header then (kNotFound, db_meta, None)
          else
            let db_entry := NewDBEntry a (meta_data_dir_ db_meta) (meta_db_name_ db_meta) txn_id begin_ts in
            (kOk, with_entries db_meta (set_deleted true db_entry :: header :: rest), Some a)
        else (kWWConflict, db_meta, None)
      else if txn_id =? txn_id_ header then
        (kOk, with_entries db_meta rest, Some (addr header))
      else (kWWConflict, db_meta, None)
  end.

(** [DBMeta::AddEntry] *)
Definition AddEntry db_meta (db_entry : Entry (DBData T)) : DBMeta T :=
  with_entries db_meta (db_entry :: db_entry_list_ db_meta).

(** [DBMeta::DeleteNewEntry] *)
Definition DeleteNewEntry db_meta (txn_id : Z) : DBMeta T :=
  match db_entry_list_ db_meta with
  | [] => db_meta
  | l => with_entries db_meta (filter (fun e => txn_id_ e <> txn_id) l)
  end.

(** The loop of [DBMeta::GetEntry] *)
Fixpoint GetEntryLoop (l : list (Entry (DBData T))) (txn_id begin_ts : Z)
    : ErrorCode * option (Entry (DBData T)) :=
  match l with
  | [] => (kNotFound, None)
  | db_entry :: rest =>
      if is_dummy db_entry then (kNotFound, None)
      else if Committed db_entry then
        if begin_ts >? commit_ts_ db_entry then
          if deleted_ db_entry then (kNotFound, None) else (kOk, Some db_entry)
        else GetEntryLoop rest txn_id begin_ts
      else if txn_id =? txn_id_ db_entry then
        if deleted_ db_entry then (kNotFound, None) else (kOk, Some db_entry)
      else GetEntryLoop rest txn_id begin_ts
  end.

(** [DBMeta::GetEntry] *)
Definition GetEntry db_meta (txn_id begin_ts : Z) : ErrorCode * option (Entry (DBData T)) :=
  match db_entry_list_ db_meta with
  | [] => (kNotFound, None)
  | l => GetEntryLoop l txn_id begin_ts
  end.

(** The candidate selection of [DBMeta::Serialize]: the entries a checkpoint at
    [max_commit_ts] writes. *)
Definition SerializeCandidates db_meta (max_commit_ts : Z) : list (Entry (DBData T)) :=
  filter (fun e => entry_type_ e = kDatabase /\ commit_ts_ e <= max_commit_ts) (db_entry_list_ db_meta).

(** [DBMeta::MergeFrom]; [EntryMergeFrom] is [DBEntry::MergeFrom]. *)
Definition MergeFrom (EntryMergeFrom : Entry (DBData T) -> Entry (DBData T) -> outcome (Entry (DBData T)))
    db_meta (other : DBMeta T) : outcome (DBMeta T) :=
  if negb (bool_decide (meta_db_name_ db_meta = meta_db_name_ other)) then
    Throw StorageException "DBMeta::MergeFrom requires db_name_ match"
  else if negb (bool_decide (meta_data_dir_ db_meta = meta_data_dir_ other)) then
    Throw StorageException "DBMeta::MergeFrom requires db_dir_ match"
  else
    l ← MergeLists EntryMergeFrom (db_entry_list_ db_meta) (db_entry_list_ other);
    Ret (with_entries db_meta l).

(** ** Properties *)

Lemma NewDBEntry_pending a d n t b : pending_of t (NewDBEntry a d n t b).
Proof. done. Qed.

Lemma NewDBEntry_deleted_pending a d n t b : pending_of t (set_deleted true (NewDBEntry a d n t b)).
Proof. done. Qed.

Lemma DB_GetEntryLoop_reads l r b :
  GetEntryLoop l r b =
    match reads r b l with
    | Some e => if deleted_ e then (kNotFound, None) else (kOk, Some e)
    | None => (kNotFound, None)
    end.
Proof.
  induction l as [|e l IH]; [done|]. simpl. unfold relevant.
  destruct (is_dummy e) eqn:Hd, (Committed e) eqn:Hc, (b >? commit_ts_ e), (r =? txn_id_ e);
    simpl; rewrite ?IH, ?Hd; done.
Qed.

Lemma DB_GetEntry_reads m r b :
  GetEntry m r b =
    match reads r b (db_entry_list_ m) with
    | Some e => if deleted_ e then (kNotFound, None) else (kOk, Some e)
    | None => (kNotFound, None)
    end.
Proof.
  unfold GetEntry. rewrite <- DB_GetEntryLoop_reads. by destruct (db_entry_list_ m).
Qed.

Lemma DB_CreateNewEntry_effect m a ad t b gs ct st m' p :
  CreateNewEntry m a ad t b gs ct = Ret (st, m', p) ->
  ddl_effect gs t b (db_entry_list_ m) (db_entry_list_ m').
Proof.
  unfold CreateNewEntry. destruct (db_entry_list_ m) as [|h rest] eqn:El.
  { intros [= _ <- _]. apply eff_init, NewDBEntry_pending. }
  intros Hc. repeat (destruct_match_in Hc; simplify_eq/=; zbool);
    rewrite ?El; try apply eff_none;
    try (apply eff_replace; [done|done|unfold rolled_back; naive_solver|apply NewDBEntry_pending]);
    apply eff_push; try done; simpl; auto.
  right; right. done.
Qed.

Lemma DB_DropNewEntry_effect gs m a t b st m' p :
  DropNewEntry m a t b = (st, m', p) -> ddl_effect gs t b (db_entry_list_ m) (db_entry_list_ m').
Proof.
  unfold DropNewEntry. destruct (db_entry_list_ m) as [|h rest] eqn:El; intros Hc.
  { simplify_eq. rewrite El. apply eff_none. }
  repeat (destruct_match_in Hc; simplify_eq/=; zbool); rewrite ?El; try apply eff_none.
  - apply eff_push; [done|simpl; auto|apply NewDBEntry_deleted_pending].
  - by apply eff_pop.
Qed.

Lemma DB_DeleteNewEntry_list m t :
  db_entry_list_ (DeleteNewEntry m t) = filter (fun e => txn_id_ e <> t) (db_entry_list_ m).
Proof. unfold DeleteNewEntry. by destruct (db_entry_list_ m) eqn:E; rewrite ?E. Qed.

#[export] Instance DBMeta_versioned : VersionedMeta (DBData T) (DBMeta T) := {
  vm_list := db_entry_list_;
  vm_ddl gs t b m m' :=
    (exists a ad ct st p, CreateNewEntry m a ad t b gs ct = Ret (st, m', p)) \/
    (exists a st p, DropNewEntry m a t b = (st, m', p));
  vm_rollback := DeleteNewEntry;
  vm_commit m p ts := with_entries m (CommitAt p ts (db_entry_list_ m));
}.

#[export] Instance DBMeta_versioned_laws : VersionedMetaLaws (DBData T) (DBMeta T).
Proof.
  split.
  - intros gs t b m m' [(? & ? & ? & ? & ? & Hc)|(? & ? & ? & Hd)];
      eauto using DB_CreateNewEntry_effect, DB_DropNewEntry_effect.
  - apply DB_DeleteNewEntry_list.
  - done.
Qed.

End DBMeta.
