(* ===== verification/IndexMeta.v ===== *)
(** [storage/meta/table_index_meta.cpp] and the constructors of
    [storage/meta/entry/table_index_entry.cpp]: the version list of one index
    name of a table. *)
From S2P Require Import Prelude Common BaseEntry Defs MetaSpec.

Local Open Scope Z_scope.

(** The derived part of a [TableIndexEntry]: [index_def_] is null in the entry
    that [NewDropTableIndexEntry] makes. *)
Record IndexData := mkIndexData {
  index_def_ : option IndexDef;
  index_dir_ : string;
  column_index_map_ : gmap Z IndexBase;
  irs_index_entry_ : bool;
}.

Record TableIndexMeta := mkTableIndexMeta {
  meta_index_name_ : string;
  index_entry_list_ : list (Entry IndexData);
}.

Definition with_entries (m : TableIndexMeta) (l : list (Entry IndexData)) : TableIndexMeta :=
  mkTableIndexMeta (meta_index_name_ m) l.

(** [TableCollectionEntry::GetColumnIdByName]; [column_name2column_id_] is filled
    in column order, so the last column of a name wins. *)
Definition column_name2column_id (columns : list ColumnDef) : gmap string Z :=
  list_to_map (reverse (imap (fun idx c => (name_ c, Z.of_nat idx)) columns)).

Definition GetColumnIdByName (columns : list ColumnDef) (column_name : string) : outcome Z :=
  match column_name2column_id columns !! column_name with
  | Some id => Ret id
  | None => Throw NotImplementException "No column name"
  end.

(** The loop of [TableIndexEntry::TableIndexEntry]: the column indexes made so
    far and whether a full-text column was met. *)
Fixpoint TableIndexEntryColumns (columns : list ColumnDef) (index_array : list IndexBase)
    (column_index_map : gmap Z IndexBase) (full_text : bool) : outcome (gmap Z IndexBase * bool) :=
  match index_array with
  | [] => Ret (column_index_map, full_text)
  | index_base :: rest =>
      match column_names_ index_base with
      | [column_name] =>
          column_id ← GetColumnIdByName columns column_name;
          match index_param_ index_base with
          | IndexFullText _ => TableIndexEntryColumns columns rest column_index_map true
          | _ => TableIndexEntryColumns columns rest (<[column_id := index_base]> column_index_map) full_text
          end
      | _ => Throw StorageException "Currently, composite index doesn't supported."
      end
  end.

(** [TableIndexEntry::NewTableIndexEntry]; [index_dir] is the random directory
    that [DetermineIndexDir] created. *)
Definition NewTableIndexEntry (columns : list ColumnDef) (index_dir : string) (a : ptr)
    (index_def : IndexDef) (txn_id begin_ts : Z) : outcome (Entry IndexData) :=
  '(column_index_map, full_text) ← TableIndexEntryColumns columns (index_array_ index_def) ∅ false;
  Ret (mkEntry a txn_id begin_ts UNCOMMIT_TS false kTableIndex
         (Some (mkIndexData (Some index_def) index_dir column_index_map full_text))).

(** [TableIndexEntry::NewDropTableIndexEntry] *)
Definition NewDropTableIndexEntry (a : ptr) (txn_id begin_ts : Z) : Entry IndexData :=
  mkEntry a txn_id begin_ts UNCOMMIT_TS false kTableIndex (Some (mkIndexData None "" ∅ false)).

(** [TableIndexMeta::CreateTableIndexEntryInternal].  The constructor of the new
    entry can throw after the list was changed, so the list is returned
    whatever the outcome. *)
Definition CreateTableIndexEntryInternal (m : TableIndexMeta) (columns : list ColumnDef) (index_dir : string)
    (a ad : ptr) (index_def : IndexDef) (txn_id begin_ts : Z) (txn_mgr : Z -> option TxnState)
    : TableIndexMeta * outcome (ErrorCode * option ptr) :=
  let emplace_front l :=
    match NewTableIndexEntry columns index_dir a index_def txn_id begin_ts with
    | Ret table_index_entry => (with_entries m (table_index_entry :: l), Ret (kOk, Some a))
    | Throw e s => (with_entries m l, Throw e s)
    | UB s => (with_entries m l, UB s)
    end in
  match index_entry_list_ m with
  | [] => emplace_front [dummy_entry ad]
  | header :: rest =>
      if is_dummy header then emplace_front (header :: rest)
      else if Committed header then
        if begin_ts >? commit_ts_ header then
          if deleted_ header then emplace_front (header :: rest)
          else (m, Ret (kDuplicate, None))
        else (m, Ret (kWWConflict, None))
      else
        match txn_mgr (txn_id_ header) with
        | None => (m, UB "txn_map_[txn_id] is null")
        | Some kStarted =>
            if txn_id_ header =? txn_id then
              if deleted_ header then emplace_front (header :: rest)
              else (m, Ret (kDuplicate, None))
            else (m, Ret (kWWConflict, None))
        | Some (kCommitting | kCommitted) => (m, Ret (kWWConflict, None))
        | Some (kRollbacking | kRollbacked) => emplace_front rest
        | Some _ => (m, Ret (kUndefined, None))
        end
  end.

(** [TableIndexMeta::CreateTableIndexEntry] *)
Definition CreateTableIndexEntry (m : TableIndexMeta) (columns : list ColumnDef) (index_dir : string)
    (a ad : ptr) (index_def : IndexDef) (conflict_type : ConflictType) (txn_id begin_ts : Z)
    (txn_mgr : Z -> option TxnState) : TableIndexMeta * outcome (ErrorCode * option ptr) :=
  let '(m', o) := CreateTableIndexEntryInternal m columns index_dir a ad index_def txn_id begin_ts txn_mgr in
  (m', '(st, p) ← o; st' ← CheckDDLResult st conflict_type; Ret (st', p)).

(** [TableIndexMeta::DropTableIndexEntryInternal] *)
Definition DropTableIndexEntryInternal (m : TableIndexMeta) (a : ptr) (txn_id begin_ts : Z)
    : ErrorCode * TableIndexMeta * option ptr :=
  match index_entry_list_ m with
  | [] => (kNotFound, m, None)
  | header :: rest =>
      if is_dummy header then (kNotFound, m, None)
      else if Committed header then
        if begin_ts >? commit_ts_ header then
          if deleted_ header then (kNotFound, m, None)
          else (kOk, with_entries m (set_deleted true (NewDropTableIndexEntry a txn_id begin_ts) :: header :: rest), Some a)
        else (kWWConflict, m, None)
      else if txn_id =? txn_id_ header then
        (kOk, with_entries m rest, Some (addr header))
      else (kWWConflict, m, None)
  end.

(** [TableIndexMeta::DropTableIndexEntry] *)
Definition DropTableIndexEntry (m : TableIndexMeta) (a : ptr) (conflict_type : ConflictType) (txn_id begin_ts : Z)
    : TableIndexMeta * outcome (ErrorCode * option ptr) :=
  let '(st, m', p) := DropTableIndexEntryInternal m a txn_id begin_ts in
  (m', st' ← CheckDDLResult st conflict_type; Ret (st', p)).

(** [TableIndexMeta::GetEntry] *)
Fixpoint GetEntryLoop (l : list (Entry IndexData)) (txn_id begin_ts : Z) : ErrorCode * option (Entry IndexData) :=
  match l with
  | [] => (kNotFound, None)
  | entry :: rest =>
      if is_dummy entry then (kNotFound, None)
      else if commit_ts_ entry <? UNCOMMIT_TS then
        if begin_ts >? commit_ts_ entry then
          if deleted_ entry then (kNotFound, None) else (kOk, Some entry)
        else GetEntryLoop rest txn_id begin_ts
      else if txn_id =? txn_id_ entry then (kOk, Some entry)
      else GetEntryLoop rest txn_id begin_ts
  end.

Definition GetEntry (m : TableIndexMeta) (txn_id begin_ts : Z) : ErrorCode * option (Entry IndexData) :=
  GetEntryLoop (index_entry_list_ m) txn_id begin_ts.

(** [TableIndexMeta::DeleteNewEntry] *)
Definition DeleteNewEntry (m : TableIndexMeta) (txn_id : Z) : TableIndexMeta :=
  match index_entry_list_ m with
  | [] => m
  | l => with_entries m (filter (fun e => txn_id_ e <> txn_id) l)
  end.

(** [TableIndexMeta::MergeFrom]; a [TableIndexEntry] inherits the empty
    [BaseEntry::MergeFrom]. *)
Definition MergeFrom (m other : TableIndexMeta) : outcome TableIndexMeta :=
  if negb (bool_decide (meta_index_name_ m = meta_index_name_ other)) then
    Throw StorageException "TableIndexMeta::MergeFrom requires index_name_ match"
  else
    l ← MergeLists (fun e _ => Ret e) (index_entry_list_ m) (index_entry_list_ other);
    Ret (with_entries m l).

(** ** Properties *)

Lemma NewTableIndexEntry_pending columns dir a d t b e :
  NewTableIndexEntry columns dir a d t b = Ret e -> pending_of t e.
Proof.
  unfold NewTableIndexEntry. destruct TableIndexEntryColumns as [[? ?]| |]; simpl; [|done..].
  by intros [= <-].
Qed.

Lemma CreateTableIndexEntryInternal_effect m columns dir a ad d t b gs m' o :
  CreateTableIndexEntryInternal m columns dir a ad d t b gs = (m', o) -> is_ret o = true ->
  ddl_effect gs t b (index_entry_list_ m) (index_entry_list_ m').
Proof.
  unfold CreateTableIndexEntryInternal.
  destruct (NewTableIndexEntry columns dir a d t b) as [e| |] eqn:En.
  1: apply NewTableIndexEntry_pending in En.
  all: destruct (index_entry_list_ m) as [|h rest] eqn:El;
    intros Hc; repeat (destruct_match_in Hc; simplify_eq/=; zbool); intros Ho;
    simplify_eq/=; rewrite ?El; try done; try apply eff_none; try (by apply eff_init);
    try (apply eff_replace; [done|done|unfold rolled_back; naive_solver|done]);
    apply eff_push; try done; simpl; auto.
  right; right. done.
Qed.

Lemma DropTableIndexEntryInternal_effect gs m a t b st m' p :
  DropTableIndexEntryInternal m a t b = (st, m', p) ->
  ddl_effect gs t b (index_entry_list_ m) (index_entry_list_ m').
Proof.
  unfold DropTableIndexEntryInternal. destruct (index_entry_list_ m) as [|h rest] eqn:El; intros Hc.
  { simplify_eq. rewrite El. apply eff_none. }
  repeat (destruct_match_in Hc; simplify_eq/=; zbool); rewrite ?El; try apply eff_none.
  - by apply eff_push; [done|simpl; auto|].
  - by apply eff_pop.
Qed.

Lemma Index_DeleteNewEntry_list m t :
  index_entry_list_ (DeleteNewEntry m t) = filter (fun e => txn_id_ e <> t) (index_entry_list_ m).
Proof. unfold DeleteNewEntry. by destruct (index_entry_list_ m) eqn:E; rewrite ?E. Qed.

#[export] Instance TableIndexMeta_versioned : VersionedMeta IndexData TableIndexMeta := {
  vm_list := index_entry_list_;
  vm_ddl gs t b m m' :=
    (exists columns dir a ad d ct o,
       CreateTableIndexEntry m columns dir a ad d ct t b gs = (m', o) /\
       is_ret (snd (CreateTableIndexEntryInternal m columns dir a ad d t b gs)) = true) \/
    (exists a ct o, DropTableIndexEntry m a ct t b = (m', o));
  vm_rollback := DeleteNewEntry;
  vm_commit m p ts := with_entries m (CommitAt p ts (index_entry_list_ m));
}.

#[export] Instance TableIndexMeta_versioned_laws : VersionedMetaLaws IndexData TableIndexMeta.
Proof.
  split.
  - intros gs t b m m' [(columns & dir & a & ad & d & ct & o & Hc & Ho)|(a & ct & o & Hd)]; simpl.
    + unfold CreateTableIndexEntry in Hc.
      destruct (CreateTableIndexEntryInternal _ _ _ _ _ _ _ _ _) as [m1 o1] eqn:E. simplify_eq/=.
      by eapply CreateTableIndexEntryInternal_effect.
    + unfold DropTableIndexEntry in Hd.
      destruct (DropTableIndexEntryInternal m a t b) as [[st m1] p] eqn:E. simplify_eq/=.
      by eapply DropTableIndexEntryInternal_effect.
  - apply Index_DeleteNewEntry_list.
  - done.
Qed.

Lemma Index_GetEntryLoop_reads l r b :
  u64_entries l ->
  GetEntryLoop l r b =
    match reads r b l with
    | Some e => if (deleted_ e && Committed e)%bool then (kNotFound, None) else (kOk, Some e)
    | None => (kNotFound, None)
    end.
Proof.
  induction 1 as [|e l He _ IH]; [done|]. simpl. rewrite committed_u64 by lia. unfold relevant.
  destruct (is_dummy e) eqn:Hd, (Committed e) eqn:Hc, (b >? commit_ts_ e), (r =? txn_id_ e);
    simpl; rewrite ?IH, ?Hd, ?Hc, ?andb_true_r, ?andb_false_r; done.
Qed.
