(* ===== verification/TableMeta.v ===== *)
(** [storage/meta/table_collection_meta.cpp]: the version list of one table name
    of a database, and the constructor of [TableCollectionEntry].

    [D] is the type of the table's stored data (its segments). *)
From S2P Require Import Prelude Common BaseEntry Defs MetaSpec IndexMeta.
From stdpp Require Import pretty.

Local Open Scope Z_scope.

Inductive TableCollectionType := kTableEntry | kCollectionEntry.

#[export] Instance TableCollectionType_eq_dec : EqDecision TableCollectionType.
Proof. solve_decision. Defined.

(** The derived part of a [TableCollectionEntry]. *)
Record TableData (D : Type) := mkTableData {
  table_entry_dir_ : string;
  table_collection_name_ : string;
  table_columns_ : list ColumnDef;
  table_collection_type_ : TableCollectionType;
  table_data_ : D;
  index_meta_map_ : gmap string TableIndexMeta;
}.

Arguments mkTableData {D} _ _ _ _ _ _.
Arguments table_entry_dir_ {D} _.
Arguments table_collection_name_ {D} _.
Arguments table_columns_ {D} _.
Arguments table_collection_type_ {D} _.
Arguments table_data_ {D} _.
Arguments index_meta_map_ {D} _.

Record TableCollectionMeta (D : Type) := mkTableCollectionMeta {
  meta_db_entry_dir_ : string;
  meta_table_collection_name_ : string;
  table_entry_list_ : list (Entry (TableData D));
}.

Arguments mkTableCollectionMeta {D} _ _ _.
Arguments meta_db_entry_dir_ {D} _.
Arguments meta_table_collection_name_ {D} _.
Arguments table_entry_list_ {D} _.

Section TableMeta.
(** [empty_data] is the state of the data members of a new entry. *)
Context {D : Type} (empty_data : D).
Implicit Types (table_meta : TableCollectionMeta D).

Definition with_entries table_meta (l : list (Entry (TableData D))) : TableCollectionMeta D :=
  mkTableCollectionMeta (meta_db_entry_dir_ table_meta) (meta_table_collection_name_ table_meta) l.

(** [TableCollectionEntry::TableCollectionEntry] *)
Definition NewTableEntry (a : ptr) (db_entry_dir table_collection_name : string) (columns : list ColumnDef)
    (table_collection_type : TableCollectionType) (txn_id begin_ts : Z) : Entry (TableData D) :=
  mkEntry a txn_id begin_ts UNCOMMIT_TS false kTable
    (Some (mkTableData (db_entry_dir +:+ "/" +:+ table_collection_name +:+ "/txn_" +:+ pretty txn_id)
             table_collection_name columns table_collection_type empty_data ∅)).

(** [TableCollectionMeta::CreateNewEntry] *)
Definition CreateNewEntry table_meta (a ad : ptr) (table_collection_type : TableCollectionType)
    (table_collection_name : string) (columns : list ColumnDef) (txn_id begin_ts : Z)
    (txn_mgr : Z -> option TxnState) : outcome (ErrorCode * TableCollectionMeta D * option ptr) :=
  let table_entry :=
    NewTableEntry a (meta_db_entry_dir_ table_meta) table_collection_name columns table_collection_type txn_id begin_ts in
  let emplace_front l := Ret (kOk, with_entries table_meta (table_entry :: l), Some a) in
  match table_entry_list_ table_meta with
  | [] => Ret (kOk, with_entries table_meta [table_entry; dummy_entry ad], Some a)
  | header :: rest =>
      if is_dummy header then emplace_front (header :: rest)
      else if commit_ts_ header <? UNCOMMIT_TS then
        if begin_ts >? commit_ts_ header then
          if deleted_ header then emplace_front (header :: rest)
          else Ret (kDuplicate, table_meta, None)
        else Ret (kWWConflict, table_meta, None)
      else
        match txn_mgr (txn_id_ header) with
        | None => UB "txn_map_[txn_id] is null"
        | Some kStarted =>
            if txn_id_ header =? txn_id then
              if deleted_ header then emplace_front (header :: rest)
              else Ret (kDuplicate, table_meta, None)
            else Ret (kWWConflict, table_meta, None)
        | Some (kCommitting | kCommitted) => Ret (kWWConflict, table_meta, None)
        | Some (kRollbacking | kRollbacked) => emplace_front rest
        | Some _ => Ret (kUndefined, table_meta, None)
        end
  end.

(** [TableCollectionMeta::DropNewEntry] *)
Definition DropNewEntry table_meta (a : ptr) (txn_id begin_ts : Z) (conflict_type : ConflictType)
    : ErrorCode * TableCollectionMeta D * option ptr :=
  match table_entry_list_ table_meta with
  | [] => (kNotFound, table_meta, None)
  | header :: rest =>
      if is_dummy header then (kNotFound, table_meta, None)
      else if commit_ts_ header <? UNCOMMIT_TS then
        if begin_ts >? commit_ts_ header then
          if deleted_ header then
            match conflict_type with
            | kIgnore => (kOk, table_meta, None)
            | _ => (kNotFound, table_meta, None)
            end
          else
            let table_entry :=
              NewTableEntry a (meta_db_entry_dir_ table_meta) (meta_table_collection_name_ table_meta) []
                kTableEntry txn_id begin_ts in
            (kOk, with_entries table_meta (set_deleted true table_entry :: header :: rest), Some a)
        else (kWWConflict, table_meta, None)
      else if txn_id =? txn_id_ header then
        (kOk, with_entries table_meta rest, Some (addr header))
      else (kWWConflict, table_meta, None)
  end.

(** [TableCollectionMeta::DeleteNewEntry] *)
Definition DeleteNewEntry table_meta (txn_id : Z) : TableCollectionMeta D :=
  match table_entry_list_ table_meta with
  | [] => table_meta
  | l => with_entries table_meta (filter (fun e => txn_id_ e <> txn_id) l)
  end.

(** The loop of [TableCollectionMeta::GetEntry] *)
Fixpoint GetEntryLoop (l : list (Entry (TableData D))) (txn_id begin_ts : Z)
    : option (Entry (TableData D)) * ErrorCode :=
  match l with
  | [] => (None, kNotFound)
  | table_entry :: rest =>
      if is_dummy table_entry then (None, kNotFound)
      else if commit_ts_ table_entry <? UNCOMMIT_TS then
        if begin_ts >? commit_ts_ table_entry then
          if deleted_ table_entry then (None, kNotFound) else (Some table_entry, kOk)
        else GetEntryLoop rest txn_id begin_ts
      else if txn_id =? txn_id_ table_entry then (Some table_entry, kOk)
      else GetEntryLoop rest txn_id begin_ts
  end.

(** [TableCollectionMeta::GetEntry] *)
Definition GetEntry table_meta (txn_id begin_ts : Z) : option (Entry (TableData D)) * ErrorCode :=
  match table_entry_list_ table_meta with
  | [] => (None, kNotFound)
  | l => GetEntryLoop l txn_id begin_ts
  end.

(** The candidate selection of [TableCollectionMeta::Serialize] *)
Definition SerializeCandidates table_meta (max_commit_ts : Z) : list (Entry (TableData D)) :=
  filter (fun e => entry_type_ e = kTable /\ commit_ts_ e <= max_commit_ts) (table_entry_list_ table_meta).

(** [TableCollectionMeta::MergeFrom] *)
Definition MergeFrom (EntryMergeFrom : Entry (TableData D) -> Entry (TableData D) -> outcome (Entry (TableData D)))
    table_meta (other : TableCollectionMeta D) : outcome (TableCollectionMeta D) :=
  if (negb (bool_decide (meta_table_collection_name_ table_meta = meta_table_collection_name_ other))
      || negb (bool_decide (meta_db_entry_dir_ table_meta = meta_db_entry_dir_ other)))%bool then
    Throw StorageException "DBEntry::MergeFrom requires table_collection_name_ and db_entry_dir_ match"
  else
    l ← MergeLists EntryMergeFrom (table_entry_list_ table_meta) (table_entry_list_ other);
    Ret (with_entries table_meta l).

(** ** Properties *)

Lemma NewTableEntry_pending a d n cs ty t b : pending_of t (NewTableEntry a d n cs ty t b).
Proof. done. Qed.

Lemma Table_CreateNewEntry_effect m a ad ty n cs t b gs st m' p :
  u64_entries (table_entry_list_ m) ->
  CreateNewEntry m a ad ty n cs t b gs = Ret (st, m', p) ->
  ddl_effect gs t b (table_entry_list_ m) (table_entry_list_ m').
Proof.
  unfold CreateNewEntry. destruct (table_entry_list_ m) as [|h rest] eqn:El.
  { intros _ [= _ <- _]. by apply eff_init. }
  intros Hu%u64_entries_head. rewrite Hu.
  intros Hc. repeat (destruct_match_in Hc; simplify_eq/=; zbool);
    rewrite ?El; try apply eff_none;
    try (apply eff_replace; [done|done|unfold rolled_back; naive_solver|done]);
    apply eff_push; try done; simpl; auto.
  right; right. done.
Qed.

Lemma Table_DropNewEntry_effect gs m a t b ct st m' p :
  u64_entries (table_entry_list_ m) ->
  DropNewEntry m a t b ct = (st, m', p) ->
  ddl_effect gs t b (table_entry_list_ m) (table_entry_list_ m').
Proof.
  unfold DropNewEntry. destruct (table_entry_list_ m) as [|h rest] eqn:El; intros Hu Hc.
  { simplify_eq. rewrite El. apply eff_none. }
  rewrite (u64_entries_head _ _ Hu) in Hc.
  repeat (destruct_match_in Hc; simplify_eq/=; zbool); rewrite ?El; try apply eff_none.
  - apply eff_push; [done|simpl; auto|done].
  - by apply eff_pop.
Qed.

Lemma Table_DeleteNewEntry_list m t :
  table_entry_list_ (DeleteNewEntry m t) = filter (fun e => txn_id_ e <> t) (table_entry_list_ m).
Proof. unfold DeleteNewEntry. by destruct (table_entry_list_ m) eqn:E; rewrite ?E. Qed.

Lemma Table_GetEntryLoop_reads l r b :
  u64_entries l ->
  GetEntryLoop l r b =
    match reads r b l with
    | Some e => if (deleted_ e && Committed e)%bool then (None, kNotFound) else (Some e, kOk)
    | None => (None, kNotFound)
    end.
Proof.
  induction 1 as [|e l He _ IH]; [done|]. simpl. rewrite committed_u64 by lia. unfold relevant.
  destruct (is_dummy e) eqn:Hd, (Committed e) eqn:Hc, (b >? commit_ts_ e), (r =? txn_id_ e);
    simpl; rewrite ?IH, ?Hd, ?Hc, ?andb_true_r, ?andb_false_r; done.
Qed.

Lemma Table_GetEntry_reads m r b :
  u64_entries (table_entry_list_ m) ->
  GetEntry m r b =
    match reads r b (table_entry_list_ m) with
    | Some e => if (deleted_ e && Committed e)%bool then (None, kNotFound) else (Some e, kOk)
    | None => (None, kNotFound)
    end.
Proof.
  intros Hu. unfold GetEntry. rewrite <- Table_GetEntryLoop_reads by done. by destruct (table_entry_list_ m).
Qed.
End TableMeta.

#[export] Instance TableCollectionMeta_versioned {D} : VersionedMeta (TableData D) (TableCollectionMeta D) := {
  vm_list := table_entry_list_;
  vm_ddl gs t b m m' :=
    u64_entries (table_entry_list_ m) /\
    ((exists (empty_data : D) a ad ty n cs st p, CreateNewEntry empty_data m a ad ty n cs t b gs = Ret (st, m', p)) \/
     (exists (empty_data : D) a ct st p, DropNewEntry empty_data m a t b ct = (st, m', p)));
  vm_rollback := DeleteNewEntry;
  vm_commit m p ts := with_entries m (CommitAt p ts (table_entry_list_ m));
}.

#[export] Instance TableCollectionMeta_versioned_laws {D} : VersionedMetaLaws (TableData D) (TableCollectionMeta D).
Proof.
  split.
  - intros gs t b m m' [Hu [(? & ? & ? & ? & ? & ? & ? & ? & Hc)|(? & ? & ? & ? & ? & Hd)]];
      eauto using Table_CreateNewEntry_effect, Table_DropNewEntry_effect.
  - apply Table_DeleteNewEntry_list.
  - done.
Qed.
