(* ===== verification/MetaProps.v ===== *)
(** Properties of the three catalog metas: snapshot stability, the version a
    reader gets, first-updater-wins, atomic rollback, and the corner cases in
    which the code departs from them. *)
From S2P Require Import Prelude Common BaseEntry Defs MetaSpec IndexMeta TableMeta DBMeta.

Local Open Scope Z_scope.

(** ** Sample catalogs used by the witnesses *)

Definition gs_started : Z -> option TxnState := fun _ => Some kStarted.

Definition sample_db (commit_ts : Z) : DBMeta.DBMeta unit :=
  mkDBMeta "db1" "/data" [Commit commit_ts (DBMeta.NewDBEntry 2 "/data" "db1" 3 4); dummy_entry 1].

Definition sample_table (commit_ts : Z) : TableMeta.TableCollectionMeta unit :=
  mkTableCollectionMeta "/data/db1" "t1"
    [Commit commit_ts (TableMeta.NewTableEntry tt 2 "/data/db1" "t1" [] kTableEntry 3 4); dummy_entry 1].

Definition sample_index (commit_ts : Z) : TableIndexMeta :=
  mkTableIndexMeta "idx1"
    [Commit commit_ts (mkEntry 2 3 4 UNCOMMIT_TS false kTableIndex
       (Some (mkIndexData (Some (mkIndexDef "idx1" [])) "/data/db1/t1/idx" ∅ false)));
     dummy_entry 1].

(** ** Snapshot stability *)

Lemma get_entry_by_reads {T} (m m' : DBMeta.DBMeta T) r b :
  reads r b (db_entry_list_ m') = reads r b (db_entry_list_ m) ->
  DBMeta.GetEntry m' r b = DBMeta.GetEntry m r b.
Proof. intros E. by rewrite !DB_GetEntry_reads, E. Qed.

(** C6: While transaction [r], which began at [b], runs, no sequence of creates,
    drops, rollbacks and commits of other transactions on a database name changes the
    database [r] finds under it, provided the others commit at timestamps not below
    [b] and commit versions of their own only.  The last condition excludes the commit
    of a create with [kIgnore] that found a version, since that stamps the version
    found. *)
Theorem db_snapshot_stable {T} (m m' : DBMeta.DBMeta T) r b :
  rtc (vm_step r b) m m' -> DBMeta.GetEntry m' r b = DBMeta.GetEntry m r b.
Proof. intros H. apply get_entry_by_reads. exact (vm_steps_reads r b m m' H). Qed.

Lemma db_snapshot_stable_witness :
  exists m' : DBMeta.DBMeta unit,
    length (db_entry_list_ m') = 3%nat /\
    DBMeta.GetEntry m' 7 10 = DBMeta.GetEntry (sample_db 5) 7 10 /\
    DBMeta.GetEntry m' 8 20 = (kNotFound, None).
Proof.
  set (m1 := snd (fst (DBMeta.DropNewEntry (sample_db 5) 3 9 11))).
  exists (vm_commit m1 3 12). split; [done|]. split; [|done].
  apply (db_snapshot_stable (sample_db 5)).
  eapply rtc_l; [|apply rtc_once].
  - apply (vs_ddl 7 10 gs_started 9 11 (sample_db 5) m1); [done|done|].
    right. by exists 3%positive, kOk, (Some 3%positive).
  - apply (vs_commit 7 10 9); [done|lia|done|].
    intros e He Ha. vm_compute in He.
    by repeat (apply elem_of_cons in He as [->|He]; [try done|]); apply elem_of_nil in He.
Defined.

(** The same for the tables of a database. *)
Theorem table_snapshot_stable {D} (m m' : TableMeta.TableCollectionMeta D) r b :
  u64_entries (table_entry_list_ m) -> u64_entries (table_entry_list_ m') ->
  rtc (vm_step r b) m m' -> TableMeta.GetEntry m' r b = TableMeta.GetEntry m r b.
Proof.
  intros Hu Hu' H. rewrite !Table_GetEntry_reads by done.
  by rewrite (vm_steps_reads r b m m' H : reads r b (table_entry_list_ m') = _).
Qed.

Lemma table_snapshot_stable_witness :
  let m1 := snd (fst (TableMeta.DropNewEntry tt (sample_table 5) 3 9 11 kErrorConflict)) in
  TableMeta.GetEntry (vm_commit m1 3 12) 7 10 = TableMeta.GetEntry (sample_table 5) 7 10 /\
  TableMeta.GetEntry (vm_commit m1 3 12) 8 20 = (None, kNotFound).
Proof.
  intros m1. split; [|done].
  apply (table_snapshot_stable (sample_table 5)).
  1-2: repeat constructor; done.
  eapply rtc_l; [|apply rtc_once].
  - apply (vs_ddl 7 10 gs_started 9 11 (sample_table 5) m1); [done|done|].
    split; [repeat constructor; done|].
    right. by exists tt, 3%positive, kErrorConflict, kOk, (Some 3%positive).
  - apply (vs_commit 7 10 9); [done|lia|done|].
    intros e He Ha. vm_compute in He.
    by repeat (apply elem_of_cons in He as [->|He]; [try done|]); apply elem_of_nil in He.
Defined.

(** The same for the indexes of a table. *)
Theorem index_snapshot_stable (m m' : TableIndexMeta) r b :
  u64_entries (index_entry_list_ m) -> u64_entries (index_entry_list_ m') ->
  rtc (vm_step r b) m m' -> IndexMeta.GetEntry m' r b = IndexMeta.GetEntry m r b.
Proof.
  intros Hu Hu' H. unfold IndexMeta.GetEntry. rewrite !Index_GetEntryLoop_reads by done.
  by rewrite (vm_steps_reads r b m m' H : reads r b (index_entry_list_ m') = _).
Qed.

Lemma index_snapshot_stable_witness :
  let m1 := fst (DropTableIndexEntry (sample_index 5) 3 kErrorConflict 9 11) in
  IndexMeta.GetEntry (vm_commit m1 3 12) 7 10 = IndexMeta.GetEntry (sample_index 5) 7 10 /\
  IndexMeta.GetEntry (vm_commit m1 3 12) 8 20 = (kNotFound, None).
Proof.
  intros m1. split; [|done].
  apply (index_snapshot_stable (sample_index 5)).
  1-2: repeat constructor; done.
  eapply rtc_l; [|apply rtc_once].
  - apply (vs_ddl 7 10 gs_started 9 11 (sample_index 5) m1); [done|done|].
    right. by exists 3%positive, kErrorConflict, (Ret (kOk, Some 3%positive)).
  - apply (vs_commit 7 10 9); [done|lia|done|].
    intros e He Ha. vm_compute in He.
    by repeat (apply elem_of_cons in He as [->|He]; [try done|]); apply elem_of_nil in He.
Defined.

(** The proviso of snapshot stability matters: a transaction that took its
    commit timestamp [ts] before [r] began ([ts < b]) but stamps its entry only
    afterwards changes what [r] finds under the name. *)
Theorem db_late_commit_visible {T} (m : DBMeta.DBMeta T) h rest t r b ts :
  db_entry_list_ m = h :: rest -> pending_of t h -> t <> r -> deleted_ h = false ->
  0 <= ts < b -> ts < UNCOMMIT_TS -> addr h ∉ (addr <$> rest) ->
  DBMeta.GetEntry (vm_commit m (addr h) ts) r b = (kOk, Some (Commit ts h)) /\
  DBMeta.GetEntry m r b <> (kOk, Some (Commit ts h)).
Proof.
  intros El Hp Hne Hdel Hts Hu Ha. rewrite !DB_GetEntry_reads. simpl. rewrite El. split.
  - unfold CommitAt. rewrite fmap_cons, bool_decide_true by done. simpl.
    assert (relevant r b (Commit ts h) = true) as ->.
    { unfold relevant. destruct Hp as (Hd & _ & _). unfold is_dummy, Committed in *. simpl. rewrite Hd.
      assert ((ts =? UNCOMMIT_TS) = false) as -> by (apply Z.eqb_neq; lia).
      assert ((b >? ts) = true) as -> by (rewrite Z.gtb_ltb; apply Z.ltb_lt; lia). done. }
    destruct Hp as (Hd & _ & _). change (is_dummy (Commit ts h)) with (is_dummy h).
    rewrite Hd. simpl. by rewrite Hdel.
  - rewrite reads_irrelevant by (by apply (pending_irrelevant t)).
    destruct (reads r b rest) as [e|] eqn:Er; [|done]. destruct (deleted_ e); [done|].
    intros [= ->]. apply Ha. apply reads_elem in Er. apply list_elem_of_fmap. by exists (Commit ts h).
Qed.

(** ** What a reader gets *)

(** Outside the transactions that are changing the name, [GetEntry] returns
    the newest version committed before the reader began, or reports that there
    is none or that it is a tombstone. *)
Theorem db_get_latest_committed {T} (m : DBMeta.DBMeta T) r b :
  wf_versions (db_entry_list_ m) ->
  (forall e, e ∈ db_entry_list_ m -> ~ pending_of r e) ->
  let committed_before e := is_dummy e = false /\ Committed e = true /\ commit_ts_ e < b in
  let newest e := e ∈ db_entry_list_ m /\ committed_before e /\
    forall e', e' ∈ db_entry_list_ m -> committed_before e' -> commit_ts_ e' <= commit_ts_ e in
  match DBMeta.GetEntry m r b with
  | (kOk, Some e) => newest e /\ deleted_ e = false
  | (kNotFound, None) =>
      (forall e, e ∈ db_entry_list_ m -> ~ committed_before e) \/
      (exists e, newest e /\ deleted_ e = true)
  | _ => False
  end.
Proof.
  intros (t & us & hs & El & Hus & Hhs) Hno committed_before newest.
  rewrite DB_GetEntry_reads. unfold newest. rewrite El in *.
  rewrite (reads_skip_pending_all r b t us hs Hus Hno).
  assert (forall e, e ∈ us ++ hs -> committed_before e -> e ∈ hs) as Hin.
  { intros e [Hu|]%elem_of_app (_ & Hc & _); [|done].
    rewrite Forall_forall in Hus. destruct (Hus e Hu) as (_ & ? & _). congruence. }
  pose proof (wf_hist_reads r b hs Hhs) as Hr.
  destruct (reads r b hs) as [e|].
  - destruct Hr as (He & Hd & Hc & Hlt & Hmax).
    assert (e ∈ us ++ hs /\ committed_before e /\
      forall e', e' ∈ us ++ hs -> committed_before e' -> commit_ts_ e' <= commit_ts_ e) as Hnew.
    { split_and!; [set_solver|done|]. intros e' He' Hcb. pose proof (Hin e' He' Hcb).
      destruct Hcb as (? & ? & ?). by apply Hmax. }
    destruct (deleted_ e) eqn:Edel; [right; by exists e|done].
  - left. intros e He Hcb. pose proof (Hin e He Hcb) as Hh.
    destruct Hcb as (Hd & _ & Hlt). specialize (Hr e Hh Hd). lia.
Qed.

Lemma db_late_commit_visible_witness :
  let m := mkDBMeta "db1" "/data" [DBMeta.NewDBEntry 2 "/data" "db1" 3 4; dummy_entry (P := DBData unit) 1] in
  DBMeta.GetEntry m 7 10 = (kNotFound, None) /\
  fst (DBMeta.GetEntry (vm_commit m 2 8) 7 10) = kOk.
Proof.
  intros m. split; [done|].
  destruct (db_late_commit_visible m (DBMeta.NewDBEntry 2 "/data" "db1" 3 4) [dummy_entry 1] 3 7 10 8)
    as [H _]; [done..|lia|done| |by rewrite (H : DBMeta.GetEntry (vm_commit m 2 8) 7 10 = _)].
  by intros ?%list_elem_of_singleton.
Defined.

Lemma db_get_latest_committed_witness :
  wf_versions (db_entry_list_ (sample_db 5)) /\
  match DBMeta.GetEntry (sample_db 5) 7 10 with (kOk, Some e) => deleted_ e = false | _ => False end.
Proof.
  assert (wf_versions (db_entry_list_ (sample_db 5))) as Hwf.
  { apply wf_versions_hist. simpl. split_and!; try done; repeat constructor; done. }
  split; [done|].
  pose proof (db_get_latest_committed (sample_db 5) 7 10 Hwf) as H. simpl in H.
  apply H. intros e He (_ & Hc & _). vm_compute in He.
  by repeat (apply elem_of_cons in He as [->|He]; [done|]); apply elem_of_nil in He.
Defined.

(** ** First updater wins *)

(** The three ways in which [CreateNewEntry] changes the list. *)
Lemma db_create_cases {T} (m m' : DBMeta.DBMeta T) a ad t b gs ct p :
  DBMeta.CreateNewEntry m a ad t b gs ct = Ret (kOk, m', p) ->
  db_entry_list_ m' <> db_entry_list_ m ->
  let e := DBMeta.NewDBEntry a (meta_data_dir_ m) (meta_db_name_ m) t b in
  (db_entry_list_ m = [] /\ db_entry_list_ m' = [e; dummy_entry ad] /\ p = Some a) \/
  (exists h rest, db_entry_list_ m = h :: rest /\ db_entry_list_ m' = e :: h :: rest /\
     push_ok t b (h :: rest) /\ (is_dummy h = false -> deleted_ h = true) /\ p = Some a) \/
  (exists h rest, db_entry_list_ m = h :: rest /\ Committed h = false /\
     rolled_back (gs (txn_id_ h)) /\ db_entry_list_ m' = e :: rest).
Proof.
  unfold DBMeta.CreateNewEntry. destruct (db_entry_list_ m) as [|h rest] eqn:El.
  { intros [= <- <-] _. by left. }
  intros Hc Hne. right.
  repeat (destruct_match_in Hc; simplify_eq/=; zbool);
    first [congruence
          |solve [left; exists h, rest; unfold pending_of; split_and!;
                  first [done|solve [auto 6]|intros; congruence]]
          |solve [right; exists h, rest; unfold rolled_back; split_and!; auto]].
Qed.

(** C29: When [CreateNewEntry] adds a version for [t], which a call with [kIgnore] on
    an existing database does not, and the newest version is not an uncommitted one of
    a transaction that is rolled back: the name was free for [t] before and holds the
    new database for [t] afterwards; every uncommitted version below is [t]'s own; and
    if there was no uncommitted version, every committed version was committed before
    [t] began, so no concurrent change is overwritten. *)
Theorem db_create_first_updater_wins {T} (m m' : DBMeta.DBMeta T) a ad t b gs ct p :
  wf_versions (db_entry_list_ m) ->
  (forall h rest, db_entry_list_ m = h :: rest -> Committed h = false -> ~ rolled_back (gs (txn_id_ h))) ->
  DBMeta.CreateNewEntry m a ad t b gs ct = Ret (kOk, m', p) ->
  db_entry_list_ m' <> db_entry_list_ m ->
  let e := DBMeta.NewDBEntry a (meta_data_dir_ m) (meta_db_name_ m) t b in
  p = Some a /\
  DBMeta.GetEntry m t b = (kNotFound, None) /\
  DBMeta.GetEntry m' t b = (kOk, Some e) /\
  (forall e', e' ∈ db_entry_list_ m -> Committed e' = false -> pending_of t e') /\
  (Forall (fun e' => Committed e' = true) (db_entry_list_ m) ->
   forall e', e' ∈ db_entry_list_ m -> is_dummy e' = false -> commit_ts_ e' < b).
Proof.
  intros Hwf Hnr Hc Hne e.
  destruct (db_create_cases m m' a ad t b gs ct p Hc Hne) as
    [(El & Em' & Hp)|[(h & rest & El & Em' & Hok & Hdel & Hp)|(h & rest & El & Hh & Hr & _)]].
  3: { exfalso. by eapply Hnr. }
  - rewrite !DB_GetEntry_reads, Em', El, reads_own_pending by done.
    split_and!; try done; set_solver.
  - rewrite !DB_GetEntry_reads, Em', reads_own_pending by done. rewrite El in *.
    split_and!; try done.
    + rewrite (push_ok_reads_head t b h rest Hok). destruct (is_dummy h); [done|]. by rewrite Hdel.
    + intros e' He' Hc'. by eapply push_ok_pending.
    + intros Hall e' He' Hd. by eapply push_ok_seen.
Qed.

Lemma db_create_first_updater_wins_witness :
  exists m' : DBMeta.DBMeta unit,
  DBMeta.CreateNewEntry (mkDBMeta "db1" "/data" [dummy_entry 1]) 5 6 9 11 gs_started kErrorConflict
    = Ret (kOk, m', Some 5%positive) /\
  fst (DBMeta.GetEntry m' 9 11) = kOk.
Proof.
  set (m := mkDBMeta (T := unit) "db1" "/data" [dummy_entry 1]).
  set (m' := DBMeta.with_entries m [DBMeta.NewDBEntry 5 "/data" "db1" 9 11; dummy_entry 1]).
  exists m'. split; [done|].
  destruct (db_create_first_updater_wins m m' 5 6 9 11 gs_started kErrorConflict (Some 5%positive))
    as (_ & _ & H & _); [| |done|done|by rewrite H].
  - apply wf_versions_hist, wf_hist_dummy.
  - by intros h rest [= <- <-].
Defined.

(** ** Rollback *)

(** C31: Any number of creates and drops of a running transaction [t] on one database
    name, under which it had no version and the newest version is not an uncommitted
    one of a rolled-back transaction, followed by its rollback, leaves every reader
    with what it had before under that name. *)
Theorem db_rollback_atomic {T} (m m' : DBMeta.DBMeta T) gs t b r br :
  t <> 0 -> gs t = Some kStarted ->
  (forall e, e ∈ db_entry_list_ m -> txn_id_ e <> t) ->
  (forall h rest, db_entry_list_ m = h :: rest -> Committed h = false -> ~ rolled_back (gs (txn_id_ h))) ->
  rtc (vm_ddl gs t b) m m' ->
  DBMeta.GetEntry (DBMeta.DeleteNewEntry m' t) r br = DBMeta.GetEntry m r br.
Proof.
  intros Ht Hs Hno Hnr Hr. apply get_entry_by_reads.
  pose proof (vm_rollback_restores gs t b m m') as H.
  destruct (H Ht Hs Hno Hnr Hr) as [E|(E & a & E')]; simpl in *.
  - by rewrite E.
  - by rewrite E, E'.
Qed.

Lemma db_rollback_atomic_witness :
  let m1 := snd (fst (DBMeta.DropNewEntry (sample_db 5) 3 9 11)) in
  fst (DBMeta.GetEntry m1 9 11) = kNotFound /\
  DBMeta.GetEntry (DBMeta.DeleteNewEntry m1 9) 9 11 = DBMeta.GetEntry (sample_db 5) 9 11.
Proof.
  intros m1. split; [done|].
  apply (db_rollback_atomic (sample_db 5) m1 gs_started 9 11); [done|done| | |apply rtc_once].
  - intros e He. vm_compute in He.
    by repeat (apply elem_of_cons in He as [->|He]; [done|]); apply elem_of_nil in He.
  - by intros h rest [= <- <-].
  - right. by exists 3%positive, kOk, (Some 3%positive).
Defined.

(** The same for a table name. *)
Theorem table_rollback_atomic {D} (m m' : TableMeta.TableCollectionMeta D) gs t b r br :
  t <> 0 -> gs t = Some kStarted -> u64_entries (table_entry_list_ m) ->
  (forall e, e ∈ table_entry_list_ m -> txn_id_ e <> t) ->
  (forall h rest, table_entry_list_ m = h :: rest -> Committed h = false -> ~ rolled_back (gs (txn_id_ h))) ->
  rtc (vm_ddl gs t b) m m' ->
  TableMeta.GetEntry (TableMeta.DeleteNewEntry m' t) r br = TableMeta.GetEntry m r br.
Proof.
  intros Ht Hs Hu Hno Hnr Hr.
  pose proof (vm_rollback_restores gs t b m m') as H.
  destruct (H Ht Hs Hno Hnr Hr) as [E|(E & a & E')]; simpl in *;
    rewrite !Table_GetEntry_reads; rewrite ?E, ?E'; try done.
  - by rewrite <- E.
  - repeat constructor; done.
Qed.

Lemma table_rollback_atomic_witness :
  let m1 := snd (fst (TableMeta.DropNewEntry tt (sample_table 5) 3 9 11 kErrorConflict)) in
  TableMeta.GetEntry m1 9 11 <> TableMeta.GetEntry (sample_table 5) 9 11 /\
  TableMeta.GetEntry (TableMeta.DeleteNewEntry m1 9) 9 11 = TableMeta.GetEntry (sample_table 5) 9 11.
Proof.
  intros m1. split; [done|].
  apply (table_rollback_atomic (sample_table 5) m1 gs_started 9 11);
    [done|done|repeat constructor; done| | |apply rtc_once].
  - intros e He. vm_compute in He.
    by repeat (apply elem_of_cons in He as [->|He]; [done|]); apply elem_of_nil in He.
  - by intros h rest [= <- <-].
  - split; [repeat constructor; done|]. right. by exists tt, 3%positive, kErrorConflict, kOk, (Some 3%positive).
Defined.

(** ** Corner cases *)

(** When the newest version belongs to a transaction that is rolling back,
    [CreateNewEntry] replaces it without looking at the version below: the
    create succeeds on top of a live database that [t] can see, where the same
    call on the list without the rolled-back version is refused. *)
Theorem db_create_over_rolled_back {T} (m : DBMeta.DBMeta T) h e rest a ad t b gs :
  db_entry_list_ m = h :: e :: rest ->
  is_dummy h = false -> Committed h = false -> rolled_back (gs (txn_id_ h)) ->
  is_dummy e = false -> Committed e = true -> deleted_ e = false -> commit_ts_ e < b ->
  let new_entry := DBMeta.NewDBEntry a (meta_data_dir_ m) (meta_db_name_ m) t b in
  DBMeta.CreateNewEntry m a ad t b gs kErrorConflict =
    Ret (kOk, DBMeta.with_entries m (new_entry :: e :: rest), Some a) /\
  DBMeta.CreateNewEntry (DBMeta.with_entries m (e :: rest)) a ad t b gs kErrorConflict =
    Ret (kDuplicate, DBMeta.with_entries m (e :: rest), None).
Proof.
  intros El Hd Hc Hr Hde Hce Hdel Hlt new_entry. unfold DBMeta.CreateNewEntry. rewrite El, Hd, Hc.
  split; [by destruct Hr as [-> | ->]|]. simpl. rewrite Hde, Hce, Hdel.
  assert ((b >? commit_ts_ e) = true) as -> by (rewrite Z.gtb_ltb; by apply Z.ltb_lt). done.
Qed.

Lemma db_create_over_rolled_back_witness :
  exists m' : DBMeta.DBMeta unit,
  DBMeta.CreateNewEntry
    (DBMeta.with_entries (sample_db 5)
       (set_deleted true (DBMeta.NewDBEntry 3 "/data" "db1" 8 9) :: db_entry_list_ (sample_db 5)))
    4 6 9 11 (fun t => if t =? 8 then Some kRollbacked else Some kStarted) kErrorConflict
  = Ret (kOk, m', Some 4%positive).
Proof.
  set (m := DBMeta.with_entries _ _). set (gs := fun t : Z => if t =? 8 then Some kRollbacked else Some kStarted).
  eexists. apply (proj1 (db_create_over_rolled_back m (set_deleted true (DBMeta.NewDBEntry 3 "/data" "db1" 8 9))
    (Commit 5 (DBMeta.NewDBEntry 2 "/data" "db1" 3 4)) [dummy_entry 1] 4 6 9 11 gs
    eq_refl eq_refl eq_refl (or_intror eq_refl) eq_refl eq_refl eq_refl ltac:(done))).
Defined.

(** A transaction that drops the same live database twice gets success both
    times, and the second drop takes the first one back. *)
Theorem db_double_drop_undoes {T} (m : DBMeta.DBMeta T) h rest a a' t b :
  db_entry_list_ m = h :: rest -> is_dummy h = false -> Committed h = true ->
  deleted_ h = false -> commit_ts_ h < b ->
  exists m1 p1 p2,
    DBMeta.DropNewEntry m a t b = (kOk, m1, p1) /\
    DBMeta.GetEntry m1 t b = (kNotFound, None) /\
    DBMeta.DropNewEntry m1 a' t b = (kOk, m, p2) /\
    DBMeta.GetEntry m t b = (kOk, Some h).
Proof.
  intros El Hd Hc Hdel Hlt. unfold DBMeta.DropNewEntry at 1. rewrite El, Hd, Hc, Hdel.
  assert ((b >? commit_ts_ h) = true) as Hb by (rewrite Z.gtb_ltb; by apply Z.ltb_lt). rewrite Hb.
  do 3 eexists. split; [done|]. split.
  { rewrite DB_GetEntry_reads. simpl db_entry_list_. by rewrite reads_own_pending. }
  split.
  - unfold DBMeta.DropNewEntry. simpl. rewrite Z.eqb_refl. unfold DBMeta.with_entries. simpl.
    rewrite <- El. by destruct m.
  - rewrite DB_GetEntry_reads, El. rewrite push_ok_reads_head by (right; by left). by rewrite Hd, Hdel.
Qed.

Lemma db_double_drop_undoes_witness :
  exists m1 p1 p2, DBMeta.DropNewEntry (sample_db 5) 3 9 11 = (kOk, m1, p1) /\
    DBMeta.DropNewEntry m1 4 9 11 = (kOk, sample_db 5, p2).
Proof.
  destruct (db_double_drop_undoes (sample_db 5) _ _ 3 4 9 11 eq_refl) as (m1 & p1 & p2 & H1 & _ & H2 & _);
    try done. by exists m1, p1, p2.
Defined.

(** A table dropped by a transaction is still found by the same
    transaction, as an entry without columns: unlike [DBMeta::GetEntry],
    [TableCollectionMeta::GetEntry] does not test [deleted_] on the reader's
    own versions. *)
Theorem table_own_drop_visible {D} (empty_data : D) (m : TableMeta.TableCollectionMeta D) h rest a t b ct :
  table_entry_list_ m = h :: rest -> is_dummy h = false -> 0 <= commit_ts_ h < UNCOMMIT_TS ->
  deleted_ h = false -> commit_ts_ h < b ->
  exists m1 e, TableMeta.DropNewEntry empty_data m a t b ct = (kOk, m1, Some a) /\
    TableMeta.GetEntry m1 t b = (Some e, kOk) /\ deleted_ e = true /\
    table_columns_ <$> payload e = Some [].
Proof.
  intros El Hd Hc Hdel Hlt. unfold TableMeta.DropNewEntry. rewrite El, Hd, Hdel.
  assert ((b >? commit_ts_ h) = true) as Hb by (rewrite Z.gtb_ltb; by apply Z.ltb_lt). rewrite Hb.
  assert ((commit_ts_ h <? UNCOMMIT_TS) = true) as -> by (apply Z.ltb_lt; lia).
  do 2 eexists. split; [done|]. unfold TableMeta.GetEntry. simpl. by rewrite Z.eqb_refl.
Qed.

Lemma table_own_drop_visible_witness :
  exists m1 e, TableMeta.DropNewEntry tt (sample_table 5) 3 9 11 kErrorConflict = (kOk, m1, Some 3%positive) /\
    TableMeta.GetEntry m1 9 11 = (Some e, kOk) /\ deleted_ e = true.
Proof.
  destruct (table_own_drop_visible tt (sample_table 5) _ _ 3 9 11 kErrorConflict eq_refl)
    as (m1 & e & H1 & H2 & H3 & _); try done. by exists m1, e.
Defined.

(** [CREATE DATABASE IF NOT EXISTS] on a live database hands back the
    address of the committed version; when the transaction then commits at [ts]
    through that address, readers that began between the old and the new commit
    timestamp lose the database. *)
Theorem db_create_ignore_hides {T} (m : DBMeta.DBMeta T) h rest a ad t b gs ts r br :
  db_entry_list_ m = h :: rest -> is_dummy h = false -> Committed h = true ->
  deleted_ h = false -> commit_ts_ h < b -> commit_ts_ h < br <= ts -> ts < UNCOMMIT_TS ->
  (forall e, e ∈ rest -> is_dummy e = true /\ addr e <> addr h) ->
  DBMeta.CreateNewEntry m a ad t b gs kIgnore = Ret (kOk, m, Some (addr h)) /\
  DBMeta.GetEntry m r br = (kOk, Some h) /\
  DBMeta.GetEntry (vm_commit m (addr h) ts) r br = (kNotFound, None).
Proof.
  intros El Hd Hc Hdel Hlt Hbr Hts Hrest.
  assert (forall x, commit_ts_ h < x -> (x >? commit_ts_ h) = true) as Hgt.
  { intros x ?. rewrite Z.gtb_ltb. by apply Z.ltb_lt. }
  split_and!.
  - unfold DBMeta.CreateNewEntry. by rewrite El, Hd, Hc, Hdel, Hgt.
  - rewrite DB_GetEntry_reads, El, push_ok_reads_head by (right; left; split; [done|lia]).
    by rewrite Hd, Hdel.
  - rewrite DB_GetEntry_reads. simpl db_entry_list_. unfold CommitAt. rewrite El, fmap_cons.
    rewrite bool_decide_true by done. rewrite reads_irrelevant by (apply Commit_irrelevant; (done || lia)).
    destruct rest as [|e rest]; [done|]. rewrite fmap_cons.
    destruct (Hrest e ltac:(by left)) as [Hed Hea]. rewrite bool_decide_false by done.
    simpl. by rewrite dummy_relevant, Hed.
Qed.

Lemma db_create_ignore_hides_witness :
  DBMeta.CreateNewEntry (sample_db 5) 3 4 9 11 gs_started kIgnore = Ret (kOk, sample_db 5, Some 2%positive) /\
  fst (DBMeta.GetEntry (sample_db 5) 7 10) = kOk /\
  DBMeta.GetEntry (vm_commit (sample_db 5) 2 12) 7 10 = (kNotFound, None).
Proof.
  destruct (db_create_ignore_hides (sample_db 5) _ _ 3 4 9 11 gs_started 12 7 10 eq_refl)
    as (H1 & H2 & H3); try done.
  by intros e ->%list_elem_of_singleton.
Defined.
