(* ===== verification/TxnContext.v ===== *)
(** [storage/txn/txn_context.cppm]: the state machine of one transaction.  Every
    setter checks the current state and throws if it is not the expected one. *)
From S2P Require Import Prelude Common.

Local Open Scope Z_scope.

Record TxnContext := mkTxnContext {
  ctx_begin_ts_ : Z;
  ctx_commit_ts_ : Z;
  state_ : TxnState;
}.

#[export] Instance TxnContext_eq_dec : EqDecision TxnContext.
Proof. solve_decision. Defined.

Definition NewTxnContext : TxnContext := mkTxnContext 0 0 kNotStarted.

Definition BeginCommit (c : TxnContext) (begin_ts : Z) : outcome TxnContext :=
  match state_ c with
  | kNotStarted => Ret (mkTxnContext begin_ts (ctx_commit_ts_ c) kStarted)
  | _ => Throw StorageException "Transaction isn't in NOT_STARTED status."
  end.

Definition SetTxnRollbacking (c : TxnContext) (rollback_ts : Z) : outcome TxnContext :=
  match state_ c with
  | kStarted => Ret (mkTxnContext (ctx_begin_ts_ c) rollback_ts kRollbacking)
  | _ => Throw StorageException "Transaction isn't in STARTED status."
  end.

Definition SetTxnRollbacked (c : TxnContext) : outcome TxnContext :=
  match state_ c with
  | kRollbacking | kCommitting => Ret (mkTxnContext (ctx_begin_ts_ c) (ctx_commit_ts_ c) kRollbacked)
  | _ => Throw StorageException "Transaction isn't in ROLLBACKING status."
  end.

Definition SetTxnCommitted (c : TxnContext) : outcome TxnContext :=
  match state_ c with
  | kCommitting => Ret (mkTxnContext (ctx_begin_ts_ c) (ctx_commit_ts_ c) kCommitted)
  | _ => Throw StorageException "Transaction isn't in COMMITTING status."
  end.

Definition SetTxnCommitting (c : TxnContext) (commit_ts : Z) : outcome TxnContext :=
  match state_ c with
  | kStarted => Ret (mkTxnContext (ctx_begin_ts_ c) commit_ts kCommitting)
  | _ => Throw StorageException "Transaction isn't in STARTED status."
  end.

(** A successful call of one of the setters. *)
Inductive ctx_step : TxnContext -> TxnContext -> Prop :=
  | cs_begin c ts c' : BeginCommit c ts = Ret c' -> ctx_step c c'
  | cs_rollbacking c ts c' : SetTxnRollbacking c ts = Ret c' -> ctx_step c c'
  | cs_rollbacked c c' : SetTxnRollbacked c = Ret c' -> ctx_step c c'
  | cs_committed c c' : SetTxnCommitted c = Ret c' -> ctx_step c c'
  | cs_committing c ts c' : SetTxnCommitting c ts = Ret c' -> ctx_step c c'.

(** The stage of a state: the length of the longest path that leads to it. *)
Definition stage (s : TxnState) : nat :=
  match s with
  | kNotStarted => 0
  | kStarted => 1
  | kCommitting | kRollbacking => 2
  | _ => 3
  end.

Definition decided (s : TxnState) : bool :=
  match s with kCommitted | kRollbacked => true | _ => false end.

Ltac ctx_cases H :=
  unfold BeginCommit, SetTxnRollbacking, SetTxnRollbacked, SetTxnCommitted, SetTxnCommitting in H;
  repeat (destruct_match_in H; simplify_eq/=).

Lemma ctx_step_stage c c' : ctx_step c c' -> (stage (state_ c') = S (stage (state_ c)))%nat.
Proof.
  destruct 1 as [c ts c' H|c ts c' H|c c' H|c c' H|c ts c' H]; by ctx_cases H.
Qed.

Lemma ctx_steps_stage n c c' : nsteps ctx_step n c c' -> (stage (state_ c') = n + stage (state_ c))%nat.
Proof.
  induction 1 as [|n c1 c2 c3 Hs _ IH]; [done|]. rewrite IH, (ctx_step_stage _ _ Hs). lia.
Qed.

(** A transaction passes through at most three state changes, an outcome
    ([kCommitted] or [kRollbacked]) is final, and a committed transaction can
    only come out of [kCommitting]. *)
Theorem txn_context_lifecycle n c c' :
  nsteps ctx_step n c c' ->
  (n <= 3)%nat /\
  (decided (state_ c) = true -> n = 0%nat /\ c' = c) /\
  (state_ c = kNotStarted -> state_ c' = kCommitted -> n = 3%nat).
Proof.
  intros Hn. pose proof (ctx_steps_stage _ _ _ Hn) as Hs. split_and!.
  - destruct (state_ c'), (state_ c); simpl in Hs; lia.
  - intros Hd. assert (n = 0%nat) as -> by (destruct (state_ c'), (state_ c); simpl in *; (done || lia)).
    inversion Hn. done.
  - intros E E'. rewrite E, E' in Hs. simpl in Hs. lia.
Qed.

Lemma txn_context_lifecycle_witness :
  let c3 := mkTxnContext 5 9 kCommitted in
  nsteps ctx_step 3 NewTxnContext c3 /\ (3 <= 3)%nat.
Proof.
  intros c3.
  assert (nsteps ctx_step 3 NewTxnContext c3) as H.
  { eapply nsteps_l; [by apply (cs_begin _ 5)|].
    eapply nsteps_l; [by apply (cs_committing _ 9)|].
    eapply nsteps_l; [by apply cs_committed|]. constructor. }
  split; [done|]. exact (proj1 (txn_context_lifecycle _ _ _ H)).
Defined.
