(* ===== verification/TxnManager.v ===== *)
(** [storage/txn/txn_manager.cpp]: transaction ids, timestamps, and the queue
    that hands WAL entries to the WAL manager in commit-timestamp order.

    [W] is the type of WAL entries and [commit_ts] their timestamp, [X] the type
    of transactions.  The calls of the callback [put_wal_entry_] are the output
    of an operation, in call order.  Each operation runs under one lock, so it
    is one step. *)
From S2P Require Import Prelude Common TxnContext.

Local Open Scope Z_scope.

(** What the manager uses of [Txn]. *)
Class TxnOps (X : Type) := {
  NewTxn : Z -> X;
  TxnID : X -> Z;
  txn_context : X -> TxnContext;
  CancelCommitBottom : X -> outcome X;
}.

(** The part of [Txn] that takes part in committing: its id, its state and the
    flag [done_bottom_] that [Txn::Commit] waits for. *)
Record TxnCore := mkTxnCore {
  core_txn_id_ : Z;
  core_context_ : TxnContext;
  done_bottom_ : bool;
}.

(** [Txn::CancelCommitBottom] *)
Definition CoreCancelCommitBottom (t : TxnCore) : outcome TxnCore :=
  c ← SetTxnRollbacked (core_context_ t);
  Ret (mkTxnCore (core_txn_id_ t) c true).

#[export] Instance TxnCore_ops : TxnOps TxnCore := {
  NewTxn id := mkTxnCore id NewTxnContext false;
  TxnID := core_txn_id_;
  txn_context := core_context_;
  CancelCommitBottom := CoreCancelCommitBottom;
}.

Record TxnManager (X W : Type) := mkTxnManager {
  next_txn_id_ : Z;                       (* catalog_->next_txn_id_ *)
  txn_map_ : gmap Z (option X);           (* a null UniquePtr is [None] *)
  put_wal_entry_ : bool;                  (* is the callback set? *)
  txn_ts_ : Z;
  priority_que_ : list (Z * option W);    (* std::map; a null SharedPtr is [None] *)
  is_running_ : bool;
}.

Arguments mkTxnManager {X W} _ _ _ _ _ _.
Arguments next_txn_id_ {X W} _.
Arguments txn_map_ {X W} _.
Arguments put_wal_entry_ {X W} _.
Arguments txn_ts_ {X W} _.
Arguments priority_que_ {X W} _.
Arguments is_running_ {X W} _.

Section TxnManager.
Context {X W : Type} `{TxnOps X} (commit_ts : W -> Z).
Implicit Types (tm : TxnManager X W).

Definition with_map tm (txn_map : gmap Z (option X)) : TxnManager X W :=
  mkTxnManager (next_txn_id_ tm) txn_map (put_wal_entry_ tm) (txn_ts_ tm) (priority_que_ tm) (is_running_ tm).

Definition with_que tm (que : list (Z * option W)) : TxnManager X W :=
  mkTxnManager (next_txn_id_ tm) (txn_map_ tm) (put_wal_entry_ tm) (txn_ts_ tm) que (is_running_ tm).

(** [TxnManager::TxnManager] *)
Definition NewTxnManager (next_txn_id : Z) (put_wal_entry_fn : bool) (start_ts : Z) : TxnManager X W :=
  mkTxnManager next_txn_id ∅ put_wal_entry_fn start_ts [] false.

(** [TxnManager::CreateTxn] with [GetNewTxnID]; the constructor of [Txn] takes
    its id as [u32].  Returns the key of the new transaction. *)
Definition CreateTxn tm : outcome (TxnManager X W * Z) :=
  if negb (is_running_ tm) then Throw TransactionException "TxnManager is not running, cannot create txn"
  else
    let new_txn_id := to_u64 (next_txn_id_ tm + 1) in
    Ret (mkTxnManager new_txn_id (<[new_txn_id := Some (NewTxn (to_u32 new_txn_id))]> (txn_map_ tm))
           (put_wal_entry_ tm) (txn_ts_ tm) (priority_que_ tm) (is_running_ tm), new_txn_id).

(** [TxnManager::GetTxn]: [txn_map_[txn_id]] makes a null binding for an unknown
    id. *)
Definition GetTxn tm (txn_id : Z) : TxnManager X W * option X :=
  match txn_map_ tm !! txn_id with
  | Some res => (tm, res)
  | None => (with_map tm (<[txn_id := None]> (txn_map_ tm)), None)
  end.

(** [TxnManager::GetTxnState] *)
Definition GetTxnState tm (txn_id : Z) : outcome (TxnManager X W * TxnState) :=
  let '(tm', txn_ptr) := GetTxn tm txn_id in
  match txn_ptr with
  | Some txn => Ret (tm', state_ (txn_context txn))
  | None => UB "txn_map_[txn_id] is null"
  end.

(** [TxnManager::GetTimestamp] *)
Definition GetTimestamp tm (prepare_wal : bool) : TxnManager X W * Z :=
  let ts := txn_ts_ tm in
  let que := if (prepare_wal && put_wal_entry_ tm)%bool
             then om_insert ts None (priority_que_ tm) else priority_que_ tm in
  (mkTxnManager (next_txn_id_ tm) (txn_map_ tm) (put_wal_entry_ tm) (to_u64 (ts + 1)) que (is_running_ tm), ts).

(** The loop that empties the front of the queue, in [Invalidate] and
    [PutWalEntry]. *)
Fixpoint drain (que : list (Z * option W)) : list W * list (Z * option W) :=
  match que with
  | (_, Some entry) :: rest => let '(out, que') := drain rest in (entry :: out, que')
  | _ => ([], que)
  end.

(** [TxnManager::Invalidate] *)
Definition Invalidate tm (ts : Z) : outcome (TxnManager X W * list W) :=
  if negb (is_running_ tm) then Throw TransactionException "TxnManager is not running, cannot invalidate"
  else
    let que := om_erase ts (priority_que_ tm) in
    let cnt := (length (priority_que_ tm) - length que)%nat in
    if (bool_decide (0 < cnt)%nat && negb (bool_decide (que = [])))%bool then
      let '(out, que') := drain que in Ret (with_que tm que', out)
    else Ret (with_que tm que, []).

(** [TxnManager::PutWalEntry] *)
Definition PutWalEntry tm (entry : W) : outcome (TxnManager X W * list W) :=
  if negb (is_running_ tm) then Throw TransactionException "TxnManager is not running, cannot put wal entry"
  else if negb (put_wal_entry_ tm) then Ret (tm, [])
  else
    let '(out, que) := drain (om_insert (commit_ts entry) (Some entry) (priority_que_ tm)) in
    Ret (with_que tm que, out).

(** [TxnManager::Start] *)
Definition Start tm : TxnManager X W :=
  mkTxnManager (next_txn_id_ tm) (txn_map_ tm) (put_wal_entry_ tm) (txn_ts_ tm) (priority_que_ tm) true.

(** The loop of [TxnManager::Stop]: the key of the queue, a commit timestamp, is
    used as a transaction id. *)
Fixpoint StopLoop tm (que : list (Z * option W)) : outcome (TxnManager X W) :=
  match que with
  | [] => Ret tm
  | (ts, _) :: rest =>
      let '(tm', txn) := GetTxn tm ts in
      match txn with
      | Some t => t' ← CancelCommitBottom t; StopLoop (with_map tm' (<[ts := Some t']> (txn_map_ tm'))) rest
      | None => StopLoop tm' rest
      end
  end.

(** [TxnManager::Stop] *)
Definition Stop tm : outcome (TxnManager X W) :=
  if negb (is_running_ tm) then Ret tm
  else
    let tm0 := mkTxnManager (next_txn_id_ tm) (txn_map_ tm) (put_wal_entry_ tm) (txn_ts_ tm) (priority_que_ tm) false in
    tm' ← StopLoop tm0 (priority_que_ tm0);
    Ret (with_que tm' []).

(** The end of [TxnManager::CommitTxn] and [TxnManager::RollBackTxn], after
    [Txn::Commit] and [Txn::Rollback] returned. *)
Definition EraseTxn tm (txn : X) : TxnManager X W := with_map tm (delete (TxnID txn) (txn_map_ tm)).

(** ** Specification of the queue

    A slot per timestamp taken for a commit, in the order they were taken.  The
    WAL receives the entries of the resolved slots before the first slot that
    is still reserved. *)

Inductive slot := Reserved | Filled (w : W) | Dropped.

Definition resolved (s : Z * slot) : bool := match s.2 with Reserved => false | _ => true end.

Fixpoint released (l : list (Z * slot)) : list W :=
  match l with
  | [] => []
  | (_, Reserved) :: _ => []
  | (_, Filled w) :: rest => w :: released rest
  | (_, Dropped) :: rest => released rest
  end.

(** The bindings of the slots that have not been dropped. *)
Fixpoint pend (l : list (Z * slot)) : list (Z * option W) :=
  match l with
  | [] => []
  | (ts, Reserved) :: rest => (ts, None) :: pend rest
  | (ts, Filled w) :: rest => (ts, Some w) :: pend rest
  | (_, Dropped) :: rest => pend rest
  end.

Fixpoint waiting (l : list (Z * slot)) : list (Z * option W) :=
  match l with
  | [] => []
  | (_, Reserved) :: _ => pend l
  | _ :: rest => waiting rest
  end.

Definition set_slot (ts : Z) (s : slot) (l : list (Z * slot)) : list (Z * slot) :=
  (fun p => if p.1 =? ts then (p.1, s) else p) <$> l.

(** The calls made on the queue. *)
Inductive qop := QTimestamp (prepare_wal : bool) | QInvalidate (ts : Z) | QPut (w : W).

Definition run_qop tm (op : qop) : outcome (TxnManager X W * list W) :=
  match op with
  | QTimestamp p => Ret (fst (GetTimestamp tm p), [])
  | QInvalidate ts => Invalidate tm ts
  | QPut w => PutWalEntry tm w
  end.

(** The protocol: a timestamp taken for a commit is resolved once. *)
Definition qop_spec (next : Z) (l : list (Z * slot)) (op : qop) : option (Z * list (Z * slot)) :=
  match op with
  | QTimestamp p => Some (next + 1, if p then l ++ [(next, Reserved)] else l)
  | QInvalidate ts => match om_lookup ts l with Some Reserved => Some (next, set_slot ts Dropped l) | _ => None end
  | QPut w => match om_lookup (commit_ts w) l with
              | Some Reserved => Some (next, set_slot (commit_ts w) (Filled w) l) | _ => None end
  end.

(** Sequences of calls. *)
Fixpoint run_qops tm (ops : list qop) : outcome (TxnManager X W * list W) :=
  match ops with
  | [] => Ret (tm, [])
  | op :: rest =>
      '(tm1, out1) ← run_qop tm op;
      '(tm2, out2) ← run_qops tm1 rest;
      Ret (tm2, out1 ++ out2)
  end.

Fixpoint qops_spec (next : Z) (l : list (Z * slot)) (ops : list qop) : option (Z * list (Z * slot)) :=
  match ops with
  | [] => Some (next, l)
  | op :: rest => '(next', l') ← qop_spec next l op; qops_spec next' l' rest
  end.

Definition filled (l : list (Z * slot)) : list W :=
  omap (fun p => match p.2 with Filled w => Some w | _ => None end) l.

(** The manager [tm] that has handed over [out] implements the slots [l]. *)
Definition implements tm (out : list W) (next : Z) (l : list (Z * slot)) : Prop :=
  is_running_ tm = true /\ put_wal_entry_ tm = true /\ txn_ts_ tm = next /\
  om_sorted l /\ Forall (fun p => p.1 < next) l /\
  (forall ts w, (ts, Filled w) ∈ l -> commit_ts w = ts) /\
  out = released l /\ priority_que_ tm = waiting l.

(** *** Slots *)

Lemma drain_pend l : drain (pend l) = (released l, waiting l).
Proof.
  induction l as [|[ts []] l IH]; [done|done| |]; simpl; [|done]. by rewrite IH.
Qed.

(** The resolved slots in front, and the rest. *)
Lemma slots_split l :
  exists pre suf, l = pre ++ suf /\ Forall (fun p => resolved p = true) pre /\
    waiting l = pend suf /\ (forall suf', released (pre ++ suf') = released pre ++ released suf') /\
    released l = released pre /\ (forall suf', waiting (pre ++ suf') = waiting suf').
Proof.
  induction l as [|[ts []] l IH].
  - exists [], []. by split_and!.
  - exists [], ((ts, Reserved) :: l). by split_and!.
  - destruct IH as (pre & suf & -> & Hp & Hw & Hr & Hl & Hwa).
    exists ((ts, Filled w) :: pre), suf. simpl. split_and!; try done; [by constructor|..].
    + intros suf'. by rewrite Hr.
    + by rewrite Hl.
  - destruct IH as (pre & suf & -> & Hp & Hw & Hr & Hl & Hwa).
    exists ((ts, Dropped) :: pre), suf. simpl. split_and!; try done. by constructor.
Qed.

Lemma om_lookup_elem (ts : Z) (s : slot) l : om_lookup ts l = Some s -> (ts, s) ∈ l.
Proof.
  induction l as [|[t' s'] l IH]; [done|]. simpl. destruct (ts =? t') eqn:E; zbool; intros; simplify_eq.
  - by left.
  - right. by apply IH.
Qed.

Lemma set_slot_cons ts s t' s' l :
  set_slot ts s ((t', s') :: l) = (t', if t' =? ts then s else s') :: set_slot ts s l.
Proof. unfold set_slot. rewrite fmap_cons. simpl. by destruct (t' =? ts). Qed.

Lemma set_slot_keys ts s l : (set_slot ts s l).*1 = l.*1.
Proof.
  unfold set_slot. induction l as [|[t' s'] l IH]; [done|]. rewrite !fmap_cons, IH. f_equal.
  simpl. by destruct (t' =? ts).
Qed.

Lemma set_slot_other ts s l : ts ∉ l.*1 -> set_slot ts s l = l.
Proof.
  induction l as [|[t' s'] l IH]; [done|]. rewrite fmap_cons, not_elem_of_cons, set_slot_cons. simpl.
  intros [Hne Hin]. rewrite IH by done. by assert ((t' =? ts) = false) as -> by (apply Z.eqb_neq; congruence).
Qed.

Lemma sorted_app_inv (l k : list (Z * slot)) :
  om_sorted (l ++ k) -> om_sorted k /\ forall x, x ∈ l.*1 -> x ∉ k.*1.
Proof.
  unfold om_sorted. rewrite fmap_app. induction (l.*1) as [|x xs IH]; simpl; intros Hs.
  - split; [done|]. set_solver.
  - inversion Hs as [|? ? Hs' Hf]; subst. destruct (IH Hs') as [Hk Hx]. split; [done|].
    rewrite Forall_forall in Hf. intros y [->|Hy]%elem_of_cons; [|by apply Hx].
    intros Hin. specialize (Hf x). rewrite elem_of_app in Hf. specialize (Hf (or_intror Hin)). lia.
Qed.

Lemma sorted_cons_inv t' s' ts (l : list (Z * slot)) :
  om_sorted ((t', s') :: l) -> om_sorted l /\ (t' ∉ l.*1) /\ (((ts, Reserved) ∈ l) -> t' < ts).
Proof.
  unfold om_sorted. rewrite fmap_cons. intros Hs. inversion Hs as [|? ? Hs' Hf]; subst.
  rewrite Forall_forall in Hf. split_and!; [done|..].
  - intros Hin. specialize (Hf _ Hin). simpl in Hf. lia.
  - intros Hin. apply Hf, list_elem_of_fmap. by exists (ts, Reserved).
Qed.

Lemma pend_insert ts w l :
  om_sorted l -> (ts, Reserved) ∈ l ->
  om_insert ts (Some w) (pend l) = pend (set_slot ts (Filled w) l).
Proof.
  induction l as [|[t' s'] l IH]; [set_solver|]. intros Hs Hin. rewrite set_slot_cons.
  destruct (sorted_cons_inv t' s' ts l Hs) as (Hs' & Hn & Hlt).
  apply elem_of_cons in Hin as [[= <- <-]|Hin].
  - rewrite set_slot_other by done. simpl. by rewrite Z.eqb_refl, Z.ltb_irrefl.
  - specialize (Hlt Hin). specialize (IH Hs' Hin).
    assert ((t' =? ts) = false) as -> by (apply Z.eqb_neq; lia).
    destruct s'; simpl; try done;
      assert ((ts <? t') = false) as -> by (apply Z.ltb_ge; lia);
      assert ((ts =? t') = false) as -> by (apply Z.eqb_neq; lia); by rewrite IH.
Qed.

Lemma pend_keys ts l : ts ∉ l.*1 -> Forall (fun p => p.1 <> ts) (pend l).
Proof.
  induction l as [|[t' []] l IH]; simpl; [constructor|..]; rewrite not_elem_of_cons; intros [Hne Hin];
    try constructor; auto.
Qed.

Lemma om_erase_other {V} ts (l : list (Z * V)) : Forall (fun p => p.1 <> ts) l -> om_erase ts l = l.
Proof.
  unfold om_erase. induction 1 as [|p l Hp _ IH]; [done|]. by rewrite filter_cons_True, IH.
Qed.

Lemma pend_erase ts l :
  om_sorted l -> (ts, Reserved) ∈ l ->
  om_erase ts (pend l) = pend (set_slot ts Dropped l) /\
  length (pend l) = S (length (om_erase ts (pend l))).
Proof.
  induction l as [|[t' s'] l IH]; [set_solver|]. intros Hs Hin. rewrite set_slot_cons.
  destruct (sorted_cons_inv t' s' ts l Hs) as (Hs' & Hn & Hlt).
  apply elem_of_cons in Hin as [[= <- <-]|Hin].
  - rewrite Z.eqb_refl, set_slot_other by done. simpl. unfold om_erase.
    rewrite filter_cons_False by (intros Hc; by apply Hc).
    pose proof (om_erase_other ts (pend l) (pend_keys ts l Hn)) as E. unfold om_erase in E. by rewrite E.
  - specialize (Hlt Hin). destruct (IH Hs' Hin) as [IH1 IH2].
    assert ((t' =? ts) = false) as -> by (apply Z.eqb_neq; lia). unfold om_erase in *.
    destruct s'; simpl; [| |done]; rewrite filter_cons_True by (simpl; lia); simpl;
      split; by rewrite <- ?IH1, <- ?IH2.
Qed.

(** Resolving a reserved slot and draining the front of the queue. *)
Lemma resolve_refines next l ts s que :
  om_sorted l -> Forall (fun p => p.1 < next) l -> om_lookup ts l = Some Reserved ->
  resolved (ts, s) = true ->
  (forall suf, om_sorted suf -> (ts, Reserved) ∈ suf -> waiting l = pend suf -> que = pend (set_slot ts s suf)) ->
  released (set_slot ts s l) = released l ++ fst (drain que) /\
  waiting (set_slot ts s l) = snd (drain que).
Proof.
  intros Hs Hf Hl%om_lookup_elem Hres Hque.
  destruct (slots_split l) as (pre & suf & El & Hpre & Hw & Hr & Hlr & Hwa).
  rewrite El in Hs, Hl. destruct (sorted_app_inv _ _ Hs) as [Hsuf Hdisj].
  apply elem_of_app in Hl as [Hl|Hl].
  { rewrite Forall_forall in Hpre. by specialize (Hpre _ Hl). }
  rewrite (Hque suf Hsuf Hl Hw), drain_pend. rewrite El. unfold set_slot. rewrite fmap_app.
  fold (set_slot ts s pre) (set_slot ts s suf).
  rewrite (set_slot_other ts s pre).
  - simpl. by rewrite Hr, Hwa, <- El, Hlr.
  - intros Hin. apply (Hdisj _ Hin). apply list_elem_of_fmap. by exists (ts, Reserved).
Qed.

Lemma set_slot_implements_inv next l ts s :
  om_sorted l -> Forall (fun p => p.1 < next) l ->
  (forall t w, (t, Filled w) ∈ l -> commit_ts w = t) ->
  (forall w, s = Filled w -> commit_ts w = ts) ->
  om_sorted (set_slot ts s l) /\ Forall (fun p => p.1 < next) (set_slot ts s l) /\
  (forall t w, (t, Filled w) ∈ set_slot ts s l -> commit_ts w = t).
Proof.
  intros Hs Hf Hc Hsw. unfold om_sorted. rewrite set_slot_keys. split_and!; [done|..].
  - unfold set_slot. rewrite Forall_fmap. eapply Forall_impl; [done|]. intros [t' s'] ?. simpl.
    by destruct (t' =? ts).
  - intros t w ([t' s'] & E & Hin)%list_elem_of_fmap. simpl in E.
    destruct (t' =? ts) eqn:Et; zbool; simplify_eq; auto.
Qed.

Lemma Invalidate_refines tm out next l ts :
  implements tm out next l -> om_lookup ts l = Some Reserved ->
  exists tm' out', Invalidate tm ts = Ret (tm', out') /\
    implements tm' (out ++ out') next (set_slot ts Dropped l).
Proof.
  intros (Hrun & Hput & Hts & Hs & Hf & Hc & Ho & Hq) Hl.
  set (que := om_erase ts (priority_que_ tm)).
  destruct (resolve_refines next l ts Dropped que) as [Hr Hw]; try done.
  { intros suf Hsuf Hin E. subst que. rewrite Hq, E. by apply pend_erase. }
  destruct (set_slot_implements_inv next l ts Dropped) as (Hs' & Hf' & Hc'); try done.
  exists (with_que tm (snd (drain que))), (fst (drain que)). split.
  - unfold Invalidate. rewrite Hrun. simpl. fold que.
    case_bool_decide; simpl; [case_bool_decide as He; simpl|].
    + by rewrite He.
    + by destruct (drain que).
    + exfalso. destruct (slots_split l) as (pre & suf & El & Hpre & Hw' & _).
      pose proof (om_lookup_elem _ _ _ Hl) as Hin. rewrite El in Hin, Hs.
      destruct (sorted_app_inv _ _ Hs) as [Hsuf _].
      apply elem_of_app in Hin as [Hin|Hin]; [rewrite Forall_forall in Hpre; by specialize (Hpre _ Hin)|].
      destruct (pend_erase ts suf Hsuf Hin) as [_ Hlen]. subst que. rewrite Hq, Hw' in *. lia.
  - unfold implements. simpl. rewrite Ho. by split_and!.
Qed.

Lemma PutWalEntry_refines tm out next l w :
  implements tm out next l -> om_lookup (commit_ts w) l = Some Reserved ->
  exists tm' out', PutWalEntry tm w = Ret (tm', out') /\
    implements tm' (out ++ out') next (set_slot (commit_ts w) (Filled w) l).
Proof.
  intros (Hrun & Hput & Hts & Hs & Hf & Hc & Ho & Hq) Hl.
  set (que := om_insert (commit_ts w) (Some w) (priority_que_ tm)).
  destruct (resolve_refines next l (commit_ts w) (Filled w) que) as [Hr Hw]; try done.
  { intros suf Hsuf Hin E. subst que. rewrite Hq, E. by apply pend_insert. }
  destruct (set_slot_implements_inv next l (commit_ts w) (Filled w)) as (Hs' & Hf' & Hc'); try done.
  { by intros ? [= ->]. }
  exists (with_que tm (snd (drain que))), (fst (drain que)). split.
  - unfold PutWalEntry. rewrite Hrun, Hput. simpl. fold que. by destruct (drain que).
  - unfold implements. simpl. rewrite Ho. by split_and!.
Qed.

Lemma released_reserve l n : released (l ++ [(n, Reserved)]) = released l.
Proof. induction l as [|[t []] l IH]; simpl; by rewrite ?IH. Qed.

Lemma pend_reserve l n :
  Forall (fun p => p.1 < n) l -> pend (l ++ [(n, Reserved)]) = om_insert n None (pend l).
Proof.
  induction 1 as [|[t s] l Ht _ IH]; [done|]. simpl in *.
  destruct s; simpl; try done;
    assert ((n <? t) = false) as -> by (apply Z.ltb_ge; lia);
    assert ((n =? t) = false) as -> by (apply Z.eqb_neq; lia); by rewrite IH.
Qed.

Lemma waiting_reserve l n :
  Forall (fun p => p.1 < n) l -> waiting (l ++ [(n, Reserved)]) = om_insert n None (waiting l).
Proof.
  induction 1 as [|[t s] l Ht Hl IH]; [done|]. destruct s; simpl; [|done|done].
  simpl in Ht. assert ((n <? t) = false) as -> by (apply Z.ltb_ge; lia).
  assert ((n =? t) = false) as -> by (apply Z.eqb_neq; lia). by rewrite pend_reserve.
Qed.

Lemma sorted_snoc (l : list (Z * slot)) n s :
  om_sorted l -> Forall (fun p => p.1 < n) l -> om_sorted (l ++ [(n, s)]).
Proof.
  unfold om_sorted. rewrite fmap_app. induction l as [|[t s'] l IH]; simpl; intros Hs Hf.
  - repeat constructor.
  - inversion Hs as [|? ? Hs' Hf']; subst. apply Forall_cons in Hf as [Ht Hf].
    constructor; [by apply IH|]. apply Forall_app. split; [done|]. by repeat constructor.
Qed.

Lemma GetTimestamp_refines tm out next l p :
  implements tm out next l -> 0 <= next -> next + 1 < 2 ^ 64 ->
  implements (fst (GetTimestamp tm p)) out (next + 1) (if p then l ++ [(next, Reserved)] else l).
Proof.
  intros (Hrun & Hput & Hts & Hs & Hf & Hc & Ho & Hq) H0 Hlt.
  unfold implements, GetTimestamp. simpl. rewrite Hrun, Hput, Hts, andb_true_r.
  assert (Forall (fun q => q.1 < next + 1) l) as Hf'.
  { eapply Forall_impl; [done|]. intros q ?. simpl in *. lia. }
  split_and!; try done.
  - apply u_wrap_id. unfold u_range. lia.
  - destruct p; [by apply sorted_snoc|done].
  - destruct p; [|done]. apply Forall_app. split; [done|]. repeat constructor. simpl. lia.
  - destruct p; [|done]. intros ts w [?|E%list_elem_of_singleton]%elem_of_app; [auto|done].
  - destruct p; [by rewrite released_reserve|done].
  - destruct p; [by rewrite waiting_reserve, Hq|done].
Qed.

Lemma run_qop_refines tm out next l op next' l' :
  implements tm out next l -> 0 <= next -> next + 1 < 2 ^ 64 -> qop_spec next l op = Some (next', l') ->
  exists tm' out', run_qop tm op = Ret (tm', out') /\ implements tm' (out ++ out') next' l' /\
    next <= next' <= next + 1.
Proof.
  intros Hi H0 Hlt Hop. destruct op as [p|ts|w]; simpl in Hop.
  - simplify_eq. do 2 eexists. split; [done|]. rewrite app_nil_r.
    split; [by apply GetTimestamp_refines|lia].
  - repeat (destruct_match_in Hop; simplify_eq/=).
    destruct (Invalidate_refines tm out next' l ts) as (tm' & out' & E & ?); try done.
    exists tm', out'. split_and!; (done || lia).
  - repeat (destruct_match_in Hop; simplify_eq/=).
    destruct (PutWalEntry_refines tm out next' l w) as (tm' & out' & E & ?); try done.
    exists tm', out'. split_and!; (done || lia).
Qed.

Lemma run_qops_refines tm out next l ops next' l' :
  implements tm out next l -> 0 <= next -> next + Z.of_nat (length ops) < 2 ^ 64 ->
  qops_spec next l ops = Some (next', l') ->
  exists tm' out', run_qops tm ops = Ret (tm', out') /\ implements tm' (out ++ out') next' l'.
Proof.
  revert tm out next l. induction ops as [|op ops IH]; intros tm out next l Hi H0 Hlt Hs.
  { simplify_eq/=. exists tm, []. by rewrite app_nil_r. }
  simpl in Hs. destruct (qop_spec next l op) as [[n1 l1]|] eqn:Eop; [|done]. simpl in Hs.
  rewrite length_cons in Hlt.
  destruct (run_qop_refines tm out next l op n1 l1) as (tm1 & out1 & E1 & Hi1 & Hn); try (done || lia).
  destruct (IH tm1 (out ++ out1) n1 l1) as (tm2 & out2 & E2 & Hi2); try (done || lia).
  exists tm2, (out1 ++ out2). simpl. rewrite E1. simpl. rewrite E2. simpl. by rewrite app_assoc.
Qed.

Lemma implements_start n start_ts :
  implements (Start (NewTxnManager n true start_ts)) [] start_ts [].
Proof. unfold implements. simpl. split_and!; try done; try constructor. set_solver. Qed.

Lemma released_prefix l : exists k, filled l = released l ++ k.
Proof.
  induction l as [|[t []] l [k IH]]; simpl.
  - by exists [].
  - eexists. done.
  - exists k. unfold filled in *. by rewrite IH.
  - by exists k.
Qed.

Lemma filled_sorted l :
  om_sorted l -> (forall ts w, (ts, Filled w) ∈ l -> commit_ts w = ts) ->
  StronglySorted Z.lt (commit_ts <$> filled l).
Proof.
  unfold om_sorted. induction l as [|[t s] l IH]; intros Hs Hc; [constructor|].
  inversion Hs as [|? ? Hs' Hf]; subst. specialize (IH Hs' ltac:(intros; apply Hc; by right)).
  destruct s as [|w|]; [done| |done]. change (filled ((t, Filled w) :: l)) with (w :: filled l).
  rewrite fmap_cons. constructor; [done|]. rewrite (Hc t w) by (by left).
  apply Forall_forall. intros x (w' & -> & Hw')%list_elem_of_fmap.
  unfold filled in Hw'. apply list_elem_of_omap in Hw' as ([t' s'] & Hin & E). simpl in E.
  destruct s'; simplify_eq. rewrite (Hc t' w') by (by right).
  rewrite Forall_forall in Hf. apply Hf. apply list_elem_of_fmap. by exists (t', Filled w').
Qed.

Lemma reserved_blocks l ts :
  om_sorted l -> (forall t w, (t, Filled w) ∈ l -> commit_ts w = t) -> (ts, Reserved) ∈ l ->
  Forall (fun w => commit_ts w < ts) (released l).
Proof.
  induction l as [|[t s] l IH]; intros Hs Hc Hin; [constructor|].
  destruct (sorted_cons_inv t s ts l Hs) as (Hs' & _ & Hlt).
  apply elem_of_cons in Hin as [[= <- <-]|Hin]; [constructor|].
  assert (Forall (fun w => commit_ts w < ts) (released l)) as IHl.
  { apply IH; [done| |done]. intros; apply Hc; by right. }
  destruct s as [|w|]; simpl; [constructor| |done].
  constructor; [|done]. rewrite (Hc t w) by (by left). by apply Hlt.
Qed.

Lemma released_all_resolved l : Forall (fun p => resolved p = true) l -> released l = filled l /\ waiting l = [].
Proof.
  induction 1 as [|[t []] l Hr _ [IH1 IH2]]; [done|done|..|done]; simpl.
  rewrite IH1, IH2. done.
Qed.

(** *** Stopping *)

Lemma StopLoop_other tm que tm' t :
  StopLoop tm que = Ret tm' -> t ∉ que.*1 -> txn_map_ tm' !! t = txn_map_ tm !! t.
Proof.
  revert tm. induction que as [|[ts o] que IH]; intros tm; simpl; [by intros [= ->]|].
  rewrite not_elem_of_cons. unfold GetTxn. intros Hs [Hne Hin].
  destruct (txn_map_ tm !! ts) as [[x|]|] eqn:E; simpl in Hs.
  - destruct (CancelCommitBottom x) as [x'| |]; simpl in Hs; [|done..].
    rewrite (IH _ Hs Hin). simpl. by rewrite lookup_insert_ne.
  - by apply IH.
  - rewrite (IH _ Hs Hin). simpl. by rewrite lookup_insert_ne.
Qed.

(** ** Properties *)

(** C4: The queue implements its specification: for every sequence of calls in
    which a timestamp taken for a commit is resolved at most once, no call
    throws, the entries handed to the WAL are those of the resolved slots
    before the first undecided one, and the queue holds the rest. *)
Theorem txn_queue_refines_spec n start_ts ops next' l' :
  0 <= start_ts -> start_ts + Z.of_nat (length ops) < 2 ^ 64 ->
  qops_spec start_ts [] ops = Some (next', l') ->
  exists tm' out, run_qops (Start (NewTxnManager n true start_ts)) ops = Ret (tm', out) /\
    out = released l' /\ priority_que_ tm' = waiting l' /\ txn_ts_ tm' = next'.
Proof.
  intros H0 Hlt Hs.
  destruct (run_qops_refines _ [] start_ts [] ops next' l' (implements_start n start_ts) H0 Hlt Hs)
    as (tm' & out & E & (_ & _ & Hts & _ & _ & _ & Ho & Hq)).
  by exists tm', out.
Qed.

(** C37: The WAL receives the entries in strictly increasing commit-timestamp
    order, nothing above an undecided timestamp, and, once every timestamp is
    decided, every entry that was put. *)
Theorem txn_queue_ordered_complete n start_ts ops next' l' :
  0 <= start_ts -> start_ts + Z.of_nat (length ops) < 2 ^ 64 ->
  qops_spec start_ts [] ops = Some (next', l') ->
  exists tm' out, run_qops (Start (NewTxnManager n true start_ts)) ops = Ret (tm', out) /\
    StronglySorted Z.lt (commit_ts <$> out) /\
    (exists k, filled l' = out ++ k) /\
    (forall ts, (ts, Reserved) ∈ l' -> Forall (fun w => commit_ts w < ts) out) /\
    (Forall (fun p => resolved p = true) l' -> out = filled l' /\ priority_que_ tm' = []).
Proof.
  intros H0 Hlt Hs.
  destruct (run_qops_refines _ [] start_ts [] ops next' l' (implements_start n start_ts) H0 Hlt Hs)
    as (tm' & out & E & (_ & _ & Hts & Hsort & _ & Hc & Ho & Hq)).
  simpl in Ho. subst out. exists tm', (released l'). split; [done|].
  destruct (released_prefix l') as [k Hk]. pose proof (filled_sorted l' Hsort Hc) as Hfs. split_and!.
  - rewrite Hk, fmap_app in Hfs. by apply StronglySorted_app_1_l in Hfs.
  - by exists k.
  - intros ts Hin. by apply reserved_blocks.
  - rewrite Hq. apply released_all_resolved.
Qed.

(** [Stop] looks up the waiting transactions by commit timestamp instead of
    transaction id: a transaction whose id is not the commit timestamp of some
    queued entry is left as it is, so a committer in the queue is not woken. *)
Theorem txn_stop_leaves_committers tm tm' t :
  Stop tm = Ret tm' -> t ∉ (priority_que_ tm).*1 ->
  txn_map_ tm' !! t = txn_map_ tm !! t /\ (is_running_ tm = true -> priority_que_ tm' = []).
Proof.
  unfold Stop. destruct (is_running_ tm) eqn:Er; simpl.
  - destruct (StopLoop _ _) as [tm1| |] eqn:E; simpl; [|done..].
    intros [= <-] Hin. simpl. split; [|done].
    apply (StopLoop_other _ _ _ t) in E; [by rewrite E|done].
  - by intros [= ->].
Qed.
End TxnManager.

(** Sample entries: an id and a commit timestamp. *)
Definition sample_ops : list (qop (W := Z * Z)) :=
  [QTimestamp true; QTimestamp false; QTimestamp true; QTimestamp true; QPut (7, 4); QPut (8, 3); QInvalidate 1].

Definition sample_slots : list (Z * slot) := [(1, Dropped); (3, Filled (8, 3)); (4, Filled (7, 4))].

Lemma txn_queue_refines_spec_witness :
  exists tm' out, run_qops snd (Start (NewTxnManager (X := TxnCore) 0 true 1)) sample_ops = Ret (tm', out) /\
    out = [(8, 3); (7, 4)] /\ priority_que_ tm' = [].
Proof.
  destruct (txn_queue_refines_spec (X := TxnCore) snd 0 1 sample_ops 5 sample_slots)
    as (tm' & out & E & Ho & Hq & _); [done|done|vm_compute; reflexivity|].
  by exists tm', out.
Defined.

Lemma txn_queue_ordered_complete_witness :
  exists tm' out, run_qops snd (Start (NewTxnManager (X := TxnCore) 0 true 1)) sample_ops = Ret (tm', out) /\
    StronglySorted Z.lt (snd <$> out).
Proof.
  destruct (txn_queue_ordered_complete (X := TxnCore) snd 0 1 sample_ops 5 sample_slots)
    as (tm' & out & E & Ho & _); [done|done|vm_compute; reflexivity|].
  by exists tm', out.
Defined.

(** Transaction 7 waits in [Commit] with commit timestamp 12. *)
Lemma txn_stop_leaves_committers_witness :
  let t7 := mkTxnCore 7 (mkTxnContext 10 12 kCommitting) false in
  let tm := mkTxnManager (W := Z * Z) 7 {[ 7 := Some t7 ]} true 13 [(11, None); (12, Some (7, 12))] true in
  exists tm', Stop tm = Ret tm' /\ txn_map_ tm' !! 7 = Some (Some t7).
Proof.
  intros t7 tm. eexists. split; [vm_compute; reflexivity|].
  refine (proj1 (txn_stop_leaves_committers tm _ 7 _ _)); [vm_compute; reflexivity|].
  simpl. rewrite !not_elem_of_cons. split_and!; [done|done|apply not_elem_of_nil].
Defined.

(** A transaction id that does not fit 32 bits is truncated by the
    constructor of [Txn]: the transaction is then not found under the id it
    reports, which is the id its WAL entry carries. *)
Theorem create_txn_truncates_id {W} (tm tm' : TxnManager TxnCore W) key :
  CreateTxn tm = Ret (tm', key) -> 2 ^ 32 <= key < 2 ^ 64 ->
  (forall id, id < 2 ^ 32 -> txn_map_ tm !! id = None) ->
  exists x, txn_map_ tm' !! key = Some (Some x) /\ TxnID x <> key /\ snd (GetTxn tm' (TxnID x)) = None.
Proof.
  unfold CreateTxn. destruct (is_running_ tm); [|done]. simpl. intros [= <- <-] Hk Hno.
  set (key := to_u64 (next_txn_id_ tm + 1)) in *.
  exists (mkTxnCore (to_u32 key) NewTxnContext false). simpl. rewrite lookup_insert_eq.
  assert (u_range 32 (to_u32 key)) as [? ?] by (apply u_wrap_range; lia).
  split; [done|]. split; [lia|]. unfold GetTxn. simpl. rewrite lookup_insert_ne by lia. by rewrite Hno.
Qed.

Lemma create_txn_truncates_id_witness :
  exists tm' x, CreateTxn (mkTxnManager (W := Z * Z) (2 ^ 32 - 1) ∅ true 5 [] true) = Ret (tm', 2 ^ 32) /\
    txn_map_ tm' !! (2 ^ 32) = Some (Some x) /\ snd (GetTxn tm' (TxnID x)) = None.
Proof.
  eexists. edestruct (create_txn_truncates_id (W := Z * Z) (mkTxnManager (2 ^ 32 - 1) ∅ true 5 [] true))
    as (x & H1 & _ & H2); [vm_compute; reflexivity|done| |].
  - intros. apply lookup_empty.
  - exists x. split; [vm_compute; reflexivity|]. by split.
Defined.
