(* ===== verification/Crc.v ===== *)
(** [common/utility/crc.cppm]: the table-driven CRC-32 that protects WAL entries,
    its equality with the bit-serial definition, and its guarantee that a change
    of one byte is detected.  Bytes and words are [Z]. *)
From S2P Require Import Prelude.

Local Open Scope Z_scope.

Definition CRC32_IEEE : Z := 0xEDB88320.
Definition INITIAL_REMAINDER : Z := 0xFFFFFFFF.
Definition FINAL_XOR_VALUE : Z := 0xFFFFFFFF.

(** The body of the inner loop of [CRCBase::CRCBase]. *)
Definition crc_bit (polynomial c : Z) : Z :=
  if Z.odd c then Z.lxor polynomial (Z.shiftr c 1) else Z.shiftr c 1.

(** [tab] of [CRCBase]. *)
Definition CRCBase (polynomial : Z) : list Z :=
  (fun i => Nat.iter 8 (crc_bit polynomial) i) <$> seqZ 0 256.

(** The loop body of [CRCImpl::makeCRC]. *)
Definition crc_byte (tab : list Z) (crc b : Z) : Z :=
  Z.lxor (default 0 (tab !! Z.to_nat (Z.land (Z.lxor crc b) 255))) (Z.shiftr crc 8).

(** [CRCImpl::makeCRC] of [CRC32IEEE]. *)
Definition makeCRC (buf : list Z) : Z :=
  let tab := CRCBase CRC32_IEEE in
  Z.lxor (foldl (crc_byte tab) INITIAL_REMAINDER buf) FINAL_XOR_VALUE.

(** The bit-serial definition: feed the register with the byte and shift eight
    times. *)
Definition crc_byte_serial (crc b : Z) : Z := Nat.iter 8 (crc_bit CRC32_IEEE) (Z.lxor crc b).

Definition makeCRC_serial (buf : list Z) : Z :=
  Z.lxor (foldl crc_byte_serial INITIAL_REMAINDER buf) FINAL_XOR_VALUE.

(** *** One bit *)

Lemma crc_bit_spec p c n :
  0 <= n -> Z.testbit (crc_bit p c) n = xorb (Z.testbit p n && Z.odd c) (Z.testbit c (n + 1)).
Proof.
  intros Hn. unfold crc_bit. destruct (Z.odd c); rewrite ?Z.lxor_spec, Z.shiftr_spec by lia;
    by rewrite ?andb_true_r, ?andb_false_r, ?xorb_false_l.
Qed.

Lemma crc_bit_lxor p a b : crc_bit p (Z.lxor a b) = Z.lxor (crc_bit p a) (crc_bit p b).
Proof.
  apply Z.bits_inj'. intros n Hn. rewrite Z.lxor_spec, !crc_bit_spec, <- !Z.bit0_odd, !Z.lxor_spec by lia.
  by destruct (Z.testbit p n), (Z.testbit a 0), (Z.testbit b 0), (Z.testbit a (n + 1)), (Z.testbit b (n + 1)).
Qed.

Lemma crc_bits_lxor k p a b :
  Nat.iter k (crc_bit p) (Z.lxor a b) = Z.lxor (Nat.iter k (crc_bit p) a) (Nat.iter k (crc_bit p) b).
Proof. induction k as [|k IH]; [done|]. simpl. by rewrite IH, crc_bit_lxor. Qed.

Lemma crc_bits_shift k p y : Nat.iter k (crc_bit p) (Z.shiftl y (Z.of_nat k)) = y.
Proof.
  revert y. induction k as [|k IH]; intros y; [apply Z.shiftl_0_r|].
  rewrite Nat.iter_succ_r.
  assert (crc_bit p (Z.shiftl y (Z.of_nat (S k))) = Z.shiftl y (Z.of_nat k)) as ->; [|apply IH].
  apply Z.bits_inj'. intros n Hn. rewrite crc_bit_spec, <- Z.bit0_odd by lia.
  rewrite !Z.shiftl_spec by lia. rewrite (Z.testbit_neg_r y (0 - _)) by lia.
  rewrite andb_false_r, xorb_false_l. f_equal. lia.
Qed.

Lemma split_low8 x : x = Z.lxor (Z.land x 255) (Z.shiftl (Z.shiftr x 8) 8).
Proof.
  apply Z.bits_inj'. intros n Hn. rewrite Z.lxor_spec, Z.land_spec, Z.shiftl_spec by lia.
  change 255 with (Z.ones 8). rewrite Z.testbit_ones_nonneg by lia.
  destruct (n <? 8) eqn:E; zbool.
  - rewrite (Z.testbit_neg_r _ (n - 8)) by lia. by rewrite andb_true_r, xorb_false_r.
  - rewrite Z.shiftr_spec by lia. rewrite andb_false_r, xorb_false_l. f_equal. lia.
Qed.

Lemma shiftr8_byte crc b : 0 <= b < 256 -> Z.shiftr (Z.lxor crc b) 8 = Z.shiftr crc 8.
Proof.
  intros Hb. rewrite Z.shiftr_lxor. rewrite (Z.shiftr_div_pow2 b) by lia.
  rewrite Z.div_small by (change (2 ^ 8) with 256; lia). apply Z.lxor_0_r.
Qed.

Lemma CRCBase_lookup p x :
  CRCBase p !! Z.to_nat (Z.land x 255) = Some (Nat.iter 8 (crc_bit p) (Z.land x 255)).
Proof.
  assert (0 <= Z.land x 255 < 256) as Hr.
  { change 255 with (Z.ones 8). rewrite Z.land_ones by lia. apply Z.mod_pos_bound. lia. }
  unfold CRCBase. rewrite list_lookup_fmap, lookup_seqZ_lt by lia.
  by rewrite Z2Nat.id by lia.
Qed.

Lemma crc_byte_eq crc b : 0 <= b < 256 -> crc_byte (CRCBase CRC32_IEEE) crc b = crc_byte_serial crc b.
Proof.
  intros Hb. unfold crc_byte, crc_byte_serial. rewrite CRCBase_lookup. simpl default.
  rewrite (split_low8 (Z.lxor crc b)) at 2. rewrite crc_bits_lxor.
  change (Z.shiftl (Z.shiftr (Z.lxor crc b) 8) 8) with (Z.shiftl (Z.shiftr (Z.lxor crc b) 8) (Z.of_nat 8)).
  by rewrite crc_bits_shift, shiftr8_byte.
Qed.

(** *** Injectivity of the register *)

Lemma u32_bits c : u_range 32 c <-> 0 <= c /\ forall n, 32 <= n -> Z.testbit c n = false.
Proof.
  unfold u_range. split.
  - intros [H0 H1]. split; [done|]. intros n Hn.
    destruct (decide (c = 0)) as [->|]; [apply Z.bits_0|].
    apply Z.bits_above_log2; [done|]. apply Z.log2_lt_pow2; [lia|].
    eapply Z.lt_le_trans; [done|]. apply Z.pow_le_mono_r; lia.
  - intros [H0 Hb]. split; [done|]. destruct (decide (c = 0)) as [->|]; [lia|].
    apply Z.log2_lt_pow2; [lia|]. destruct (Z_lt_le_dec (Z.log2 c) 32) as [|Hl]; [done|].
    specialize (Hb _ Hl). rewrite Z.bit_log2 in Hb by lia. done.
Qed.

Lemma crc_bit_range c : u_range 32 c -> u_range 32 (crc_bit CRC32_IEEE c).
Proof.
  rewrite !u32_bits. intros [H0 Hb]. split.
  - unfold crc_bit. destruct (Z.odd c).
    + apply Z.lxor_nonneg. split; intros; [apply Z.shiftr_nonneg; lia|done].
    + apply Z.shiftr_nonneg. lia.
  - intros n Hn. rewrite crc_bit_spec, (Hb (n + 1)) by lia.
    assert (Z.testbit CRC32_IEEE n = false) as ->; [|done].
    apply (proj2 (proj1 (u32_bits CRC32_IEEE) ltac:(done))). lia.
Qed.

Lemma crc_bit_inj a b :
  u_range 32 a -> u_range 32 b -> crc_bit CRC32_IEEE a = crc_bit CRC32_IEEE b -> a = b.
Proof.
  rewrite !u32_bits. intros [Ha0 Ha] [Hb0 Hb] E.
  assert (forall n, 0 <= n ->
    xorb (Z.testbit CRC32_IEEE n && Z.odd a) (Z.testbit a (n + 1)) =
    xorb (Z.testbit CRC32_IEEE n && Z.odd b) (Z.testbit b (n + 1))) as Hbits.
  { intros n Hn. by rewrite <- !crc_bit_spec, E by lia. }
  assert (Z.odd a = Z.odd b) as Ho.
  { specialize (Hbits 31 ltac:(lia)). change (Z.testbit CRC32_IEEE 31) with true in Hbits.
    rewrite (Ha (31 + 1)), (Hb (31 + 1)) in Hbits by lia. by destruct (Z.odd a), (Z.odd b). }
  apply Z.bits_inj'. intros n Hn. destruct (decide (n = 0)) as [->|].
  - by rewrite !Z.bit0_odd.
  - specialize (Hbits (n - 1) ltac:(lia)). rewrite Ho in Hbits. replace (n - 1 + 1) with n in Hbits by lia.
    by destruct (Z.testbit CRC32_IEEE (n - 1) && Z.odd b)%bool, (Z.testbit a n), (Z.testbit b n).
Qed.

Lemma crc_bits_range k c : u_range 32 c -> u_range 32 (Nat.iter k (crc_bit CRC32_IEEE) c).
Proof. intros Hc. induction k as [|k IH]; [done|]. simpl. by apply crc_bit_range. Qed.

Lemma crc_bits_inj k a b :
  u_range 32 a -> u_range 32 b ->
  Nat.iter k (crc_bit CRC32_IEEE) a = Nat.iter k (crc_bit CRC32_IEEE) b -> a = b.
Proof.
  intros Ha Hb. induction k as [|k IH]; [done|]. simpl. intros E. apply IH.
  apply crc_bit_inj; [by apply crc_bits_range|by apply crc_bits_range|done].
Qed.

Lemma lxor_byte_range crc b : u_range 32 crc -> 0 <= b < 256 -> u_range 32 (Z.lxor crc b).
Proof.
  intros Hc Hb. assert (u_range 32 b) as Hb' by (unfold u_range; lia).
  rewrite u32_bits in *. destruct Hc as [Hc0 Hc], Hb' as [Hb0 Hb']. split.
  - apply Z.lxor_nonneg. lia.
  - intros n Hn. by rewrite Z.lxor_spec, Hc, Hb'.
Qed.

Lemma crc_byte_serial_range crc b : u_range 32 crc -> 0 <= b < 256 -> u_range 32 (crc_byte_serial crc b).
Proof. intros. by apply crc_bits_range, lxor_byte_range. Qed.

Lemma lxor_cancel a b c : Z.lxor a c = Z.lxor b c -> a = b.
Proof.
  intros E. rewrite <- (Z.lxor_0_r a), <- (Z.lxor_0_r b), <- (Z.lxor_nilpotent c).
  by rewrite <- !Z.lxor_assoc, E.
Qed.

Lemma crc_fold_range l crc :
  u_range 32 crc -> Forall (fun b => 0 <= b < 256) l -> u_range 32 (foldl crc_byte_serial crc l).
Proof.
  intros Hc Hl. revert crc Hc. induction Hl as [|b l Hb _ IH]; intros crc Hc; [done|].
  simpl. apply IH. by apply crc_byte_serial_range.
Qed.

Lemma crc_fold_inj l a b :
  u_range 32 a -> u_range 32 b -> Forall (fun x => 0 <= x < 256) l ->
  foldl crc_byte_serial a l = foldl crc_byte_serial b l -> a = b.
Proof.
  intros Ha Hb Hl. revert a b Ha Hb. induction Hl as [|x l Hx _ IH]; intros a b Ha Hb; [done|].
  simpl. intros E%IH; [|by apply crc_byte_serial_range..].
  apply crc_bits_inj in E; [|by apply lxor_byte_range..]. by apply lxor_cancel in E.
Qed.

Lemma makeCRC_serial_eq buf : Forall (fun b => 0 <= b < 256) buf -> makeCRC buf = makeCRC_serial buf.
Proof.
  intros Hl. unfold makeCRC, makeCRC_serial. f_equal. generalize INITIAL_REMAINDER.
  induction Hl as [|b l Hb _ IH]; intros crc; [done|]. simpl. by rewrite crc_byte_eq, IH.
Qed.

Lemma makeCRC_range buf : Forall (fun b => 0 <= b < 256) buf -> u_range 32 (makeCRC buf).
Proof.
  intros Hl. rewrite makeCRC_serial_eq by done. unfold makeCRC_serial.
  assert (u_range 32 (foldl crc_byte_serial INITIAL_REMAINDER buf)) as Hr by (by apply crc_fold_range).
  rewrite u32_bits in *. destruct Hr as [H0 Hb]. split; [apply Z.lxor_nonneg; split; (done || lia)|].
  intros n Hn. rewrite Z.lxor_spec, Hb by done. rewrite xorb_false_l.
  by apply (proj2 (proj1 (u32_bits FINAL_XOR_VALUE) ltac:(done))).
Qed.

Lemma makeCRC_byte_change l1 x y l2 :
  Forall (fun b => 0 <= b < 256) (l1 ++ x :: l2) -> 0 <= y < 256 -> x <> y ->
  makeCRC (l1 ++ x :: l2) <> makeCRC (l1 ++ y :: l2).
Proof.
  intros Hl Hy Hne. pose proof Hl as [Hl1 [Hx Hl2]%Forall_cons]%Forall_app.
  rewrite !makeCRC_serial_eq by first [done | apply Forall_app; split; [done|by constructor]].
  unfold makeCRC_serial. rewrite !foldl_app. simpl. intros E%lxor_cancel.
  assert (u_range 32 (foldl crc_byte_serial INITIAL_REMAINDER l1)) as Hr by (by apply crc_fold_range).
  apply crc_fold_inj in E; [|by apply crc_byte_serial_range..|done].
  apply crc_bits_inj in E; [|by apply lxor_byte_range..].
  rewrite !(Z.lxor_comm (foldl _ _ _)) in E. by apply lxor_cancel in E.
Qed.

(** C32: The table-driven checksum is the bit-serial CRC-32 of the buffer. *)
Theorem makeCRC_is_serial_crc buf :
  Forall (fun b => 0 <= b < 256) buf -> makeCRC buf = makeCRC_serial buf /\ u_range 32 (makeCRC buf).
Proof. intros Hb. split; [by apply makeCRC_serial_eq|by apply makeCRC_range]. Qed.

(** The check value of CRC-32/ISO-HDLC on "123456789". *)
Lemma makeCRC_is_serial_crc_witness :
  makeCRC [49; 50; 51; 52; 53; 54; 55; 56; 57] = 0xCBF43926 /\
  makeCRC_serial [49; 50; 51; 52; 53; 54; 55; 56; 57] = 0xCBF43926.
Proof.
  assert (Forall (fun b => 0 <= b < 256) [49; 50; 51; 52; 53; 54; 55; 56; 57]) as H
    by (repeat constructor; lia).
  destruct (makeCRC_is_serial_crc _ H) as [<- _]. vm_compute. done.
Defined.
