(* ===== verification/Wire.v ===== *)
(** [common/utility/serialize.cppm] and the [GetSizeInBytes]/[WriteAdv]/[ReadAdv]
    members of the schema objects: the byte encodings that the write-ahead log
    is made of.

    A buffer is a list of bytes (integers from 0 to 255); [WriteAdv(char *&ptr)]
    is the list of bytes it writes; [ReadAdv(char *&ptr, maxbytes)] is a reader
    that takes the bytes at [ptr] and returns the value and the bytes at the
    advanced [ptr].  Reading past the end of the buffer is undefined behaviour.
    Strings are assumed shorter than [2^31] bytes, lists shorter than [2^31]
    elements: their lengths are stored as [i32]. *)
From S2P Require Import Prelude Common Defs.

Local Open Scope Z_scope.

Definition Reader (A : Type) : Type := list Z -> outcome (A * list Z).

#[export] Instance reader_ret : MRet Reader := fun A a l => Ret (a, l).
#[export] Instance reader_bind : MBind Reader := fun A B f m l =>
  match m l with
  | Ret (a, l') => f a l'
  | Throw e s => Throw e s
  | UB s => UB s
  end.

Definition throw {A} (e : exn) (msg : string) : Reader A := fun _ => Throw e msg.
Definition out_of_model {A} (why : string) : Reader A := fun _ => UB why.

(** How many bytes are left: [ptr_end - ptr] is computed from two of these. *)
Definition left : Reader Z := fun l => Ret (Z.of_nat (length l), l).

(** ** Little-endian integers *)

Fixpoint le_bytes (n : nat) (z : Z) : list Z :=
  match n with
  | O => []
  | S n' => (z mod 256) :: le_bytes n' (z / 256)
  end.

Fixpoint le_value (l : list Z) : Z :=
  match l with
  | [] => 0
  | b :: rest => b + 256 * le_value rest
  end.

Definition read_bytes (n : nat) : Reader (list Z) := fun l =>
  if (n <=? length l)%nat then Ret (take n l, drop n l) else UB "read past the end of the buffer".

(** [ReadBufAdv<T>] for an unsigned and a signed integer of [n] bytes. *)
Definition read_u (n : nat) : Reader Z := bs ← read_bytes n; mret (le_value bs).
Definition read_s (n : nat) : Reader Z := bs ← read_bytes n; mret (s_wrap (8 * Z.of_nat n) (le_value bs)).

(** ** Strings *)

Definition bytes_of_string (s : string) : list Z := (fun a => Z.of_nat (Ascii.nat_of_ascii a)) <$> String.list_ascii_of_string s.
Definition string_of_bytes (l : list Z) : string := String.string_of_list_ascii ((fun b => Ascii.ascii_of_nat (Z.to_nat b)) <$> l).
Definition str_len (s : string) : Z := Z.of_nat (String.length s).

(** [WriteBufAdv<String>] *)
Definition write_string (s : string) : list Z := le_bytes 4 (to_i32 (str_len s)) ++ bytes_of_string s.

(** [ReadBufAdv<String>] *)
Definition read_string : Reader string :=
  size ← read_s 4;
  if size <? 0 then throw StdException "basic_string::_M_create"
  else bs ← read_bytes (Z.to_nat size); mret (string_of_bytes bs).

(** ** Loops [for (i32 i = 0; i < cnt; i++)] *)

Fixpoint read_n {A} (n : nat) (r : Reader A) : Reader (list A) :=
  match n with
  | O => mret []
  | S n' => x ← r; xs ← read_n n' r; mret (x :: xs)
  end.

(** ** Enumerations: the position of the enumerator *)

Fixpoint enum_index {A} `{EqDecision A} (x : A) (l : list A) : Z :=
  match l with
  | [] => 0
  | y :: rest => if decide (x = y) then 0 else 1 + enum_index x rest
  end.

Definition enum_value {A} (l : list A) (z : Z) : option A := if 0 <=? z then l !! Z.to_nat z else None.

Definition read_enum {A} (n : nat) (l : list A) : Reader A :=
  z ← read_s n;
  match enum_value l z with
  | Some x => mret x
  | None => out_of_model "not an enumerator"
  end.

Definition write_enum {A} `{EqDecision A} (n : nat) (l : list A) (x : A) : list Z := le_bytes n (enum_index x l).

(** ** [DataType] ([parser/type/data_type.cpp]) *)

Definition SizeofLogicalType : nat := 1.
Definition SizeofEmbeddingDataType : nat := 1.
Definition SizeofConstraintType : nat := 1.
Definition SizeofIndexType : nat := 4.
Definition SizeofMetricType : nat := 4.
Definition SizeofHnswEncodeType : nat := 4.

(** [DataType::GetSizeInBytes] *)
Definition DataType_GetSizeInBytes (dt : DataType) : outcome Z :=
  match type_info_ dt with
  | None => Ret 1
  | Some _ =>
      match type_ dt with
      | LogicalType.kArray => Throw ParserException "Array isn't implemented here."
      | LogicalType.kDecimal => Ret (1 + 8 * 2)
      | LogicalType.kEmbedding => Ret (1 + 1 + 4)
      | _ => Throw ParserException "Unexpected type here."
      end
  end.

(** [DataType::WriteAdv] *)
Definition DataType_WriteAdv (dt : DataType) : outcome (list Z) :=
  let head := write_enum SizeofLogicalType LogicalType.all (type_ dt) in
  match type_ dt with
  | LogicalType.kArray => Throw ParserException "Array isn't implemented here."
  | LogicalType.kDecimal =>
      let '(precision, scale) :=
        match type_info_ dt with Some (DecimalInfo p s) => (p, s) | _ => (0, 0) end in
      Ret (head ++ le_bytes 8 precision ++ le_bytes 8 scale)
  | LogicalType.kEmbedding =>
      match type_info_ dt with
      | Some (EmbeddingInfo ty dimension) =>
          Ret (head ++ write_enum SizeofEmbeddingDataType EmbeddingDataType.all ty ++ le_bytes 4 (to_i32 dimension))
      | _ => Throw ParserException "kEmbedding associated type_info is nullptr here."
      end
  | _ => Ret head
  end.

(** [DecimalInfo::Make] *)
Definition DecimalInfo_Make (precision scale : Z) : outcome TypeInfo :=
  let '(precision, scale) := if ((precision =? 0) && (scale =? 0))%bool then (38, 38) else (precision, scale) in
  if negb (scale <=? precision) then Throw ParserException "Decimal scale is greater than precision."
  else if negb (precision <=? 38) then Throw ParserException "Decimal precision is greater than 38."
  else Ret (DecimalInfo precision scale).

Definition lift {A} (o : outcome A) : Reader A := fun l =>
  match o with Ret a => Ret (a, l) | Throw e s => Throw e s | UB s => UB s end.

(** [DataType::ReadAdv]; the dimension is read as [int32_t] and stored as
    [size_t]. *)
Definition DataType_ReadAdv (maxbytes : Z) : Reader DataType :=
  start ← left;
  type ← read_enum SizeofLogicalType LogicalType.all;
  type_info ←
    match type with
    | LogicalType.kArray => throw ParserException "Array isn't implemented here."
    | LogicalType.kDecimal =>
        precision ← read_s 8;
        scale ← read_s 8;
        info ← lift (DecimalInfo_Make precision scale);
        mret (Some info)
    | LogicalType.kEmbedding =>
        embedding_type ← read_enum SizeofEmbeddingDataType EmbeddingDataType.all;
        dimension ← read_s 4;
        mret (Some (EmbeddingInfo embedding_type (to_u64 dimension)))
    | _ => mret None
    end;
  now ← left;
  if negb (maxbytes - (start - now) >=? 0) then throw ParserException "ptr goes out of range when reading DataType"
  else mret (mkDataType type type_info).

(** ** [TableDef] ([storage/definition/table_def.cpp]) *)

(** The loop body of [TableDef::GetSizeInBytes] *)
Definition ColumnDef_GetSizeInBytes (cd : ColumnDef) : outcome Z :=
  type_size ← DataType_GetSizeInBytes (column_type_ cd);
  Ret (8 + type_size + (4 + str_len (name_ cd)) + 4 + Z.of_nat (length (constraints_ cd)) * 1).

Fixpoint sum_sizes {A} (size : A -> outcome Z) (l : list A) : outcome Z :=
  match l with
  | [] => Ret 0
  | x :: rest => n ← size x; m ← sum_sizes size rest; Ret (n + m)
  end.

(** [TableDef::GetSizeInBytes] *)
Definition TableDef_GetSizeInBytes (td : TableDef) : outcome Z :=
  columns_size ← sum_sizes ColumnDef_GetSizeInBytes (columns_ td);
  Ret ((4 + str_len (schema_name_ td)) + (4 + str_len (table_name_ td)) + 4 + columns_size).

(** The loop body of [TableDef::WriteAdv] *)
Definition ColumnDef_WriteAdv (cd : ColumnDef) : outcome (list Z) :=
  type_bytes ← DataType_WriteAdv (column_type_ cd);
  Ret (le_bytes 8 (id_ cd) ++ type_bytes ++ write_string (name_ cd) ++
       le_bytes 4 (to_i32 (Z.of_nat (length (constraints_ cd)))) ++
       concat (write_enum SizeofConstraintType ConstraintType.all <$> constraints_ cd)).

Fixpoint write_all {A} (w : A -> outcome (list Z)) (l : list A) : outcome (list Z) :=
  match l with
  | [] => Ret []
  | x :: rest => bs ← w x; bs' ← write_all w rest; Ret (bs ++ bs')
  end.

(** [TableDef::WriteAdv] *)
Definition TableDef_WriteAdv (td : TableDef) : outcome (list Z) :=
  columns ← write_all ColumnDef_WriteAdv (columns_ td);
  Ret (write_string (schema_name_ td) ++ write_string (table_name_ td) ++
       le_bytes 4 (to_i32 (Z.of_nat (length (columns_ td)))) ++ columns).

(** [constraints.insert(ct)] on the set read so far, newest last. *)
Definition constraints_insert (s : list ConstraintType.t) (ct : ConstraintType.t) : list ConstraintType.t :=
  if decide (ct ∈ s) then s else s ++ [ct].

(** The loop body of [TableDef::ReadAdv]; [ptr_end] is given as the number of
    bytes left when [ptr] reaches it. *)
Definition ColumnDef_ReadAdv (ptr_end : Z) : Reader ColumnDef :=
  id ← read_s 8;
  now ← left;
  if now - ptr_end <=? 0 then throw StorageException "ptr goes out of range when reading TableDef"
  else
    column_type ← DataType_ReadAdv (now - ptr_end);
    column_name ← read_string;
    constraints_size ← read_s 4;
    cts ← read_n (Z.to_nat constraints_size) (read_enum SizeofConstraintType ConstraintType.all);
    mret (mkColumnDef id column_type column_name (foldl constraints_insert [] cts)).

(** [TableDef::ReadAdv] *)
Definition TableDef_ReadAdv (maxbytes : Z) : Reader TableDef :=
  if maxbytes <=? 0 then throw StorageException "ptr goes out of range when reading TableDef"
  else
    start ← left;
    schema_name ← read_string;
    table_name ← read_string;
    columns_size ← read_s 4;
    columns ← read_n (Z.to_nat columns_size) (ColumnDef_ReadAdv (start - maxbytes));
    now ← left;
    if maxbytes - (start - now) <? 0 then throw StorageException "ptr goes out of range when reading TableDef"
    else mret (mkTableDef schema_name table_name columns).

(** ** [IndexBase] and [IndexDef] ([storage/definition/index_*.cpp]) *)

(** The enumerators of [IndexType]; the constructor of [IndexParam] fixes it. *)
Definition index_type_value (p : IndexParam) : Z :=
  match p with IndexIVFFlat _ _ => 0 | IndexHnsw _ _ _ _ _ => 1 | IndexFullText _ => 2 end.

(** [IndexBase::GetSizeInBytes] and its overrides *)
Definition IndexBase_GetSizeInBytes (ib : IndexBase) : Z :=
  let size := 4 + 4 + str_len (file_name_ ib) + 4 +
              foldr (fun column_name n => 4 + str_len column_name + n) 0 (column_names_ ib) in
  match index_param_ ib with
  | IndexIVFFlat _ _ => size + 8 + 4
  | IndexHnsw _ _ _ _ _ => size + 4 + 4 + 8 + 8 + 8
  | IndexFullText analyzer => size + (4 + str_len analyzer)
  end.

(** [IndexBase::WriteAdv] and its overrides *)
Definition IndexBase_WriteAdv (ib : IndexBase) : list Z :=
  le_bytes SizeofIndexType (index_type_value (index_param_ ib)) ++ write_string (file_name_ ib) ++
  le_bytes 4 (to_i32 (Z.of_nat (length (column_names_ ib)))) ++ concat (write_string <$> column_names_ ib) ++
  match index_param_ ib with
  | IndexIVFFlat centroids_count metric_type =>
      le_bytes 8 centroids_count ++ write_enum SizeofMetricType MetricType.all metric_type
  | IndexHnsw metric_type encode_type M ef_construction ef =>
      write_enum SizeofMetricType MetricType.all metric_type ++
      write_enum SizeofHnswEncodeType HnswEncodeType.all encode_type ++
      le_bytes 8 M ++ le_bytes 8 ef_construction ++ le_bytes 8 ef
  | IndexFullText analyzer => write_string analyzer
  end.

(** [IndexBase::ReadAdv] *)
Definition IndexBase_ReadAdv (maxbytes : Z) : Reader IndexBase :=
  if maxbytes <=? 0 then throw StorageException "ptr goes out of range when reading IndexBase"
  else
    index_type ← read_s SizeofIndexType;
    file_name ← read_string;
    column_names_size ← read_s 4;
    column_names ← read_n (Z.to_nat column_names_size) read_string;
    match index_type with
    | 0 =>
        centroids_count ← read_u 8;
        metric_type ← read_enum SizeofMetricType MetricType.all;
        mret (mkIndexBase file_name column_names (IndexIVFFlat centroids_count metric_type))
    | 1 =>
        metric_type ← read_enum SizeofMetricType MetricType.all;
        encode_type ← read_enum SizeofHnswEncodeType HnswEncodeType.all;
        M ← read_u 8;
        ef_construction ← read_u 8;
        ef ← read_u 8;
        mret (mkIndexBase file_name column_names (IndexHnsw metric_type encode_type M ef_construction ef))
    | 2 =>
        analyzer ← read_string;
        mret (mkIndexBase file_name column_names (IndexFullText analyzer))
    | 3 => throw StorageException "Error index method while reading"
    | _ => throw StorageException "Not implemented"
    end.

(** [IndexDef::GetSizeInBytes] *)
Definition IndexDef_GetSizeInBytes (d : IndexDef) : Z :=
  4 + str_len (index_name_ d) + 4 + foldr (fun ib n => 4 + IndexBase_GetSizeInBytes ib + n) 0 (index_array_ d).

(** [IndexDef::WriteAdv] *)
Definition IndexDef_WriteAdv (d : IndexDef) : list Z :=
  write_string (index_name_ d) ++ le_bytes 4 (to_i32 (Z.of_nat (length (index_array_ d)))) ++
  concat ((fun ib => le_bytes 4 (IndexBase_GetSizeInBytes ib) ++ IndexBase_WriteAdv ib) <$> index_array_ d).

(** [IndexDef::ReadAdv] *)
Definition IndexDef_ReadAdv (maxbytes : Z) : Reader IndexDef :=
  if maxbytes <=? 0 then throw StorageException "maxbytes < 0"
  else
    index_name ← read_string;
    index_array_count ← read_s 4;
    if index_array_count <? 0 then throw StdException "vector::reserve"
    else
      index_array ← read_n (Z.to_nat index_array_count) (index_size ← read_s 4; IndexBase_ReadAdv index_size);
      mret (mkIndexDef index_name index_array).

(** ** Round trips *)

(** [r] reads [x] from its encoding [w], whatever follows. *)
Definition reads_back {A} (r : Reader A) (w : list Z) (x : A) : Prop :=
  forall rest, r (w ++ rest) = Ret (x, rest).

Definition valid_string (s : string) : Prop := str_len s < 2 ^ 31.

Definition is_byte (b : Z) : Prop := 0 <= b < 256.

Lemma le_bytes_length n z : length (le_bytes n z) = n.
Proof. revert z. induction n as [|n IH]; intros z; simpl; [done|]. by rewrite IH. Qed.

Lemma le_bytes_are_bytes n z : Forall is_byte (le_bytes n z).
Proof.
  revert z. induction n as [|n IH]; intros z; simpl; constructor; [|done].
  apply Z.mod_pos_bound. lia.
Qed.

Lemma le_value_bytes n z : le_value (le_bytes n z) = u_wrap (8 * Z.of_nat n) z.
Proof.
  unfold u_wrap. revert z. induction n as [|n IH]; intros z; cbn [le_bytes le_value].
  - by rewrite Z.mod_1_r.
  - rewrite IH. replace (8 * Z.of_nat (S n)) with (8 + 8 * Z.of_nat n) by lia.
    rewrite Z.pow_add_r by lia. change (2 ^ 8) with 256.
    rewrite Z.rem_mul_r by lia. lia.
Qed.

Lemma le_value_range l : Forall is_byte l -> u_range (8 * Z.of_nat (length l)) (le_value l).
Proof.
  unfold u_range, is_byte. induction 1 as [|b l Hb _ IH]; [simpl; lia|]. cbn [length le_value].
  replace (8 * Z.of_nat (S (length l))) with (8 + 8 * Z.of_nat (length l)) by lia.
  rewrite Z.pow_add_r by lia. lia.
Qed.

Lemma le_value_inj l l' :
  length l = length l' -> Forall is_byte l -> Forall is_byte l' -> le_value l = le_value l' -> l = l'.
Proof.
  unfold is_byte. intros Hlen Hl. revert l' Hlen.
  induction Hl as [|b l Hb _ IH]; intros [|b' l'] Hlen Hl' E; try done.
  apply Forall_cons in Hl' as [Hb' Hl']. cbn [le_value] in E. simpl in Hlen.
  assert (b = b' /\ le_value l = le_value l') as [-> E'] by lia.
  f_equal. apply IH; [lia|done|done].
Qed.

Lemma s_wrap_u_wrap w z : 1 <= w -> s_wrap w (u_wrap w z) = s_wrap w z.
Proof.
  intros Hw. unfold s_wrap, u_wrap. by rewrite Zplus_mod_idemp_l.
Qed.

Lemma bind_ret {A B} (m : Reader A) (f : A -> Reader B) l a l' :
  m l = Ret (a, l') -> (m ≫= f) l = f a l'.
Proof. unfold mbind, reader_bind. by intros ->. Qed.

Lemma reads_back_bind {A B} (m : Reader A) (f : A -> Reader B) w1 w2 a b :
  reads_back m w1 a -> reads_back (f a) w2 b -> reads_back (m ≫= f) (w1 ++ w2) b.
Proof. intros Hm Hf rest. rewrite <- app_assoc. erewrite bind_ret; [apply Hf|apply Hm]. Qed.

Lemma reads_back_ret {A} (x : A) : reads_back (mret x) [] x.
Proof. by intros rest. Qed.

(** The last read of a function. *)
Lemma reads_back_bind_ret {A B} (m : Reader A) (f : A -> B) w a :
  reads_back m w a -> reads_back (m ≫= (fun x => mret (f x))) w (f a).
Proof. intros Hm. rewrite <- (app_nil_r w). eapply reads_back_bind; [done|apply reads_back_ret]. Qed.

Lemma read_bytes_app n bs : length bs = n -> reads_back (read_bytes n) bs bs.
Proof.
  intros <- rest. unfold read_bytes. rewrite length_app.
  assert ((length bs <=? length bs + length rest)%nat = true) as -> by (apply Nat.leb_le; lia).
  by rewrite take_app_length, drop_app_length.
Qed.

Lemma read_u_back n z : u_range (8 * Z.of_nat n) z -> reads_back (read_u n) (le_bytes n z) z.
Proof.
  intros Hz. unfold read_u. replace z with (le_value (le_bytes n z)) at 2.
  - apply reads_back_bind_ret, read_bytes_app, le_bytes_length.
  - by rewrite le_value_bytes, u_wrap_id.
Qed.

Lemma read_s_back n z : (0 < n)%nat -> s_range (8 * Z.of_nat n) z -> reads_back (read_s n) (le_bytes n z) z.
Proof.
  intros Hn Hz. unfold read_s.
  replace z with (s_wrap (8 * Z.of_nat n) (le_value (le_bytes n z))) at 2.
  - apply (reads_back_bind_ret (read_bytes n) (fun bs => s_wrap (8 * Z.of_nat n) (le_value bs))).
    apply read_bytes_app, le_bytes_length.
  - rewrite le_value_bytes, s_wrap_u_wrap by lia. apply s_wrap_id; [lia|done].
Qed.

Lemma bytes_of_string_length s : Z.of_nat (length (bytes_of_string s)) = str_len s.
Proof. unfold bytes_of_string, str_len. rewrite length_fmap. induction s as [|a s IH]; simpl; lia. Qed.

Lemma bytes_of_string_bytes s : Forall is_byte (bytes_of_string s).
Proof.
  unfold bytes_of_string. apply Forall_fmap. apply Forall_forall. intros a _. simpl. unfold is_byte.
  pose proof (Ascii.nat_ascii_bounded a). lia.
Qed.

Lemma string_of_bytes_of_string s : string_of_bytes (bytes_of_string s) = s.
Proof.
  unfold string_of_bytes, bytes_of_string. rewrite <- list_fmap_compose.
  rewrite (list_fmap_ext _ id), list_fmap_id; [apply String.string_of_list_ascii_of_string|].
  intros i a _. simpl. by rewrite Nat2Z.id, Ascii.ascii_nat_embedding.
Qed.

Lemma to_i32_id z : 0 <= z < 2 ^ 31 -> to_i32 z = z.
Proof. intros. apply s_wrap_id; [lia|]. unfold s_range. lia. Qed.

Lemma str_len_nonneg s : 0 <= str_len s.
Proof. unfold str_len. lia. Qed.

Lemma read_string_back s : valid_string s -> reads_back read_string (write_string s) s.
Proof.
  intros Hs. pose proof (str_len_nonneg s). unfold write_string. rewrite to_i32_id by (unfold valid_string in Hs; lia).
  unfold read_string. eapply reads_back_bind.
  { apply read_s_back; [lia|]. unfold s_range, valid_string in *. simpl. lia. }
  assert ((str_len s <? 0) = false) as -> by (apply Z.ltb_ge; lia).
  rewrite <- (string_of_bytes_of_string s) at 3.
  apply reads_back_bind_ret, read_bytes_app. rewrite <- bytes_of_string_length. lia.
Qed.

Lemma write_string_length s : Z.of_nat (length (write_string s)) = 4 + str_len s.
Proof. unfold write_string. rewrite length_app, le_bytes_length, <- bytes_of_string_length. lia. Qed.

Lemma write_string_bytes s : Forall is_byte (write_string s).
Proof. apply Forall_app. split; [apply le_bytes_are_bytes|apply bytes_of_string_bytes]. Qed.

Lemma read_n_back {A} (r : Reader A) (w : A -> list Z) xs :
  Forall (fun x => reads_back r (w x) x) xs ->
  reads_back (read_n (length xs) r) (concat (w <$> xs)) xs.
Proof.
  induction 1 as [|x xs Hx _ IH]; simpl; [apply reads_back_ret|].
  eapply reads_back_bind; [done|]. by apply reads_back_bind_ret.
Qed.

Lemma enum_index_lookup {A} `{EqDecision A} (l : list A) x :
  x ∈ l -> 0 <= enum_index x l < Z.of_nat (length l) /\ l !! Z.to_nat (enum_index x l) = Some x.
Proof.
  induction l as [|y l IH]; [set_solver|]. intros Hin. simpl. case_decide as E; subst; [split; [lia|done]|].
  apply elem_of_cons in Hin as [|Hin]; [done|]. destruct (IH Hin) as [Hr Hl]. split; [lia|].
  rewrite Z2Nat.inj_add by lia. simpl. done.
Qed.

Lemma read_enum_back {A} `{EqDecision A} (n : nat) (l : list A) x :
  (0 < n)%nat -> Z.of_nat (length l) <= 128 -> x ∈ l ->
  reads_back (read_enum n l) (write_enum n l x) x.
Proof.
  intros Hn Hl Hin. destruct (enum_index_lookup l x Hin) as [Hr Hk]. unfold read_enum, write_enum.
  rewrite <- (app_nil_r (le_bytes _ _)). eapply reads_back_bind.
  { apply read_s_back; [done|]. unfold s_range.
    assert (2 ^ 7 <= 2 ^ (8 * Z.of_nat n - 1)) by (apply Z.pow_le_mono_r; lia). lia. }
  unfold enum_value. assert ((0 <=? enum_index x l) = true) as -> by (apply Z.leb_le; lia).
  rewrite Hk. apply reads_back_ret.
Qed.

Lemma write_enum_length {A} `{EqDecision A} n (l : list A) x : length (write_enum n l x) = n.
Proof. apply le_bytes_length. Qed.

Lemma write_enum_bytes {A} `{EqDecision A} n (l : list A) x : Forall is_byte (write_enum n l x).
Proof. apply le_bytes_are_bytes. Qed.

Lemma concat_bytes {A} (w : A -> list Z) xs :
  (forall x, Forall is_byte (w x)) -> Forall is_byte (concat (w <$> xs)).
Proof. intros Hw. induction xs as [|x xs IH]; [constructor|]. rewrite fmap_cons. by apply Forall_app. Qed.

Create HintDb wire.
#[export] Hint Resolve Forall_app_2 le_bytes_are_bytes write_string_bytes write_enum_bytes concat_bytes : wire.

(** Writing a list of values that can be written. *)
Lemma write_all_ok {A} (w : A -> outcome (list Z)) xs :
  Forall (fun x => exists bs, w x = Ret bs /\ Forall is_byte bs) xs ->
  exists bs, write_all w xs = Ret bs /\ Forall is_byte bs.
Proof.
  induction 1 as [|x xs (b1 & E1 & H1) _ (b2 & E2 & H2)]; simpl; [by exists []|].
  rewrite E1. simpl. rewrite E2. simpl. eexists. split; [done|]. by apply Forall_app.
Qed.

#[local] Opaque le_bytes write_enum write_string.

(** *** Schema objects *)

(** A type as the system builds it: its [type_info_] is the one of its
    [type_]. *)
Definition valid_type (dt : DataType) : Prop :=
  match type_ dt, type_info_ dt with
  | LogicalType.kArray, _ => False
  | LogicalType.kDecimal, Some (DecimalInfo p s) => ~ (p = 0 /\ s = 0) /\ - 2 ^ 63 <= s <= p /\ p <= 38
  | LogicalType.kDecimal, _ => False
  | LogicalType.kEmbedding, Some (EmbeddingInfo _ d) => 0 <= d < 2 ^ 31
  | LogicalType.kEmbedding, _ => False
  | _, None => True
  | _, Some _ => False
  end.

Definition valid_column (cd : ColumnDef) : Prop :=
  s_range 64 (id_ cd) /\ valid_type (column_type_ cd) /\ valid_string (name_ cd) /\
  NoDup (constraints_ cd) /\ Z.of_nat (length (constraints_ cd)) < 2 ^ 31.

Definition valid_table (td : TableDef) : Prop :=
  valid_string (schema_name_ td) /\ valid_string (table_name_ td) /\
  Forall valid_column (columns_ td) /\ Z.of_nat (length (columns_ td)) < 2 ^ 31.

Definition valid_index (ib : IndexBase) : Prop :=
  valid_string (file_name_ ib) /\ Forall valid_string (column_names_ ib) /\
  Z.of_nat (length (column_names_ ib)) < 2 ^ 31 /\ IndexBase_GetSizeInBytes ib < 2 ^ 31 /\
  match index_param_ ib with
  | IndexIVFFlat c _ => u_range 64 c
  | IndexHnsw _ _ M ec ef => u_range 64 M /\ u_range 64 ec /\ u_range 64 ef
  | IndexFullText analyzer => valid_string analyzer
  end.

Definition valid_index_def (d : IndexDef) : Prop :=
  valid_string (index_name_ d) /\ Forall valid_index (index_array_ d) /\
  Z.of_nat (length (index_array_ d)) < 2 ^ 31.

(** One step of a reader: the first read is described by [lem]. *)
Ltac read_step lem := erewrite bind_ret; [|rewrite <- ?app_assoc; apply lem].

Lemma left_eq l : left l = Ret (Z.of_nat (length l), l).
Proof. done. Qed.

Lemma read_logical_type_back t : reads_back (read_enum SizeofLogicalType LogicalType.all)
  (write_enum SizeofLogicalType LogicalType.all t) t.
Proof. apply read_enum_back; [unfold SizeofLogicalType; lia|done|]. destruct t; unfold LogicalType.all; set_solver. Qed.

Lemma read_embedding_type_back t : reads_back (read_enum SizeofEmbeddingDataType EmbeddingDataType.all)
  (write_enum SizeofEmbeddingDataType EmbeddingDataType.all t) t.
Proof.
  apply read_enum_back; [unfold SizeofEmbeddingDataType; lia|done|].
  destruct t; unfold EmbeddingDataType.all; set_solver.
Qed.

Lemma read_constraint_back t : reads_back (read_enum SizeofConstraintType ConstraintType.all)
  (write_enum SizeofConstraintType ConstraintType.all t) t.
Proof.
  apply read_enum_back; [unfold SizeofConstraintType; lia|done|].
  destruct t; unfold ConstraintType.all; set_solver.
Qed.

Lemma read_metric_back t : reads_back (read_enum SizeofMetricType MetricType.all)
  (write_enum SizeofMetricType MetricType.all t) t.
Proof.
  apply read_enum_back; [unfold SizeofMetricType; lia|done|].
  destruct t; unfold MetricType.all; set_solver.
Qed.

Lemma read_encode_back t : reads_back (read_enum SizeofHnswEncodeType HnswEncodeType.all)
  (write_enum SizeofHnswEncodeType HnswEncodeType.all t) t.
Proof.
  apply read_enum_back; [unfold SizeofHnswEncodeType; lia|done|].
  destruct t; unfold HnswEncodeType.all; set_solver.
Qed.

(** The read of the type info alone. *)
Definition DataType_info_reader (type : LogicalType.t) : Reader (option TypeInfo) :=
  match type with
  | LogicalType.kArray => throw ParserException "Array isn't implemented here."
  | LogicalType.kDecimal =>
      precision ← read_s 8; scale ← read_s 8; info ← lift (DecimalInfo_Make precision scale); mret (Some info)
  | LogicalType.kEmbedding =>
      embedding_type ← read_enum SizeofEmbeddingDataType EmbeddingDataType.all;
      dimension ← read_s 4; mret (Some (EmbeddingInfo embedding_type (to_u64 dimension)))
  | _ => mret None
  end.

Lemma DataType_info_back dt w :
  valid_type dt -> DataType_WriteAdv dt = Ret w ->
  exists w', w = write_enum SizeofLogicalType LogicalType.all (type_ dt) ++ w' /\
    reads_back (DataType_info_reader (type_ dt)) w' (type_info_ dt) /\
    DataType_GetSizeInBytes dt = Ret (Z.of_nat (length w)).
Proof.
  destruct dt as [t i]. unfold valid_type, DataType_WriteAdv, DataType_GetSizeInBytes. simpl.
  intros Hv Hw.
  destruct t; try done; destruct i as [[p s|e d]|]; try done; simpl in Hw; simplify_eq/=;
    try (exists []; split; [done|]; split; [apply reads_back_ret|done]); eexists; (split; [reflexivity|]).
  - destruct Hv as (Hne & Hs & Hp). split; [|by rewrite !length_app, !le_bytes_length].
    eapply reads_back_bind; [apply read_s_back; [lia|unfold s_range; simpl; lia]|].
    rewrite <- (app_nil_r (le_bytes 8 s)).
    eapply reads_back_bind; [apply read_s_back; [lia|unfold s_range; simpl; lia]|].
    intros rest. unfold DecimalInfo_Make.
    assert (((p =? 0) && (s =? 0))%bool = false) as ->.
    { apply andb_false_iff. destruct (decide (p = 0)); [right|left]; apply Z.eqb_neq; lia. }
    assert ((s <=? p) = true) as -> by (apply Z.leb_le; lia).
    by assert ((p <=? 38) = true) as -> by (apply Z.leb_le; lia).
  - split; [|by rewrite !length_app, !le_bytes_length].
    eapply reads_back_bind; [apply read_embedding_type_back|]. rewrite to_i32_id by lia.
    assert (to_u64 d = d) as Hd by (apply u_wrap_id; unfold u_range; lia).
    rewrite <- Hd at 2. apply (reads_back_bind_ret (read_s 4) (fun x => Some (EmbeddingInfo e (to_u64 x)))).
    apply read_s_back; [lia|unfold s_range; simpl; lia].
Qed.

Lemma DataType_ReadAdv_back dt w maxbytes rest :
  valid_type dt -> DataType_WriteAdv dt = Ret w -> Z.of_nat (length w) <= maxbytes ->
  DataType_ReadAdv maxbytes (w ++ rest) = Ret (dt, rest).
Proof.
  intros Hv Hw Hm. destruct (DataType_info_back dt w Hv Hw) as (w' & -> & Hi & _).
  unfold DataType_ReadAdv. fold DataType_info_reader. read_step left_eq.
  read_step read_logical_type_back. fold (DataType_info_reader (type_ dt)).
  read_step Hi. read_step left_eq. rewrite !length_app in *.
  match goal with |- context [negb ?b] => assert (b = true) as -> by (rewrite Z.geb_leb; apply Z.leb_le; lia) end.
  simpl. by destruct dt.
Qed.

Lemma concat_enum_length {A} `{EqDecision A} n (l : list A) xs :
  length (concat (write_enum n l <$> xs)) = (length xs * n)%nat.
Proof.
  induction xs as [|x xs IH]; [done|]. rewrite fmap_cons. cbn [concat].
  rewrite length_app, write_enum_length, IH. simpl. lia.
Qed.

Lemma constraints_insert_nodup cts acc :
  NoDup (acc ++ cts) -> foldl constraints_insert acc cts = acc ++ cts.
Proof.
  revert acc. induction cts as [|ct cts IH]; intros acc Hn; simpl; [by rewrite app_nil_r|].
  unfold constraints_insert at 2. rewrite decide_False.
  - rewrite IH; rewrite <- app_assoc; done.
  - apply NoDup_app in Hn as (_ & Hn & _). intros Hin. apply (Hn ct Hin). by left.
Qed.

Lemma ColumnDef_size cd w :
  valid_column cd -> ColumnDef_WriteAdv cd = Ret w ->
  ColumnDef_GetSizeInBytes cd = Ret (Z.of_nat (length w)).
Proof.
  intros (_ & Hv & _). unfold ColumnDef_WriteAdv, ColumnDef_GetSizeInBytes.
  destruct (DataType_WriteAdv (column_type_ cd)) as [tb| |] eqn:Et; simpl; [|done..]. intros [= <-].
  destruct (DataType_info_back _ _ Hv Et) as (_ & _ & _ & ->). simpl. f_equal.
  rewrite !length_app, !le_bytes_length, concat_enum_length, !Nat2Z.inj_add, write_string_length.
  unfold SizeofConstraintType. lia.
Qed.

Lemma ColumnDef_ReadAdv_back cd w ptr_end rest :
  valid_column cd -> ColumnDef_WriteAdv cd = Ret w -> ptr_end <= Z.of_nat (length rest) ->
  ColumnDef_ReadAdv ptr_end (w ++ rest) = Ret (cd, rest).
Proof.
  intros (Hid & Hty & Hn & Hc & Hlen) Hw Hend. unfold ColumnDef_WriteAdv in Hw.
  destruct (DataType_WriteAdv (column_type_ cd)) as [tb| |] eqn:Et; simpl in Hw; [|done..]. simplify_eq.
  unfold ColumnDef_ReadAdv. read_step (read_s_back 8); [|lia|done]. read_step left_eq.
  match goal with |- context [?x <=? 0] => assert ((x <=? 0) = false) as ->
    by (apply Z.leb_gt; destruct (DataType_info_back _ _ Hty Et) as (w' & -> & _);
        rewrite !length_app, write_enum_length; unfold SizeofLogicalType; lia) end.
  read_step (DataType_ReadAdv_back (column_type_ cd)); [|done|done|rewrite !length_app; lia].
  read_step read_string_back; [|done]. rewrite to_i32_id by lia.
  read_step (read_s_back 4); [|lia|unfold s_range; simpl; lia].
  rewrite Nat2Z.id. read_step (read_n_back (read_enum SizeofConstraintType ConstraintType.all)).
  - rewrite constraints_insert_nodup by done. by destruct cd.
  - apply Forall_forall. intros. apply read_constraint_back.
Qed.

Lemma columns_back cds w ptr_end rest :
  Forall valid_column cds -> write_all ColumnDef_WriteAdv cds = Ret w -> ptr_end <= Z.of_nat (length rest) ->
  read_n (length cds) (ColumnDef_ReadAdv ptr_end) (w ++ rest) = Ret (cds, rest) /\
  sum_sizes ColumnDef_GetSizeInBytes cds = Ret (Z.of_nat (length w)).
Proof.
  intros Hv. revert w. induction Hv as [|cd cds Hcd _ IH]; intros w Hw Hend; simpl in Hw; [by simplify_eq|].
  destruct (ColumnDef_WriteAdv cd) as [b1| |] eqn:E1; simpl in Hw; [|done..].
  destruct (write_all ColumnDef_WriteAdv cds) as [b2| |] eqn:E2; simpl in Hw; [|done..]. simplify_eq.
  destruct (IH b2 eq_refl Hend) as [IH1 IH2]. cbn [length read_n sum_sizes].
  rewrite (ColumnDef_size cd b1 Hcd E1), IH2, <- app_assoc, length_app. split; [|simpl; f_equal; lia].
  erewrite bind_ret; [|apply ColumnDef_ReadAdv_back; [done|done|rewrite length_app; lia]].
  erewrite bind_ret; [|apply IH1]. done.
Qed.

Lemma TableDef_size td w :
  valid_table td -> TableDef_WriteAdv td = Ret w -> TableDef_GetSizeInBytes td = Ret (Z.of_nat (length w)).
Proof.
  intros (_ & _ & Hc & _). unfold TableDef_WriteAdv, TableDef_GetSizeInBytes.
  destruct (write_all _ _) as [cb| |] eqn:Ec; simpl; [|done..]. intros [= <-].
  destruct (columns_back (columns_ td) cb 0 [] Hc Ec ltac:(simpl; lia)) as [_ ->]. simpl. f_equal.
  rewrite !length_app, le_bytes_length, !Nat2Z.inj_add, !write_string_length. lia.
Qed.

Lemma TableDef_ReadAdv_back td w maxbytes rest :
  valid_table td -> TableDef_WriteAdv td = Ret w -> Z.of_nat (length w) <= maxbytes ->
  TableDef_ReadAdv maxbytes (w ++ rest) = Ret (td, rest).
Proof.
  intros (Hs & Ht & Hc & Hlen) Hw Hm. unfold TableDef_WriteAdv in Hw.
  destruct (write_all _ _) as [cb| |] eqn:Ec; simpl in Hw; [|done..]. simplify_eq.
  pose proof (str_len_nonneg (schema_name_ td)). pose proof (str_len_nonneg (table_name_ td)).
  rewrite !length_app, le_bytes_length, !Nat2Z.inj_add, !write_string_length in Hm.
  unfold TableDef_ReadAdv. assert ((maxbytes <=? 0) = false) as -> by (apply Z.leb_gt; lia).
  read_step left_eq. read_step read_string_back; [|done]. read_step read_string_back; [|done].
  rewrite to_i32_id by lia. read_step (read_s_back 4); [|lia|unfold s_range; simpl; lia].
  rewrite Nat2Z.id. erewrite bind_ret.
  2: { apply columns_back; [done|done|]. rewrite !length_app, le_bytes_length, !Nat2Z.inj_add, !write_string_length. lia. }
  read_step left_eq. rewrite !length_app, le_bytes_length, !Nat2Z.inj_add, !write_string_length.
  match goal with |- context [?x <? 0] => assert ((x <? 0) = false) as -> by (apply Z.ltb_ge; lia) end.
  by destruct td.
Qed.

Lemma strings_length ss :
  Z.of_nat (length (concat (write_string <$> ss))) = foldr (fun s n => 4 + str_len s + n) 0 ss.
Proof.
  induction ss as [|s ss IH]; [done|]. rewrite fmap_cons. cbn [concat foldr].
  rewrite length_app, Nat2Z.inj_add, write_string_length, IH. lia.
Qed.

Lemma IndexBase_size ib : Z.of_nat (length (IndexBase_WriteAdv ib)) = IndexBase_GetSizeInBytes ib.
Proof.
  unfold IndexBase_WriteAdv, IndexBase_GetSizeInBytes.
  destruct (index_param_ ib);
    rewrite !length_app, !le_bytes_length, ?write_enum_length, !Nat2Z.inj_add, ?write_string_length, strings_length;
    unfold SizeofIndexType, SizeofMetricType, SizeofHnswEncodeType; lia.
Qed.

Lemma IndexBase_ReadAdv_back ib maxbytes :
  valid_index ib -> 0 < maxbytes -> reads_back (IndexBase_ReadAdv maxbytes) (IndexBase_WriteAdv ib) ib.
Proof.
  intros (Hf & Hc & Hlen & _ & Hp) Hm rest. unfold IndexBase_ReadAdv, IndexBase_WriteAdv.
  assert ((maxbytes <=? 0) = false) as -> by (apply Z.leb_gt; lia).
  read_step (read_s_back SizeofIndexType);
    [|unfold SizeofIndexType; lia|unfold s_range, SizeofIndexType; by destruct (index_param_ ib)].
  read_step read_string_back; [|done]. rewrite to_i32_id by lia.
  read_step (read_s_back 4); [|lia|unfold s_range; simpl; lia].
  rewrite Nat2Z.id. read_step (read_n_back read_string).
  2: { eapply Forall_impl; [exact Hc|]. intros. by apply read_string_back. }
  destruct ib as [fn cn [c m|m e M ec ef|an]]; simpl in *.
  - read_step (read_u_back 8); [|done]. read_step read_metric_back. done.
  - destruct Hp as (? & ? & ?). read_step read_metric_back. read_step read_encode_back.
    read_step (read_u_back 8); [|done]. read_step (read_u_back 8); [|done]. by read_step (read_u_back 8).
  - by read_step read_string_back.
Qed.

Lemma IndexDef_size d : Z.of_nat (length (IndexDef_WriteAdv d)) = IndexDef_GetSizeInBytes d.
Proof.
  unfold IndexDef_WriteAdv, IndexDef_GetSizeInBytes.
  rewrite !length_app, le_bytes_length, !Nat2Z.inj_add, write_string_length.
  induction (index_array_ d) as [|ib l IH]; [simpl; lia|]. rewrite fmap_cons. cbn [concat foldr].
  rewrite !length_app, le_bytes_length, !Nat2Z.inj_add, IndexBase_size. lia.
Qed.

Lemma IndexDef_ReadAdv_back d maxbytes :
  valid_index_def d -> 0 < maxbytes -> reads_back (IndexDef_ReadAdv maxbytes) (IndexDef_WriteAdv d) d.
Proof.
  intros (Hn & Hi & Hlen) Hm rest. unfold IndexDef_ReadAdv, IndexDef_WriteAdv.
  assert ((maxbytes <=? 0) = false) as -> by (apply Z.leb_gt; lia).
  read_step read_string_back; [|done]. rewrite to_i32_id by lia.
  read_step (read_s_back 4); [|lia|unfold s_range; simpl; lia].
  assert ((Z.of_nat (length (index_array_ d)) <? 0) = false) as -> by (apply Z.ltb_ge; lia).
  rewrite Nat2Z.id. read_step (read_n_back (index_size ← read_s 4; IndexBase_ReadAdv index_size)).
  - by destruct d.
  - eapply Forall_impl; [exact Hi|]. intros ib Hib. pose proof Hib as (? & ? & ? & Hsz & _).
    pose proof (IndexBase_size ib) as Hs.
    assert (0 < IndexBase_GetSizeInBytes ib).
    { rewrite <- Hs. unfold IndexBase_WriteAdv. rewrite length_app, le_bytes_length. unfold SizeofIndexType. lia. }
    eapply reads_back_bind; [apply read_s_back; [lia|unfold s_range; simpl; lia]|].
    by apply IndexBase_ReadAdv_back.
Qed.

(** *** Writing succeeds on valid objects *)

Lemma DataType_write_ok dt : valid_type dt -> exists w, DataType_WriteAdv dt = Ret w /\ Forall is_byte w.
Proof.
  destruct dt as [t i]. unfold valid_type, DataType_WriteAdv. simpl.
  destruct t; intros Hv; try done; destruct i as [[p s|e d]|]; try done; eexists; (split; [done|]); auto with wire.
Qed.

Lemma ColumnDef_write_ok cd : valid_column cd -> exists w, ColumnDef_WriteAdv cd = Ret w /\ Forall is_byte w.
Proof.
  intros (_ & Hv & _). unfold ColumnDef_WriteAdv. destruct (DataType_write_ok _ Hv) as (w & -> & Hw). simpl.
  eexists. split; [done|]. auto 10 with wire.
Qed.

Lemma TableDef_write_ok td : valid_table td -> exists w, TableDef_WriteAdv td = Ret w /\ Forall is_byte w.
Proof.
  intros (_ & _ & Hc & _). unfold TableDef_WriteAdv.
  destruct (write_all_ok ColumnDef_WriteAdv (columns_ td)) as (w & -> & Hw).
  { eapply Forall_impl; [done|]. apply ColumnDef_write_ok. }
  simpl. eexists. split; [done|]. auto 10 with wire.
Qed.

Lemma IndexBase_bytes ib : Forall is_byte (IndexBase_WriteAdv ib).
Proof. unfold IndexBase_WriteAdv. destruct (index_param_ ib); auto 12 with wire. Qed.

Lemma IndexDef_bytes d : Forall is_byte (IndexDef_WriteAdv d).
Proof.
  unfold IndexDef_WriteAdv. apply Forall_app_2; [auto with wire|]. apply Forall_app_2; [auto with wire|].
  apply concat_bytes. intros ib. apply Forall_app_2; [auto with wire|apply IndexBase_bytes].
Qed.

(** ** Properties *)

(** A table definition with valid columns can be written; the size computed
    for it is the number of bytes written, and reading the bytes gives the same
    definition back and stops at the first byte behind it. *)
Theorem table_def_roundtrip td :
  valid_table td ->
  exists w, TableDef_WriteAdv td = Ret w /\ TableDef_GetSizeInBytes td = Ret (Z.of_nat (length w)) /\
    forall maxbytes rest, Z.of_nat (length w) <= maxbytes ->
      TableDef_ReadAdv maxbytes (w ++ rest) = Ret (td, rest).
Proof.
  intros Hv. destruct (TableDef_write_ok td Hv) as (w & Hw & _). exists w.
  split_and!; [done|by apply TableDef_size|]. intros. by apply TableDef_ReadAdv_back.
Qed.

(** The same for index definitions with IVFFlat, HNSW and full text
    indexes. *)
Theorem index_def_roundtrip d :
  valid_index_def d ->
  Z.of_nat (length (IndexDef_WriteAdv d)) = IndexDef_GetSizeInBytes d /\
  forall maxbytes rest, 0 < maxbytes ->
    IndexDef_ReadAdv maxbytes (IndexDef_WriteAdv d ++ rest) = Ret (d, rest).
Proof. intros Hv. split; [apply IndexDef_size|]. intros m rest Hm. by apply IndexDef_ReadAdv_back. Qed.

(** For a decimal type without a [DecimalInfo], the announced size is 1 but
    17 bytes are written, and what is read back is the decimal type of precision
    and scale 38. *)
Theorem decimal_without_info_undersized :
  exists w, DataType_WriteAdv (mkDataType LogicalType.kDecimal None) = Ret w /\
    DataType_GetSizeInBytes (mkDataType LogicalType.kDecimal None) = Ret 1 /\ length w = 17%nat /\
    DataType_ReadAdv 17 w = Ret (mkDataType LogicalType.kDecimal (Some (DecimalInfo 38 38)), []).
Proof. eexists. split; [vm_compute; reflexivity|]. by vm_compute. Qed.

Definition sample_td : TableDef :=
  mkTableDef "default" "t1" [mkColumnDef 0 (mkDataType LogicalType.kDecimal (Some (DecimalInfo 10 2))) "price" [ConstraintType.kNotNull]].

Lemma table_def_roundtrip_witness :
  exists w, TableDef_WriteAdv sample_td = Ret w /\ TableDef_ReadAdv 64 (w ++ [7]) = Ret (sample_td, [7]).
Proof.
  destruct (table_def_roundtrip sample_td) as (w & Hw & Hs & H).
  - unfold valid_table, valid_column, valid_type, valid_string, s_range.
    repeat constructor; try (vm_compute; congruence); set_solver.
  - exists w. split; [done|]. apply H. apply (f_equal (fun o => match o with Ret n => n | _ => 0 end)) in Hs.
    rewrite <- Hs. vm_compute. congruence.
Defined.

Definition sample_index_def : IndexDef :=
  mkIndexDef "idx1" [mkIndexBase "idx1_c2_hnsw" ["c2"] (IndexHnsw MetricType.kMerticL2 HnswEncodeType.kPlain 16 50 50)].

Lemma index_def_roundtrip_witness :
  IndexDef_ReadAdv 100 (IndexDef_WriteAdv sample_index_def ++ [9]) = Ret (sample_index_def, [9]).
Proof.
  destruct (index_def_roundtrip sample_index_def) as [_ H].
  - unfold valid_index_def, valid_index, valid_string, u_range.
    repeat constructor; vm_compute; congruence.
  - by apply H.
Defined.
