(* ===== verification/WalEntry.v ===== *)
(** [storage/wal/wal_entry.cpp]: WAL commands and entries, their encoding, and
    the iterators that read log files backwards.

    [B] is the type of data blocks; [BlockCodec] is what [WalCmdAppend] uses of
    [DataBlock].  [DataBlockCodec] implements it with the binary form of column
    vectors. *)
From S2P Require Import Prelude Common Defs Crc Wire.

Local Open Scope Z_scope.

(** [DataBlock::GetSizeInBytes], [WriteAdv] and [ReadAdv]. *)
Class BlockCodec (B : Type) := {
  block_size : B -> outcome Z;
  block_write : B -> outcome (list Z);
  block_read : Z -> Reader B;
  block_valid : B -> Prop;
}.

Class BlockCodecLaws (B : Type) `{BlockCodec B} := {
  block_write_total b : block_valid b -> exists w, block_write b = Ret w /\ Forall is_byte w;
  block_size_law b w : block_valid b -> block_write b = Ret w -> block_size b = Ret (Z.of_nat (length w));
  block_read_law b w maxbytes rest :
    block_valid b -> block_write b = Ret w -> Z.of_nat (length w) <= maxbytes ->
    block_read maxbytes (w ++ rest) = Ret (b, rest);
}.

Inductive WalCmd (B : Type) :=
  | WalCmdCreateDatabase (db_name : string)
  | WalCmdDropDatabase (db_name : string)
  | WalCmdCreateTable (db_name : string) (table_def : TableDef)
  | WalCmdDropTable (db_name table_name : string)
  | WalCmdCreateIndex (db_name table_name : string) (index_def : IndexDef)
  | WalCmdDropIndex (db_name table_name index_name : string)
  | WalCmdImport (db_name table_name segment_dir : string) (segment_id block_entries_size : Z) (row_counts : list Z)
  | WalCmdAppend (db_name table_name : string) (block : B)
  | WalCmdDelete (db_name table_name : string) (row_ids : list RowID)
  | WalCmdCheckpoint (max_commit_ts : Z) (is_full_checkpoint : bool) (catalog_path : string).

Arguments WalCmdCreateDatabase {B} _.
Arguments WalCmdDropDatabase {B} _.
Arguments WalCmdCreateTable {B} _ _.
Arguments WalCmdDropTable {B} _ _.
Arguments WalCmdCreateIndex {B} _ _ _.
Arguments WalCmdDropIndex {B} _ _ _.
Arguments WalCmdImport {B} _ _ _ _ _ _.
Arguments WalCmdAppend {B} _ _ _.
Arguments WalCmdDelete {B} _ _ _.
Arguments WalCmdCheckpoint {B} _ _ _.

(** [WalEntryHeader] and [WalEntry] *)
Record WalEntry (B : Type) := mkWalEntry {
  size : Z;
  checksum : Z;
  txn_id : Z;
  commit_ts : Z;
  cmds : list (WalCmd B);
}.

Arguments mkWalEntry {B} _ _ _ _ _.
Arguments size {B} _.
Arguments checksum {B} _.
Arguments txn_id {B} _.
Arguments commit_ts {B} _.
Arguments cmds {B} _.

Definition SizeofWalEntryHeader : Z := 24.

(** The enumerators of [WalCommandType]. *)
Definition CREATE_DATABASE : Z := 1.
Definition DROP_DATABASE : Z := 2.
Definition CREATE_TABLE : Z := 3.
Definition DROP_TABLE : Z := 4.
Definition CREATE_INDEX : Z := 6.
Definition DROP_INDEX : Z := 7.
Definition IMPORT : Z := 20.
Definition APPEND : Z := 21.
Definition DELETE : Z := 22.
Definition CHECKPOINT : Z := 99.

Section WalEntry.
Context {B : Type} `{BlockCodec B}.
Implicit Types (cmd : WalCmd B) (e : WalEntry B).

(** [GetType] *)
Definition GetType cmd : Z :=
  match cmd with
  | WalCmdCreateDatabase _ => CREATE_DATABASE
  | WalCmdDropDatabase _ => DROP_DATABASE
  | WalCmdCreateTable _ _ => CREATE_TABLE
  | WalCmdDropTable _ _ => DROP_TABLE
  | WalCmdCreateIndex _ _ _ => CREATE_INDEX
  | WalCmdDropIndex _ _ _ => DROP_INDEX
  | WalCmdImport _ _ _ _ _ _ => IMPORT
  | WalCmdAppend _ _ _ => APPEND
  | WalCmdDelete _ _ _ => DELETE
  | WalCmdCheckpoint _ _ _ => CHECKPOINT
  end.

(** The [GetSizeInBytes] members *)
Definition WalCmd_GetSizeInBytes cmd : outcome Z :=
  match cmd with
  | WalCmdCreateDatabase db_name => Ret (1 + 4 + str_len db_name)
  | WalCmdDropDatabase db_name => Ret (1 + 4 + str_len db_name)
  | WalCmdCreateTable db_name table_def =>
      n ← TableDef_GetSizeInBytes table_def; Ret (1 + 4 + str_len db_name + n)
  | WalCmdCreateIndex db_name table_name index_def =>
      Ret (1 + 4 + str_len db_name + 4 + str_len table_name + IndexDef_GetSizeInBytes index_def)
  | WalCmdDropTable db_name table_name => Ret (1 + 4 + str_len db_name + 4 + str_len table_name)
  | WalCmdDropIndex db_name table_name index_name =>
      Ret (1 + 4 + str_len db_name + 4 + str_len table_name + 4 + str_len index_name)
  | WalCmdImport db_name table_name segment_dir _ _ row_counts =>
      Ret (1 + 4 + str_len db_name + 4 + str_len table_name + 4 + str_len segment_dir + 4 + 2 +
           Z.of_nat (length row_counts) * 2)
  | WalCmdAppend db_name table_name block =>
      n ← block_size block; Ret (1 + 4 + str_len db_name + 4 + str_len table_name + n)
  | WalCmdDelete db_name table_name row_ids =>
      Ret (1 + 4 + str_len db_name + 4 + str_len table_name + 4 + Z.of_nat (length row_ids) * 8)
  | WalCmdCheckpoint _ _ catalog_path => Ret (1 + 8 + 1 + 4 + str_len catalog_path)
  end.

(** [WriteBufAdv<RowID>] and [ReadBufAdv<RowID>] *)
Definition write_RowID (r : RowID) : list Z := le_bytes 4 (segment_id_ r) ++ le_bytes 4 (segment_offset_ r).
Definition read_RowID : Reader RowID :=
  segment_id ← read_u 4; segment_offset ← read_u 4; mret (mkRowID segment_id segment_offset).

(** The [WriteAdv] members *)
Definition WalCmd_WriteAdv cmd : outcome (list Z) :=
  let head := le_bytes 1 (GetType cmd) in
  match cmd with
  | WalCmdCreateDatabase db_name => Ret (head ++ write_string db_name)
  | WalCmdDropDatabase db_name => Ret (head ++ write_string db_name)
  | WalCmdCreateTable db_name table_def =>
      w ← TableDef_WriteAdv table_def; Ret (head ++ write_string db_name ++ w)
  | WalCmdCreateIndex db_name table_name index_def =>
      Ret (head ++ write_string db_name ++ write_string table_name ++ IndexDef_WriteAdv index_def)
  | WalCmdDropTable db_name table_name => Ret (head ++ write_string db_name ++ write_string table_name)
  | WalCmdDropIndex db_name table_name index_name =>
      Ret (head ++ write_string db_name ++ write_string table_name ++ write_string index_name)
  | WalCmdImport db_name table_name segment_dir segment_id block_entries_size row_counts =>
      Ret (head ++ write_string db_name ++ write_string table_name ++ write_string segment_dir ++
           le_bytes 4 segment_id ++ le_bytes 2 block_entries_size ++ concat (le_bytes 2 <$> row_counts))
  | WalCmdAppend db_name table_name block =>
      w ← block_write block; Ret (head ++ write_string db_name ++ write_string table_name ++ w)
  | WalCmdDelete db_name table_name row_ids =>
      Ret (head ++ write_string db_name ++ write_string table_name ++
           le_bytes 4 (to_i32 (Z.of_nat (length row_ids))) ++ concat (write_RowID <$> row_ids))
  | WalCmdCheckpoint max_commit_ts is_full_checkpoint catalog_path =>
      Ret (head ++ le_bytes 8 max_commit_ts ++ le_bytes 1 (if is_full_checkpoint then 1 else 0) ++
           write_string catalog_path)
  end.

(** The [switch] of [WalCmd::ReadAdv]; [ptr_end] is given as the number of bytes
    left when [ptr] reaches it. *)
Definition WalCmd_ReadBody (ptr_end cmd_type : Z) : Reader (WalCmd B) :=
  if cmd_type =? CREATE_DATABASE then
    db_name ← read_string; mret (WalCmdCreateDatabase db_name)
  else if cmd_type =? DROP_DATABASE then
    db_name ← read_string; mret (WalCmdDropDatabase db_name)
  else if cmd_type =? CREATE_TABLE then
    db_name ← read_string;
    now ← left;
    table_def ← TableDef_ReadAdv (now - ptr_end);
    mret (WalCmdCreateTable db_name table_def)
  else if cmd_type =? DROP_TABLE then
    db_name ← read_string; table_name ← read_string; mret (WalCmdDropTable db_name table_name)
  else if cmd_type =? IMPORT then
    db_name ← read_string;
    table_name ← read_string;
    segment_dir ← read_string;
    segment_id ← read_u 4;
    block_entries_size ← read_u 2;
    row_counts ← read_n (Z.to_nat block_entries_size) (read_u 2);
    mret (WalCmdImport db_name table_name segment_dir segment_id block_entries_size row_counts)
  else if cmd_type =? APPEND then
    db_name ← read_string;
    table_name ← read_string;
    now ← left;
    block ← block_read (now - ptr_end);
    mret (WalCmdAppend db_name table_name block)
  else if cmd_type =? DELETE then
    db_name ← read_string;
    table_name ← read_string;
    cnt ← read_s 4;
    row_ids ← read_n (Z.to_nat cnt) read_RowID;
    mret (WalCmdDelete db_name table_name row_ids)
  else if cmd_type =? CHECKPOINT then
    max_commit_ts ← read_s 8;
    is_full_checkpoint ← read_s 1;
    catalog_path ← read_string;
    mret (WalCmdCheckpoint max_commit_ts (negb (is_full_checkpoint =? 0)) catalog_path)
  else if cmd_type =? CREATE_INDEX then
    db_name ← read_string;
    table_name ← read_string;
    now ← left;
    index_def ← IndexDef_ReadAdv (now - ptr_end);
    mret (WalCmdCreateIndex db_name table_name index_def)
  else if cmd_type =? DROP_INDEX then
    db_name ← read_string;
    table_name ← read_string;
    index_name ← read_string;
    mret (WalCmdDropIndex db_name table_name index_name)
  else throw StorageException "UNIMPLEMENTED ReadAdv for WalCmd command".

(** [WalCmd::ReadAdv] *)
Definition WalCmd_ReadAdv (max_bytes : Z) : Reader (WalCmd B) :=
  start ← left;
  cmd_type ← read_s 1;
  cmd ← WalCmd_ReadBody (start - max_bytes) cmd_type;
  now ← left;
  if max_bytes - (start - now) <? 0 then throw StorageException "ptr goes out of range when reading WalCmd"
  else mret cmd.

(** [WalEntry::GetSizeInBytes] *)
Definition WalEntry_GetSizeInBytes e : outcome Z :=
  n ← sum_sizes WalCmd_GetSizeInBytes (cmds e);
  Ret (SizeofWalEntryHeader + 4 + n + 4).

(** The bytes of an entry with a given value in the checksum field. *)
Definition entry_image (sz sum txn ts : Z) (body : list Z) : list Z :=
  le_bytes 4 sz ++ le_bytes 4 sum ++ le_bytes 8 txn ++ le_bytes 8 ts ++ body ++ le_bytes 4 sz.

(** [WalEntry::WriteAdv] *)
Definition WalEntry_WriteAdv e : outcome (list Z) :=
  cmd_bytes ← write_all WalCmd_WriteAdv (cmds e);
  let body := le_bytes 4 (to_i32 (Z.of_nat (length (cmds e)))) ++ cmd_bytes in
  let sz := to_i32 (SizeofWalEntryHeader + Z.of_nat (length body) + 4) in
  let image sum := entry_image sz sum (txn_id e) (commit_ts e) body in
  Ret (image (makeCRC (take (Z.to_nat sz) (image 0)))).

(** A read at [ptr + off] that does not advance [ptr]. *)
Definition peek {A} (off : Z) (r : Reader A) : Reader A := fun l =>
  if off <? 0 then UB "read before the buffer"
  else match r (drop (Z.to_nat off) l) with
       | Ret (a, _) => Ret (a, l)
       | Throw ex s => Throw ex s
       | UB s => UB s
       end.

(** The buffer after [header->checksum = 0] *)
Definition zero_checksum (l : list Z) : list Z := take 4 l ++ [0; 0; 0; 0] ++ drop 8 l.

(** The loop of [WalEntry::ReadAdv] *)
Fixpoint ReadCmds (ptr_end : Z) (cnt : nat) : Reader (list (WalCmd B)) :=
  match cnt with
  | O => mret []
  | S cnt' =>
      now ← left;
      if now - ptr_end <=? 0 then throw StorageException "ptr goes out of range when reading WalEntry"
      else cmd ← WalCmd_ReadAdv (now - ptr_end); cs ← ReadCmds ptr_end cnt'; mret (cmd :: cs)
  end.

(** [CRC32IEEE::makeCRC(ptr, entry->size)] on the buffer with a zeroed checksum *)
Definition read_crc (sz : Z) : Reader Z := fun l =>
  if ((sz <? 0) || (Z.of_nat (length l) <? sz))%bool then UB "read past the end of the buffer"
  else Ret (makeCRC (take (Z.to_nat sz) (zero_checksum l)), l).

(** [WalEntry::ReadAdv]; [None] is the null pointer it returns for a damaged
    entry, with [ptr] where it was. *)
Definition WalEntry_ReadAdv (max_bytes : Z) : Reader (option (WalEntry B)) :=
  if max_bytes <=? 0 then throw StorageException "ptr goes out of range when reading WalEntry"
  else
    start ← left;
    sz ← peek 0 (read_s 4);
    sum ← peek 4 (read_u 4);
    txn ← peek 8 (read_s 8);
    ts ← peek 16 (read_s 8);
    size2 ← peek (sz - 4) (read_s 4);
    if negb (sz =? size2) then mret None
    else
      checksum2 ← read_crc sz;
      if negb (sum =? checksum2) then mret None
      else
        _ ← read_bytes (Z.to_nat SizeofWalEntryHeader);
        cnt ← read_s 4;
        cs ← ReadCmds (start - max_bytes) (Z.to_nat cnt);
        _ ← read_bytes 4;
        now ← left;
        if max_bytes - (start - now) <? 0 then throw StorageException "ptr goes out of range when reading WalEntry"
        else mret (Some (mkWalEntry sz sum txn ts cs)).

(** [WalEntry::GetCheckpointInfo] *)
Fixpoint GetCheckpointInfo (cs : list (WalCmd B)) : Z * string :=
  match cs with
  | [] => (-1, "")
  | WalCmdCheckpoint max_commit_ts _ catalog_path :: _ => (max_commit_ts, catalog_path)
  | _ :: rest => GetCheckpointInfo rest
  end.

(** [WalEntry::IsCheckPoint] *)
Definition IsCheckPoint e : bool := existsb (fun cmd => GetType cmd =? CHECKPOINT) (cmds e).

(** [WalEntry::IsFullCheckPoint] *)
Definition IsFullCheckPoint e : bool :=
  existsb (fun cmd => match cmd with WalCmdCheckpoint _ is_full _ => is_full | _ => false end) (cmds e).

(** ** The iterators *)

(** [WalEntryIterator]: the file's contents and the offset of [end_]. *)
Record WalEntryIterator := mkWalEntryIterator {
  buf_ : list Z;
  end_ : Z;
}.

(** [WalEntryIterator::Make] on the contents of a file *)
Definition WalEntryIterator_Make (contents : list Z) : WalEntryIterator :=
  mkWalEntryIterator contents (Z.of_nat (length contents)).

(** [WalEntryIterator::Next]: [ReadAdv] advances [end_] over a good entry and
    leaves it at the start of a damaged one; both are then moved back.  The
    zeroing of the checksum field happens in [buf_], at an offset the iterator
    has passed; the field is not read again. *)
Definition WalEntryIterator_Next (it : WalEntryIterator) : outcome (option (WalEntry B) * WalEntryIterator) :=
  if end_ it >? 0 then
    '(entry_size, _) ← peek (end_ it - 4) (read_s 4) (buf_ it);
    let start := end_ it - entry_size in
    if ((start <? 0) || (Z.of_nat (length (buf_ it)) <? start))%bool then UB "end_ outside the buffer"
    else
      '(entry, rest) ← WalEntry_ReadAdv entry_size (drop (Z.to_nat start) (buf_ it));
      let ptr := Z.of_nat (length (buf_ it)) - Z.of_nat (length rest) in
      Ret (entry, mkWalEntryIterator (buf_ it) (ptr - entry_size))
  else Ret (None, it).

(** [WalListIterator]: the open iterator and the contents of the files that
    follow. *)
Record WalListIterator := mkWalListIterator {
  iter_ : option WalEntryIterator;
  wal_deque_ : list (list Z);
}.

(** [WalListIterator::Next] *)
Fixpoint WalListIterator_Next (iter : option WalEntryIterator) (deque : list (list Z))
    : outcome (option (WalEntry B) * WalListIterator) :=
  r ← match iter with
      | Some it => WalEntryIterator_Next it
      | None => Ret (None, WalEntryIterator_Make [])
      end;
  let '(entry, it') := r in
  match entry with
  | Some _ => Ret (entry, mkWalListIterator (Some it') deque)
  | None =>
      match deque with
      | contents :: rest => WalListIterator_Next (Some (WalEntryIterator_Make contents)) rest
      | [] => Ret (None, mkWalListIterator (match iter with Some _ => Some it' | None => None end) [])
      end
  end.

(** ** Round trips *)

Definition valid_RowID (r : RowID) : Prop := u_range 32 (segment_id_ r) /\ u_range 32 (segment_offset_ r).

Definition valid_cmd cmd : Prop :=
  match cmd with
  | WalCmdCreateDatabase db_name | WalCmdDropDatabase db_name => valid_string db_name
  | WalCmdCreateTable db_name table_def => valid_string db_name /\ valid_table table_def
  | WalCmdDropTable db_name table_name => valid_string db_name /\ valid_string table_name
  | WalCmdCreateIndex db_name table_name index_def =>
      valid_string db_name /\ valid_string table_name /\ valid_index_def index_def
  | WalCmdDropIndex db_name table_name index_name =>
      valid_string db_name /\ valid_string table_name /\ valid_string index_name
  | WalCmdImport db_name table_name segment_dir segment_id block_entries_size row_counts =>
      valid_string db_name /\ valid_string table_name /\ valid_string segment_dir /\ u_range 32 segment_id /\
      u_range 16 block_entries_size /\ block_entries_size = Z.of_nat (length row_counts) /\
      Forall (u_range 16) row_counts
  | WalCmdAppend db_name table_name block => valid_string db_name /\ valid_string table_name /\ block_valid block
  | WalCmdDelete db_name table_name row_ids =>
      valid_string db_name /\ valid_string table_name /\ Forall valid_RowID row_ids /\
      Z.of_nat (length row_ids) < 2 ^ 31
  | WalCmdCheckpoint max_commit_ts _ catalog_path => s_range 64 max_commit_ts /\ valid_string catalog_path
  end.

Definition valid_entry e : Prop :=
  s_range 64 (txn_id e) /\ s_range 64 (commit_ts e) /\ Forall valid_cmd (cmds e) /\
  Z.of_nat (length (cmds e)) < 2 ^ 31.

#[local] Opaque le_bytes write_enum write_string.

Context `{!BlockCodecLaws B}.

Lemma read_RowID_back r : valid_RowID r -> reads_back read_RowID (write_RowID r) r.
Proof.
  intros [Hs Ho]. unfold read_RowID, write_RowID.
  eapply reads_back_bind; [by apply read_u_back|]. destruct r as [s o].
  by apply (reads_back_bind_ret (read_u 4) (fun x => mkRowID s x)), read_u_back.
Qed.

Lemma concat_fixed_length {A} (w : A -> list Z) n xs :
  (forall x, length (w x) = n) -> length (concat (w <$> xs)) = (length xs * n)%nat.
Proof.
  intros Hw. induction xs as [|x xs IH]; [done|]. rewrite fmap_cons. cbn [concat].
  rewrite length_app, Hw, IH. simpl. lia.
Qed.

(** Lengths of the pieces an encoding is made of. *)
Ltac wire_len :=
  rewrite ?length_app, ?le_bytes_length, ?Nat2Z.inj_add, ?write_string_length, ?IndexDef_size in *.

Lemma WalCmd_size cmd w :
  valid_cmd cmd -> WalCmd_WriteAdv cmd = Ret w -> WalCmd_GetSizeInBytes cmd = Ret (Z.of_nat (length w)).
Proof.
  destruct cmd; simpl; intros Hv Hw; simplify_eq; try (f_equal; wire_len; lia).
  - destruct (TableDef_WriteAdv table_def) as [tw| |] eqn:E; simpl in Hw; [|done..]. simplify_eq.
    rewrite (TableDef_size _ _ (proj2 Hv) E). simpl. f_equal. wire_len. lia.
  - f_equal. wire_len. rewrite (concat_fixed_length _ 2) by apply le_bytes_length. lia.
  - destruct (block_write block) as [bw| |] eqn:E; simpl in Hw; [|done..]. simplify_eq.
    rewrite (block_size_law _ _ (proj2 (proj2 Hv)) E). simpl. f_equal. wire_len. lia.
  - f_equal. wire_len. rewrite (concat_fixed_length _ 8); [lia|].
    intros r. unfold write_RowID. by rewrite length_app, !le_bytes_length.
Qed.

(** The body of a command, after its type. *)
Lemma WalCmd_body_back cmd w ptr_end rest :
  valid_cmd cmd -> WalCmd_WriteAdv cmd = Ret w -> ptr_end <= Z.of_nat (length rest) ->
  exists w', w = le_bytes 1 (GetType cmd) ++ w' /\ WalCmd_ReadBody ptr_end (GetType cmd) (w' ++ rest) = Ret (cmd, rest).
Proof.
  intros Hv Hw Hend. destruct cmd; simpl in Hv, Hw.
  - simplify_eq. eexists. split; [done|]. unfold WalCmd_ReadBody. simpl.
    by read_step read_string_back.
  - simplify_eq. eexists. split; [done|]. unfold WalCmd_ReadBody. simpl.
    by read_step read_string_back.
  - destruct (TableDef_WriteAdv table_def) as [tw| |] eqn:E; simpl in Hw; [|done..]. simplify_eq.
    destruct Hv as [Hd Ht]. eexists. split; [done|]. unfold WalCmd_ReadBody. simpl.
    read_step read_string_back; [|done]. read_step left_eq.
    by erewrite bind_ret; [|apply TableDef_ReadAdv_back; [done|done|rewrite length_app; lia]].
  - destruct Hv as [Hd Ht]. simplify_eq. eexists. split; [done|]. unfold WalCmd_ReadBody. simpl.
    read_step read_string_back; [|done]. by read_step read_string_back.
  - destruct Hv as (Hd & Ht & Hi). simplify_eq. eexists. split; [done|]. unfold WalCmd_ReadBody. simpl.
    read_step read_string_back; [|done]. read_step read_string_back; [|done]. read_step left_eq.
    erewrite bind_ret; [done|]. apply IndexDef_ReadAdv_back; [done|].
    unfold IndexDef_WriteAdv. rewrite !length_app, le_bytes_length. lia.
  - destruct Hv as (Hd & Ht & Hi). simplify_eq. eexists. split; [done|]. unfold WalCmd_ReadBody. simpl.
    read_step read_string_back; [|done]. read_step read_string_back; [|done]. by read_step read_string_back.
  - destruct Hv as (Hd & Ht & Hsd & Hsi & Hbe & Hlen & Hrc). simplify_eq. eexists. split; [done|].
    unfold WalCmd_ReadBody. simpl.
    read_step read_string_back; [|done]. read_step read_string_back; [|done]. read_step read_string_back; [|done].
    read_step (read_u_back 4); [|done]. read_step (read_u_back 2); [|done]. rewrite Nat2Z.id.
    read_step (read_n_back (read_u 2)); [done|]. eapply Forall_impl; [done|]. intros. by apply (read_u_back 2).
  - destruct (block_write block) as [bw| |] eqn:E; simpl in Hw; [|done..]. simplify_eq.
    destruct Hv as (Hd & Ht & Hb). eexists. split; [done|]. unfold WalCmd_ReadBody. simpl.
    read_step read_string_back; [|done]. read_step read_string_back; [|done]. read_step left_eq.
    by erewrite bind_ret; [|apply block_read_law; [done|done|rewrite length_app; lia]].
  - destruct Hv as (Hd & Ht & Hr & Hlen). simplify_eq. eexists. split; [done|]. unfold WalCmd_ReadBody. simpl.
    read_step read_string_back; [|done]. read_step read_string_back; [|done].
    rewrite to_i32_id by lia. read_step (read_s_back 4); [|lia|unfold s_range; simpl; lia]. rewrite Nat2Z.id.
    read_step (read_n_back read_RowID); [done|]. eapply Forall_impl; [done|]. intros. by apply read_RowID_back.
  - destruct Hv as (Hm & Hc). simplify_eq. eexists. split; [done|]. unfold WalCmd_ReadBody. simpl.
    read_step (read_s_back 8); [|lia|done].
    read_step (read_s_back 1); [|lia|unfold s_range; destruct is_full_checkpoint; simpl; lia].
    read_step read_string_back; [|done]. by destruct is_full_checkpoint.
Qed.

Lemma WalCmd_ReadAdv_back cmd w max_bytes rest :
  valid_cmd cmd -> WalCmd_WriteAdv cmd = Ret w -> Z.of_nat (length w) <= max_bytes ->
  WalCmd_ReadAdv max_bytes (w ++ rest) = Ret (cmd, rest).
Proof.
  intros Hv Hw Hm.
  destruct (WalCmd_body_back cmd w (Z.of_nat (length (w ++ rest)) - max_bytes) rest Hv Hw) as (w' & Ew & Hb).
  { rewrite length_app. lia. }
  unfold WalCmd_ReadAdv. read_step left_eq.
  erewrite bind_ret; [|rewrite Ew, <- app_assoc; apply (read_s_back 1); [lia|by destruct cmd]].
  erewrite bind_ret; [|apply Hb]. read_step left_eq. rewrite length_app.
  match goal with |- context [?x <? 0] => assert ((x <? 0) = false) as -> by (apply Z.ltb_ge; lia) end. done.
Qed.

Lemma WalCmd_write_ok cmd : valid_cmd cmd -> exists w, WalCmd_WriteAdv cmd = Ret w /\ Forall is_byte w.
Proof.
  destruct cmd; simpl; intros Hv;
    try (eexists; split; [done|]; auto 20 using IndexDef_bytes with wire; fail).
  - destruct (TableDef_write_ok _ (proj2 Hv)) as (w & -> & Hw). simpl. eexists. split; [done|]. auto 10 with wire.
  - destruct (block_write_total _ (proj2 (proj2 Hv))) as (w & -> & Hw). simpl.
    eexists. split; [done|]. auto 10 with wire.
  - eexists. split; [done|]. do 4 (apply Forall_app_2; [auto with wire|]). apply concat_bytes.
    intros r. unfold write_RowID. auto with wire.
Qed.

Lemma cmds_size cs w :
  Forall valid_cmd cs -> write_all WalCmd_WriteAdv cs = Ret w ->
  sum_sizes WalCmd_GetSizeInBytes cs = Ret (Z.of_nat (length w)).
Proof.
  intros Hv. revert w. induction Hv as [|c cs Hc _ IH]; intros w; simpl; [by intros [= <-]|].
  destruct (WalCmd_WriteAdv c) as [b1| |] eqn:E1; simpl; [|done..].
  destruct (write_all WalCmd_WriteAdv cs) as [b2| |] eqn:E2; simpl; [|done..]. intros [= <-].
  rewrite (WalCmd_size _ _ Hc E1), (IH _ eq_refl). simpl. f_equal. rewrite length_app. lia.
Qed.

Lemma cmd_nonempty cmd w : WalCmd_WriteAdv cmd = Ret w -> (0 < length w)%nat.
Proof.
  destruct cmd; simpl; try (intros [= <-]; rewrite length_app, le_bytes_length; lia).
  - destruct (TableDef_WriteAdv _); simpl; [|done..]. intros [= <-]. rewrite length_app, le_bytes_length. lia.
  - destruct (block_write _); simpl; [|done..]. intros [= <-]. rewrite length_app, le_bytes_length. lia.
Qed.

Lemma ReadCmds_back cs w ptr_end rest :
  Forall valid_cmd cs -> write_all WalCmd_WriteAdv cs = Ret w -> ptr_end <= Z.of_nat (length rest) ->
  ReadCmds ptr_end (length cs) (w ++ rest) = Ret (cs, rest).
Proof.
  intros Hv. revert w. induction Hv as [|c cs Hc _ IH]; intros w Hw Hend; simpl in *; [by simplify_eq|].
  destruct (WalCmd_WriteAdv c) as [b1| |] eqn:E1; simpl in Hw; [|done..].
  destruct (write_all WalCmd_WriteAdv cs) as [b2| |] eqn:E2; simpl in Hw; [|done..]. simplify_eq.
  pose proof (cmd_nonempty _ _ E1). read_step left_eq.
  match goal with |- context [?x <=? 0] =>
    assert ((x <=? 0) = false) as -> by (apply Z.leb_gt; rewrite !length_app; lia) end.
  erewrite bind_ret; [|apply WalCmd_ReadAdv_back; [done|done|rewrite !length_app; lia]].
  by erewrite bind_ret; [|apply IH].
Qed.

(** *** Entries *)

Lemma peek_back {A} (r : Reader A) off pre w x rest :
  off = Z.of_nat (length pre) -> reads_back r w x ->
  peek off r (pre ++ w ++ rest) = Ret (x, pre ++ w ++ rest).
Proof.
  intros -> Hr. unfold peek. assert ((Z.of_nat (length pre) <? 0) = false) as -> by (apply Z.ltb_ge; lia).
  by rewrite Nat2Z.id, drop_app_length, Hr.
Qed.

Definition entry_header (sz sum txn ts : Z) : list Z := le_bytes 4 sz ++ le_bytes 4 sum ++ le_bytes 8 txn ++ le_bytes 8 ts.

Lemma entry_header_length sz sum txn ts : length (entry_header sz sum txn ts) = 24%nat.
Proof. unfold entry_header. by rewrite !length_app, !le_bytes_length. Qed.

Lemma entry_image_split sz sum txn ts body :
  entry_image sz sum txn ts body = entry_header sz sum txn ts ++ body ++ le_bytes 4 sz.
Proof. unfold entry_image, entry_header. by rewrite <- !app_assoc. Qed.

Lemma entry_image_length sz sum txn ts body :
  Z.of_nat (length (entry_image sz sum txn ts body)) = 28 + Z.of_nat (length body).
Proof. rewrite entry_image_split, !length_app, entry_header_length, le_bytes_length. lia. Qed.

Lemma zero_checksum_image sz sum txn ts body rest :
  zero_checksum (entry_image sz sum txn ts body ++ rest) = entry_image sz 0 txn ts body ++ rest.
Proof.
  unfold zero_checksum, entry_image. rewrite <- !app_assoc.
  rewrite take_app_length' by (by rewrite le_bytes_length).
  rewrite (app_assoc (le_bytes 4 sz) (le_bytes 4 sum)), drop_app_length' by (by rewrite length_app, !le_bytes_length).
  done.
Qed.

Lemma entry_image_bytes sz sum txn ts body : Forall is_byte body -> Forall is_byte (entry_image sz sum txn ts body).
Proof. intros. unfold entry_image. auto 10 with wire. Qed.

(** What [WalEntry::WriteAdv] produces, and when. *)
Lemma WalEntry_write e :
  valid_entry e ->
  exists cb, write_all WalCmd_WriteAdv (cmds e) = Ret cb /\
    let body := le_bytes 4 (Z.of_nat (length (cmds e))) ++ cb in
    let n := 28 + Z.of_nat (length body) in
    Forall is_byte body /\
    (n < 2 ^ 31 ->
     WalEntry_WriteAdv e = Ret (entry_image n (makeCRC (entry_image n 0 (txn_id e) (commit_ts e) body))
                                  (txn_id e) (commit_ts e) body) /\
     WalEntry_GetSizeInBytes e = Ret n).
Proof.
  intros (_ & _ & Hc & Hlen).
  destruct (write_all_ok WalCmd_WriteAdv (cmds e)) as (cb & Ew & Hb).
  { eapply Forall_impl; [done|]. apply WalCmd_write_ok. }
  exists cb. split; [done|]. intros body n.
  assert (Forall is_byte body) as Hbody by (apply Forall_app_2; auto with wire).
  split; [done|]. intros Hn. split.
  - unfold WalEntry_WriteAdv. rewrite Ew. cbn [mbind outcome_bind]. rewrite (to_i32_id (Z.of_nat _)) by lia.
    fold body. replace (SizeofWalEntryHeader + Z.of_nat (length body) + 4) with n
      by (unfold SizeofWalEntryHeader; lia).
    rewrite (to_i32_id n) by lia. do 3 f_equal. apply take_ge.
    pose proof (entry_image_length n 0 (txn_id e) (commit_ts e) body). lia.
  - unfold WalEntry_GetSizeInBytes. rewrite (cmds_size _ _ Hc Ew). simpl. f_equal.
    unfold n, body, SizeofWalEntryHeader. rewrite length_app, le_bytes_length. lia.
Qed.

Lemma read_crc_image sz sum txn ts body rest :
  sz = 28 + Z.of_nat (length body) ->
  read_crc sz (entry_image sz sum txn ts body ++ rest) =
    Ret (makeCRC (entry_image sz 0 txn ts body), entry_image sz sum txn ts body ++ rest).
Proof.
  intros Hsz. unfold read_crc. rewrite zero_checksum_image, length_app.
  pose proof (entry_image_length sz sum txn ts body). pose proof (entry_image_length sz 0 txn ts body).
  assert (((sz <? 0) || (Z.of_nat (length (entry_image sz sum txn ts body) + length rest) <? sz))%bool = false) as ->.
  { apply orb_false_iff. split; apply Z.ltb_ge; lia. }
  rewrite take_app_length' by lia. done.
Qed.

Lemma entry_fields sz sum txn ts body rest :
  sz = 28 + Z.of_nat (length body) -> sz < 2 ^ 31 -> u_range 32 sum -> s_range 64 txn -> s_range 64 ts ->
  let l := entry_image sz sum txn ts body ++ rest in
  peek 0 (read_s 4) l = Ret (sz, l) /\ peek 4 (read_u 4) l = Ret (sum, l) /\
  peek 8 (read_s 8) l = Ret (txn, l) /\ peek 16 (read_s 8) l = Ret (ts, l) /\
  peek (sz - 4) (read_s 4) l = Ret (sz, l).
Proof.
  intros Hsz Hlt Hsum Htxn Hts l.
  assert (reads_back (read_s 4) (le_bytes 4 sz) sz) as Hrs by (apply read_s_back; [lia|unfold s_range; simpl; lia]).
  unfold l, entry_image. rewrite <- !app_assoc. split_and!.
  - by apply (peek_back _ 0 []).
  - apply (peek_back (read_u 4) 4 (le_bytes 4 sz)); [by rewrite le_bytes_length|by apply read_u_back].
  - rewrite (app_assoc (le_bytes 4 sz)).
    apply (peek_back (read_s 8) 8); [by rewrite length_app, !le_bytes_length|apply read_s_back; [lia|done]].
  - rewrite (app_assoc (le_bytes 4 sz)), (app_assoc (le_bytes 4 sz ++ _)).
    apply (peek_back (read_s 8) 16); [by rewrite !length_app, !le_bytes_length|apply read_s_back; [lia|done]].
  - rewrite (app_assoc (le_bytes 4 sz)), (app_assoc (_ ++ le_bytes 4 sum)), (app_assoc (_ ++ le_bytes 8 txn)),
      (app_assoc (_ ++ le_bytes 8 ts)).
    apply (peek_back (read_s 4)); [|done]. rewrite !length_app, !le_bytes_length. lia.
Qed.

Lemma makeCRC_u32 l : Forall is_byte l -> u_range 32 (makeCRC l).
Proof. apply makeCRC_range. Qed.

(** The entry as it is read back: the header fields that [WriteAdv] computes are
    filled in. *)
Definition entry_on_disk e (w : list Z) : WalEntry B :=
  mkWalEntry (Z.of_nat (length w)) (le_value (take 4 (drop 4 w))) (txn_id e) (commit_ts e) (cmds e).

Lemma entry_image_sum sz sum txn ts body :
  u_range 32 sum -> le_value (take 4 (drop 4 (entry_image sz sum txn ts body))) = sum.
Proof.
  intros Hs. unfold entry_image. rewrite drop_app_length' by (by rewrite le_bytes_length).
  rewrite take_app_length' by (by rewrite le_bytes_length). by rewrite le_value_bytes, u_wrap_id.
Qed.

Lemma WalEntry_ReadAdv_back e w max_bytes rest :
  valid_entry e -> WalEntry_WriteAdv e = Ret w -> Z.of_nat (length w) < 2 ^ 31 ->
  Z.of_nat (length w) <= max_bytes ->
  WalEntry_ReadAdv max_bytes (w ++ rest) = Ret (Some (entry_on_disk e w), rest).
Proof.
  intros Hv Hw Hlen Hmax. pose proof Hv as (Htxn & Hts & Hc & Hcnt).
  destruct (WalEntry_write e Hv) as (cb & Ecb & Hbody & Hwrite). set (body := le_bytes 4 _ ++ cb) in *.
  set (n := 28 + Z.of_nat (length body)) in *.
  assert (n < 2 ^ 31) as Hn.
  { unfold WalEntry_WriteAdv in Hw. rewrite Ecb in Hw. cbn [mbind outcome_bind] in Hw. simplify_eq.
    rewrite entry_image_length in Hlen. rewrite (to_i32_id (Z.of_nat _)) in Hlen by lia. unfold n, body. lia. }
  destruct (Hwrite Hn) as [Ew _]. rewrite Ew in Hw. simplify_eq.
  set (sum := makeCRC (entry_image n 0 (txn_id e) (commit_ts e) body)) in *.
  assert (u_range 32 sum) as Hsum by (by apply makeCRC_u32, entry_image_bytes).
  rewrite entry_image_length in Hmax.
  unfold WalEntry_ReadAdv. assert ((max_bytes <=? 0) = false) as -> by (apply Z.leb_gt; lia).
  destruct (entry_fields n sum (txn_id e) (commit_ts e) body rest) as (F0 & F1 & F2 & F3 & F4); try done.
  erewrite bind_ret; [|apply left_eq]. erewrite bind_ret; [|exact F0]. erewrite bind_ret; [|exact F1].
  erewrite bind_ret; [|exact F2]. erewrite bind_ret; [|exact F3]. erewrite bind_ret; [|exact F4].
  rewrite Z.eqb_refl. cbn [negb]; cbv beta iota. erewrite bind_ret; [|by apply read_crc_image].
  fold sum. rewrite Z.eqb_refl. cbn [negb]; cbv beta iota.
  erewrite bind_ret; [|rewrite entry_image_split, <- app_assoc; apply read_bytes_app, entry_header_length].
  erewrite bind_ret;
    [|unfold body; rewrite <- !app_assoc; apply (read_s_back 4); [lia|unfold s_range; simpl; lia]].
  rewrite Nat2Z.id.
  erewrite bind_ret; [|apply ReadCmds_back; [done|done|]].
  2: { rewrite !length_app, le_bytes_length.
       pose proof (entry_image_length n sum (txn_id e) (commit_ts e) body). lia. }
  erewrite bind_ret; [|apply read_bytes_app, le_bytes_length]. erewrite bind_ret; [|apply left_eq].
  rewrite length_app. pose proof (entry_image_length n sum (txn_id e) (commit_ts e) body).
  match goal with |- context [?x <? 0] => assert ((x <? 0) = false) as -> by (apply Z.ltb_ge; lia) end.
  unfold entry_on_disk. rewrite entry_image_sum, entry_image_length by done. done.
Qed.

(** [w] is what [WriteAdv] puts into the log for the valid entry [e]. *)
Definition encodes e (w : list Z) : Prop :=
  valid_entry e /\ WalEntry_WriteAdv e = Ret w /\ Z.of_nat (length w) < 2 ^ 31.

(** The shape of an encoded entry. *)
Lemma encodes_image e w :
  encodes e w ->
  exists body, let n := Z.of_nat (length w) in
    Forall is_byte body /\ n = 28 + Z.of_nat (length body) /\
    w = entry_image n (makeCRC (entry_image n 0 (txn_id e) (commit_ts e) body)) (txn_id e) (commit_ts e) body.
Proof.
  intros (Hv & Hw & Hlen). destruct (WalEntry_write e Hv) as (cb & Ecb & Hbody & Hwrite).
  set (body := le_bytes 4 _ ++ cb) in *. exists body. intros n.
  assert (Hn : Z.of_nat (length w) = 28 + Z.of_nat (length body)).
  { unfold WalEntry_WriteAdv in Hw. rewrite Ecb in Hw. cbn [mbind outcome_bind] in Hw. simplify_eq.
    rewrite entry_image_length, (to_i32_id (Z.of_nat _)) by (destruct Hv as (_ & _ & _ & ?); lia). done. }
  split_and!; [done|done|]. destruct (Hwrite ltac:(lia)) as [Ew _]. unfold n. rewrite Hn.
  rewrite Ew in Hw. by simplify_eq.
Qed.

Lemma iterator_next e pre w post :
  encodes e w ->
  let buf := pre ++ w ++ post in
  WalEntryIterator_Next (mkWalEntryIterator buf (Z.of_nat (length (pre ++ w)))) =
    Ret (Some (entry_on_disk e w), mkWalEntryIterator buf (Z.of_nat (length pre))).
Proof.
  intros He buf. destruct (encodes_image e w He) as (body & _ & Hlen & Ew).
  destruct He as (Hv & Hw & Hlt). unfold WalEntryIterator_Next. simpl end_. simpl buf_.
  assert ((Z.of_nat (length (pre ++ w)) >? 0) = true) as ->
    by (rewrite Z.gtb_ltb; apply Z.ltb_lt; rewrite length_app; lia).
  set (n := Z.of_nat (length w)) in *. rewrite entry_image_split in Ew.
  set (h := entry_header _ _ _ _) in *.
  assert (peek (Z.of_nat (length (pre ++ w)) - 4) (read_s 4) buf = Ret (n, buf)) as ->.
  { unfold buf. rewrite Ew at 2 3. rewrite <- !app_assoc, (app_assoc h), (app_assoc pre).
    apply (peek_back (read_s 4)); [|apply read_s_back; [lia|unfold s_range; simpl; lia]].
    rewrite !length_app. subst n h. rewrite entry_header_length. lia. }
  cbn [mbind outcome_bind]. replace (Z.of_nat (length (pre ++ w)) - n) with (Z.of_nat (length pre))
    by (rewrite length_app; lia).
  match goal with |- context [if ?b then UB _ else _] => assert (b = false) as ->
    by (apply orb_false_iff; unfold buf; rewrite !length_app; split; apply Z.ltb_ge; lia) end.
  rewrite Nat2Z.id. assert (drop (length pre) buf = w ++ post) as -> by apply drop_app_length.
  rewrite (WalEntry_ReadAdv_back e w n post) by (done || lia). cbn [mbind outcome_bind].
  do 3 f_equal. unfold buf. rewrite !length_app. lia.
Qed.

(** [Next] until it returns null. *)
Fixpoint iterate (fuel : nat) (it : option WalEntryIterator) (deque : list (list Z)) : option (outcome (list (WalEntry B))) :=
  match fuel with
  | O => None
  | S fuel' =>
      match WalListIterator_Next it deque with
      | Ret (None, _) => Some (Ret [])
      | Ret (Some e, it') =>
          match iterate fuel' (iter_ it') (wal_deque_ it') with
          | Some (Ret es) => Some (Ret (e :: es))
          | r => r
          end
      | Throw ex s => Some (Throw ex s)
      | UB s => Some (UB s)
      end
  end.

(** A log file that holds the entries [es], in commit order. *)
Definition log_file (es : list (WalEntry B)) (ws : list (list Z)) : Prop := Forall2 encodes es ws.

(** The entries of a log file as they are read back. *)
Definition on_disk (es : list (WalEntry B)) (ws : list (list Z)) : list (WalEntry B) :=
  zip_with entry_on_disk es ws.

Lemma iterate_file es ws post deque fuel :
  log_file es ws ->
  iterate (length es + fuel) (Some (mkWalEntryIterator (concat ws ++ post) (Z.of_nat (length (concat ws))))) deque =
    match iterate fuel (Some (mkWalEntryIterator (concat ws ++ post) 0)) deque with
    | Some (Ret more) => Some (Ret (reverse (on_disk es ws) ++ more))
    | r => r
    end.
Proof.
  unfold log_file. revert ws post. induction es as [|e es IH] using rev_ind; intros ws post Hl.
  { apply Forall2_nil_inv_l in Hl as ->. simpl. by destruct (iterate _ _ _) as [[]|]. }
  apply Forall2_app_inv_l in Hl as (ws1 & ws2 & H1 & H2 & ->).
  apply Forall2_cons_inv_l in H2 as (w & ws' & He & Hn & ->). apply Forall2_nil_inv_l in Hn as ->.
  rewrite length_app, Nat.add_comm, Nat.add_assoc, (Nat.add_comm fuel). cbn [length].
  rewrite Nat.add_comm. cbn [Nat.add iterate].
  rewrite concat_app. cbn [concat]. rewrite app_nil_r, <- app_assoc.
  assert (forall d, WalListIterator_Next
    (Some (mkWalEntryIterator (concat ws1 ++ w ++ post) (Z.of_nat (length (concat ws1 ++ w))))) d =
    Ret (Some (entry_on_disk e w), mkWalListIterator (Some (mkWalEntryIterator (concat ws1 ++ w ++ post)
      (Z.of_nat (length (concat ws1))))) d)) as Hnext.
  { intros d. destruct d; cbn [WalListIterator_Next]; by rewrite (iterator_next e (concat ws1) w post He). }
  rewrite Hnext. cbn [iter_ wal_deque_]. rewrite (IH ws1 (w ++ post) H1).
  destruct (iterate fuel _ deque) as [[more| |]|]; [|done..]. do 2 f_equal.
  unfold on_disk. rewrite zip_with_app by (by eapply Forall2_length).
  cbn [zip_with]. by rewrite reverse_app.
Qed.

Lemma iterate_open fuel it f deque :
  match it with Some i => end_ i <= 0 | None => True end ->
  iterate fuel it (f :: deque) = iterate fuel (Some (WalEntryIterator_Make f)) deque.
Proof.
  intros Hit. destruct fuel as [|fuel]; [done|]. cbn [iterate].
  assert (WalListIterator_Next it (f :: deque) = WalListIterator_Next (Some (WalEntryIterator_Make f)) deque) as ->; [|done].
  cbn [WalListIterator_Next]. destruct it as [i|]; [|done].
  unfold WalEntryIterator_Next at 1. assert ((end_ i >? 0) = false) as -> by (rewrite Z.gtb_ltb; by apply Z.ltb_ge).
  done.
Qed.

Lemma iterate_end fuel it :
  match it with Some i => end_ i <= 0 | None => True end -> iterate (S fuel) it [] = Some (Ret []).
Proof.
  intros Hit. destruct it as [i|]; [|done]. cbn [iterate WalListIterator_Next].
  unfold WalEntryIterator_Next. assert ((end_ i >? 0) = false) as -> by (rewrite Z.gtb_ltb; by apply Z.ltb_ge).
  done.
Qed.

Definition total_entries (files : list (list (WalEntry B) * list (list Z))) : nat := length (concat (files.*1)).

Lemma iterate_files files it fuel :
  Forall (fun f => log_file f.1 f.2) files ->
  match it with Some i => end_ i <= 0 | None => True end ->
  iterate (total_entries files + S fuel) it ((fun f => concat f.2) <$> files) =
    Some (Ret (concat ((fun f => reverse (on_disk f.1 f.2)) <$> files))).
Proof.
  intros Hf. revert it. induction Hf as [|[es ws] files Hl Hf IH]; intros it Hit; [by apply iterate_end|].
  rewrite !fmap_cons. rewrite iterate_open by done. simpl in Hl.
  unfold total_entries. rewrite fmap_cons. cbn [concat fst snd]. rewrite length_app, <- Nat.add_assoc.
  unfold WalEntryIterator_Make.
  pose proof (iterate_file es ws [] ((fun f => concat f.2) <$> files) (total_entries files + S fuel) Hl) as E.
  rewrite app_nil_r in E. unfold total_entries in *. rewrite E.
  rewrite IH by (simpl; lia). done.
Qed.

(** *** Damage *)

Lemma peek_s off k l :
  0 <= off -> off + Z.of_nat k <= Z.of_nat (length l) ->
  peek off (read_s k) l = Ret (s_wrap (8 * Z.of_nat k) (le_value (take k (drop (Z.to_nat off) l))), l).
Proof.
  intros H0 Hl. unfold peek, read_s, read_bytes, mbind, reader_bind.
  assert ((off <? 0) = false) as -> by (apply Z.ltb_ge; lia). rewrite length_drop.
  assert ((k <=? length l - Z.to_nat off)%nat = true) as -> by (apply Nat.leb_le; lia). done.
Qed.

Lemma peek_u off k l :
  0 <= off -> off + Z.of_nat k <= Z.of_nat (length l) ->
  peek off (read_u k) l = Ret (le_value (take k (drop (Z.to_nat off) l)), l).
Proof.
  intros H0 Hl. unfold peek, read_u, read_bytes, mbind, reader_bind.
  assert ((off <? 0) = false) as -> by (apply Z.ltb_ge; lia). rewrite length_drop.
  assert ((k <=? length l - Z.to_nat off)%nat = true) as -> by (apply Nat.leb_le; lia). done.
Qed.

(** The two tests that reject an entry. *)
Lemma ReadAdv_rejects max_bytes n l :
  0 < max_bytes -> 28 <= n <= Z.of_nat (length l) ->
  s_wrap 32 (le_value (take 4 l)) = n ->
  s_wrap 32 (le_value (take 4 (drop (Z.to_nat (n - 4)) l))) <> n \/
  le_value (take 4 (drop 4 l)) <> makeCRC (take (Z.to_nat n) (zero_checksum l)) ->
  WalEntry_ReadAdv max_bytes l = Ret (None, l).
Proof.
  intros Hm Hn Hsz Hbad. unfold WalEntry_ReadAdv.
  assert ((max_bytes <=? 0) = false) as -> by (apply Z.leb_gt; lia).
  erewrite bind_ret; [|apply left_eq]. erewrite bind_ret; [|apply peek_s; simpl; lia].
  change (drop (Z.to_nat 0) l) with l. change (8 * Z.of_nat 4) with 32. rewrite Hsz.
  erewrite bind_ret; [|apply peek_u; simpl; lia]. erewrite bind_ret; [|apply peek_s; simpl; lia].
  erewrite bind_ret; [|apply peek_s; simpl; lia]. erewrite bind_ret; [|apply peek_s; simpl; lia].
  change (8 * Z.of_nat 4) with 32.
  match goal with |- context [n =? ?x] => destruct (n =? x) eqn:E end; cbn [negb]; cbv beta iota; [|done].
  apply Z.eqb_eq in E. destruct Hbad as [Hbad|Hbad]; [congruence|].
  unfold read_crc at 1. erewrite bind_ret.
  2: { assert (((n <? 0) || (Z.of_nat (length l) <? n))%bool = false) as ->; [|reflexivity].
       apply orb_false_iff. split; apply Z.ltb_ge; lia. }
  change (Z.to_nat 4) with 4%nat.
  match goal with |- context [?x =? ?y] => assert ((x =? y) = false) as -> by (by apply Z.eqb_neq) end. done.
Qed.

Lemma makeCRC_insert l i x y :
  Forall is_byte l -> l !! i = Some x -> is_byte y -> x <> y -> makeCRC (<[i := y]> l) <> makeCRC l.
Proof.
  intros Hl Hi Hy Hne E. pose proof (lookup_lt_Some _ _ _ Hi) as Hlt.
  rewrite insert_take_drop in E by done. rewrite <- (take_drop_middle l i x Hi) in E at 3.
  apply (makeCRC_byte_change (take i l) x y (drop (S i) l)); [|done|done|done].
  by rewrite take_drop_middle.
Qed.

Lemma s_wrap32_value bs bs' n :
  Forall is_byte bs -> Forall is_byte bs' -> length bs = 4%nat -> length bs' = 4%nat ->
  s_wrap 32 (le_value bs) = n -> s_wrap 32 (le_value bs') = n -> bs = bs'.
Proof.
  intros Hb Hb' Hl Hl' E E'. apply le_value_inj; [congruence|done|done|].
  pose proof (le_value_range bs Hb) as R. pose proof (le_value_range bs' Hb') as R'.
  rewrite Hl in R. rewrite Hl' in R'. unfold u_range, s_wrap in *. simpl in *.
  rewrite <- E' in E. clear E'.
  assert (forall v, 0 <= v < 4294967296 -> (v + 2147483648) mod 4294967296 =
    if v <? 2147483648 then v + 2147483648 else v - 2147483648) as Hm.
  { intros v Hv. destruct (v <? 2147483648) eqn:Ev; zbool; [by rewrite Z.mod_small by lia|].
    symmetry. apply (Z.mod_unique _ _ 1); lia. }
  rewrite !Hm in E by lia.
  destruct (le_value bs <? 2147483648) eqn:?, (le_value bs' <? 2147483648) eqn:?; zbool; lia.
Qed.

Lemma zero_checksum_app l rest : (8 <= length l)%nat -> zero_checksum (l ++ rest) = zero_checksum l ++ rest.
Proof.
  intros Hl. unfold zero_checksum. rewrite take_app_le, drop_app_le by lia. by rewrite <- !app_assoc.
Qed.

Lemma zero_checksum_length l : (8 <= length l)%nat -> length (zero_checksum l) = length l.
Proof. intros. unfold zero_checksum. rewrite !length_app, length_take, length_drop. cbn [length]. lia. Qed.

Lemma zero_checksum_insert_field l i y :
  (4 <= i < 8)%nat -> zero_checksum (<[i := y]> l) = zero_checksum l.
Proof. intros Hi. unfold zero_checksum. by rewrite take_insert_ge, drop_insert_lt by lia. Qed.

Lemma zero_checksum_insert_data l i y :
  (8 <= i < length l)%nat -> zero_checksum (<[i := y]> l) = <[i := y]> (zero_checksum l).
Proof.
  intros Hi. unfold zero_checksum. rewrite take_insert_ge, drop_insert_ge by lia.
  assert (length (take 4 l) = 4%nat) by (rewrite length_take; lia).
  rewrite insert_app_r_alt by lia. rewrite insert_app_r_alt by (simpl; lia).
  do 3 f_equal. simpl. lia.
Qed.

Lemma zero_checksum_lookup l i : (8 <= i < length l)%nat -> zero_checksum l !! i = l !! i.
Proof.
  intros Hi. unfold zero_checksum.
  assert (length (take 4 l) = 4%nat) by (rewrite length_take; lia).
  rewrite lookup_app_r by lia. rewrite lookup_app_r by (simpl; lia). rewrite lookup_drop.
  f_equal. simpl. lia.
Qed.

(** The fields of an encoded entry. *)
Lemma encodes_fields e w :
  encodes e w ->
  let n := length w in
  Forall is_byte w /\ (28 <= n)%nat /\ s_wrap 32 (le_value (take 4 w)) = Z.of_nat n /\
  s_wrap 32 (le_value (take 4 (drop (n - 4) w))) = Z.of_nat n /\
  le_value (take 4 (drop 4 w)) = makeCRC (zero_checksum w).
Proof.
  intros He n. destruct (encodes_image e w He) as (body & Hb & Hlen & Ew). destruct He as (_ & _ & Hlt).
  set (N := Z.of_nat (length w)) in *. set (sum := makeCRC _) in Ew.
  assert (u_range 32 sum) as Hsum by (by apply makeCRC_u32, entry_image_bytes).
  assert (s_wrap 32 (le_value (le_bytes 4 N)) = N) as HN.
  { rewrite le_value_bytes. change (8 * Z.of_nat 4) with 32. rewrite s_wrap_u_wrap by lia.
    apply s_wrap_id; [lia|unfold s_range; lia]. }
  split_and!.
  - rewrite Ew. by apply entry_image_bytes.
  - lia.
  - rewrite Ew at 1. unfold entry_image. rewrite take_app_length' by (by rewrite le_bytes_length). done.
  - rewrite Ew at 1. rewrite entry_image_split, app_assoc.
    rewrite drop_app_length' by (rewrite length_app, entry_header_length; lia).
    rewrite take_ge by (by rewrite le_bytes_length). done.
  - rewrite Ew at 1. rewrite entry_image_sum by done. rewrite Ew.
    by rewrite <- (app_nil_r (entry_image N sum _ _ _)), zero_checksum_image, app_nil_r.
Qed.

Lemma insert_changes (l : list Z) i x y : l !! i = Some x -> x <> y -> <[i := y]> l <> l.
Proof.
  intros Hi Hne E. apply Hne. pose proof (lookup_lt_Some _ _ _ Hi).
  rewrite <- E, list_lookup_insert_eq in Hi by done. congruence.
Qed.

Lemma damaged_entry_rejected e w i x y max_bytes rest :
  encodes e w -> (4 <= i)%nat -> w !! i = Some x -> is_byte y -> x <> y -> 0 < max_bytes ->
  WalEntry_ReadAdv max_bytes (<[i := y]> w ++ rest) = Ret (None, <[i := y]> w ++ rest).
Proof.
  intros He Hi Hx Hy Hne Hmax. destruct (encodes_fields e w He) as (Hb & Hn & H0 & Hf & Hs).
  pose proof (lookup_lt_Some _ _ _ Hx) as Hlt. set (n := length w) in *.
  assert (length (<[i := y]> w) = n) as Hl by apply length_insert.
  assert (Forall is_byte (<[i := y]> w)) as Hb' by (by apply Forall_insert).
  apply (ReadAdv_rejects _ (Z.of_nat n)); [done|rewrite length_app; lia| |].
  { rewrite take_app_le by lia. by rewrite take_insert_ge by lia. }
  replace (Z.to_nat (Z.of_nat n - 4)) with (n - 4)%nat by lia. rewrite Nat2Z.id.
  rewrite !drop_app_le, !take_app_le by (rewrite ?length_drop; lia).
  rewrite zero_checksum_app, take_app_length' by (rewrite ?zero_checksum_length; lia).
  destruct (decide (n - 4 <= i)%nat) as [Hfoot|Hfoot].
  - left. intros E. rewrite drop_insert_ge, take_ge in E by (rewrite ?length_insert, ?length_drop; lia).
    rewrite take_ge in Hf by (rewrite length_drop; lia).
    apply (insert_changes (drop (n - 4) w) (i - (n - 4)) x y); [|done|].
    + rewrite lookup_drop. rewrite <- Hx. f_equal. lia.
    + symmetry. eapply s_wrap32_value; [..|exact Hf|exact E];
        rewrite ?length_insert, ?length_drop; try lia; [by apply Forall_drop|].
      apply Forall_insert; [by apply Forall_drop|done].
  - right. destruct (decide (i < 8)%nat) as [Hsum|Hsum].
    + rewrite zero_checksum_insert_field by lia. rewrite <- Hs. intros E.
      rewrite drop_insert_ge, take_insert_lt in E by lia.
      apply (insert_changes (take 4 (drop 4 w)) (i - 4) x y); [|done|].
      * rewrite lookup_take_lt, lookup_drop by lia. rewrite <- Hx. f_equal. lia.
      * apply le_value_inj; [by rewrite length_insert| | |done].
        -- apply Forall_insert; [by apply Forall_take, Forall_drop|done].
        -- by apply Forall_take, Forall_drop.
    + rewrite drop_insert_ge, take_insert_ge by lia. rewrite Hs, zero_checksum_insert_data by lia.
      intros E. symmetry in E. revert E. apply (makeCRC_insert _ _ x); [|by rewrite zero_checksum_lookup by lia|done|done].
      unfold zero_checksum. apply Forall_app_2; [by apply Forall_take|].
      apply Forall_app_2; [repeat constructor; unfold is_byte; lia|by apply Forall_drop].
Qed.

Lemma encodes_size e w : encodes e w -> WalEntry_GetSizeInBytes e = Ret (Z.of_nat (length w)).
Proof.
  intros (Hv & Hw & Hlen). destruct (WalEntry_write e Hv) as (cb & Ecb & _ & _).
  unfold WalEntry_GetSizeInBytes. rewrite (cmds_size _ _ (proj1 (proj2 (proj2 Hv))) Ecb). cbn [mbind outcome_bind]. f_equal.
  unfold WalEntry_WriteAdv in Hw. rewrite Ecb in Hw. cbn [mbind outcome_bind] in Hw. simplify_eq.
  rewrite entry_image_length, length_app, le_bytes_length. unfold SizeofWalEntryHeader. lia.
Qed.

(** ** Properties *)

(** C10: A valid entry can be written; the size computed beforehand for the
    buffer is the number of bytes written; and reading the bytes gives the entry
    back, with the size and checksum fields filled in, whatever follows. *)
Theorem wal_entry_roundtrip e n :
  valid_entry e -> WalEntry_GetSizeInBytes e = Ret n -> n < 2 ^ 31 ->
  exists w, WalEntry_WriteAdv e = Ret w /\ Z.of_nat (length w) = n /\
    forall rest, WalEntry_ReadAdv n (w ++ rest) = Ret (Some (entry_on_disk e w), rest).
Proof.
  intros Hv Hs Hn. destruct (WalEntry_write e Hv) as (cb & Ecb & Hbody & Hw).
  unfold WalEntry_GetSizeInBytes in Hs. rewrite (cmds_size _ _ (proj1 (proj2 (proj2 Hv))) Ecb) in Hs.
  cbn [mbind outcome_bind] in Hs. injection Hs as Hs. unfold SizeofWalEntryHeader in Hs.
  rewrite length_app, le_bytes_length in Hw. destruct (Hw ltac:(lia)) as [Ew _]. eexists. split; [exact Ew|].
  split; [rewrite entry_image_length, length_app, le_bytes_length; lia|].
  intros rest. apply WalEntry_ReadAdv_back; [done|exact Ew|..];
    rewrite entry_image_length, length_app, le_bytes_length; lia.
Qed.

(** C39: Damage is detected: if one byte of an entry after the leading size field
    is changed, in the checksum, the transaction id, the timestamp, the commands
    or the trailing size, [ReadAdv] returns null. *)
Theorem wal_entry_damage_detected e w i x y max_bytes rest :
  encodes e w -> (4 <= i)%nat -> w !! i = Some x -> is_byte y -> x <> y -> 0 < max_bytes ->
  WalEntry_ReadAdv max_bytes (<[i := y]> w ++ rest) = Ret (None, <[i := y]> w ++ rest).
Proof. apply damaged_entry_rejected. Qed.

(** The list iterator over intact log files, newest file first, returns
    every entry of the log exactly once, from the newest to the oldest, and then
    null. *)
Theorem wal_iterator_reads_log files fuel :
  Forall (fun f => log_file f.1 f.2) files -> (total_entries files < fuel)%nat ->
  iterate fuel None ((fun f => concat f.2) <$> files) =
    Some (Ret (reverse (concat (reverse ((fun f => on_disk f.1 f.2) <$> files))))).
Proof.
  intros Hf Hfuel. replace fuel with (total_entries files + S (fuel - total_entries files - 1))%nat by lia.
  rewrite iterate_files by done. do 2 f_equal. clear. induction files as [|f files IH]; [done|].
  rewrite !fmap_cons. cbn [concat]. rewrite reverse_cons, concat_app, reverse_app. cbn [concat].
  by rewrite app_nil_r, IH.
Qed.

(** If the last entry of a log file is damaged in its checksum or contents,
    the iterator returns none of the intact entries in front of it. *)
Theorem wal_damaged_tail_hides_file es ws e w i x y fuel :
  log_file es ws -> encodes e w -> (4 <= i < length w - 4)%nat -> w !! i = Some x -> is_byte y -> x <> y ->
  iterate (S fuel) None [concat ws ++ <[i := y]> w] = Some (Ret []).
Proof.
  intros Hl He Hi Hx Hy Hne. rewrite iterate_open by done. cbn [iterate WalListIterator_Next].
  destruct (encodes_fields e w He) as (Hb & Hn & _ & Hf & _). set (w' := <[i := y]> w).
  assert (length w' = length w) as Hlen by apply length_insert.
  assert (WalEntryIterator_Next (WalEntryIterator_Make (concat ws ++ w')) =
    Ret (None, mkWalEntryIterator (concat ws ++ w') (Z.of_nat (length (concat ws)) - Z.of_nat (length w)))) as ->; [|done].
  unfold WalEntryIterator_Next, WalEntryIterator_Make. cbn [end_ buf_]. rewrite length_app, Hlen.
  match goal with |- context [?a >? 0] => assert ((a >? 0) = true) as -> by (rewrite Z.gtb_ltb; apply Z.ltb_lt; lia) end.
  rewrite peek_s by (rewrite ?length_app; simpl; lia). cbn [mbind outcome_bind].
  replace (Z.to_nat _) with (length (concat ws) + (length w - 4))%nat by lia.
  rewrite drop_app_add'; [|done]. unfold w'. rewrite drop_insert_lt by lia. fold w'.
  change (8 * Z.of_nat 4) with 32. rewrite Hf.
  match goal with |- context [if ?b then UB _ else _] => assert (b = false) as ->
    by (apply orb_false_iff; split; apply Z.ltb_ge; lia) end.
  replace (Z.to_nat _) with (length (concat ws)) by lia. rewrite drop_app_length.
  pose proof (damaged_entry_rejected e w i x y (Z.of_nat (length w)) []) as Hd. rewrite app_nil_r in Hd.
  unfold w'. rewrite Hd by (done || lia). cbn [mbind outcome_bind]. fold w'. rewrite Hlen. do 3 f_equal. lia.
Qed.
End WalEntry.

(** ** Blocks given by their bytes, for the witnesses *)

#[local] Instance raw_codec : BlockCodec (list Z) := {
  block_size b := Ret (4 + Z.of_nat (length b));
  block_write b := Ret (le_bytes 4 (Z.of_nat (length b)) ++ b);
  block_read _ := n ← read_u 4; read_bytes (Z.to_nat n);
  block_valid b := Forall is_byte b /\ Z.of_nat (length b) < 2 ^ 31;
}.

#[local] Opaque le_bytes.

#[local] Instance raw_codec_laws : BlockCodecLaws (list Z).
Proof.
  split.
  - intros b [Hb _]. eexists. split; [done|]. by apply Forall_app_2; [apply le_bytes_are_bytes|].
  - intros b w [_ _] [= <-]. cbn [block_size raw_codec]. by rewrite length_app, le_bytes_length, Nat2Z.inj_add.
  - intros b w maxbytes rest [_ Hl] [= <-] _. cbn [block_read raw_codec]. rewrite <- app_assoc.
    erewrite bind_ret; [|apply read_u_back; unfold u_range; change (8 * Z.of_nat 4) with 32; lia].
    rewrite Nat2Z.id. by apply read_bytes_app.
Qed.

Definition sample_table_def : TableDef :=
  mkTableDef "default" "t1" [mkColumnDef 0 (mkDataType LogicalType.kInteger None) "c1" [ConstraintType.kNotNull];
                             mkColumnDef 1 (mkDataType LogicalType.kEmbedding (Some (EmbeddingInfo EmbeddingDataType.kElemFloat 128))) "c2" []].

Definition sample_entry : WalEntry (list Z) :=
  mkWalEntry 0 0 7 12 [WalCmdCreateTable "default" sample_table_def; WalCmdAppend "default" "t1" [1; 2; 3];
                       WalCmdDelete "default" "t1" [mkRowID 0 5]].

Definition sample_checkpoint : WalEntry (list Z) := mkWalEntry 0 0 8 13 [WalCmdCheckpoint 12 true "catalog/META_12.full.json"].

Definition sample_bytes (e : WalEntry (list Z)) : list Z := match WalEntry_WriteAdv e with Ret w => w | _ => [] end.

Ltac solve_valid :=
  repeat match goal with
  | |- _ /\ _ => split
  | |- Forall _ _ => constructor
  | |- NoDup _ => constructor
  | |- _ ∉ _ => set_solver
  | |- _ => progress simpl
  end; try done; try (unfold s_range, u_range, valid_string, is_byte; simpl; lia).

Lemma sample_table_valid : valid_table sample_table_def.
Proof. unfold valid_table, valid_column, sample_table_def. solve_valid. Qed.

Lemma sample_entry_encodes : encodes sample_entry (sample_bytes sample_entry).
Proof.
  split_and!; [|reflexivity|vm_compute; reflexivity].
  unfold valid_entry. solve_valid. apply sample_table_valid.
Qed.

Lemma sample_checkpoint_encodes : encodes sample_checkpoint (sample_bytes sample_checkpoint).
Proof. split_and!; [|reflexivity|vm_compute; reflexivity]. unfold valid_entry. solve_valid. Qed.

Lemma wal_entry_roundtrip_witness :
  exists w, WalEntry_WriteAdv sample_entry = Ret w /\ Z.of_nat (length w) = 164 /\
    WalEntry_ReadAdv 164 (w ++ [1; 2]) = Ret (Some (entry_on_disk sample_entry w), [1; 2]).
Proof.
  destruct (wal_entry_roundtrip sample_entry 164) as (w & H1 & H2 & H3);
    [apply sample_entry_encodes|vm_compute; reflexivity|done|]. by exists w.
Defined.

Lemma wal_entry_damage_detected_witness :
  WalEntry_ReadAdv 164 (<[40%nat := 0]> (sample_bytes sample_entry) ++ [1; 2]) =
    Ret (None, <[40%nat := 0]> (sample_bytes sample_entry) ++ [1; 2]).
Proof.
  apply (wal_entry_damage_detected sample_entry (sample_bytes sample_entry) 40 7 0 164 [1; 2]);
    [apply sample_entry_encodes|lia|vm_compute; reflexivity|unfold is_byte; lia|done|done].
Defined.

Lemma wal_iterator_reads_log_witness :
  iterate 3 None [sample_bytes sample_checkpoint; sample_bytes sample_entry] =
    Some (Ret [entry_on_disk sample_checkpoint (sample_bytes sample_checkpoint);
               entry_on_disk sample_entry (sample_bytes sample_entry)]).
Proof.
  pose proof (wal_iterator_reads_log
    [([sample_checkpoint], [sample_bytes sample_checkpoint]); ([sample_entry], [sample_bytes sample_entry])] 3) as H.
  rewrite !fmap_cons in H. cbn [concat fst snd fmap list_fmap] in H. rewrite !app_nil_r in H. apply H; [|vm_compute; lia].
  constructor; [|constructor; [|constructor]]; (constructor; [|constructor]);
    [apply sample_checkpoint_encodes|apply sample_entry_encodes].
Defined.

Lemma wal_damaged_tail_hides_file_witness :
  iterate 5 None [sample_bytes sample_entry ++ <[30%nat := 255]> (sample_bytes sample_checkpoint)] = Some (Ret []).
Proof.
  pose proof (wal_damaged_tail_hides_file [sample_entry] [sample_bytes sample_entry] sample_checkpoint
    (sample_bytes sample_checkpoint) 30) as H. cbn [concat] in H. rewrite app_nil_r in H.
  eapply H; [|apply sample_checkpoint_encodes|vm_compute; lia|vm_compute; reflexivity|unfold is_byte; lia|done].
  constructor; [apply sample_entry_encodes|constructor].
Defined.
