(* ===== verification/WalManager.v ===== *)
(** * The write-ahead log manager ([storage/wal/wal_manager.cpp])

    The queue of entries, the flush loop, log rotation and recycling, the
    checkpoint timer and the selection of the entries to replay.  The flush
    thread, the checkpoint thread and the committing sessions interleave; a run
    of the system is a list of scheduling choices. *)

From stdpp Require Import base list strings sorting.
From Stdlib Require Import ZArith Lia.
From S2P Require Import Prelude Defs Common Wire WalEntry.

Open Scope Z_scope.

(** The catalog operations the replay needs from the storage. *)
Class ReplayTarget (B C : Type) := {
  InitNewCatalog : C;
  AttachCatalog : list string -> outcome C;
  ReplayEntry : WalEntry B -> C -> outcome C;
  SetNextTxnId : Z -> C -> C;
}.

(** The configuration of a [WalManager]. *)
Record WalConfig := mkWalConfig {
  wal_size_threshold_ : Z;
  full_checkpoint_interval_sec_ : Z;
  delta_checkpoint_interval_sec_ : Z;
  delta_checkpoint_interval_wal_bytes_ : Z;
}.

(** The members that only the checkpoint thread uses. *)
Record CkpState := mkCkpState {
  full_ckp_commit_ts_ : Z;
  full_ckp_wal_size_ : Z;
  full_ckp_when_ : Z;
  delta_ckp_wal_size_ : Z;
  delta_ckp_when_ : Z;
}.

(** [WalManager], with the log directory: the contents of the file [wal_path_]
    if it exists, and of the files [wal_path_.<ts>] by their number. *)
Record WalManager (B : Type) := mkWalManager {
  config : WalConfig;
  running_ : bool;
  que_ : list (WalEntry B);
  que2_ : list (WalEntry B);
  wal_log : option (list Z);
  wal_files : list (Z * list Z);
  max_commit_ts_ : Z;
  wal_size_ : Z;
  ckp : CkpState;
}.

Arguments mkWalManager {B} _ _ _ _ _ _ _ _ _.
Arguments config {B} _.
Arguments running_ {B} _.
Arguments que_ {B} _.
Arguments que2_ {B} _.
Arguments wal_log {B} _.
Arguments wal_files {B} _.
Arguments max_commit_ts_ {B} _.
Arguments wal_size_ {B} _.
Arguments ckp {B} _.

(** Where the flush thread is: at the head of its loop, behind the swap of the
    queues, or behind the write with the locals [max_commit_ts] and [wal_size] and
    the entries whose [CommitBottom] is still to be called. *)
Inductive FlushPc (B : Type) :=
  | FlushHead
  | FlushSwapped
  | FlushWritten (max_commit_ts wal_size : Z) (todo : list (WalEntry B)).

Arguments FlushHead {B}.
Arguments FlushSwapped {B}.
Arguments FlushWritten {B} _ _ _.

(** Where the checkpoint thread is in [Checkpoint()]: not in it, behind
    [txn->Checkpoint], or waiting in [CommitTxn] for its entry. *)
Inductive CkpPc (B : Type) :=
  | CkpIdle
  | CkpCreated (now max_commit_ts wal_size : Z) (is_full : bool)
  | CkpWaiting (now max_commit_ts wal_size : Z) (is_full : bool) (entry : WalEntry B).

Arguments CkpIdle {B}.
Arguments CkpCreated {B} _ _ _ _.
Arguments CkpWaiting {B} _ _ _ _ _.

(** The manager with its threads, the checkpoints sessions have forced and not
    yet committed, and two histories: the entries passed to [PutEntry] and the
    entries whose transactions were committed by [CommitBottom]. *)
Record Sys (B : Type) := mkSys {
  wm : WalManager B;
  fpc : FlushPc B;
  cpc : CkpPc B;
  forced : list Z;
  sent : list (WalEntry B);
  done_ : list (WalEntry B);
}.

Arguments mkSys {B} _ _ _ _ _ _.
Arguments wm {B} _.
Arguments fpc {B} _.
Arguments cpc {B} _.
Arguments forced {B} _.
Arguments sent {B} _.
Arguments done_ {B} _.

(** The scheduling choices: a session's [PutEntry]; the stages of the flush
    loop; the stages of a timer checkpoint, whose catalog path is chosen; the
    stages of a forced checkpoint. *)
Inductive action (B : Type) :=
  | APut (e : WalEntry B)
  | ASwapQueues
  | AWrite
  | ACommitBottom
  | AFinish
  | ACkpBegin (now : Z)
  | ACkpPut (txn_id commit_ts : Z) (catalog_path : string)
  | ACkpEnd
  | AForceBegin
  | AForcePut (txn_id commit_ts : Z) (catalog_path : string).

Arguments APut {B} _.
Arguments ASwapQueues {B}.
Arguments AWrite {B}.
Arguments ACommitBottom {B}.
Arguments AFinish {B}.
Arguments ACkpBegin {B} _.
Arguments ACkpPut {B} _ _ _.
Arguments ACkpEnd {B}.
Arguments AForceBegin {B}.
Arguments AForcePut {B} _ _ _.

Section WalManager.
Context {B : Type} `{BlockCodec B}.
Implicit Types (m : WalManager B) (e : WalEntry B) (s : Sys B).

Definition with_queues m (q q2 : list (WalEntry B)) : WalManager B :=
  mkWalManager (config m) (running_ m) q q2 (wal_log m) (wal_files m) (max_commit_ts_ m) (wal_size_ m) (ckp m).

Definition with_log m (log : option (list Z)) (files : list (Z * list Z)) : WalManager B :=
  mkWalManager (config m) (running_ m) (que_ m) (que2_ m) log files (max_commit_ts_ m) (wal_size_ m) (ckp m).

Definition with_ckp m (c : CkpState) : WalManager B :=
  mkWalManager (config m) (running_ m) (que_ m) (que2_ m) (wal_log m) (wal_files m) (max_commit_ts_ m) (wal_size_ m) c.

(** [WalManager::WalManager]; the directory is what an earlier run left. *)
Definition NewWalManager (cfg : WalConfig) (log : option (list Z)) (files : list (Z * list Z)) : WalManager B :=
  mkWalManager cfg false [] [] log files 0 0 (mkCkpState 0 0 0 0 0).

(** [WalManager::Start] at the time [now] *)
Definition WalStart m (now : Z) : WalManager B :=
  if running_ m then m
  else mkWalManager (config m) true (que_ m) (que2_ m) (Some (default [] (wal_log m))) (wal_files m) 0 0
         (mkCkpState (full_ckp_commit_ts_ (ckp m)) (full_ckp_wal_size_ (ckp m)) now (delta_ckp_wal_size_ (ckp m)) now).

(** [WalManager::PutEntry] *)
Definition PutEntry m e : WalManager B * Z :=
  if negb (running_ m) then (m, -1)
  else (with_queues m (que_ m ++ [e]) (que2_ m), -1).

(** [WalManager::SetWalState] *)
Definition SetWalState m (max_commit_ts wal_size : Z) : WalManager B :=
  mkWalManager (config m) (running_ m) (que_ m) (que2_ m) (wal_log m) (wal_files m) max_commit_ts wal_size (ckp m).

(** [WalManager::GetWalState] *)
Definition GetWalState m : Z * Z := (max_commit_ts_ m, wal_size_ m).

(** [WalManager::SwapWalFile]: [rename] replaces a file of the new name. *)
Definition SwapWalFile m (max_commit_ts : Z) : WalManager B :=
  with_log m (Some []) (match wal_log m with
                        | Some log => om_insert max_commit_ts log (wal_files m)
                        | None => wal_files m
                        end).

(** The loop of [WalManager::Flush] that writes a batch. *)
Fixpoint FlushLoop (entries : list (WalEntry B)) (ofs : list Z) (max_commit_ts wal_size : Z)
    : outcome (list Z * Z * Z) :=
  match entries with
  | [] => Ret (ofs, max_commit_ts, wal_size)
  | e :: rest =>
      match cmds e with
      | [] => Throw StorageException "WalEntry of txn_id commands is empty"
      | cmd :: _ =>
          exp_size ← WalEntry_GetSizeInBytes e;
          buf ← WalEntry_WriteAdv e;
          let act_size := Z.of_nat (length buf) in
          if exp_size <? act_size then UB "WriteAdv past the end of buf"
          else
            let ofs := ofs ++ buf in
            if negb (GetType cmd =? CHECKPOINT)
            then FlushLoop rest ofs (to_u64 (commit_ts e)) (to_i64 (wal_size + act_size))
            else FlushLoop rest ofs max_commit_ts wal_size
      end
  end.

(** The write of a batch: [GetWalState], the loop and [ofs_.flush()]. *)
Definition FlushWrite m : outcome (WalManager B * Z * Z) :=
  let '(max_commit_ts, wal_size) := GetWalState m in
  match wal_log m with
  | None => UB "the log file is not open"
  | Some log =>
      '(log', max_commit_ts, wal_size) ← FlushLoop (que2_ m) log max_commit_ts wal_size;
      Ret (with_log m (Some log') (wal_files m), max_commit_ts, wal_size)
  end.

Definition log_too_large m : bool :=
  match wal_log m with
  | Some log => Z.of_nat (length log) >? wal_size_threshold_ (config m)
  | None => false
  end.

(** The end of the loop of [WalManager::Flush]. *)
Definition FlushFinish m (max_commit_ts wal_size : Z) : WalManager B :=
  let m := with_queues m (que_ m) [] in
  let m := if log_too_large m then SwapWalFile m max_commit_ts else m in
  SetWalState m max_commit_ts wal_size.

(** The decision of [WalManager::Checkpoint()]: whether to make a checkpoint and
    whether a full one. *)
Definition CheckpointDecide m (now : Z) : option bool :=
  let '(max_commit_ts, wal_size) := GetWalState m in
  let c := ckp m in
  if ((to_i64 (now - full_ckp_when_ c) >? to_i64 (full_checkpoint_interval_sec_ (config m)))
      && negb (wal_size =? full_ckp_wal_size_ c))%bool then Some true
  else if (((to_i64 (now - delta_ckp_when_ c) >? to_i64 (delta_checkpoint_interval_sec_ (config m)))
            && negb (wal_size =? delta_ckp_wal_size_ c))
           || (to_i64 (wal_size - delta_ckp_wal_size_ c) >? to_i64 (delta_checkpoint_interval_wal_bytes_ (config m))))%bool
  then Some false
  else None.

(** [WalManager::RecycleWalFile] *)
Definition RecycleWalFile m (full_ckp_ts : Z) : WalManager B :=
  match wal_log m with
  | Some _ => with_log m (wal_log m) (filter (fun f => ~ f.1 < to_i64 full_ckp_ts) (wal_files m))
  | None => m
  end.

(** The end of [WalManager::Checkpoint()], after [CommitTxn]. *)
Definition CheckpointEnd m (now max_commit_ts wal_size : Z) (is_full : bool) : WalManager B :=
  let c := ckp m in
  if is_full then
    RecycleWalFile (with_ckp m (mkCkpState max_commit_ts wal_size now wal_size now)) max_commit_ts
  else with_ckp m (mkCkpState (full_ckp_commit_ts_ c) (full_ckp_wal_size_ c) (full_ckp_when_ c) wal_size now).

(** [WalManager::Checkpoint] of a [ForceCheckpointTask], up to [txn->Checkpoint] *)
Definition ForceCheckpoint m : option Z :=
  let '(max_commit_ts, wal_size) := GetWalState m in
  if wal_size =? full_ckp_wal_size_ (ckp m) then None else Some max_commit_ts.

(** The entry of a checkpoint transaction ([Txn::Checkpoint], [Txn::Commit]). *)
Definition ckp_entry (txn commit_ts max_commit_ts : Z) (is_full : bool) (catalog_path : string) : WalEntry B :=
  mkWalEntry 0 0 txn commit_ts [WalCmdCheckpoint max_commit_ts is_full catalog_path].

(** ** The threads *)

Definition put s e : Sys B := mkSys (PutEntry (wm s) e).1 (fpc s) (cpc s) (forced s) (sent s ++ [e]) (done_ s).

Definition exec s (a : action B) : option (Sys B) :=
  let m := wm s in
  match a with
  | APut e => if IsCheckPoint e then None else Some (put s e)
  | ASwapQueues =>
      match fpc s with
      | FlushHead =>
          if running_ m then
            let pc := match que_ m with [] => FlushHead | _ => FlushSwapped end in
            Some (mkSys (with_queues m (que2_ m) (que_ m)) pc (cpc s) (forced s) (sent s) (done_ s))
          else None
      | _ => None
      end
  | AWrite =>
      match fpc s with
      | FlushSwapped =>
          match FlushWrite m with
          | Ret (m', mx, sz) => Some (mkSys m' (FlushWritten mx sz (que2_ m')) (cpc s) (forced s) (sent s) (done_ s))
          | _ => None
          end
      | _ => None
      end
  | ACommitBottom =>
      match fpc s with
      | FlushWritten mx sz (e :: todo) => Some (mkSys m (FlushWritten mx sz todo) (cpc s) (forced s) (sent s) (done_ s ++ [e]))
      | _ => None
      end
  | AFinish =>
      match fpc s with
      | FlushWritten mx sz [] => Some (mkSys (FlushFinish m mx sz) FlushHead (cpc s) (forced s) (sent s) (done_ s))
      | _ => None
      end
  | ACkpBegin now =>
      match cpc s, CheckpointDecide m now with
      | CkpIdle, Some full =>
          Some (mkSys m (fpc s) (CkpCreated now (max_commit_ts_ m) (wal_size_ m) full) (forced s) (sent s) (done_ s))
      | _, _ => None
      end
  | ACkpPut txn ts path =>
      match cpc s with
      | CkpCreated now mx sz full =>
          let e := ckp_entry txn ts mx full path in
          Some (put (mkSys m (fpc s) (CkpWaiting now mx sz full e) (forced s) (sent s) (done_ s)) e)
      | _ => None
      end
  | ACkpEnd =>
      match cpc s with
      | CkpWaiting now mx sz full e =>
          if existsb (fun d => commit_ts d =? commit_ts e) (done_ s)
          then Some (mkSys (CheckpointEnd m now mx sz full) (fpc s) CkpIdle (forced s) (sent s) (done_ s))
          else None
      | _ => None
      end
  | AForceBegin =>
      match cpc s, ForceCheckpoint m with
      | CkpIdle, Some mx => Some (mkSys m (fpc s) (cpc s) (forced s ++ [mx]) (sent s) (done_ s))
      | _, _ => None
      end
  | AForcePut txn ts path =>
      match forced s with
      | mx :: rest => Some (put (mkSys m (fpc s) (cpc s) rest (sent s) (done_ s)) (ckp_entry txn ts mx true path))
      | [] => None
      end
  end.

Fixpoint run s (acts : list (action B)) : option (Sys B) :=
  match acts with
  | [] => Some s
  | a :: rest => match exec s a with Some s' => run s' rest | None => None end
  end.

(** What the flush thread has done to the directory when the process stops: its last
    step, the first entries of a batch, or only the renaming of a rotation. *)
Inductive flushing s : WalManager B -> Prop :=
  | flushing_between : flushing s (wm s)
  | flushing_batch j m mx sz : fpc s = FlushSwapped ->
      FlushWrite (with_queues (wm s) (que_ (wm s)) (take j (que2_ (wm s)))) = Ret (m, mx, sz) -> flushing s m
  | flushing_rotation mx sz : fpc s = FlushWritten mx sz [] -> log_too_large (wm s) = true ->
      flushing s (with_log (wm s) None (wal_files (SwapWalFile (wm s) mx))).

(** The manager whose directory is left when the process stops; at that time a full
    checkpoint may have removed some of the files that it recycles. *)
Inductive stopped s : WalManager B -> Prop :=
  | stopped_running m : flushing s m -> stopped s m
  | stopped_recycling m now mx sz e kept : flushing s m -> cpc s = CkpWaiting now mx sz true e ->
      existsb (fun d => commit_ts d =? commit_ts e) (done_ s) = true -> (forall n, kept n = false -> n < to_i64 mx) ->
      stopped s (with_log m (wal_log m) (filter (fun f => kept f.1 = true) (wal_files m))).

(** A started manager on an empty directory. *)
Definition init_sys (cfg : WalConfig) (now : Z) : Sys B :=
  mkSys (WalStart (NewWalManager cfg None []) now) FlushHead CkpIdle [] [] [].

(** ** Replay *)

(** The files in the order of the sorted [wal_list_]. *)
Definition wal_list m : list (list Z) :=
  match wal_log m with Some log => [log] | None => [] end ++ reverse ((wal_files m).*2).

(** Phase 1 of [WalManager::ReplayWalFile]; it returns the iterator, the
    entries read, the checkpoint paths and the largest timestamp covered. *)
Fixpoint ReplayPhase1 (fuel : nat) (it : WalListIterator) (entries : list (WalEntry B)) (paths : list string) (max_commit_ts : Z)
    : option (outcome (WalListIterator * list (WalEntry B) * list string * Z)) :=
  match fuel with
  | O => None
  | S fuel' =>
      match WalListIterator_Next (iter_ it) (wal_deque_ it) with
      | Ret (None, it') => Some (Ret (it', entries, paths, max_commit_ts))
      | Ret (Some e, it') =>
          let entries := entries ++ [e] in
          if IsCheckPoint e then
            let '(ts, path) := GetCheckpointInfo (cmds e) in
            let paths := paths ++ [path] in
            let max_commit_ts := if ts >? max_commit_ts then ts else max_commit_ts in
            if IsFullCheckPoint e then Some (Ret (it', entries, paths, max_commit_ts))
            else ReplayPhase1 fuel' it' entries paths max_commit_ts
          else ReplayPhase1 fuel' it' entries paths max_commit_ts
      | Throw ex msg => Some (Throw ex msg)
      | UB why => Some (UB why)
      end
  end.

(** Phase 2 *)
Fixpoint ReplayPhase2 (fuel : nat) (it : WalListIterator) (entries : list (WalEntry B)) (max_commit_ts : Z)
    : option (outcome (list (WalEntry B))) :=
  match fuel with
  | O => None
  | S fuel' =>
      match WalListIterator_Next (iter_ it) (wal_deque_ it) with
      | Ret (None, it') => Some (Ret entries)
      | Ret (Some e, it') =>
          if commit_ts e >? max_commit_ts then ReplayPhase2 fuel' it' (entries ++ [e]) max_commit_ts
          else Some (Ret entries)
      | Throw ex msg => Some (Throw ex msg)
      | UB why => Some (UB why)
      end
  end.

(** The first loop of phase 3: the entries from the first one that the
    checkpoints do not cover. *)
Fixpoint SkipCovered (max_commit_ts : Z) (entries : list (WalEntry B)) : list (WalEntry B) :=
  match entries with
  | [] => []
  | e :: rest => if commit_ts e >? max_commit_ts then entries else SkipCovered max_commit_ts rest
  end.

Section Replay.
Context {C : Type} `{ReplayTarget B C}.

(** The second loop of phase 3, with [system_start_ts] and [last_txn_id]. *)
Fixpoint ReplayLoop (max_commit_ts : Z) (entries : list (WalEntry B)) (c : C) (start last : Z) : outcome (C * Z * Z) :=
  match entries with
  | [] => Ret (c, start, last)
  | e :: rest =>
      if commit_ts e <=? max_commit_ts
      then Throw StorageException "Wal Replay: Commit ts should be greater than max commit ts"
      else if IsCheckPoint e then ReplayLoop max_commit_ts rest c (commit_ts e) (txn_id e)
      else
        c' ← ReplayEntry e c;
        ReplayLoop max_commit_ts rest c' (commit_ts e) (txn_id e)
  end.

(** [WalManager::ReplayWalFile]: the catalog and the timestamp the system
    starts with. *)
Definition ReplayWalFile (fuel : nat) m : option (outcome (C * Z)) :=
  if match wal_log m with Some (_ :: _) => true | _ => false end then
    match ReplayPhase1 fuel (mkWalListIterator None (wal_list m)) [] [] 0 with
    | None => None
    | Some r1 =>
        match r1 with
        | Ret (it, entries, paths, max_commit_ts) =>
            match ReplayPhase2 fuel it entries max_commit_ts with
            | None => None
            | Some r2 => Some (
                entries ← r2;
                c ← match paths with [] => Ret InitNewCatalog | _ => AttachCatalog (reverse paths) end;
                '(c, start, last) ← ReplayLoop max_commit_ts (SkipCovered max_commit_ts (reverse entries)) c 0 0;
                Ret (SetNextTxnId last c, start))
            end
        | Throw ex msg => Some (Throw ex msg)
        | UB why => Some (UB why)
        end
    end
  else Some (Ret (InitNewCatalog, 0)).
End Replay.
End WalManager.
