(* ===== verification/Durability.v ===== *)
(** * Recovery and durability of the write-ahead log

    What [ReplayWalFile] selects from an intact log, and the invariant of the
    commit pipeline of [WalManager.v] that makes every committed transaction
    survive a restart. *)

From stdpp Require Import base list strings sorting.
From Stdlib Require Import ZArith Lia.
From S2P Require Import Prelude Defs Common Wire WalEntry WalManager.

Open Scope Z_scope.

Section Durability.
Context {B : Type} `{BlockCodecLaws B}.
Implicit Types (m : WalManager B) (e : WalEntry B) (s : Sys B) (es L : list (WalEntry B)).

(** ** What the replay should select *)

(** The timestamp and path of a checkpoint entry. *)
Definition ckp_ts e : Z := (GetCheckpointInfo (cmds e)).1.
Definition ckp_path e : string := (GetCheckpointInfo (cmds e)).2.

Definition ckps es : list (WalEntry B) := filter (fun e => IsCheckPoint e = true) es.

(** Newest first: the entries up to the newest full checkpoint, and the rest. *)
Fixpoint upto_full es : list (WalEntry B) :=
  match es with
  | [] => []
  | e :: rest => if (IsCheckPoint e && IsFullCheckPoint e)%bool then [e] else e :: upto_full rest
  end.

Fixpoint after_full es : list (WalEntry B) :=
  match es with
  | [] => []
  | e :: rest => if (IsCheckPoint e && IsFullCheckPoint e)%bool then rest else after_full rest
  end.

(** The checkpoints a log is recovered from, and the timestamp they cover. *)
Definition ckp_chain L : list (WalEntry B) := ckps (upto_full (reverse L)).
Definition covered_ts L : Z := foldr Z.max 0 (ckp_ts <$> ckp_chain L).

(** The entries to be replayed. *)
Definition uncovered L : list (WalEntry B) := filter (fun e => covered_ts L < commit_ts e) L.

Definition by_commit L : Prop := StronglySorted Z.lt (commit_ts <$> L).

(** A file that holds [es]. *)
Definition holds (bytes : list Z) es (read : list (WalEntry B)) : Prop :=
  exists ws, log_file es ws /\ bytes = concat ws /\ read = on_disk es ws.

(** ** The iterator *)

(** The iterator returns [es] and then null for ever. *)
Inductive yields : WalListIterator -> list (WalEntry B) -> Prop :=
  | yields_nil it it' :
      WalListIterator_Next (iter_ it) (wal_deque_ it) = Ret (None, it') ->
      WalListIterator_Next (iter_ it') (wal_deque_ it') = Ret (None, it') ->
      yields it []
  | yields_cons it it' e es :
      WalListIterator_Next (iter_ it) (wal_deque_ it) = Ret (Some e, it') -> yields it' es -> yields it (e :: es).

Lemma yields_end i buf : end_ i <= 0 -> buf = buf_ i -> yields (mkWalListIterator (Some i) []) [].
Proof.
  intros Hi _. assert (WalListIterator_Next (Some i) [] = Ret (None, mkWalListIterator (Some i) [] : WalListIterator)) as E.
  { cbn [WalListIterator_Next]. unfold WalEntryIterator_Next.
    assert ((end_ i >? 0) = false) as -> by (rewrite Z.gtb_ltb; by apply Z.ltb_ge). done. }
  by eapply yields_nil.
Qed.

Lemma yields_open it f dq es :
  match it with Some i => end_ i <= 0 | None => True end ->
  yields (mkWalListIterator (Some (WalEntryIterator_Make f)) dq) es -> yields (mkWalListIterator it (f :: dq)) es.
Proof.
  intros Hit Hy.
  assert (WalListIterator_Next it (f :: dq) = WalListIterator_Next (Some (WalEntryIterator_Make f)) dq) as E.
  { cbn [WalListIterator_Next]. destruct it as [i|]; [|done].
    unfold WalEntryIterator_Next at 1.
    assert ((end_ i >? 0) = false) as -> by (rewrite Z.gtb_ltb; by apply Z.ltb_ge). done. }
  inversion Hy; subst; [eapply yields_nil|eapply yields_cons]; simpl in *; rewrite ?E; done.
Qed.

Lemma yields_file es ws post dq rest :
  log_file es ws ->
  yields (mkWalListIterator (Some (mkWalEntryIterator (concat ws ++ post) 0)) dq) rest ->
  yields (mkWalListIterator (Some (mkWalEntryIterator (concat ws ++ post) (Z.of_nat (length (concat ws))))) dq)
    (reverse (on_disk es ws) ++ rest).
Proof.
  intros Hl. revert post. unfold log_file in Hl. revert ws Hl.
  induction es as [|e es IH] using rev_ind; intros ws Hl post Hy.
  { apply Forall2_nil_inv_l in Hl as ->. exact Hy. }
  apply Forall2_app_inv_l in Hl as (ws1 & ws2 & H1 & H2 & ->).
  apply Forall2_cons_inv_l in H2 as (w & ws' & He & Hn & ->). apply Forall2_nil_inv_l in Hn as ->.
  rewrite concat_app in Hy |- *. cbn [concat] in *. rewrite app_nil_r, <- app_assoc in *.
  unfold on_disk. rewrite zip_with_app by (by eapply Forall2_length). cbn [zip_with].
  rewrite reverse_app, <- app_assoc. eapply yields_cons; [|by apply (IH ws1 H1 (w ++ post))].
  cbn [iter_ wal_deque_]. destruct dq; cbn [WalListIterator_Next]; by rewrite (iterator_next e (concat ws1) w post He).
Qed.

Lemma yields_files (files : list (list Z * list (WalEntry B) * list (WalEntry B))) it :
  Forall (fun f => holds f.1.1 f.1.2 f.2) files ->
  match it with Some i => end_ i <= 0 | None => True end ->
  files <> [] \/ it <> None ->
  yields (mkWalListIterator it ((fun f => f.1.1) <$> files)) (concat ((fun f => reverse f.2) <$> files)).
Proof.
  intros Hf. revert it. induction Hf as [|[[b es] r] files (ws & Hl & Eb & Er) Hf IH]; intros it Hit Hne.
  { destruct it as [i|]; [by eapply yields_end|by destruct Hne]. }
  simpl in Hl, Eb, Er. subst. rewrite !fmap_cons. apply yields_open; [done|]. cbn [fst snd concat].
  unfold WalEntryIterator_Make. rewrite <- (app_nil_r (concat ws)) at 1. apply yields_file; [done|].
  apply IH; [simpl; lia|]. by right.
Qed.

(** ** The phases of the replay *)

Lemma upto_after_full es : es = upto_full es ++ after_full es.
Proof. induction es as [|e es IH]; simpl; [done|]. destruct (_ && _)%bool; [done|]. simpl. by f_equal. Qed.

Lemma max_if a b : (if a >? b then a else b) = Z.max b a.
Proof. destruct (a >? b) eqn:E; zbool; lia. Qed.

Definition max_from (mx : Z) es : Z := foldl (fun a e => Z.max a (ckp_ts e)) mx es.

Lemma phase1_spec fuel it es entries paths mx :
  yields it es -> (length es < fuel)%nat ->
  exists it', ReplayPhase1 fuel it entries paths mx =
      Some (Ret (it', entries ++ upto_full es, paths ++ (ckp_path <$> ckps (upto_full es)), max_from mx (ckps (upto_full es)))) /\
    yields it' (after_full es).
Proof.
  intros Hy. revert fuel entries paths mx.
  induction Hy as [it it' E1 E2|it it' e es E1 Hy IH]; intros fuel entries paths mx Hf; (destruct fuel as [|fuel]; [simpl in Hf; lia|]).
  - exists it'. cbn [ReplayPhase1]. rewrite E1. cbn. rewrite !app_nil_r. split; [done|]. by eapply yields_nil.
  - cbn [ReplayPhase1 upto_full after_full]. rewrite E1.
    destruct (IsCheckPoint e) eqn:Ec; cbn [andb].
    + unfold ckps. destruct (GetCheckpointInfo (cmds e)) as [ts path] eqn:Ei. rewrite max_if.
      assert (ckp_ts e = ts /\ ckp_path e = path) as [<- <-] by (unfold ckp_ts, ckp_path; rewrite Ei; done).
      destruct (IsFullCheckPoint e) eqn:Ef.
      * exists it'. rewrite filter_cons_True by done. by rewrite filter_nil.
      * destruct (IH fuel (entries ++ [e]) (paths ++ [ckp_path e]) (Z.max mx (ckp_ts e))) as (it2 & E & Hy2); [simpl in Hf; lia|].
        exists it2. rewrite E, filter_cons_True by done. rewrite fmap_cons, <- !app_assoc. done.
    + destruct (IH fuel (entries ++ [e]) paths mx) as (it2 & E & Hy2); [simpl in Hf; lia|].
      exists it2. rewrite E. unfold ckps. rewrite filter_cons_False by congruence. rewrite <- !app_assoc. done.
Qed.

Fixpoint take_newer (mx : Z) es : list (WalEntry B) :=
  match es with [] => [] | e :: rest => if commit_ts e >? mx then e :: take_newer mx rest else [] end.

Lemma phase2_spec fuel it es entries mx :
  yields it es -> (length es < fuel)%nat ->
  ReplayPhase2 fuel it entries mx = Some (Ret (entries ++ take_newer mx es)).
Proof.
  intros Hy. revert fuel entries.
  induction Hy as [it it' E1 E2|it it' e es E1 Hy IH]; intros fuel entries Hf; (destruct fuel as [|fuel]; [simpl in Hf; lia|]);
    cbn [ReplayPhase2 take_newer]; rewrite E1; [by rewrite app_nil_r|].
  destruct (commit_ts e >? mx); [|by rewrite app_nil_r].
  rewrite IH by (simpl in Hf; lia). by rewrite <- app_assoc.
Qed.

Lemma by_commit_app L1 L2 :
  by_commit (L1 ++ L2) <->
  by_commit L1 /\ by_commit L2 /\ (forall e1 e2, e1 ∈ L1 -> e2 ∈ L2 -> commit_ts e1 < commit_ts e2).
Proof.
  unfold by_commit. rewrite fmap_app. induction L1 as [|a L1 IH]; simpl.
  - split; [|tauto]. intros HL. split_and!; [constructor|done|]. intros e1 e2 He1. by apply elem_of_nil in He1.
  - split.
    + intros [HS HF]%StronglySorted_inv. apply IH in HS as (H1 & H2 & H3). apply Forall_app in HF as [HF1 HF2].
      split_and!; [by constructor|done|]. intros e1 e2 [->|He1]%elem_of_cons He2; [|by apply H3].
      rewrite Forall_forall in HF2. apply HF2. by apply list_elem_of_fmap_2.
    + intros ([H1 HF]%StronglySorted_inv & H2 & H3). constructor.
      * apply IH. split_and!; [done..|]. intros; apply H3; [by right|done].
      * apply Forall_app. split; [done|]. apply Forall_fmap, Forall_forall. intros e He. simpl. apply H3; [by left|done].
Qed.

Lemma SkipCovered_filter mx L : by_commit L -> SkipCovered mx L = filter (fun e => mx < commit_ts e) L.
Proof.
  induction L as [|e L IH]; [done|]. intros Hs. cbn [SkipCovered].
  change (e :: L) with ([e] ++ L) in Hs. apply by_commit_app in Hs as (_ & Hs & Hlt).
  destruct (commit_ts e >? mx) eqn:E; zbool.
  - symmetry. apply list_filter_all. intros x. rewrite elem_of_cons. intros [->|Hx]; [done|].
    specialize (Hlt e x). rewrite list_elem_of_singleton in Hlt. specialize (Hlt eq_refl Hx). lia.
  - rewrite filter_cons_False by lia. by apply IH.
Qed.

Lemma take_newer_split mx es :
  by_commit (reverse es) ->
  filter (fun e => mx < commit_ts e) (reverse es) = filter (fun e => mx < commit_ts e) (reverse (take_newer mx es)).
Proof.
  induction es as [|e es IH]; [done|]. rewrite reverse_cons. intros Hs.
  apply by_commit_app in Hs as (Hs & _ & Hlt). cbn [take_newer]. destruct (commit_ts e >? mx) eqn:E; zbool.
  - rewrite reverse_cons, !filter_app. by rewrite IH.
  - rewrite filter_app, reverse_nil, filter_nil. rewrite filter_cons_False by lia. rewrite filter_nil, app_nil_r.
    apply list_filter_none. intros x Hx. specialize (Hlt x e Hx). rewrite list_elem_of_singleton in Hlt. specialize (Hlt eq_refl). lia.
Qed.

(** ** The replay of an intact log *)

Definition same_entry e e' : Prop := txn_id e' = txn_id e /\ commit_ts e' = commit_ts e /\ cmds e' = cmds e.

Definition dir_holds m (fs : list (list Z * list (WalEntry B) * list (WalEntry B))) : Prop :=
  exists log, wal_log m = Some log /\ (wal_files m).*2 ++ [log] = (fun f => f.1.1) <$> fs /\
    Forall (fun f => holds f.1.1 f.1.2 f.2) fs.

(** The entries of the directory in commit order, as written and as read. *)
Definition written (fs : list (list Z * list (WalEntry B) * list (WalEntry B))) : list (WalEntry B) :=
  concat ((fun f => f.1.2) <$> fs).
Definition as_read (fs : list (list Z * list (WalEntry B) * list (WalEntry B))) : list (WalEntry B) :=
  concat ((fun f => f.2) <$> fs).

Lemma holds_same bytes es rs : holds bytes es rs -> Forall2 same_entry es rs.
Proof.
  intros (ws & Hl & _ & ->). unfold log_file in Hl. unfold on_disk.
  induction Hl as [|e w es ws _ _ IH]; simpl; constructor; [done|exact IH].
Qed.

Lemma dir_same m fs : dir_holds m fs -> Forall2 same_entry (written fs) (as_read fs).
Proof.
  intros (log & _ & _ & Hf). unfold written, as_read. induction Hf as [|f fs Hf _ IH]; [constructor|].
  rewrite !fmap_cons. cbn [concat]. apply Forall2_app; [|done]. by eapply holds_same.
Qed.

Lemma dir_yields m fs :
  dir_holds m fs -> yields (mkWalListIterator None (wal_list m)) (reverse (as_read fs)).
Proof.
  intros (log & El & Ef & Hf). unfold wal_list. rewrite El.
  assert ([log] ++ reverse ((wal_files m).*2) = (fun f => f.1.1) <$> reverse fs) as ->.
  { rewrite fmap_reverse, <- Ef, reverse_app. done. }
  unfold as_read. rewrite reverse_concat_fmap. apply yields_files; [by apply Forall_reverse|done|].
  left. destruct fs as [|f fs]; [by destruct (wal_files m)|]. rewrite reverse_cons. by destruct (reverse fs).
Qed.

Lemma max_from_foldr mx es : 0 <= mx -> max_from mx es = Z.max mx (foldr Z.max 0 (ckp_ts <$> es)).
Proof.
  unfold max_from. revert mx. induction es as [|e es IH]; intros mx Hmx; simpl; [lia|]. rewrite IH by lia.
  rewrite Z.max_assoc. done.
Qed.

Lemma replay_selection mx R :
  by_commit R ->
  SkipCovered mx (reverse (upto_full (reverse R) ++ take_newer mx (after_full (reverse R)))) =
    filter (fun e => mx < commit_ts e) R.
Proof.
  intros Hs. pose proof (upto_after_full (reverse R)) as E. set (r1 := upto_full _) in *. set (r2 := after_full _) in *.
  assert (R = reverse r2 ++ reverse r1) as ER by (rewrite <- reverse_app, <- E; by rewrite reverse_involutive).
  rewrite ER in Hs. apply by_commit_app in Hs as (H2 & H1 & Hlt).
  rewrite ER, filter_app, reverse_app, take_newer_split by done. rewrite <- filter_app.
  apply SkipCovered_filter, by_commit_app. split_and!; [|done|].
  - clear -H2. induction r2 as [|e r2 IH]; simpl; [constructor|]. rewrite reverse_cons in H2.
    apply by_commit_app in H2 as (H2 & He & Hlt). destruct (commit_ts e >? mx); [|constructor].
    rewrite reverse_cons. apply by_commit_app. split_and!; [by apply IH|done|]. intros e1 e2 He1. apply Hlt.
    rewrite elem_of_reverse in *. clear -He1. induction r2 as [|x r2 IH]; simpl in *; [done|].
    destruct (_ >? _); [|by apply elem_of_nil in He1]. rewrite elem_of_cons in *. tauto.
  - intros e1 e2 He1. apply Hlt. rewrite elem_of_reverse in *. clear -He1.
    induction r2 as [|x r2 IH]; simpl in *; [done|].
    destruct (_ >? _); [|by apply elem_of_nil in He1]. rewrite elem_of_cons in *. tauto.
Qed.

Section Target.
Context {C : Type} `{ReplayTarget B C}.

(** Applying the entries that are not checkpoints. *)
Fixpoint replay_all es (c : C) : outcome C :=
  match es with
  | [] => Ret c
  | e :: rest => if IsCheckPoint e then replay_all rest c else c' ← ReplayEntry e c; replay_all rest c'
  end.

Definition start_catalog (paths : list string) : outcome C :=
  match paths with [] => Ret InitNewCatalog | _ => AttachCatalog paths end.

Definition last_of {A} (f : WalEntry B -> A) (d : A) es : A := from_option f d (last es).

Lemma ReplayLoop_all mx es c st la :
  Forall (fun e => mx < commit_ts e) es ->
  ReplayLoop mx es c st la = (c ← replay_all es c; Ret (c, last_of commit_ts st es, last_of txn_id la es)).
Proof.
  intros Hes. revert c st la. induction Hes as [|e es He _ IH]; intros c st la; [done|]. cbn [ReplayLoop replay_all].
  assert ((commit_ts e <=? mx) = false) as -> by (by apply Z.leb_gt).
  assert (forall A (f : WalEntry B -> A) d, last_of f (f e) es = last_of f d (e :: es)) as Hlast.
  { intros A f d. unfold last_of. destruct es as [|e' es]; [done|]. rewrite last_cons_cons.
    destruct (last (e' :: es)) eqn:El; [done|]. by apply last_None in El. }
  destruct (IsCheckPoint e).
  - rewrite IH. by rewrite (Hlast _ commit_ts st), (Hlast _ txn_id la).
  - destruct (ReplayEntry e c) as [c'| |]; cbn [mbind outcome_bind]; [|done..]. rewrite IH.
    by rewrite (Hlast _ commit_ts st), (Hlast _ txn_id la).
Qed.

(** The result of the replay: the catalogs of the checkpoint chain are attached,
    oldest first, and the uncovered entries are applied in commit order. *)
Definition recovered R : outcome (C * Z) :=
  c ← start_catalog (reverse (ckp_path <$> ckp_chain R));
  c ← replay_all (uncovered R) c;
  Ret (SetNextTxnId (last_of txn_id 0 (uncovered R)) c, last_of commit_ts 0 (uncovered R)).

Lemma ReplayWalFile_spec m fs fuel :
  dir_holds m fs -> by_commit (as_read fs) -> wal_log m <> Some [] -> (length (as_read fs) < fuel)%nat ->
  ReplayWalFile fuel m = Some (recovered (as_read fs)).
Proof.
  intros Hd Hs Hne Hf. pose proof Hd as (log & El & _). unfold ReplayWalFile. rewrite El in *.
  destruct log as [|b log]; [done|].
  destruct (phase1_spec fuel _ _ [] [] 0 (dir_yields m fs Hd)) as (it' & E1 & Hy); [by rewrite length_reverse|].
  rewrite E1. set (R := as_read fs) in *.
  assert (length (after_full (reverse R)) < fuel)%nat as Hf2.
  { pose proof (f_equal length (upto_after_full (reverse R))) as El2. rewrite length_reverse, length_app in El2. lia. }
  rewrite (phase2_spec fuel it' _ _ _ Hy Hf2). rewrite !app_nil_l, max_from_foldr by lia.
  fold (ckp_chain R). change (foldr Z.max 0 (ckp_ts <$> ckp_chain R)) with (covered_ts R).
  assert (0 <= covered_ts R) as Hc.
  { unfold covered_ts. generalize (ckp_ts <$> ckp_chain R). intros l. induction l as [|x l IH]; simpl; lia. }
  rewrite Z.max_r by done. cbn [mbind outcome_bind]. f_equal. unfold recovered.
  assert (match ckp_path <$> ckp_chain R with [] => Ret InitNewCatalog | _ => AttachCatalog (reverse (ckp_path <$> ckp_chain R)) end
    = start_catalog (reverse (ckp_path <$> ckp_chain R))) as ->.
  { unfold start_catalog. destruct (ckp_path <$> ckp_chain R) as [|p l]; [done|]. rewrite reverse_cons. by destruct (reverse l). }
  destruct (start_catalog _) as [c| |]; cbn [mbind outcome_bind]; [|done..].
  rewrite replay_selection by done. fold (uncovered R). rewrite ReplayLoop_all.
  - by destruct (replay_all (uncovered R) c).
  - apply Forall_forall. intros e He. unfold uncovered in He. by apply list_elem_of_filter in He as [? _].
Qed.
End Target.

(** ** The invariant of the commit pipeline *)

(** The largest timestamp of a transaction, as the flush loop computes it. *)
Definition lmax_from (a : Z) es : Z := foldl (fun a e => if IsCheckPoint e then a else commit_ts e) a es.
Definition lmax es : Z := lmax_from 0 es.

Definition entry_ok e : Prop := (exists w, encodes e w) /\ cmds e <> [] /\ 0 < commit_ts e.
Definition ok_sent L : Prop := by_commit L /\ Forall entry_ok L.

Definition pending s : list (WalEntry B) := match fpc s with FlushSwapped => que2_ (wm s) | _ => [] end.
Definition todo s : list (WalEntry B) := match fpc s with FlushWritten _ _ l => l | _ => [] end.

(** Each rotated file carries the largest timestamp up to its end. *)
Fixpoint ends_ok (before : list (WalEntry B)) (olds : list (Z * list (WalEntry B))) : Prop :=
  match olds with
  | [] => True
  | (n, es) :: rest => n = lmax (before ++ es) /\ ends_ok (before ++ es) rest
  end.

(** Entries sent so far: those of recycled files [gone], of the rotated files
    [olds], of the current file [cur], and those not yet written. *)
Record flow s (gone : list (WalEntry B)) (olds : list (Z * list (WalEntry B))) (cur pre : list (WalEntry B)) : Prop := {
  fl_run : running_ (wm s) = true;
  fl_forced : forced s = [];
  fl_sent : sent s = (gone ++ concat (olds.*2) ++ cur) ++ pending s ++ que_ (wm s);
  fl_log : exists log r, wal_log (wm s) = Some log /\ holds log cur r;
  fl_files : Forall2 (fun f o => f.1 = o.1 /\ exists r, holds f.2 o.2 r) (wal_files (wm s)) olds;
  fl_done : done_ s ++ todo s = gone ++ concat (olds.*2) ++ cur;
  fl_max : max_commit_ts_ (wm s) = lmax pre;
  fl_pre : pre `prefix_of` done_ s;
  fl_pc : match fpc s with
          | FlushHead => que2_ (wm s) = [] /\ pre = gone ++ concat (olds.*2) ++ cur
          | FlushSwapped => pre = gone ++ concat (olds.*2) ++ cur
          | FlushWritten mx _ _ => mx = lmax (gone ++ concat (olds.*2) ++ cur)
          end;
  fl_names : StronglySorted Z.lt (olds.*1);
  fl_ends : ends_ok gone olds;
}.

(** Checkpoint entries carry increasing timestamps below what was flushed. *)
Record ckp_inv s : Prop := {
  ck_shape : Forall (fun e => IsCheckPoint e = true ->
               exists txn ts mx full path, e = ckp_entry txn ts mx full path) (sent s);
  ck_sorted : StronglySorted Z.le (ckp_ts <$> ckps (sent s));
  ck_max : Forall (fun t => t <= max_commit_ts_ (wm s)) (ckp_ts <$> ckps (sent s));
  ck_before : forall p1 c p2, sent s = p1 ++ c :: p2 -> IsCheckPoint c = true -> ckp_ts c <= lmax p1;
  ck_pc : match cpc s with
          | CkpIdle => True
          | CkpCreated _ mx _ _ => mx <= max_commit_ts_ (wm s) /\ Forall (fun t => t <= mx) (ckp_ts <$> ckps (sent s))
          | CkpWaiting _ mx _ full c =>
              mx = ckp_ts c /\ IsFullCheckPoint c = full /\ IsCheckPoint c = true /\ c ∈ sent s /\
              Forall (fun t => t <= mx) (ckp_ts <$> ckps (sent s))
          end;
}.

(** What was recycled is covered by a full checkpoint that is still in the log. *)
Definition gone_inv (gone : list (WalEntry B)) (olds : list (Z * list (WalEntry B))) (cur : list (WalEntry B)) : Prop :=
  gone = [] \/ exists c, c ∈ concat (olds.*2) ++ cur /\ IsCheckPoint c = true /\ IsFullCheckPoint c = true /\
                         lmax gone < ckp_ts c.

Definition Inv s : Prop :=
  exists gone olds cur pre, flow s gone olds cur pre /\ ckp_inv s /\ gone_inv gone olds cur.

(** *** The largest timestamp *)

Lemma lmax_from_app a p q : lmax_from a (p ++ q) = lmax_from (lmax_from a p) q.
Proof. apply foldl_app. Qed.

Lemma lmax_from_bounds a es :
  by_commit es -> (forall e, e ∈ es -> a <= commit_ts e) ->
  a <= lmax_from a es /\ (forall e, e ∈ es -> IsCheckPoint e = false -> commit_ts e <= lmax_from a es).
Proof.
  unfold lmax_from. revert a. induction es as [|e es IH]; intros a Hs Ha; [split; [simpl; lia|]; by intros ? ?%elem_of_nil|].
  change (e :: es) with ([e] ++ es) in Hs. apply by_commit_app in Hs as (_ & Hs & Hlt).
  assert (a <= commit_ts e) as Hae by (apply Ha; by left).
  assert (forall x, x ∈ es -> commit_ts e < commit_ts x) as Hlt' by (intros x Hx; apply Hlt; [by left|done]).
  cbn [foldl]. destruct (IsCheckPoint e) eqn:E.
  - destruct (IH a Hs) as [Hq1 Hq2]; [intros x Hx; apply Ha; by right|]. split; [done|].
    intros x [->|Hx]%elem_of_cons Hc; [congruence|by apply Hq2].
  - destruct (IH (commit_ts e) Hs) as [Hq1 Hq2]; [intros x Hx; specialize (Hlt' x Hx); lia|]. split; [lia|].
    intros x [->|Hx]%elem_of_cons Hc; [done|by apply Hq2].
Qed.

Lemma lmax_from_cases a es : lmax_from a es = a \/ exists e, e ∈ es /\ IsCheckPoint e = false /\ commit_ts e = lmax_from a es.
Proof.
  unfold lmax_from. revert a. induction es as [|e es IH]; intros a; simpl; [by left|].
  destruct (IsCheckPoint e) eqn:E.
  - destruct (IH a) as [->|(x & Hx & Hr)]; [by left|]. right. exists x. split; [by right|done].
  - destruct (IH (commit_ts e)) as [Hx|(x & Hx & Hr)]; right; [exists e; rewrite Hx; split; [by left|done]|].
    exists x. split; [by right|done].
Qed.

Lemma ok_sent_app p q : ok_sent (p ++ q) -> ok_sent p /\ ok_sent q.
Proof. intros [(Hq1 & Hq2 & _)%by_commit_app [F1 F2]%Forall_app]. done. Qed.

Lemma ok_sent_pos L e : ok_sent L -> e ∈ L -> 0 < commit_ts e.
Proof. intros [_ HF] He. rewrite Forall_forall in HF. by destruct (HF e He) as (_ & _ & ?). Qed.

Lemma lmax_bound L e : ok_sent L -> e ∈ L -> IsCheckPoint e = false -> commit_ts e <= lmax L.
Proof.
  intros Hok He Hc. apply lmax_from_bounds; [apply Hok| |done|done].
  intros x Hx. pose proof (ok_sent_pos L x Hok Hx). lia.
Qed.

Lemma lmax_mono p q : ok_sent (p ++ q) -> lmax p <= lmax (p ++ q).
Proof.
  intros Hok. unfold lmax. rewrite lmax_from_app. pose proof Hok as [(_ & Hq & Hlt)%by_commit_app _].
  apply lmax_from_bounds; [done|]. intros e He.
  destruct (lmax_from_cases 0 p) as [->|(x & Hx & _ & <-)]; [|specialize (Hlt x e Hx He); lia].
  assert (0 < commit_ts e); [|lia]. eapply ok_sent_pos; [done|]. apply elem_of_app. by right.
Qed.

Lemma lmax_mono_prefix p L : ok_sent L -> p `prefix_of` L -> lmax p <= lmax L.
Proof. intros Hok [q ->]. by apply lmax_mono. Qed.

(** *** Writing a batch *)

Lemma entry_head_type e cmd rest :
  cmds e = cmd :: rest ->
  (IsCheckPoint e = true -> exists txn ts mx full path, e = ckp_entry txn ts mx full path) ->
  (GetType cmd =? CHECKPOINT) = IsCheckPoint e.
Proof.
  intros Ec Hs. destruct (IsCheckPoint e) eqn:E.
  - destruct (Hs eq_refl) as (txn & ts & mx & full & path & ->). simpl in Ec. by simplify_eq.
  - unfold IsCheckPoint in E. rewrite Ec in E. cbn [existsb] in E. by apply orb_false_iff in E as [-> _].
Qed.

Lemma holds_app b1 l1 r1 ws l2 : holds b1 l1 r1 -> log_file l2 ws -> exists r, holds (b1 ++ concat ws) (l1 ++ l2) r.
Proof.
  intros (ws1 & Hl1 & -> & ->) Hl2. eexists. exists (ws1 ++ ws). split_and!; [by apply Forall2_app|by rewrite concat_app|done].
Qed.

Lemma FlushLoop_ok es ofs mx sz :
  Forall entry_ok es ->
  Forall (fun e => IsCheckPoint e = true -> exists txn ts mx full path, e = ckp_entry txn ts mx full path) es ->
  exists ws sz', FlushLoop es ofs mx sz = Ret (ofs ++ concat ws, lmax_from mx es, sz') /\ log_file es ws.
Proof.
  intros Hok Hs. revert ofs mx sz. induction Hok as [|e es ((w & He) & Hne & Hpos) _ IH]; intros ofs mx sz.
  { exists [], sz. simpl. rewrite app_nil_r. split; [done|constructor]. }
  apply Forall_cons in Hs as [Hs1 Hs]. specialize (IH Hs). pose proof He as (Hv & Hw & Hlen).
  cbn [FlushLoop lmax_from foldl]. destruct (cmds e) as [|cmd rest] eqn:Ec; [done|].
  rewrite (encodes_size e w He).
  cbn [mbind outcome_bind]. rewrite Hw. cbn [mbind outcome_bind]. rewrite Z.ltb_irrefl.
  rewrite (entry_head_type e cmd rest Ec Hs1).
  assert (to_u64 (commit_ts e) = commit_ts e) as Hts.
  { apply u_wrap_id. unfold u_range. destruct Hv as (_ & Hr & _). unfold s_range in Hr. lia. }
  destruct (IsCheckPoint e) eqn:Ek; cbn [negb]; [|rewrite Hts];
    destruct (IH (ofs ++ w) (if IsCheckPoint e then mx else commit_ts e) (if IsCheckPoint e then sz else to_i64 (sz + Z.of_nat (length w))))
      as (ws & sz' & E & Hl); rewrite Ek in E; exists (w :: ws), sz'; rewrite E; cbn [concat]; rewrite <- app_assoc;
    (split; [done|by constructor]).
Qed.

(** *** Sending an entry *)

Lemma snoc_split {A} (l p1 p2 : list A) x c :
  l ++ [x] = p1 ++ c :: p2 -> (p2 = [] /\ c = x /\ p1 = l) \/ exists p2', p2 = p2' ++ [x] /\ l = p1 ++ c :: p2'.
Proof.
  destruct p2 as [|y p2 _] using rev_ind; intros E.
  - left. by apply app_inj_tail in E as [-> ->].
  - right. exists p2. rewrite app_comm_cons, app_assoc in E. by apply app_inj_tail in E as [-> ->].
Qed.

Lemma ckps_snoc L e : ckps (L ++ [e]) = ckps L ++ (if IsCheckPoint e then [e] else []).
Proof.
  unfold ckps. rewrite filter_app. f_equal. destruct (IsCheckPoint e) eqn:E.
  - by rewrite filter_cons_True, filter_nil.
  - by rewrite filter_cons_False, filter_nil by congruence.
Qed.

Lemma flow_put s gone olds cur pre e : flow s gone olds cur pre -> flow (put s e) gone olds cur pre.
Proof.
  intros F. unfold put, PutEntry. rewrite (fl_run _ _ _ _ _ F). cbn [negb fst].
  destruct F. constructor; simpl; try done. rewrite fl_sent0. unfold pending. simpl. by rewrite !app_assoc.
Qed.

Lemma ckp_put_plain s e : running_ (wm s) = true -> ckp_inv s -> IsCheckPoint e = false -> ckp_inv (put s e).
Proof.
  intros Hr K He. unfold put, PutEntry. rewrite Hr. cbn [negb fst]. destruct K.
  constructor; simpl; rewrite ?ckps_snoc, ?He, ?app_nil_r; try done.
  - apply Forall_app. split; [done|]. constructor; [congruence|constructor].
  - intros p1 c p2 E Hc. apply snoc_split in E as [(_ & -> & _)|(p2' & _ & E)]; [congruence|by eapply ck_before0].
  - destruct (cpc s); try done. destruct ck_pc0 as (? & ? & ? & ? & ?). split_and!; try done.
    apply elem_of_app. by left.
Qed.

Lemma ckp_put_ckp s now mx sz full txn ts path :
  running_ (wm s) = true -> ckp_inv s -> cpc s = CkpCreated now mx sz full -> max_commit_ts_ (wm s) <= lmax (sent s) ->
  let e := ckp_entry txn ts mx full path in
  ckp_inv (put (mkSys (wm s) (fpc s) (CkpWaiting now mx sz full e) (forced s) (sent s) (done_ s)) e).
Proof.
  intros Hr K Ec Hm e. unfold put, PutEntry. cbn [wm fpc cpc forced sent done_]. rewrite Hr. cbn [negb fst].
  destruct K. rewrite Ec in ck_pc0. destruct ck_pc0 as [Hmx Hall].
  assert (IsCheckPoint e = true) as He by done. assert (ckp_ts e = mx) as Et by done.
  constructor; simpl; rewrite ?ckps_snoc, ?He, ?fmap_app; cbn [fmap list_fmap]; rewrite ?Et.
  - apply Forall_app. split; [done|]. constructor; [|constructor]. intros _. by exists txn, ts, mx, full, path.
  - clear -ck_sorted0 Hall. induction (ckp_ts <$> ckps (sent s)) as [|a l IH]; simpl; [repeat constructor|].
    apply StronglySorted_inv in ck_sorted0 as [Hl Ha]. apply Forall_cons in Hall as [Ham Hall].
    constructor; [by apply IH|]. apply Forall_app. split; [done|]. by constructor.
  - apply Forall_app. split; [done|]. by constructor.
  - intros p1 c p2 E Hc. apply snoc_split in E as [(_ & -> & ->)|(p2' & _ & E)]; [rewrite Et; lia|by eapply ck_before0].
  - split_and!; try done.
    + cbn. by destruct full.
    + apply elem_of_app. right. by left.
    + apply Forall_app. split; [done|]. by constructor.
Qed.

(** *** The flush loop *)

Lemma flow_swap s gone olds cur pre :
  flow s gone olds cur pre -> fpc s = FlushHead ->
  flow (mkSys (with_queues (wm s) (que2_ (wm s)) (que_ (wm s)))
          (match que_ (wm s) with [] => FlushHead | _ => FlushSwapped end) (cpc s) (forced s) (sent s) (done_ s))
    gone olds cur pre.
Proof.
  intros F E. destruct F. rewrite E in fl_pc0. destruct fl_pc0 as [Hq Hpre].
  unfold pending, todo in *. rewrite E in *. simpl in *.
  destruct (que_ (wm s)) as [|e q] eqn:Eq; constructor; simpl; rewrite ?Hq; try done.
  by rewrite app_nil_r.
Qed.

Lemma flow_write s gone olds cur pre m' mx sz :
  flow s gone olds cur pre -> ckp_inv s -> ok_sent (sent s) -> fpc s = FlushSwapped ->
  FlushWrite (wm s) = Ret (m', mx, sz) ->
  flow (mkSys m' (FlushWritten mx sz (que2_ m')) (cpc s) (forced s) (sent s) (done_ s)) gone olds (cur ++ que2_ (wm s)) pre /\
  max_commit_ts_ m' = max_commit_ts_ (wm s).
Proof.
  intros F K Hok E Hw. destruct F. unfold pending, todo in *. rewrite E in *.
  destruct fl_log0 as (log & r & El & Hh). unfold FlushWrite, GetWalState in Hw. rewrite El in Hw.
  destruct Hok as [_ Hok]. pose proof (ck_shape _ K) as Hs. rewrite fl_sent0 in Hok, Hs.
  apply Forall_app in Hok as [_ Hok]. apply Forall_app in Hok as [Hok _].
  apply Forall_app in Hs as [_ Hs]. apply Forall_app in Hs as [Hs _].
  destruct (FlushLoop_ok (que2_ (wm s)) log (max_commit_ts_ (wm s)) (wal_size_ (wm s)) Hok Hs) as (ws & sz' & Ef & Hl).
  rewrite Ef in Hw. cbn [mbind outcome_bind] in Hw. simplify_eq. split; [|done].
  constructor; simpl; try done.
  - rewrite fl_sent0. by rewrite <- !app_assoc.
  - destruct (holds_app _ _ _ _ _ Hh Hl) as (r' & Hh'). by exists (log ++ concat ws), r'.
  - rewrite app_nil_r in fl_done0. by rewrite fl_done0, <- !app_assoc.
  - rewrite fl_max0, !app_assoc. unfold lmax. by rewrite <- lmax_from_app, <- !app_assoc.
Qed.

Lemma flow_commit s gone olds cur pre mx sz e todo_ :
  flow s gone olds cur pre -> fpc s = FlushWritten mx sz (e :: todo_) ->
  flow (mkSys (wm s) (FlushWritten mx sz todo_) (cpc s) (forced s) (sent s) (done_ s ++ [e])) gone olds cur pre.
Proof.
  intros F E. destruct F. unfold pending, todo in *. rewrite E in *. constructor; simpl; try done.
  - rewrite <- fl_done0. by rewrite <- app_assoc.
  - by apply prefix_app_r.
Qed.

Lemma om_insert_last {V} (k : Z) (v : V) l : Forall (fun p => p.1 < k) l -> om_insert k v l = l ++ [(k, v)].
Proof.
  induction 1 as [|[k' v'] l Hk _ IH]; simpl in *; [done|].
  assert ((k <? k') = false) as -> by (apply Z.ltb_ge; lia). assert ((k =? k') = false) as -> by (apply Z.eqb_neq; lia).
  by rewrite IH.
Qed.

Lemma ends_ok_bound before olds rest :
  ok_sent (before ++ concat (olds.*2) ++ rest) -> ends_ok before olds ->
  Forall (fun o => o.1 <= lmax (before ++ concat (olds.*2) ++ rest)) olds.
Proof.
  revert before. induction olds as [|[n es] olds IH]; intros before Hok He; [constructor|].
  rewrite fmap_cons in *. cbn [concat snd] in *. rewrite <- app_assoc, app_assoc in *. destruct He as [-> He].
  constructor; [by apply lmax_mono|by apply IH].
Qed.

Lemma ends_ok_snoc before olds n es :
  ends_ok before olds -> n = lmax (before ++ concat (olds.*2) ++ es) -> ends_ok before (olds ++ [(n, es)]).
Proof.
  revert before. induction olds as [|[k l] olds IH]; intros before He Hn; [by simpl in *|].
  destruct He as [-> He]. simpl. split; [done|]. apply IH; [done|]. rewrite fmap_cons in Hn. cbn [concat snd] in Hn.
  by rewrite <- !app_assoc in *.
Qed.

Lemma flow_finish s gone olds cur pre mx sz :
  flow s gone olds cur pre -> ok_sent (sent s) -> fpc s = FlushWritten mx sz [] ->
  (log_too_large (wm s) = true -> mx ∉ (wal_files (wm s)).*1) ->
  mx = lmax (gone ++ concat (olds.*2) ++ cur) /\
  exists olds' cur', concat (olds'.*2) ++ cur' = concat (olds.*2) ++ cur /\
    flow (mkSys (FlushFinish (wm s) mx sz) FlushHead (cpc s) (forced s) (sent s) (done_ s))
      gone olds' cur' (gone ++ concat (olds.*2) ++ cur).
Proof.
  intros F Hok E Hfresh. destruct F. unfold pending, todo in *. rewrite E in *. rewrite app_nil_r in fl_done0.
  destruct fl_log0 as (log & r & El & Hh). split; [done|]. unfold FlushFinish.
  assert (log_too_large (with_queues (wm s) (que_ (wm s)) []) = log_too_large (wm s)) as -> by done.
  destruct (log_too_large (wm s)) eqn:Et.
  - exists (olds ++ [(mx, cur)]), []. rewrite fmap_app, concat_app. cbn [fmap list_fmap concat snd].
    rewrite !app_nil_r. split; [done|]. unfold SwapWalFile. simpl. rewrite El.
    assert (Forall (fun o => o.1 < mx) olds) as Hlt.
    { rewrite fl_sent0 in Hok. apply ok_sent_app in Hok as [Hok _].
      pose proof (ends_ok_bound gone olds cur Hok fl_ends0) as Hb. rewrite Forall_forall in Hb |- *.
      intros o Ho. specialize (Hb o Ho). destruct (decide (o.1 = mx)) as [Heq|]; [|lia].
      destruct (Hfresh eq_refl). rewrite <- Heq. clear -fl_files0 Ho.
      induction fl_files0 as [|f o' fs os [Hf _] _ IH]; [by apply elem_of_nil in Ho|].
      rewrite fmap_cons. apply elem_of_cons. apply elem_of_cons in Ho as [->|Ho]; [by left|right; by apply IH]. }
    assert (Forall (fun p : Z * list Z => p.1 < mx) (wal_files (wm s))) as Hltf.
    { clear -fl_files0 Hlt. induction fl_files0 as [|f o fs os [Hf _] _ IH]; [constructor|].
      apply Forall_cons in Hlt as [? ?]. constructor; [by rewrite Hf|by apply IH]. }
    constructor; simpl; try done.
    + rewrite fl_sent0, fmap_app, concat_app. cbn [fmap list_fmap concat snd]. by rewrite !app_nil_r.
    + exists [], []. split; [done|]. exists []. split_and!; [constructor|done..].
    + rewrite om_insert_last by done. apply Forall2_app; [done|]. constructor; [|constructor]. split; [done|by exists r].
    + rewrite fl_done0, fmap_app, concat_app. cbn [fmap list_fmap concat snd]. by rewrite !app_nil_r.
    + by rewrite fl_done0.
    + rewrite fmap_app, concat_app. cbn [fmap list_fmap concat snd]. by rewrite !app_nil_r.
    + rewrite fmap_app. cbn [fmap list_fmap fst]. clear -fl_names0 Hlt.
      induction olds as [|o olds IH]; simpl; [repeat constructor|]. apply StronglySorted_inv in fl_names0 as [Hs Ho].
      apply Forall_cons in Hlt as [Hlo Hlt]. constructor; [by apply IH|]. apply Forall_app. split; [done|]. by constructor.
    + by apply ends_ok_snoc.
  - exists olds, cur. split; [done|]. constructor; simpl; try done.
    + by exists log, r.
    + by rewrite app_nil_r.
    + by rewrite fl_done0.
Qed.

Lemma ckp_inv_max s s' :
  ckp_inv s -> sent s' = sent s -> cpc s' = cpc s -> max_commit_ts_ (wm s) <= max_commit_ts_ (wm s') -> ckp_inv s'.
Proof.
  intros K Es Ec Hm. destruct K. constructor; rewrite ?Es, ?Ec; try done.
  - eapply Forall_impl; [exact ck_max0|]. intros. simpl in *. lia.
  - destruct (cpc s); try done. destruct ck_pc0. split; [lia|done].
Qed.

(** *** Recycling *)

Lemma sorted_split (M : Z) (olds : list (Z * list (WalEntry B))) :
  StronglySorted Z.lt (olds.*1) ->
  exists o1 o2, olds = o1 ++ o2 /\ Forall (fun o => o.1 < M) o1 /\ Forall (fun o => ~ o.1 < M) o2.
Proof.
  induction olds as [|o olds IH]; intros Hs; [by exists [], []|]. rewrite fmap_cons in Hs.
  apply StronglySorted_inv in Hs as [Hs Ho]. destruct (decide (o.1 < M)).
  - destruct (IH Hs) as (o1 & o2 & -> & Ho1 & Ho2). exists (o :: o1), o2. split_and!; [done|by constructor|done].
  - exists [], (o :: olds). split_and!; [done|constructor|]. constructor; [done|].
    apply Forall_forall. intros x Hx. pose proof (proj1 (Forall_forall _ _) Ho x.1 (list_elem_of_fmap_2 fst olds x Hx)). simpl in *. lia.
Qed.

Lemma ends_ok_app before o1 o2 : ends_ok before (o1 ++ o2) -> ends_ok before o1 /\ ends_ok (before ++ concat (o1.*2)) o2.
Proof.
  revert before. induction o1 as [|[n es] o1 IH]; intros before He; [simpl; by rewrite app_nil_r|].
  destruct He as [-> He]. apply IH in He as [Ha Hb]. simpl. rewrite app_assoc. done.
Qed.

Lemma ends_ok_lmax before o1 :
  ends_ok before o1 -> o1 = [] \/ exists o, o ∈ o1 /\ lmax (before ++ concat (o1.*2)) = o.1.
Proof.
  intros He. destruct o1 as [|[n es] o1 _] using rev_ind; [by left|]. right. exists (n, es).
  apply ends_ok_app in He as [_ [-> _]]. split; [apply elem_of_app; right; by left|].
  rewrite fmap_app, concat_app. cbn [fmap list_fmap concat snd fst]. by rewrite app_nil_r, app_assoc.
Qed.

Lemma recycle_keeps s gone o1 o2 cur pre c M :
  flow s gone (o1 ++ o2) cur pre -> ckp_inv s -> gone_inv gone (o1 ++ o2) cur -> ok_sent (sent s) ->
  c ∈ gone ++ concat ((o1 ++ o2).*2) ++ cur -> IsCheckPoint c = true -> ckp_ts c = M ->
  Forall (fun t => t <= M) (ckp_ts <$> ckps (sent s)) -> Forall (fun o => o.1 < M) o1 ->
  lmax (gone ++ concat (o1.*2)) < M \/ gone ++ concat (o1.*2) = [].
Proof.
  intros F K G Hok Hc Hck HM Hall H1. destruct (ends_ok_lmax gone o1) as [->|(o & Ho & ->)].
  - by apply (ends_ok_app gone o1 o2), (fl_ends _ _ _ _ _ F).
  - rewrite app_nil_r. destruct G as [->|(c' & Hc' & Hk & _ & Hlt)]; [by right|]. left.
    rewrite Forall_forall in Hall. eapply Z.lt_le_trans; [exact Hlt|]. apply Hall, list_elem_of_fmap_2, list_elem_of_filter.
    split; [done|]. rewrite (fl_sent _ _ _ _ _ F). apply elem_of_app. left. apply elem_of_app. by right.
  - left. rewrite Forall_forall in H1. by apply H1.
Qed.

Lemma ckp_not_recycled s G rest c :
  ckp_inv s -> ok_sent (sent s) -> sent s = G ++ rest -> IsCheckPoint c = true -> lmax G < ckp_ts c \/ G = [] -> c ∉ G.
Proof.
  intros K Hok Es Hc Hlt Hin. destruct Hlt as [Hlt| ->]; [|by apply elem_of_nil in Hin].
  apply list_elem_of_split in Hin as (g1 & g2 & ->).
  pose proof (ck_before _ K g1 c (g2 ++ rest)) as Hb. rewrite Es in Hb, Hok. rewrite <- app_assoc in Hb. specialize (Hb eq_refl Hc).
  apply ok_sent_app in Hok as [Hok _]. pose proof (lmax_mono _ _ Hok). lia.
Qed.

Lemma flow_recycle s gone olds cur pre c M ckp' :
  flow s gone olds cur pre -> ckp_inv s -> gone_inv gone olds cur -> ok_sent (sent s) ->
  c ∈ done_ s -> IsCheckPoint c = true -> IsFullCheckPoint c = true -> ckp_ts c = M -> s_range 64 M ->
  Forall (fun t => t <= M) (ckp_ts <$> ckps (sent s)) ->
  exists gone' olds',
    flow (mkSys (RecycleWalFile (with_ckp (wm s) ckp') M) (fpc s) CkpIdle (forced s) (sent s) (done_ s)) gone' olds' cur pre /\
    gone_inv gone' olds' cur.
Proof.
  intros F K G Hok Hc Hck Hfull HM Hr Hall. pose proof F as F0. destruct F.
  destruct (sorted_split M olds fl_names0) as (o1 & o2 & -> & Ho1 & Ho2).
  assert (c ∈ gone ++ concat ((o1 ++ o2).*2) ++ cur) as HcW by (rewrite <- fl_done0; apply elem_of_app; by left).
  pose proof (recycle_keeps s gone o1 o2 cur pre c M F0 K G Hok HcW Hck HM Hall Ho1) as Hlt.
  rewrite fmap_app, concat_app in *. set (G' := gone ++ concat (o1.*2)) in *.
  assert (gone ++ (concat (o1.*2) ++ concat (o2.*2)) ++ cur = G' ++ concat (o2.*2) ++ cur) as EW
    by (unfold G'; by rewrite <- !app_assoc).
  rewrite EW in *. exists G', o2. split.
  - apply Forall2_app_inv_r in fl_files0 as (f1 & f2 & Hf1 & Hf2 & Ef).
    destruct fl_log0 as (log & r & El & Hh). unfold RecycleWalFile. simpl. rewrite El.
    unfold to_i64. rewrite s_wrap_id by (done || lia).
    assert (filter (fun f => ~ f.1 < M) (wal_files (wm s)) = f2) as Efil.
    { rewrite Ef, filter_app, list_filter_none, list_filter_all; [done|..].
      - clear -Hf2 Ho2. induction Hf2 as [|f o f2 o2 [E _] _ IH]; intros x Hx; [by apply elem_of_nil in Hx|].
        apply Forall_cons in Ho2 as [? ?]. apply elem_of_cons in Hx as [->|Hx]; [by rewrite E|by apply IH].
      - clear -Hf1 Ho1. induction Hf1 as [|f o f1 o1 [E _] _ IH]; intros x Hx; [by apply elem_of_nil in Hx|].
        apply Forall_cons in Ho1 as [? ?]. apply elem_of_cons in Hx as [->|Hx]; [rewrite E; tauto|by apply IH]. }
    apply ends_ok_app in fl_ends0 as [_ He].
    constructor; simpl; rewrite ?Efil; try done.
    + by exists log, r.
    + clear -fl_names0. rewrite fmap_app in fl_names0. induction (o1.*1) as [|a l IH]; [done|]. by apply StronglySorted_inv in fl_names0 as [? _]; apply IH.
  - destruct Hlt as [Hlt|Hlt]; [|by left]. right. exists c. split_and!; [|done|done|lia].
    apply elem_of_app in HcW as [Hin|Hin]; [|done].
    destruct (ckp_not_recycled s G' ((concat (o2.*2) ++ cur) ++ pending s ++ que_ (wm s)) c K Hok); [|done|by left; rewrite HM|done].
    rewrite fl_sent0. by rewrite <- !app_assoc.
Qed.

(** *** Every step preserves the invariant *)

(** No rotation replaces a file of an earlier rotation. *)
Definition fresh_swap s (a : action B) : Prop :=
  match a, fpc s with
  | AFinish, FlushWritten mx _ [] => log_too_large (wm s) = true -> mx ∉ (wal_files (wm s)).*1
  | _, _ => True
  end.

Fixpoint fresh_swaps s (acts : list (action B)) : Prop :=
  match acts with
  | [] => True
  | a :: rest => fresh_swap s a /\ match exec s a with Some s' => fresh_swaps s' rest | None => True end
  end.

Definition not_forced (a : action B) : Prop := match a with AForceBegin => False | _ => True end.

Lemma flow_max_sent s gone olds cur pre :
  flow s gone olds cur pre -> ok_sent (sent s) -> max_commit_ts_ (wm s) <= lmax (sent s).
Proof.
  intros F Hok. rewrite (fl_max _ _ _ _ _ F). apply lmax_mono_prefix; [done|].
  rewrite (fl_sent _ _ _ _ _ F), <- (fl_done _ _ _ _ _ F). rewrite <- app_assoc.
  apply prefix_app_r, (fl_pre _ _ _ _ _ F).
Qed.

Lemma by_commit_inj L e1 e2 : by_commit L -> e1 ∈ L -> e2 ∈ L -> commit_ts e1 = commit_ts e2 -> e1 = e2.
Proof.
  induction L as [|x L IH]; intros Hs H1 H2 E; [by apply elem_of_nil in H1|].
  change (x :: L) with ([x] ++ L) in Hs. apply by_commit_app in Hs as (_ & Hs & Hlt).
  apply elem_of_cons in H1 as [->|H1], H2 as [->|H2]; [done|..].
  - specialize (Hlt x e2 ltac:(by left) H2). lia.
  - specialize (Hlt x e1 ltac:(by left) H1). lia.
  - by apply IH.
Qed.

Lemma done_sent s gone olds cur pre e : flow s gone olds cur pre -> e ∈ done_ s -> e ∈ sent s.
Proof.
  intros F He. rewrite (fl_sent _ _ _ _ _ F), <- (fl_done _ _ _ _ _ F). apply elem_of_app. left.
  apply elem_of_app. by left.
Qed.

Lemma ckp_ts_range L c : ok_sent L -> c ∈ L -> (exists txn ts mx full path, c = ckp_entry txn ts mx full path) -> s_range 64 (ckp_ts c).
Proof.
  intros [_ HF] Hc (txn & ts & mx & full & path & ->). rewrite Forall_forall in HF.
  destruct (HF _ Hc) as ((w & (_ & _ & Hv & _) & _) & _). apply Forall_cons in Hv as [[Hv _] _]. exact Hv.
Qed.

Lemma exec_ckp_end s s' now mx sz full c :
  Inv s -> ok_sent (sent s) -> cpc s = CkpWaiting now mx sz full c ->
  existsb (fun d => commit_ts d =? commit_ts c) (done_ s) = true ->
  s' = mkSys (CheckpointEnd (wm s) now mx sz full) (fpc s) CkpIdle (forced s) (sent s) (done_ s) -> Inv s'.
Proof.
  intros (gone & olds & cur & pre & F & K & G) Hok Ec Hd ->.
  pose proof (ck_pc _ K) as Hp. rewrite Ec in Hp. destruct Hp as (-> & Hfull & Hck & Hin & Hall).
  apply existsb_exists in Hd as (d & Hd%list_elem_of_In & Heq). apply Z.eqb_eq in Heq.
  assert (d = c) as -> by (eapply by_commit_inj; [apply Hok|by eapply done_sent|done|done]).
  assert (forall m', max_commit_ts_ m' = max_commit_ts_ (wm s) ->
    ckp_inv (mkSys m' (fpc s) CkpIdle (forced s) (sent s) (done_ s))) as K'.
  { intros m' Em. destruct K. constructor; simpl; rewrite ?Em; done. }
  unfold CheckpointEnd. destruct full.
  - destruct (flow_recycle s gone olds cur pre c (ckp_ts c) (mkCkpState (ckp_ts c) sz now sz now)) as (g' & o' & F' & G'); try done.
    { eapply ckp_ts_range; [done|done|]. pose proof (ck_shape _ K) as Hs. rewrite Forall_forall in Hs. by apply Hs. }
    exists g', o', cur, pre. split_and!; [done| |done]. apply K'. unfold RecycleWalFile. simpl. by destruct (wal_log (wm s)).
  - exists gone, olds, cur, pre. split_and!; [|by apply K'|done]. destruct F. by constructor.
Qed.

Lemma exec_finish s s' mx sz :
  Inv s -> ok_sent (sent s) -> fpc s = FlushWritten mx sz [] ->
  (log_too_large (wm s) = true -> mx ∉ (wal_files (wm s)).*1) ->
  s' = mkSys (FlushFinish (wm s) mx sz) FlushHead (cpc s) (forced s) (sent s) (done_ s) -> Inv s'.
Proof.
  intros (gone & olds & cur & pre & F & K & G) Hok E Hfr ->.
  destruct (flow_finish s gone olds cur pre mx sz F Hok E Hfr) as (Hmx & olds' & cur' & Ew & F').
  exists gone, olds', cur', (gone ++ concat (olds.*2) ++ cur). split_and!; [done| |].
  - apply (ckp_inv_max s); [done..|]. rewrite (fl_max _ _ _ _ _ F'), (fl_max _ _ _ _ _ F).
    apply lmax_mono_prefix.
    + rewrite (fl_sent _ _ _ _ _ F) in Hok. by apply ok_sent_app in Hok as [? _].
    + rewrite <- (fl_done _ _ _ _ _ F). apply prefix_app_r, (fl_pre _ _ _ _ _ F).
  - unfold gone_inv in *. by rewrite Ew.
Qed.

Lemma exec_inv s a s' :
  Inv s -> exec s a = Some s' -> ok_sent (sent s') -> not_forced a -> fresh_swap s a -> Inv s' /\ sent s `prefix_of` sent s'.
Proof.
  intros I E Hok Hnf Hfr. pose proof I as (gone & olds & cur & pre & F & K & G). pose proof (fl_run _ _ _ _ _ F) as Hrun.
  destruct a as [e| | | | |now|txn ts path| | |txn ts path]; simpl in E, Hnf; try done.
  - destruct (IsCheckPoint e) eqn:He; [done|]. simplify_eq. split; [|by exists [e]].
    exists gone, olds, cur, pre. split_and!; [by apply flow_put|by apply ckp_put_plain|done].
  - destruct (fpc s) eqn:Ef; try done. rewrite Hrun in E. simplify_eq. split; [|done].
    exists gone, olds, cur, pre. split_and!; [by apply flow_swap| |done]. by apply (ckp_inv_max s).
  - destruct (fpc s) eqn:Ef; try done. destruct (FlushWrite (wm s)) as [[[m' mx] sz]| |] eqn:Ew; [|done..]. simplify_eq.
    split; [|done]. destruct (flow_write s gone olds cur pre m' mx sz F K Hok Ef Ew) as [F' Em].
    exists gone, olds, (cur ++ que2_ (wm s)), pre. split_and!; [done| |].
    + apply (ckp_inv_max s); [done..|]. simpl. lia.
    + destruct G as [->|(c & Hc & Hrest)]; [by left|]. right. exists c. split; [|done]. rewrite app_assoc. apply elem_of_app. by left.
  - destruct (fpc s) as [| |mx sz [|e l]] eqn:Ef; try done. simplify_eq. split; [|done].
    exists gone, olds, cur, pre. split_and!; [by apply flow_commit| |done]. by apply (ckp_inv_max s).
  - destruct (fpc s) as [| |mx sz [|e l]] eqn:Ef; try done. simplify_eq. split; [|done].
    unfold fresh_swap in Hfr. rewrite Ef in Hfr. by eapply exec_finish.
  - destruct (cpc s) eqn:Ec; try done. destruct (CheckpointDecide (wm s) now); try done. simplify_eq. split; [|done].
    exists gone, olds, cur, pre. split_and!; [| |done].
    + destruct F. by constructor.
    + destruct K. constructor; simpl; try done.
  - destruct (cpc s) as [|now mx sz full|] eqn:Ec; try done. simplify_eq.
    assert (sent s `prefix_of` sent s ++ [ckp_entry txn ts mx full path]) as Hpre by (by exists [ckp_entry txn ts mx full path]).
    split; [|done]. exists gone, olds, cur, pre. split_and!; [| |done].
    + apply flow_put. destruct F. by constructor.
    + apply ckp_put_ckp; [done..|]. eapply flow_max_sent; [done|]. destruct Hpre as [q Eq]. simpl in Hok. by apply ok_sent_app in Hok as [? _].
  - destruct (cpc s) eqn:Ec; try done. destruct (existsb _ _) eqn:Eb; [|done]. simplify_eq. split; [|done].
    by eapply exec_ckp_end.
  - rewrite (fl_forced _ _ _ _ _ F) in E. done.
Qed.

Lemma exec_sent s a s' : exec s a = Some s' -> sent s `prefix_of` sent s'.
Proof.
  destruct a; simpl; intros E; repeat (destruct_match_in E; simplify_eq; try done); simplify_eq; simpl; try done; by eexists.
Qed.

Lemma run_sent s acts s' : run s acts = Some s' -> sent s `prefix_of` sent s'.
Proof.
  revert s. induction acts as [|a acts IH]; intros s; simpl; [by intros [= ->]|].
  destruct (exec s a) as [s1|] eqn:E; [|done]. intros Hr. etrans; [by eapply exec_sent|by apply IH].
Qed.

Lemma run_inv s acts s' :
  Inv s -> run s acts = Some s' -> ok_sent (sent s') -> Forall not_forced acts -> fresh_swaps s acts -> Inv s'.
Proof.
  intros I Hr Hok Hnf. revert s I Hr. induction Hnf as [|a acts Ha _ IH]; intros s I Hr Hfr; simpl in Hr; [by simplify_eq|].
  destruct (exec s a) as [s1|] eqn:E; [|done]. destruct Hfr as [Hf1 Hf2]. rewrite E in Hf2.
  apply (IH s1); [|done|done]. eapply exec_inv; try done.
  destruct (run_sent _ _ _ Hr) as [q Eq]. rewrite Eq in Hok. by apply ok_sent_app in Hok as [? _].
Qed.

Lemma init_inv cfg now : Inv (init_sys cfg now).
Proof.
  exists [], [], [], []. split_and!; [constructor|constructor|by left]; simpl; try done; try constructor; try done.
  - exists []. exists []. split; [done|]. exists []. split_and!; [constructor|done..].
  - intros p1 c p2 E. by destruct p1.
Qed.

(** *** From the invariant to the recovered log *)

(** The directory in which some of the rotated files are left. *)
Lemma flow_dir s gone olds cur pre (kept : Z -> bool) m :
  flow s gone olds cur pre -> wal_log m = wal_log (wm s) -> wal_files m = filter (fun f => kept f.1 = true) (wal_files (wm s)) ->
  exists fs, dir_holds m fs /\ written fs = concat ((filter (fun o => kept o.1 = true) olds).*2) ++ cur.
Proof.
  intros F Em Ef. destruct (fl_log _ _ _ _ _ F) as (log & r & El & Hh).
  assert (exists fs, (wal_files m).*2 = (fun f => f.1.1) <$> fs /\
    Forall (fun f : list Z * list (WalEntry B) * list (WalEntry B) => holds f.1.1 f.1.2 f.2) fs /\
    (fun f => f.1.2) <$> fs = (filter (fun o => kept o.1 = true) olds).*2) as (fs & E1 & Hf & E2).
  { pose proof (fl_files _ _ _ _ _ F) as Hff. rewrite Ef. clear -Hff.
    induction Hff as [|f o fl ol (En & r' & Hr) _ (fs & E1 & Hf & E2)]; [exists []; split_and!; done || constructor|].
    destruct (kept o.1) eqn:Ek; [|rewrite !filter_cons_False by congruence; by exists fs].
    rewrite !filter_cons_True by congruence.
    exists ((f.2, o.2, r') :: fs). rewrite !fmap_cons, E1, E2. split; [done|]. split; [by constructor|done]. }
  exists (fs ++ [(log, cur, r)]). split.
  - exists log. split; [congruence|]. rewrite fmap_app, E1. split; [done|]. apply Forall_app. split; [done|by constructor].
  - unfold written. rewrite fmap_app, concat_app, E2. cbn [fmap list_fmap concat fst snd]. by rewrite app_nil_r.
Qed.

Lemma same_keys L R :
  Forall2 same_entry L R ->
  commit_ts <$> L = commit_ts <$> R /\ ckp_ts <$> ckps L = ckp_ts <$> ckps R /\ length L = length R.
Proof.
  induction 1 as [|e e' L R (_ & Et & Ec) _ (I1 & I2 & I3)]; [done|]. rewrite !fmap_cons, Et, I1. cbn [length]. rewrite I3.
  split_and!; [done| |done]. unfold ckps in *. assert (IsCheckPoint e' = IsCheckPoint e) as Ek by (unfold IsCheckPoint; by rewrite Ec).
  destruct (IsCheckPoint e) eqn:E.
  - rewrite !filter_cons_True by done. rewrite !fmap_cons, I2. unfold ckp_ts at 1 3. by rewrite Ec.
  - by rewrite !filter_cons_False by congruence.
Qed.

Lemma elem_same L R e : Forall2 same_entry L R -> e ∈ L -> exists e', e' ∈ R /\ same_entry e e'.
Proof.
  induction 1 as [|x y L R Hx _ IH]; intros He; [by apply elem_of_nil in He|].
  apply elem_of_cons in He as [->|He]; [exists y; split; [by left|done]|].
  destruct (IH He) as (e' & Hin & Hs). exists e'. split; [by right|done].
Qed.

Lemma elem_same_r L R e' : Forall2 same_entry L R -> e' ∈ R -> exists e, e ∈ L /\ same_entry e e'.
Proof.
  induction 1 as [|x y L R Hx _ IH]; intros He; [by apply elem_of_nil in He|].
  apply elem_of_cons in He as [->|He]; [exists x; split; [by left|done]|].
  destruct (IH He) as (e & Hin & Hs). exists e. split; [by right|done].
Qed.

Lemma same_ckp e e' :
  same_entry e e' -> IsCheckPoint e' = IsCheckPoint e /\ IsFullCheckPoint e' = IsFullCheckPoint e /\
    ckp_ts e' = ckp_ts e /\ ckp_path e' = ckp_path e.
Proof. intros (_ & _ & E). unfold IsCheckPoint, IsFullCheckPoint, ckp_ts, ckp_path. by rewrite E. Qed.

Lemma foldr_max_elem (l : list Z) : foldr Z.max 0 l = 0 \/ foldr Z.max 0 l ∈ l.
Proof.
  induction l as [|x l IH]; simpl; [by left|]. destruct (Z.max_spec x (foldr Z.max 0 l)) as [[_ ->]|[_ ->]].
  - destruct IH as [->|]; [by left|right; by right].
  - right. by left.
Qed.

Lemma foldr_max_ge (l : list Z) x : x ∈ l -> x <= foldr Z.max 0 l.
Proof. induction l as [|y l IH]; intros Hx; [by apply elem_of_nil in Hx|]. simpl. apply elem_of_cons in Hx as [->|Hx]; [lia|]. specialize (IH Hx). lia. Qed.

(** A full checkpoint of the log is at most as new as one of the chain. *)
Lemma full_covered R c :
  StronglySorted Z.le (ckp_ts <$> ckps R) -> c ∈ R -> IsCheckPoint c = true -> IsFullCheckPoint c = true ->
  ckp_ts c <= covered_ts R.
Proof.
  intros Hs Hc Hk Hf. unfold covered_ts, ckp_chain.
  assert (c ∈ upto_full (reverse R) \/ exists f, f ∈ upto_full (reverse R) /\ IsCheckPoint f = true /\ c ∈ after_full (reverse R)) as Hcase.
  { apply elem_of_reverse in Hc. clear Hs. induction (reverse R) as [|x l IH]; [by apply elem_of_nil in Hc|]. simpl.
    apply elem_of_cons in Hc as [->|Hc].
    - rewrite Hk, Hf. left. by left.
    - destruct (IsCheckPoint x && IsFullCheckPoint x)%bool eqn:E.
      + right. exists x. apply andb_true_iff in E as [? _]. split_and!; [by left|done|done].
      + destruct (IH Hc) as [?|(f & ? & ? & ?)]; [left; by right|]. right. exists f. split_and!; [by right|done|done]. }
  destruct Hcase as [Hin|(f & Hin & Hfk & Haft)].
  - apply foldr_max_ge, list_elem_of_fmap_2, list_elem_of_filter. done.
  - etrans; [|apply (foldr_max_ge _ (ckp_ts f)), list_elem_of_fmap_2, list_elem_of_filter; done].
    pose proof (upto_after_full (reverse R)) as E. apply (f_equal reverse) in E. rewrite reverse_involutive, reverse_app in E.
    rewrite E in Hs. unfold ckps in Hs. rewrite filter_app, fmap_app in Hs.
    assert (ckp_ts c ∈ ckp_ts <$> ckps (reverse (after_full (reverse R)))) as H1.
    { apply list_elem_of_fmap_2, list_elem_of_filter. rewrite elem_of_reverse. done. }
    assert (ckp_ts f ∈ ckp_ts <$> ckps (reverse (upto_full (reverse R)))) as H2.
    { apply list_elem_of_fmap_2, list_elem_of_filter. rewrite elem_of_reverse. done. }
    unfold ckps in *. revert Hs H1 H2. generalize (ckp_ts <$> filter (fun e => IsCheckPoint e = true) (reverse (upto_full (reverse R)))).
    generalize (ckp_ts <$> filter (fun e => IsCheckPoint e = true) (reverse (after_full (reverse R)))). clear.
    intros l1 l2 Hs H1 H2. induction l1 as [|x l1 IH]; [by apply elem_of_nil in H1|]. simpl in Hs.
    apply StronglySorted_inv in Hs as [Hs Hx]. apply elem_of_cons in H1 as [->|H1]; [|by apply IH].
    rewrite Forall_forall in Hx. apply Hx, elem_of_app. by right.
Qed.

(** A catalog that records what the recovery does. *)
#[local] Instance trace_target : ReplayTarget B (list string * list (WalEntry B)) := {
  InitNewCatalog := ([], []);
  AttachCatalog paths := Ret (paths, []);
  ReplayEntry e c := Ret (c.1, c.2 ++ [e]);
  SetNextTxnId _ c := c;
}.

Lemma trace_replay es (c : list string * list (WalEntry B)) :
  replay_all es c = Ret (c.1, c.2 ++ filter (fun e => IsCheckPoint e = false) es).
Proof.
  revert c. induction es as [|e es IH]; intros c; simpl; [by rewrite filter_nil, app_nil_r; destruct c|].
  destruct (IsCheckPoint e) eqn:E.
  - rewrite IH. by rewrite filter_cons_False by congruence.
  - rewrite IH, filter_cons_True by done. simpl. by rewrite <- app_assoc.
Qed.

Lemma trace_recovered R :
  recovered (C := list string * list (WalEntry B)) R =
    Ret (reverse (ckp_path <$> ckp_chain R), filter (fun e => IsCheckPoint e = false) (uncovered R), last_of commit_ts 0 (uncovered R)).
Proof.
  unfold recovered. assert (start_catalog (C := list string * list (WalEntry B)) (reverse (ckp_path <$> ckp_chain R)) =
    Ret (reverse (ckp_path <$> ckp_chain R), [])) as -> by (unfold start_catalog; by destruct (reverse _)).
  cbn [mbind outcome_bind]. rewrite trace_replay. done.
Qed.

Lemma sorted_sublist {X} (Rel : X -> X -> Prop) l k : l `sublist_of` k -> StronglySorted Rel k -> StronglySorted Rel l.
Proof.
  induction 1 as [|x l k Hlk IH|x l k _ IH]; intros Hs; [done| |]; apply StronglySorted_inv in Hs as [Hs Hx]; [|by apply IH].
  constructor; [by apply IH|]. rewrite Forall_forall in Hx |- *. intros y Hy. apply Hx. by eapply elem_of_sublist.
Qed.

Lemma ckps_sublist L1 L2 : L1 `sublist_of` L2 -> ckps L1 `sublist_of` ckps L2.
Proof.
  unfold ckps. induction 1 as [|x l k _ IH|x l k _ IH]; [done| |]; rewrite !filter_cons; destruct (decide _); [by apply sublist_skip|done|by apply sublist_cons|done].
Qed.

Lemma concat_kept (kept : Z -> bool) (olds : list (Z * list (WalEntry B))) :
  concat ((filter (fun o => kept o.1 = true) olds).*2) `sublist_of` concat (olds.*2).
Proof.
  induction olds as [|o olds IH]; [done|]. destruct (kept o.1) eqn:E.
  - rewrite filter_cons_True by done. rewrite !fmap_cons. cbn [concat]. by apply sublist_app.
  - rewrite filter_cons_False by congruence. rewrite fmap_cons. cbn [concat]. by apply sublist_inserts_l.
Qed.

(** Where a transaction is found after a restart. *)
Lemma covered_or_not W R e :
  Forall2 same_entry W R -> StronglySorted Z.le (ckp_ts <$> ckps R) -> 0 < commit_ts e ->
  e ∈ W \/ (exists c, c ∈ W /\ IsCheckPoint c = true /\ IsFullCheckPoint c = true /\ commit_ts e <= ckp_ts c) ->
  (exists e', e' ∈ uncovered R /\ same_entry e e') \/ commit_ts e <= covered_ts R /\ 0 < covered_ts R.
Proof.
  intros HR Hs Hpos [Hin|(c & Hc & Hck & Hcf & Hle)].
  - destruct (elem_same _ _ e HR Hin) as (e' & Hin' & Hsame). pose proof Hsame as (_ & Et & _).
    destruct (decide (covered_ts R < commit_ts e')); [left|right; lia].
    exists e'. split; [|done]. unfold uncovered. by apply list_elem_of_filter.
  - right. destruct (elem_same _ _ c HR Hc) as (c' & Hc' & Hsame). destruct (same_ckp c c' Hsame) as (E1 & E2 & E3 & _).
    pose proof (full_covered R c' Hs Hc' ltac:(congruence) ltac:(congruence)) as Hcov. lia.
Qed.

(** What recovery finds in a directory with some of the entries that were sent, if what is
    missing is covered by a full checkpoint that is there. *)
Lemma recovery_enough s m fs fuel :
  dir_holds m fs -> written fs `sublist_of` sent s -> ckp_inv s -> ok_sent (sent s) -> wal_log m <> Some [] -> (length (sent s) < fuel)%nat -> (forall e, e ∈ done_ s -> e ∈ sent s) ->
  (forall e, e ∈ done_ s -> IsCheckPoint e = false -> e ∈ written fs \/
     exists c, c ∈ written fs /\ IsCheckPoint c = true /\ IsFullCheckPoint c = true /\ commit_ts e <= ckp_ts c) ->
  exists paths es start,
    ReplayWalFile fuel m = Some (Ret (paths, es, start)) /\
    (forall e, e ∈ done_ s -> IsCheckPoint e = false ->
       (exists e', e' ∈ es /\ same_entry e e') \/
       (exists c, c ∈ sent s /\ IsCheckPoint c = true /\ ckp_path c ∈ paths /\ commit_ts e <= ckp_ts c)) /\
    (forall e', e' ∈ es -> exists e, e ∈ sent s /\ IsCheckPoint e = false /\ same_entry e e').
Proof.
  intros Hd Hsub K Hok Hne Hfuel Hds Hdone. pose proof (dir_same _ _ Hd) as HR. destruct (same_keys _ _ HR) as (Et & Eks & El).
  assert (forall e, e ∈ written fs -> e ∈ sent s) as Hin by (intros e He; by eapply elem_of_sublist).
  set (R := as_read fs) in *.
  assert (by_commit R) as Hby by (unfold by_commit; rewrite <- Et; eapply sorted_sublist; [by apply fmap_sublist|apply Hok]).
  assert (StronglySorted Z.le (ckp_ts <$> ckps R)) as Hs.
  { rewrite <- Eks. eapply sorted_sublist; [apply fmap_sublist|apply (ck_sorted _ K)]. by apply ckps_sublist. }
  do 3 eexists. split_and!.
  - rewrite (ReplayWalFile_spec m fs fuel Hd); [by rewrite trace_recovered|done|done|].
    fold R. rewrite <- El. eapply Nat.le_lt_trans; [by apply sublist_length|exact Hfuel].
  - intros e He Hk. assert ((exists e', e' ∈ uncovered R /\ same_entry e e') \/ commit_ts e <= covered_ts R /\ 0 < covered_ts R) as [(e' & Hin' & Hse)|[Hle Hpos]].
    { apply (covered_or_not (written fs)); [done|done| |by apply Hdone]. eapply ok_sent_pos; [exact Hok|by apply Hds]. }
    + left. exists e'. split; [|done]. apply list_elem_of_filter. split; [|done]. destruct (same_ckp _ _ Hse) as (-> & _). done.
    + right. destruct (foldr_max_elem (ckp_ts <$> ckp_chain R)) as [Hz|Hm]; [unfold covered_ts in Hpos; lia|].
      apply list_elem_of_fmap in Hm as (c' & Ec & Hc'). pose proof Hc' as Hc2. apply list_elem_of_filter in Hc2 as [Hck Hup].
      assert (c' ∈ R) as HcR.
      { apply elem_of_reverse. rewrite (upto_after_full (reverse R)). apply elem_of_app. by left. }
      destruct (elem_same_r _ _ c' HR HcR) as (c & Hc & Hse). destruct (same_ckp _ _ Hse) as (E1 & _ & E3 & E4).
      exists c. split_and!; [by apply Hin|congruence|rewrite <- E4; apply elem_of_reverse; by apply list_elem_of_fmap_2|unfold covered_ts in Hle; lia].
  - intros e' [Hk' Hi]%list_elem_of_filter. apply list_elem_of_filter in Hi as [_ Hi].
    destruct (elem_same_r _ _ e' HR Hi) as (e & He & Hse). destruct (same_ckp _ _ Hse) as (E1 & _).
    exists e. split_and!; [by apply Hin|congruence|done].
Qed.

(** A stop inside of a step of the flush thread is a stop after a step in which fewer
    entries were in the batch. *)
Lemma flushing_flow s gone olds cur pre m :
  flow s gone olds cur pre -> ckp_inv s -> gone_inv gone olds cur -> ok_sent (sent s) -> flushing s m -> wal_log m <> None ->
  exists s' cur', flow s' gone olds cur' pre /\ ckp_inv s' /\ gone_inv gone olds cur' /\
    wal_log (wm s') = wal_log m /\ wal_files (wm s') = wal_files m /\ sent s' = sent s /\ done_ s' = done_ s /\ cpc s' = cpc s.
Proof.
  intros F K G Hok [|j m' mx sz Ef Ew|] Hn; [by exists s, cur| |done].
  set (s1 := mkSys (with_queues (wm s) (drop j (que2_ (wm s)) ++ que_ (wm s)) (take j (que2_ (wm s)))) FlushSwapped (cpc s) (forced s) (sent s) (done_ s)).
  assert (flow s1 gone olds cur pre) as F1.
  { destruct F. unfold pending, todo in *. rewrite Ef in *. constructor; try done. unfold pending; simpl. by rewrite (app_assoc (take _ _)), take_drop. }
  assert (ckp_inv s1) as K1 by (by apply (ckp_inv_max s)).
  destruct (FlushWrite (wm s1)) as [[[m1 mx1] sz1]| |] eqn:E1.
  2,3: exfalso; unfold FlushWrite in Ew, E1; simpl in Ew, E1; destruct (wal_log (wm s)); [|done]; destruct (FlushLoop _ _ _ _) as [[[? ?] ?]| |]; done.
  destruct (flow_write s1 gone olds cur pre m1 mx1 sz1 F1 K1 Hok eq_refl E1) as [F2 Em].
  eexists _, _. split; [exact F2|]. split; [apply (ckp_inv_max s); [done..|simpl; rewrite Em; done]|]. split.
  { destruct G as [->|(c & Hc & Hrest)]; [by left|]. right. exists c. split; [|done]. rewrite app_assoc. apply elem_of_app. by left. }
  unfold FlushWrite in Ew, E1. simpl in Ew, E1. destruct (wal_log (wm s)); [|done]. destruct (FlushLoop _ _ _ _) as [[[? ?] ?]| |]; [|done..].
  cbn [mbind outcome_bind] in Ew, E1. by simplify_eq.
Qed.

Lemma done_written s gone olds cur pre e :
  flow s gone olds cur pre -> ok_sent (sent s) -> gone_inv gone olds cur -> e ∈ done_ s -> IsCheckPoint e = false ->
  e ∈ concat (olds.*2) ++ cur \/
  exists c, c ∈ concat (olds.*2) ++ cur /\ IsCheckPoint c = true /\ IsFullCheckPoint c = true /\ commit_ts e <= ckp_ts c.
Proof.
  intros F Hok G He Hk. assert (e ∈ gone \/ e ∈ concat (olds.*2) ++ cur) as [Hin|Hin]; [|right|by left].
  { apply elem_of_app. rewrite <- (fl_done _ _ _ _ _ F). apply elem_of_app. by left. }
  destruct G as [->|(c & Hc & Hck & Hcf & Hlt)]; [by apply elem_of_nil in Hin|]. exists c. split_and!; [done..|].
  rewrite (fl_sent _ _ _ _ _ F), <- !app_assoc in Hok. apply ok_sent_app in Hok as [Hg _]. pose proof (lmax_bound gone e Hg Hin Hk). lia.
Qed.

(** The same while a full checkpoint [c] removes the files before it. *)
Lemma done_kept s gone olds cur pre (kept : Z -> bool) c e :
  flow s gone olds cur pre -> ckp_inv s -> gone_inv gone olds cur -> ok_sent (sent s) ->
  c ∈ done_ s -> IsCheckPoint c = true -> IsFullCheckPoint c = true -> Forall (fun t => t <= ckp_ts c) (ckp_ts <$> ckps (sent s)) ->
  (forall n, kept n = false -> n < ckp_ts c) -> e ∈ done_ s -> IsCheckPoint e = false ->
  let W := concat ((filter (fun o => kept o.1 = true) olds).*2) ++ cur in
  e ∈ W \/ exists c, c ∈ W /\ IsCheckPoint c = true /\ IsFullCheckPoint c = true /\ commit_ts e <= ckp_ts c.
Proof.
  intros F K G Hok Hc Hck Hcf Hall Hkept He Hk W.
  destruct (sorted_split (ckp_ts c) olds (fl_names _ _ _ _ _ F)) as (o1 & o2 & -> & Ho1 & Ho2).
  assert (forall x, x ∈ concat (o2.*2) ++ cur -> x ∈ W) as HW.
  { intros x [Hx|Hx]%elem_of_app; apply elem_of_app; [left|by right]. rewrite filter_app, fmap_app, concat_app. apply elem_of_app. right.
    rewrite list_filter_all; [done|]. intros o Ho. rewrite Forall_forall in Ho2. specialize (Ho2 o Ho). destruct (kept o.1) eqn:E; [done|]. by apply Hkept in E. }
  assert (c ∈ gone ++ concat ((o1 ++ o2).*2) ++ cur) as HcW by (rewrite <- (fl_done _ _ _ _ _ F); apply elem_of_app; by left).
  assert (e ∈ gone ++ concat ((o1 ++ o2).*2) ++ cur) as HeW by (rewrite <- (fl_done _ _ _ _ _ F); apply elem_of_app; by left).
  pose proof (recycle_keeps s gone o1 o2 cur pre c (ckp_ts c) F K G Hok HcW Hck eq_refl Hall Ho1) as Hlt.
  assert (sent s = (gone ++ concat (o1.*2)) ++ (concat (o2.*2) ++ cur) ++ pending s ++ que_ (wm s)) as Es
    by (rewrite (fl_sent _ _ _ _ _ F), fmap_app, concat_app, <- !app_assoc; done).
  rewrite fmap_app, concat_app in HcW, HeW. rewrite <- (app_assoc (concat (o1.*2))), app_assoc in HcW, HeW.
  apply elem_of_app in HeW as [HeW|HeW]; [|by left; apply HW]. right. exists c. split_and!; [|done|done|].
  - apply elem_of_app in HcW as [Hin|Hin]; [|by apply HW]. exfalso. revert Hin.
    by eapply ckp_not_recycled.
  - destruct Hlt as [Hlt|Hlt]; [|rewrite Hlt in HeW; by apply elem_of_nil in HeW].
    rewrite Es in Hok. apply ok_sent_app in Hok as [Hg _]. pose proof (lmax_bound _ e Hg HeW Hk). lia.
Qed.

Lemma written_sent s gone olds cur pre (kept : Z -> bool) : flow s gone olds cur pre ->
  concat ((filter (fun o => kept o.1 = true) olds).*2) ++ cur `sublist_of` sent s.
Proof.
  intros F. rewrite (fl_sent _ _ _ _ _ F). apply sublist_inserts_r, sublist_inserts_l, sublist_app; [apply concat_kept|done].
Qed.

(** ** Properties *)


(** C8: Recovery of an intact directory whose current log file is not empty and whose
    entries are in commit order: the checkpoints of the log back to the newest full
    one are attached, oldest first, and the entries newer than what they cover are
    applied in commit order, each one once; the system continues from the id and the
    timestamp of the last one.  If attaching a catalog or applying an entry throws, so
    does the recovery. *)
Theorem replay_recovers_log {C} `{ReplayTarget B C} m fs fuel :
  dir_holds m fs -> by_commit (as_read fs) -> wal_log m <> Some [] -> (length (as_read fs) < fuel)%nat ->
  ReplayWalFile (C := C) fuel m = Some (recovered (as_read fs)).
Proof. apply ReplayWalFile_spec. Qed.

(** C38: Checkpoints are complete: in any state reached from an empty directory by
    entries that are valid and arrive in commit order, without a forced checkpoint and
    without a rotation that replaces a rotated file, every transaction with a
    timestamp up to the one a checkpoint would be taken at has been committed, so that
    its changes are in the catalog that the checkpoint saves. *)
Theorem checkpoint_complete cfg now acts s e :
  run (init_sys cfg now) acts = Some s -> ok_sent (sent s) ->
  Forall not_forced acts -> fresh_swaps (init_sys cfg now) acts ->
  e ∈ sent s -> IsCheckPoint e = false -> commit_ts e <= (GetWalState (wm s)).1 -> e ∈ done_ s.
Proof.
  intros Hr Hok Hnf Hfr He Hk Hle.
  destruct (run_inv _ _ _ (init_inv cfg now) Hr Hok Hnf Hfr) as (gone & olds & cur & pre & F & K & G).
  simpl in Hle. rewrite (fl_max _ _ _ _ _ F) in Hle. pose proof (ok_sent_pos _ _ Hok He) as Hpos.
  destruct (fl_pre _ _ _ _ _ F) as [q Eq].
  assert (sent s = pre ++ q ++ todo s ++ pending s ++ que_ (wm s)) as Es.
  { rewrite (fl_sent _ _ _ _ _ F), <- (fl_done _ _ _ _ _ F), Eq. by rewrite <- !app_assoc. }
  rewrite Es in He, Hok. apply elem_of_app in He as [He|He]; [rewrite Eq; apply elem_of_app; by left|].
  destruct (lmax_from_cases 0 pre) as [Hz|(x & Hx & _ & Ex)]; unfold lmax in Hle; [lia|].
  destruct Hok as [(_ & _ & Hlt)%by_commit_app _]. specialize (Hlt x e Hx He). lia.
Qed.

(** A rotated log is ignored: right after a rotation the current log file is
    empty, and the replay then starts from a new catalog whatever the rotated
    files hold. *)
Theorem rotated_log_ignored {C} `{ReplayTarget B C} m mx sz fuel :
  log_too_large m = true -> ReplayWalFile (C := C) fuel (FlushFinish m mx sz) = Some (Ret (InitNewCatalog, 0)).
Proof.
  intros Hl. unfold FlushFinish.
  assert (log_too_large (with_queues m (que_ m) []) = log_too_large m) as -> by done. by rewrite Hl.
Qed.
End Durability.

(** ** Examples *)

#[local] Existing Instance raw_codec.
#[local] Existing Instance raw_codec_laws.
#[local] Existing Instance trace_target.

(** A transaction that creates a table, and the actions that flush a batch of
    [n] entries. *)
Definition sample_txn (txn ts : Z) : WalEntry (list Z) := mkWalEntry 0 0 txn ts [WalCmdCreateTable "default" sample_table_def].

Definition flush_batch (n : nat) : list (action (list Z)) := [ASwapQueues; AWrite] ++ repeat ACommitBottom n ++ [AFinish].

(** A limit between the sizes of a checkpoint and of [sample_txn]. *)
Definition sample_cfg : WalConfig := mkWalConfig 80 0 0 1000000.

Definition sample_acts : list (action (list Z)) :=
  [APut (sample_txn 1 2)] ++ flush_batch 1 ++ [APut (sample_txn 3 4)] ++ flush_batch 1 ++
  [ACkpBegin 10; ACkpPut 2 5 "META_4.full.json"] ++ flush_batch 1 ++
  [ACkpEnd; APut (sample_txn 5 6); ASwapQueues; AWrite; ACommitBottom].

(** Two transactions, then a forced checkpoint that is committed only after a
    third transaction and a timer checkpoint. *)
Definition forced_acts : list (action (list Z)) :=
  [APut (sample_txn 1 2)] ++ flush_batch 1 ++ [AForceBegin; APut (sample_txn 3 4)] ++ flush_batch 1 ++
  [APut (sample_txn 5 6)] ++ flush_batch 1 ++ [ACkpBegin 10; ACkpPut 4 7 "META_6.full.json"] ++ flush_batch 1 ++
  [ACkpEnd; AForcePut 2 9 "META_2.full.json"; ASwapQueues; AWrite; ACommitBottom].

(** With a limit below the size of any entry, a batch that holds only a
    checkpoint is rotated under the name of the rotation before it. *)
Definition overwrite_acts : list (action (list Z)) :=
  [APut (sample_txn 1 2)] ++ flush_batch 1 ++ [ACkpBegin 10; APut (sample_txn 3 4)] ++ flush_batch 1 ++
  [ACkpPut 2 5 "META_2.full.json"] ++ flush_batch 1 ++ [APut (sample_txn 5 6); ASwapQueues; AWrite; ACommitBottom].

(** The paths and the timestamps of the transactions a recovery would use. *)
Definition recovery (s : Sys (list Z)) : option (outcome (list string * list Z)) :=
  match ReplayWalFile 100 (wm s) with
  | Some (Ret (paths, es, _)) => Some (Ret (paths, commit_ts <$> es))
  | Some (Throw ex msg) => Some (Throw ex msg)
  | Some (UB why) => Some (UB why)
  | None => None
  end.

(** A forced checkpoint can lose transactions: its timestamp is read before
    and its entry is written after a timer checkpoint that recycles the files
    between the two.  In this run the transactions 2, 4 and 6 are committed; the
    recovery attaches the catalog of timestamp 2 and replays only 6. *)
Theorem forced_checkpoint_loses_txn :
  exists s, run (init_sys sample_cfg 0) forced_acts = Some s /\
    commit_ts <$> done_ s = [2; 4; 6; 7; 9] /\
    recovery s = Some (Ret (["META_2.full.json"], [6])).
Proof. eexists. split; [vm_compute; reflexivity|]. by vm_compute. Qed.

(** A rotation can overwrite an earlier one: the file name is the timestamp
    of the last transaction, which a batch without transactions does not change.
    In this run the transactions 2, 4 and 6 are committed; the recovery attaches
    the catalog of timestamp 2 and replays only 6. *)
Theorem rotation_overwrites_log :
  exists s, run (init_sys (mkWalConfig 0 0 0 1000000) 0) overwrite_acts = Some s /\
    commit_ts <$> done_ s = [2; 4; 5; 6] /\
    recovery s = Some (Ret (["META_2.full.json"], [6])).
Proof. eexists. split; [vm_compute; reflexivity|]. by vm_compute. Qed.

Lemma sample_txn_ok txn ts : 0 < ts < 2 ^ 63 -> - 2 ^ 63 <= txn < 2 ^ 63 -> entry_ok (sample_txn txn ts).
Proof.
  intros Hts Htxn. split_and!; [|done|simpl; lia].
  assert (valid_entry (sample_txn txn ts)) as Hv.
  { unfold valid_entry, s_range. simpl. split_and!; try lia. constructor; [|constructor].
    split; [by vm_compute|apply sample_table_valid]. }
  destruct (WalEntry_write _ Hv) as (cb & Ecb & _ & Hw). vm_compute in Ecb. injection Ecb as <-.
  destruct Hw as [Hw _]; [by vm_compute|]. eexists. split_and!; [done|exact Hw|]. rewrite entry_image_length. by vm_compute.
Qed.

Lemma sample_ckp_ok : entry_ok (ckp_entry 2 5 4 true "META_4.full.json").
Proof.
  split_and!; [|done|done]. eexists (sample_bytes (ckp_entry 2 5 4 true "META_4.full.json")).
  split_and!; [|reflexivity|vm_compute; reflexivity]. unfold valid_entry. solve_valid.
Qed.

Lemma sample_sent_ok :
  ok_sent [sample_txn 1 2; sample_txn 3 4; ckp_entry 2 5 4 true "META_4.full.json"; sample_txn 5 6].
Proof.
  split; [unfold by_commit; simpl; repeat constructor; lia|].
  repeat (apply Forall_cons; split); [apply sample_txn_ok; lia..|apply sample_ckp_ok|apply sample_txn_ok; lia|constructor].
Qed.

Definition sample_final : Sys (list Z) :=
  match run (init_sys sample_cfg 0) sample_acts with Some s => s | None => init_sys sample_cfg 0 end.

Lemma sample_final_sent :
  sent sample_final = [sample_txn 1 2; sample_txn 3 4; ckp_entry 2 5 4 true "META_4.full.json"; sample_txn 5 6].
Proof. vm_compute. reflexivity. Qed.

Lemma sample_fresh : fresh_swaps (init_sys sample_cfg 0) sample_acts.
Proof.
  vm_compute. repeat split; intros; try discriminate;
    match goal with Hin : list_elem_of ?x ?l |- _ => change (x ∈ l) in Hin; set_solver end.
Qed.


(** The directory of [sample_final] as it is read back. *)
Definition sample_dir : list (list Z * list (WalEntry (list Z)) * list (WalEntry (list Z))) :=
  (fun l => let ws := sample_bytes <$> l in (concat ws, l, on_disk l ws)) <$>
    [[sample_txn 3 4]; [ckp_entry 2 5 4 true "META_4.full.json"; sample_txn 5 6]].

Lemma replay_recovers_log_witness :
  ReplayWalFile 4 (wm sample_final) =
    Some (Ret (["META_4.full.json"], [entry_on_disk (sample_txn 5 6) (sample_bytes (sample_txn 5 6))], 6)).
Proof.
  rewrite (replay_recovers_log (wm sample_final) sample_dir 4).
  - vm_compute. reflexivity.
  - eexists. split; [vm_compute; reflexivity|]. split; [vm_compute; reflexivity|].
    assert (forall e, entry_ok e -> encodes e (sample_bytes e)) as Henc.
    { intros e ((w & Hv & Hw & Hl) & _). unfold sample_bytes. rewrite Hw. done. }
    assert (forall l, Forall entry_ok l -> holds (concat (sample_bytes <$> l)) l (on_disk l (sample_bytes <$> l))) as Hh.
    { intros l Hl. exists (sample_bytes <$> l). split_and!; [|done|done].
      induction Hl as [|e l He _ IH]; [constructor|]. rewrite fmap_cons. constructor; [by apply Henc|exact IH]. }
    destruct sample_sent_ok as [_ HF]. rewrite !Forall_cons in HF. destruct HF as (_ & H2 & H3 & H4 & _).
    constructor; [|constructor; [|constructor]]; apply Hh; repeat (apply Forall_cons; split); done || constructor.
  - vm_compute. repeat constructor.
  - vm_compute. discriminate.
  - vm_compute. lia.
Defined.

Lemma checkpoint_complete_witness : sample_txn 1 2 ∈ done_ sample_final.
Proof.
  apply (checkpoint_complete sample_cfg 0 sample_acts sample_final (sample_txn 1 2)).
  - vm_compute. reflexivity.
  - rewrite sample_final_sent. exact sample_sent_ok.
  - repeat constructor.
  - exact sample_fresh.
  - rewrite sample_final_sent. left.
  - reflexivity.
  - vm_compute. discriminate.
Defined.

(** A committed transaction, lost by a restart right after the rotation. *)
Lemma rotated_log_ignored_witness :
  exists s, run (init_sys sample_cfg 0) ([APut (sample_txn 1 2)] ++ flush_batch 1) = Some s /\
    commit_ts <$> done_ s = [2] /\ ReplayWalFile 100 (wm s) = Some (Ret ([], [], 0)).
Proof.
  destruct (run (init_sys sample_cfg 0) ([APut (sample_txn 1 2)] ++ [ASwapQueues; AWrite; ACommitBottom])) as [s1|] eqn:E1;
    [|vm_compute in E1; discriminate].
  exists (mkSys (FlushFinish (wm s1) 2 109) FlushHead CkpIdle [] (sent s1) (done_ s1)).
  assert (log_too_large (wm s1) = true) as Hl by (vm_compute in E1; injection E1 as <-; reflexivity).
  split_and!; [vm_compute in E1; injection E1 as <-; vm_compute; reflexivity|vm_compute in E1; injection E1 as <-; reflexivity|].
  cbn [wm]. exact (rotated_log_ignored (C := list string * list (WalEntry (list Z))) (wm s1) 2 109 100 Hl).
Defined.
