(* ===== verification/Block.v ===== *)
(** * Row versions of a block ([storage/meta/entry/block_entry.cpp])

    A block holds up to [row_capacity_] rows in column buffers and, in its
    [BlockVersion], the history of its row count and the deletion timestamp of
    each row.  Rows are of an arbitrary type; the column buffers of a block are
    one list of rows. *)

From stdpp Require Import base list strings sorting.
From Stdlib Require Import ZArith Lia.
From S2P Require Import Prelude Defs Common Wire.

Open Scope Z_scope.

(** ** [BlockVersion] *)

Record CreateField := mkCreateField {
  create_ts_ : Z;
  created_rows_ : Z;
}.

Record BlockVersion := mkBlockVersion {
  created_ : list CreateField;
  deleted_ : list Z;
}.

(** [BlockVersion::BlockVersion] *)
Definition NewBlockVersion (capacity : Z) : BlockVersion := mkBlockVersion [] (replicate (Z.to_nat capacity) 0).

(** The loop of [BlockVersion::GetRowCount], from the newest field. *)
Fixpoint GetRowCountLoop (newest_first : list CreateField) (begin_ts : Z) : Z :=
  match newest_first with
  | [] => 0
  | f :: rest => if create_ts_ f <=? begin_ts then created_rows_ f else GetRowCountLoop rest begin_ts
  end.

(** [BlockVersion::GetRowCount] *)
Definition GetRowCount (v : BlockVersion) (begin_ts : Z) : Z := GetRowCountLoop (reverse (created_ v)) begin_ts.

(** [CreateField] is packed to twelve bytes. *)
Definition write_CreateField (f : CreateField) : list Z := le_bytes 8 (create_ts_ f) ++ le_bytes 4 (created_rows_ f).
Definition read_CreateField : Reader CreateField :=
  create_ts ← read_u 8; row_count ← read_s 4; mret (mkCreateField create_ts row_count).

(** [BlockVersion::SaveToFile]: the contents of the file *)
Definition SaveToFile (v : BlockVersion) : list Z :=
  le_bytes 4 (to_i32 (Z.of_nat (length (created_ v)))) ++ le_bytes 4 (to_i32 (Z.of_nat (length (deleted_ v)))) ++
  concat (write_CreateField <$> created_ v) ++ concat (le_bytes 8 <$> deleted_ v).

(** [BlockVersion::LoadFromFile] on the contents of the file, if it exists *)
Definition LoadFromFile (file : option (list Z)) (v : BlockVersion) : outcome BlockVersion :=
  match file with
  | None => Ret v
  | Some bytes =>
      '(v', rest) ←
        (created_size ← read_s 4;
         deleted_size ← read_s 4;
         if ((created_size <? 0) || (deleted_size <? 0))%bool then throw StdException "vector::_M_default_append"
         else
           created ← read_n (Z.to_nat created_size) read_CreateField;
           deleted ← read_n (Z.to_nat deleted_size) (read_u 8);
           mret (mkBlockVersion created deleted)) bytes;
      match rest with
      | [] => Ret v'
      | _ => Throw StorageException "Failed to load block_version file: "
      end
  end.

(** ** [BlockEntry] *)

(** The transaction that changes a block: its address and [CommitTS]. *)
Record TxnRef := mkTxnRef {
  txn_addr : ptr;
  CommitTS : Z;
}.

Record BlockEntry (R : Type) := mkBlockEntry {
  block_id_ : Z;
  row_count_ : Z;
  row_capacity_ : Z;
  columns_rows : list R;
  block_version_ : BlockVersion;
  min_row_ts_ : Z;
  max_row_ts_ : Z;
  checkpoint_ts_ : Z;
  txn_ptr_ : option ptr;
  checkpoint_row_count_ : Z;
}.

Arguments mkBlockEntry {R} _ _ _ _ _ _ _ _ _ _.
Arguments block_id_ {R} _.
Arguments row_count_ {R} _.
Arguments row_capacity_ {R} _.
Arguments columns_rows {R} _.
Arguments block_version_ {R} _.
Arguments min_row_ts_ {R} _.
Arguments max_row_ts_ {R} _.
Arguments checkpoint_ts_ {R} _.
Arguments txn_ptr_ {R} _.
Arguments checkpoint_row_count_ {R} _.

(** What [BlockEntry::Serialize] puts into the catalog file. *)
Record BlockJson := mkBlockJson {
  json_block_id : Z;
  json_checkpoint_ts : Z;
  json_row_count : Z;
  json_row_capacity : Z;
  json_min_row_ts : Z;
  json_max_row_ts : Z;
}.

Section Block.
Context {R : Type}.
Implicit Types (b : BlockEntry R) (txn : TxnRef).

(** [BlockEntry::BlockEntry] *)
Definition NewBlockEntry (block_id checkpoint_ts : Z) : BlockEntry R :=
  mkBlockEntry block_id 0 DEFAULT_VECTOR_SIZE [] (NewBlockVersion DEFAULT_VECTOR_SIZE) 0 0 checkpoint_ts None 0.

(** [BlockEntry::BlockEntry] for replay: the timestamps are passed as [i16];
    [rows] are the rows of the block's files. *)
Definition ReplayBlockEntry (block_id checkpoint_ts row_count min_row_ts max_row_ts : Z) (rows : list R) : BlockEntry R :=
  let min_row_ts := s_wrap 16 min_row_ts in
  let max_row_ts := s_wrap 16 max_row_ts in
  mkBlockEntry block_id row_count DEFAULT_VECTOR_SIZE rows
    (mkBlockVersion [mkCreateField (to_u64 min_row_ts) row_count] (replicate (Z.to_nat DEFAULT_VECTOR_SIZE) 0))
    (to_u64 min_row_ts) (to_u64 max_row_ts) checkpoint_ts None 0.

(** The test of [BlockEntry::VisibleRange] on the deletion timestamp. *)
Definition row_deleted (v : BlockVersion) (begin_ts : Z) (i : Z) : bool :=
  match deleted_ v !! Z.to_nat i with
  | Some ts => (negb (ts =? 0) && (ts <=? begin_ts))%bool
  | None => false
  end.

(** The two loops of [BlockEntry::VisibleRange] over [n] remaining rows. *)
Fixpoint SkipDeleted (v : BlockVersion) (begin_ts : Z) (n : nat) (i : Z) : Z :=
  match n with
  | O => i
  | S n' => if row_deleted v begin_ts i then SkipDeleted v begin_ts n' (i + 1) else i
  end.

Fixpoint SkipVisible (v : BlockVersion) (begin_ts : Z) (n : nat) (i : Z) : Z :=
  match n with
  | O => i
  | S n' => if row_deleted v begin_ts i then i else SkipVisible v begin_ts n' (i + 1)
  end.

(** [BlockEntry::VisibleRange] *)
Definition VisibleRange b (begin_ts block_offset_begin : Z) : Z * Z :=
  let v := block_version_ b in
  let block_offset_end := to_u16 (GetRowCount v begin_ts) in
  let block_offset_begin := SkipDeleted v begin_ts (Z.to_nat (block_offset_end - block_offset_begin)) block_offset_begin in
  (block_offset_begin, SkipVisible v begin_ts (Z.to_nat (block_offset_end - block_offset_begin)) block_offset_begin).

(** [BlockEntry::Room] *)
Definition Room b : Z := row_capacity_ b - row_count_ b.

Definition conflict {A} : outcome A := Throw StorageException "Multiple transactions are changing data of Segment: {}, Block: {}".

Definition other_txn b txn : bool :=
  match txn_ptr_ b with Some p => negb (bool_decide (p = txn_addr txn)) | None => false end.

(** [BlockColumnEntry::Append] on all columns: copy [n] rows of the input from
    [src_off] to the row [dst_off] of the buffers. *)
Definition AppendColumns (rows : list R) (dst_off : Z) (input : list R) (src_off n : Z) : outcome (list R) :=
  if Z.of_nat (length input) <? src_off + n then UB "read past the rows of the input block"
  else
    let dst := Z.to_nat dst_off in
    let src := take (Z.to_nat n) (drop (Z.to_nat src_off) input) in
    Ret (take dst rows ++ src ++ drop (dst + length src) rows).

(** [BlockEntry::AppendData] *)
Definition BlockAppendData b txn (input : list R) (input_block_offset append_rows : Z) : outcome (BlockEntry R * Z) :=
  if other_txn b txn then conflict
  else
    let actual_copied :=
      if row_count_ b + append_rows >? row_capacity_ b then to_u16 (row_capacity_ b - row_count_ b) else append_rows in
    rows ← AppendColumns (columns_rows b) (row_count_ b) input input_block_offset actual_copied;
    Ret (mkBlockEntry (block_id_ b) (to_u16 (row_count_ b + actual_copied)) (row_capacity_ b) rows (block_version_ b)
           (min_row_ts_ b) (max_row_ts_ b) (checkpoint_ts_ b) (Some (txn_addr txn)) (checkpoint_row_count_ b), actual_copied).

Definition with_version b (v : BlockVersion) (txn : option ptr) : BlockEntry R :=
  mkBlockEntry (block_id_ b) (row_count_ b) (row_capacity_ b) (columns_rows b) v
    (min_row_ts_ b) (max_row_ts_ b) (checkpoint_ts_ b) txn (checkpoint_row_count_ b).

(** The loop of [BlockEntry::DeleteData] *)
Fixpoint DeleteLoop (deleted : list Z) (rows : list RowID) (ts : Z) : outcome (list Z) :=
  match rows with
  | [] => Ret deleted
  | r :: rest =>
      let block_offset := Z.to_nat (to_u16 (segment_offset_ r mod DEFAULT_BLOCK_CAPACITY)) in
      if (block_offset <? length deleted)%nat then DeleteLoop (<[block_offset := ts]> deleted) rest ts
      else UB "deleted_ index out of range"
  end.

(** [BlockEntry::DeleteData] *)
Definition BlockDeleteData b txn (rows : list RowID) : outcome (BlockEntry R) :=
  if other_txn b txn then conflict
  else
    deleted ← DeleteLoop (deleted_ (block_version_ b)) rows (CommitTS txn);
    Ret (with_version b (mkBlockVersion (created_ (block_version_ b)) deleted) (Some (txn_addr txn))).

(** The update of the row timestamps in [CommitAppend] and [CommitDelete]. *)
Definition stamp_rows b (v : BlockVersion) (commit_ts : Z) : BlockEntry R :=
  mkBlockEntry (block_id_ b) (row_count_ b) (row_capacity_ b) (columns_rows b) v
    (if min_row_ts_ b =? 0 then commit_ts else min_row_ts_ b) (Z.max (max_row_ts_ b) commit_ts)
    (checkpoint_ts_ b) None (checkpoint_row_count_ b).

(** [BlockEntry::CommitAppend] *)
Definition BlockCommitAppend b txn : outcome (BlockEntry R) :=
  if negb (bool_decide (txn_ptr_ b = Some (txn_addr txn))) then conflict
  else
    let v := block_version_ b in
    Ret (stamp_rows b (mkBlockVersion (created_ v ++ [mkCreateField (CommitTS txn) (row_count_ b)]) (deleted_ v)) (CommitTS txn)).

(** [BlockEntry::CommitDelete] *)
Definition BlockCommitDelete b txn : outcome (BlockEntry R) :=
  if other_txn b txn then conflict
  else match txn_ptr_ b with
       | None => Ret b
       | Some _ => Ret (stamp_rows b (block_version_ b) (CommitTS txn))
       end.

(** The files of a block: the version file and the column files. *)
Definition BlockFiles : Type := option (list Z) * list R.

(** [BlockEntry::Flush]: the entry and the files after it *)
Definition Flush b (files : BlockFiles) (checkpoint_ts : Z) : outcome (BlockEntry R * BlockFiles) :=
  if checkpoint_ts <? checkpoint_ts_ b then Throw StorageException "BlockEntry checkpoint_ts skew!"
  else if ((max_row_ts_ b <=? checkpoint_ts_ b) || (checkpoint_ts <? min_row_ts_ b))%bool then Ret (b, files)
  else
    let v := block_version_ b in
    let checkpoint_row_count := GetRowCount v checkpoint_ts in
    if checkpoint_row_count =? 0 then Throw StorageException "BlockEntry is empty at checkpoint_ts!"
    else
      let n := Z.to_nat checkpoint_row_count in
      let deleted_between :=
        existsb (fun ts => (checkpoint_ts_ b <? ts) && (ts <=? checkpoint_ts))%bool (take n (deleted_ v)) in
      if ((checkpoint_row_count <=? checkpoint_row_count_ b) && negb deleted_between)%bool then Ret (b, files)
      else
        let kept := (fun ts => if checkpoint_ts <? ts then 0 else ts) <$> take n (deleted_ v) in
        let checkpoint_version := mkBlockVersion (created_ v) (kept ++ replicate (length (deleted_ v) - n) 0) in
        Ret (mkBlockEntry (block_id_ b) (row_count_ b) (row_capacity_ b) (columns_rows b) v (min_row_ts_ b) (max_row_ts_ b)
               checkpoint_ts (txn_ptr_ b) (to_u16 checkpoint_row_count),
             (Some (SaveToFile checkpoint_version), columns_rows b)).

(** [BlockEntry::Serialize] *)
Definition SerializeBlock b : BlockJson :=
  mkBlockJson (block_id_ b) (checkpoint_ts_ b) (checkpoint_row_count_ b) (row_capacity_ b) (min_row_ts_ b) (checkpoint_ts_ b).

(** [BlockEntry::Deserialize] *)
Definition DeserializeBlock (j : BlockJson) (files : BlockFiles) : outcome (BlockEntry R) :=
  v ← LoadFromFile files.1 (NewBlockVersion DEFAULT_VECTOR_SIZE);
  let v := match created_ v with
           | [] => mkBlockVersion [mkCreateField (json_max_row_ts j) (json_row_count j)] (deleted_ v)
           | _ => v
           end in
  Ret (mkBlockEntry (to_u16 (json_block_id j)) (json_row_count j) (json_row_capacity j) files.2 v
         (json_min_row_ts j) (json_max_row_ts j) (json_checkpoint_ts j) None (json_row_count j)).
End Block.

(** ** The version file *)

#[local] Opaque le_bytes.

Definition valid_version (v : BlockVersion) : Prop :=
  Forall (fun f => u_range 64 (create_ts_ f) /\ s_range 32 (created_rows_ f)) (created_ v) /\
  Forall (u_range 64) (deleted_ v) /\
  Z.of_nat (length (created_ v)) < 2 ^ 31 /\ Z.of_nat (length (deleted_ v)) < 2 ^ 31.

Lemma read_CreateField_back f :
  u_range 64 (create_ts_ f) -> s_range 32 (created_rows_ f) -> reads_back read_CreateField (write_CreateField f) f.
Proof.
  intros H1 H2 rest. unfold read_CreateField, write_CreateField.
  read_step read_u_back; [|done]. read_step (read_s_back 4); [|lia|done]. by destruct f.
Qed.

Lemma LoadFromFile_SaveToFile v v0 : valid_version v -> LoadFromFile (Some (SaveToFile v)) v0 = Ret v.
Proof.
  intros (Hc & Hd & Hlc & Hld). unfold LoadFromFile, SaveToFile.
  rewrite <- (app_nil_r (concat (le_bytes 8 <$> deleted_ v))).
  unfold to_i32. rewrite !s_wrap_id by (unfold s_range; lia).
  erewrite bind_ret; [|apply (read_s_back 4); [lia|unfold s_range; simpl; lia]].
  erewrite bind_ret; [|apply (read_s_back 4); [lia|unfold s_range; simpl; lia]].
  match goal with |- context [if ?b then _ else _] => assert (b = false) as -> by (apply orb_false_iff; split; apply Z.ltb_ge; lia) end.
  rewrite !Nat2Z.id.
  erewrite bind_ret; [|apply (read_n_back read_CreateField write_CreateField)].
  - erewrite bind_ret; [|apply (read_n_back (read_u 8) (le_bytes 8))]; [by destruct v|].
    eapply Forall_impl; [exact Hd|]. intros d Hr. by apply read_u_back.
  - eapply Forall_impl; [exact Hc|]. intros f [Hf1 Hf2]. by apply read_CreateField_back.
Qed.

(** ** Visible rows *)

Section Visible.
Context {R : Type}.
Implicit Types (b : BlockEntry R) (txn : TxnRef) (ts : Z).

(** The rows of a block that a transaction with begin timestamp [ts] sees, with
    their offsets. *)
Definition visible_from b ts (off n : nat) : list (nat * R) :=
  omap (fun i => if row_deleted (block_version_ b) ts (Z.of_nat i) then None else pair i <$> columns_rows b !! i) (seq off n).

Definition visible_rows b ts : list (nat * R) := visible_from b ts 0 (Z.to_nat (GetRowCount (block_version_ b) ts)).

(** The history of the row count is sorted. *)
Definition created_ok (v : BlockVersion) : Prop :=
  StronglySorted (fun f g => create_ts_ f <= create_ts_ g /\ created_rows_ f <= created_rows_ g) (created_ v) /\
  Forall (fun f => 0 <= created_rows_ f) (created_ v).

Record wf_block b : Prop := {
  wf_created : created_ok (block_version_ b);
  wf_rows_bound : Forall (fun f => created_rows_ f <= row_count_ b) (created_ (block_version_ b));
  wf_rows : Z.of_nat (length (columns_rows b)) = row_count_ b;
  wf_capacity : row_count_ b <= row_capacity_ b < 2 ^ 16;
  wf_deleted : Z.of_nat (length (deleted_ (block_version_ b))) = row_capacity_ b;
}.

Lemma GetRowCountLoop_elem l ts : GetRowCountLoop l ts = 0 \/ exists f, f ∈ l /\ create_ts_ f <= ts /\ created_rows_ f = GetRowCountLoop l ts.
Proof.
  induction l as [|f l IH]; simpl; [by left|]. destruct (create_ts_ f <=? ts) eqn:E; zbool.
  - right. exists f. split; [by left|done].
  - destruct IH as [->|(g & Hg & Hr)]; [by left|]. right. exists g. split; [by right|done].
Qed.

Lemma GetRowCount_bounds b ts : wf_block b -> 0 <= GetRowCount (block_version_ b) ts <= row_count_ b.
Proof.
  intros W. destruct (wf_created _ W) as [_ H0]. pose proof (wf_rows_bound _ W) as H1. pose proof (wf_rows _ W).
  unfold GetRowCount. destruct (GetRowCountLoop_elem (reverse (created_ (block_version_ b))) ts) as [->|(f & Hf & _ & <-)]; [lia|].
  rewrite elem_of_reverse in Hf. rewrite Forall_forall in H0, H1. split; [by apply H0|by apply H1].
Qed.

Lemma GetRowCount_snoc v f ts :
  ts < create_ts_ f -> GetRowCount (mkBlockVersion (created_ v ++ [f]) (deleted_ v)) ts = GetRowCount v ts.
Proof.
  intros Hlt. unfold GetRowCount. simpl. rewrite reverse_snoc. simpl.
  by assert ((create_ts_ f <=? ts) = false) as -> by (by apply Z.leb_gt).
Qed.

(** [VisibleRange] skips deleted rows and stops in front of the next one. *)
Lemma SkipDeleted_spec v ts n i :
  exists k, (k <= n)%nat /\ SkipDeleted v ts n i = i + Z.of_nat k /\
    (forall j, (j < k)%nat -> row_deleted v ts (i + Z.of_nat j) = true) /\
    (k = n \/ row_deleted v ts (i + Z.of_nat k) = false).
Proof.
  revert i. induction n as [|n IH]; intros i; simpl.
  { exists 0%nat. split_and!; [lia|lia|lia|by left]. }
  destruct (row_deleted v ts i) eqn:E.
  - destruct (IH (i + 1)) as (k & Hk & E1 & Hd & Hs). exists (S k). split_and!; [lia|rewrite E1; lia| |].
    + intros [|j] Hj; [by rewrite Z.add_0_r|]. replace (i + Z.of_nat (S j)) with (i + 1 + Z.of_nat j) by lia. apply Hd. lia.
    + replace (i + Z.of_nat (S k)) with (i + 1 + Z.of_nat k) by lia. destruct Hs as [->|Hs]; [by left|by right].
  - exists 0%nat. rewrite Z.add_0_r. split_and!; [lia|done|lia|by right].
Qed.

Lemma SkipVisible_spec v ts n i :
  exists k, (k <= n)%nat /\ SkipVisible v ts n i = i + Z.of_nat k /\
    (forall j, (j < k)%nat -> row_deleted v ts (i + Z.of_nat j) = false) /\
    (k = n \/ row_deleted v ts (i + Z.of_nat k) = true).
Proof.
  revert i. induction n as [|n IH]; intros i; simpl.
  { exists 0%nat. split_and!; [lia|lia|lia|by left]. }
  destruct (row_deleted v ts i) eqn:E.
  - exists 0%nat. rewrite Z.add_0_r. split_and!; [lia|done|lia|by right].
  - destruct (IH (i + 1)) as (k & Hk & E1 & Hd & Hs). exists (S k). split_and!; [lia|rewrite E1; lia| |].
    + intros [|j] Hj; [by rewrite Z.add_0_r|]. replace (i + Z.of_nat (S j)) with (i + 1 + Z.of_nat j) by lia. apply Hd. lia.
    + replace (i + Z.of_nat (S k)) with (i + 1 + Z.of_nat k) by lia. destruct Hs as [->|Hs]; [by left|by right].
Qed.

Definition rows_at b (off n : nat) : list (nat * R) := omap (fun i => pair i <$> columns_rows b !! i) (seq off n).

Lemma visible_from_app b ts off n k : visible_from b ts off (n + k) = visible_from b ts off n ++ visible_from b ts (off + n) k.
Proof. unfold visible_from. by rewrite seq_app, omap_app. Qed.

Lemma rows_at_app b off n k : rows_at b off (n + k) = rows_at b off n ++ rows_at b (off + n) k.
Proof. unfold rows_at. by rewrite seq_app, omap_app. Qed.

Lemma rows_at_length b off n : (off + n <= length (columns_rows b))%nat -> length (rows_at b off n) = n.
Proof.
  unfold rows_at. revert off. induction n as [|n IH]; intros off Hl; [done|]. cbn [seq omap list_omap].
  destruct (lookup_lt_is_Some_2 (columns_rows b) off) as [r ->]; [lia|]. simpl. rewrite IH; lia.
Qed.

Lemma visible_from_deleted b ts off n :
  (forall j, (j < n)%nat -> row_deleted (block_version_ b) ts (Z.of_nat off + Z.of_nat j) = true) -> visible_from b ts off n = [].
Proof.
  unfold visible_from. revert off. induction n as [|n IH]; intros off Hd; [done|]. simpl.
  pose proof (Hd 0%nat ltac:(lia)) as H0. rewrite Z.add_0_r in H0. rewrite H0. apply IH. intros j Hj.
  replace (Z.of_nat (S off) + Z.of_nat j) with (Z.of_nat off + Z.of_nat (S j)) by lia. apply Hd. lia.
Qed.

Lemma visible_from_kept b ts off n :
  (forall j, (j < n)%nat -> row_deleted (block_version_ b) ts (Z.of_nat off + Z.of_nat j) = false) ->
  visible_from b ts off n = rows_at b off n.
Proof.
  unfold visible_from, rows_at. revert off. induction n as [|n IH]; intros off Hd; [done|]. simpl.
  pose proof (Hd 0%nat ltac:(lia)) as H0. rewrite Z.add_0_r in H0. rewrite H0. rewrite IH; [done|]. intros j Hj.
  replace (Z.of_nat (S off) + Z.of_nat j) with (Z.of_nat off + Z.of_nat (S j)) by lia. apply Hd. lia.
Qed.

(** [VisibleRange] returns the next maximal run of visible rows. *)
Lemma VisibleRange_spec b ts (off : nat) :
  wf_block b -> let c := Z.to_nat (GetRowCount (block_version_ b) ts) in (off <= c)%nat ->
  exists i k, VisibleRange b ts (Z.of_nat off) = (Z.of_nat i, Z.of_nat (i + k)) /\ (off <= i)%nat /\ (i + k <= c)%nat /\
    visible_from b ts off (c - off) = rows_at b i k ++ visible_from b ts (i + k) (c - (i + k)) /\
    (forall j, (j < k)%nat -> row_deleted (block_version_ b) ts (Z.of_nat i + Z.of_nat j) = false) /\
    (k = 0%nat -> visible_from b ts off (c - off) = []).
Proof.
  intros W c Hoff. pose proof (GetRowCount_bounds b ts W) as Hb. pose proof (wf_capacity _ W) as Hcap.
  unfold VisibleRange. set (v := block_version_ b) in *.
  assert (to_u16 (GetRowCount v ts) = Z.of_nat c) as -> by (unfold to_u16, c; rewrite u_wrap_id by (unfold u_range; lia); lia).
  replace (Z.to_nat (Z.of_nat c - Z.of_nat off)) with (c - off)%nat by lia.
  destruct (SkipDeleted_spec v ts (c - off) (Z.of_nat off)) as (k1 & Hk1 & -> & Hd & Hs1).
  replace (Z.of_nat off + Z.of_nat k1) with (Z.of_nat (off + k1)) in * by lia.
  replace (Z.to_nat (Z.of_nat c - Z.of_nat (off + k1))) with (c - (off + k1))%nat by lia.
  destruct (SkipVisible_spec v ts (c - (off + k1)) (Z.of_nat (off + k1))) as (k2 & Hk2 & -> & Hv & Hs2).
  exists (off + k1)%nat, k2.
  assert (visible_from b ts off (c - off) = visible_from b ts (off + k1) (c - (off + k1))) as Hskip.
  { replace (c - off)%nat with (k1 + (c - (off + k1)))%nat by lia. rewrite visible_from_app, visible_from_deleted by done. done. }
  split_and!; [f_equal; lia|lia|lia| |done|].
  - rewrite Hskip. replace (c - (off + k1))%nat with (k2 + (c - (off + k1 + k2)))%nat at 1 by lia.
    rewrite visible_from_app. by rewrite (visible_from_kept b ts (off + k1) k2) by done.
  - intros ->. rewrite Hskip. destruct Hs2 as [Hs2|Hs2].
    + by replace (c - (off + k1))%nat with 0%nat by lia.
    + rewrite Z.add_0_r in Hs2. destruct Hs1 as [->|Hs1]; [|by rewrite Hs1 in Hs2].
      by replace (c - (off + (c - off)))%nat with 0%nat by lia.
Qed.

(** ** Changes by transactions that commit after a reader began *)

(** A step of another transaction with a commit timestamp above [ts]; rows that
    [ts] sees as deleted are not deleted again. *)
Inductive block_step ts : BlockEntry R -> BlockEntry R -> Prop :=
  | step_append b b' txn input off n k :
      BlockAppendData b txn input off n = Ret (b', k) -> 0 <= off -> 0 <= n -> block_step ts b b'
  | step_delete b b' txn rows :
      ts < CommitTS txn ->
      Forall (fun r => row_deleted (block_version_ b) ts (segment_offset_ r mod DEFAULT_BLOCK_CAPACITY) = false) rows ->
      BlockDeleteData b txn rows = Ret b' -> block_step ts b b'
  | step_commit_append b b' txn :
      ts < CommitTS txn -> Forall (fun f => create_ts_ f <= CommitTS txn) (created_ (block_version_ b)) ->
      BlockCommitAppend b txn = Ret b' -> block_step ts b b'
  | step_commit_delete b b' txn :
      BlockCommitDelete b txn = Ret b' -> block_step ts b b'.

Lemma row_deleted_range v ts i : row_deleted v ts i = true -> exists d, deleted_ v !! Z.to_nat i = Some d /\ d <> 0 /\ d <= ts.
Proof. unfold row_deleted. destruct (deleted_ v !! Z.to_nat i) as [d|]; [|done]. intros. zbool. eauto. Qed.

Lemma DeleteLoop_spec rows cts deleted deleted' ts c :
  ts < cts -> DeleteLoop deleted rows cts = Ret deleted' ->
  Forall (fun r => row_deleted (mkBlockVersion c deleted) ts (segment_offset_ r mod DEFAULT_BLOCK_CAPACITY) = false) rows ->
  length deleted' = length deleted /\
  forall i, row_deleted (mkBlockVersion c deleted') ts i = row_deleted (mkBlockVersion c deleted) ts i.
Proof.
  intros Hts. revert deleted. induction rows as [|r rows IH]; intros deleted; cbn [DeleteLoop]; [by intros [= ->]|].
  set (k := Z.to_nat _). destruct (k <? length deleted)%nat eqn:Ek; [|done]. apply Nat.ltb_lt in Ek. intros Hd.
  intros [Hr Hrows]%Forall_cons.
  assert (Z.to_nat (segment_offset_ r mod DEFAULT_BLOCK_CAPACITY) = k) as Ekk.
  { unfold k, to_u16. rewrite u_wrap_id; [done|]. unfold u_range, DEFAULT_BLOCK_CAPACITY.
    pose proof (Z.mod_pos_bound (segment_offset_ r) 8192). lia. }
  assert (forall i, row_deleted (mkBlockVersion c (<[k := cts]> deleted)) ts i = row_deleted (mkBlockVersion c deleted) ts i) as Hsame.
  { intros i. unfold row_deleted in *. simpl in *. rewrite Ekk in Hr. destruct (decide (Z.to_nat i = k)) as [->|Hne].
    - rewrite Hr, list_lookup_insert_eq by done. apply andb_false_iff. right. apply Z.leb_gt. lia.
    - by rewrite list_lookup_insert_ne by done. }
  destruct (IH _ Hd) as [Hl Hs]; [|rewrite length_insert in Hl; split; [done|intros i; by rewrite Hs]].
  eapply Forall_impl; [exact Hrows|]. intros x Hx. simpl in *. by rewrite Hsame.
Qed.

Lemma visible_rows_same b b' ts :
  GetRowCount (block_version_ b') ts = GetRowCount (block_version_ b) ts ->
  (forall i, (i < Z.to_nat (GetRowCount (block_version_ b) ts))%nat ->
     row_deleted (block_version_ b') ts (Z.of_nat i) = row_deleted (block_version_ b) ts (Z.of_nat i)) ->
  (forall i, (i < Z.to_nat (GetRowCount (block_version_ b) ts))%nat -> columns_rows b' !! i = columns_rows b !! i) ->
  visible_rows b' ts = visible_rows b ts.
Proof.
  intros Hc Hd Hr. unfold visible_rows, visible_from. rewrite Hc. revert Hd Hr.
  generalize (Z.to_nat (GetRowCount (block_version_ b) ts)). intros n Hd Hr.
  assert (forall i, i ∈ seq 0 n -> row_deleted (block_version_ b') ts (Z.of_nat i) = row_deleted (block_version_ b) ts (Z.of_nat i) /\
    columns_rows b' !! i = columns_rows b !! i) as Hi.
  { intros i Hi%elem_of_seq. split; [apply Hd|apply Hr]; lia. }
  clear Hd Hr. induction (seq 0 n) as [|i l IH]; [done|]. cbn [omap list_omap].
  destruct (Hi i ltac:(by left)) as [-> ->]. rewrite IH; [done|]. intros j Hj. apply Hi. by right.
Qed.

(** What an append does to a well-formed block. *)
Lemma BlockAppendData_spec b txn input off n b' k :
  wf_block b -> 0 <= off -> 0 <= n -> BlockAppendData b txn input off n = Ret (b', k) ->
  k = Z.min n (row_capacity_ b - row_count_ b) /\ row_count_ b' = row_count_ b + k /\
  columns_rows b' = columns_rows b ++ take (Z.to_nat k) (drop (Z.to_nat off) input) /\
  Z.of_nat (length (take (Z.to_nat k) (drop (Z.to_nat off) input))) = k /\
  block_version_ b' = block_version_ b /\ row_capacity_ b' = row_capacity_ b /\ block_id_ b' = block_id_ b /\
  txn_ptr_ b' = Some (txn_addr txn).
Proof.
  intros W Hoff Hn. unfold BlockAppendData. destruct (other_txn b txn); [done|].
  pose proof (wf_rows _ W) as Hr. pose proof (wf_capacity _ W) as Hcap.
  set (a := if _ >? _ then _ else _).
  assert (a = Z.min n (row_capacity_ b - row_count_ b)) as Ha.
  { unfold a. destruct (_ >? _) eqn:E; zbool; [|lia]. unfold to_u16. rewrite u_wrap_id by (unfold u_range; lia). lia. }
  unfold AppendColumns. destruct (_ <? _) eqn:E; [done|]. zbool. cbn [mbind outcome_bind]. intros [= <- <-].
  assert (Z.of_nat (length (take (Z.to_nat a) (drop (Z.to_nat off) input))) = a) as Hl.
  { rewrite length_take, length_drop. lia. }
  cbn [row_count_ columns_rows block_version_ row_capacity_ block_id_ txn_ptr_]. split_and!; try done.
  - unfold to_u16. rewrite u_wrap_id; [done|]. unfold u_range. lia.
  - rewrite take_ge by lia. rewrite (drop_ge (columns_rows b)) by lia. by rewrite app_nil_r.
Qed.

Lemma block_step_stable ts b b' : wf_block b -> block_step ts b b' -> wf_block b' /\ visible_rows b' ts = visible_rows b ts.
Proof.
  intros W Hs. pose proof (GetRowCount_bounds b ts W) as Hb. pose proof (wf_rows _ W) as Hrows. pose proof (wf_capacity _ W) as Hcap.
  destruct Hs as [b b' txn input off n k HA Hoff Hn|b b' txn rows Hts Hd HD|b b' txn Hts Hf HC|b b' txn HC].
  - destruct (BlockAppendData_spec b txn input off n b' k W Hoff Hn HA) as (Hk & Hc & Hr & Hl & Hv & Hcp & _).
    split; [|by apply visible_rows_same; rewrite ?Hv; [done|done|intros i Hi; rewrite Hr; apply lookup_app_l; lia]].
    destruct W. constructor; rewrite ?Hv, ?Hc, ?Hcp; try done.
    + eapply Forall_impl; [exact wf_rows_bound0|]. intros f Hfb. simpl in *. lia.
    + rewrite Hr, length_app. lia.
    + lia.
  - unfold BlockDeleteData in HD. destruct (other_txn b txn); [done|].
    destruct (DeleteLoop _ _ _) as [d| |] eqn:E; cbn [mbind outcome_bind] in HD; [|done..]. simplify_eq.
    destruct (DeleteLoop_spec rows (CommitTS txn) _ d ts (created_ (block_version_ b)) Hts E) as [Hl Hsame].
    { eapply Forall_impl; [exact Hd|]. intros r Hr. by destruct (block_version_ b). }
    split; [|apply visible_rows_same; [done|intros i _; cbn [with_version block_version_]; rewrite Hsame; by destruct (block_version_ b)|done]].
    destruct W. constructor; simpl; try done. by rewrite Hl.
  - unfold BlockCommitAppend in HC. destruct (negb _); [done|]. simplify_eq. split.
    + destruct W as [[Hs H0] Hbd ? ? ?]. constructor; simpl; try done.
      * split; simpl; [|apply Forall_app; split; [done|constructor; [simpl; lia|constructor]]].
        revert Hf Hbd. clear -Hs. induction Hs as [|f l Hs IH Hfl]; intros Hf Hbd; simpl; [repeat constructor|].
        apply Forall_cons in Hf as [Hf1 Hf], Hbd as [Hb1 Hbd]. constructor; [by apply IH|].
        apply Forall_app. split; [done|]. constructor; [simpl; lia|constructor].
      * apply Forall_app. split; [done|]. constructor; [simpl; lia|constructor].
    + apply visible_rows_same; [by apply GetRowCount_snoc|done|done].
  - unfold BlockCommitDelete in HC. destruct (other_txn b txn); [done|]. destruct (txn_ptr_ b); simplify_eq; [|done].
    split; [|by apply visible_rows_same]. destruct W. by constructor.
Qed.

Lemma GetRowCount_mono v ts ts' : created_ok v -> ts <= ts' -> GetRowCount v ts <= GetRowCount v ts'.
Proof.
  intros [Hs H0] Hle. unfold GetRowCount. induction (created_ v) as [|f l IH] using rev_ind; [done|].
  rewrite reverse_snoc. apply Forall_app in H0 as [H0 Hf]. simpl.
  assert (StronglySorted (fun f g => create_ts_ f <= create_ts_ g /\ created_rows_ f <= created_rows_ g) l) as Hsl
    by (by eapply StronglySorted_app_1_l).
  specialize (IH Hsl H0). destruct (create_ts_ f <=? ts') eqn:E1, (create_ts_ f <=? ts) eqn:E2; zbool; try lia.
  destruct (GetRowCountLoop_elem (reverse l) ts) as [->|(g & Hg & _ & <-)].
  - apply Forall_cons in Hf as [Hf _]. lia.
  - rewrite elem_of_reverse in Hg. apply list_elem_of_split in Hg as (l1 & l2 & ->). clear -Hs.
    rewrite <- app_assoc in Hs. induction l1 as [|x l1 IH]; simpl in Hs; apply StronglySorted_inv in Hs as [Hs Hx]; [|by apply IH].
    rewrite Forall_forall in Hx. apply Hx. apply elem_of_app. right. by left.
Qed.

(** ** Checkpoints of a block *)

(** The version that [Flush] saves. *)
Definition checkpoint_version b (C : Z) : BlockVersion :=
  let n := Z.to_nat (GetRowCount (block_version_ b) C) in
  let d := deleted_ (block_version_ b) in
  mkBlockVersion (created_ (block_version_ b)) (((fun ts => if C <? ts then 0 else ts) <$> take n d) ++ replicate (length d - n) 0).

Lemma Flush_writes b files C b' files' :
  Flush b files C = Ret (b', files') -> checkpoint_ts_ b < C -> checkpoint_ts_ b' = C ->
  files' = (Some (SaveToFile (checkpoint_version b C)), columns_rows b) /\ GetRowCount (block_version_ b) C <> 0 /\
  checkpoint_row_count_ b' = to_u16 (GetRowCount (block_version_ b) C) /\
  row_capacity_ b' = row_capacity_ b /\ block_id_ b' = block_id_ b /\ min_row_ts_ b' = min_row_ts_ b.
Proof.
  unfold Flush. intros E Hlt HC. destruct (C <? checkpoint_ts_ b); [done|].
  destruct (_ || _)%bool; [simplify_eq; lia|]. destruct (_ =? 0) eqn:E0; [done|]. zbool.
  destruct (_ && _)%bool; [simplify_eq; lia|]. injection E as <- <-. by split_and!.
Qed.

Lemma checkpoint_version_valid b C : wf_block b -> valid_version (block_version_ b) -> valid_version (checkpoint_version b C).
Proof.
  intros W (Hc & Hd & Hlc & Hld). pose proof (GetRowCount_bounds b C W). pose proof (wf_capacity _ W). pose proof (wf_deleted _ W).
  split_and!; simpl; try done.
  - apply Forall_app. split.
    + apply Forall_fmap, Forall_take. eapply Forall_impl; [exact Hd|]. intros ts Hts. simpl. destruct (_ <? _); [unfold u_range; lia|done].
    + apply Forall_replicate. unfold u_range. lia.
  - rewrite length_app, length_fmap, length_take, length_replicate. lia.
Qed.

Lemma checkpoint_row_deleted b C ts i :
  wf_block b -> ts <= C -> (i < Z.to_nat (GetRowCount (block_version_ b) C))%nat ->
  row_deleted (checkpoint_version b C) ts (Z.of_nat i) = row_deleted (block_version_ b) ts (Z.of_nat i).
Proof.
  intros W Hts Hi. pose proof (GetRowCount_bounds b C W). pose proof (wf_capacity _ W). pose proof (wf_deleted _ W).
  unfold row_deleted, checkpoint_version. simpl. rewrite Nat2Z.id.
  rewrite lookup_app_l by (rewrite length_fmap, length_take; lia). rewrite list_lookup_fmap, lookup_take_lt by lia.
  destruct (deleted_ (block_version_ b) !! i) as [d|]; [|done]. simpl. destruct (C <? d) eqn:E; [|done]. zbool.
  symmetry. apply andb_false_iff. right. apply Z.leb_gt. lia.
Qed.

(** ** Properties *)

(** C7: Rows are snapshot stable: appends, deletes and their commits by other
    transactions with timestamps above [ts] do not change which rows, with which
    contents, a transaction that began at [ts] sees in the block, provided they delete
    no row again that is already deleted for that transaction, and the commits of
    appends come in the order of their timestamps. *)
Theorem block_snapshot_stable b b' ts :
  wf_block b -> rtc (block_step ts) b b' -> visible_rows b' ts = visible_rows b ts.
Proof.
  intros W Hs. induction Hs as [b|b b1 b' Hs _ IH]; [done|].
  destruct (block_step_stable ts b b1 W Hs) as [W1 <-]. by apply IH.
Qed.

(** Deleting a row twice revives it: if a row is deleted for a reader that
    began at [ts], a later transaction that deletes the row again overwrites the
    deletion timestamp, and the reader sees the row. *)
Theorem double_delete_resurrects b b' txn r ts :
  row_deleted (block_version_ b) ts (segment_offset_ r mod DEFAULT_BLOCK_CAPACITY) = true ->
  ts < CommitTS txn -> BlockDeleteData b txn [r] = Ret b' ->
  row_deleted (block_version_ b') ts (segment_offset_ r mod DEFAULT_BLOCK_CAPACITY) = false.
Proof.
  intros Hd Hts. unfold BlockDeleteData. destruct (other_txn b txn); [done|]. cbn [DeleteLoop].
  destruct (_ <? _)%nat eqn:E; cbn [mbind outcome_bind]; [|done]. apply Nat.ltb_lt in E. intros [= <-]. unfold row_deleted. simpl.
  assert (to_u16 (segment_offset_ r mod DEFAULT_BLOCK_CAPACITY) = segment_offset_ r mod DEFAULT_BLOCK_CAPACITY) as Eu.
  { apply u_wrap_id. unfold u_range, DEFAULT_BLOCK_CAPACITY. pose proof (Z.mod_pos_bound (segment_offset_ r) 8192). lia. }
  rewrite Eu in *. rewrite list_lookup_insert_eq by done. apply andb_false_iff. right. apply Z.leb_gt. lia.
Qed.

(** A checkpoint of a block restores its snapshots: after [Flush] at [C] has
    written the block, [Deserialize] from the saved fields and files gives a block
    with the rows of [C], and every transaction that began at or before [C] sees
    the same rows in it. *)
Theorem block_flush_restores b files C b' files' :
  wf_block b -> valid_version (block_version_ b) ->
  Flush b files C = Ret (b', files') -> checkpoint_ts_ b < C -> checkpoint_ts_ b' = C ->
  exists b2, DeserializeBlock (SerializeBlock b') files' = Ret b2 /\
    row_count_ b2 = GetRowCount (block_version_ b) C /\
    forall ts, ts <= C -> visible_rows b2 ts = visible_rows b ts.
Proof.
  intros W Hv HF Hlt HC. destruct (Flush_writes _ _ _ _ _ HF Hlt HC) as (-> & Hne & Hrc & Hcap & Hid & Hmin).
  pose proof (GetRowCount_bounds b C W) as Hb. pose proof (wf_capacity _ W) as Hcp.
  unfold DeserializeBlock. cbn [fst snd]. rewrite LoadFromFile_SaveToFile by (by apply checkpoint_version_valid).
  cbn [mbind outcome_bind].
  assert (created_ (checkpoint_version b C) <> []) as Hcr by (intros E; unfold GetRowCount in Hne; simpl in E; rewrite E in Hne; done).
  assert (forall X, match created_ (checkpoint_version b C) with [] => X | _ => checkpoint_version b C end = checkpoint_version b C) as ->
    by (intros X; by destruct (created_ (checkpoint_version b C))).
  eexists. split; [reflexivity|]. cbn [row_count_ json_row_count SerializeBlock].
  split; [rewrite Hrc; apply u_wrap_id; unfold u_range; lia|].
  intros ts Hts. pose proof (GetRowCount_mono (block_version_ b) ts C (wf_created _ W) Hts) as Hm.
  apply visible_rows_same; cbn [block_version_ columns_rows]; [done| |done].
  intros i Hi. apply checkpoint_row_deleted; [done|done|lia].
Qed.
End Visible.

(** ** Examples *)

(** Two rows created at 2, a third one at 5; the second row deleted at 3. *)
Definition sample_block : BlockEntry Z :=
  mkBlockEntry 0 3 4 [10; 20; 30] (mkBlockVersion [mkCreateField 2 2; mkCreateField 5 3] [0; 3; 0; 0]) 2 5 0 None 0.

Lemma sample_block_wf : wf_block sample_block.
Proof. repeat constructor; simpl; try lia. Qed.

Lemma sample_version_valid : valid_version (block_version_ sample_block).
Proof. repeat constructor; unfold u_range, s_range; simpl; try lia. Qed.

Definition sample_deleter : TxnRef := mkTxnRef 7 9.

Definition sample_after_delete : BlockEntry Z :=
  with_version sample_block (mkBlockVersion [mkCreateField 2 2; mkCreateField 5 3] [9; 3; 0; 0]) (Some 7%positive).

Lemma block_snapshot_stable_witness : visible_rows sample_after_delete 6 = [(0%nat, 10); (2%nat, 30)].
Proof.
  rewrite (block_snapshot_stable sample_block sample_after_delete 6 sample_block_wf); [reflexivity|].
  apply rtc_once. apply (step_delete 6 sample_block sample_after_delete sample_deleter [mkRowID 0 0]);
    [simpl; lia|repeat constructor|reflexivity].
Defined.

Lemma double_delete_resurrects_witness :
  row_deleted (mkBlockVersion [mkCreateField 2 2; mkCreateField 5 3] [0; 9; 0; 0]) 6 1 = false.
Proof.
  apply (double_delete_resurrects sample_block
    (with_version sample_block (mkBlockVersion [mkCreateField 2 2; mkCreateField 5 3] [0; 9; 0; 0]) (Some 7%positive))
    sample_deleter (mkRowID 0 1) 6); [reflexivity|simpl; lia|reflexivity].
Defined.

Lemma block_flush_restores_witness :
  exists b2, DeserializeBlock (SerializeBlock (mkBlockEntry 0 3 4 [10; 20; 30] (block_version_ sample_block) 2 5 4 None 2))
      (Some (SaveToFile (checkpoint_version sample_block 4)), [10; 20; 30]) = Ret b2 /\
    row_count_ b2 = 2 /\ visible_rows b2 3 = [(0%nat, 10)].
Proof.
  destruct (block_flush_restores sample_block (None, []) 4 (mkBlockEntry 0 3 4 [10; 20; 30] (block_version_ sample_block) 2 5 4 None 2)
    (Some (SaveToFile (checkpoint_version sample_block 4)), [10; 20; 30])) as (b2 & E & Hc & Hv);
    [apply sample_block_wf|apply sample_version_valid|reflexivity|done|done|].
  exists b2. split; [exact E|]. split; [exact Hc|]. rewrite (Hv 3 ltac:(lia)). reflexivity.
Defined.
