(* ===== verification/Segment.v ===== *)
(** * Segments ([storage/meta/entry/segment_entry.cpp])

    A segment is a list of blocks.  [SegmentEntry::AppendData] copies the rows of
    a transaction's data blocks into it, with the [AppendState] of
    [data_access_state.cppm]. *)

From stdpp Require Import base list gmap strings sorting.
From Stdlib Require Import ZArith Lia.
From S2P Require Import Prelude Defs Common Wire Block.

Open Scope Z_scope.

(** ** [data_block.cpp]: the data block of a transaction

    [block_rows] are the rows of the column vectors; [db_row_count_] is the row
    count of the last [Finalize]. *)
Record DataBlock (R : Type) := mkDataBlock {
  column_types_ : list DataType;
  block_rows : list R;
  db_row_count_ : Z;
  capacity_ : Z;
  finalized : bool;
}.

Arguments mkDataBlock {R} _ _ _ _ _.
Arguments column_types_ {R} _.
Arguments block_rows {R} _.
Arguments db_row_count_ {R} _.
Arguments capacity_ {R} _.
Arguments finalized {R} _.

(** [AppendRange] *)
Record AppendRange := mkAppendRange {
  range_segment_id_ : Z;
  range_block_id_ : Z;
  range_start_offset_ : Z;
  range_row_count_ : Z;
}.

(** [AppendState] *)
Record AppendState (R : Type) := mkAppendState {
  blocks_ : list (DataBlock R);
  total_count_ : Z;
  current_count_ : Z;
  current_block_ : nat;
  current_block_offset_ : Z;
  append_ranges_ : list AppendRange;
}.

Arguments mkAppendState {R} _ _ _ _ _ _.
Arguments blocks_ {R} _.
Arguments total_count_ {R} _.
Arguments current_count_ {R} _.
Arguments current_block_ {R} _.
Arguments current_block_offset_ {R} _.
Arguments append_ranges_ {R} _.

Record SegmentEntry (R : Type) := mkSegmentEntry {
  segment_id : Z;
  seg_row_count_ : Z;
  seg_row_capacity_ : Z;
  seg_min_row_ts_ : Z;
  seg_max_row_ts_ : Z;
  block_entries_ : list (BlockEntry R);
}.

Arguments mkSegmentEntry {R} _ _ _ _ _ _.
Arguments segment_id {R} _.
Arguments seg_row_count_ {R} _.
Arguments seg_row_capacity_ {R} _.
Arguments seg_min_row_ts_ {R} _.
Arguments seg_max_row_ts_ {R} _.
Arguments block_entries_ {R} _.

Section Segment.
Context {R : Type}.
Implicit Types (db : DataBlock R) (st : AppendState R) (seg : SegmentEntry R) (txn : TxnRef).

(** ** Data blocks *)

(** [DataBlock::Init] on column types *)
Definition DataBlock_Init (types : list DataType) (capacity : Z) : outcome (DataBlock R) :=
  match types with
  | [] => Throw StorageException "Empty data types collection."
  | _ => Ret (mkDataBlock types [] 0 capacity false)
  end.

(** [DataBlock::row_count] *)
Definition row_count db : outcome Z :=
  if finalized db then Ret (db_row_count_ db)
  else if db_row_count_ db =? 0 then Ret 0
  else Throw StorageException "Not finalized data block".

(** [DataBlock::AppendWith] of a range of rows: the test uses [row_count_]; each
    column vector tests its own size. *)
Definition AppendWith db (other : DataBlock R) (from count : Z) : outcome (DataBlock R) :=
  if negb (length (column_types_ other) =? length (column_types_ db))%nat
  then Throw StorageException "Attempt merge block with column count {} into block with column count {}"
  else if db_row_count_ db + count >? capacity_ db
  then Throw StorageException "Attempt append block with row count {} into block with row count{}, which exceeds the capacity {}"
  else if count =? 0 then Ret db
  else if Z.of_nat (length (block_rows db)) + count >? capacity_ db
  then Throw StorageException "Attempt to append {} rows data to {} rows data, which exceeds {} limit."
  else if Z.of_nat (length (block_rows other)) <? from + count then UB "read past the rows of the column vector"
  else Ret (mkDataBlock (column_types_ db) (block_rows db ++ take (Z.to_nat count) (drop (Z.to_nat from) (block_rows other)))
              (db_row_count_ db) (capacity_ db) (finalized db)).

(** [DataBlock::Finalize]; all columns of the model have the same size. *)
Definition Finalize db : DataBlock R :=
  if finalized db then db
  else mkDataBlock (column_types_ db) (block_rows db) (to_u16 (Z.of_nat (length (block_rows db)))) (capacity_ db) true.

(** ** [AppendState] *)

Fixpoint sum_row_counts (l : list (DataBlock R)) : outcome Z :=
  match l with
  | [] => Ret 0
  | db :: rest => n ← row_count db; m ← sum_row_counts rest; Ret (n + m)
  end.

(** [AppendState::AppendState] *)
Definition NewAppendState (blocks : list (DataBlock R)) : outcome (AppendState R) :=
  total ← sum_row_counts blocks;
  Ret (mkAppendState blocks total 0 0 0 []).

(** [AppendState::Finished] *)
Definition Finished st : bool := current_count_ st =? total_count_ st.

(** ** Segments *)

(** [SegmentEntry::MakeNewSegmentEntry] *)
Definition MakeNewSegmentEntry (segment_id : Z) : SegmentEntry R :=
  mkSegmentEntry segment_id 0 DEFAULT_SEGMENT_CAPACITY 0 0 [NewBlockEntry 0 0].

(** [SegmentEntry::MakeReplaySegmentEntry] *)
Definition MakeReplaySegmentEntry (segment_id commit_ts : Z) : SegmentEntry R :=
  mkSegmentEntry segment_id 0 DEFAULT_SEGMENT_CAPACITY commit_ts commit_ts [].

(** [SegmentEntry::Room] *)
Definition SegmentRoom seg : Z := to_i32 (to_u64 (seg_row_capacity_ seg - seg_row_count_ seg)).

(** The block that the inner loop of [SegmentEntry::AppendData] appends to: the
    last one, or a new one if that is full. *)
Definition current_blocks seg : outcome (list (BlockEntry R) * BlockEntry R) :=
  match last (block_entries_ seg) with
  | None => UB "back() of an empty vector"
  | Some b =>
      if Room b <=? 0
      then Ret (block_entries_ seg, NewBlockEntry (to_u16 (Z.of_nat (length (block_entries_ seg)))) 0)
      else Ret (take (length (block_entries_ seg) - 1) (block_entries_ seg), b)
  end.

(** The inner loop of [SegmentEntry::AppendData]. *)
Fixpoint AppendInner (fuel : nat) seg txn (input : list R) st (to_append_rows total_copied : Z)
    : option (outcome (SegmentEntry R * AppendState R * Z * Z)) :=
  match fuel with
  | O => None
  | S fuel' =>
      if ((to_append_rows >? 0) && (seg_row_count_ seg <? seg_row_capacity_ seg))%bool then
        match current_blocks seg with
        | Ret (others, last_block_entry) =>
            match BlockAppendData last_block_entry txn input (current_block_offset_ st) to_append_rows with
            | Ret (b', actual_appended) =>
                if to_append_rows <? actual_appended
                then Some (Throw StorageException "Attempt to append rows: {}, but rows: {} are appended")
                else
                  let range := mkAppendRange (segment_id seg) (block_id_ last_block_entry) (row_count_ last_block_entry) actual_appended in
                  let seg' := mkSegmentEntry (segment_id seg) (seg_row_count_ seg + actual_appended) (seg_row_capacity_ seg)
                                (seg_min_row_ts_ seg) (seg_max_row_ts_ seg) (others ++ [b']) in
                  let st' := mkAppendState (blocks_ st) (total_count_ st) (current_count_ st + actual_appended) (current_block_ st)
                               (current_block_offset_ st) (append_ranges_ st ++ [range]) in
                  AppendInner fuel' seg' txn input st' (to_u16 (to_append_rows - actual_appended)) (total_copied + actual_appended)
            | Throw ex msg => Some (Throw ex msg)
            | UB why => Some (UB why)
            end
        | Throw ex msg => Some (Throw ex msg)
        | UB why => Some (UB why)
        end
      else Some (Ret (seg, st, to_append_rows, total_copied))
  end.

(** The outer loop of [SegmentEntry::AppendData]. *)
Fixpoint AppendOuter (fuel inner_fuel : nat) seg txn st (total_copied : Z) : option (outcome (SegmentEntry R * AppendState R * Z)) :=
  match fuel with
  | O => None
  | S fuel' =>
      match blocks_ st !! current_block_ st with
      | Some input_block =>
          if seg_row_count_ seg <? seg_row_capacity_ seg then
            match row_count input_block with
            | Ret n =>
                match AppendInner inner_fuel seg txn (block_rows input_block) st (to_u16 n) total_copied with
                | Some (Ret (seg', st', to_append_rows, total)) =>
                    let st' := if to_append_rows =? 0
                               then mkAppendState (blocks_ st') (total_count_ st') (current_count_ st') (S (current_block_ st')) 0 (append_ranges_ st')
                               else st' in
                    AppendOuter fuel' inner_fuel seg' txn st' total
                | Some (Throw ex msg) => Some (Throw ex msg)
                | Some (UB why) => Some (UB why)
                | None => None
                end
            | Throw ex msg => Some (Throw ex msg)
            | UB why => Some (UB why)
            end
          else Some (Ret (seg, st, total_copied))
      | None => Some (Ret (seg, st, total_copied))
      end
  end.

(** [SegmentEntry::AppendData] *)
Definition SegmentAppendData (fuel : nat) seg txn st : option (outcome (SegmentEntry R * AppendState R * Z)) :=
  if to_u64 (seg_row_capacity_ seg - seg_row_count_ seg) <=? 0 then Some (Ret (seg, st, 0))
  else AppendOuter fuel fuel seg txn st 0.

Definition with_blocks seg (blocks : list (BlockEntry R)) (min_ts max_ts : Z) : SegmentEntry R :=
  mkSegmentEntry (segment_id seg) (seg_row_count_ seg) (seg_row_capacity_ seg) min_ts max_ts blocks.

(** [SegmentEntry::GetBlockEntryByID] *)
Definition GetBlockEntryByID seg (block_id : Z) : option (BlockEntry R) := block_entries_ seg !! Z.to_nat block_id.

(** [SegmentEntry::DeleteData] *)
Fixpoint SegmentDeleteData seg txn (block_rows : list (Z * list RowID)) : outcome (SegmentEntry R) :=
  match block_rows with
  | [] => Ret seg
  | (block_id, rows) :: rest =>
      match GetBlockEntryByID seg block_id with
      | None => Throw StorageException "The segment doesn't contain the given block: {}."
      | Some b =>
          b' ← BlockDeleteData b txn rows;
          SegmentDeleteData (with_blocks seg (<[Z.to_nat block_id := b']> (block_entries_ seg)) (seg_min_row_ts_ seg) (seg_max_row_ts_ seg)) txn rest
      end
  end.

(** [SegmentEntry::CommitAppend] *)
Definition SegmentCommitAppend seg txn (block_id : Z) : outcome (SegmentEntry R) :=
  let min_ts := if seg_min_row_ts_ seg =? 0 then CommitTS txn else seg_min_row_ts_ seg in
  let max_ts := Z.max (seg_max_row_ts_ seg) (CommitTS txn) in
  match block_entries_ seg !! Z.to_nat block_id with
  | None => UB "block_entries_ index out of range"
  | Some b =>
      b' ← BlockCommitAppend b txn;
      Ret (with_blocks seg (<[Z.to_nat block_id := b']> (block_entries_ seg)) min_ts max_ts)
  end.

(** [SegmentEntry::CommitDelete] *)
Fixpoint SegmentCommitDelete seg txn (block_rows : list (Z * list RowID)) : outcome (SegmentEntry R) :=
  match block_rows with
  | [] => Ret seg
  | (block_id, _) :: rest =>
      match GetBlockEntryByID seg block_id with
      | None => Throw StorageException "The segment doesn't contain the given block: {}."
      | Some b =>
          b' ← BlockCommitDelete b txn;
          SegmentCommitDelete (with_blocks seg (<[Z.to_nat block_id := b']> (block_entries_ seg)) (seg_min_row_ts_ seg)
                                (Z.max (seg_max_row_ts_ seg) (CommitTS txn))) txn rest
      end
  end.

(** ** What an append copies *)

Definition seg_rows seg : list R := concat (columns_rows <$> block_entries_ seg).

(** The room of the block that the next row goes to. *)
Definition free_room seg : Z :=
  match last (block_entries_ seg) with
  | Some b => if Room b <=? 0 then DEFAULT_VECTOR_SIZE else Room b
  | None => 0
  end.

Definition block_ok txn (b : BlockEntry R) : Prop :=
  wf_block b /\ row_capacity_ b = DEFAULT_VECTOR_SIZE /\ other_txn b txn = false.

Definition seg_ok seg txn : Prop := block_entries_ seg <> [] /\ Forall (block_ok txn) (block_entries_ seg).

(** The rows copied for one input block when [room] rows fit into the current
    block, and the room afterwards. *)
Definition copied (room : Z) (input : list R) : list R * Z :=
  let n := Z.of_nat (length input) in
  if n <? room then (input, room - n)
  else if n =? room then (input, DEFAULT_VECTOR_SIZE)
  else (take (Z.to_nat room) input ++ take (Z.to_nat (n - room)) input, DEFAULT_VECTOR_SIZE - (n - room)).

Fixpoint copied_all (room : Z) (inputs : list (list R)) : list R :=
  match inputs with
  | [] => []
  | i :: rest => (copied room i).1 ++ copied_all (copied room i).2 rest
  end.

Lemma NewBlockEntry_ok txn (id ts : Z) : block_ok txn (NewBlockEntry id ts).
Proof.
  split_and!; [|done|done].
  constructor; simpl; first [done|by rewrite length_replicate|constructor; constructor|constructor].
Qed.

Lemma BlockAppendData_ok b txn (input : list R) n :
  block_ok txn b -> 0 < n <= Z.of_nat (length input) ->
  exists b', BlockAppendData b txn input 0 n = Ret (b', Z.min n (Room b)) /\ block_ok txn b' /\
    columns_rows b' = columns_rows b ++ take (Z.to_nat (Z.min n (Room b))) input /\ Room b' = Room b - Z.min n (Room b).
Proof.
  intros (W & Hcap & Ho) Hn. pose proof (wf_capacity _ W) as Hc. pose proof (wf_rows _ W) as Hr0.
  destruct (BlockAppendData b txn input 0 n) as [[b' k]| |] eqn:E.
  - destruct (BlockAppendData_spec b txn input 0 n b' k W ltac:(lia) ltac:(lia) E) as (Hk & Hrc & Hr & _ & _ & Hcp & _ & Hp).
    unfold Room in *. rewrite <- Hk. exists b'. split_and!; [done| |done|lia]. split_and!; [|congruence|].
    + apply (block_step_stable 0 b b' W). eapply step_append; [exact E|lia|lia].
    + unfold other_txn. rewrite Hp. by rewrite bool_decide_true.
  - exfalso. revert E. unfold BlockAppendData. rewrite Ho. unfold AppendColumns.
    destruct (_ <? _); [done|]. done.
  - exfalso. revert E. unfold BlockAppendData. rewrite Ho. unfold AppendColumns.
    destruct (_ >? _) eqn:E1; zbool.
    + assert (to_u16 (row_capacity_ b - row_count_ b) = row_capacity_ b - row_count_ b) as -> by (apply u_wrap_id; unfold u_range; lia).
      destruct (_ <? _) eqn:E2; zbool; [lia|done].
    + destruct (_ <? _) eqn:E2; zbool; [lia|done].
Qed.

Lemma current_blocks_ok seg txn :
  seg_ok seg txn ->
  exists others b, current_blocks seg = Ret (others, b) /\ Forall (block_ok txn) others /\ block_ok txn b /\
    Room b = free_room seg /\ concat (columns_rows <$> others) ++ columns_rows b = seg_rows seg.
Proof.
  intros [Hne Hall]. unfold current_blocks, free_room, seg_rows.
  destruct (block_entries_ seg) as [|b l _] using rev_ind; [done|]. rewrite last_snoc.
  apply Forall_app in Hall as [Hl Hb]. apply Forall_cons in Hb as [Hb _].
  destruct (Room b <=? 0) eqn:E.
  - eexists _, _. split; [reflexivity|]. split_and!; [|apply NewBlockEntry_ok|done|].
    + apply Forall_app. split; [done|by constructor].
    + by rewrite app_nil_r.
  - eexists _, _. split; [reflexivity|]. rewrite length_app. cbn [length].
    replace (length l + 1 - 1)%nat with (length l) by lia. rewrite take_app_length.
    split_and!; [done..|]. rewrite fmap_app, concat_app. cbn [fmap list_fmap concat]. by rewrite app_nil_r.
Qed.

(** One iteration of the inner loop. *)
Lemma AppendInner_step fuel seg txn (input : list R) st n total :
  seg_ok seg txn -> current_block_offset_ st = 0 -> 0 < n <= Z.of_nat (length input) -> n < 2 ^ 16 ->
  seg_row_count_ seg < seg_row_capacity_ seg ->
  let k := Z.min n (free_room seg) in
  exists seg' st', AppendInner (S fuel) seg txn input st n total = AppendInner fuel seg' txn input st' (n - k) (total + k) /\
    seg_ok seg' txn /\ seg_rows seg' = seg_rows seg ++ take (Z.to_nat k) input /\
    seg_row_count_ seg' = seg_row_count_ seg + k /\ seg_row_capacity_ seg' = seg_row_capacity_ seg /\
    free_room seg' = (if k =? free_room seg then DEFAULT_VECTOR_SIZE else free_room seg - k) /\
    blocks_ st' = blocks_ st /\ total_count_ st' = total_count_ st /\ current_count_ st' = current_count_ st + k /\
    current_block_ st' = current_block_ st /\ current_block_offset_ st' = 0.
Proof.
  intros Hok Ho Hn Hn16 Hcap k. destruct (current_blocks_ok seg txn Hok) as (others & b & Ec & Hoth & Hb & Hroom & Hrows).
  destruct (BlockAppendData_ok b txn input n Hb Hn) as (b' & Ea & Hb' & Hr' & Hroom'). rewrite Hroom in *. fold k in Ea, Hr', Hroom'.
  assert (0 < free_room seg) as Hpos.
  { unfold free_room. destruct (last (block_entries_ seg)) as [x|] eqn:El; [|apply last_None in El; by destruct Hok].
    destruct (Room x <=? 0) eqn:E; zbool; [done|lia]. }
  cbn [AppendInner]. assert ((n >? 0) = true) as -> by (rewrite Z.gtb_ltb; apply Z.ltb_lt; lia).
  assert ((seg_row_count_ seg <? seg_row_capacity_ seg) = true) as -> by (apply Z.ltb_lt; lia). cbn [andb].
  rewrite Ec, Ho, Ea. assert ((n <? k) = false) as -> by (apply Z.ltb_ge; lia).
  assert (to_u16 (n - k) = n - k) as -> by (apply u_wrap_id; unfold u_range; lia).
  do 2 eexists. split; [reflexivity|]. cbn [seg_row_count_ seg_row_capacity_ blocks_ total_count_ current_count_ current_block_ current_block_offset_].
  split_and!; try done.
  - split; [simpl; by destruct others|]. simpl. apply Forall_app. split; [done|by constructor].
  - unfold seg_rows. simpl. rewrite fmap_app, concat_app. cbn [fmap list_fmap concat]. rewrite app_nil_r, Hr', app_assoc.
    by rewrite Hrows.
  - unfold free_room at 1. simpl. rewrite last_snoc, Hroom'. destruct (k =? free_room seg) eqn:E; zbool.
    + assert ((free_room seg - k <=? 0) = true) as -> by (apply Z.leb_le; lia). done.
    + assert ((free_room seg - k <=? 0) = false) as -> by (apply Z.leb_gt; lia). done.
Qed.

(** The inner loop on a whole input block takes at most two iterations. *)
Lemma AppendInner_block fuel seg txn (input : list R) st total :
  seg_ok seg txn -> current_block_offset_ st = 0 ->
  let n := Z.of_nat (length input) in
  n <= DEFAULT_VECTOR_SIZE -> seg_row_count_ seg + n < seg_row_capacity_ seg -> 0 < free_room seg ->
  exists seg' st', AppendInner (S (S (S fuel))) seg txn input st n total = Some (Ret (seg', st', 0, total + n)) /\
    seg_ok seg' txn /\ seg_rows seg' = seg_rows seg ++ (copied (free_room seg) input).1 /\
    free_room seg' = (copied (free_room seg) input).2 /\
    seg_row_count_ seg' = seg_row_count_ seg + n /\ seg_row_capacity_ seg' = seg_row_capacity_ seg /\
    blocks_ st' = blocks_ st /\ total_count_ st' = total_count_ st /\ current_count_ st' = current_count_ st + n /\
    current_block_ st' = current_block_ st /\ current_block_offset_ st' = 0.
Proof.
  intros Hok Ho n Hn Hcap Hroom. unfold DEFAULT_VECTOR_SIZE, DEFAULT_BLOCK_CAPACITY in Hn.
  assert (forall fuel seg st total, AppendInner (S fuel) seg txn input st 0 total = Some (Ret (seg, st, 0, total))) as Hend by done.
  destruct (decide (n = 0)) as [E0|Hn0].
  { rewrite E0, Hend. exists seg, st. rewrite !Z.add_0_r. unfold copied. fold n. rewrite E0.
    assert ((0 <? free_room seg) = true) as -> by (by apply Z.ltb_lt). cbn [fst snd].
    assert (input = []) as -> by (destruct input; [done|simpl in *; lia]). rewrite app_nil_r. split_and!; try done; lia. }
  destruct (AppendInner_step (S (S fuel)) seg txn input st n total) as (seg1 & st1 & -> & Hok1 & Hr1 & Hc1 & Hcp1 & Hf1 & Hb1 & Ht1 & Hcc1 & Hcb1 & Ho1);
    [done|done|lia|lia|lia|]. set (room := free_room seg) in *. unfold copied. fold n.
  destruct (n <? room) eqn:E1; zbool; [|destruct (n =? room) eqn:E2; zbool].
  - rewrite Z.min_l in * by lia. rewrite Z.sub_diag, Hend. exists seg1, st1. cbn [fst snd].
    assert ((n =? room) = false) as Ef by (apply Z.eqb_neq; lia). rewrite Ef in Hf1.
    rewrite take_ge in Hr1 by lia. split_and!; done.
  - rewrite Z.min_l in * by lia. rewrite Z.sub_diag, Hend. exists seg1, st1. cbn [fst snd].
    assert ((n =? room) = true) as Ef by (by apply Z.eqb_eq). rewrite Ef in Hf1.
    rewrite take_ge in Hr1 by lia. split_and!; done.
  - rewrite Z.min_r in * by lia. rewrite Z.eqb_refl in Hf1.
    destruct (AppendInner_step (S fuel) seg1 txn input st1 (n - room) (total + room))
      as (seg2 & st2 & -> & Hok2 & Hr2 & Hc2 & Hcp2 & Hf2 & Hb2 & Ht2 & Hcc2 & Hcb2 & Ho2); [done|done|lia|lia|lia|].
    rewrite Hf1 in *. unfold DEFAULT_VECTOR_SIZE, DEFAULT_BLOCK_CAPACITY in *. rewrite Z.min_l in * by lia.
    rewrite Z.sub_diag, Hend. exists seg2, st2. cbn [fst snd].
    assert ((n - room =? 8192) = false) as Ef by (apply Z.eqb_neq; lia). rewrite Ef in Hf2.
    rewrite Hr2, Hr1, <- app_assoc, Hb2, Ht2, Hcb2. split_and!; try done; try lia. do 3 f_equal. lia.
Qed.

(** A data block as [TxnTableStore::Append] leaves it. *)
Definition data_ok db : Prop :=
  finalized db = true /\ db_row_count_ db = Z.of_nat (length (block_rows db)) /\ db_row_count_ db <= DEFAULT_VECTOR_SIZE.

Definition total_rows (dbs : list (DataBlock R)) : Z := Z.of_nat (length (concat (block_rows <$> dbs))).

Lemma copied_room room input : 0 < room -> Z.of_nat (length input) <= DEFAULT_VECTOR_SIZE -> 0 < (copied room input).2.
Proof.
  intros Hr Hn. unfold copied. destruct (_ <? _) eqn:E; zbool; [simpl; lia|]. destruct (_ =? _) eqn:E2; zbool; [done|].
  simpl. unfold DEFAULT_VECTOR_SIZE, DEFAULT_BLOCK_CAPACITY in *. lia.
Qed.

Lemma AppendOuter_all dbs pre seg txn st total fuel ifuel :
  blocks_ st = pre ++ dbs -> current_block_ st = length pre -> current_block_offset_ st = 0 ->
  Forall data_ok dbs -> seg_ok seg txn -> 0 < free_room seg ->
  seg_row_count_ seg + total_rows dbs < seg_row_capacity_ seg -> (length dbs < fuel)%nat ->
  exists seg' st', AppendOuter fuel (S (S (S ifuel))) seg txn st total = Some (Ret (seg', st', total + total_rows dbs)) /\
    seg_ok seg' txn /\ seg_rows seg' = seg_rows seg ++ copied_all (free_room seg) (block_rows <$> dbs) /\
    seg_row_count_ seg' = seg_row_count_ seg + total_rows dbs /\
    current_count_ st' = current_count_ st + total_rows dbs /\ total_count_ st' = total_count_ st.
Proof.
  revert pre seg st total fuel. induction dbs as [|db dbs IH]; intros pre seg st total fuel Hb Hc Ho Hd Hok Hroom Hcap Hf;
    (destruct fuel as [|fuel]; [simpl in Hf; lia|]); cbn [AppendOuter]; rewrite Hb, Hc.
  { rewrite lookup_ge_None_2 by (rewrite app_nil_r; lia). exists seg, st. unfold total_rows. simpl.
    rewrite app_nil_r, !Z.add_0_r. split_and!; done. }
  rewrite list_lookup_middle by done. apply Forall_cons in Hd as [(Hfin & Hrc & Hle) Hd].
  assert (total_rows (db :: dbs) = Z.of_nat (length (block_rows db)) + total_rows dbs) as Ht.
  { unfold total_rows. rewrite fmap_cons. cbn [concat]. rewrite length_app. lia. }
  rewrite Ht in *. assert (0 <= total_rows dbs) by (unfold total_rows; lia).
  assert ((seg_row_count_ seg <? seg_row_capacity_ seg) = true) as -> by (apply Z.ltb_lt; lia).
  unfold row_count. rewrite Hfin, Hrc in *. unfold DEFAULT_VECTOR_SIZE, DEFAULT_BLOCK_CAPACITY in Hle.
  assert (to_u16 (Z.of_nat (length (block_rows db))) = Z.of_nat (length (block_rows db))) as -> by (apply u_wrap_id; unfold u_range; lia).
  destruct (AppendInner_block ifuel seg txn (block_rows db) st total) as (seg1 & st1 & -> & Hok1 & Hr1 & Hf1 & Hc1 & Hcp1 & Hb1 & Ht1 & Hcc1 & Hcb1 & Ho1);
    [done|done|done|lia|done|]. cbn [Z.eqb].
  set (st2 := mkAppendState _ _ _ _ _ _).
  destruct (IH (pre ++ [db]) seg1 st2 (total + Z.of_nat (length (block_rows db))) fuel) as (seg' & st' & -> & Hok' & Hr' & Hc' & Hcc' & Ht');
    [simpl; by rewrite Hb1, Hb, <- app_assoc|simpl; rewrite Hcb1, Hc, length_app; simpl; lia|done|done|done| |lia|simpl in Hf; lia|].
  { rewrite Hf1. by apply copied_room. }
  exists seg', st'. split; [do 3 f_equal; lia|]. simpl in Hcc', Ht'. split_and!; [done| |lia|lia|congruence].
  rewrite Hr', Hr1, Hf1, fmap_cons. cbn [copied_all]. by rewrite <- app_assoc.
Qed.

Lemma NewAppendState_ok dbs :
  Forall data_ok dbs -> NewAppendState dbs = Ret (mkAppendState dbs (total_rows dbs) 0 0 0 []).
Proof.
  intros Hd. unfold NewAppendState. assert (sum_row_counts dbs = Ret (total_rows dbs)) as ->; [|done].
  induction Hd as [|db dbs (Hf & Hr & _) _ IH]; [done|]. cbn [sum_row_counts]. unfold row_count. rewrite Hf, Hr, IH.
  cbn [mbind outcome_bind]. f_equal. unfold total_rows. rewrite fmap_cons. cbn [concat]. rewrite length_app. lia.
Qed.

Lemma seg_ok_room seg txn : seg_ok seg txn -> 0 < free_room seg.
Proof.
  intros [Hne _]. unfold free_room. destruct (last (block_entries_ seg)) as [b|] eqn:El; [|by apply last_None in El].
  destruct (Room b <=? 0) eqn:E; zbool; [done|lia].
Qed.

Lemma SegmentAppendData_all seg txn dbs st fuel :
  seg_ok seg txn -> Forall data_ok dbs -> NewAppendState dbs = Ret st ->
  0 <= seg_row_count_ seg -> seg_row_count_ seg + total_rows dbs < seg_row_capacity_ seg < 2 ^ 64 -> (length dbs + 3 <= fuel)%nat ->
  exists seg' st', SegmentAppendData fuel seg txn st = Some (Ret (seg', st', total_rows dbs)) /\
    seg_ok seg' txn /\ seg_rows seg' = seg_rows seg ++ copied_all (free_room seg) (block_rows <$> dbs) /\ Finished st' = true.
Proof.
  intros Hok Hd Hst H0 Hcap Hf. rewrite (NewAppendState_ok dbs Hd) in Hst. simplify_eq.
  assert (0 <= total_rows dbs) by (unfold total_rows; lia). unfold SegmentAppendData.
  assert (to_u64 (seg_row_capacity_ seg - seg_row_count_ seg) = seg_row_capacity_ seg - seg_row_count_ seg) as ->
    by (apply u_wrap_id; unfold u_range; lia).
  assert ((seg_row_capacity_ seg - seg_row_count_ seg <=? 0) = false) as -> by (apply Z.leb_gt; lia).
  destruct fuel as [|[|[|fuel]]]; [lia..|].
  destruct (AppendOuter_all dbs [] seg txn (mkAppendState dbs (total_rows dbs) 0 0 0 []) 0 (S (S (S fuel))) fuel)
    as (seg' & st' & -> & Hok' & Hr & _ & Hc & Ht); [done..|by eapply seg_ok_room|lia|lia|].
  exists seg', st'. split_and!; [done|done|done|]. unfold Finished. rewrite Hc, Ht. simpl. by apply Z.eqb_refl.
Qed.

(** No input block is cut by the end of a block of the segment. *)
Fixpoint fits (room : Z) (inputs : list (list R)) : Prop :=
  match inputs with
  | [] => True
  | i :: rest => Z.of_nat (length i) <= room /\ fits (copied room i).2 rest
  end.

Lemma copied_all_fits room inputs : fits room inputs -> copied_all room inputs = concat inputs.
Proof.
  revert room. induction inputs as [|i inputs IH]; intros room Hf; [done|]. destruct Hf as [Hi Hf]. cbn [copied_all concat].
  rewrite IH by done. f_equal. unfold copied. destruct (_ <? _) eqn:E; [done|]. zbool.
  assert ((Z.of_nat (length i) =? room) = true) as -> by (apply Z.eqb_eq; lia). done.
Qed.

(** ** Properties *)

(** C30: [AppendData] appends exactly the rows of the data blocks, in order, and
    reports the append as finished, if the data blocks are finalised, none of them is
    cut by the end of a block of the segment, and the segment has room for more than
    all of them. *)
Theorem segment_append_correct seg txn dbs st fuel :
  seg_ok seg txn -> Forall data_ok dbs -> NewAppendState dbs = Ret st ->
  0 <= seg_row_count_ seg -> seg_row_count_ seg + total_rows dbs < seg_row_capacity_ seg < 2 ^ 64 -> (length dbs + 3 <= fuel)%nat ->
  fits (free_room seg) (block_rows <$> dbs) ->
  exists seg' st', SegmentAppendData fuel seg txn st = Some (Ret (seg', st', total_rows dbs)) /\
    seg_rows seg' = seg_rows seg ++ concat (block_rows <$> dbs) /\ Finished st' = true.
Proof.
  intros Hok Hd Hst H0 Hcap Hf Hfit.
  destruct (SegmentAppendData_all seg txn dbs st fuel Hok Hd Hst H0 Hcap Hf) as (seg' & st' & E & _ & Hr & Hfin).
  exists seg', st'. split_and!; [done| |done]. by rewrite Hr, copied_all_fits.
Qed.

(** If a data block is cut, because only [room] of its rows fit into the
    current block, the rest is filled with its first rows once more: the last
    [room] rows are lost, and the append is reported as finished. *)
Theorem segment_append_split_duplicates seg txn db st fuel :
  seg_ok seg txn -> data_ok db -> NewAppendState [db] = Ret st ->
  0 <= seg_row_count_ seg -> seg_row_count_ seg + total_rows [db] < seg_row_capacity_ seg < 2 ^ 64 -> (4 <= fuel)%nat ->
  let room := free_room seg in let n := Z.of_nat (length (block_rows db)) in
  room < n ->
  exists seg' st', SegmentAppendData fuel seg txn st = Some (Ret (seg', st', n)) /\
    seg_rows seg' = seg_rows seg ++ take (Z.to_nat room) (block_rows db) ++ take (Z.to_nat (n - room)) (block_rows db) /\
    Finished st' = true.
Proof.
  intros Hok Hd Hst H0 Hcap Hf room n Hlt.
  destruct (SegmentAppendData_all seg txn [db] st fuel Hok (proj2 (Forall_singleton _ _) Hd) Hst H0 Hcap Hf) as (seg' & st' & E & _ & Hr & Hfin).
  exists seg', st'. split_and!; [rewrite E; unfold total_rows; simpl; by rewrite app_nil_r| |done].
  rewrite Hr. f_equal. cbn [fmap list_fmap copied_all]. rewrite app_nil_r. unfold copied. fold room n.
  assert ((n <? room) = false) as -> by (apply Z.ltb_ge; lia). assert ((n =? room) = false) as -> by (apply Z.eqb_neq; lia). done.
Qed.
End Segment.

(** ** Examples *)

(** A segment whose only block has room for two rows. *)
Definition sample_seg : SegmentEntry Z :=
  mkSegmentEntry 0 8190 DEFAULT_SEGMENT_CAPACITY 2 2
    [mkBlockEntry 0 8190 DEFAULT_VECTOR_SIZE (replicate (Z.to_nat 8190) 0)
       (mkBlockVersion [mkCreateField 2 8190] (replicate (Z.to_nat 8192) 0)) 2 2 0 None 0].

Definition sample_db (rows : list Z) : DataBlock Z := mkDataBlock [] rows (Z.of_nat (length rows)) DEFAULT_VECTOR_SIZE true.

Lemma sample_seg_ok : seg_ok sample_seg (mkTxnRef 1 5).
Proof.
  split; [done|]. constructor; [|constructor]. split_and!; [|done|done].
  constructor; cbn [block_version_ columns_rows row_count_ row_capacity_ created_ deleted_]; rewrite ?length_replicate; try done.
  - split; repeat constructor; simpl; lia.
  - repeat constructor. simpl. lia.
Qed.

Lemma segment_append_correct_witness :
  exists seg' st', SegmentAppendData 9 sample_seg (mkTxnRef 1 5) (mkAppendState [sample_db [1; 2]; sample_db [3]] 3 0 0 0 []) = Some (Ret (seg', st', 3)) /\
    seg_rows seg' = seg_rows sample_seg ++ [1; 2; 3] /\ Finished st' = true.
Proof.
  apply (segment_append_correct sample_seg (mkTxnRef 1 5) [sample_db [1; 2]; sample_db [3]] (mkAppendState [sample_db [1; 2]; sample_db [3]] 3 0 0 0 []) 9);
    [apply sample_seg_ok| |done|done|done|simpl; lia|].
  - repeat constructor; simpl; done || lia.
  - split_and!; done.
Defined.

Lemma segment_append_split_duplicates_witness :
  exists seg' st', SegmentAppendData 9 sample_seg (mkTxnRef 1 5) (mkAppendState [sample_db [1; 2; 3]] 3 0 0 0 []) = Some (Ret (seg', st', 3)) /\
    seg_rows seg' = seg_rows sample_seg ++ [1; 2; 1] /\ Finished st' = true.
Proof.
  apply (segment_append_split_duplicates sample_seg (mkTxnRef 1 5) (sample_db [1; 2; 3]) (mkAppendState [sample_db [1; 2; 3]] 3 0 0 0 []) 9);
    [apply sample_seg_ok| |done|done|done|lia|done].
  split_and!; done.
Defined.
