(* ===== verification/TxnStore.v ===== *)
(** * Tables' data and the local store of a transaction

    The data operations of [storage/meta/entry/table_collection_entry.cpp] and
    [storage/txn/txn_store.cpp].  A hash map that is iterated is an association
    list in the order of the iteration. *)

From stdpp Require Import base list gmap strings sorting.
From Stdlib Require Import ZArith Lia.
From S2P Require Import Prelude Defs Common Wire Block Segment.

Open Scope Z_scope.

(** The data of a [TableCollectionEntry]: [unsealed_segment_] points into
    [segment_map_] and is the id of the segment. *)
Record TableData (R : Type) := mkTableData {
  segment_map_ : gmap Z (SegmentEntry R);
  table_row_count_ : Z;
  unsealed_segment_ : option Z;
  next_segment_id_ : Z;
}.

Arguments mkTableData {R} _ _ _ _.
Arguments segment_map_ {R} _.
Arguments table_row_count_ {R} _.
Arguments unsealed_segment_ {R} _.
Arguments next_segment_id_ {R} _.

(** [DeleteState]: the rows to delete by segment and block. *)
Definition DeleteState : Type := list (Z * list (Z * list RowID)).

(** [TxnTableStore]; [table_types] are the column types of [table_entry_]. *)
Record TxnTableStore (R : Type) := mkTxnTableStore {
  table_types : list DataType;
  store_blocks_ : list (DataBlock R);
  uncommitted_segments_ : list (SegmentEntry R);
  append_state_ : option (AppendState R);
  delete_state_ : DeleteState;
  current_block_id_ : nat;
}.

Arguments mkTxnTableStore {R} _ _ _ _ _ _.
Arguments table_types {R} _.
Arguments store_blocks_ {R} _.
Arguments uncommitted_segments_ {R} _.
Arguments append_state_ {R} _.
Arguments delete_state_ {R} _.
Arguments current_block_id_ {R} _.

(** Association lists for the maps of [DeleteState]. *)
Fixpoint al_lookup {V} (k : Z) (l : list (Z * V)) : option V :=
  match l with
  | [] => None
  | (k', v) :: rest => if k =? k' then Some v else al_lookup k rest
  end.

Fixpoint al_update {V} (k : Z) (f : V -> V) (l : list (Z * V)) : list (Z * V) :=
  match l with
  | [] => []
  | (k', v) :: rest => if k =? k' then (k', f v) :: rest else (k', v) :: al_update k f rest
  end.

Section TxnStore.
Context {R : Type}.
Implicit Types (t : TableData R) (s : TxnTableStore R) (txn : TxnRef) (st : AppendState R).

(** ** Tables *)

Definition empty_table : TableData R := mkTableData ∅ 0 None 0.

Definition with_segment t (id : Z) (seg : SegmentEntry R) : TableData R :=
  mkTableData (<[id := seg]> (segment_map_ t)) (table_row_count_ t) (unsealed_segment_ t) (next_segment_id_ t).

(** The part of the loop of [TableCollectionEntry::Append] that makes a new
    segment if there is none with room.  [emplace] keeps an existing segment of
    that id, and [unsealed_segment_] would point to the discarded one. *)
Definition EnsureUnsealed t : outcome (TableData R) :=
  let make :=
    let id := next_segment_id_ t in
    match segment_map_ t !! id with
    | Some _ => UB "unsealed_segment_ points to a discarded segment"
    | None => Ret (mkTableData (<[id := MakeNewSegmentEntry id]> (segment_map_ t)) (table_row_count_ t) (Some id) (to_u32 (id + 1)))
    end in
  match unsealed_segment_ t with
  | None => make
  | Some id =>
      match segment_map_ t !! id with
      | None => UB "unsealed_segment_ is dangling"
      | Some seg => if SegmentRoom seg <=? 0 then make else Ret t
      end
  end.

(** The loop of [TableCollectionEntry::Append]. *)
Fixpoint TableAppendLoop (fuel : nat) t txn st : option (outcome (TableData R * AppendState R)) :=
  match fuel with
  | O => None
  | S fuel' =>
      if Finished st then Some (Ret (t, st))
      else
        match EnsureUnsealed t with
        | Ret t' =>
            match unsealed_segment_ t' with
            | Some id =>
                match segment_map_ t' !! id with
                | Some seg =>
                    match SegmentAppendData fuel seg txn st with
                    | Some (Ret (seg', st', _)) => TableAppendLoop fuel' (with_segment t' id seg') txn st'
                    | Some (Throw ex msg) => Some (Throw ex msg)
                    | Some (UB why) => Some (UB why)
                    | None => None
                    end
                | None => Some (UB "unsealed_segment_ is dangling")
                end
            | None => Some (UB "unsealed_segment_ is null")
            end
        | Throw ex msg => Some (Throw ex msg)
        | UB why => Some (UB why)
        end
  end.

(** [TableCollectionEntry::Append]; [deleted] is the entry's flag. *)
Definition TableAppend (fuel : nat) (deleted : bool) t txn st : option (outcome (TableData R * AppendState R)) :=
  if deleted then Some (Throw StorageException "table is deleted") else TableAppendLoop fuel t txn st.

(** [TableCollectionEntry::Delete] *)
Fixpoint TableDelete t txn (ds : DeleteState) : outcome (TableData R) :=
  match ds with
  | [] => Ret t
  | (segment_id, block_rows) :: rest =>
      match segment_map_ t !! segment_id with
      | None => Throw ExecutorException "Going to delete data in non-exist segment: {}"
      | Some seg =>
          seg' ← SegmentDeleteData seg txn block_rows;
          TableDelete (with_segment t segment_id seg') txn rest
      end
  end.

(** The loop of [TableCollectionEntry::CommitAppend], with the local [row_count]. *)
Fixpoint CommitAppendLoop t txn (ranges : list AppendRange) (row_count : Z) : outcome (TableData R * Z) :=
  match ranges with
  | [] => Ret (t, row_count)
  | r :: rest =>
      match segment_map_ t !! range_segment_id_ r with
      | None => UB "null segment"
      | Some seg =>
          seg' ← SegmentCommitAppend seg txn (range_block_id_ r);
          CommitAppendLoop (with_segment t (range_segment_id_ r) seg') txn rest (row_count + range_row_count_ r)
      end
  end.

Definition add_rows t (n : Z) : TableData R :=
  mkTableData (segment_map_ t) (to_u64 (table_row_count_ t + n)) (unsealed_segment_ t) (next_segment_id_ t).

(** [TableCollectionEntry::CommitAppend] *)
Definition TableCommitAppend t txn (ranges : list AppendRange) : outcome (TableData R) :=
  '(t', row_count) ← CommitAppendLoop t txn ranges 0;
  Ret (add_rows t' row_count).

(** The loop of [TableCollectionEntry::CommitDelete]: [row_count] counts the
    blocks. *)
Fixpoint CommitDeleteLoop t txn (ds : DeleteState) (row_count : Z) : outcome (TableData R * Z) :=
  match ds with
  | [] => Ret (t, row_count)
  | (segment_id, block_rows) :: rest =>
      match segment_map_ t !! segment_id with
      | None => Throw ExecutorException "Going to commit delete data in non-exist segment: {}"
      | Some seg =>
          seg' ← SegmentCommitDelete seg txn block_rows;
          CommitDeleteLoop (with_segment t segment_id seg') txn rest (row_count + Z.of_nat (length block_rows))
      end
  end.

(** [TableCollectionEntry::CommitDelete] *)
Definition TableCommitDelete t txn (ds : DeleteState) : outcome (TableData R) :=
  '(t', row_count) ← CommitDeleteLoop t txn ds 0;
  Ret (add_rows t' row_count).

(** [TableCollectionEntry::ImportSegment] *)
Definition ImportSegment (deleted : bool) t txn (seg : SegmentEntry R) : outcome (TableData R) :=
  if deleted then Throw StorageException "table is deleted"
  else
    let ts := CommitTS txn in
    let import_block (b : BlockEntry R) :=
      let v := block_version_ b in
      mkBlockEntry (block_id_ b) (row_count_ b) (row_capacity_ b) (columns_rows b)
        (mkBlockVersion (created_ v ++ [mkCreateField ts (row_count_ b)]) (deleted_ v)) ts ts (checkpoint_ts_ b) (txn_ptr_ b)
        (checkpoint_row_count_ b) in
    let seg' := mkSegmentEntry (segment_id seg) (seg_row_count_ seg) (seg_row_capacity_ seg) ts ts (import_block <$> block_entries_ seg) in
    let rows := foldr (fun b n => row_count_ b + n) 0 (block_entries_ seg) in
    let map := match segment_map_ t !! segment_id seg with
               | Some _ => segment_map_ t
               | None => <[segment_id seg := seg']> (segment_map_ t)
               end in
    Ret (mkTableData map (to_u64 (table_row_count_ t + rows)) (unsealed_segment_ t) (next_segment_id_ t)).

(** ** The local store *)

Definition NewTxnTableStore (types : list DataType) : TxnTableStore R := mkTxnTableStore types [] [] None [] 0.

Definition with_store_blocks s (blocks : list (DataBlock R)) (current : nat) : TxnTableStore R :=
  mkTxnTableStore (table_types s) blocks (uncommitted_segments_ s) (append_state_ s) (delete_state_ s) current.

(** [TxnTableStore::Append]: the error message it returns, if any *)
Definition StoreAppend s (input_block : DataBlock R) : outcome (TxnTableStore R * option string) :=
  let column_count := length (table_types s) in
  if negb (length (column_types_ input_block) =? column_count)%nat
  then Ret (s, Some "Attempt to insert different column count data block into transaction table store")
  else if negb (bool_decide (table_types s = column_types_ input_block))
  then Ret (s, Some "Attempt to insert different type data into transaction table store")
  else
    s ← match store_blocks_ s with
        | [] => db ← DataBlock_Init (table_types s) DEFAULT_VECTOR_SIZE; Ret (with_store_blocks s [db] 0)
        | _ => Ret s
        end;
    match store_blocks_ s !! current_block_id_ s with
    | None => UB "blocks_ index out of range"
    | Some current_block =>
        cur ← row_count current_block;
        n ← row_count input_block;
        if cur + n >? capacity_ current_block then
          let to_append := capacity_ current_block - cur in
          cb ← AppendWith current_block input_block 0 to_append;
          let blocks := <[current_block_id_ s := Finalize cb]> (store_blocks_ s) in
          db ← DataBlock_Init (table_types s) DEFAULT_VECTOR_SIZE;
          let blocks := blocks ++ [db] in
          let id := S (current_block_id_ s) in
          match blocks !! id with
          | None => UB "blocks_ index out of range"
          | Some cb2 =>
              cb2 ← AppendWith cb2 input_block to_append (n - to_append);
              Ret (with_store_blocks s (<[id := Finalize cb2]> blocks) id, None)
          end
        else
          cb ← AppendWith current_block input_block 0 n;
          Ret (with_store_blocks s (<[current_block_id_ s := Finalize cb]> (store_blocks_ s)) (current_block_id_ s), None)
    end.

(** [TxnTableStore::Import] *)
Definition StoreImport s (seg : SegmentEntry R) : TxnTableStore R :=
  mkTxnTableStore (table_types s) (store_blocks_ s) (uncommitted_segments_ s ++ [seg]) (append_state_ s) (delete_state_ s) (current_block_id_ s).

(** The body of the loop of [TxnTableStore::Delete] *)
Definition DeleteRow (ds : DeleteState) (r : RowID) : DeleteState :=
  let block_id := to_u16 (segment_offset_ r / DEFAULT_BLOCK_CAPACITY) in
  match al_lookup (segment_id_ r) ds with
  | Some blocks =>
      let blocks' := match al_lookup block_id blocks with
                     | Some _ => al_update block_id (fun rows => rows ++ [r]) blocks
                     | None => blocks ++ [(block_id, [r])]
                     end in
      al_update (segment_id_ r) (fun _ => blocks') ds
  | None => ds ++ [(segment_id_ r, [(block_id, [r])])]
  end.

(** [TxnTableStore::Delete] *)
Definition StoreDelete s (row_ids : list RowID) : TxnTableStore R :=
  mkTxnTableStore (table_types s) (store_blocks_ s) (uncommitted_segments_ s) (append_state_ s)
    (foldl DeleteRow (delete_state_ s) row_ids) (current_block_id_ s).

(** [TxnTableStore::Rollback] *)
Definition StoreRollback s : outcome (TxnTableStore R) :=
  match append_state_ s with
  | Some _ => Throw NotImplementException "TableCollectionEntry::RollbackAppend"
  | None => Ret (with_store_blocks s [] (current_block_id_ s))
  end.

Fixpoint ImportAll (deleted : bool) t txn (segs : list (SegmentEntry R)) : outcome (TableData R) :=
  match segs with
  | [] => Ret t
  | seg :: rest => t' ← ImportSegment deleted t txn seg; ImportAll deleted t' txn rest
  end.

(** [TxnTableStore::PrepareCommit], without the index files *)
Definition StorePrepareCommit (fuel : nat) (deleted : bool) s t txn : option (outcome (TxnTableStore R * TableData R)) :=
  match NewAppendState (store_blocks_ s) with
  | Ret st =>
      match TableAppend fuel deleted t txn st with
      | Some r => Some (
          '(t, st) ← r;
          t ← ImportAll deleted t txn (uncommitted_segments_ s);
          t ← TableDelete t txn (delete_state_ s);
          Ret (mkTxnTableStore (table_types s) (store_blocks_ s) (uncommitted_segments_ s) (Some st) (delete_state_ s) (current_block_id_ s), t))
      | None => None
      end
  | Throw ex msg => Some (Throw ex msg)
  | UB why => Some (UB why)
  end.

(** [TxnTableStore::Commit] *)
Definition StoreCommit s t txn : outcome (TableData R) :=
  match append_state_ s with
  | None => UB "append_state_ is null"
  | Some st =>
      t ← TableCommitAppend t txn (append_ranges_ st);
      TableCommitDelete t txn (delete_state_ s)
  end.

(** ** Deleted rows by segment and block *)

Definition rows_of (ds : DeleteState) (seg blk : Z) : list RowID :=
  default [] (al_lookup seg ds ≫= al_lookup blk).

Definition block_of (r : RowID) : Z := to_u16 (segment_offset_ r / DEFAULT_BLOCK_CAPACITY).

Lemma al_lookup_update {V} k k' (f : V -> V) l :
  al_lookup k (al_update k' f l) = if k =? k' then f <$> al_lookup k l else al_lookup k l.
Proof.
  induction l as [|[j v] l IH]; simpl; [by destruct (k =? k')|].
  destruct (k' =? j) eqn:E1; simpl; destruct (k =? j) eqn:E2, (k =? k') eqn:E3; zbool; subst; try done; try lia;
    rewrite IH; rewrite ?Z.eqb_refl; try done; by (assert ((k =? k') = false) as -> by (by apply Z.eqb_neq)).
Qed.

Lemma al_lookup_snoc {V} k k' (v : V) l :
  al_lookup k (l ++ [(k', v)]) = match al_lookup k l with Some x => Some x | None => if k =? k' then Some v else None end.
Proof. induction l as [|[j x] l IH]; simpl; [done|]. by destruct (k =? j). Qed.

Lemma DeleteRow_rows ds r seg blk :
  rows_of (DeleteRow ds r) seg blk =
    rows_of ds seg blk ++ (if ((seg =? segment_id_ r) && (blk =? block_of r))%bool then [r] else []).
Proof.
  unfold DeleteRow, rows_of. fold (block_of r). destruct (al_lookup (segment_id_ r) ds) as [blocks|] eqn:Es.
  - rewrite al_lookup_update. destruct (seg =? segment_id_ r) eqn:E; zbool; cbn [andb]; [|by rewrite app_nil_r].
    subst seg. rewrite Es. cbn [fmap option_fmap option_map mbind option_bind].
    destruct (al_lookup (block_of r) blocks) as [rows|] eqn:Eb.
    + rewrite al_lookup_update. destruct (blk =? block_of r) eqn:E2; zbool; [|by rewrite app_nil_r].
      subst blk. by rewrite Eb.
    + rewrite al_lookup_snoc. destruct (blk =? block_of r) eqn:E2; zbool.
      * subst blk. by rewrite Eb.
      * destruct (al_lookup blk blocks); by rewrite ?app_nil_r.
  - rewrite al_lookup_snoc. destruct (seg =? segment_id_ r) eqn:E; zbool; cbn [andb].
    + subst seg. rewrite Es. simpl. by destruct (blk =? block_of r).
    + destruct (al_lookup seg ds) as [blocks|]; simpl; by rewrite ?app_nil_r.
Qed.

Lemma DeleteRows_rows rows ds seg blk :
  rows_of (foldl DeleteRow ds rows) seg blk =
    rows_of ds seg blk ++ filter (fun r => segment_id_ r = seg /\ block_of r = blk) rows.
Proof.
  revert ds. induction rows as [|r rows IH]; intros ds; simpl; [by rewrite filter_nil, app_nil_r|].
  rewrite IH, DeleteRow_rows, <- app_assoc. f_equal.
  destruct (seg =? segment_id_ r) eqn:E1, (blk =? block_of r) eqn:E2; zbool; cbn [andb app];
    [rewrite filter_cons_True by done; done|rewrite filter_cons_False by (intros [? ?]; congruence); done..].
Qed.

(** ** Properties *)

(** [TxnTableStore::Delete] records each row once, under the segment and the
    block that hold it, in the order of the calls, and keeps the rows recorded
    before. *)
Theorem store_delete_groups s row_ids seg blk :
  rows_of (delete_state_ (StoreDelete s row_ids)) seg blk =
    rows_of (delete_state_ s) seg blk ++ filter (fun r => segment_id_ r = seg /\ block_of r = blk) row_ids.
Proof. apply DeleteRows_rows. Qed.

(** The second append of a transaction is lost: it succeeds, but the data
    block it goes to was finalized by the first one and keeps its row count, so
    the total of the append state that is committed does not change. *)
Theorem store_second_append_lost s input s' db n total :
  StoreAppend s input = Ret (s', None) ->
  store_blocks_ s !! current_block_id_ s = Some db -> finalized db = true ->
  row_count input = Ret n -> db_row_count_ db + n <= capacity_ db ->
  sum_row_counts (store_blocks_ s) = Ret total ->
  sum_row_counts (store_blocks_ s') = Ret total.
Proof.
  intros HA Hdb Hfin Hn Hcap Hsum. unfold StoreAppend in HA. destruct (negb _); [done|]. destruct (negb _); [done|].
  destruct (store_blocks_ s) as [|b0 bs] eqn:Eb; [done|]. rewrite <- Eb in *. cbn [mbind outcome_bind] in HA. rewrite Hdb in HA.
  assert (row_count db = Ret (db_row_count_ db)) as Hrc by (unfold row_count; by rewrite Hfin).
  rewrite Hrc, Hn in HA. cbn [mbind outcome_bind] in HA.
  assert ((db_row_count_ db + n >? capacity_ db) = false) as Hle by (rewrite Z.gtb_ltb; by apply Z.ltb_ge). rewrite Hle in HA.
  destruct (AppendWith db input 0 n) as [cb| |] eqn:Ea; [|done..]. cbn [mbind outcome_bind] in HA. simplify_eq. cbn [store_blocks_ with_store_blocks].
  assert (row_count (Finalize cb) = row_count db) as Hsame.
  { unfold AppendWith in Ea. repeat (destruct_match_in Ea; try done); simplify_eq; unfold Finalize, row_count; simpl; by rewrite Hfin; simpl; rewrite ?Hfin. }
  clear -Hdb Hsum Hsame. revert total Hsum. generalize (current_block_id_ s) Hdb. clear Hdb.
  induction (store_blocks_ s) as [|x l IH]; intros i Hi total Hsum; [done|]. destruct i as [|i]; simpl in *.
  - simplify_eq. by rewrite Hsame.
  - destruct (row_count x) as [k| |]; simpl in *; [|done..].
    destruct (sum_row_counts l) as [k2| |] eqn:E2; simpl in *; [|done..]. by rewrite (IH i Hi k2 eq_refl).
Qed.

(** A transaction that appended twice to the same block cannot commit: the
    first [CommitAppend] of the block releases it and the second one throws. *)
Theorem commit_append_twice_fails t txn r1 r2 rest :
  range_segment_id_ r1 = range_segment_id_ r2 -> range_block_id_ r1 = range_block_id_ r2 ->
  is_ret (TableCommitAppend t txn (r1 :: r2 :: rest)) = false.
Proof.
  intros Es Eb. unfold TableCommitAppend. cbn [CommitAppendLoop]. rewrite <- Es, <- Eb.
  destruct (segment_map_ t !! range_segment_id_ r1) as [seg|]; [|done].
  destruct (SegmentCommitAppend seg txn (range_block_id_ r1)) as [seg'| |] eqn:E1; cbn [mbind outcome_bind]; [|done..].
  unfold with_segment at 1. cbn [segment_map_]. rewrite lookup_insert_eq.
  revert E1. unfold SegmentCommitAppend at 1.
  destruct (block_entries_ seg !! Z.to_nat (range_block_id_ r1)) as [b|] eqn:Eb1; [|done].
  destruct (BlockCommitAppend b txn) as [b'| |] eqn:E2; cbn [mbind outcome_bind]; [|done..]. intros [= <-].
  assert (txn_ptr_ b' = None) as Hp by (revert E2; unfold BlockCommitAppend; destruct (negb _); [done|]; by intros [= <-]).
  unfold SegmentCommitAppend. cbn [with_blocks block_entries_].
  rewrite list_lookup_insert_eq by (by eapply lookup_lt_Some).
  assert (BlockCommitAppend b' txn = conflict) as ->; [|done].
  unfold BlockCommitAppend. rewrite Hp. rewrite bool_decide_false by done. done.
Qed.
End TxnStore.

(** ** Examples *)

Definition sample_types : list DataType := [mkDataType LogicalType.kInteger None].

Definition sample_input (rows : list Z) : DataBlock Z := mkDataBlock sample_types rows (Z.of_nat (length rows)) DEFAULT_VECTOR_SIZE true.

Definition sample_store : TxnTableStore Z :=
  match StoreAppend (NewTxnTableStore sample_types) (sample_input [1; 2]) with Ret (s, _) => s | _ => NewTxnTableStore [] end.

Definition sample_store2 : TxnTableStore Z :=
  match StoreAppend sample_store (sample_input [3]) with Ret (s, _) => s | _ => NewTxnTableStore [] end.

Lemma store_second_append_lost_witness : sum_row_counts (store_blocks_ sample_store2) = Ret 2.
Proof.
  apply (store_second_append_lost sample_store (sample_input [3]) sample_store2 (mkDataBlock sample_types [1; 2] 2 DEFAULT_VECTOR_SIZE true) 1 2);
    vm_compute; done.
Defined.

Definition sample_commit_block : BlockEntry Z :=
  mkBlockEntry 0 2 4 [1; 2] (mkBlockVersion [] [0; 0; 0; 0]) 0 0 0 (Some 7%positive) 0.

Lemma commit_append_twice_fails_witness :
  is_ret (TableCommitAppend (mkTableData {[ 0 := mkSegmentEntry 0 2 8 0 0 [sample_commit_block] ]} 0 (Some 0) 1) (mkTxnRef 7 5)
    [mkAppendRange 0 0 0 1; mkAppendRange 0 0 1 1]) = false.
Proof. apply (commit_append_twice_fails _ (mkTxnRef 7 5) (mkAppendRange 0 0 0 1) (mkAppendRange 0 0 1 1) []); reflexivity. Defined.
