(* ===== verification/TableScan.v ===== *)
(** * Table scans

    The loop of [PhysicalTableScan::ExecuteInternal]
    ([executor/operator/physical_table_scan.cpp]) over the blocks of a
    [BlockIndex] ([storage/common/block_index.cpp]). *)

From stdpp Require Import base list gmap strings sorting.
From Stdlib Require Import ZArith Lia.
From S2P Require Import Prelude Defs Common Block Segment.

Open Scope Z_scope.

(** A block of the index with its [GlobalBlockID]. *)
Record IndexedBlock (R : Type) := mkIndexedBlock {
  ib_segment_id : Z;
  ib_block : BlockEntry R;
}.

Arguments mkIndexedBlock {R} _ _.
Arguments ib_segment_id {R} _.
Arguments ib_block {R} _.

(** An output row: its [RowID] column and its data. *)
Definition OutRow (R : Type) : Type := RowID * R.

Section TableScan.
Context {R : Type}.
Implicit Types (ibs : list (IndexedBlock R)) (ib : IndexedBlock R) (ts cap : Z).

(** [BlockIndex::Insert] *)
Definition BlockIndexInsert ibs (seg : SegmentEntry R) (timestamp : Z) : list (IndexedBlock R) :=
  if timestamp >=? seg_min_row_ts_ seg
  then ibs ++ (mkIndexedBlock (segment_id seg) <$> filter (fun b => min_row_ts_ b <= timestamp) (block_entries_ seg))
  else ibs.

(** The rows [start, start + n) of a block as output rows. *)
Definition out_rows ib (rows : list (nat * R)) : list (OutRow R) :=
  (fun p => (mkRowID (ib_segment_id ib) (to_u32 (block_id_ (ib_block ib) * DEFAULT_BLOCK_CAPACITY + Z.of_nat p.1)), p.2)) <$> rows.

(** The loop of [ExecuteInternal]: [idx] is [current_block_ids_idx_], [off] is
    [current_read_offset_], [cap] is [write_capacity]. *)
Fixpoint ScanLoop (fuel : nat) ibs ts (idx : nat) (off cap : Z) (output : list (OutRow R)) : option (nat * Z * list (OutRow R)) :=
  match fuel with
  | O => None
  | S fuel' =>
      match ibs !! idx with
      | Some ib =>
          if cap >? 0 then
            let '(row_begin, row_end) := VisibleRange (ib_block ib) ts (to_u16 off) in
            let write_size := Z.min cap (row_end - row_begin) in
            if write_size >? 0 then
              let rows := out_rows ib (rows_at (ib_block ib) (Z.to_nat row_begin) (Z.to_nat write_size)) in
              ScanLoop fuel' ibs ts idx (row_begin + write_size) (cap - write_size) (output ++ rows)
            else ScanLoop fuel' ibs ts (S idx) 0 cap output
          else Some (idx, off, output)
      | None => Some (idx, off, output)
      end
  end.

(** One call of [ExecuteInternal] with a fresh output block of [capacity] rows:
    the output, the new position and whether the scan is complete. *)
Definition ExecuteTableScan (fuel : nat) ibs ts (idx : nat) (off capacity : Z) : option (list (OutRow R) * nat * Z * bool) :=
  if (length ibs <=? idx)%nat then Some ([], idx, off, true)
  else
    match ScanLoop fuel ibs ts idx off capacity [] with
    | Some (idx', off', output) => Some (output, idx', off', (length ibs <=? idx')%nat)
    | None => None
    end.

(** Calls until the scan is complete: the list of outputs. *)
Fixpoint ScanAll (calls fuel : nat) ibs ts (idx : nat) (off capacity : Z) : option (list (list (OutRow R))) :=
  match calls with
  | O => None
  | S calls' =>
      match ExecuteTableScan fuel ibs ts idx off capacity with
      | Some (output, _, _, true) => Some [output]
      | Some (output, idx', off', false) =>
          match ScanAll calls' fuel ibs ts idx' off' capacity with
          | Some outs => Some (output :: outs)
          | None => None
          end
      | None => None
      end
  end.

(** ** Correctness *)

Definition block_count ib ts : nat := Z.to_nat (GetRowCount (block_version_ (ib_block ib)) ts).

Definition visible_out ts ib : list (OutRow R) := out_rows ib (visible_rows (ib_block ib) ts).

(** The rows that a scan at a position has still to return. *)
Definition remaining ibs ts (idx off : nat) : list (OutRow R) :=
  match drop idx ibs with
  | [] => []
  | ib :: rest => out_rows ib (visible_from (ib_block ib) ts off (block_count ib ts - off)) ++ concat (visible_out ts <$> rest)
  end.

Definition position_ok ibs ts (idx off : nat) : Prop :=
  match ibs !! idx with Some ib => (off <= block_count ib ts)%nat | None => True end.

Lemma out_rows_app ib l1 l2 : out_rows ib (l1 ++ l2) = out_rows ib l1 ++ out_rows ib l2.
Proof. apply fmap_app. Qed.

Lemma ScanLoop_spec fuel ibs ts idx (off : nat) cap output :
  Forall (fun ib => wf_block (ib_block ib)) ibs -> position_ok ibs ts idx off -> 0 <= cap ->
  (Z.to_nat cap + (length ibs - idx) < fuel)%nat ->
  exists idx' (off' : nat), ScanLoop fuel ibs ts idx (Z.of_nat off) cap output =
      Some (idx', Z.of_nat off', output ++ take (Z.to_nat cap) (remaining ibs ts idx off)) /\
    position_ok ibs ts idx' off' /\ remaining ibs ts idx' off' = drop (Z.to_nat cap) (remaining ibs ts idx off) /\
    ((length ibs <= idx')%nat \/ (Z.to_nat cap <= length (remaining ibs ts idx off))%nat).
Proof.
  intros Hwf. revert idx off cap output. induction fuel as [|fuel IH]; intros idx off cap output Hpos Hcap Hf; [lia|].
  cbn [ScanLoop]. unfold position_ok in Hpos. destruct (ibs !! idx) as [ib|] eqn:Eib.
  2: { exists idx, off. apply lookup_ge_None in Eib. unfold remaining. rewrite drop_ge by done.
       rewrite take_nil, app_nil_r, drop_nil. split_and!; [done| |done|by left].
       unfold position_ok. by rewrite lookup_ge_None_2. }
  destruct (cap >? 0) eqn:Ec; zbool.
  2: { assert (cap = 0) as -> by lia. exists idx, off. simpl. rewrite app_nil_r.
       split_and!; [done| |by rewrite drop_0|right; lia]. unfold position_ok. by rewrite Eib. }
  pose proof (lookup_lt_Some _ _ _ Eib) as Hidx. pose proof (drop_S _ _ _ Eib) as Hdrop.
  rewrite Forall_forall in Hwf. pose proof (Hwf ib (list_elem_of_lookup_2 _ _ _ Eib)) as W.
  pose proof (GetRowCount_bounds (ib_block ib) ts W) as Hb. pose proof (wf_capacity _ W) as Hcp. pose proof (wf_rows _ W) as Hrows.
  assert (to_u16 (Z.of_nat off) = Z.of_nat off) as -> by (apply u_wrap_id; unfold u_range, block_count in *; lia).
  destruct (VisibleRange_spec (ib_block ib) ts off W Hpos) as (i & k & -> & Hi & Hk & Hsplit & Hkept & Hnone).
  fold (block_count ib ts) in *. replace (Z.of_nat (i + k) - Z.of_nat i) with (Z.of_nat k) by lia.
  rewrite <- Forall_forall in Hwf. destruct (Z.min cap (Z.of_nat k) >? 0) eqn:Ew; zbool.
  - set (w := Z.min cap (Z.of_nat k)) in *. rewrite Nat2Z.id.
    replace (Z.of_nat i + w) with (Z.of_nat (i + Z.to_nat w)) by lia.
    destruct (IH idx (i + Z.to_nat w)%nat (cap - w) (output ++ out_rows ib (rows_at (ib_block ib) i (Z.to_nat w)))) as (idx' & off' & -> & Hp' & Hr' & Hend);
      [unfold position_ok; rewrite Eib; lia|lia|lia|].
    assert (remaining ibs ts idx off = out_rows ib (rows_at (ib_block ib) i (Z.to_nat w)) ++ remaining ibs ts idx (i + Z.to_nat w)) as Erem.
    { unfold remaining. rewrite Hdrop, app_assoc. f_equal. rewrite Hsplit, <- out_rows_app. f_equal.
      replace k with (Z.to_nat w + (k - Z.to_nat w))%nat at 1 by lia. rewrite rows_at_app, <- app_assoc. f_equal.
      replace (block_count ib ts - (i + Z.to_nat w))%nat with ((k - Z.to_nat w) + (block_count ib ts - (i + k)))%nat by lia.
      rewrite visible_from_app. replace (i + Z.to_nat w + (k - Z.to_nat w))%nat with (i + k)%nat by lia. f_equal.
      symmetry. apply visible_from_kept. intros j Hj.
      replace (Z.of_nat (i + Z.to_nat w) + Z.of_nat j) with (Z.of_nat i + Z.of_nat (Z.to_nat w + j)) by lia. apply Hkept. lia. }
    assert (length (out_rows ib (rows_at (ib_block ib) i (Z.to_nat w))) = Z.to_nat w) as Hlen.
    { unfold out_rows. rewrite length_fmap. apply rows_at_length. unfold block_count in *. lia. }
    exists idx', off'. rewrite Erem, <- app_assoc.
    rewrite take_app, drop_app, Hlen. rewrite (take_ge (out_rows _ _)) by lia. rewrite (drop_ge (out_rows _ _)) by lia.
    replace (Z.to_nat cap - Z.to_nat w)%nat with (Z.to_nat (cap - w)) by lia. rewrite length_app, Hlen.
    split_and!; [done|done|done|]. destruct Hend as [?|?]; [by left|right; lia].
  - assert (k = 0%nat) as Hk0 by lia. specialize (Hnone Hk0).
    destruct (IH (S idx) 0%nat cap output) as (idx' & off' & E & Hp' & Hr' & Hend);
      [unfold position_ok; destruct (ibs !! S idx); [lia|done]|lia|lia|].
    assert (remaining ibs ts idx off = remaining ibs ts (S idx) 0) as ->.
    { unfold remaining. rewrite Hdrop, Hnone. simpl. destruct (drop (S idx) ibs) as [|ib2 rest] eqn:Ed; [done|].
      cbn [fmap list_fmap concat]. unfold visible_out at 1, visible_rows. fold (block_count ib2 ts). by rewrite Nat.sub_0_r. }
    by exists idx', off'.
Qed.

Lemma ScanAll_spec calls fuel ibs ts idx (off : nat) capacity :
  Forall (fun ib => wf_block (ib_block ib)) ibs -> position_ok ibs ts idx off -> 0 < capacity ->
  (Z.to_nat capacity + length ibs < fuel)%nat -> (length (remaining ibs ts idx off) + 1 < calls)%nat ->
  exists outs, ScanAll calls fuel ibs ts idx (Z.of_nat off) capacity = Some outs /\
    concat outs = remaining ibs ts idx off /\ Forall (fun o => Z.of_nat (length o) <= capacity) outs.
Proof.
  intros Hwf. revert idx off. induction calls as [|calls IH]; intros idx off Hpos Hcap Hf Hc; [lia|].
  cbn [ScanAll]. unfold ExecuteTableScan. destruct (length ibs <=? idx)%nat eqn:E.
  - apply Nat.leb_le in E. exists [[]]. split_and!; [done| |repeat constructor; simpl; lia].
    unfold remaining. by rewrite drop_ge.
  - destruct (ScanLoop_spec fuel ibs ts idx off capacity [] Hwf Hpos ltac:(lia) ltac:(lia)) as (idx' & off' & -> & Hp' & Hr' & Hend).
    rewrite app_nil_l. assert (Z.of_nat (length (take (Z.to_nat capacity) (remaining ibs ts idx off))) <= capacity) as Hlen
      by (rewrite length_take; lia).
    destruct (length ibs <=? idx')%nat eqn:E'.
    + apply Nat.leb_le in E'. eexists. split_and!; [done| |repeat constructor; done].
      cbn [concat]. rewrite app_nil_r. unfold remaining in Hr' at 1. rewrite (drop_ge ibs idx') in Hr' by done.
      rewrite <- (take_drop (Z.to_nat capacity) (remaining ibs ts idx off)) at 2. by rewrite <- Hr', app_nil_r.
    + apply Nat.leb_gt in E'. destruct Hend as [?|Hge]; [lia|].
      destruct (IH idx' off' Hp' Hcap Hf) as (outs & -> & Hout & Hall).
      { rewrite Hr', length_drop. lia. }
      eexists. split_and!; [done| |by constructor]. cbn [concat]. rewrite Hout, Hr'. apply take_drop.
Qed.

(** C9: A table scan is complete and exact: called until it reports completion,
    it returns every row of the indexed blocks that the transaction sees, each
    once and in order, with its row id, in outputs of at most [capacity] rows; and
    it does complete. *)
Theorem table_scan_exact calls fuel ibs ts capacity :
  Forall (fun ib => wf_block (ib_block ib)) ibs -> 0 < capacity ->
  (Z.to_nat capacity + length ibs < fuel)%nat -> (length (concat (visible_out ts <$> ibs)) + 1 < calls)%nat ->
  exists outs, ScanAll calls fuel ibs ts 0 0 capacity = Some outs /\
    concat outs = concat (visible_out ts <$> ibs) /\ Forall (fun o => Z.of_nat (length o) <= capacity) outs.
Proof.
  intros Hwf Hcap Hf Hc.
  assert (remaining ibs ts 0 0 = concat (visible_out ts <$> ibs)) as Er.
  { unfold remaining. rewrite drop_0. destruct ibs as [|ib rest]; [done|]. rewrite Nat.sub_0_r. done. }
  rewrite <- Er in *. apply (ScanAll_spec calls fuel ibs ts 0 0%nat capacity); [done| |done..].
  unfold position_ok. destruct (ibs !! 0%nat); [lia|done].
Qed.
End TableScan.

Definition sample_index : list (IndexedBlock Z) := [mkIndexedBlock 0 sample_block; mkIndexedBlock 0 sample_block].

Lemma table_scan_exact_witness :
  exists outs, ScanAll 6 6 sample_index 6 0 0 3 = Some outs /\
    concat outs = [(mkRowID 0 0, 10); (mkRowID 0 2, 30); (mkRowID 0 0, 10); (mkRowID 0 2, 30)] /\
    Forall (fun o => Z.of_nat (length o) <= 3) outs.
Proof.
  apply (table_scan_exact 6 6 sample_index 6 3); [|lia|vm_compute; lia|vm_compute; lia].
  constructor; [apply sample_block_wf|constructor; [apply sample_block_wf|constructor]].
Defined.
