(* ===== verification/Catalog.v ===== *)
(** * The catalog

    [storage/meta/catalog.cpp]: the databases of the system and its function
    registries; [storage/meta/entry/db_entry.cpp]: the tables of a database; and
    the index functions of [storage/meta/entry/table_collection_entry.cpp].

    The metas are owned by the maps below; a [BaseEntry *] that a transaction
    keeps is an address, and writing through it is a search for the entry that
    lives there ([with_db_at], [with_table_at], [with_index_at]).  An address at
    which no entry lives is dangling.  An unordered map is iterated in the order
    of [map_to_list]. *)
From S2P Require Import Prelude Common BaseEntry Defs MetaSpec IndexMeta TableMeta DBMeta.

Local Open Scope Z_scope.

Record NewCatalog (D : Type) := mkNewCatalog {
  current_dir_ : string;
  databases_ : gmap string (DBMeta (TableCollectionMeta D));
  catalog_next_txn_id_ : Z;
  catalog_version_ : Z;
}.

Arguments mkNewCatalog {D} _ _ _ _.
Arguments current_dir_ {D} _.
Arguments databases_ {D} _.
Arguments catalog_next_txn_id_ {D} _.
Arguments catalog_version_ {D} _.

Definition slash : Ascii.ascii := Ascii.ascii_of_nat 47.

(** [std::filesystem::path::parent_path] on the characters of a path in reverse
    order: the last component goes, and the separators in front of it unless
    they are the root. *)
Fixpoint drop_component (cs : list Ascii.ascii) : list Ascii.ascii :=
  match cs with
  | [] => []
  | c :: rest => if bool_decide (c = slash) then cs else drop_component rest
  end.

Fixpoint drop_separators (cs : list Ascii.ascii) : list Ascii.ascii :=
  match cs with
  | [] => []
  | c :: rest => if bool_decide (c = slash) then drop_separators rest else cs
  end.

Definition parent_path (path : string) : string :=
  let cs := drop_component (reverse (String.list_ascii_of_string path)) in
  match drop_separators cs, cs with
  | [], _ :: _ => "/"
  | cs', _ => String.string_of_list_ascii (reverse cs')
  end.

Section Catalog.
Context {D : Type} (empty_data : D).
Implicit Types (catalog : NewCatalog D) (db_entry : DBData (TableCollectionMeta D)) (table_entry : TableData D).

Definition with_databases catalog (dbs : gmap string (DBMeta (TableCollectionMeta D))) : NewCatalog D :=
  mkNewCatalog (current_dir_ catalog) dbs (catalog_next_txn_id_ catalog) (catalog_version_ catalog).

(** ** Databases *)

(** [NewCatalog::NewCatalog]; the entry of the default database is the only one
    of its list. *)
Definition InitCatalog (dir : string) (create_default_db : bool) (a : ptr) : NewCatalog D :=
  let db_meta := mkDBMeta "default" (parent_path dir) [] in
  let db_entry := Commit 0 (DBMeta.NewDBEntry a (meta_data_dir_ db_meta) (meta_db_name_ db_meta) 0 0) in
  mkNewCatalog dir (if create_default_db then {[ "default" := DBMeta.AddEntry db_meta db_entry ]} else ∅) 0 0.

(** [NewCatalog::CreateDatabase] *)
Definition CreateDatabase catalog (db_name : string) (txn_id begin_ts : Z) (txn_mgr : Z -> option TxnState)
    (a ad : ptr) (conflict_type : ConflictType) : outcome (ErrorCode * NewCatalog D * option ptr) :=
  let db_meta :=
    match databases_ catalog !! db_name with
    | Some db_meta => db_meta
    | None => mkDBMeta db_name (parent_path (current_dir_ catalog)) []
    end in
  '(st, db_meta', p) ← DBMeta.CreateNewEntry db_meta a ad txn_id begin_ts txn_mgr conflict_type;
  Ret (st, with_databases catalog (<[db_name := db_meta']> (databases_ catalog)), p).

(** [NewCatalog::DropDatabase] *)
Definition DropDatabase catalog (db_name : string) (txn_id begin_ts : Z) (a : ptr)
    : ErrorCode * NewCatalog D * option ptr :=
  match databases_ catalog !! db_name with
  | None => (kNotFound, catalog, None)
  | Some db_meta =>
      let '(st, db_meta', p) := DBMeta.DropNewEntry db_meta a txn_id begin_ts in
      (st, with_databases catalog (<[db_name := db_meta']> (databases_ catalog)), p)
  end.

(** [NewCatalog::GetDatabase] *)
Definition GetDatabase catalog (db_name : string) (txn_id begin_ts : Z)
    : ErrorCode * option (Entry (DBData (TableCollectionMeta D))) :=
  match databases_ catalog !! db_name with
  | None => (kNotFound, None)
  | Some db_meta => DBMeta.GetEntry db_meta txn_id begin_ts
  end.

(** [NewCatalog::RemoveDBEntry] *)
Definition RemoveDBEntry catalog (db_name : string) (txn_id : Z) : outcome (NewCatalog D) :=
  match databases_ catalog !! db_name with
  | None => UB "db_meta is null"
  | Some db_meta => Ret (with_databases catalog (<[db_name := DBMeta.DeleteNewEntry db_meta txn_id]> (databases_ catalog)))
  end.

(** [NewCatalog::Databases] *)
Definition Databases catalog (txn_id begin_ts : Z) : list (Entry (DBData (TableCollectionMeta D))) :=
  omap (fun p => match DBMeta.GetEntry p.2 txn_id begin_ts with (kOk, e) => e | _ => None end) (map_to_list (databases_ catalog)).

(** ** Tables of a database *)

Definition with_tables db_entry (tables : gmap string (TableCollectionMeta D)) : DBData (TableCollectionMeta D) :=
  mkDBData (db_entry_dir_ db_entry) (db_name_ db_entry) tables.

(** [DBEntry::CreateTableCollection] *)
Definition CreateTableCollection db_entry (table_collection_type : TableCollectionType) (table_name : string)
    (columns : list ColumnDef) (txn_id begin_ts : Z) (txn_mgr : Z -> option TxnState) (a ad : ptr)
    : outcome (ErrorCode * DBData (TableCollectionMeta D) * option ptr) :=
  let table_meta :=
    match tables_ db_entry !! table_name with
    | Some table_meta => table_meta
    | None => mkTableCollectionMeta (db_entry_dir_ db_entry) table_name []
    end in
  '(st, table_meta', p) ←
    TableMeta.CreateNewEntry empty_data table_meta a ad table_collection_type table_name columns txn_id begin_ts txn_mgr;
  Ret (st, with_tables db_entry (<[table_name := table_meta']> (tables_ db_entry)), p).

(** [DBEntry::DropTableCollection] *)
Definition DropTableCollection db_entry (table_name : string) (conflict_type : ConflictType) (txn_id begin_ts : Z) (a : ptr)
    : ErrorCode * DBData (TableCollectionMeta D) * option ptr :=
  match tables_ db_entry !! table_name with
  | None => (match conflict_type with kIgnore => kOk | _ => kNotFound end, db_entry, None)
  | Some table_meta =>
      let '(st, table_meta', p) := TableMeta.DropNewEntry empty_data table_meta a txn_id begin_ts conflict_type in
      (st, with_tables db_entry (<[table_name := table_meta']> (tables_ db_entry)), p)
  end.

(** [DBEntry::GetTableCollection] *)
Definition GetTableCollection db_entry (table_name : string) (txn_id begin_ts : Z) : option (Entry (TableData D)) * ErrorCode :=
  match tables_ db_entry !! table_name with
  | None => (None, kNotFound)
  | Some table_meta => TableMeta.GetEntry table_meta txn_id begin_ts
  end.

(** [DBEntry::RemoveTableCollectionEntry] *)
Definition RemoveTableCollectionEntry db_entry (table_name : string) (txn_id : Z) : outcome (DBData (TableCollectionMeta D)) :=
  match tables_ db_entry !! table_name with
  | None => UB "table_meta is null"
  | Some table_meta =>
      Ret (with_tables db_entry (<[table_name := TableMeta.DeleteNewEntry table_meta txn_id]> (tables_ db_entry)))
  end.

(** [DBEntry::TableCollections] *)
Definition TableCollections db_entry (txn_id begin_ts : Z) : list (Entry (TableData D)) :=
  omap (fun p => match TableMeta.GetEntry p.2 txn_id begin_ts with (e, kOk) => e | _ => None end) (map_to_list (tables_ db_entry)).

(** ** Indexes of a table *)

Definition with_indexes table_entry (indexes : gmap string TableIndexMeta) : TableData D :=
  mkTableData (table_entry_dir_ table_entry) (table_collection_name_ table_entry) (table_columns_ table_entry)
    (table_collection_type_ table_entry) (table_data_ table_entry) indexes.

(** [TableCollectionEntry::CreateIndex]; the map is changed before the call that
    can throw. *)
Definition CreateIndex table_entry (index_def : IndexDef) (index_dir : string) (conflict_type : ConflictType)
    (txn_id begin_ts : Z) (txn_mgr : Z -> option TxnState) (a ad : ptr)
    : TableData D * outcome (ErrorCode * option ptr) :=
  if bool_decide (index_name_ index_def = "") then
    (table_entry, Throw StorageException "Attempt to create no name index.")
  else
    let index_meta :=
      match index_meta_map_ table_entry !! index_name_ index_def with
      | Some index_meta => index_meta
      | None => mkTableIndexMeta (index_name_ index_def) []
      end in
    let '(index_meta', o) :=
      CreateTableIndexEntry index_meta (table_columns_ table_entry) index_dir a ad index_def conflict_type txn_id begin_ts txn_mgr in
    (with_indexes table_entry (<[index_name_ index_def := index_meta']> (index_meta_map_ table_entry)), o).

(** [TableCollectionEntry::DropIndex] *)
Definition DropIndex table_entry (index_name : string) (conflict_type : ConflictType) (txn_id begin_ts : Z) (a : ptr)
    : TableData D * outcome (ErrorCode * option ptr) :=
  match index_meta_map_ table_entry !! index_name with
  | None =>
      (table_entry,
       match conflict_type with
       | kIgnore => Ret (kOk, None)
       | kErrorConflict => Ret (kNotFound, None)
       | _ => Throw StorageException "Invalid conflict type."
       end)
  | Some index_meta =>
      let '(index_meta', o) := DropTableIndexEntry index_meta a conflict_type txn_id begin_ts in
      (with_indexes table_entry (<[index_name := index_meta']> (index_meta_map_ table_entry)), o)
  end.

(** [TableCollectionEntry::GetIndex] *)
Definition GetIndex table_entry (index_name : string) (txn_id begin_ts : Z) : ErrorCode * option (Entry IndexData) :=
  match index_meta_map_ table_entry !! index_name with
  | Some index_meta => IndexMeta.GetEntry index_meta txn_id begin_ts
  | None => (kNotFound, None)
  end.

(** [TableCollectionEntry::RemoveIndexEntry] *)
Definition RemoveIndexEntry table_entry (index_name : string) (txn_id : Z) : outcome (TableData D) :=
  match index_meta_map_ table_entry !! index_name with
  | None => UB "table_index_meta is null"
  | Some index_meta =>
      Ret (with_indexes table_entry (<[index_name := IndexMeta.DeleteNewEntry index_meta txn_id]> (index_meta_map_ table_entry)))
  end.

(** ** Entries by address *)

Definition with_payload {P} (e : Entry P) (pl : option P) : Entry P :=
  mkEntry (addr e) (txn_id_ e) (begin_ts_ e) (commit_ts_ e) (deleted_ e) (entry_type_ e) pl.

Definition map_dbs (f : Entry (DBData (TableCollectionMeta D)) -> Entry (DBData (TableCollectionMeta D))) catalog : NewCatalog D :=
  with_databases catalog ((fun m => DBMeta.with_entries m (f <$> db_entry_list_ m)) <$> databases_ catalog).

Definition map_tables_of (f : Entry (TableData D) -> Entry (TableData D)) (d : Entry (DBData (TableCollectionMeta D)))
    : Entry (DBData (TableCollectionMeta D)) :=
  with_payload d ((fun dd => with_tables dd ((fun m => TableMeta.with_entries m (f <$> table_entry_list_ m)) <$> tables_ dd)) <$> payload d).

Definition map_tables (f : Entry (TableData D) -> Entry (TableData D)) catalog : NewCatalog D :=
  map_dbs (map_tables_of f) catalog.

Definition map_indexes_of (f : Entry IndexData -> Entry IndexData) (e : Entry (TableData D)) : Entry (TableData D) :=
  with_payload e ((fun td => with_indexes td ((fun m => IndexMeta.with_entries m (f <$> index_entry_list_ m)) <$> index_meta_map_ td)) <$> payload e).

Definition map_indexes (f : Entry IndexData -> Entry IndexData) catalog : NewCatalog D :=
  map_tables (map_indexes_of f) catalog.

Definition all_dbs catalog : list (Entry (DBData (TableCollectionMeta D))) :=
  map_to_list (databases_ catalog) ≫= fun nm => db_entry_list_ nm.2.

Definition tables_of (d : Entry (DBData (TableCollectionMeta D))) : list (string * Entry (TableData D)) :=
  match payload d with
  | None => []
  | Some dd => map_to_list (tables_ dd) ≫= fun nm => pair nm.1 <$> table_entry_list_ nm.2
  end.

Definition all_tables catalog : list (Entry (TableData D)) := all_dbs catalog ≫= fun d => (tables_of d).*2.

Definition indexes_of (e : Entry (TableData D)) : list (Entry IndexData) :=
  match payload e with
  | None => []
  | Some td => map_to_list (index_meta_map_ td) ≫= fun nm => index_entry_list_ nm.2
  end.

Definition all_indexes catalog : list (Entry IndexData) := all_tables catalog ≫= indexes_of.

Definition at_addr {P} (p : ptr) (f : Entry P -> Entry P) (e : Entry P) : Entry P :=
  if bool_decide (addr e = p) then f e else e.

(** Reading through a pointer. *)
Definition find_at {P} (p : ptr) (l : list (Entry P)) : option (Entry P) := head (filter (fun e => addr e = p) l).

(** Writing through a pointer. *)
Definition with_db_at catalog (p : ptr) (f : Entry (DBData (TableCollectionMeta D)) -> Entry (DBData (TableCollectionMeta D)))
    : outcome (NewCatalog D) :=
  match find_at p (all_dbs catalog) with
  | Some _ => Ret (map_dbs (at_addr p f) catalog)
  | None => UB "dangling DBEntry *"
  end.

Definition with_table_at catalog (p : ptr) (f : Entry (TableData D) -> Entry (TableData D)) : outcome (NewCatalog D) :=
  match find_at p (all_tables catalog) with
  | Some _ => Ret (map_tables (at_addr p f) catalog)
  | None => UB "dangling TableCollectionEntry *"
  end.

Definition with_index_at catalog (p : ptr) (f : Entry IndexData -> Entry IndexData) : outcome (NewCatalog D) :=
  match find_at p (all_indexes catalog) with
  | Some _ => Ret (map_indexes (at_addr p f) catalog)
  | None => UB "dangling TableIndexEntry *"
  end.

(** [TableCollectionEntry::GetDBEntry] and the name of [GetTableMeta]. *)
Definition owner_of_table catalog (p : ptr) : outcome (ptr * string) :=
  match filter (fun x => addr x.2.2 = p) (all_dbs catalog ≫= fun d => pair (addr d) <$> tables_of d) with
  | (d, (n, _)) :: _ => Ret (d, n)
  | [] => UB "dangling TableCollectionEntry *"
  end.

(** [TableIndexMeta::GetTableCollectionEntry] of the meta of an index entry. *)
Definition owner_of_index catalog (p : ptr) : outcome ptr :=
  match filter (fun x => addr x.2 = p) (all_tables catalog ≫= fun e => pair (addr e) <$> indexes_of e) with
  | (t, _) :: _ => Ret t
  | [] => UB "dangling TableIndexEntry *"
  end.
End Catalog.

(** ** Function registries *)

(** [StringToLower] *)
Definition char_to_lower (c : Ascii.ascii) : Ascii.ascii :=
  let n := Ascii.nat_of_ascii c in
  if ((65 <=? n) && (n <=? 90))%nat then Ascii.ascii_of_nat (n + 32) else c.

Definition StringToLower (s : string) : string :=
  String.string_of_list_ascii (char_to_lower <$> String.list_ascii_of_string s).

Record Functions (FS TF SF : Type) := mkFunctions {
  function_sets_ : gmap string FS;
  table_functions_ : gmap string TF;
  special_functions_ : gmap string SF;
}.

Arguments mkFunctions {FS TF SF} _ _ _.
Arguments function_sets_ {FS TF SF} _.
Arguments table_functions_ {FS TF SF} _.
Arguments special_functions_ {FS TF SF} _.

Section Functions.
Context {FS TF SF : Type}.
Implicit Types (fs : Functions FS TF SF).

(** [NewCatalog::GetFunctionSetByName] *)
Definition GetFunctionSetByName fs (function_name : string) : outcome FS :=
  match function_sets_ fs !! StringToLower function_name with
  | Some f => Ret f
  | None => Throw CatalogException "No function name: {}"
  end.

(** [NewCatalog::AddFunctionSet]; [name] is the name of the set. *)
Definition AddFunctionSet fs (name : string) (function_set : FS) : outcome (Functions FS TF SF) :=
  match function_sets_ fs !! StringToLower name with
  | Some _ => Throw CatalogException "Trying to add duplicated function table_name into catalog: {}"
  | None => Ret (mkFunctions (<[StringToLower name := function_set]> (function_sets_ fs)) (table_functions_ fs) (special_functions_ fs))
  end.

(** [NewCatalog::DeleteFunctionSet] *)
Definition DeleteFunctionSet fs (function_name : string) : outcome (Functions FS TF SF) :=
  match function_sets_ fs !! StringToLower function_name with
  | None => Throw CatalogException "Delete not exist function: {}"
  | Some _ => Ret (mkFunctions (delete (StringToLower function_name) (function_sets_ fs)) (table_functions_ fs) (special_functions_ fs))
  end.

(** [NewCatalog::GetTableFunctionByName] *)
Definition GetTableFunctionByName fs (function_name : string) : outcome TF :=
  match table_functions_ fs !! StringToLower function_name with
  | Some f => Ret f
  | None => Throw CatalogException "No table function table_name: {}"
  end.

(** [NewCatalog::AddTableFunction] *)
Definition AddTableFunction fs (name : string) (table_function : TF) : outcome (Functions FS TF SF) :=
  match table_functions_ fs !! StringToLower name with
  | Some _ => Throw CatalogException "Trying to add duplicated table function into catalog: {}"
  | None => Ret (mkFunctions (function_sets_ fs) (<[StringToLower name := table_function]> (table_functions_ fs)) (special_functions_ fs))
  end.

(** [NewCatalog::AddSpecialFunction]: the test looks into [table_functions_], and
    [emplace] keeps the binding of a name that [special_functions_] has. *)
Definition AddSpecialFunction fs (name : string) (special_function : SF) : outcome (Functions FS TF SF) :=
  match table_functions_ fs !! StringToLower name with
  | Some _ => Throw CatalogException "Trying to add duplicated special function into catalog: {}"
  | None =>
      Ret (match special_functions_ fs !! StringToLower name with
           | Some _ => fs
           | None => mkFunctions (function_sets_ fs) (table_functions_ fs)
                       (<[StringToLower name := special_function]> (special_functions_ fs))
           end)
  end.

(** [NewCatalog::GetSpecialFunctionByNameNoExcept] *)
Definition GetSpecialFunctionByNameNoExcept fs (function_name : string) : option SF :=
  special_functions_ fs !! StringToLower function_name.

(** [NewCatalog::DeleteTableFunction] *)
Definition DeleteTableFunction fs (function_name : string) : outcome (Functions FS TF SF) :=
  match table_functions_ fs !! StringToLower function_name with
  | None => Throw CatalogException "Delete not exist table function: {}"
  | Some _ => Ret (mkFunctions (function_sets_ fs) (delete (StringToLower function_name) (table_functions_ fs)) (special_functions_ fs))
  end.
End Functions.
