(* ===== verification/Txn.v ===== *)
(** * Transactions

    [storage/txn/txn.cpp]: the operations of a transaction on the catalog, its
    local store of rows, committing and rolling back.  The files of an index are
    not part of the model, so [CreateIndex] and [PrepareCommit] leave out the
    calls that build them.

    [gs] is [TxnManager::GetTxnState]; [a] and [ad] are the addresses of a new
    entry and of a new end marker.  A container that is iterated is iterated in
    the order of [elements] or [map_to_list]. *)
From S2P Require Import Prelude Common BaseEntry Defs MetaSpec IndexMeta TableMeta DBMeta TxnContext TxnManager Wire WalEntry Block Segment TxnStore Catalog.

Local Open Scope Z_scope.

Record Txn (R : Type) := mkTxn {
  self : ptr;
  self_txn_id_ : Z;
  context_ : TxnContext;
  db_names_ : gset string;
  txn_dbs_ : gset ptr;
  txn_tables_ : gset ptr;
  txn_indexes_ : gmap string ptr;
  txn_table_entries_ : gmap string ptr;
  txn_tables_store_ : gmap string (ptr * TxnTableStore R);  (* with [table_entry_] *)
  handled_db_name_ : string;
  wal_cmds_ : list (WalCmd (DataBlock R));
  txn_done_bottom_ : bool;
}.

Arguments mkTxn {R} _ _ _ _ _ _ _ _ _ _ _ _.
Arguments self {R} _.
Arguments self_txn_id_ {R} _.
Arguments context_ {R} _.
Arguments db_names_ {R} _.
Arguments txn_dbs_ {R} _.
Arguments txn_tables_ {R} _.
Arguments txn_indexes_ {R} _.
Arguments txn_table_entries_ {R} _.
Arguments txn_tables_store_ {R} _.
Arguments handled_db_name_ {R} _.
Arguments wal_cmds_ {R} _.
Arguments txn_done_bottom_ {R} _.

Section Txn.
Context {R : Type}.
Abbreviation Catalog := (NewCatalog (TxnStore.TableData R)).
Implicit Types (txn : Txn R) (catalog : Catalog) (gs : Z -> option TxnState) (a ad : ptr).

(** ** The members of a transaction *)

(** [Txn::Txn] *)
Definition MakeTxn (self : ptr) (txn_id : Z) : Txn R :=
  mkTxn self txn_id NewTxnContext ∅ ∅ ∅ ∅ ∅ ∅ "" [] false.

Definition with_context txn (c : TxnContext) : Txn R :=
  mkTxn (self txn) (self_txn_id_ txn) c (db_names_ txn) (txn_dbs_ txn) (txn_tables_ txn) (txn_indexes_ txn)
    (txn_table_entries_ txn) (txn_tables_store_ txn) (handled_db_name_ txn) (wal_cmds_ txn) (txn_done_bottom_ txn).

Definition with_ddl txn (names : gset string) (dbs tables : gset ptr) (indexes : gmap string ptr) (cmd : WalCmd (DataBlock R)) : Txn R :=
  mkTxn (self txn) (self_txn_id_ txn) (context_ txn) names dbs tables indexes
    (txn_table_entries_ txn) (txn_tables_store_ txn) (handled_db_name_ txn) (wal_cmds_ txn ++ [cmd]) (txn_done_bottom_ txn).

Definition with_cache txn (db_name : string) (entries : gmap string ptr) : Txn R :=
  mkTxn (self txn) (self_txn_id_ txn) (context_ txn) (db_names_ txn) (txn_dbs_ txn) (txn_tables_ txn) (txn_indexes_ txn)
    entries (txn_tables_store_ txn) db_name (wal_cmds_ txn) (txn_done_bottom_ txn).

Definition with_store txn (stores : gmap string (ptr * TxnTableStore R)) (cmds : list (WalCmd (DataBlock R))) : Txn R :=
  mkTxn (self txn) (self_txn_id_ txn) (context_ txn) (db_names_ txn) (txn_dbs_ txn) (txn_tables_ txn) (txn_indexes_ txn)
    (txn_table_entries_ txn) stores (handled_db_name_ txn) cmds (txn_done_bottom_ txn).

Definition with_done txn : Txn R :=
  mkTxn (self txn) (self_txn_id_ txn) (context_ txn) (db_names_ txn) (txn_dbs_ txn) (txn_tables_ txn) (txn_indexes_ txn)
    (txn_table_entries_ txn) (txn_tables_store_ txn) (handled_db_name_ txn) (wal_cmds_ txn) true.

Definition started txn : bool := bool_decide (state_ (context_ txn) = kStarted).

Definition not_started {A} : outcome A := Throw TransactionException "Transaction isn't started.".

(** [contains] and then [erase] or [insert] *)
Definition toggle `{Countable K} (k : K) (s : gset K) : gset K :=
  if bool_decide (k ∈ s) then s ∖ {[ k ]} else s ∪ {[ k ]}.

(** ** Databases *)

(** [Txn::CreateDatabase] *)
Definition Txn_CreateDatabase catalog txn gs a ad (db_name : string) (conflict_type : ConflictType)
    : outcome (ErrorCode * Catalog * Txn R) :=
  if negb (started txn) then not_started
  else
    '(st, catalog', p) ← CreateDatabase catalog db_name (self_txn_id_ txn) (ctx_begin_ts_ (context_ txn)) gs a ad conflict_type;
    if negb (status_ok st) then Ret (st, catalog', txn)
    else
      match p with
      | None => UB "base_entry is null"
      | Some p =>
          match find_at p (all_dbs catalog') with
          | None => UB "dangling BaseEntry *"
          | Some e =>
              if negb (bool_decide (entry_type_ e = kDatabase)) then Throw TransactionException "Entry type should be table entry."
              else Ret (kOk, catalog',
                     with_ddl txn (db_names_ txn ∪ {[ db_name ]}) (txn_dbs_ txn ∪ {[ p ]}) (txn_tables_ txn) (txn_indexes_ txn)
                       (WalCmdCreateDatabase db_name))
          end
      end.

(** [Txn::DropDatabase] *)
Definition Txn_DropDatabase catalog txn a (db_name : string) : outcome (ErrorCode * Catalog * Txn R) :=
  if negb (started txn) then not_started
  else
    let '(st, catalog', p) := DropDatabase catalog db_name (self_txn_id_ txn) (ctx_begin_ts_ (context_ txn)) a in
    if negb (status_ok st) then Ret (st, catalog', txn)
    else
      match p with
      | None => UB "base_entry is null"
      | Some p =>
          Ret (kOk, catalog',
            with_ddl txn (toggle db_name (db_names_ txn)) (toggle p (txn_dbs_ txn)) (txn_tables_ txn) (txn_indexes_ txn)
              (WalCmdDropDatabase db_name))
      end.

(** [Txn::GetDatabase] *)
Definition Txn_GetDatabase catalog txn (db_name : string)
    : outcome (ErrorCode * option (Entry (DBData (TableCollectionMeta (TxnStore.TableData R))))) :=
  if negb (started txn) then not_started
  else Ret (GetDatabase catalog db_name (self_txn_id_ txn) (ctx_begin_ts_ (context_ txn))).

(** [Txn::ListDatabases] *)
Definition ListDatabases catalog txn : list string :=
  omap (fun e => db_name_ <$> payload e) (Databases catalog (self_txn_id_ txn) (ctx_begin_ts_ (context_ txn))).

(** ** Tables *)

(** Writing the members of the [DBEntry] at [p]. *)
Definition store_db catalog (p : ptr) (db_entry : DBData (TableCollectionMeta (TxnStore.TableData R))) : outcome Catalog :=
  with_db_at catalog p (fun e => with_payload e (Some db_entry)).

(** [Txn::CreateTable] *)
Definition Txn_CreateTable catalog txn gs a ad (db_name : string) (table_def : TableDef)
    : outcome (ErrorCode * Catalog * Txn R) :=
  if negb (started txn) then not_started
  else
    let begin_ts := ctx_begin_ts_ (context_ txn) in
    match GetDatabase catalog db_name (self_txn_id_ txn) begin_ts with
    | (kOk, Some d) =>
        match payload d with
        | None => UB "not a DBEntry"
        | Some db_entry =>
            '(st, db_entry', p) ←
              CreateTableCollection empty_table db_entry kTableEntry (table_name_ table_def) (columns_ table_def)
                (self_txn_id_ txn) begin_ts gs a ad;
            catalog' ← store_db catalog (addr d) db_entry';
            match p with
            | None => Ret (if status_ok st then kError else st, catalog', txn)
            | Some p =>
                match find_at p (all_tables catalog') with
                | None => UB "dangling BaseEntry *"
                | Some e =>
                    if negb (bool_decide (entry_type_ e = kTable)) then Throw TransactionException "Entry type should be table entry."
                    else Ret (kOk, catalog',
                           with_ddl txn (db_names_ txn) (txn_dbs_ txn) (txn_tables_ txn ∪ {[ p ]}) (txn_indexes_ txn)
                             (WalCmdCreateTable db_name table_def))
                end
            end
        end
    | (st, _) => Ret (st, catalog, txn)
    end.

(** [Txn::DropTableCollectionByName] *)
Definition Txn_DropTable catalog txn a (db_name table_name : string) (conflict_type : ConflictType)
    : outcome (ErrorCode * Catalog * Txn R) :=
  if negb (started txn) then not_started
  else
    let begin_ts := ctx_begin_ts_ (context_ txn) in
    match GetDatabase catalog db_name (self_txn_id_ txn) begin_ts with
    | (kOk, Some d) =>
        match payload d with
        | None => UB "not a DBEntry"
        | Some db_entry =>
            let '(st, db_entry', p) :=
              DropTableCollection empty_table db_entry table_name conflict_type (self_txn_id_ txn) begin_ts a in
            catalog' ← store_db catalog (addr d) db_entry';
            match p with
            | None => Ret (st, catalog', txn)
            | Some p =>
                Ret (kOk, catalog',
                  with_ddl txn (db_names_ txn) (txn_dbs_ txn) (toggle p (txn_tables_ txn)) (txn_indexes_ txn)
                    (WalCmdDropTable db_name table_name))
            end
        end
    | (st, _) => Ret (st, catalog, txn)
    end.

(** [Txn::GetTableByName] *)
Definition GetTableByName catalog txn (db_name table_name : string)
    : outcome (option (Entry (TableMeta.TableData (TxnStore.TableData R))) * ErrorCode) :=
  if negb (started txn) then not_started
  else
    match GetDatabase catalog db_name (self_txn_id_ txn) (ctx_begin_ts_ (context_ txn)) with
    | (kOk, Some d) =>
        match payload d with
        | None => UB "not a DBEntry"
        | Some db_entry => Ret (GetTableCollection db_entry table_name (self_txn_id_ txn) (ctx_begin_ts_ (context_ txn)))
        end
    | (st, _) => Ret (None, st)
    end.

(** [Txn::GetTableEntry]: the transaction with its cache, and the address of the
    table or a status. *)
Definition GetTableEntry catalog txn (db_name table_name : string) : outcome (Txn R * (ErrorCode + ptr)) :=
  if (negb (bool_decide (handled_db_name_ txn = "")) && negb (bool_decide (handled_db_name_ txn = db_name)))%bool
  then Ret (txn, inl kNotFound)
  else
    let txn := with_cache txn db_name (txn_table_entries_ txn) in
    match txn_table_entries_ txn !! table_name with
    | Some p => Ret (txn, inr p)
    | None =>
        '(e, st) ← GetTableByName catalog txn db_name table_name;
        match e, st with
        | Some e, kOk => Ret (with_cache txn db_name (<[table_name := addr e]> (txn_table_entries_ txn)), inr (addr e))
        | None, kOk => UB "table_entry is null"
        | _, st => Ret (txn, inl st)
        end
    end.

(** ** Indexes *)

Definition store_table catalog (p : ptr) (table_entry : TableMeta.TableData (TxnStore.TableData R)) : outcome Catalog :=
  with_table_at catalog p (fun e => with_payload e (Some table_entry)).

Definition read_table catalog (p : ptr) : outcome (TableMeta.TableData (TxnStore.TableData R)) :=
  match find_at p (all_tables catalog) with
  | None => UB "dangling TableCollectionEntry *"
  | Some e => match payload e with Some td => Ret td | None => UB "not a TableCollectionEntry" end
  end.

(** [txn_tables_store_[table_name]], made if it is absent. *)
Definition ensure_store txn (table_name : string) (p : ptr) : gmap string (ptr * TxnTableStore R) :=
  match txn_tables_store_ txn !! table_name with
  | Some _ => txn_tables_store_ txn
  | None => <[table_name := (p, NewTxnTableStore [])]> (txn_tables_store_ txn)
  end.

(** [Txn::CreateIndex] without [CreateIndexFile]; [emplace] keeps the binding of
    an index name that [txn_indexes_] has.  The catalog is returned whatever the
    outcome. *)
Definition Txn_CreateIndex catalog txn gs a ad (db_name table_name : string) (index_def : IndexDef) (index_dir : string)
    (conflict_type : ConflictType) : Catalog * outcome (ErrorCode * Txn R) :=
  if negb (started txn) then (catalog, Throw TransactionException "Transaction is not started")
  else
    match GetTableEntry catalog txn db_name table_name with
    | Throw ex msg => (catalog, Throw ex msg)
    | UB why => (catalog, UB why)
    | Ret (txn, inl st) => (catalog, Ret (st, txn))
    | Ret (txn, inr p) =>
        match read_table catalog p with
        | Throw ex msg => (catalog, Throw ex msg)
        | UB why => (catalog, UB why)
        | Ret td =>
            let '(td', o) := CreateIndex td index_def index_dir conflict_type (self_txn_id_ txn) (ctx_begin_ts_ (context_ txn)) gs a ad in
            match store_table catalog p td' with
            | Throw ex msg => (catalog, Throw ex msg)
            | UB why => (catalog, UB why)
            | Ret catalog' =>
                (catalog',
                 '(st, q) ← o;
                 if negb (status_ok st) then Ret (st, txn)
                 else
                   match q with
                   | None => match conflict_type with kIgnore => Ret (st, txn) | _ => UB "base_entry is null" end
                   | Some q =>
                       match find_at q (all_indexes catalog') with
                       | None => UB "dangling BaseEntry *"
                       | Some e =>
                           if negb (bool_decide (entry_type_ e = kTableIndex)) then Throw TransactionException "Invalid index type"
                           else
                             let indexes := match txn_indexes_ txn !! index_name_ index_def with
                                            | Some _ => txn_indexes_ txn
                                            | None => <[index_name_ index_def := q]> (txn_indexes_ txn)
                                            end in
                             let txn := with_store txn (ensure_store txn table_name p) (wal_cmds_ txn) in
                             Ret (st, with_ddl txn (db_names_ txn) (txn_dbs_ txn) (txn_tables_ txn) indexes
                                        (WalCmdCreateIndex db_name table_name index_def))
                       end
                   end)
            end
        end
    end.

(** [Txn::DropIndexByName] *)
Definition Txn_DropIndex catalog txn a (db_name table_name index_name : string) (conflict_type : ConflictType)
    : outcome (ErrorCode * Catalog * Txn R) :=
  if negb (started txn) then Throw TransactionException "Transaction is not started"
  else
    '(txn, r) ← GetTableEntry catalog txn db_name table_name;
    match r with
    | inl st => Ret (st, catalog, txn)
    | inr p =>
        td ← read_table catalog p;
        let '(td', o) := DropIndex td index_name conflict_type (self_txn_id_ txn) (ctx_begin_ts_ (context_ txn)) a in
        catalog' ← store_table catalog p td';
        '(st, q) ← o;
        if negb (status_ok st) then Ret (st, catalog', txn)
        else
          let logged indexes :=
            Ret (st, catalog', with_ddl txn (db_names_ txn) (txn_dbs_ txn) (txn_tables_ txn) indexes
                                 (WalCmdDropIndex db_name table_name index_name)) in
          match q, conflict_type with
          | None, kIgnore => Ret (st, catalog', txn)
          | None, _ => UB "base_entry is null"
          | Some q, _ =>
              match txn_indexes_ txn !! index_name with
              | Some _ => logged (delete index_name (txn_indexes_ txn))
              | None => logged (<[index_name := q]> (txn_indexes_ txn))
              end
          end
    end.

(** ** Rows *)

(** [Txn::Append]: the command is logged before the store accepts the block. *)
Definition Txn_Append catalog txn (db_name table_name : string) (input_block : DataBlock R) : outcome (ErrorCode * Txn R) :=
  '(txn, r) ← GetTableEntry catalog txn db_name table_name;
  match r with
  | inl st => Ret (st, txn)
  | inr p =>
      let stores := ensure_store txn table_name p in
      let cmds := wal_cmds_ txn ++ [WalCmdAppend db_name table_name input_block] in
      match stores !! table_name with
      | None => UB "table_store is null"
      | Some (q, s) =>
          td ← read_table catalog q;
          let s := mkTxnTableStore (column_type_ <$> table_columns_ td) (store_blocks_ s) (uncommitted_segments_ s)
                     (append_state_ s) (delete_state_ s) (current_block_id_ s) in
          '(s', err) ← StoreAppend s input_block;
          Ret (match err with Some _ => kError | None => kOk end, with_store txn (<[table_name := (q, s')]> stores) cmds)
      end
  end.

(** [Txn::Delete] *)
Definition Txn_Delete catalog txn (db_name table_name : string) (row_ids : list RowID) : outcome (ErrorCode * Txn R) :=
  '(txn, r) ← GetTableEntry catalog txn db_name table_name;
  match r with
  | inl st => Ret (st, txn)
  | inr p =>
      let stores := ensure_store txn table_name p in
      let cmds := wal_cmds_ txn ++ [WalCmdDelete db_name table_name row_ids] in
      match stores !! table_name with
      | None => UB "table_store is null"
      | Some (q, s) => Ret (kOk, with_store txn (<[table_name := (q, StoreDelete s row_ids)]> stores) cmds)
      end
  end.

(** ** Committing and rolling back *)

(** The id and [CommitTS] that the blocks see of the transaction. *)
Definition txn_ref txn : TxnRef := mkTxnRef (self txn) (ctx_commit_ts_ (context_ txn)).

(** [Txn::Begin] *)
Definition Txn_Begin {X} `{TxnOps X} (tm : TxnManager X (WalEntry (DataBlock R))) txn
    : outcome (TxnManager X (WalEntry (DataBlock R)) * Txn R) :=
  let '(tm', ts) := GetTimestamp tm false in
  c ← BeginCommit (context_ txn) ts; Ret (tm', with_context txn c).

(** [Txn::Commit] up to the wait for the lower half: the manager, the
    transaction, the entries handed to the log and the commit timestamp. *)
Definition Txn_Commit {X} `{TxnOps X} (tm : TxnManager X (WalEntry (DataBlock R))) txn
    : outcome (TxnManager X (WalEntry (DataBlock R)) * Txn R * list (WalEntry (DataBlock R)) * Z) :=
  let '(tm', ts) := GetTimestamp tm true in
  c ← SetTxnCommitting (context_ txn) ts;
  match wal_cmds_ txn with
  | [] =>
      '(tm'', out) ← Invalidate tm' ts;
      c' ← SetTxnCommitted c;
      Ret (tm'', with_context txn c', out, ts)
  | cmds =>
      '(tm'', out) ← PutWalEntry commit_ts tm' (mkWalEntry 0 0 (self_txn_id_ txn) ts cmds);
      Ret (tm'', with_context txn c, out, ts)
  end.

(** The first loop of [Txn::CommitBottom] *)
Fixpoint PrepareStores (fuel : nat) catalog (txn : TxnRef) (stores : list (string * (ptr * TxnTableStore R)))
    : option (outcome (Catalog * list (string * (ptr * TxnTableStore R)))) :=
  match stores with
  | [] => Some (Ret (catalog, []))
  | (n, (p, s)) :: rest =>
      match find_at p (all_tables catalog) with
      | None => Some (UB "dangling TableCollectionEntry *")
      | Some e =>
          match payload e with
          | None => Some (UB "not a TableCollectionEntry")
          | Some td =>
              match StorePrepareCommit fuel (BaseEntry.deleted_ e) s (table_data_ td) txn with
              | None => None
              | Some (Throw ex msg) => Some (Throw ex msg)
              | Some (UB why) => Some (UB why)
              | Some (Ret (s', data)) =>
                  let td' := TableMeta.mkTableData (table_entry_dir_ td) (table_collection_name_ td) (table_columns_ td)
                               (table_collection_type_ td) data (index_meta_map_ td) in
                  match store_table catalog p td' with
                  | Throw ex msg => Some (Throw ex msg)
                  | UB why => Some (UB why)
                  | Ret catalog' =>
                      match PrepareStores fuel catalog' txn rest with
                      | None => None
                      | Some r => Some ('(catalog'', rest') ← r; Ret (catalog'', (n, (p, s')) :: rest'))
                      end
                  end
              end
          end
      end
  end.

(** The second loop *)
Fixpoint CommitStores catalog (txn : TxnRef) (stores : list (string * (ptr * TxnTableStore R))) : outcome Catalog :=
  match stores with
  | [] => Ret catalog
  | (_, (p, s)) :: rest =>
      td ← read_table catalog p;
      data ← StoreCommit s (table_data_ td) txn;
      let td' := TableMeta.mkTableData (table_entry_dir_ td) (table_collection_name_ td) (table_columns_ td)
                   (table_collection_type_ td) data (index_meta_map_ td) in
      catalog' ← store_table catalog p td';
      CommitStores catalog' txn rest
  end.

(** The loops that stamp the entries *)
Fixpoint CommitDBs catalog (ts : Z) (ps : list ptr) : outcome Catalog :=
  match ps with
  | [] => Ret catalog
  | p :: rest => catalog' ← with_db_at catalog p (Commit ts); CommitDBs catalog' ts rest
  end.

Fixpoint CommitTables catalog (ts : Z) (ps : list ptr) : outcome Catalog :=
  match ps with
  | [] => Ret catalog
  | p :: rest => catalog' ← with_table_at catalog p (Commit ts); CommitTables catalog' ts rest
  end.

Fixpoint CommitIndexes catalog (ts : Z) (ps : list ptr) : outcome Catalog :=
  match ps with
  | [] => Ret catalog
  | p :: rest => catalog' ← with_index_at catalog p (Commit ts); CommitIndexes catalog' ts rest
  end.

(** [Txn::CommitBottom] *)
Definition CommitBottom (fuel : nat) catalog txn : option (outcome (Catalog * Txn R)) :=
  match PrepareStores fuel catalog (txn_ref txn) (map_to_list (txn_tables_store_ txn)) with
  | None => None
  | Some r => Some (
      '(catalog, stores) ← r;
      c ← SetTxnCommitted (context_ txn);
      catalog ← CommitStores catalog (txn_ref txn) stores;
      let ts := ctx_commit_ts_ c in
      catalog ← CommitDBs catalog ts (elements (txn_dbs_ txn));
      catalog ← CommitTables catalog ts (elements (txn_tables_ txn));
      catalog ← CommitIndexes catalog ts ((map_to_list (txn_indexes_ txn)).*2);
      Ret (catalog, with_done (with_store (with_context txn c) (list_to_map stores) (wal_cmds_ txn))))
  end.

(** [Txn::CancelCommitBottom] *)
Definition Txn_CancelCommitBottom txn : outcome (Txn R) :=
  c ← SetTxnRollbacked (context_ txn); Ret (with_done (with_context txn c)).

(** [Txn::FakeCommit] *)
Definition FakeCommit txn (commit_ts : Z) : Txn R := with_context txn (mkTxnContext commit_ts commit_ts kCommitted).

(** The loops of [Txn::Rollback] *)
Fixpoint RollbackTables catalog (txn_id : Z) (ps : list ptr) : outcome Catalog :=
  match ps with
  | [] => Ret catalog
  | p :: rest =>
      '(d, n) ← owner_of_table catalog p;
      match find_at d (all_dbs catalog) with
      | None => UB "dangling DBEntry *"
      | Some e =>
          match payload e with
          | None => UB "not a DBEntry"
          | Some db_entry =>
              db_entry' ← RemoveTableCollectionEntry db_entry n txn_id;
              catalog' ← store_db catalog d db_entry';
              RollbackTables catalog' txn_id rest
          end
      end
  end.

Fixpoint RollbackIndexes catalog (txn_id : Z) (ps : list (string * ptr)) : outcome Catalog :=
  match ps with
  | [] => Ret catalog
  | (index_name, p) :: rest =>
      t ← owner_of_index catalog p;
      td ← read_table catalog t;
      td' ← RemoveIndexEntry td index_name txn_id;
      catalog' ← store_table catalog t td';
      RollbackIndexes catalog' txn_id rest
  end.

Fixpoint RollbackDBs catalog (txn_id : Z) (names : list string) : outcome Catalog :=
  match names with
  | [] => Ret catalog
  | n :: rest => catalog' ← RemoveDBEntry catalog n txn_id; RollbackDBs catalog' txn_id rest
  end.

Fixpoint RollbackStores (stores : list (string * (ptr * TxnTableStore R))) : outcome (list (string * (ptr * TxnTableStore R))) :=
  match stores with
  | [] => Ret []
  | (n, (p, s)) :: rest => s' ← StoreRollback s; rest' ← RollbackStores rest; Ret ((n, (p, s')) :: rest')
  end.

(** [Txn::Rollback]; [abort_ts] is the timestamp it takes from the manager. *)
Definition Txn_Rollback catalog txn (abort_ts : Z) : outcome (Catalog * Txn R) :=
  c ← SetTxnRollbacking (context_ txn) abort_ts;
  catalog ← RollbackTables catalog (self_txn_id_ txn) (elements (txn_tables_ txn));
  catalog ← RollbackIndexes catalog (self_txn_id_ txn) (map_to_list (txn_indexes_ txn));
  catalog ← RollbackDBs catalog (self_txn_id_ txn) (elements (db_names_ txn));
  stores ← RollbackStores (map_to_list (txn_tables_store_ txn));
  c' ← SetTxnRollbacked c;
  Ret (catalog, with_context (with_store txn (list_to_map stores) (wal_cmds_ txn)) c').

(** [Txn::AddWalCmd] *)
Definition AddWalCmd txn (cmd : WalCmd (DataBlock R)) : Txn R := with_store txn (txn_tables_store_ txn) (wal_cmds_ txn ++ [cmd]).
End Txn.

#[export] Instance Txn_ops {R} : TxnOps (Txn R) := {
  NewTxn := MakeTxn 1;
  TxnID := self_txn_id_;
  txn_context := context_;
  CancelCommitBottom := Txn_CancelCommitBottom;
}.
