(* ===== verification/TxnProps.v ===== *)
(** * What a transaction publishes

    Properties of [Txn.v]: the sets of pointers a transaction keeps are exactly
    its uncommitted versions in the catalog, so that committing stamps all of
    them and nothing else; and the sequences of calls for which this fails. *)
From S2P Require Import Prelude Common BaseEntry Defs MetaSpec IndexMeta TableMeta DBMeta TxnContext TxnManager Wire WalEntry Block Segment TxnStore Catalog Txn.

Local Open Scope Z_scope.

(** ** Tracking of uncommitted versions *)

Section Track.
Context {P : Type}.
Implicit Types (e h : Entry P) (l L : list (Entry P)) (S : gset ptr) (t : Z).

#[export] Instance pending_of_dec t e : Decision (pending_of t e).
Proof. unfold pending_of. apply _. Defined.

(** [S] holds the addresses of the versions of [t] in [L]; live entries have
    different addresses. *)
Definition track t S L : Prop :=
  NoDup (addr <$> L) /\ forall p, p ∈ S <-> exists e, e ∈ L /\ addr e = p /\ pending_of t e.

Definition fresh_in (p : ptr) L : Prop := p ∉ (addr <$> L).

(** What a create or drop call of [t] does to a version list, and the entry it
    hands out.  [new] holds of the entries that the call makes. *)
Inductive version_change (new : Entry P -> Prop) t (a ad : ptr) : list (Entry P) -> list (Entry P) -> option ptr -> Prop :=
  | vc_none l : version_change new t a ad l l None
  | vc_init e : addr e = a -> pending_of t e -> new e -> version_change new t a ad [] [e; dummy_entry ad] (Some a)
  | vc_push e l : addr e = a -> pending_of t e -> new e -> version_change new t a ad l (e :: l) (Some a)
  | vc_pop h l : pending_of t h -> version_change new t a ad (h :: l) l (Some (addr h)).

Lemma track_perm t S L L' : L ≡ₚ L' -> track t S L -> track t S L'.
Proof.
  intros HP [Hnd HS]. split; [by rewrite <- HP|]. intros p. rewrite HS. by setoid_rewrite HP.
Qed.

Lemma track_not_in t S L p : track t S L -> fresh_in p L -> p ∉ S.
Proof. intros [_ HS] Hf (e & He & <- & _)%HS. apply Hf. by apply list_elem_of_fmap_2. Qed.

Lemma toggle_fresh (p : ptr) S : p ∉ S -> toggle p S = S ∪ {[ p ]}.
Proof. intros. unfold toggle. by rewrite bool_decide_false. Qed.

Lemma track_cons t S L e :
  track t S L -> fresh_in (addr e) L -> pending_of t e -> track t (toggle (addr e) S) (e :: L).
Proof.
  intros HT Hf Hp. rewrite toggle_fresh by (by eapply track_not_in). destruct HT as [Hnd HS]. split.
  - rewrite fmap_cons. by constructor.
  - intros p. rewrite elem_of_union, elem_of_singleton, HS. setoid_rewrite elem_of_cons. naive_solver.
Qed.

Lemma track_cons_other t S L e :
  track t S L -> fresh_in (addr e) L -> ~ pending_of t e -> track t S (e :: L).
Proof.
  intros [Hnd HS] Hf Hp. split; [rewrite fmap_cons; by constructor|].
  intros p. rewrite HS. setoid_rewrite elem_of_cons. naive_solver.
Qed.

Lemma track_uncons t S L h :
  track t S (h :: L) -> track t (if decide (pending_of t h) then toggle (addr h) S else S) L /\ fresh_in (addr h) L.
Proof.
  intros [Hnd HS]. rewrite fmap_cons in Hnd. apply NoDup_cons in Hnd as [Hf Hnd]. split; [|done].
  split; [done|]. intros p. setoid_rewrite elem_of_cons in HS. case_decide as Hp.
  - unfold toggle. rewrite bool_decide_true by (apply HS; by exists h; auto).
    rewrite elem_of_difference, elem_of_singleton, HS. split.
    + intros [(e & [->|He] & <- & Hpe) Hne]; [done|by exists e].
    + intros (e & He & <- & Hpe). split; [by exists e; auto|]. intros E. apply Hf. rewrite <- E. by apply list_elem_of_fmap_2.
  - rewrite HS. naive_solver.
Qed.

(** A create or drop call followed by the update of the set of pointers. *)
Lemma track_change new t a ad S l l' q L L' rest :
  version_change new t a ad l l' q -> L ≡ₚ l ++ rest -> L' ≡ₚ l' ++ rest ->
  fresh_in a L -> fresh_in ad L -> a <> ad ->
  track t S L -> track t (match q with Some p => toggle p S | None => S end) L'.
Proof.
  intros Hc HL HL' Ha Had Hne HT. apply (track_perm t _ (l' ++ rest)); [done|].
  apply (track_perm _ _ _ _ HL) in HT. unfold fresh_in in Ha, Had. rewrite HL in Ha, Had.
  destruct Hc as [l|e <- He _|e l <- He _|h l Hh]; simpl.
  - done.
  - apply track_cons; [|by apply not_elem_of_cons|done]. apply track_cons_other; [done|done|]. by intros [? _].
  - by apply track_cons.
  - simpl in HT. apply track_uncons in HT as [HT _]. by rewrite decide_True in HT.
Qed.

(** The versions of another transaction are not touched. *)
Lemma track_change_other new t t' a ad S l l' q L L' rest :
  version_change new t a ad l l' q -> t' <> t -> L ≡ₚ l ++ rest -> L' ≡ₚ l' ++ rest ->
  fresh_in a L -> fresh_in ad L -> a <> ad -> track t' S L -> track t' S L'.
Proof.
  intros Hc Ht HL HL' Ha Had Hne HT. apply (track_perm t' _ (l' ++ rest)); [done|].
  apply (track_perm _ _ _ _ HL) in HT. unfold fresh_in in Ha, Had. rewrite HL in Ha, Had.
  assert (forall e, pending_of t e -> ~ pending_of t' e) as Hp by (intros e (_ & _ & ?) (_ & _ & ?); congruence).
  destruct Hc as [l|e <- He _|e l <- He _|h l Hh]; simpl; [done|..].
  - apply track_cons_other; [|by apply not_elem_of_cons|auto]. apply track_cons_other; [done|done|]. by intros [? _].
  - apply track_cons_other; auto.
  - simpl in HT. apply track_uncons in HT as [HT _]. rewrite decide_False in HT; auto.
Qed.

(** Entries that are no versions of [t] may disappear. *)
Lemma track_app_other t S l L : Forall (fun e => ~ pending_of t e) l -> track t S (l ++ L) -> track t S L.
Proof.
  induction 1 as [|e l He _ IH]; [done|]. simpl. intros [HT _]%track_uncons. rewrite decide_False in HT; auto.
Qed.

(** The addresses of [S] single out the versions of [t]. *)
Lemma track_elem t S L e : track t S L -> e ∈ L -> (addr e ∈ S <-> pending_of t e).
Proof.
  intros [Hnd HS] He. rewrite HS. split; [|naive_solver].
  intros (e' & He' & Ha & Hp). assert (e' = e) as ->; [|done].
  apply list_elem_of_lookup in He as [i Hi]. apply list_elem_of_lookup in He' as [j Hj].
  assert (i = j); [|naive_solver].
  eapply NoDup_lookup; [exact Hnd|rewrite list_lookup_fmap, Hi; done|rewrite list_lookup_fmap, Hj; simpl; by rewrite Ha].
Qed.
End Track.

(** ** The entries of the catalog *)

Section CatalogEntries.
Context {D : Type}.
Implicit Types (catalog : NewCatalog D) (d : Entry (DBData (TableCollectionMeta D))).

Lemma with_databases_same catalog : with_databases catalog (databases_ catalog) = catalog.
Proof. by destruct catalog. Qed.

(** Replacing the version list of one name. *)
Lemma all_dbs_insert catalog n m :
  exists rest, all_dbs catalog ≡ₚ from_option db_entry_list_ [] (databases_ catalog !! n) ++ rest /\
    all_dbs (with_databases catalog (<[n := m]> (databases_ catalog))) ≡ₚ db_entry_list_ m ++ rest.
Proof.
  exists (map_to_list (delete n (databases_ catalog)) ≫= fun nm => db_entry_list_ nm.2).
  unfold all_dbs. cbn [databases_ with_databases]. split.
  - destruct (databases_ catalog !! n) as [m0|] eqn:E; simpl; [|by rewrite delete_id].
    rewrite <- (insert_delete_id _ _ _ E) at 1. by rewrite map_to_list_insert by apply lookup_delete_eq.
  - rewrite <- insert_delete_eq. by rewrite map_to_list_insert by apply lookup_delete_eq.
Qed.

Lemma tables_of_insert d dd tn m :
  payload d = Some dd ->
  exists rest, (tables_of d).*2 ≡ₚ from_option table_entry_list_ [] (tables_ dd !! tn) ++ rest /\
    (tables_of (with_payload d (Some (with_tables dd (<[tn := m]> (tables_ dd)))))).*2 ≡ₚ table_entry_list_ m ++ rest.
Proof.
  intros Hd.
  set (all := fun ts : gmap string (TableCollectionMeta D) =>
    (map_to_list ts ≫= fun nm => pair nm.1 <$> table_entry_list_ nm.2).*2).
  assert (forall ts k x, ts !! k = None -> all (<[k := x]> ts) ≡ₚ table_entry_list_ x ++ all ts) as Hall.
  { intros ts k x Hk. unfold all. rewrite map_to_list_insert by done. simpl. rewrite fmap_app, <- list_fmap_compose.
    apply Permutation_app; [|done]. apply Permutation_refl'. exact (list_fmap_id (table_entry_list_ x)). }
  exists (all (delete tn (tables_ dd))). unfold tables_of. rewrite Hd. cbn [payload with_payload tables_ with_tables].
  fold (all (tables_ dd)). fold (all (<[tn := m]> (tables_ dd))). split.
  - destruct (tables_ dd !! tn) as [m0|] eqn:E; simpl; [|by rewrite delete_id].
    rewrite <- (insert_delete_id _ _ _ E) at 1. by rewrite Hall by apply lookup_delete_eq.
  - rewrite <- insert_delete_eq. by rewrite Hall by apply lookup_delete_eq.
Qed.

Lemma all_dbs_map f catalog : all_dbs (map_dbs f catalog) = f <$> all_dbs catalog.
Proof.
  unfold all_dbs, map_dbs. cbn [databases_ with_databases]. rewrite map_to_list_fmap.
  induction (map_to_list (databases_ catalog)) as [|[n m] l IH]; [done|].
  by rewrite fmap_cons, !bind_cons, fmap_app, IH.
Qed.

Lemma tables_of_map f d : (tables_of (map_tables_of f d)).*2 = f <$> (tables_of d).*2.
Proof.
  unfold tables_of, map_tables_of. cbn [payload with_payload]. destruct (payload d) as [dd|]; simpl; [|done].
  rewrite map_to_list_fmap. induction (map_to_list (tables_ dd)) as [|[n m] l IH]; [done|].
  rewrite fmap_cons, !bind_cons, !fmap_app, IH. f_equal. cbn. rewrite <- !list_fmap_compose. reflexivity.
Qed.

Lemma all_tables_map f catalog : all_tables (map_tables f catalog) = f <$> all_tables catalog.
Proof.
  unfold all_tables, map_tables. rewrite all_dbs_map.
  induction (all_dbs catalog) as [|d l IH]; [done|]. by rewrite fmap_cons, !bind_cons, IH, tables_of_map, fmap_app.
Qed.

(** An update that keeps the members of the databases keeps the tables. *)
Lemma all_tables_map_dbs f catalog :
  (forall d, tables_of (f d) = tables_of d) -> all_tables (map_dbs f catalog) = all_tables catalog.
Proof.
  intros Hf. unfold all_tables. rewrite all_dbs_map.
  induction (all_dbs catalog) as [|d l IH]; [done|]. by rewrite fmap_cons, !bind_cons, IH, Hf.
Qed.

Lemma elem_of_all_dbs catalog d :
  d ∈ all_dbs catalog <-> exists n m, databases_ catalog !! n = Some m /\ d ∈ db_entry_list_ m.
Proof.
  unfold all_dbs. rewrite list_elem_of_bind. setoid_rewrite elem_of_map_to_list'. split.
  - intros ([n m] & Hd & Hl). by exists n, m.
  - intros (n & m & Hl & Hd). by exists (n, m).
Qed.

Lemma find_at_elem {P} p (L : list (Entry P)) e : find_at p L = Some e -> e ∈ L /\ addr e = p.
Proof.
  unfold find_at. destruct (filter (fun e => addr e = p) L) as [|x rest] eqn:E; [done|]. intros [= ->].
  assert (e ∈ filter (fun e => addr e = p) L) as He by (rewrite E; by left).
  apply list_elem_of_filter in He. naive_solver.
Qed.

Lemma find_at_live {P} p (L : list (Entry P)) : p ∈ (addr <$> L) -> is_Some (find_at p L).
Proof.
  intros (e & -> & He)%list_elem_of_fmap. unfold find_at.
  destruct (filter (fun x => addr x = addr e) L) as [|x rest] eqn:E; [|done].
  assert (e ∈ filter (fun x => addr x = addr e) L) as H by by apply list_elem_of_filter. rewrite E in H. by apply elem_of_nil in H.
Qed.

(** Writing one database through its address. *)
Lemma all_dbs_store catalog d f :
  NoDup (addr <$> all_dbs catalog) -> d ∈ all_dbs catalog -> exists rest,
    all_dbs catalog ≡ₚ d :: rest /\ all_dbs (map_dbs (at_addr (addr d) f) catalog) ≡ₚ f d :: rest.
Proof.
  intros Hnd [rest HP]%elem_of_Permutation. exists rest. split; [done|].
  rewrite all_dbs_map, HP, fmap_cons. rewrite HP, fmap_cons in Hnd. apply NoDup_cons in Hnd as [Hf _].
  unfold at_addr at 1. rewrite bool_decide_true by done. apply Permutation_cons; [done|].
  rewrite <- (list_fmap_id rest) at 2. apply Permutation_refl'. apply list_fmap_ext. intros i x Hx.
  unfold at_addr. rewrite bool_decide_false; [done|]. intros E. apply Hf. rewrite <- E. apply list_elem_of_fmap_2.
  by eapply list_elem_of_lookup_2.
Qed.
End CatalogEntries.

(** ** Create and drop calls as changes of a version list *)

Section Calls.
Implicit Types (t b : Z) (gs : Z -> option TxnState).

Lemma DB_Create_change {D} (m m' : DBMeta (TableCollectionMeta D)) a ad t b gs ct st p :
  ct <> kIgnore -> (forall i, ~ rolled_back (gs i)) -> DBMeta.CreateNewEntry m a ad t b gs ct = Ret (st, m', p) ->
  version_change (fun e => tables_of e = [] /\ entry_type_ e = kDatabase) t a ad (db_entry_list_ m) (db_entry_list_ m') p /\
  p = if status_ok st then Some a else None.
Proof.
  intros Hct Hs. unfold DBMeta.CreateNewEntry.
  destruct (db_entry_list_ m) as [|h rest] eqn:El.
  { intros [= <- <- <-]. split; [by apply vc_init|done]. }
  intros Hc. repeat (destruct_match_in Hc; simplify_eq/=; zbool); rewrite ?El;
    first [split; [first [by apply vc_none | by apply vc_push]|done] | exfalso; eapply Hs; unfold rolled_back; eauto].
Qed.

Lemma DB_Drop_change {D} (m m' : DBMeta (TableCollectionMeta D)) a ad t b st p :
  DBMeta.DropNewEntry m a t b = (st, m', p) ->
  version_change (fun e => tables_of e = []) t a ad (db_entry_list_ m) (db_entry_list_ m') p /\
  status_ok st = bool_decide (is_Some p).
Proof.
  unfold DBMeta.DropNewEntry. destruct (db_entry_list_ m) as [|h rest] eqn:El; intros Hc.
  { simplify_eq. rewrite El. split; [apply vc_none|done]. }
  repeat (destruct_match_in Hc; simplify_eq/=; zbool); rewrite ?El;
    (split; [first [by apply vc_none | by apply vc_push | by apply vc_pop]|done]).
Qed.

Lemma Table_Create_change {D} (d : D) m m' a ad ty n cs t b gs st p :
  (forall i, ~ rolled_back (gs i)) -> u64_entries (table_entry_list_ m) ->
  TableMeta.CreateNewEntry d m a ad ty n cs t b gs = Ret (st, m', p) ->
  version_change (fun e => entry_type_ e = kTable) t a ad (table_entry_list_ m) (table_entry_list_ m') p /\
  (forall x, p = Some x -> x = a).
Proof.
  intros Hs. unfold TableMeta.CreateNewEntry.
  destruct (table_entry_list_ m) as [|h rest] eqn:El.
  { intros _ [= <- <- <-]. split; [by apply vc_init|naive_solver]. }
  intros Hu%u64_entries_head Hc. rewrite Hu in Hc.
  repeat (destruct_match_in Hc; simplify_eq/=; zbool); rewrite ?El;
    first [split; [first [by apply vc_none | by apply vc_push]|naive_solver] | exfalso; eapply Hs; unfold rolled_back; eauto].
Qed.

Lemma Table_Drop_change {D} (d : D) m m' a ad t b ct st p :
  u64_entries (table_entry_list_ m) ->
  TableMeta.DropNewEntry d m a t b ct = (st, m', p) ->
  version_change (fun e => entry_type_ e = kTable) t a ad (table_entry_list_ m) (table_entry_list_ m') p.
Proof.
  unfold TableMeta.DropNewEntry. destruct (table_entry_list_ m) as [|h rest] eqn:El; intros Hu Hc.
  { simplify_eq. rewrite El. apply vc_none. }
  rewrite (u64_entries_head _ _ Hu) in Hc.
  repeat (destruct_match_in Hc; simplify_eq/=; zbool); rewrite ?El;
    first [by apply vc_none | by apply vc_push | by apply vc_pop].
Qed.

Lemma vc_u64 {P} new t a ad (l l' : list (Entry P)) q : version_change new t a ad l l' q -> u64_entries l -> u64_entries l'.
Proof.
  assert (forall e : Entry P, pending_of t e -> 0 <= commit_ts_ e <= UNCOMMIT_TS) as Hp.
  { intros e (_ & Hc & _). unfold Committed in Hc. zbool. rewrite Hc. done. }
  intros [l0|e _ He _|e l0 _ He _|h l0 _] Hu; try done.
  - by repeat (apply Forall_cons; split); [apply Hp| |].
  - apply Forall_cons. auto.
  - by apply Forall_cons in Hu as [_ Hu].
Qed.
End Calls.

(** ** Calls of a transaction *)

Section System.
Context {R : Type}.
Abbreviation Data := (TxnStore.TableData R).
Implicit Types (catalog : NewCatalog (TxnStore.TableData R)) (txn : Txn R) (t : Z) (gs : Z -> option TxnState).

(** The DDL calls on databases and tables. *)
Inductive ddl_call :=
  | CallCreateDatabase (db_name : string) (conflict_type : ConflictType)
  | CallDropDatabase (db_name : string)
  | CallCreateTable (db_name : string) (table_def : TableDef)
  | CallDropTable (db_name table_name : string) (conflict_type : ConflictType).

Definition ddl_exec catalog txn gs (a ad : ptr) (c : ddl_call) : outcome (ErrorCode * NewCatalog (TxnStore.TableData R) * Txn R) :=
  match c with
  | CallCreateDatabase n ct => Txn_CreateDatabase catalog txn gs a ad n ct
  | CallDropDatabase n => Txn_DropDatabase catalog txn a n
  | CallCreateTable n td => Txn_CreateTable catalog txn gs a ad n td
  | CallDropTable n tn ct => Txn_DropTable catalog txn a n tn ct
  end.

Definition toggle_opt (q : option ptr) (S : gset ptr) : gset ptr := match q with Some p => toggle p S | None => S end.

Definition same_stamps {P} (e e' : Entry P) : Prop :=
  addr e' = addr e /\ txn_id_ e' = txn_id_ e /\ commit_ts_ e' = commit_ts_ e /\ entry_type_ e' = entry_type_ e.

(** What a call changes: the version list of a database name, or the version
    list of a table name in one database. *)
Inductive call_effect t (a ad : ptr) catalog catalog' (dbs tables dbs' tables' : gset ptr) : Prop :=
  | ce_dbs l l' rest q :
      version_change (fun e => tables_of e = []) t a ad l l' q ->
      all_dbs catalog ≡ₚ l ++ rest -> all_dbs catalog' ≡ₚ l' ++ rest ->
      dbs' = toggle_opt q dbs -> tables' = tables -> call_effect t a ad catalog catalog' dbs tables dbs' tables'
  | ce_tables d d' rest l l' rest' q :
      same_stamps d d' -> all_dbs catalog ≡ₚ d :: rest -> all_dbs catalog' ≡ₚ d' :: rest ->
      version_change (fun _ => True) t a ad l l' q ->
      (tables_of d).*2 ≡ₚ l ++ rest' -> (tables_of d').*2 ≡ₚ l' ++ rest' ->
      dbs' = dbs -> tables' = toggle_opt q tables -> call_effect t a ad catalog catalog' dbs tables dbs' tables'.

Lemma vc_weaken {P} (new new' : Entry P -> Prop) t a ad l l' q :
  (forall e, new e -> new' e) -> version_change new t a ad l l' q -> version_change new' t a ad l l' q.
Proof. intros Hn []; eauto using @version_change. Qed.

Lemma same_stamps_refl {P} (e : Entry P) : same_stamps e e.
Proof. done. Qed.

Lemma ce_none t a ad catalog dbs tables : call_effect t a ad catalog catalog dbs tables dbs tables.
Proof. by apply (ce_dbs _ _ _ _ _ _ _ _ _ [] [] (all_dbs catalog) None); [apply vc_none|..]. Qed.

Definition keeps_rest txn txn' : Prop :=
  self_txn_id_ txn' = self_txn_id_ txn /\ context_ txn' = context_ txn /\
  txn_indexes_ txn' = txn_indexes_ txn /\ txn_tables_store_ txn' = txn_tables_store_ txn.

Lemma create_db_effect catalog txn gs a ad n ct st catalog' txn' :
  ct <> kIgnore -> (forall i, ~ rolled_back (gs i)) ->
  track (self_txn_id_ txn) (txn_dbs_ txn) (all_dbs catalog) -> fresh_in a (all_dbs catalog) ->
  Txn_CreateDatabase catalog txn gs a ad n ct = Ret (st, catalog', txn') ->
  call_effect (self_txn_id_ txn) a ad catalog catalog' (txn_dbs_ txn) (txn_tables_ txn) (txn_dbs_ txn') (txn_tables_ txn') /\
  keeps_rest txn txn'.
Proof.
  intros Hct Hgs HT Hf. unfold Txn_CreateDatabase, CreateDatabase. destruct (negb (started txn)); [done|].
  set (m := match databases_ catalog !! n with Some m => m | None => _ end).
  destruct (DBMeta.CreateNewEntry m a ad _ _ gs ct) as [[[st' m'] p]|?|?] eqn:Ec; simpl; [|done..].
  destruct (DB_Create_change m m' a ad _ _ gs ct st' p Hct Hgs Ec) as [Hc Hp].
  destruct (all_dbs_insert catalog n m') as (rest & HL & HL').
  assert (from_option db_entry_list_ [] (databases_ catalog !! n) = db_entry_list_ m) as El
    by (unfold m; by destruct (databases_ catalog !! n)).
  rewrite El in HL. apply (vc_weaken _ (fun e => tables_of e = [])) in Hc; [|naive_solver].
  destruct (status_ok st'); simpl; rewrite Hp in Hc.
  - rewrite Hp. repeat case_match; intros; simplify_eq/=; split; [|done].
    eapply ce_dbs; [exact Hc|done|done| |done]. simpl. symmetry. apply toggle_fresh. by eapply track_not_in.
  - intros; simplify_eq/=. split; [|done]. by eapply ce_dbs; [exact Hc|..].
Qed.

Lemma drop_db_effect catalog txn a ad n st catalog' txn' :
  Txn_DropDatabase catalog txn a n = Ret (st, catalog', txn') ->
  call_effect (self_txn_id_ txn) a ad catalog catalog' (txn_dbs_ txn) (txn_tables_ txn) (txn_dbs_ txn') (txn_tables_ txn') /\
  keeps_rest txn txn'.
Proof.
  unfold Txn_DropDatabase, DropDatabase. destruct (negb (started txn)); [done|].
  destruct (databases_ catalog !! n) as [m|] eqn:Em.
  2: { intros; simplify_eq/=. split; [apply ce_none|done]. }
  destruct (DBMeta.DropNewEntry m a _ _) as [[st' m'] p] eqn:Ec.
  destruct (DB_Drop_change m m' a ad _ _ st' p Ec) as [Hc Hp].
  destruct (all_dbs_insert catalog n m') as (rest & HL & HL'). rewrite Em in HL. simpl in HL.
  rewrite Hp. destruct p as [p|]; simpl; intros; simplify_eq/=; (split; [|done]); by eapply ce_dbs; [exact Hc|..].
Qed.

Lemma GetDatabase_live catalog n t b d : GetDatabase catalog n t b = (kOk, Some d) -> d ∈ all_dbs catalog.
Proof.
  unfold GetDatabase. destruct (databases_ catalog !! n) as [m|] eqn:Em; [|done].
  rewrite DB_GetEntry_reads. intros Hr. apply elem_of_all_dbs. exists n, m. split; [done|].
  destruct (reads t b (db_entry_list_ m)) as [e|] eqn:E; [|done].
  apply (reads_elem t b). destruct (BaseEntry.deleted_ e); naive_solver.
Qed.

(** Changing the version list of one table name of a live database. *)
Lemma store_tables_effect t a ad catalog catalog' d dd tn m' q dbs tables :
  NoDup (addr <$> all_dbs catalog) -> d ∈ all_dbs catalog -> payload d = Some dd ->
  version_change (fun _ => True) t a ad (from_option table_entry_list_ [] (tables_ dd !! tn)) (table_entry_list_ m') q ->
  store_db catalog (addr d) (with_tables dd (<[tn := m']> (tables_ dd))) = Ret catalog' ->
  call_effect t a ad catalog catalog' dbs tables dbs (toggle_opt q tables).
Proof.
  intros Hnd Hd Hdd Hc. unfold store_db, with_db_at. destruct (find_at (addr d) (all_dbs catalog)); [|done].
  intros [= <-]. destruct (tables_of_insert d dd tn m' Hdd) as (rest' & HT & HT').
  destruct (all_dbs_store catalog d (fun e => with_payload e (Some (with_tables dd (<[tn := m']> (tables_ dd)))))) as (rest & HL & HL');
    [done|done|].
  by eapply (ce_tables _ _ _ _ _ _ _ _ _ d _ rest _ _ rest' q); [|exact HL|exact HL'|exact Hc|exact HT|exact HT'|..].
Qed.

Lemma u64_table_list catalog d dd tn :
  u64_entries (all_tables catalog) -> d ∈ all_dbs catalog -> payload d = Some dd ->
  u64_entries (from_option table_entry_list_ [] (tables_ dd !! tn)).
Proof.
  intros Hu Hd Hdd. destruct (tables_ dd !! tn) as [m|] eqn:E; [|constructor].
  apply Forall_forall. intros e He. unfold u64_entries in Hu. rewrite Forall_forall in Hu. apply Hu.
  unfold all_tables. apply list_elem_of_bind. exists d. split; [|done].
  apply list_elem_of_fmap. exists (tn, e). split; [done|]. unfold tables_of. rewrite Hdd.
  apply list_elem_of_bind. exists (tn, m). split; [by apply list_elem_of_fmap_2|by apply elem_of_map_to_list].
Qed.

Lemma create_table_effect catalog txn gs a ad n td st catalog' txn' :
  (forall i, ~ rolled_back (gs i)) -> u64_entries (all_tables catalog) ->
  NoDup (addr <$> all_dbs catalog) -> track (self_txn_id_ txn) (txn_tables_ txn) (all_tables catalog) ->
  fresh_in a (all_tables catalog) ->
  Txn_CreateTable catalog txn gs a ad n td = Ret (st, catalog', txn') ->
  call_effect (self_txn_id_ txn) a ad catalog catalog' (txn_dbs_ txn) (txn_tables_ txn) (txn_dbs_ txn') (txn_tables_ txn') /\
  keeps_rest txn txn'.
Proof.
  intros Hgs Hu Hnd HT Hf. unfold Txn_CreateTable, CreateTableCollection. destruct (negb (started txn)); [done|].
  destruct (GetDatabase catalog n _ _) as [st0 od] eqn:Eg.
  assert (Ret (st0, catalog, txn) = Ret (st, catalog', txn') ->
    call_effect (self_txn_id_ txn) a ad catalog catalog' (txn_dbs_ txn) (txn_tables_ txn) (txn_dbs_ txn') (txn_tables_ txn') /\
    keeps_rest txn txn') as Hsame by (intros; simplify_eq; split; [apply ce_none|done]).
  destruct st0, od as [d|]; try exact Hsame. clear Hsame.
  apply GetDatabase_live in Eg. destruct (payload d) as [dd|] eqn:Edd; [|done].
  set (m := match tables_ dd !! _ with Some m => m | None => _ end).
  destruct (TableMeta.CreateNewEntry _ m a ad _ _ _ _ _ gs) as [[[st' m'] p]|?|?] eqn:Ec; simpl; [|done..].
  pose proof (u64_table_list catalog d dd (table_name_ td) Hu Eg Edd) as Hum.
  assert (from_option table_entry_list_ [] (tables_ dd !! table_name_ td) = table_entry_list_ m) as El
    by (unfold m; by destruct (tables_ dd !! table_name_ td)).
  rewrite El in Hum. destruct (Table_Create_change _ m m' _ _ _ _ _ _ _ _ _ _ Hgs Hum Ec) as [Hc Hp].
  apply (vc_weaken _ (fun _ => True)) in Hc; [|done]. rewrite <- El in Hc.
  destruct (store_db catalog (addr d) _) as [cat2|?|?] eqn:Es; simpl; [|done..].
  destruct p as [p|].
  - repeat case_match; intros; simplify_eq/=. split; [|done]. rewrite (Hp p eq_refl) in *.
    rewrite <- toggle_fresh by (by eapply track_not_in).
    exact (store_tables_effect _ _ _ _ _ d dd _ m' (Some a) _ _ Hnd Eg Edd Hc Es).
  - intros; simplify_eq/=. split; [|done]. exact (store_tables_effect _ _ _ _ _ d dd _ m' None _ _ Hnd Eg Edd Hc Es).
Qed.

Lemma drop_table_effect catalog txn a ad n tn ct st catalog' txn' :
  u64_entries (all_tables catalog) -> NoDup (addr <$> all_dbs catalog) ->
  Txn_DropTable catalog txn a n tn ct = Ret (st, catalog', txn') ->
  call_effect (self_txn_id_ txn) a ad catalog catalog' (txn_dbs_ txn) (txn_tables_ txn) (txn_dbs_ txn') (txn_tables_ txn') /\
  keeps_rest txn txn'.
Proof.
  intros Hu Hnd. unfold Txn_DropTable, DropTableCollection. destruct (negb (started txn)); [done|].
  destruct (GetDatabase catalog n _ _) as [st0 od] eqn:Eg.
  assert (Ret (st0, catalog, txn) = Ret (st, catalog', txn') ->
    call_effect (self_txn_id_ txn) a ad catalog catalog' (txn_dbs_ txn) (txn_tables_ txn) (txn_dbs_ txn') (txn_tables_ txn') /\
    keeps_rest txn txn') as Hsame by (intros; simplify_eq; split; [apply ce_none|done]).
  destruct st0, od as [d|]; try exact Hsame. clear Hsame.
  apply GetDatabase_live in Eg. destruct (payload d) as [dd|] eqn:Edd; [|done].
  pose proof (u64_table_list catalog d dd tn Hu Eg Edd) as Hum.
  destruct (tables_ dd !! tn) as [m|] eqn:Em.
  - destruct (TableMeta.DropNewEntry _ m a _ _ ct) as [[st' m'] p] eqn:Ec.
    pose proof (Table_Drop_change _ m m' a ad _ _ ct st' p Hum Ec) as Hc.
    apply (vc_weaken _ (fun _ => True)) in Hc; [|done].
    assert (table_entry_list_ m = from_option table_entry_list_ [] (tables_ dd !! tn)) as El by by rewrite Em.
    rewrite El in Hc.
    destruct (store_db catalog (addr d) _) as [cat2|?|?] eqn:Es; simpl; [|done..].
    pose proof (store_tables_effect _ _ _ _ _ d dd _ m' p (txn_dbs_ txn) (txn_tables_ txn) Hnd Eg Edd Hc Es) as He.
    destruct p as [p|]; intros; simplify_eq/=; done.
  - unfold store_db, with_db_at. destruct (find_at (addr d) (all_dbs catalog)) as [e|]; [|done]. simpl.
    intros; simplify_eq/=. split; [|done].
    destruct (all_dbs_store catalog d (fun e => with_payload e (Some dd))) as (rest & HL & HL'); [done|done|].
    eapply (ce_tables _ _ _ _ _ _ _ _ _ d _ rest [] [] (tables_of d).*2 None); [|exact HL|exact HL'|apply vc_none|done| |done|done].
    + done.
    + unfold tables_of. simpl. by rewrite Edd.
Qed.

Lemma ddl_exec_effect catalog txn gs a ad c st catalog' txn' :
  (forall n, c <> CallCreateDatabase n kIgnore) -> (forall i, ~ rolled_back (gs i)) -> u64_entries (all_tables catalog) ->
  track (self_txn_id_ txn) (txn_dbs_ txn) (all_dbs catalog) -> track (self_txn_id_ txn) (txn_tables_ txn) (all_tables catalog) ->
  fresh_in a (all_dbs catalog) -> fresh_in a (all_tables catalog) ->
  ddl_exec catalog txn gs a ad c = Ret (st, catalog', txn') ->
  call_effect (self_txn_id_ txn) a ad catalog catalog' (txn_dbs_ txn) (txn_tables_ txn) (txn_dbs_ txn') (txn_tables_ txn') /\
  keeps_rest txn txn'.
Proof.
  intros Hc Hgs Hu HD HT Hf Hf'. pose proof (proj1 HD) as Hnd. destruct c as [n ct|n|n td|n tn ct]; simpl.
  - apply create_db_effect; try done. intros ->. by eapply Hc.
  - apply drop_db_effect.
  - by apply create_table_effect.
  - by apply drop_table_effect.
Qed.

(** *** What a call keeps *)

(** Every uncommitted version belongs to one of the transactions [X]. *)
Definition owned_by (X : gset Z) {P} (L : list (Entry P)) : Prop :=
  Forall (fun e => is_dummy e = false -> Committed e = false -> txn_id_ e ∈ X) L.

Definition settled {P} (e : Entry P) : Prop := is_dummy e = true \/ Committed e = true.

(** No database entry that holds uncommitted tables is destroyed. *)
Definition spares_tables catalog catalog' : Prop :=
  forall d, d ∈ all_dbs catalog -> fresh_in (addr d) (all_dbs catalog') -> Forall settled (tables_of d).*2.

Lemma settled_not_pending {P} t (e : Entry P) : settled e -> ~ pending_of t e.
Proof. intros [H|H] (Hd & Hc & _); congruence. Qed.

Lemma all_tables_perm catalog L : all_dbs catalog ≡ₚ L -> all_tables catalog ≡ₚ L ≫= fun d => (tables_of d).*2.
Proof. intros HP. unfold all_tables. by rewrite HP. Qed.

Lemma vc_owned {P} new t a ad (l l' rest L L' : list (Entry P)) q X :
  version_change new t a ad l l' q -> L ≡ₚ l ++ rest -> L' ≡ₚ l' ++ rest -> t ∈ X -> owned_by X L -> owned_by X L'.
Proof.
  unfold owned_by. intros Hc -> -> Ht. rewrite !Forall_app. intros [Hl Hr]. split; [|done].
  assert (forall e : Entry P, pending_of t e -> is_dummy e = false -> Committed e = false -> txn_id_ e ∈ X) as Hp
    by (intros e (_ & _ & ->); auto).
  destruct Hc as [l|e _ He _|e l _ He _|h l _]; try done.
  - apply Forall_cons. split; [by apply Hp|]. by apply Forall_singleton.
  - apply Forall_cons. auto.
  - by apply Forall_cons in Hl as [_ Hl].
Qed.

(** The tables that are lost when a version list of databases changes. *)
Lemma ce_dbs_tables t a ad catalog catalog' l l' rest q :
  version_change (fun e => tables_of e = []) t a ad l l' q ->
  all_dbs catalog ≡ₚ l ++ rest -> all_dbs catalog' ≡ₚ l' ++ rest ->
  NoDup (addr <$> all_dbs catalog) -> spares_tables catalog catalog' ->
  exists lost, all_tables catalog ≡ₚ lost ++ all_tables catalog' /\ Forall settled lost.
Proof.
  intros Hc HL HL' Hnd Hsp. pose proof (all_tables_perm _ _ HL) as HT. pose proof (all_tables_perm _ _ HL') as HT'.
  rewrite bind_app in HT, HT'.
  destruct Hc as [l|e _ _ He|e l _ _ He|h l Hh]; rewrite ?bind_cons, ?He in HT, HT'; simpl in HT, HT'.
  1-3: exists []; split; [|by apply Forall_nil]; rewrite HT, HT'; try rewrite He; done.
  exists (tables_of h).*2. split; [by rewrite HT, HT', (assoc_L _)|]. apply Hsp.
  - rewrite HL. by left.
  - unfold fresh_in. rewrite HL'. rewrite HL in Hnd. simpl in Hnd. by apply NoDup_cons in Hnd as [Hnd _].
Qed.

Lemma track_stamps {P} t S (d d' : Entry P) rest : same_stamps d d' -> track t S (d :: rest) -> track t S (d' :: rest).
Proof.
  intros (Ha & Ht & Hc & Hty) [Hnd HS]. split; [by rewrite fmap_cons, Ha|].
  assert (pending_of t d' <-> pending_of t d) as Hp
    by (unfold pending_of, is_dummy, Committed; by rewrite Ht, Hc, Hty).
  intros p. rewrite HS. setoid_rewrite elem_of_cons. naive_solver.
Qed.

Section Effect.
Context t a ad catalog catalog' dbs tables dbs' tables'
  (Heff : call_effect t a ad catalog catalog' dbs tables dbs' tables')
  (Hne : a <> ad) (Had : fresh_in a (all_dbs catalog)) (Hadd : fresh_in ad (all_dbs catalog))
  (Hat : fresh_in a (all_tables catalog)) (Hadt : fresh_in ad (all_tables catalog))
  (Hsp : spares_tables catalog catalog').

(** The calling transaction. *)
Lemma effect_own :
  track t dbs (all_dbs catalog) -> track t tables (all_tables catalog) ->
  track t dbs' (all_dbs catalog') /\ track t tables' (all_tables catalog').
Proof.
  intros HD HT. destruct Heff as [l l' rest q Hc HL HL' -> ->|d d' rest l l' rest' q Hss HL HL' Hc Hl Hl' -> ->].
  - split; [by eapply track_change|].
    destruct (ce_dbs_tables _ _ _ _ _ _ _ _ _ Hc HL HL' (proj1 HD) Hsp) as (lost & HP & Hs).
    apply (track_perm _ _ _ _ HP) in HT. apply track_app_other in HT; [done|].
    eapply Forall_impl; [exact Hs|]. intros. by apply settled_not_pending.
  - split.
    + apply (track_perm _ _ (d' :: rest)); [done|]. apply (track_perm _ _ _ _ HL) in HD. by eapply track_stamps.
    + eapply (track_change _ _ _ _ _ _ _ _ _ _ (rest' ++ (rest ≫= fun d => (tables_of d).*2)) Hc); [..|done|done|done|exact HT].
      * by rewrite (all_tables_perm _ _ HL), bind_cons, Hl, (assoc_L _).
      * by rewrite (all_tables_perm _ _ HL'), bind_cons, Hl', (assoc_L _).
Qed.

(** The other transactions. *)
Lemma effect_other t' S S' :
  t' <> t -> track t' S (all_dbs catalog) -> track t' S' (all_tables catalog) ->
  track t' S (all_dbs catalog') /\ track t' S' (all_tables catalog').
Proof.
  intros Ht HD HT. destruct Heff as [l l' rest q Hc HL HL' -> ->|d d' rest l l' rest' q Hss HL HL' Hc Hl Hl' -> ->].
  - split; [by eapply track_change_other|].
    destruct (ce_dbs_tables _ _ _ _ _ _ _ _ _ Hc HL HL' (proj1 HD) Hsp) as (lost & HP & Hs).
    apply (track_perm _ _ _ _ HP) in HT. apply track_app_other in HT; [done|].
    eapply Forall_impl; [exact Hs|]. intros. by apply settled_not_pending.
  - split.
    + apply (track_perm _ _ (d' :: rest)); [done|]. apply (track_perm _ _ _ _ HL) in HD. by eapply track_stamps.
    + eapply (track_change_other _ _ _ _ _ _ _ _ _ _ _ (rest' ++ (rest ≫= fun d => (tables_of d).*2)) Hc Ht); [..|done|done|done|exact HT].
      * by rewrite (all_tables_perm _ _ HL), bind_cons, Hl, (assoc_L _).
      * by rewrite (all_tables_perm _ _ HL'), bind_cons, Hl', (assoc_L _).
Qed.

Lemma effect_owned X :
  NoDup (addr <$> all_dbs catalog) -> t ∈ X -> owned_by X (all_dbs catalog) -> owned_by X (all_tables catalog) ->
  u64_entries (all_tables catalog) ->
  owned_by X (all_dbs catalog') /\ owned_by X (all_tables catalog') /\ u64_entries (all_tables catalog').
Proof.
  intros Hnd Ht HD HT Hu. destruct Heff as [l l' rest q Hc HL HL' _ _|d d' rest l l' rest' q Hss HL HL' Hc Hl Hl' _ _].
  - destruct (ce_dbs_tables _ _ _ _ _ _ _ _ _ Hc HL HL' Hnd Hsp) as (lost & HP & _).
    split; [by eapply vc_owned|]. unfold owned_by, u64_entries in *. rewrite HP, Forall_app in HT, Hu. naive_solver.
  - set (r := rest' ++ (rest ≫= fun d => (tables_of d).*2)).
    assert (all_tables catalog ≡ₚ l ++ r) as HP by (by rewrite (all_tables_perm _ _ HL), bind_cons, Hl, <- (assoc_L _)).
    assert (all_tables catalog' ≡ₚ l' ++ r) as HP' by (by rewrite (all_tables_perm _ _ HL'), bind_cons, Hl', <- (assoc_L _)).
    split_and!.
    + unfold owned_by in *. rewrite HL, Forall_cons in HD. rewrite HL', Forall_cons. destruct HD as [Hd Hr]. split; [|done].
      destruct Hss as (_ & Et & Ec & Ety). unfold is_dummy, Committed in *. by rewrite Et, Ec, Ety.
    + by eapply vc_owned.
    + unfold u64_entries in *. rewrite HP, Forall_app in Hu. rewrite HP', Forall_app.
      destruct Hu as [Hu ?]. split; [exact (vc_u64 _ _ _ _ _ _ _ Hc Hu)|done].
Qed.
End Effect.

(** *** Stamping entries *)

(** Every version of [t] becomes a version committed at [ts]; nothing else
    changes. *)
Definition commit_own t (ts : Z) {P} (e : Entry P) : Entry P := if decide (pending_of t e) then Commit ts e else e.

Definition commit_all t (ts : Z) catalog : NewCatalog (TxnStore.TableData R) :=
  map_tables (commit_own t ts) (map_dbs (commit_own t ts) catalog).

Definition stamp (ts : Z) (ps : list ptr) {P} (e : Entry P) : Entry P := if decide (addr e ∈ ps) then Commit ts e else e.

Lemma stamp_cons ts p ps {P} (e : Entry P) : stamp ts ps (at_addr p (Commit ts) e) = stamp ts (p :: ps) e.
Proof.
  unfold stamp, at_addr. case_bool_decide as E; simpl; [subst|].
  - rewrite (decide_True (P := addr e ∈ addr e :: ps)) by (by left). by case_decide.
  - rewrite (decide_ext (addr e ∈ ps) (addr e ∈ p :: ps)); [done|]. rewrite elem_of_cons. naive_solver.
Qed.

Lemma stamp_track t ts S {P} (L : list (Entry P)) e : track t S L -> e ∈ L -> stamp ts (elements S) e = commit_own t ts e.
Proof.
  intros HT He. unfold stamp, commit_own. apply decide_ext. rewrite elem_of_elements. by eapply track_elem.
Qed.

Lemma map_dbs_compose f g catalog : map_dbs f (map_dbs g catalog) = map_dbs (f ∘ g) catalog.
Proof.
  unfold map_dbs, with_databases. simpl. f_equal. rewrite <- map_fmap_compose. apply map_fmap_ext.
  intros n m _. unfold DBMeta.with_entries. simpl. f_equal. by rewrite list_fmap_compose.
Qed.

Lemma map_dbs_ext f g catalog : (forall d, d ∈ all_dbs catalog -> f d = g d) -> map_dbs f catalog = map_dbs g catalog.
Proof.
  intros H. unfold map_dbs. f_equal. apply map_fmap_ext. intros n m Hm. f_equal. apply list_fmap_ext. intros i d Hd.
  apply H, elem_of_all_dbs. exists n, m. split; [done|]. by eapply list_elem_of_lookup_2.
Qed.

Lemma map_tables_of_compose f g (d : Entry (DBData (TableCollectionMeta Data))) :
  map_tables_of f (map_tables_of g d) = map_tables_of (f ∘ g) d.
Proof.
  unfold map_tables_of, with_payload. simpl. f_equal. destruct (payload d) as [dd|]; simpl; [|done]. do 2 f_equal.
  rewrite <- map_fmap_compose. apply map_fmap_ext. intros n m _. unfold TableMeta.with_entries. simpl. f_equal.
  by rewrite list_fmap_compose.
Qed.

Lemma map_tables_of_ext f g (d : Entry (DBData (TableCollectionMeta Data))) :
  (forall e, e ∈ (tables_of d).*2 -> f e = g e) -> map_tables_of f d = map_tables_of g d.
Proof.
  unfold map_tables_of, tables_of. destruct (payload d) as [dd|]; simpl; [|done]. intros H. do 3 f_equal.
  apply map_fmap_ext. intros n m Hm. f_equal. apply list_fmap_ext. intros i e He. apply H.
  apply list_elem_of_fmap. exists (n, e). split; [done|]. apply list_elem_of_bind. exists (n, m). split.
  - apply list_elem_of_fmap_2. by eapply list_elem_of_lookup_2.
  - by apply elem_of_map_to_list.
Qed.

Lemma map_tables_compose f g catalog : map_tables f (map_tables g catalog) = map_tables (f ∘ g) catalog.
Proof.
  unfold map_tables. rewrite map_dbs_compose. apply map_dbs_ext. intros d _. apply map_tables_of_compose.
Qed.

Lemma map_tables_ext f g catalog : (forall e, e ∈ all_tables catalog -> f e = g e) -> map_tables f catalog = map_tables g catalog.
Proof.
  intros H. apply map_dbs_ext. intros d Hd. apply map_tables_of_ext. intros e He. apply H.
  apply list_elem_of_bind. by exists d.
Qed.

Lemma map_dbs_id f catalog : (forall d, f d = d) -> map_dbs f catalog = catalog.
Proof.
  intros H. destruct catalog as [dir dbs id v]. unfold map_dbs, with_databases. simpl. f_equal.
  rewrite <- (map_fmap_id dbs) at 2. apply map_fmap_ext. intros n [mn md l] _. unfold DBMeta.with_entries. simpl.
  f_equal. rewrite <- (list_fmap_id l) at 2. by apply list_fmap_ext.
Qed.

Lemma map_tables_of_id f (d : Entry (DBData (TableCollectionMeta Data))) : (forall e, f e = e) -> map_tables_of f d = d.
Proof.
  intros H. destruct d as [? ? ? ? ? ? [[dir n ts]|]]; [|done]. unfold map_tables_of, with_payload, with_tables. simpl. do 3 f_equal.
  rewrite <- (map_fmap_id ts) at 2. apply map_fmap_ext. intros k [md mn l] _. unfold TableMeta.with_entries. simpl.
  f_equal. rewrite <- (list_fmap_id l) at 2. by apply list_fmap_ext.
Qed.

Lemma stamp_nil ts {P} (e : Entry P) : stamp ts [] e = e.
Proof. unfold stamp. rewrite decide_False; [done|]. apply not_elem_of_nil. Qed.

Lemma CommitDBs_spec ts ps catalog :
  Forall (fun p => p ∈ (addr <$> all_dbs catalog)) ps -> CommitDBs catalog ts ps = Ret (map_dbs (stamp ts ps) catalog).
Proof.
  revert catalog. induction ps as [|p ps IH]; intros catalog Hps; simpl.
  { by rewrite map_dbs_id by apply stamp_nil. }
  apply Forall_cons in Hps as [Hp Hps]. unfold with_db_at. destruct (find_at_live _ _ Hp) as [e ->]. simpl.
  rewrite IH, map_dbs_compose.
  - f_equal. apply map_dbs_ext. intros d _. apply stamp_cons.
  - rewrite all_dbs_map, <- list_fmap_compose. eapply Forall_impl; [exact Hps|]. intros q Hq. simpl.
    erewrite list_fmap_ext; [exact Hq|]. intros i d _. simpl. unfold at_addr. by case_bool_decide.
Qed.

Lemma CommitTables_spec ts ps catalog :
  Forall (fun p => p ∈ (addr <$> all_tables catalog)) ps -> CommitTables catalog ts ps = Ret (map_tables (stamp ts ps) catalog).
Proof.
  revert catalog. induction ps as [|p ps IH]; intros catalog Hps; simpl.
  { unfold map_tables. rewrite map_dbs_id; [done|]. intros d. apply map_tables_of_id, stamp_nil. }
  apply Forall_cons in Hps as [Hp Hps]. unfold with_table_at. destruct (find_at_live _ _ Hp) as [e ->]. simpl.
  rewrite IH, map_tables_compose.
  - f_equal. apply map_tables_ext. intros d _. apply stamp_cons.
  - rewrite all_tables_map, <- list_fmap_compose. eapply Forall_impl; [exact Hps|]. intros q Hq. simpl.
    erewrite list_fmap_ext; [exact Hq|]. intros i d _. simpl. unfold at_addr. by case_bool_decide.
Qed.

Lemma track_live t S {P} (L : list (Entry P)) : track t S L -> Forall (fun p => p ∈ (addr <$> L)) (elements S).
Proof.
  intros [_ HS]. apply Forall_forall. intros p Hp. apply elem_of_elements, HS in Hp as (e & He & <- & _).
  by apply list_elem_of_fmap_2.
Qed.

(** The lower half of the commit of a transaction that made only DDL calls. *)
Lemma CommitBottom_spec fuel catalog txn :
  track (self_txn_id_ txn) (txn_dbs_ txn) (all_dbs catalog) -> track (self_txn_id_ txn) (txn_tables_ txn) (all_tables catalog) ->
  txn_indexes_ txn = ∅ -> txn_tables_store_ txn = ∅ -> state_ (context_ txn) = kCommitting ->
  exists txn', CommitBottom fuel catalog txn =
      Some (Ret (commit_all (self_txn_id_ txn) (ctx_commit_ts_ (context_ txn)) catalog, txn')) /\
    state_ (context_ txn') = kCommitted /\ txn_done_bottom_ txn' = true.
Proof.
  intros HD HT Hi Hs Hst. set (c := context_ txn) in *.
  exists (with_done (with_store (with_context txn (mkTxnContext (ctx_begin_ts_ c) (ctx_commit_ts_ c) kCommitted)) ∅ (wal_cmds_ txn))).
  split; [|done]. unfold CommitBottom. rewrite Hs, map_to_list_empty. simpl. unfold SetTxnCommitted. fold c. rewrite Hst. simpl.
  rewrite CommitDBs_spec by (by eapply track_live). simpl.
  rewrite (map_dbs_ext _ (commit_own (self_txn_id_ txn) (ctx_commit_ts_ c))) by (intros; by eapply stamp_track).
  assert (all_tables (map_dbs (commit_own (self_txn_id_ txn) (ctx_commit_ts_ c)) catalog) = all_tables catalog) as Et.
  { apply all_tables_map_dbs. intros d. unfold commit_own. by case_decide. }
  rewrite CommitTables_spec by (rewrite Et; by eapply track_live). simpl.
  rewrite Hi, map_to_list_empty. simpl. unfold commit_all. do 2 f_equal.
  rewrite (map_tables_ext _ (commit_own (self_txn_id_ txn) (ctx_commit_ts_ c))); [reflexivity|].
  intros e He. rewrite Et in He. by eapply stamp_track.
Qed.

(** ** A system of transactions *)

Record State := mkState {
  st_catalog : NewCatalog (TxnStore.TableData R);
  st_txns : gmap Z (Txn R);
}.

(** [TxnManager::GetTxnState] *)
Definition st_gs (s : State) : Z -> option TxnState := fun t => state_ ∘ context_ <$> st_txns s !! t.

(** Transactions that begin, make DDL calls, take a commit timestamp and run the
    lower half of their commit, in any interleaving.  The addresses of new
    entries are those of no live entry. *)
Inductive sys_step (s : State) : State -> Prop :=
  | ss_begin t self b :
      st_txns s !! t = None ->
      sys_step s (mkState (st_catalog s) (<[t := with_context (MakeTxn self t) (mkTxnContext b 0 kStarted)]> (st_txns s)))
  | ss_call t txn c a ad st catalog' txn' :
      st_txns s !! t = Some txn -> (forall n, c <> CallCreateDatabase n kIgnore) ->
      fresh_in a (all_dbs (st_catalog s)) -> fresh_in ad (all_dbs (st_catalog s)) ->
      fresh_in a (all_tables (st_catalog s)) -> fresh_in ad (all_tables (st_catalog s)) -> a <> ad ->
      ddl_exec (st_catalog s) txn (st_gs s) a ad c = Ret (st, catalog', txn') ->
      spares_tables (st_catalog s) catalog' ->
      sys_step s (mkState catalog' (<[t := txn']> (st_txns s)))
  | ss_committing t txn ts c :
      st_txns s !! t = Some txn -> 0 <= ts < UNCOMMIT_TS -> SetTxnCommitting (context_ txn) ts = Ret c ->
      sys_step s (mkState (st_catalog s) (<[t := with_context txn c]> (st_txns s)))
  | ss_bottom t txn fuel catalog' txn' :
      st_txns s !! t = Some txn -> CommitBottom fuel (st_catalog s) txn = Some (Ret (catalog', txn')) ->
      sys_step s (mkState catalog' (delete t (st_txns s))).

Definition txn_ok catalog t txn : Prop :=
  self_txn_id_ txn = t /\ txn_indexes_ txn = ∅ /\ txn_tables_store_ txn = ∅ /\
  (state_ (context_ txn) = kStarted \/ (state_ (context_ txn) = kCommitting /\ 0 <= ctx_commit_ts_ (context_ txn) < UNCOMMIT_TS)) /\
  track t (txn_dbs_ txn) (all_dbs catalog) /\ track t (txn_tables_ txn) (all_tables catalog).

Definition sys_inv (s : State) : Prop :=
  NoDup (addr <$> all_dbs (st_catalog s)) /\ NoDup (addr <$> all_tables (st_catalog s)) /\
  owned_by (dom (st_txns s)) (all_dbs (st_catalog s)) /\ owned_by (dom (st_txns s)) (all_tables (st_catalog s)) /\
  u64_entries (all_tables (st_catalog s)) /\
  map_Forall (txn_ok (st_catalog s)) (st_txns s).

Lemma owned_mono X Y {P} (L : list (Entry P)) : X ⊆ Y -> owned_by X L -> owned_by Y L.
Proof. intros HXY Ho. eapply Forall_impl; [exact Ho|]. intros e He Hd Hc. apply HXY. auto. Qed.

Lemma no_rollbacks s : sys_inv s -> forall i, ~ rolled_back (st_gs s i).
Proof.
  intros (_ & _ & _ & _ & _ & Hok) i. unfold st_gs, rolled_back.
  destruct (st_txns s !! i) as [txn|] eqn:E; simpl; [|by intros []].
  destruct (Hok i txn E) as (_ & _ & _ & Hst & _). destruct Hst as [->|[-> _]]; by intros [].
Qed.

(** A transaction that begins tracks nothing, as its id has no versions. *)
Lemma track_begin X t {P} (L : list (Entry P)) : NoDup (addr <$> L) -> owned_by X L -> t ∉ X -> track t ∅ L.
Proof.
  intros Hnd Ho Ht. split; [done|]. intros p. split; [done|]. intros (e & He & _ & Hd & Hc & Hti).
  unfold owned_by in Ho. rewrite Forall_forall in Ho. specialize (Ho e He Hd Hc). congruence.
Qed.

(** Committing [t] settles its versions and leaves those of others. *)
Lemma track_commit_own t t' ts S {P} (L : list (Entry P)) :
  t' <> t -> track t' S L -> track t' S (commit_own t ts <$> L).
Proof.
  intros Hne [Hnd HS]. split.
  - rewrite <- list_fmap_compose. erewrite list_fmap_ext; [exact Hnd|]. intros i e _. simpl. unfold commit_own. by case_decide.
  - intros p. rewrite HS. setoid_rewrite list_elem_of_fmap. split.
    + intros (e & He & Ha & Hp). exists e. split_and!; [|done|done]. exists e. split; [|done].
      unfold commit_own. rewrite decide_False; [done|]. destruct Hp as (_ & _ & ?). intros (_ & _ & ?). congruence.
    + intros (e' & (e & -> & He) & Ha & Hp). unfold commit_own in *. case_decide as Hd; [|by exists e].
      destruct Hp as (_ & _ & Ht'). simpl in Ht'. destruct Hd as (_ & _ & Ht). congruence.
Qed.

Lemma owned_commit_own X t ts {P} (L : list (Entry P)) :
  0 <= ts < UNCOMMIT_TS -> owned_by X L -> owned_by (X ∖ {[ t ]}) (commit_own t ts <$> L).
Proof.
  intros Hts Ho. unfold owned_by. rewrite Forall_fmap. eapply Forall_impl; [exact Ho|]. intros e He. simpl. unfold commit_own.
  case_decide as Hp; simpl.
  - intros _ Hc. unfold Committed in Hc. simpl in Hc. zbool. lia.
  - intros Hd Hc. apply elem_of_difference. split; [auto|]. rewrite elem_of_singleton. intros Ht. apply Hp. by split_and!.
Qed.

Lemma commit_all_dbs t ts catalog :
  all_tables (commit_all t ts catalog) = commit_own t ts <$> all_tables catalog /\
  exists f, (forall d, same_stamps d (f d)) /\ all_dbs (commit_all t ts catalog) = f ∘ commit_own t ts <$> all_dbs catalog.
Proof.
  unfold commit_all. rewrite all_tables_map, all_tables_map_dbs by (intros d; unfold commit_own; by case_decide).
  split; [done|]. exists (map_tables_of (commit_own t ts)). split; [done|].
  unfold map_tables. by rewrite !all_dbs_map, <- list_fmap_compose.
Qed.

Lemma track_fmap_stamps t S {P} (f : Entry P -> Entry P) L :
  (forall e, same_stamps e (f e)) -> track t S L -> track t S (f <$> L).
Proof.
  intros Hf [Hnd HS]. split.
  - rewrite <- list_fmap_compose. erewrite list_fmap_ext; [exact Hnd|]. intros i e _. apply Hf.
  - assert (forall e, pending_of t (f e) <-> pending_of t e) as Hp.
    { intros e. destruct (Hf e) as (_ & Et & Ec & Ety). unfold pending_of, is_dummy, Committed. by rewrite Et, Ec, Ety. }
    intros p. rewrite HS. setoid_rewrite list_elem_of_fmap. split.
    + intros (e & He & Ha & Hpe). exists (f e). split_and!; [by exists e|by rewrite (proj1 (Hf e))|by apply Hp].
    + intros (e' & (e & -> & He) & Ha & Hpe). exists e. split_and!; [done|by rewrite <- (proj1 (Hf e))|by apply Hp].
Qed.

Lemma owned_fmap_stamps X {P} (f : Entry P -> Entry P) L :
  (forall e, same_stamps e (f e)) -> owned_by X L -> owned_by X (f <$> L).
Proof.
  intros Hf Ho. unfold owned_by. rewrite Forall_fmap. eapply Forall_impl; [exact Ho|]. intros e He. simpl.
  destruct (Hf e) as (_ & Et & Ec & Ety). unfold is_dummy, Committed in *. by rewrite Et, Ec, Ety.
Qed.

Lemma commit_all_others t t' ts catalog S S' :
  t' <> t -> track t' S (all_dbs catalog) -> track t' S' (all_tables catalog) ->
  track t' S (all_dbs (commit_all t ts catalog)) /\ track t' S' (all_tables (commit_all t ts catalog)).
Proof.
  intros Hne HD HT. destruct (commit_all_dbs t ts catalog) as (-> & f & Hf & ->). split; [|by apply track_commit_own].
  rewrite list_fmap_compose. apply track_fmap_stamps; [done|]. by apply track_commit_own.
Qed.

Lemma commit_all_inv t ts catalog X :
  0 <= ts < UNCOMMIT_TS -> NoDup (addr <$> all_dbs catalog) -> NoDup (addr <$> all_tables catalog) ->
  owned_by X (all_dbs catalog) -> owned_by X (all_tables catalog) -> u64_entries (all_tables catalog) ->
  let catalog' := commit_all t ts catalog in
  NoDup (addr <$> all_dbs catalog') /\ NoDup (addr <$> all_tables catalog') /\
  owned_by (X ∖ {[ t ]}) (all_dbs catalog') /\ owned_by (X ∖ {[ t ]}) (all_tables catalog') /\ u64_entries (all_tables catalog').
Proof.
  intros Hts Hnd Hnt HoD HoT Hu catalog'. unfold catalog'. destruct (commit_all_dbs t ts catalog) as (-> & f & Hf & ->).
  assert (forall {P} (e : Entry P), addr (commit_own t ts e) = addr e) as Ha by (intros; unfold commit_own; by case_decide).
  split_and!.
  - rewrite <- list_fmap_compose. erewrite list_fmap_ext; [exact Hnd|]. intros i d _. simpl. by rewrite (proj1 (Hf _)), Ha.
  - rewrite <- list_fmap_compose. erewrite list_fmap_ext; [exact Hnt|]. intros i d _. simpl. by rewrite Ha.
  - rewrite list_fmap_compose. apply owned_fmap_stamps; [done|]. by apply owned_commit_own.
  - by apply owned_commit_own.
  - unfold u64_entries. rewrite Forall_fmap. eapply Forall_impl; [exact Hu|]. intros e He. simpl. unfold commit_own.
    case_decide; simpl in *; lia.
Qed.

Lemma sys_step_inv s s' : sys_inv s -> sys_step s s' -> sys_inv s'.
Proof.
  intros Hinv Hs. pose proof (no_rollbacks s Hinv) as Hnr. destruct Hinv as (Hnd & Hnt & HoD & HoT & Hu & Hok).
  destruct Hs as [t self b Ht|t txn c a ad st cat' txn' Ht Hc Ha Had Hat Hadt Hne He Hsp|t txn ts c Ht Hts Hc|t txn fuel cat' txn' Ht Hb].
  - split_and!; simpl; try done.
    1-2: eapply owned_mono; [|done]; rewrite dom_insert_L; set_solver.
    apply map_Forall_insert_2; [|done]. unfold txn_ok. simpl. split_and!; [done..|by left| |];
      eapply track_begin; [done|done|by apply not_elem_of_dom|done|done|by apply not_elem_of_dom].
  - destruct (Hok t txn Ht) as (Hid & Hi & Hst & Hctx & HD & HT). rewrite <- Hid in HD, HT.
    destruct (ddl_exec_effect _ _ _ _ _ _ _ _ _ Hc Hnr Hu HD HT Ha Hat He) as [Heff (K1 & K2 & K3 & K4)].
    assert (t ∈ dom (st_txns s)) as Hdom by by eapply elem_of_dom_2.
    destruct (effect_own _ _ _ _ _ _ _ _ _ Heff Hne Ha Had Hat Hadt Hsp HD HT) as [HD' HT'].
    destruct (effect_owned _ _ _ _ _ _ _ _ _ Heff Hsp (dom (st_txns s)) Hnd ltac:(by rewrite Hid) HoD HoT Hu) as (HoD' & HoT' & Hu').
    unfold sys_inv. simpl. rewrite dom_insert_lookup_L by done.
    split_and!; [exact (proj1 HD')|exact (proj1 HT')|done|done|done|].
    intros t' x Hx. apply lookup_insert_Some in Hx as [[<- <-]|[Hne' Hx]].
    + unfold txn_ok. rewrite K1, K2, K3, K4. rewrite Hid in *. done.
    + destruct (Hok t' x Hx) as (? & ? & ? & ? & HDx & HTx). unfold txn_ok. split_and!; try done;
        by apply (effect_other _ _ _ _ _ _ _ _ _ Heff Hne Ha Had Hat Hadt Hsp t' (txn_dbs_ x) (txn_tables_ x)); [rewrite Hid| |].
  - unfold sys_inv. simpl. rewrite dom_insert_lookup_L by done. split_and!; try done.
    apply map_Forall_insert_2; [|done]. destruct (Hok t txn Ht) as (? & ? & ? & _ & ? & ?).
    unfold txn_ok. simpl. split_and!; try done. right. unfold SetTxnCommitting in Hc. by repeat case_match; simplify_eq/=.
  - destruct (Hok t txn Ht) as (Hid & Hi & Hst & Hctx & HD & HT). subst t.
    destruct Hctx as [Hctx|[Hctx Hts]].
    { exfalso. unfold CommitBottom in Hb. rewrite Hst, map_to_list_empty in Hb. simpl in Hb. unfold SetTxnCommitted in Hb.
      by rewrite Hctx in Hb. }
    destruct (CommitBottom_spec fuel _ txn HD HT Hi Hst Hctx) as (x & Hx & _). rewrite Hx in Hb. simplify_eq.
    unfold sys_inv. simpl. rewrite dom_delete_L.
    destruct (commit_all_inv (self_txn_id_ txn) (ctx_commit_ts_ (context_ txn)) (st_catalog s) (dom (st_txns s)))
      as (? & ? & ? & ? & ?); [done..|]. split_and!; try done.
    intros t' y Hy. apply lookup_delete_Some in Hy as [Hne Hy]. destruct (Hok t' y Hy) as (? & ? & ? & ? & HDy & HTy).
    unfold txn_ok. split_and!; try done; by apply (commit_all_others _ t' _ _ (txn_dbs_ y) (txn_tables_ y)).
Qed.
End System.

(** ** Properties *)

(** A catalog without uncommitted versions, in which live entries have different
    addresses. *)
Definition settled_catalog {R} (catalog : NewCatalog (TxnStore.TableData R)) : Prop :=
  NoDup (addr <$> all_dbs catalog) /\ NoDup (addr <$> all_tables catalog) /\
  owned_by ∅ (all_dbs catalog) /\ owned_by ∅ (all_tables catalog) /\ u64_entries (all_tables catalog).

(** C3: Start from a settled catalog and let any number of transactions begin, create
    and drop databases and tables, take commit timestamps and run the lower halves of
    their commits, in any interleaving.  Whenever a transaction is committing, its
    [CommitBottom] returns, stamps every uncommitted version of the transaction with
    its commit timestamp, changes nothing else of the catalog and wakes the committer.
    Not among the steps are creates of databases with [kIgnore], calls that remove a
    database version with uncommitted tables, the calls on indexes and changes of the
    rows of tables. *)
Theorem txn_commit_exact {R} (catalog0 : NewCatalog (TxnStore.TableData R)) s t txn fuel :
  settled_catalog catalog0 -> rtc sys_step (mkState catalog0 ∅) s ->
  st_txns s !! t = Some txn -> state_ (context_ txn) = kCommitting ->
  exists txn', CommitBottom fuel (st_catalog s) txn =
      Some (Ret (commit_all t (ctx_commit_ts_ (context_ txn)) (st_catalog s), txn')) /\
    state_ (context_ txn') = kCommitted /\ txn_done_bottom_ txn' = true.
Proof.
  intros (Hnd & Hnt & HoD & HoT & Hu) Hr Ht Hst.
  assert (sys_inv (mkState catalog0 ∅)) as H0 by (unfold sys_inv; simpl; rewrite dom_empty_L; split_and!; done).
  assert (sys_inv s) as (_ & _ & _ & _ & _ & Hok).
  { clear Ht. induction Hr as [|s1 s2 s3 Hs _ IH]; [done|]. apply IH. by eapply sys_step_inv. }
  destruct (Hok t txn Ht) as (<- & Hi & Hs & _ & HD & HT). by apply CommitBottom_spec.
Qed.

(** *** Sample runs *)

Definition gs_all_started : Z -> option TxnState := fun _ => Some kStarted.

(** The calls of one transaction, each with the addresses of new entries. *)
Fixpoint run_calls {R} (catalog : NewCatalog (TxnStore.TableData R)) (txn : Txn R) (cs : list (ptr * ptr * ddl_call))
    : outcome (NewCatalog (TxnStore.TableData R) * Txn R) :=
  match cs with
  | [] => Ret (catalog, txn)
  | (a, ad, c) :: rest =>
      '(st, catalog', txn') ← ddl_exec catalog txn gs_all_started a ad c;
      if status_ok st then run_calls catalog' txn' rest else Throw TransactionException "call failed"
  end.

Definition sample_catalog : NewCatalog (TxnStore.TableData Z) := InitCatalog "/var/infinity/catalog" true 1.
Definition sample_txn : Txn Z := with_context (MakeTxn 1 7) (mkTxnContext 10 0 kStarted).
Definition sample_td : TableDef := mkTableDef "default" "t1" [].

(** The commit of [sample_txn] at timestamp 20 after [cs]. *)
Definition run_commit (cs : list (ptr * ptr * ddl_call)) : outcome (NewCatalog (TxnStore.TableData Z)) :=
  '(catalog, txn) ← run_calls sample_catalog sample_txn cs;
  c ← SetTxnCommitting (context_ txn) 20;
  match CommitBottom 0 catalog (with_context txn c) with
  | Some r => '(catalog, _) ← r; Ret catalog
  | None => UB "out of fuel"
  end.

Definition run_rollback (cs : list (ptr * ptr * ddl_call)) : outcome (NewCatalog (TxnStore.TableData Z)) :=
  '(catalog, txn) ← run_calls sample_catalog sample_txn cs;
  '(catalog, _) ← Txn_Rollback catalog txn 20;
  Ret catalog.

(** A transaction that creates a database and a table in it and then drops
    the database cannot be committed or rolled back: the drop destroys the
    database with its tables, and [txn_tables_] still points to the table. *)
Theorem txn_drop_created_db_dangling :
  let cs := [(2, 3, CallCreateDatabase "d" kErrorConflict); (4, 5, CallCreateTable "d" sample_td); (6, 7, CallDropDatabase "d")]%positive in
  is_ret (run_calls sample_catalog sample_txn cs) = true /\
  run_commit cs = UB "dangling TableCollectionEntry *" /\ run_rollback cs = UB "dangling TableCollectionEntry *".
Proof. intros cs. split; [|split]; vm_compute; reflexivity. Qed.

(** A transaction that drops a committed table and creates it again cannot
    be rolled back: removing its versions through the first of the two pointers
    it keeps destroys the entry of the second one. *)
Theorem txn_rollback_recreated_table_dangling :
  match run_commit [(4, 5, CallCreateTable "default" sample_td)]%positive with
  | Ret catalog =>
      match run_calls catalog (with_context (MakeTxn 1 8) (mkTxnContext 30 0 kStarted))
              [(6, 7, CallDropTable "default" "t1" kErrorConflict); (8, 9, CallCreateTable "default" sample_td)]%positive with
      | Ret (catalog', txn) => Txn_Rollback catalog' txn 40 = UB "dangling TableCollectionEntry *"
      | _ => False
      end
  | _ => False
  end.
Proof. vm_compute. reflexivity. Qed.

(** A transaction that drops the default database, creates it again and drops
    it again has toggled the name out of [db_names_], so its rollback leaves
    its first tombstone in the catalog: from then on every drop of the database
    is refused with a write-write conflict, and once the transaction has left
    [txn_map_] a create dereferences a null pointer. *)
Theorem txn_rollback_leaves_tombstone :
  match run_rollback [(4, 5, CallDropDatabase "default"); (6, 7, CallCreateDatabase "default" kErrorConflict); (8, 9, CallDropDatabase "default")]%positive with
  | Ret catalog =>
      let next := with_context (MakeTxn 1 8) (mkTxnContext 30 0 kStarted) in
      match ddl_exec catalog next gs_all_started 10 11 (CallDropDatabase "default") with Ret (st, _, _) => st = kWWConflict | _ => False end /\
      ddl_exec catalog next (fun i => if i =? 8 then Some kStarted else None) 10 11 (CallCreateDatabase "default" kErrorConflict)
        = UB "txn_map_[txn_id] is null"
  | _ => False
  end.
Proof. vm_compute. split; reflexivity. Qed.

(** *** Witness of [txn_commit_exact] *)

Definition sample_state (cs : list (ptr * ptr * ddl_call)) : State :=
  match run_calls sample_catalog sample_txn cs with
  | Ret (catalog, txn) => mkState catalog {[ 7 := txn ]}
  | _ => mkState sample_catalog ∅
  end.

Lemma spares_by_addr {R} (catalog catalog' : NewCatalog (TxnStore.TableData R)) :
  Forall (fun p => p ∈ (addr <$> all_dbs catalog')) (addr <$> all_dbs catalog) -> spares_tables catalog catalog'.
Proof.
  intros Hall d Hd Hf. exfalso. apply Hf. rewrite Forall_forall in Hall. apply Hall. by apply list_elem_of_fmap_2.
Qed.

Lemma sys_step_eq {R} (s s1 s2 : @State R) : sys_step s s1 -> s1 = s2 -> sys_step s s2.
Proof. by intros ? ->. Qed.

Ltac by_compute := apply (bool_decide_unpack _); vm_compute; exact I.

Definition create_d : ptr * ptr * ddl_call := (2%positive, 3%positive, CallCreateDatabase "d" kErrorConflict).
Definition create_t1 : ptr * ptr * ddl_call := (4%positive, 5%positive, CallCreateTable "d" sample_td).

Definition txn_in (s : @State Z) : Txn Z := default sample_txn (st_txns s !! 7).

(** One call of the sample transaction is a step of the system. *)
Ltac sample_step s s' c a ad :=
  refine (sys_step_eq _ _ _ (ss_call s 7 (txn_in s) c a ad kOk (st_catalog s') (txn_in s') _ _ _ _ _ _ _ _ _) _);
  [vm_compute; reflexivity|by intros ? ?|by_compute|by_compute|by_compute|by_compute|done|vm_compute; reflexivity
  |apply spares_by_addr; by_compute|vm_compute; reflexivity].

Lemma sample_create_db : sys_step (sample_state []) (sample_state [create_d]).
Proof. sample_step (sample_state []) (sample_state [create_d]) (CallCreateDatabase "d" kErrorConflict) 2%positive 3%positive. Qed.

Lemma sample_create_table : sys_step (sample_state [create_d]) (sample_state [create_d; create_t1]).
Proof. sample_step (sample_state [create_d]) (sample_state [create_d; create_t1]) (CallCreateTable "d" sample_td) 4%positive 5%positive. Qed.

Definition sample_committing : @State Z :=
  let s := sample_state [create_d; create_t1] in
  mkState (st_catalog s) (<[7 := with_context (txn_in s) (mkTxnContext 10 20 kCommitting)]> (st_txns s)).

Lemma sample_run : rtc sys_step (mkState sample_catalog ∅) sample_committing.
Proof.
  eapply rtc_l; [refine (sys_step_eq _ _ (sample_state []) (ss_begin _ 7 1 10 _) _); vm_compute; reflexivity|].
  eapply rtc_l; [exact sample_create_db|]. eapply rtc_l; [exact sample_create_table|]. apply rtc_once.
  refine (ss_committing (sample_state [create_d; create_t1]) 7 (txn_in (sample_state [create_d; create_t1])) 20 _ _ _ _);
    vm_compute; try reflexivity. split; [discriminate|reflexivity].
Qed.

Lemma sample_catalog_settled : settled_catalog sample_catalog.
Proof. by_compute. Qed.

Lemma txn_commit_exact_witness : exists txn',
  CommitBottom 0 (st_catalog sample_committing) (txn_in sample_committing) =
    Some (Ret (commit_all 7 20 (st_catalog sample_committing), txn')) /\ txn_done_bottom_ txn' = true.
Proof.
  assert (st_txns sample_committing !! 7 = Some (txn_in sample_committing)) as Ht by (vm_compute; reflexivity).
  assert (state_ (context_ (txn_in sample_committing)) = kCommitting) as Hst by (vm_compute; reflexivity).
  assert (ctx_commit_ts_ (context_ (txn_in sample_committing)) = 20) as Hts by (vm_compute; reflexivity).
  destruct (txn_commit_exact sample_catalog sample_committing 7 (txn_in sample_committing) 0 sample_catalog_settled sample_run Ht Hst)
    as (txn' & H1 & _ & H3).
  rewrite Hts in H1. exact (ex_intro _ txn' (conj H1 H3)).
Defined.
