(* ===== verification/Replay.v ===== *)
(** * Replay of WAL commands

    [WalManager::ReplayWalEntry] and the functions it calls
    ([storage/wal/wal_manager.cpp]).  Replay runs in one thread before the
    system starts; new entries get the addresses [next], [next + 1], ....

    [gs] is [TxnManager::GetTxnState]; [load_rows dir id] are the rows in the
    files of block [id] of the segment directory [dir]. *)
From S2P Require Import Prelude Common BaseEntry Defs MetaSpec IndexMeta TableMeta DBMeta TxnContext TxnManager Wire WalEntry Block Segment TxnStore Catalog Txn TxnProps.

Local Open Scope Z_scope.

Record ReplayState (R : Type) := mkReplayState {
  rs_catalog : NewCatalog (TxnStore.TableData R);
  rs_next : ptr;
}.

Arguments mkReplayState {R} _ _.
Arguments rs_catalog {R} _.
Arguments rs_next {R} _.

Section Replay.
Context {R : Type} (gs : Z -> option TxnState) (load_rows : string -> Z -> list R).
Implicit Types (s : ReplayState R) (txn_id commit_ts : Z).

Definition fail {A} (msg : string) : outcome A := Throw StorageException msg.

(** The two addresses a command may use for new entries, and the state after
    them. *)
Definition new_a s : ptr := rs_next s.
Definition new_ad s : ptr := Pos.succ (rs_next s).
Definition advance s (catalog : NewCatalog (TxnStore.TableData R)) : ReplayState R :=
  mkReplayState catalog (Pos.succ (Pos.succ (rs_next s))).

(** [WalManager::WalCmdCreateDatabaseReplay] *)
Definition WalCmdCreateDatabaseReplay s (db_name : string) txn_id commit_ts : outcome (ReplayState R) :=
  '(st, catalog, p) ← CreateDatabase (rs_catalog s) db_name txn_id commit_ts gs (new_a s) (new_ad s) kErrorConflict;
  if negb (status_ok st) then fail "Wal Replay: Create database failed"
  else match p with
       | None => UB "base_entry is null"
       | Some p => catalog ← with_db_at catalog p (Commit commit_ts); Ret (advance s catalog)
       end.

(** The database that the other commands look up first. *)
Definition ReplayGetDatabase s (db_name : string) txn_id commit_ts
    : outcome (Entry (DBData (TableCollectionMeta (TxnStore.TableData R))) * DBData (TableCollectionMeta (TxnStore.TableData R))) :=
  match GetDatabase (rs_catalog s) db_name txn_id commit_ts with
  | (kOk, Some d) => match payload d with Some dd => Ret (d, dd) | None => UB "not a DBEntry" end
  | _ => fail "Wal Replay: Get database failed"
  end.

(** [WalManager::WalCmdCreateTableReplay] *)
Definition WalCmdCreateTableReplay s (db_name : string) (table_def : TableDef) txn_id commit_ts : outcome (ReplayState R) :=
  '(d, dd) ← ReplayGetDatabase s db_name txn_id commit_ts;
  '(st, dd', p) ← CreateTableCollection empty_table dd kTableEntry (table_name_ table_def) (columns_ table_def)
                    txn_id commit_ts gs (new_a s) (new_ad s);
  catalog ← store_db (rs_catalog s) (addr d) dd';
  if negb (status_ok st) then fail "Wal Replay: Create table failed"
  else match p with
       | None => UB "base_table_entry is null"
       | Some p => catalog ← with_table_at catalog p (Commit commit_ts); Ret (advance s catalog)
       end.

(** [WalManager::WalCmdDropDatabaseReplay] *)
Definition WalCmdDropDatabaseReplay s (db_name : string) txn_id commit_ts : outcome (ReplayState R) :=
  let '(st, catalog, p) := DropDatabase (rs_catalog s) db_name txn_id commit_ts (new_a s) in
  if negb (status_ok st) then fail "Wal Replay: Drop database failed"
  else match p with
       | None => UB "base_entry is null"
       | Some p => catalog ← with_db_at catalog p (Commit commit_ts); Ret (advance s catalog)
       end.

(** [WalManager::WalCmdDropTableReplay] *)
Definition WalCmdDropTableReplay s (db_name table_name : string) txn_id commit_ts : outcome (ReplayState R) :=
  '(d, dd) ← ReplayGetDatabase s db_name txn_id commit_ts;
  let '(st, dd', p) := DropTableCollection empty_table dd table_name kReplace txn_id commit_ts (new_a s) in
  catalog ← store_db (rs_catalog s) (addr d) dd';
  if negb (status_ok st) then fail "Wal Replay: Drop table failed"
  else match p with
       | None => UB "base_table_entry is null"
       | Some p => catalog ← with_table_at catalog p (Commit commit_ts); Ret (advance s catalog)
       end.

(** The table that the remaining commands look up. *)
Definition ReplayGetTable s (db_name table_name : string) txn_id commit_ts
    : outcome (Entry (TableMeta.TableData (TxnStore.TableData R)) * TableMeta.TableData (TxnStore.TableData R)) :=
  '(_, dd) ← ReplayGetDatabase s db_name txn_id commit_ts;
  match GetTableCollection dd table_name txn_id commit_ts with
  | (Some e, kOk) => match payload e with Some td => Ret (e, td) | None => UB "not a TableCollectionEntry" end
  | _ => fail "Wal Replay: Get table failed"
  end.

(** [WalManager::WalCmdCreateIndexReplay] without the index files; the
    transaction manager is null, so that asking for a state is undefined. *)
Definition WalCmdCreateIndexReplay s (db_name table_name : string) (index_def : IndexDef) (index_dir : string) txn_id commit_ts
    : outcome (ReplayState R) :=
  '(e, td) ← ReplayGetTable s db_name table_name txn_id commit_ts;
  let '(td', o) := CreateIndex td index_def index_dir kErrorConflict txn_id commit_ts (fun _ => None) (new_a s) (new_ad s) in
  '(st, p) ← o;
  catalog ← store_table (rs_catalog s) (addr e) td';
  if negb (status_ok st) then fail "Wal Replay: Create index failed"
  else match p with
       | None => UB "base_entry is null"
       | Some p => catalog ← with_index_at catalog p (Commit commit_ts); Ret (advance s catalog)
       end.

(** [WalManager::WalCmdDropIndexReplay]; [base_entry] is not initialised, and a
    missing index is ignored with an OK status. *)
Definition WalCmdDropIndexReplay s (db_name table_name index_name : string) txn_id commit_ts : outcome (ReplayState R) :=
  '(e, td) ← ReplayGetTable s db_name table_name txn_id commit_ts;
  let '(td', o) := DropIndex td index_name kIgnore txn_id commit_ts (new_a s) in
  '(st, p) ← o;
  catalog ← store_table (rs_catalog s) (addr e) td';
  if negb (status_ok st) then fail "Wal Replay: Drop index failed"
  else match p with
       | None => UB "base_entry is not initialised"
       | Some p => catalog ← with_index_at catalog p (Commit commit_ts); Ret (advance s catalog)
       end.

Definition with_data (td : TableMeta.TableData (TxnStore.TableData R)) (data : TxnStore.TableData R) : TableMeta.TableData (TxnStore.TableData R) :=
  TableMeta.mkTableData (table_entry_dir_ td) (table_collection_name_ td) (table_columns_ td) (table_collection_type_ td) data (index_meta_map_ td).

(** The loop of [WalManager::WalCmdImportReplay] from block [id] on. *)
Fixpoint ImportBlocks (n : nat) (id : Z) (segment_dir : string) (row_counts : list Z) commit_ts (seg : SegmentEntry R)
    : outcome (SegmentEntry R) :=
  match n with
  | O => Ret seg
  | S n' =>
      match row_counts !! Z.to_nat id with
      | None => UB "row_counts_ index out of range"
      | Some rc =>
          let b := ReplayBlockEntry id 0 rc commit_ts commit_ts (load_rows segment_dir id) in
          ImportBlocks n' (id + 1) segment_dir row_counts commit_ts
            (mkSegmentEntry (segment_id seg) (to_u64 (seg_row_count_ seg + rc)) (seg_row_capacity_ seg)
               (seg_min_row_ts_ seg) (seg_max_row_ts_ seg) (block_entries_ seg ++ [b]))
      end
  end.

(** [WalManager::WalCmdImportReplay]; [emplace] keeps a segment of that id. *)
Definition WalCmdImportReplay s (db_name table_name segment_dir : string) (seg_id block_entries_size : Z) (row_counts : list Z)
    txn_id commit_ts : outcome (ReplayState R) :=
  '(e, td) ← ReplayGetTable s db_name table_name txn_id commit_ts;
  seg ← ImportBlocks (Z.to_nat block_entries_size) 0 segment_dir row_counts commit_ts (MakeReplaySegmentEntry seg_id commit_ts);
  let t := table_data_ td in
  let map := match segment_map_ t !! seg_id with Some _ => segment_map_ t | None => <[seg_id := seg]> (segment_map_ t) end in
  let t' := TxnStore.mkTableData map (table_row_count_ t) (unsealed_segment_ t) (to_u32 (next_segment_id_ t + 1)) in
  catalog ← store_table (rs_catalog s) (addr e) (with_data td t');
  Ret (mkReplayState catalog (rs_next s)).

(** The transaction that the replay of rows makes: its address is new, its
    timestamps come from [FakeCommit]. *)
Definition fake_ref s commit_ts : TxnRef := mkTxnRef (new_a s) commit_ts.

(** [WalManager::WalCmdDeleteReplay] *)
Definition WalCmdDeleteReplay s (db_name table_name : string) (row_ids : list RowID) txn_id commit_ts : outcome (ReplayState R) :=
  '(e, td) ← ReplayGetTable s db_name table_name txn_id commit_ts;
  let store := StoreDelete (NewTxnTableStore (R := R) (column_type_ <$> table_columns_ td)) row_ids in
  t ← TableDelete (table_data_ td) (fake_ref s commit_ts) (delete_state_ store);
  t ← TableCommitDelete t (fake_ref s commit_ts) (delete_state_ store);
  catalog ← store_table (rs_catalog s) (addr e) (with_data td t);
  Ret (advance s catalog).

(** [WalManager::WalCmdAppendReplay]; the error that [TxnTableStore::Append] may
    return is not looked at. *)
Definition WalCmdAppendReplay (fuel : nat) s (db_name table_name : string) (block : DataBlock R) txn_id commit_ts
    : option (outcome (ReplayState R)) :=
  match ReplayGetTable s db_name table_name txn_id commit_ts with
  | Throw ex msg => Some (Throw ex msg)
  | UB why => Some (UB why)
  | Ret (e, td) =>
      match ('(store, _) ← StoreAppend (NewTxnTableStore (column_type_ <$> table_columns_ td)) block;
             NewAppendState (store_blocks_ store)) with
      | Throw ex msg => Some (Throw ex msg)
      | UB why => Some (UB why)
      | Ret st =>
          match TableAppend fuel (BaseEntry.deleted_ e) (table_data_ td) (fake_ref s commit_ts) st with
          | None => None
          | Some r => Some (
              '(t, st) ← r;
              t ← TableCommitAppend t (fake_ref s commit_ts) (append_ranges_ st);
              catalog ← store_table (rs_catalog s) (addr e) (with_data td t);
              Ret (advance s catalog))
          end
      end
  end.

(** The [switch] of [WalManager::ReplayWalEntry]; [index_dir] is the directory
    that [DetermineIndexDir] makes up. *)
Definition ReplayCmd (fuel : nat) (index_dir : string) s (cmd : WalCmd (DataBlock R)) txn_id commit_ts : option (outcome (ReplayState R)) :=
  match cmd with
  | WalCmdCreateDatabase db_name => Some (WalCmdCreateDatabaseReplay s db_name txn_id commit_ts)
  | WalCmdDropDatabase db_name => Some (WalCmdDropDatabaseReplay s db_name txn_id commit_ts)
  | WalCmdCreateTable db_name table_def => Some (WalCmdCreateTableReplay s db_name table_def txn_id commit_ts)
  | WalCmdDropTable db_name table_name => Some (WalCmdDropTableReplay s db_name table_name txn_id commit_ts)
  | WalCmdCreateIndex db_name table_name index_def =>
      Some (WalCmdCreateIndexReplay s db_name table_name index_def index_dir txn_id commit_ts)
  | WalCmdDropIndex db_name table_name index_name => Some (WalCmdDropIndexReplay s db_name table_name index_name txn_id commit_ts)
  | WalCmdImport db_name table_name segment_dir seg_id size row_counts =>
      Some (WalCmdImportReplay s db_name table_name segment_dir seg_id size row_counts txn_id commit_ts)
  | WalCmdAppend db_name table_name block => WalCmdAppendReplay fuel s db_name table_name block txn_id commit_ts
  | WalCmdDelete db_name table_name row_ids => Some (WalCmdDeleteReplay s db_name table_name row_ids txn_id commit_ts)
  | WalCmdCheckpoint _ _ _ => Some (Ret s)
  end.

(** [WalManager::ReplayWalEntry] *)
Fixpoint ReplayCmds (fuel : nat) (index_dir : string) s (cs : list (WalCmd (DataBlock R))) txn_id commit_ts : option (outcome (ReplayState R)) :=
  match cs with
  | [] => Some (Ret s)
  | cmd :: rest =>
      match ReplayCmd fuel index_dir s cmd txn_id commit_ts with
      | Some (Ret s') => ReplayCmds fuel index_dir s' rest txn_id commit_ts
      | r => r
      end
  end.

Definition ReplayWalEntry (fuel : nat) (index_dir : string) s (entry : WalEntry (DataBlock R)) : option (outcome (ReplayState R)) :=
  ReplayCmds fuel index_dir s (cmds entry) (WalEntry.txn_id entry) (WalEntry.commit_ts entry).
End Replay.
