(* ===== verification/ReplayProps.v ===== *)
(** * Replay reproduces the catalog

    A specification of the DDL calls on a catalog in which everything is
    committed ([spec_exec]); the calls of a transaction followed by its commit
    implement it, and so does the replay of the logged command.  Hence replaying
    the log of a serial history gives the catalog the history led to. *)
From S2P Require Import Prelude Common BaseEntry Defs MetaSpec IndexMeta TableMeta DBMeta TxnContext TxnManager Wire WalEntry Block Segment TxnStore Catalog Txn TxnProps Replay.

Local Open Scope Z_scope.

(** ** Lists of committed versions *)

(** Committed before [b]. *)
Definition old (b : Z) {P} (e : Entry P) : Prop := Committed e = true /\ commit_ts_ e < b.

(** The newest version is there and not deleted. *)
Definition live {P} (l : list (Entry P)) : bool :=
  match l with h :: _ => negb (is_dummy h) && negb (BaseEntry.deleted_ h) | [] => false end.

(** An empty list gets its end marker. *)
Definition ext {P} (ad : ptr) (l : list (Entry P)) : list (Entry P) := match l with [] => [dummy_entry ad] | _ => l end.

Section OldLists.
Implicit Types (t b : Z).

Lemma gtb_old b {P} (e : Entry P) : old b e -> (b >? commit_ts_ e) = true.
Proof. intros [_ H]. rewrite Z.gtb_ltb. by apply Z.ltb_lt. Qed.

Lemma DB_create_old {T} (m : DBMeta T) a ad t b gs :
  Forall (old b) (db_entry_list_ m) ->
  DBMeta.CreateNewEntry m a ad t b gs kErrorConflict =
    if live (db_entry_list_ m) then Ret (kDuplicate, m, None)
    else Ret (kOk, DBMeta.with_entries m (DBMeta.NewDBEntry a (meta_data_dir_ m) (meta_db_name_ m) t b :: ext ad (db_entry_list_ m)), Some a).
Proof.
  unfold DBMeta.CreateNewEntry. destruct (db_entry_list_ m) as [|h l]; [done|]. intros [Hh _]%Forall_cons. simpl.
  rewrite (gtb_old b h Hh). destruct Hh as [-> _]. by destruct (is_dummy h), (BaseEntry.deleted_ h).
Qed.

Lemma DB_drop_old {T} (m : DBMeta T) a t b :
  Forall (old b) (db_entry_list_ m) ->
  DBMeta.DropNewEntry m a t b =
    if live (db_entry_list_ m)
    then (kOk, DBMeta.with_entries m (set_deleted true (DBMeta.NewDBEntry a (meta_data_dir_ m) (meta_db_name_ m) t b) :: db_entry_list_ m), Some a)
    else (kNotFound, m, None).
Proof.
  unfold DBMeta.DropNewEntry. destruct (db_entry_list_ m) as [|h l]; [done|]. intros [Hh _]%Forall_cons. simpl.
  rewrite (gtb_old b h Hh). destruct Hh as [-> _]. by destruct (is_dummy h), (BaseEntry.deleted_ h).
Qed.

Lemma old_u64 b {P} (e : Entry P) : old b e -> b <= UNCOMMIT_TS -> (commit_ts_ e <? UNCOMMIT_TS) = true.
Proof. intros [_ H] ?. apply Z.ltb_lt. lia. Qed.

Lemma Table_create_old {D} (d : D) m a ad ty n cs t b gs :
  b <= UNCOMMIT_TS -> Forall (old b) (table_entry_list_ m) ->
  TableMeta.CreateNewEntry d m a ad ty n cs t b gs =
    if live (table_entry_list_ m) then Ret (kDuplicate, m, None)
    else Ret (kOk, TableMeta.with_entries m (TableMeta.NewTableEntry d a (meta_db_entry_dir_ m) n cs ty t b :: ext ad (table_entry_list_ m)), Some a).
Proof.
  intros Hb. unfold TableMeta.CreateNewEntry. destruct (table_entry_list_ m) as [|h l]; [done|]. intros [Hh _]%Forall_cons. simpl.
  rewrite (gtb_old b h Hh), (old_u64 b h Hh Hb). by destruct (is_dummy h), (BaseEntry.deleted_ h).
Qed.

Lemma Table_drop_old {D} (d : D) m a t b ct :
  b <= UNCOMMIT_TS -> Forall (old b) (table_entry_list_ m) ->
  exists st, TableMeta.DropNewEntry d m a t b ct =
    if live (table_entry_list_ m)
    then (kOk, TableMeta.with_entries m (set_deleted true
            (TableMeta.NewTableEntry d a (meta_db_entry_dir_ m) (meta_table_collection_name_ m) [] kTableEntry t b) :: table_entry_list_ m), Some a)
    else (st, m, None).
Proof.
  intros Hb. unfold TableMeta.DropNewEntry. destruct (table_entry_list_ m) as [|h l]; [by exists kNotFound|]. intros [Hh _]%Forall_cons. simpl.
  rewrite (gtb_old b h Hh), (old_u64 b h Hh Hb). destruct (is_dummy h), (BaseEntry.deleted_ h); simpl;
    first [by exists kNotFound|destruct ct; first [by exists kNotFound|by exists kOk]].
Qed.

Lemma DB_get_old {T} (m : DBMeta T) t b :
  Forall (old b) (db_entry_list_ m) ->
  DBMeta.GetEntry m t b = match db_entry_list_ m with
    | h :: _ => if live (db_entry_list_ m) then (kOk, Some h) else (kNotFound, None)
    | [] => (kNotFound, None)
    end.
Proof.
  unfold DBMeta.GetEntry. destruct (db_entry_list_ m) as [|h l]; [done|]. intros [Hh _]%Forall_cons. simpl.
  rewrite (gtb_old b h Hh). destruct Hh as [-> _]. by destruct (is_dummy h), (BaseEntry.deleted_ h).
Qed.
End OldLists.

(** ** Catalogs up to addresses and begin timestamps *)

Definition norm_entry {P} (e : Entry P) : Entry P :=
  mkEntry 1 (txn_id_ e) 0 (commit_ts_ e) (BaseEntry.deleted_ e) (entry_type_ e) (payload e).

Section Norm.
Context {R : Type}.
Abbreviation Cat := (NewCatalog (TxnStore.TableData R)).
Abbreviation DB := (Entry (DBData (TableCollectionMeta (TxnStore.TableData R)))).
Abbreviation TB := (Entry (TableMeta.TableData (TxnStore.TableData R))).
Implicit Types (catalog : NewCatalog (TxnStore.TableData R)) (t b ts : Z).

Definition norm_tables (d : DB) : DB := map_tables_of norm_entry (norm_entry d).

(** Two catalogs that differ in the addresses and begin timestamps of their
    entries only have the same [norm]. *)
Definition norm catalog : Cat := map_dbs norm_tables catalog.

Definition db_list catalog (n : string) : list DB := from_option db_entry_list_ [] (databases_ catalog !! n).

Definition table_list (dd : DBData (TableCollectionMeta (TxnStore.TableData R))) (tn : string) : list TB :=
  from_option table_entry_list_ [] (tables_ dd !! tn).

(** The metas that a create call starts from. *)
Definition db_meta_of catalog (n : string) : DBMeta (TableCollectionMeta (TxnStore.TableData R)) :=
  default (mkDBMeta n (parent_path (current_dir_ catalog)) []) (databases_ catalog !! n).

Definition table_meta_of (dd : DBData (TableCollectionMeta (TxnStore.TableData R))) (tn : string) : TableCollectionMeta (TxnStore.TableData R) :=
  default (mkTableCollectionMeta (db_entry_dir_ dd) tn []) (tables_ dd !! tn).

(** ** The specification *)

(** The version list of [n] becomes [l]. *)
Definition set_dbs catalog (n : string) (l : list DB) : Cat :=
  with_databases catalog (<[n := DBMeta.with_entries (db_meta_of catalog n) l]> (databases_ catalog)).

Definition set_tables (d : DB) (dd : DBData (TableCollectionMeta (TxnStore.TableData R))) (tn : string) (l : list TB) : DB :=
  with_payload d (Some (with_tables dd (<[tn := TableMeta.with_entries (table_meta_of dd tn) l]> (tables_ dd)))).

(** A DDL call of [t] that commits at [ts], on a catalog of committed versions;
    [None] if it is refused or has no effect.  New entries live at [a] and [ad]
    and have begin timestamp [b]. *)
Definition spec_exec (a ad : ptr) (b : Z) (c : ddl_call) t ts catalog : option Cat :=
  match c with
  | CallCreateDatabase n _ =>
      if live (db_list catalog n) then None
      else
        let m := db_meta_of catalog n in
        Some (set_dbs catalog n (Commit ts (DBMeta.NewDBEntry a (meta_data_dir_ m) (meta_db_name_ m) t b) :: ext ad (db_list catalog n)))
  | CallDropDatabase n =>
      if live (db_list catalog n) then
        let m := db_meta_of catalog n in
        Some (set_dbs catalog n
                (Commit ts (set_deleted true (DBMeta.NewDBEntry a (meta_data_dir_ m) (meta_db_name_ m) t b)) :: db_list catalog n))
      else None
  | CallCreateTable n td =>
      match db_list catalog n with
      | d :: rest =>
          if live (db_list catalog n) then
            match payload d with
            | Some dd =>
                if live (table_list dd (table_name_ td)) then None
                else
                  let e := TableMeta.NewTableEntry empty_table a (meta_db_entry_dir_ (table_meta_of dd (table_name_ td)))
                             (table_name_ td) (columns_ td) kTableEntry t b in
                  Some (set_dbs catalog n (set_tables d dd (table_name_ td) (Commit ts e :: ext ad (table_list dd (table_name_ td))) :: rest))
            | None => None
            end
          else None
      | [] => None
      end
  | CallDropTable n tn _ =>
      match db_list catalog n with
      | d :: rest =>
          if live (db_list catalog n) then
            match payload d with
            | Some dd =>
                if live (table_list dd tn) then
                  let m := table_meta_of dd tn in
                  let e := set_deleted true (TableMeta.NewTableEntry empty_table a (meta_db_entry_dir_ m)
                             (meta_table_collection_name_ m) [] kTableEntry t b) in
                  Some (set_dbs catalog n (set_tables d dd tn (Commit ts e :: table_list dd tn) :: rest))
                else None
            | None => None
            end
          else None
      | [] => None
      end
  end.

(** The command that the call logs. *)
Definition call_cmd (c : ddl_call) : WalCmd (DataBlock R) :=
  match c with
  | CallCreateDatabase n _ => WalCmdCreateDatabase n
  | CallDropDatabase n => WalCmdDropDatabase n
  | CallCreateTable n td => WalCmdCreateTable n td
  | CallDropTable n tn _ => WalCmdDropTable n tn
  end.

(** ** Writing into one version list *)

Lemma db_list_elem catalog n d : d ∈ db_list catalog n -> d ∈ all_dbs catalog.
Proof.
  unfold db_list. destruct (databases_ catalog !! n) as [m|] eqn:E; [|by intros ?%elem_of_nil].
  intros Hd. apply elem_of_all_dbs. by exists n, m.
Qed.

Lemma table_list_elem catalog d dd tn e :
  d ∈ all_dbs catalog -> payload d = Some dd -> e ∈ table_list dd tn -> e ∈ all_tables catalog.
Proof.
  intros Hd Hdd He. unfold all_tables. apply list_elem_of_bind. exists d. split; [|done].
  unfold table_list in He. destruct (tables_ dd !! tn) as [m|] eqn:E; [|by apply elem_of_nil in He].
  apply list_elem_of_fmap. exists (tn, e). split; [done|]. unfold tables_of. rewrite Hdd.
  apply list_elem_of_bind. exists (tn, m). split; [by apply list_elem_of_fmap_2|by apply elem_of_map_to_list].
Qed.

Lemma set_dbs_elem catalog n l d : d ∈ l -> d ∈ all_dbs (set_dbs catalog n l).
Proof.
  intros Hd. apply elem_of_all_dbs. exists n, (DBMeta.with_entries (db_meta_of catalog n) l).
  split; [by apply lookup_insert_eq|done].
Qed.

Lemma set_tables_elem d dd tn l e : e ∈ l -> e ∈ (tables_of (set_tables d dd tn l)).*2.
Proof.
  intros He. apply list_elem_of_fmap. exists (tn, e). split; [done|]. unfold tables_of, set_tables. simpl.
  apply list_elem_of_bind. exists (tn, TableMeta.with_entries (table_meta_of dd tn) l). split.
  - by apply list_elem_of_fmap_2.
  - apply elem_of_map_to_list. by apply lookup_insert_eq.
Qed.

(** The entries of the other names. *)
Definition other_dbs catalog (n : string) : list DB := map_to_list (delete n (databases_ catalog)) ≫= fun nm => db_entry_list_ nm.2.

Lemma all_dbs_split catalog n : all_dbs catalog ≡ₚ db_list catalog n ++ other_dbs catalog n.
Proof.
  unfold all_dbs, db_list, other_dbs. destruct (databases_ catalog !! n) as [m|] eqn:E; simpl; [|by rewrite delete_id].
  rewrite <- (insert_delete_id _ _ _ E) at 1. by rewrite map_to_list_insert by apply lookup_delete_eq.
Qed.

Lemma other_dbs_elem catalog n d : d ∈ other_dbs catalog n -> d ∈ all_dbs catalog.
Proof. rewrite (all_dbs_split catalog n). set_solver. Qed.

(** An update that leaves the entries of other names alone. *)
Lemma map_dbs_set g catalog n l :
  (forall x, x ∈ other_dbs catalog n -> g x = x) -> map_dbs g (set_dbs catalog n l) = set_dbs catalog n (g <$> l).
Proof.
  intros Hg. unfold map_dbs, set_dbs, with_databases. simpl. f_equal. rewrite fmap_insert.
  apply map_eq. intros k. destruct (decide (k = n)) as [->|Hk]; [by rewrite !lookup_insert_eq|].
  rewrite !lookup_insert_ne, lookup_fmap by done. destruct (databases_ catalog !! k) as [[mn md l']|] eqn:E; [|done]. simpl.
  unfold DBMeta.with_entries. simpl. do 2 f_equal. rewrite <- (list_fmap_id l') at 2. apply list_fmap_ext. intros i x Hx. apply Hg.
  apply list_elem_of_bind. exists (k, mkDBMeta mn md l'). split; [by eapply list_elem_of_lookup_2|].
  apply elem_of_map_to_list. by rewrite lookup_delete_ne.
Qed.

Lemma map_tables_of_set g d dd tn l :
  payload d = Some dd -> (forall x, x ∈ (tables_of d).*2 -> g x = x) ->
  map_tables_of g (set_tables d dd tn l) = set_tables d dd tn (g <$> l).
Proof.
  intros Hdd Hg. unfold map_tables_of, set_tables, with_payload, with_tables. simpl. do 3 f_equal. rewrite fmap_insert. f_equal.
  rewrite <- (map_fmap_id (tables_ dd)) at 2. apply map_fmap_ext. intros k [md mn l'] Hk.
  unfold TableMeta.with_entries. simpl. f_equal. rewrite <- (list_fmap_id l') at 2. apply list_fmap_ext. intros i x Hx. apply Hg.
  apply list_elem_of_fmap. exists (k, x). split; [done|]. unfold tables_of. rewrite Hdd. apply list_elem_of_bind.
  eexists (k, _). split; [|by apply elem_of_map_to_list]. apply list_elem_of_fmap_2. by eapply list_elem_of_lookup_2.
Qed.

Lemma at_addr_fresh {P} a f (L : list (Entry P)) x : fresh_in a L -> x ∈ L -> at_addr a f x = x.
Proof.
  intros Hf Hx. unfold at_addr. rewrite bool_decide_false; [done|]. intros <-. apply Hf. by apply list_elem_of_fmap_2.
Qed.

Lemma at_addr_list {P} f (e : Entry P) l : fresh_in (addr e) l -> at_addr (addr e) f <$> (e :: l) = f e :: l.
Proof.
  intros Hf. rewrite fmap_cons. f_equal; [unfold at_addr; by rewrite bool_decide_true|].
  rewrite <- (list_fmap_id l) at 2. apply list_fmap_ext. intros i x Hx. apply (at_addr_fresh _ _ l); [done|].
  by eapply list_elem_of_lookup_2.
Qed.

(** Writing through the pointer of an entry that was put on top of a list. *)
Lemma with_db_at_new catalog n (e : DB) l f :
  fresh_in (addr e) (all_dbs catalog) -> fresh_in (addr e) l ->
  with_db_at (set_dbs catalog n (e :: l)) (addr e) f = Ret (set_dbs catalog n (f e :: l)).
Proof.
  intros Hf Hl. unfold with_db_at.
  destruct (find_at_live (addr e) (all_dbs (set_dbs catalog n (e :: l)))) as [x ->].
  { apply list_elem_of_fmap_2, set_dbs_elem. by left. }
  rewrite map_dbs_set; [by rewrite at_addr_list|]. intros y Hy%other_dbs_elem. by apply (at_addr_fresh _ _ (all_dbs catalog)).
Qed.

Lemma with_table_at_new catalog n d dd rest tn (e : TB) l f :
  db_list catalog n = d :: rest -> payload d = Some dd ->
  fresh_in (addr e) (all_tables catalog) -> fresh_in (addr e) l ->
  with_table_at (set_dbs catalog n (set_tables d dd tn (e :: l) :: rest)) (addr e) f =
    Ret (set_dbs catalog n (set_tables d dd tn (f e :: l) :: rest)).
Proof.
  intros Hn Hdd Hf Hl. unfold with_table_at.
  destruct (find_at_live (addr e) (all_tables (set_dbs catalog n (set_tables d dd tn (e :: l) :: rest)))) as [x ->].
  { apply list_elem_of_fmap_2. unfold all_tables. apply list_elem_of_bind. exists (set_tables d dd tn (e :: l)).
    split; [apply set_tables_elem; by left|apply set_dbs_elem; by left]. }
  assert (forall y, y ∈ all_dbs catalog -> map_tables_of (at_addr (addr e) f) y = y) as Hid.
  { intros y Hy. rewrite (map_tables_of_ext _ id); [by apply map_tables_of_id|]. intros z Hz.
    apply (at_addr_fresh _ _ (all_tables catalog)); [done|]. apply list_elem_of_bind. by exists y. }
  assert (forall y, y ∈ d :: rest -> y ∈ all_dbs catalog) as Hin by (intros y; rewrite <- Hn; apply db_list_elem).
  unfold map_tables. rewrite map_dbs_set by (intros y Hy%other_dbs_elem; by apply Hid). rewrite fmap_cons. do 3 f_equal.
  - rewrite map_tables_of_set; [by rewrite at_addr_list|done|]. intros x' Hx'.
    apply (at_addr_fresh _ _ (all_tables catalog)); [done|]. apply list_elem_of_bind. exists d. split; [done|]. apply Hin. by left.
  - rewrite <- (list_fmap_id rest) at 2. apply list_fmap_ext. intros i y Hy. apply Hid, Hin. right. by eapply list_elem_of_lookup_2.
Qed.

Lemma set_dbs_same catalog n : is_Some (databases_ catalog !! n) -> set_dbs catalog n (db_list catalog n) = catalog.
Proof.
  intros [m Hm]. unfold set_dbs, db_list, db_meta_of. rewrite Hm. simpl. rewrite insert_id; [apply with_databases_same|].
  by destruct m.
Qed.

(** Writing the members of the newest version of a database. *)
Lemma store_db_head catalog n d rest dd :
  NoDup (addr <$> all_dbs catalog) -> db_list catalog n = d :: rest ->
  store_db catalog (addr d) dd = Ret (set_dbs catalog n (with_payload d (Some dd) :: rest)).
Proof.
  intros Hnd Hn. unfold store_db, with_db_at.
  destruct (find_at_live (addr d) (all_dbs catalog)) as [x ->].
  { apply list_elem_of_fmap_2, (db_list_elem _ n). rewrite Hn. by left. }
  f_equal. pose proof (all_dbs_split catalog n) as HP. rewrite Hn in HP. rewrite HP in Hnd. simpl in Hnd.
  apply NoDup_cons in Hnd as [Hf _]. rewrite fmap_app in Hf. apply not_elem_of_app in Hf as [Hf1 Hf2].
  assert (is_Some (databases_ catalog !! n)) as Hs by (unfold db_list in Hn; by destruct (databases_ catalog !! n)).
  rewrite <- (set_dbs_same catalog n Hs) at 1. rewrite Hn, map_dbs_set.
  - by rewrite at_addr_list.
  - intros y Hy. by apply (at_addr_fresh _ _ (other_dbs catalog n)).
Qed.

(** ** The calls on a catalog of committed versions *)

Definition committed_before b catalog : Prop :=
  Forall (old b) (all_dbs catalog) /\ Forall (old b) (all_tables catalog) /\
  Forall (fun d => is_dummy d = false -> is_Some (payload d)) (all_dbs catalog).

Lemma old_db_list b catalog n : committed_before b catalog -> Forall (old b) (db_entry_list_ (db_meta_of catalog n)).
Proof.
  intros (Ho & _ & _). unfold db_meta_of. destruct (databases_ catalog !! n) as [m|] eqn:E; simpl; [|by apply Forall_nil].
  rewrite Forall_forall in *. intros d Hd. apply Ho, elem_of_all_dbs. by exists n, m.
Qed.

Lemma db_meta_list catalog n : db_entry_list_ (db_meta_of catalog n) = db_list catalog n.
Proof. unfold db_meta_of, db_list. by destruct (databases_ catalog !! n). Qed.

Lemma table_meta_list dd tn : table_entry_list_ (table_meta_of dd tn) = table_list dd tn.
Proof. unfold table_meta_of, table_list. by destruct (tables_ dd !! tn). Qed.

Lemma set_db_meta catalog n : live (db_list catalog n) = true ->
  with_databases catalog (<[n := db_meta_of catalog n]> (databases_ catalog)) = catalog.
Proof.
  unfold db_list, db_meta_of. destruct (databases_ catalog !! n) as [m|] eqn:E; [|done]. intros _. simpl.
  rewrite insert_id by done. apply with_databases_same.
Qed.

Lemma CreateDatabase_old catalog n t b gs a ad :
  committed_before b catalog ->
  CreateDatabase catalog n t b gs a ad kErrorConflict =
    if live (db_list catalog n) then Ret (kDuplicate, catalog, None)
    else let m := db_meta_of catalog n in
      Ret (kOk, set_dbs catalog n (DBMeta.NewDBEntry a (meta_data_dir_ m) (meta_db_name_ m) t b :: ext ad (db_list catalog n)), Some a).
Proof.
  intros Hb. unfold CreateDatabase.
  change (match databases_ catalog !! n with Some m => m | None => mkDBMeta n (parent_path (current_dir_ catalog)) [] end)
    with (db_meta_of catalog n).
  rewrite DB_create_old by (by apply old_db_list). rewrite db_meta_list.
  destruct (live (db_list catalog n)) eqn:El; [|done]. simpl. by rewrite set_db_meta.
Qed.

Lemma DropDatabase_old catalog n t b a :
  committed_before b catalog ->
  DropDatabase catalog n t b a =
    if live (db_list catalog n)
    then let m := db_meta_of catalog n in
      (kOk, set_dbs catalog n (set_deleted true (DBMeta.NewDBEntry a (meta_data_dir_ m) (meta_db_name_ m) t b) :: db_list catalog n), Some a)
    else (kNotFound, catalog, None).
Proof.
  intros Hb. pose proof (old_db_list b catalog n Hb) as Ho. unfold DropDatabase, db_list, set_dbs, db_meta_of in *.
  destruct (databases_ catalog !! n) as [m|] eqn:E; [|done]. simpl in *. rewrite DB_drop_old by done.
  destruct (live (db_entry_list_ m)); [done|]. rewrite insert_id by done. by rewrite with_databases_same.
Qed.

Lemma GetDatabase_old catalog n t b :
  committed_before b catalog ->
  GetDatabase catalog n t b =
    match db_list catalog n with
    | d :: _ => if live (db_list catalog n) then (kOk, Some d) else (kNotFound, None)
    | [] => (kNotFound, None)
    end.
Proof.
  intros Hb. pose proof (old_db_list b catalog n Hb) as Ho. unfold GetDatabase, db_list, db_meta_of in *.
  destruct (databases_ catalog !! n) as [m|]; [|done]. by apply DB_get_old.
Qed.

(** The newest version of a live database has members, with committed tables. *)
Lemma live_db_payload b catalog n d rest :
  committed_before b catalog -> db_list catalog n = d :: rest -> live (d :: rest) = true -> is_Some (payload d).
Proof.
  intros (_ & _ & Hp) Hn Hl. rewrite Forall_forall in Hp. apply Hp; [apply (db_list_elem _ n); rewrite Hn; by left|].
  simpl in Hl. by destruct (is_dummy d).
Qed.

Lemma old_table_list b catalog n d rest dd tn :
  committed_before b catalog -> db_list catalog n = d :: rest -> payload d = Some dd -> Forall (old b) (table_list dd tn).
Proof.
  intros (_ & Ho & _) Hn Hdd. rewrite Forall_forall in *. intros e He. apply Ho.
  apply (table_list_elem _ d dd tn); [apply (db_list_elem _ n); rewrite Hn; by left|done|done].
Qed.

Lemma set_table_meta dd tn : live (table_list dd tn) = true -> with_tables dd (<[tn := table_meta_of dd tn]> (tables_ dd)) = dd.
Proof.
  unfold table_list, table_meta_of. destruct (tables_ dd !! tn) as [m|] eqn:E; [|done]. intros _. simpl.
  rewrite insert_id by done. by destruct dd.
Qed.

Lemma CreateTableCollection_old dd tn cs t b gs a ad :
  b <= UNCOMMIT_TS -> Forall (old b) (table_list dd tn) ->
  CreateTableCollection empty_table dd kTableEntry tn cs t b gs a ad =
    if live (table_list dd tn) then Ret (kDuplicate, dd, None)
    else
      let e := TableMeta.NewTableEntry (empty_table (R := R)) a (meta_db_entry_dir_ (table_meta_of dd tn)) tn cs kTableEntry t b in
      Ret (kOk, with_tables dd (<[tn := TableMeta.with_entries (table_meta_of dd tn) (e :: ext ad (table_list dd tn))]> (tables_ dd)), Some a).
Proof.
  intros Hb Ho. unfold CreateTableCollection.
  change (match tables_ dd !! tn with Some m => m | None => mkTableCollectionMeta (db_entry_dir_ dd) tn [] end)
    with (table_meta_of dd tn).
  rewrite Table_create_old; [|done|by rewrite table_meta_list]. rewrite table_meta_list.
  destruct (live (table_list dd tn)) eqn:El; [|done]. simpl. by rewrite set_table_meta.
Qed.

Lemma DropTableCollection_old dd tn ct t b a :
  b <= UNCOMMIT_TS -> Forall (old b) (table_list dd tn) ->
  exists st, DropTableCollection empty_table dd tn ct t b a =
    if live (table_list dd tn)
    then
      let m := table_meta_of dd tn in
      let e := set_deleted true (TableMeta.NewTableEntry (empty_table (R := R)) a (meta_db_entry_dir_ m) (meta_table_collection_name_ m) [] kTableEntry t b) in
      (kOk, with_tables dd (<[tn := TableMeta.with_entries m (e :: table_list dd tn)]> (tables_ dd)), Some a)
    else (st, dd, None).
Proof.
  intros Hb Ho. unfold DropTableCollection, table_list, table_meta_of in *.
  destruct (tables_ dd !! tn) as [m|] eqn:E; simpl in *; [|by eexists].
  destruct (Table_drop_old (empty_table (R := R)) m a t b ct Hb Ho) as [st ->]. exists st.
  destruct (live (table_entry_list_ m)); [done|]. rewrite insert_id by done. by destruct dd.
Qed.

(** ** A transaction of one call *)

Definition begun (self : ptr) t b : Txn R := with_context (MakeTxn self t) (mkTxnContext b 0 kStarted).

(** [t] begins at [b], makes the call [c] and commits at [ts]: the catalog and
    the entries that reach the log.  A transaction that logged nothing commits
    without the lower half. *)
Definition run_txn (fuel : nat) catalog (self : ptr) t b ts (gs : Z -> option TxnState) (a ad : ptr) (c : ddl_call)
    : option (Cat * list (WalEntry (DataBlock R))) :=
  match ddl_exec catalog (begun self t b) gs a ad c with
  | Ret (_, catalog', txn) =>
      match wal_cmds_ txn with
      | [] => Some (catalog', [])
      | cs =>
          match CommitBottom fuel catalog' (with_context txn (mkTxnContext b ts kCommitting)) with
          | Some (Ret (catalog'', _)) => Some (catalog'', [mkWalEntry 0 0 t ts cs])
          | _ => None
          end
      end
  | _ => None
  end.

Lemma commit_one_db fuel catalog catalog' txn a ts b :
  with_db_at catalog a (Commit ts) = Ret catalog' ->
  txn_dbs_ txn = {[ a ]} -> txn_tables_ txn = ∅ -> txn_indexes_ txn = ∅ -> txn_tables_store_ txn = ∅ ->
  exists x, CommitBottom fuel catalog (with_context txn (mkTxnContext b ts kCommitting)) = Some (Ret (catalog', x)).
Proof.
  intros Hc Hd Ht Hi Hs. eexists. unfold CommitBottom. cbn [txn_tables_store_ with_context txn_dbs_ txn_tables_ txn_indexes_ context_].
  rewrite Hs, Hd, Ht, Hi, map_to_list_empty, elements_singleton, elements_empty. simpl. rewrite Hc. simpl.
  rewrite map_to_list_empty. reflexivity.
Qed.

Lemma commit_one_table fuel catalog catalog' txn a ts b :
  with_table_at catalog a (Commit ts) = Ret catalog' ->
  txn_dbs_ txn = ∅ -> txn_tables_ txn = {[ a ]} -> txn_indexes_ txn = ∅ -> txn_tables_store_ txn = ∅ ->
  exists x, CommitBottom fuel catalog (with_context txn (mkTxnContext b ts kCommitting)) = Some (Ret (catalog', x)).
Proof.
  intros Hc Hd Ht Hi Hs. eexists. unfold CommitBottom. cbn [txn_tables_store_ with_context txn_dbs_ txn_tables_ txn_indexes_ context_].
  rewrite Hs, Hd, Ht, Hi, map_to_list_empty, elements_singleton, elements_empty. simpl. rewrite Hc. simpl.
  rewrite map_to_list_empty. reflexivity.
Qed.

Lemma ext_fresh {P} a ad (l : list (Entry P)) : a <> ad -> fresh_in a l -> fresh_in a (ext ad l).
Proof. intros Hne Hf. destruct l; [|done]. simpl. unfold fresh_in. simpl. by rewrite list_elem_of_singleton. Qed.

Lemma fresh_sub {P} a (l L : list (Entry P)) : (forall x, x ∈ l -> x ∈ L) -> fresh_in a L -> fresh_in a l.
Proof. intros Hin Hf (x & -> & Hx)%list_elem_of_fmap. apply Hf. by apply list_elem_of_fmap_2, Hin. Qed.

(** What a catalog holds after a version list was set. *)
Lemma set_dbs_elem_inv catalog n l x : x ∈ all_dbs (set_dbs catalog n l) -> x ∈ l \/ x ∈ all_dbs catalog.
Proof.
  intros (k & m & Hk & Hx)%elem_of_all_dbs. simpl in Hk. apply lookup_insert_Some in Hk as [[<- <-]|[Hne Hk]]; [by left|].
  right. apply elem_of_all_dbs. by exists k, m.
Qed.

Lemma set_tables_elem_inv d dd tn l x :
  payload d = Some dd -> x ∈ (tables_of (set_tables d dd tn l)).*2 -> x ∈ l \/ x ∈ (tables_of d).*2.
Proof.
  intros Hdd ([k y] & -> & Hx)%list_elem_of_fmap. unfold tables_of, set_tables in Hx. simpl in Hx.
  apply list_elem_of_bind in Hx as ([k' m] & Hx & Hk%elem_of_map_to_list). apply list_elem_of_fmap in Hx as (z & [= -> ->] & Hz).
  simpl in Hz. apply lookup_insert_Some in Hk as [[<- <-]|[Hne Hk]]; [by left|]. right. apply list_elem_of_fmap. exists (k', z).
  split; [done|]. unfold tables_of. rewrite Hdd. apply list_elem_of_bind. exists (k', m).
  split; [by apply list_elem_of_fmap_2|by apply elem_of_map_to_list].
Qed.

Lemma set_all_tables_elem_inv catalog n d dd rest tn l x :
  db_list catalog n = d :: rest -> payload d = Some dd ->
  x ∈ all_tables (set_dbs catalog n (set_tables d dd tn l :: rest)) -> x ∈ l \/ x ∈ all_tables catalog.
Proof.
  intros Hn Hdd (y & Hx & Hy)%list_elem_of_bind.
  assert (forall z, z ∈ d :: rest -> z ∈ all_dbs catalog) as Hin by (intros z; rewrite <- Hn; apply db_list_elem).
  assert (forall z, z ∈ all_dbs catalog -> x ∈ (tables_of z).*2 -> x ∈ all_tables catalog) as Hall
    by (intros z ? ?; apply list_elem_of_bind; by exists z).
  apply set_dbs_elem_inv in Hy as [[->|Hy]%elem_of_cons|Hy]; [|right..].
  - apply set_tables_elem_inv in Hx as [Hx|Hx]; [by left|right|done]. apply (Hall d); [apply Hin; by left|done].
  - apply (Hall y); [apply Hin; by right|done].
  - by apply (Hall y).
Qed.

Lemma find_new {P} (e : Entry P) l (L L' : list (Entry P)) :
  e ∈ L' -> (forall x, x ∈ L' -> x ∈ e :: l \/ x ∈ L) -> fresh_in (addr e) l -> fresh_in (addr e) L -> find_at (addr e) L' = Some e.
Proof.
  intros He Hin Hl HL. destruct (find_at_live (addr e) L') as [x Hx]; [by apply list_elem_of_fmap_2|].
  rewrite Hx. apply find_at_elem in Hx as [Hx Ha]. f_equal.
  destruct (Hin x Hx) as [[->|Hx']%elem_of_cons|Hx']; [done|exfalso; apply Hl|exfalso; apply HL]; rewrite <- Ha; by apply list_elem_of_fmap_2.
Qed.

Lemma toggle_empty (p : ptr) : toggle p ∅ = {[ p ]}.
Proof. rewrite toggle_fresh by set_solver. apply union_empty_l_L. Qed.

(** Evaluates the commit of a transaction of one call; [H] says what writing
    through the pointer [p] it keeps gives. *)
Ltac commit_one lem p H :=
  match goal with
  | |- context [CommitBottom ?fuel ?c (with_context ?x (mkTxnContext ?b ?ts _))] =>
      let y := fresh in
      destruct (lem fuel c _ x p ts b H) as [y ->];
      [simpl; by rewrite ?union_empty_l_L, ?toggle_empty|simpl; by rewrite ?union_empty_l_L, ?toggle_empty|done|done|reflexivity]
  end.

(** The calls of a transaction and its commit implement the specification. *)
Section RunTxn.
Context (fuel : nat) catalog (self : ptr) t b ts (gs : Z -> option TxnState) (a ad : ptr)
  (Hb : committed_before b catalog) (Hnd : NoDup (addr <$> all_dbs catalog)) (Hub : b <= UNCOMMIT_TS) (Hne : a <> ad)
  (Hfd : fresh_in a (all_dbs catalog)) (Hft : fresh_in a (all_tables catalog)).

Definition spec_result (c : ddl_call) : option (Cat * list (WalEntry (DataBlock R))) :=
  Some (match spec_exec a ad b c t ts catalog with
        | Some catalog' => (catalog', [mkWalEntry 0 0 t ts [call_cmd c]])
        | None => (catalog, [])
        end).

Lemma fresh_db_list n : fresh_in a (db_list catalog n).
Proof. eapply fresh_sub; [|exact Hfd]. apply db_list_elem. Qed.

Lemma run_create_db n : run_txn fuel catalog self t b ts gs a ad (CallCreateDatabase n kErrorConflict) = spec_result (CallCreateDatabase n kErrorConflict).
Proof.
  unfold run_txn, ddl_exec, Txn_CreateDatabase, spec_result. simpl started. cbn [negb]. cbn [self_txn_id_ context_ ctx_begin_ts_ begun with_context MakeTxn].
  rewrite CreateDatabase_old by done. simpl spec_exec. destruct (live (db_list catalog n)); [done|]. simpl.
  set (m := db_meta_of catalog n). set (e := DBMeta.NewDBEntry a (meta_data_dir_ m) (meta_db_name_ m) t b).
  assert (fresh_in a (ext ad (db_list catalog n))) as Hl by (apply ext_fresh; [done|apply fresh_db_list]).
  rewrite (find_new e (ext ad (db_list catalog n)) (all_dbs catalog) _); [|apply set_dbs_elem; by left|apply set_dbs_elem_inv|done|done].
  simpl.
  commit_one commit_one_db a (with_db_at_new catalog n e _ (Commit ts) Hfd Hl).
Qed.

Lemma run_drop_db n : run_txn fuel catalog self t b ts gs a ad (CallDropDatabase n) = spec_result (CallDropDatabase n).
Proof.
  unfold run_txn, ddl_exec, Txn_DropDatabase, spec_result. simpl started. cbn [negb]. cbn [self_txn_id_ context_ ctx_begin_ts_ begun with_context MakeTxn].
  rewrite DropDatabase_old by done. simpl spec_exec. destruct (live (db_list catalog n)); [|done]. simpl.
  set (m := db_meta_of catalog n). set (e := set_deleted true (DBMeta.NewDBEntry a (meta_data_dir_ m) (meta_db_name_ m) t b)).
  commit_one commit_one_db a (with_db_at_new catalog n e _ (Commit ts) Hfd (fresh_db_list n)).
Qed.

Lemma run_create_table n td : run_txn fuel catalog self t b ts gs a ad (CallCreateTable n td) = spec_result (CallCreateTable n td).
Proof.
  unfold run_txn, ddl_exec, Txn_CreateTable, spec_result. simpl started. cbn [negb]. cbn [self_txn_id_ context_ ctx_begin_ts_ begun with_context MakeTxn].
  rewrite GetDatabase_old by done. simpl spec_exec. destruct (db_list catalog n) as [|d rest] eqn:En; [done|].
  destruct (live (d :: rest)) eqn:El; [|done].
  destruct (live_db_payload b catalog n d rest Hb En El) as [dd Hdd]. rewrite Hdd.
  pose proof (old_table_list b catalog n d rest dd (table_name_ td) Hb En Hdd) as Ho.
  rewrite CreateTableCollection_old by done. destruct (live (table_list dd (table_name_ td))) eqn:Et; simpl.
  - rewrite (store_db_head catalog n d rest dd Hnd En). simpl. do 2 f_equal. rewrite <- Hdd.
    assert (with_payload d (payload d) = d) as -> by by destruct d. rewrite <- En. apply set_dbs_same.
    unfold db_list in En. by destruct (databases_ catalog !! n).
  - set (e := TableMeta.NewTableEntry _ a _ _ _ _ t b). rewrite (store_db_head catalog n d rest _ Hnd En). simpl.
    assert (forall x, x ∈ table_list dd (table_name_ td) -> x ∈ all_tables catalog) as Hin.
    { intros x. apply (table_list_elem catalog d); [apply (db_list_elem _ n); rewrite En; by left|done]. }
    assert (fresh_in a (ext ad (table_list dd (table_name_ td)))) as Hl by (apply ext_fresh; [done|by eapply fresh_sub]).
    change (with_payload d (Some _)) with (set_tables d dd (table_name_ td) (e :: ext ad (table_list dd (table_name_ td)))).
    rewrite (find_new e (ext ad (table_list dd (table_name_ td))) (all_tables catalog) _); [| | |done|done].
    + simpl.
      commit_one commit_one_table a (with_table_at_new catalog n d dd rest (table_name_ td) e _ (Commit ts) En Hdd Hft Hl).
    + apply list_elem_of_bind. eexists. split; [apply set_tables_elem; by left|apply set_dbs_elem; by left].
    + intros x. by apply set_all_tables_elem_inv.
Qed.

Lemma run_drop_table n tn ct : run_txn fuel catalog self t b ts gs a ad (CallDropTable n tn ct) = spec_result (CallDropTable n tn ct).
Proof.
  unfold run_txn, ddl_exec, Txn_DropTable, spec_result. simpl started. cbn [negb]. cbn [self_txn_id_ context_ ctx_begin_ts_ begun with_context MakeTxn].
  rewrite GetDatabase_old by done. simpl spec_exec. destruct (db_list catalog n) as [|d rest] eqn:En; [done|].
  destruct (live (d :: rest)) eqn:El; [|done].
  destruct (live_db_payload b catalog n d rest Hb En El) as [dd Hdd]. rewrite Hdd.
  pose proof (old_table_list b catalog n d rest dd tn Hb En Hdd) as Ho.
  destruct (DropTableCollection_old dd tn ct t b a Hub Ho) as [st ->]. destruct (live (table_list dd tn)) eqn:Et; simpl.
  - set (e := set_deleted true (TableMeta.NewTableEntry _ a _ _ _ _ t b)). rewrite (store_db_head catalog n d rest _ Hnd En). simpl.
    assert (fresh_in a (table_list dd tn)) as Hl.
    { eapply fresh_sub; [|exact Hft]. intros x. apply (table_list_elem catalog d); [apply (db_list_elem _ n); rewrite En; by left|done]. }
    change (with_payload d (Some _)) with (set_tables d dd tn (e :: table_list dd tn)).
    commit_one commit_one_table a (with_table_at_new catalog n d dd rest tn e _ (Commit ts) En Hdd Hft Hl).
  - rewrite (store_db_head catalog n d rest dd Hnd En). simpl. do 2 f_equal. rewrite <- Hdd.
    assert (with_payload d (payload d) = d) as -> by by destruct d. rewrite <- En. apply set_dbs_same.
    unfold db_list in En. by destruct (databases_ catalog !! n).
Qed.
End RunTxn.

Lemma run_txn_spec fuel catalog self t b ts gs a ad c :
  committed_before b catalog -> NoDup (addr <$> all_dbs catalog) -> b <= UNCOMMIT_TS -> a <> ad ->
  fresh_in a (all_dbs catalog) -> fresh_in a (all_tables catalog) ->
  (forall n ct, c = CallCreateDatabase n ct -> ct = kErrorConflict) ->
  run_txn fuel catalog self t b ts gs a ad c = spec_result catalog t b ts a ad c.
Proof.
  intros Hb Hnd Hub Hne Hfd Hft Hc. destruct c as [n ct|n|n td|n tn ct].
  - rewrite (Hc n ct eq_refl). by apply run_create_db.
  - by apply run_drop_db.
  - by apply run_create_table.
  - by apply run_drop_table.
Qed.

(** ** Replay implements the specification *)

Section ReplaySpec.
Context (gs : Z -> option TxnState) (load_rows : string -> Z -> list R) (fuel : nat) (index_dir : string).
Implicit Types (s : ReplayState R).

Lemma replay_spec s c t ts catalog' :
  committed_before ts (rs_catalog s) -> NoDup (addr <$> all_dbs (rs_catalog s)) -> ts <= UNCOMMIT_TS ->
  fresh_in (new_a s) (all_dbs (rs_catalog s)) -> fresh_in (new_a s) (all_tables (rs_catalog s)) ->
  spec_exec (new_a s) (new_ad s) ts c t ts (rs_catalog s) = Some catalog' ->
  ReplayCmd gs load_rows fuel index_dir s (call_cmd c) t ts = Some (Ret (advance s catalog')).
Proof.
  intros Hb Hnd Hub Hfd Hft.
  assert (new_a s <> new_ad s) as Hne by (unfold new_a, new_ad; lia).
  assert (forall n, fresh_in (new_a s) (db_list (rs_catalog s) n)) as Hfl by (intros n; eapply fresh_sub; [|exact Hfd]; apply db_list_elem).
  destruct c as [n ct|n|n td|n tn ct]; simpl; intros Hs; f_equal.
  - unfold WalCmdCreateDatabaseReplay. rewrite CreateDatabase_old by done. destruct (live (db_list (rs_catalog s) n)); [done|]. simpl in *.
    rewrite with_db_at_new by (done || apply ext_fresh; done). simpl. by simplify_eq.
  - unfold WalCmdDropDatabaseReplay. rewrite DropDatabase_old by done. destruct (live (db_list (rs_catalog s) n)); [|done]. simpl in *.
    set (e := set_deleted true _) in *. change (new_a s) with (addr e).
    rewrite (with_db_at_new _ n e _ (Commit ts) Hfd (Hfl n)). simpl. by simplify_eq.
  - unfold WalCmdCreateTableReplay, ReplayGetDatabase. rewrite GetDatabase_old by done.
    destruct (db_list (rs_catalog s) n) as [|d rest] eqn:En; [done|]. destruct (live (d :: rest)); [|done].
    destruct (payload d) as [dd|] eqn:Hdd; [|done]. simpl.
    rewrite CreateTableCollection_old; [|done|by eapply old_table_list]. destruct (live (table_list dd (table_name_ td))); [done|]. simpl.
    rewrite (store_db_head _ n d rest) by done. simpl. simplify_eq. set (e := TableMeta.NewTableEntry _ _ _ _ _ _ t ts).
    change (with_payload d (Some _)) with (set_tables d dd (table_name_ td) (e :: ext (new_ad s) (table_list dd (table_name_ td)))).
    assert (fresh_in (new_a s) (ext (new_ad s) (table_list dd (table_name_ td)))) as Hl.
    { apply ext_fresh; [done|]. eapply fresh_sub; [|exact Hft]. intros x.
      apply (table_list_elem (rs_catalog s) d); [apply (db_list_elem _ n); rewrite En; by left|done]. }
    by rewrite (with_table_at_new _ n d dd rest _ e _ (Commit ts) En Hdd Hft Hl).
  - unfold WalCmdDropTableReplay, ReplayGetDatabase. rewrite GetDatabase_old by done.
    destruct (db_list (rs_catalog s) n) as [|d rest] eqn:En; [done|]. destruct (live (d :: rest)); [|done].
    destruct (payload d) as [dd|] eqn:Hdd; [|done]. simpl.
    destruct (DropTableCollection_old dd tn kReplace t ts (new_a s) Hub) as [st ->]; [by eapply old_table_list|].
    destruct (live (table_list dd tn)); [|done]. simpl.
    rewrite (store_db_head _ n d rest) by done. simpl. simplify_eq. set (e := set_deleted true _).
    change (with_payload d (Some _)) with (set_tables d dd tn (e :: table_list dd tn)).
    assert (fresh_in (new_a s) (table_list dd tn)) as Hl.
    { eapply fresh_sub; [|exact Hft]. intros x. apply (table_list_elem (rs_catalog s) d); [apply (db_list_elem _ n); rewrite En; by left|done]. }
    by rewrite (with_table_at_new _ n d dd rest _ e _ (Commit ts) En Hdd Hft Hl).
Qed.
End ReplaySpec.

(** ** The specification does not look at addresses and begin timestamps *)

Lemma norm_db_list catalog n : db_list (norm catalog) n = norm_tables <$> db_list catalog n.
Proof. unfold db_list, norm, map_dbs. simpl. rewrite lookup_fmap. by destruct (databases_ catalog !! n). Qed.

Lemma norm_db_meta_of catalog n :
  meta_data_dir_ (db_meta_of (norm catalog) n) = meta_data_dir_ (db_meta_of catalog n) /\
  meta_db_name_ (db_meta_of (norm catalog) n) = meta_db_name_ (db_meta_of catalog n).
Proof. unfold db_meta_of, norm, map_dbs. simpl. rewrite lookup_fmap. by destruct (databases_ catalog !! n). Qed.

Lemma norm_set_dbs catalog n l : norm (set_dbs catalog n l) = set_dbs (norm catalog) n (norm_tables <$> l).
Proof.
  unfold set_dbs, DBMeta.with_entries. destruct (norm_db_meta_of catalog n) as [-> ->].
  unfold norm, map_dbs, with_databases. simpl. f_equal. by rewrite fmap_insert.
Qed.

(** The payload of a normalised database. *)
Definition norm_data (dd : DBData (TableCollectionMeta (TxnStore.TableData R))) :=
  with_tables dd ((fun m => TableMeta.with_entries m (norm_entry <$> table_entry_list_ m)) <$> tables_ dd).

Lemma norm_table_list dd tn : table_list (norm_data dd) tn = norm_entry <$> table_list dd tn.
Proof. unfold table_list, norm_data. simpl. rewrite lookup_fmap. by destruct (tables_ dd !! tn). Qed.

Lemma norm_table_meta_of dd tn :
  meta_db_entry_dir_ (table_meta_of (norm_data dd) tn) = meta_db_entry_dir_ (table_meta_of dd tn) /\
  meta_table_collection_name_ (table_meta_of (norm_data dd) tn) = meta_table_collection_name_ (table_meta_of dd tn).
Proof. unfold table_meta_of, norm_data. simpl. rewrite lookup_fmap. by destruct (tables_ dd !! tn). Qed.

Lemma norm_set_tables d dd tn l :
  norm_tables (set_tables d dd tn l) = set_tables (norm_tables d) (norm_data dd) tn (norm_entry <$> l).
Proof.
  unfold set_tables, TableMeta.with_entries. destruct (norm_table_meta_of dd tn) as [-> ->].
  unfold norm_tables, map_tables_of, norm_entry, with_payload, norm_data, with_tables. simpl. do 2 f_equal. by rewrite fmap_insert.
Qed.

Lemma live_fmap {P} (f : Entry P -> Entry P) l :
  (forall e, entry_type_ (f e) = entry_type_ e /\ BaseEntry.deleted_ (f e) = BaseEntry.deleted_ e) -> live (f <$> l) = live l.
Proof. intros Hf. destruct l as [|h l]; [done|]. simpl. unfold is_dummy. by destruct (Hf h) as [-> ->]. Qed.

Lemma live_norm_tables (l : list DB) : live (norm_tables <$> l) = live l.
Proof. by apply live_fmap. Qed.

Lemma live_norm_entry {P} (l : list (Entry P)) : live (norm_entry <$> l) = live l.
Proof. by apply live_fmap. Qed.

Lemma ext_fmap {P} (f : Entry P -> Entry P) ad ad' l : f (dummy_entry ad) = dummy_entry ad' -> f <$> ext ad l = ext ad' (f <$> l).
Proof. intros Hf. destruct l; simpl; [by rewrite Hf|done]. Qed.

Lemma spec_norm a ad b c t ts catalog : norm <$> spec_exec a ad b c t ts catalog = spec_exec 1 1 0 c t ts (norm catalog).
Proof.
  destruct c as [n ct|n|n td|n tn ct]; simpl; rewrite norm_db_list.
  - rewrite live_norm_tables. destruct (live (db_list catalog n)); [done|]. simpl. f_equal. rewrite norm_set_dbs. f_equal.
    rewrite fmap_cons, (ext_fmap _ ad 1%positive) by done. by destruct (norm_db_meta_of catalog n) as [-> ->].
  - rewrite live_norm_tables. destruct (live (db_list catalog n)); [|done]. simpl. f_equal. rewrite norm_set_dbs. f_equal.
    rewrite fmap_cons. by destruct (norm_db_meta_of catalog n) as [-> ->].
  - destruct (db_list catalog n) as [|d rest]; [done|]. rewrite <- (live_norm_tables (d :: rest)), fmap_cons.
    destruct (live (norm_tables d :: _)); [|done]. simpl. destruct (payload d) as [dd|] eqn:Hd; [|done]. simpl.
    fold (norm_data dd). rewrite norm_table_list, live_norm_entry. destruct (live (table_list dd _)); [done|]. simpl. f_equal.
    rewrite norm_set_dbs, fmap_cons, norm_set_tables, fmap_cons by done. rewrite (ext_fmap _ ad 1%positive) by done.
    by destruct (norm_table_meta_of dd (table_name_ td)) as [-> _].
  - destruct (db_list catalog n) as [|d rest]; [done|]. rewrite <- (live_norm_tables (d :: rest)), fmap_cons.
    destruct (live (norm_tables d :: _)); [|done]. simpl. destruct (payload d) as [dd|] eqn:Hd; [|done]. simpl.
    fold (norm_data dd). rewrite norm_table_list, live_norm_entry. destruct (live (table_list dd _)); [|done]. simpl. f_equal.
    rewrite norm_set_dbs, fmap_cons, norm_set_tables, fmap_cons by done.
    by destruct (norm_table_meta_of dd tn) as [-> ->].
Qed.

(** ** What the specification keeps *)

Definition addrs catalog : list ptr := (addr <$> all_dbs catalog) ++ (addr <$> all_tables catalog).

(** Everything is committed before [b] and databases have distinct addresses. *)
Definition kept b catalog : Prop := committed_before b catalog /\ NoDup (addr <$> all_dbs catalog).

(** The entries that a call of a transaction committing at [ts] adds. *)
Definition made (a ad : ptr) ts {P} (e : Entry P) : Prop := (addr e = a \/ addr e = ad) /\ old (ts + 1) e.

Definition made_db (a ad : ptr) ts (d : DB) : Prop :=
  made a ad ts d /\ tables_of d = [] /\ (is_dummy d = false -> is_Some (payload d)).

Lemma fresh_addrs a catalog : a ∉ addrs catalog -> fresh_in a (all_dbs catalog) /\ fresh_in a (all_tables catalog).
Proof. unfold addrs, fresh_in. set_solver. Qed.

Lemma elem_addrs catalog p :
  p ∈ addrs catalog <-> (exists d, d ∈ all_dbs catalog /\ addr d = p) \/ (exists e, e ∈ all_tables catalog /\ addr e = p).
Proof. unfold addrs. rewrite elem_of_app, !list_elem_of_fmap. naive_solver. Qed.

Lemma old_weaken b b' {P} (e : Entry P) : b <= b' -> old b e -> old b' e.
Proof. intros ? [? ?]. split; [done|lia]. Qed.

(** How an update of a catalog relates its entries to those before. *)
Definition grows (a ad : ptr) ts catalog catalog' : Prop :=
  (forall d, d ∈ all_dbs catalog' ->
     made_db a ad ts d \/ exists d0, d0 ∈ all_dbs catalog /\ same_stamps d0 d /\ (is_Some (payload d0) -> is_Some (payload d))) /\
  (forall e, e ∈ all_tables catalog' -> made a ad ts e \/ e ∈ all_tables catalog) /\
  NoDup (addr <$> all_dbs catalog').

Lemma grows_kept a ad b ts catalog catalog' :
  b <= ts + 1 -> kept b catalog -> grows a ad ts catalog catalog' ->
  kept (ts + 1) catalog' /\ forall p, p ∈ addrs catalog' -> p = a \/ p = ad \/ p ∈ addrs catalog.
Proof.
  intros Hts [(Hd & Ht & Hp) _] (Gd & Gt & Gn). rewrite Forall_forall in Hd. rewrite Forall_forall in Ht. rewrite Forall_forall in Hp.
  split; [split; [split_and!|done]; apply Forall_forall|].
  - intros d [[[_ ?] _]|(d0 & H0 & (_ & _ & Hc & _) & _)]%Gd; [done|].
    destruct (Hd d0 H0) as [Hc0 ?]. unfold old, Committed in *. rewrite Hc. split; [done|lia].
  - intros e [[_ ?]|H0]%Gt; [done|]. by eapply old_weaken, Ht.
  - intros d [(_ & _ & ?)|(d0 & H0 & (_ & _ & _ & He) & Hpl)]%Gd; [done|].
    unfold is_dummy. rewrite He. intros H. by apply Hpl, Hp.
  - intros p [(d & Hin & <-)|(e & Hin & <-)]%elem_addrs.
    + apply Gd in Hin as [[[? _] _]|(d0 & H0 & (-> & _) & _)]; [naive_solver|]. right; right. apply elem_addrs. left. by exists d0.
    + apply Gt in Hin as [[? _]|H0]; [naive_solver|]. right; right. apply elem_addrs. right. by exists e.
Qed.

Lemma all_dbs_set catalog n l : all_dbs (set_dbs catalog n l) ≡ₚ l ++ other_dbs catalog n.
Proof.
  rewrite (all_dbs_split _ n). unfold db_list, other_dbs, set_dbs. simpl. by rewrite lookup_insert_eq, delete_insert_eq.
Qed.

Lemma grows_dbs a ad ts catalog n l :
  NoDup (addr <$> all_dbs catalog) -> a ∉ addrs catalog -> ad ∉ addrs catalog ->
  NoDup (addr <$> l) -> (forall d, d ∈ l -> made_db a ad ts d \/ d ∈ db_list catalog n) ->
  grows a ad ts catalog (set_dbs catalog n l).
Proof.
  intros Hnd Ha Had Hl Hin.
  assert (forall d, d ∈ all_dbs (set_dbs catalog n l) -> made_db a ad ts d \/ d ∈ all_dbs catalog) as Hall.
  { intros d [H|H]%set_dbs_elem_inv; [|by right]. destruct (Hin d H); [by left|right; by eapply db_list_elem]. }
  split_and!.
  - intros d [H|H]%Hall; [by left|right; exists d; split_and!; [done|apply same_stamps_refl|done]].
  - intros e (d & He & [(_ & Hd & _)|H]%Hall)%list_elem_of_bind; [by rewrite Hd in He; apply list_elem_of_fmap in He as (? & _ & ?%not_elem_of_nil)|].
    right. apply list_elem_of_bind. by exists d.
  - rewrite (all_dbs_set catalog n). rewrite (all_dbs_split _ n), fmap_app in Hnd. apply NoDup_app in Hnd as (_ & Hdis & Ho).
    rewrite fmap_app. apply NoDup_app. split_and!; [done| |done].
    intros p (d & -> & Hd)%list_elem_of_fmap Hp. destruct (Hin d Hd) as [[[Hm _] _]|H]; [|by apply (Hdis (addr d)), Hp; apply list_elem_of_fmap_2].
    assert (addr d ∈ addrs catalog) as Hx.
    { apply list_elem_of_fmap in Hp as (d' & -> & Hd'). apply elem_addrs. left. exists d'. by split; [eapply other_dbs_elem|]. }
    destruct Hm as [Hm|Hm]; rewrite Hm in Hx; done.
Qed.

Lemma grows_tables a ad ts catalog n d dd rest tn l :
  NoDup (addr <$> all_dbs catalog) -> db_list catalog n = d :: rest -> payload d = Some dd ->
  (forall e, e ∈ l -> made a ad ts e \/ e ∈ table_list dd tn) ->
  grows a ad ts catalog (set_dbs catalog n (set_tables d dd tn l :: rest)).
Proof.
  intros Hnd Hn Hd Hin.
  assert (forall z, z ∈ d :: rest -> z ∈ all_dbs catalog) as Hsub by (intros z; rewrite <- Hn; apply db_list_elem).
  split_and!.
  - intros x [[->|H]%elem_of_cons|H]%set_dbs_elem_inv; right.
    + exists d. split_and!; [apply Hsub; by left|done|done].
    + exists x. split_and!; [apply Hsub; by right|apply same_stamps_refl|done].
    + exists x. split_and!; [done|apply same_stamps_refl|done].
  - intros e [H|H]%(set_all_tables_elem_inv _ _ _ _ _ _ _ _ Hn Hd); [|by right].
    destruct (Hin e H) as [|H']; [by left|right]. eapply table_list_elem; [apply Hsub; by left|done|done].
  - rewrite (all_dbs_set catalog n). by rewrite (all_dbs_split catalog n), Hn in Hnd.
Qed.

Lemma ext_elem {P} ad (l : list (Entry P)) e : e ∈ ext ad l -> e = dummy_entry ad \/ e ∈ l.
Proof. destruct l; simpl; set_solver. Qed.

Lemma made_dummy a ad ts {P} : 0 <= ts -> made a ad ts (dummy_entry (P := P) ad).
Proof. intros. split; [by right|]. split; [done|simpl; lia]. Qed.

Lemma made_new a ad ts {P} (e : Entry P) : addr e = a -> ts < UNCOMMIT_TS -> made a ad ts (Commit ts e).
Proof. intros. split; [by left|]. split; [unfold Committed; simpl; apply negb_true_iff, Z.eqb_neq; lia|simpl; lia]. Qed.

Lemma NoDup_new {P} (e : Entry P) ad l :
  addr e <> ad -> addr e ∉ (addr <$> l) -> NoDup (addr <$> l) -> NoDup (addr <$> (e :: ext ad l)).
Proof. intros. rewrite fmap_cons. apply NoDup_cons. split; destruct l; simpl in *; [set_solver|done|apply NoDup_singleton|done]. Qed.

Lemma spec_grows a ad b c t ts catalog catalog' :
  NoDup (addr <$> all_dbs catalog) -> a ∉ addrs catalog -> ad ∉ addrs catalog -> a <> ad -> 0 <= ts < UNCOMMIT_TS ->
  spec_exec a ad b c t ts catalog = Some catalog' -> grows a ad ts catalog catalog'.
Proof.
  intros Hnd Ha Had Hne [Hts Hu].
  assert (forall n, NoDup (addr <$> db_list catalog n)) as Hl.
  { intros n. rewrite (all_dbs_split _ n), fmap_app in Hnd. by apply NoDup_app in Hnd as (? & _ & _). }
  assert (forall n, a ∉ (addr <$> db_list catalog n)) as Hf.
  { intros n. destruct (fresh_addrs a catalog Ha) as [Hfd _]. eapply fresh_sub; [|exact Hfd]. apply db_list_elem. }
  destruct c as [n ct|n|n td|n tn ct]; simpl.
  - destruct (live (db_list catalog n)); [done|]. intros [= <-]. apply grows_dbs; [done..| |].
    + apply NoDup_new; [done|apply Hf|apply Hl].
    + intros d [->|[->|?]%ext_elem]%elem_of_cons; [left|left|by right].
      * split_and!; [by apply made_new|done|by eexists].
      * split_and!; [by apply made_dummy|done|done].
  - destruct (live (db_list catalog n)); [|done]. intros [= <-]. apply grows_dbs; [done..| |].
    + rewrite fmap_cons. apply NoDup_cons. split; [apply Hf|apply Hl].
    + intros d [->|?]%elem_of_cons; [left|by right]. split_and!; [by apply made_new|done|by eexists].
  - destruct (db_list catalog n) as [|d rest] eqn:En; [done|]. destruct (live (d :: rest)); [|done].
    destruct (payload d) as [dd|] eqn:Hdd; [|done]. destruct (live (table_list dd _)); [done|]. intros [= <-].
    apply grows_tables; [done..|]. intros e [->|[->|?]%ext_elem]%elem_of_cons; [left; by apply made_new|left; by apply made_dummy|by right].
  - destruct (db_list catalog n) as [|d rest] eqn:En; [done|]. destruct (live (d :: rest)); [|done].
    destruct (payload d) as [dd|] eqn:Hdd; [|done]. destruct (live (table_list dd _)); [|done]. intros [= <-].
    apply grows_tables; [done..|]. intros e [->|?]%elem_of_cons; [left; by apply made_new|by right].
Qed.

Lemma spec_kept a ad b b0 c t ts catalog catalog' :
  kept b0 catalog -> b0 <= ts + 1 -> a ∉ addrs catalog -> ad ∉ addrs catalog -> a <> ad -> 0 <= ts < UNCOMMIT_TS ->
  spec_exec a ad b c t ts catalog = Some catalog' ->
  kept (ts + 1) catalog' /\ forall p, p ∈ addrs catalog' -> p = a \/ p = ad \/ p ∈ addrs catalog.
Proof. intros Hk ? ? ? ? ? Hs. eapply grows_kept; [done|exact Hk|]. eapply spec_grows; [apply Hk|done..]. Qed.
End Norm.
