(* ===== verification/Recovery.v ===== *)
(** * Recovery of the catalog

    The replay of [Replay.v] as the target of [WalManager::ReplayWalFile], and the
    end-to-end statement: a restart rebuilds the catalog of a serial history of
    DDL transactions from the log directory it left. *)
From stdpp Require Import base list strings sorting.
From S2P Require Import Prelude Common BaseEntry Defs MetaSpec IndexMeta TableMeta DBMeta TxnContext TxnManager Wire WalEntry WalManager Durability Block Segment TxnStore Catalog Txn TxnProps Replay ReplayProps.

Local Open Scope Z_scope.

Definition with_next_txn_id {D} (catalog : NewCatalog D) (id : Z) : NewCatalog D :=
  mkNewCatalog (current_dir_ catalog) (databases_ catalog) id (catalog_version_ catalog).

Section Recovery.
Context {R : Type} `{HL : BlockCodecLaws (DataBlock R)}.
Context (gs : Z -> option TxnState) (load_rows : string -> Z -> list R) (append_fuel : nat) (index_dir dir : string).
Context (attach : list string -> outcome (ReplayState R)).
Abbreviation Cat := (NewCatalog (TxnStore.TableData R)).
Abbreviation Log := (list (WalEntry (DataBlock R))).
Implicit Types (catalog : NewCatalog (TxnStore.TableData R)) (s : ReplayState R) (es : list (WalEntry (DataBlock R))).

(** The state that [Storage::InitNewCatalog] sets up. *)
Definition init_state : ReplayState R := mkReplayState (InitCatalog dir true 1) 2.

(** [attach] reads the checkpoint files; a row replay that does not come to an
    end has no behaviour. *)
#[local] Instance replay_target : ReplayTarget (DataBlock R) (ReplayState R) := {
  InitNewCatalog := init_state;
  AttachCatalog := attach;
  ReplayEntry e s := default (UB "the replay does not return") (ReplayWalEntry gs load_rows append_fuel index_dir s e);
  SetNextTxnId id s := mkReplayState (with_next_txn_id (rs_catalog s) id) (rs_next s);
}.

(** Histories in which one transaction after the other begins, makes one DDL call
    and commits; with the catalog, a timestamp above all commits, and the log. *)
Inductive serial : Cat -> Z -> Log -> Prop :=
  | serial_init a : serial (InitCatalog dir true a) 1 []
  | serial_txn catalog b0 es fuel self t b ts gs a ad c catalog' es' :
      serial catalog b0 es -> b0 <= b <= ts -> ts < UNCOMMIT_TS ->
      a ∉ addrs catalog -> ad ∉ addrs catalog -> a <> ad ->
      (forall n ct, c = CallCreateDatabase n ct -> ct = kErrorConflict) ->
      run_txn fuel catalog self t b ts gs a ad c = Some (catalog', es') ->
      serial catalog' (ts + 1) (es ++ es').

Lemma replay_all_app es1 es2 s : replay_all (es1 ++ es2) s = (s' ← replay_all es1 s; replay_all es2 s').
Proof.
  revert s. induction es1 as [|e es1 IH]; intros s; simpl; [done|]. destruct (IsCheckPoint e); [by rewrite IH|].
  destruct (default _ _); simpl; by rewrite ?IH.
Qed.

Lemma init_kept a : kept 1 (InitCatalog (D := TxnStore.TableData R) dir true a) /\ addrs (InitCatalog (D := TxnStore.TableData R) dir true a) = [a].
Proof.
  unfold kept, committed_before, addrs, all_tables, all_dbs, InitCatalog. simpl. rewrite map_to_list_singleton. simpl.
  split_and!; [..|done].
  - apply Forall_singleton. split; [done|simpl; lia].
  - by apply Forall_nil.
  - apply Forall_singleton. intros _. by eexists.
  - apply NoDup_singleton.
Qed.

(** The states of the replay. *)
Definition replay_ok b s : Prop := kept b (rs_catalog s) /\ (forall p, p ∈ addrs (rs_catalog s) -> (p < rs_next s)%positive).

Lemma replay_ok_fresh b s : replay_ok b s -> (new_a s ∉ addrs (rs_catalog s)) /\ (new_ad s ∉ addrs (rs_catalog s)).
Proof. unfold new_a, new_ad. intros [_ Hlt]. split; intros Hp%Hlt; lia. Qed.

Lemma kept_before b b' catalog : b <= b' -> kept b catalog -> committed_before b' catalog.
Proof.
  intros Hb [(Hd & Ht & Hp) _]. split_and!; [eapply Forall_impl; [exact Hd|]|eapply Forall_impl; [exact Ht|]|done]; intros e; by apply old_weaken.
Qed.

(** One command, on a catalog that is the same up to addresses. *)
Lemma replay_step b0 b ts t c a ad catalog catalog' s :
  replay_ok b0 s -> b0 <= ts < UNCOMMIT_TS -> 0 <= ts -> norm (rs_catalog s) = norm catalog ->
  spec_exec a ad b c t ts catalog = Some catalog' ->
  exists s', ReplayCmd gs load_rows append_fuel index_dir s (call_cmd c) t ts = Some (Ret s') /\
    replay_ok (ts + 1) s' /\ norm (rs_catalog s') = norm catalog'.
Proof.
  intros Hs [Hb Hu] H0 Hn Hx. destruct (replay_ok_fresh _ _ Hs) as [Ha Had]. destruct Hs as [Hk Hlt].
  pose proof (spec_norm a ad b c t ts catalog) as E1. pose proof (spec_norm (new_a s) (new_ad s) ts c t ts (rs_catalog s)) as E2.
  rewrite Hn, <- E1, Hx in E2.
  destruct (spec_exec (new_a s) (new_ad s) ts c t ts (rs_catalog s)) as [k|] eqn:Ek; [|done]. apply (inj Some) in E2.
  exists (advance s k). destruct (fresh_addrs _ _ Ha) as [Hfd Hft].
  assert (new_a s <> new_ad s) as Hne by (unfold new_a, new_ad; lia).
  split; [|split; [|done]].
  - apply replay_spec; [exact (kept_before _ _ _ Hb Hk)|apply Hk|lia|done..].
  - destruct (spec_kept (new_a s) (new_ad s) ts b0 c t ts _ k Hk ltac:(lia) Ha Had Hne ltac:(lia) Ek) as [Hk' Hin]. split; [done|].
    intros p [->|[->|?%Hlt]]%Hin; unfold new_a, new_ad, advance; simpl; lia.
Qed.

Lemma call_not_checkpoint c e : cmds e = [call_cmd (R := R) c] -> IsCheckPoint e = false.
Proof. intros He. unfold IsCheckPoint. rewrite He. by destruct c. Qed.

(** The entries of the log: what they hold, and their order. *)
Lemma serial_log catalog b0 es :
  serial catalog b0 es ->
  kept b0 catalog /\ 1 <= b0 /\ Forall (fun e => 0 < commit_ts e < b0 /\ IsCheckPoint e = false) es /\ by_commit es.
Proof.
  induction 1 as [a|catalog b0 es fuel self t b ts gs' a ad c catalog' es' Hs (Hk & H1 & Hes & Hby) Hb Hu Ha Had Hne Hc Hrun].
  { destruct (init_kept a) as [Hk _]. split_and!; [done|done|by apply Forall_nil|constructor]. }
  destruct (fresh_addrs _ _ Ha) as [Hfd Hft].
  rewrite run_txn_spec in Hrun; [|exact (kept_before _ _ _ (proj1 Hb) Hk)|apply Hk|lia|done..]. unfold spec_result in Hrun.
  assert (Forall (fun e => 0 < commit_ts e < ts + 1 /\ IsCheckPoint e = false) es) as Hes'.
  { eapply Forall_impl; [exact Hes|]. intros e [? ?]. split; [lia|done]. }
  destruct (spec_exec a ad b c t ts catalog) as [k|] eqn:Ek; injection Hrun as <- <-.
  - split_and!; [by eapply spec_kept; [exact Hk|lia|..|exact Ek]; first [done|lia]|lia| |].
    + apply Forall_app_2; [done|]. apply Forall_singleton. split; [simpl; lia|by apply (call_not_checkpoint c)].
    + apply by_commit_app. split_and!; [done|repeat constructor|]. intros e1 e2 H1' ->%list_elem_of_singleton. simpl.
      rewrite Forall_forall in Hes. destruct (Hes e1 H1'). lia.
  - rewrite app_nil_r. split_and!; [|lia|done|done]. split; [|apply Hk]. eapply kept_before; [|exact Hk]. lia.
Qed.

Lemma serial_replay catalog b0 es rs :
  serial catalog b0 es -> Forall2 same_entry es rs ->
  exists s, replay_all rs init_state = Ret s /\ replay_ok b0 s /\ norm (rs_catalog s) = norm catalog.
Proof.
  intros Hs. revert rs.
  induction Hs as [a|catalog b0 es fuel self t b ts gs' a ad c catalog' es' Hs IH Hb Hu Ha Had Hne Hc Hrun]; intros rs HF.
  { apply Forall2_nil_inv_l in HF as ->. exists init_state. destruct (init_kept 1%positive) as [Hk Hin].
    split_and!; [done| |done]. split; [done|]. intros p. simpl. rewrite Hin. intros ->%list_elem_of_singleton. lia. }
  apply Forall2_app_inv_l in HF as (rs1 & rs2 & HF1 & HF2 & ->). destruct (IH rs1 HF1) as (s & E & Hok & Hn).
  destruct (serial_log _ _ _ Hs) as (Hk & H1 & _ & _). destruct (fresh_addrs _ _ Ha) as [Hfd Hft].
  rewrite run_txn_spec in Hrun; [|exact (kept_before _ _ _ (proj1 Hb) Hk)|apply Hk|lia|done..]. unfold spec_result in Hrun.
  rewrite replay_all_app, E. cbn [mbind outcome_bind].
  destruct (spec_exec a ad b c t ts catalog) as [k|] eqn:Ek; injection Hrun as <- <-.
  - destruct (replay_step b0 b ts t c a ad catalog k s Hok ltac:(lia) ltac:(lia) Hn Ek) as (s' & E' & Hok' & Hn').
    apply Forall2_cons_inv_l in HF2 as (r & rest & (Et & Ec & Ecmd) & ->%Forall2_nil_inv_l & ->).
    exists s'. split_and!; [|done|done]. cbn [replay_all]. rewrite (call_not_checkpoint c) by done.
    unfold ReplayEntry, replay_target, ReplayWalEntry. rewrite Et, Ec, Ecmd. simpl in *. by rewrite E'.
  - apply Forall2_nil_inv_l in HF2 as ->. exists s. split_and!; [done| |done]. destruct Hok as [Hk' Hlt].
    split; [|done]. split; [|apply Hk']. eapply kept_before; [|exact Hk']. lia.
Qed.

Lemma no_checkpoint_chain es : Forall (fun e => IsCheckPoint e = false) es -> ckp_chain es = [].
Proof.
  intros Hes. unfold ckp_chain, ckps. apply Forall_reverse in Hes. induction Hes as [|e l He _ IH]; [done|]. simpl. rewrite He. simpl.
  by rewrite filter_cons_False by congruence.
Qed.

Lemma last_of_same {A} (f : WalEntry (DataBlock R) -> A) d es rs :
  (forall e e', same_entry e e' -> f e' = f e) -> Forall2 same_entry es rs -> last_of f d rs = last_of f d es.
Proof.
  intros Hf HF. unfold last_of. apply Forall2_last in HF. by destruct HF as [e e' Hs|]; simpl; [apply Hf|].
Qed.

(** C2: Recovery from the log: after a serial history of DDL transactions, each one
    call that creates or drops a database or a table ([CREATE DATABASE IF NOT EXISTS]
    and the calls on indexes are not among them), [WalManager::ReplayWalFile] on the
    log directory it left, with a current log file that is not empty and no
    checkpoints, returns a catalog with the same databases and tables (the same
    version lists up to addresses and begin timestamps), the id of the last
    transaction and its commit timestamp. *)
Theorem recovery_restores_catalog catalog b0 m fs fuel :
  serial catalog b0 (written fs) -> dir_holds m fs -> wal_log m <> Some [] -> (length (written fs) < fuel)%nat ->
  exists s, ReplayWalFile fuel m = Some (Ret (s, last_of commit_ts 0 (written fs))) /\
    databases_ (norm (rs_catalog s)) = databases_ (norm catalog) /\
    catalog_next_txn_id_ (rs_catalog s) = last_of txn_id 0 (written fs).
Proof.
  intros Hs Hd Hne Hf. pose proof (dir_same m fs Hd) as HF. destruct (serial_log _ _ _ Hs) as (_ & _ & Hes & Hby).
  assert (Forall (fun e => 0 < commit_ts e /\ IsCheckPoint e = false) (as_read fs)) as Hrs.
  { apply Forall_forall. intros e' He'. destruct (elem_same_r _ _ e' HF He') as (e & He & _ & Ec & Ecmd).
    rewrite Forall_forall in Hes. destruct (Hes e He) as [? Hck]. unfold IsCheckPoint in *. rewrite Ec, Ecmd. split; [lia|done]. }
  assert (by_commit (as_read fs)) as Hby'.
  { unfold by_commit in *. by destruct (same_keys _ _ HF) as (<- & _). }
  rewrite (ReplayWalFile_spec m fs fuel Hd Hby' Hne) by (by rewrite <- (Forall2_length _ _ _ HF)).
  assert (ckp_chain (as_read fs) = []) as Hch by (apply no_checkpoint_chain; eapply Forall_impl; [exact Hrs|]; by intros ? [_ ?]).
  assert (uncovered (as_read fs) = as_read fs) as Hun.
  { unfold uncovered, covered_ts. rewrite Hch. simpl. clear -Hrs. induction Hrs as [|e l [He _] _ IH]; [done|].
    by rewrite filter_cons_True, IH. }
  destruct (serial_replay _ _ _ _ Hs HF) as (s & E & _ & Hn).
  unfold recovered. rewrite Hch, Hun. simpl. rewrite E. cbn [mbind outcome_bind].
  rewrite (last_of_same commit_ts 0 _ _) by (done || by intros ? ? (_ & ? & _)).
  rewrite (last_of_same txn_id 0 _ _) by (done || by intros ? ? (? & _)).
  eexists. split; [done|]. split; [|done]. exact (f_equal databases_ Hn).
Qed.

(** A transaction that creates a database and a table in it makes the log
    unusable: the replay reads with the commit timestamp of the entry and does
    not see the database the entry itself has just created, so
    [WalCmdCreateTableReplay] throws and the system does not start. *)
Theorem replay_create_then_use_throws s n td rest sz cs t ts :
  replay_ok ts s -> ts < UNCOMMIT_TS -> live (db_list (rs_catalog s) n) = false ->
  ReplayWalEntry gs load_rows append_fuel index_dir s (mkWalEntry sz cs t ts (WalCmdCreateDatabase n :: WalCmdCreateTable n td :: rest))
    = Some (Throw StorageException "Wal Replay: Get database failed").
Proof.
  intros Hs Hts Hl. destruct (replay_ok_fresh _ _ Hs) as [Ha _]. destruct Hs as [[Hb Hnd] _], (fresh_addrs _ _ Ha) as [Hfd Hft].
  unfold ReplayWalEntry. cbn [cmds WalEntry.txn_id WalEntry.commit_ts ReplayCmds].
  change (WalCmdCreateDatabase n) with (call_cmd (R := R) (CallCreateDatabase n kErrorConflict)).
  erewrite replay_spec; [|exact Hb|exact Hnd|lia|exact Hfd|exact Hft|simpl; rewrite Hl; reflexivity].
  cbn [ReplayCmd]. unfold WalCmdCreateTableReplay, ReplayGetDatabase, GetDatabase, advance. cbn [rs_catalog set_dbs databases_ with_databases].
  rewrite lookup_insert_eq. unfold DBMeta.GetEntry, DBMeta.with_entries. cbn [db_entry_list_].
  pose proof (old_db_list ts (rs_catalog s) n Hb) as Ho. rewrite db_meta_list in Ho. simpl. rewrite Z.gtb_ltb, Z.ltb_irrefl.
  assert (forall e : Entry (DBData (TableCollectionMeta (TxnStore.TableData R))), Committed (Commit ts e) = true) as Hc.
  { intros e. unfold Committed. simpl. apply negb_true_iff, Z.eqb_neq. lia. }
  rewrite Hc. destruct (db_list (rs_catalog s) n) as [|h l]; [done|]. simpl in *.
  apply Forall_cons in Ho as [Hh _]. rewrite (gtb_old ts h Hh). destruct Hh as [-> _].
  by destruct (is_dummy h), (BaseEntry.deleted_ h).
Qed.
End Recovery.

(** ** Examples *)

(** Blocks of rows that are bytes. *)
Definition rows_block (rows : list Z) : DataBlock Z := mkDataBlock [] rows (Z.of_nat (length rows)) (Z.of_nat (length rows)) true.

#[local] Instance rows_codec : BlockCodec (DataBlock Z) := {
  block_size b := Ret (4 + Z.of_nat (length (block_rows b)));
  block_write b := Ret (le_bytes 4 (Z.of_nat (length (block_rows b))) ++ block_rows b);
  block_read _ := n ← read_u 4; rows ← read_bytes (Z.to_nat n); mret (rows_block rows);
  block_valid b := b = rows_block (block_rows b) /\ Forall is_byte (block_rows b) /\ Z.of_nat (length (block_rows b)) < 2 ^ 31;
}.

#[local] Opaque le_bytes.

#[local] Instance rows_codec_laws : BlockCodecLaws (DataBlock Z).
Proof.
  split.
  - intros b (_ & Hb & _). eexists. split; [done|]. by apply Forall_app_2; [apply le_bytes_are_bytes|].
  - intros b w _ [= <-]. cbn [block_size rows_codec]. by rewrite length_app, le_bytes_length, Nat2Z.inj_add.
  - intros b w maxbytes rest (Eb & _ & Hl) [= <-] _. cbn [block_read rows_codec]. rewrite <- app_assoc.
    erewrite bind_ret; [|apply read_u_back; unfold u_range; change (8 * Z.of_nat 4) with 32; lia].
    rewrite Nat2Z.id. erewrite bind_ret; [|by apply read_bytes_app]. by rewrite <- Eb.
Qed.

Definition no_txns : Z -> option TxnState := fun _ => None.
Definition no_files : string -> Z -> list Z := fun _ _ => [].
Definition no_checkpoints : list string -> outcome (ReplayState Z) := fun _ => Throw StorageException "no checkpoint".

(** Three transactions: a new database, a table in it, and the end of the default
    database. *)
Definition sample_calls : list ddl_call :=
  [CallCreateDatabase "d" kErrorConflict; CallCreateTable "d" sample_table_def; CallDropDatabase "default"].

Fixpoint sample_history (i : Z) (p : ptr) (cs : list ddl_call) (catalog : NewCatalog (TxnStore.TableData Z))
    : NewCatalog (TxnStore.TableData Z) * list (WalEntry (DataBlock Z)) :=
  match cs with
  | [] => (catalog, [])
  | c :: cs =>
      match run_txn 5 catalog 1 i (10 * i) (10 * i + 1) no_txns p (Pos.succ p) c with
      | Some (catalog', es) => let '(catalog'', es') := sample_history (i + 1) (p + 2) cs catalog' in (catalog'', es ++ es')
      | None => (catalog, [])
      end
  end.

Definition history_of (n : nat) : NewCatalog (TxnStore.TableData Z) * list (WalEntry (DataBlock Z)) :=
  sample_history 1 10 (take n sample_calls) sample_catalog.

Lemma history_serial : exists b0, serial (R := Z) "/var/infinity/catalog" (history_of 3).1 b0 (history_of 3).2.
Proof.
  assert (serial (R := Z) "/var/infinity/catalog" (history_of 0).1 1 (history_of 0).2) as H0 by apply serial_init.
  assert (serial (R := Z) "/var/infinity/catalog" (history_of 1).1 12 (history_of 1).2) as H1.
  { refine (serial_txn _ (history_of 0).1 1 (history_of 0).2 5 1 1 10 11 no_txns 10 11 (CallCreateDatabase "d" kErrorConflict) _ (drop 0 (history_of 1).2)
      H0 _ _ _ _ _ _ _); [lia|done|by_compute|by_compute|done|by intros ? ? [= _ <-]|vm_compute; reflexivity]. }
  assert (serial (R := Z) "/var/infinity/catalog" (history_of 2).1 22 (history_of 2).2) as H2.
  { refine (serial_txn _ (history_of 1).1 12 (history_of 1).2 5 1 2 20 21 no_txns 12 13 (CallCreateTable "d" sample_table_def) _ (drop 1 (history_of 2).2)
      H1 _ _ _ _ _ _ _); [lia|done|by_compute|by_compute|done|done|vm_compute; reflexivity]. }
  exists 32.
  refine (serial_txn _ (history_of 2).1 22 (history_of 2).2 5 1 3 30 31 no_txns 14 15 (CallDropDatabase "default") _ (drop 2 (history_of 3).2)
    H2 _ _ _ _ _ _ _); [lia|done|by_compute|by_compute|done|done|vm_compute; reflexivity].
Qed.

(** The bytes of the log of [history_of 3], in one file. *)
Definition entry_bytes (e : WalEntry (DataBlock Z)) : list Z := match WalEntry_WriteAdv e with Ret w => w | _ => [] end.

Definition history_dir : list (list Z * list (WalEntry (DataBlock Z)) * list (WalEntry (DataBlock Z))) :=
  let es := (history_of 3).2 in [(concat (entry_bytes <$> es), es, on_disk es (entry_bytes <$> es))].

Definition history_wal : WalManager (DataBlock Z) :=
  mkWalManager (mkWalConfig 1000000 0 0 1000000) false [] [] (Some (concat (entry_bytes <$> (history_of 3).2))) [] 31 0 (mkCkpState 0 0 0 0 0).

Lemma history_encodes : Forall (fun e => encodes e (entry_bytes e)) (history_of 3).2.
Proof.
  assert ((history_of 3).2 = [mkWalEntry 0 0 1 11 [WalCmdCreateDatabase "d"]; mkWalEntry 0 0 2 21 [WalCmdCreateTable "d" sample_table_def];
    mkWalEntry 0 0 3 31 [WalCmdDropDatabase "default"]]) as -> by (vm_compute; reflexivity).
  repeat (apply Forall_cons; split); [..|by apply Forall_nil];
    (split_and!; [unfold valid_entry; solve_valid; try apply sample_table_valid|reflexivity|vm_compute; reflexivity]).
Qed.

Lemma recovery_restores_catalog_witness :
  exists s, ReplayWalFile (H0 := replay_target no_txns no_files 5 "idx" "/var/infinity/catalog" no_checkpoints) 4 history_wal
    = Some (Ret (s, 31)) /\ databases_ (norm (rs_catalog s)) = databases_ (norm (history_of 3).1) /\ catalog_next_txn_id_ (rs_catalog s) = 3.
Proof.
  destruct history_serial as [b0 Hs].
  destruct (recovery_restores_catalog no_txns no_files 5 "idx" "/var/infinity/catalog" no_checkpoints (history_of 3).1 b0 history_wal history_dir 4)
    as (s & Hr & Hd & Hn).
  - exact Hs.
  - eexists. split; [reflexivity|]. split; [reflexivity|]. constructor; [|constructor].
    exists (entry_bytes <$> (history_of 3).2). split_and!; [|reflexivity|reflexivity]. apply Forall2_fmap_r, Forall_Forall2_diag, history_encodes.
  - vm_compute. discriminate.
  - vm_compute. lia.
  - exists s. exact (conj Hr (conj Hd Hn)).
Defined.

(** What replaying the commands of [sample_txn] gives after the calls [cs]. *)
Definition replay_sample (cs : list (ptr * ptr * ddl_call)) : outcome (option (outcome (ReplayState Z))) :=
  '(_, txn) ← run_calls sample_catalog sample_txn cs;
  Ret (ReplayWalEntry no_txns no_files 5 "idx" (init_state "/var/infinity/catalog") (mkWalEntry 0 0 7 20 (wal_cmds_ txn))).

(** [CREATE DATABASE IF NOT EXISTS] of an existing database hands out its
    entry.  The commit stamps that entry again, so a transaction that began before
    no longer sees the database; the call is logged as well, and the replay,
    which creates with [kErrorConflict], throws on it. *)
Theorem create_ignored_restamps :
  let cs := [(4, 5, CallCreateDatabase "default" kIgnore)]%positive in
  (GetDatabase sample_catalog "default" 8 15).1 = kOk /\
  match run_commit cs with Ret catalog => (GetDatabase catalog "default" 8 15).1 = kNotFound | _ => False end /\
  replay_sample cs = Ret (Some (Throw StorageException "Wal Replay: Create database failed")).
Proof. vm_compute. split_and!; reflexivity. Qed.

Lemma replay_create_then_use_throws_witness :
  match run_commit [create_d; create_t1] with Ret _ => True | _ => False end /\
  replay_sample [create_d; create_t1] = Ret (Some (Throw StorageException "Wal Replay: Get database failed")).
Proof.
  split; [vm_compute; exact I|].
  transitivity (Ret (ReplayWalEntry no_txns no_files 5 "idx" (init_state "/var/infinity/catalog")
    (mkWalEntry 0 0 7 20 [WalCmdCreateDatabase "d"; WalCmdCreateTable "d" sample_td]))); [vm_compute; reflexivity|].
  refine (f_equal Ret _). apply (replay_create_then_use_throws no_txns no_files 5 "idx" (init_state "/var/infinity/catalog") "d" sample_td [] 0 0 7 20).
  - destruct (init_kept (R := Z) "/var/infinity/catalog" 1) as [Hk Ha]. split.
    + split; [apply (kept_before 1); [lia|exact Hk]|apply Hk].
    + cbn [init_state rs_catalog rs_next]. rewrite Ha. intros p ->%list_elem_of_singleton. lia.
  - reflexivity.
  - reflexivity.
Defined.
