(* ===== verification/Io.v ===== *)
(** * Files

    The local file system and the buffered writer and reader on top of it:
    [storage/io/local_file_system.cpp], [storage/io/file_writer.cpp],
    [storage/io/file_reader.cpp].

    The state is the contents of the regular files by path.  Directories are
    not tracked (the callers create the directory of a file before the file),
    the advisory locks of one process never conflict, and the disk does not
    fail: [read] and [write] transfer as many bytes as the file allows. *)
From S2P Require Import Prelude.

Local Open Scope Z_scope.

Abbreviation Files := (gmap string (list Z)).

(** ** [FileFlags] *)
Definition READ_FLAG : Z := 1.
Definition WRITE_FLAG : Z := 2.
Definition DIRECT_IO : Z := 4.
Definition CREATE_FLAG : Z := 8.
Definition TRUNCATE_CREATE : Z := 16.
Definition APPEND_FLAG : Z := 32.

Definition has_flag (flags f : Z) : bool := negb (Z.land flags f =? 0).

(** [LocalFileHandler] with the state that the kernel keeps for its descriptor;
    [fd_open] is false once [fd_] is -1. *)
Record FileHandler := mkFileHandler {
  path_ : string;
  fd_open : bool;
  can_read : bool;
  can_write : bool;
  appends : bool;
  file_pos : nat;
}.

Definition at_pos (h : FileHandler) (pos : nat) : FileHandler :=
  mkFileHandler (path_ h) (fd_open h) (can_read h) (can_write h) (appends h) pos.

(** ** [LocalFileSystem] *)
Section LocalFileSystem.
Implicit Types (fs : gmap string (list Z)) (h : FileHandler).

(** [LocalFileSystem::OpenFile] *)
Definition OpenFile fs (path : string) (flags : Z) : outcome (FileHandler * Files) :=
  let read_flag := has_flag flags READ_FLAG in
  let write_flag := has_flag flags WRITE_FLAG in
  if negb (read_flag || write_flag) then Throw StorageException "Please specify a read or write flag on file open"
  else
    let creat := (write_flag && (has_flag flags CREATE_FLAG || has_flag flags TRUNCATE_CREATE))%bool in
    let trunc := (write_flag && negb (has_flag flags CREATE_FLAG) && has_flag flags TRUNCATE_CREATE)%bool in
    let h := mkFileHandler path true read_flag write_flag (write_flag && has_flag flags APPEND_FLAG) 0 in
    match fs !! path with
    | None => if creat then Ret (h, <[path := []]> fs) else Throw StorageException "Can't open file"
    | Some _ => Ret (h, if trunc then <[path := []]> fs else fs)
    end.

(** [LocalFileSystem::Close] *)
Definition Close h : outcome FileHandler :=
  if fd_open h then Ret (mkFileHandler (path_ h) false (can_read h) (can_write h) (appends h) (file_pos h))
  else Throw StorageException "Can't close file".

(** [LocalFileSystem::Rename] *)
Definition Rename fs (old_path new_path : string) : outcome Files :=
  match fs !! old_path with
  | None => Throw StorageException "Can't rename file"
  | Some bytes => Ret (<[new_path := bytes]> (delete old_path fs))
  end.

(** [LocalFileSystem::Read]: the bytes put into the buffer. *)
Definition Read fs h (nbytes : nat) : outcome (list Z * FileHandler) :=
  if negb (fd_open h && can_read h) then Throw StorageException "Can't read file"
  else match fs !! path_ h with
       | None => UB "the open file has no name any more"
       | Some bytes => let got := take nbytes (drop (file_pos h) bytes) in Ret (got, at_pos h (file_pos h + length got))
       end.

(** Bytes written at a position; a gap is filled with zeros. *)
Definition write_at (bytes : list Z) (pos : nat) (data : list Z) : list Z :=
  take pos bytes ++ replicate (pos - length bytes) 0 ++ data ++ drop (pos + length data) bytes.

(** [LocalFileSystem::Write]: all of [data] is written. *)
Definition Write fs h (data : list Z) : outcome (Files * FileHandler) :=
  if negb (fd_open h && can_write h) then Throw StorageException "Can't write file"
  else match fs !! path_ h with
       | None => UB "the open file has no name any more"
       | Some bytes =>
           let pos := if appends h then length bytes else file_pos h in
           Ret (<[path_ h := write_at bytes pos data]> fs, at_pos h (pos + length data))
       end.

(** [LocalFileSystem::Seek]: [lseek] returns the new position, and everything
    but 0 is taken for an error. *)
Definition Seek h (pos : Z) : outcome FileHandler :=
  if negb (fd_open h) || (pos <? 0) then Throw StorageException "Can't seek file"
  else if negb (pos =? 0) then Throw StorageException "Can't seek file"
  else Ret (at_pos h 0).

(** [LocalFileSystem::GetFileSize]; -1 converted to [SizeT] on error. *)
Definition GetFileSize fs h : Z :=
  if fd_open h then match fs !! path_ h with Some bytes => Z.of_nat (length bytes) | None => 0 end else to_u64 (-1).

(** [LocalFileSystem::DeleteFile] *)
Definition DeleteFile fs (path : string) : outcome Files :=
  match fs !! path with
  | None => Throw StorageException "Can't delete file"
  | Some _ => Ret (delete path fs)
  end.

(** [LocalFileSystem::Exists] on files *)
Definition Exists fs (path : string) : bool := bool_decide (is_Some (fs !! path)).
End LocalFileSystem.

(** ** [FileWriter] *)

(** [w_data] are the first [offset_] bytes of the buffer. *)
Record FileWriter := mkFileWriter {
  w_handler : FileHandler;
  w_data : list Z;
  total_written_ : nat;
  w_buffer_size_ : nat;
}.

Section FileWriter.
Implicit Types (fs : gmap string (list Z)) (w : FileWriter).

Definition with_data w (d : list Z) : FileWriter := mkFileWriter (w_handler w) d (total_written_ w) (w_buffer_size_ w).

(** [FileWriter::FileWriter] *)
Definition NewFileWriter fs (path : string) (buffer_size : nat) (flags : Z) : outcome (Files * FileWriter) :=
  '(h, fs) ← OpenFile fs path flags; Ret (fs, mkFileWriter h [] 0 buffer_size).

(** [FileWriter::Flush] *)
Definition Flush fs w : outcome (Files * FileWriter) :=
  if bool_decide (length (w_data w) = 0%nat) then Ret (fs, w)
  else
    '(fs, h) ← Write fs (w_handler w) (w_data w);
    Ret (fs, mkFileWriter h [] (total_written_ w + length (w_data w)) (w_buffer_size_ w)).

(** [FileWriter::WriteByte] *)
Definition WriteByte fs w (b : Z) : outcome (Files * FileWriter) :=
  '(fs, w) ← (if bool_decide (length (w_data w) = w_buffer_size_ w) then Flush fs w else Ret (fs, w));
  if bool_decide (length (w_data w) < w_buffer_size_ w)%nat then Ret (fs, with_data w (w_data w ++ [to_u8 b]))
  else UB "data_ index out of range".

(** [FileWriter::WriteShort] *)
Definition WriteShort fs w (i : Z) : outcome (Files * FileWriter) :=
  '(fs, w) ← WriteByte fs w (Z.shiftr i 8); WriteByte fs w i.

(** [FileWriter::WriteInt] *)
Definition WriteInt fs w (i : Z) : outcome (Files * FileWriter) :=
  '(fs, w) ← WriteByte fs w (Z.shiftr i 24);
  '(fs, w) ← WriteByte fs w (Z.shiftr i 16);
  '(fs, w) ← WriteByte fs w (Z.shiftr i 8);
  WriteByte fs w i.

(** The loop of [FileWriter::WriteVInt] and [FileWriter::WriteVLong] *)
Fixpoint WriteVLoop (fuel : nat) fs w (i : Z) : option (outcome (Files * FileWriter)) :=
  match fuel with
  | O => None
  | S fuel' =>
      if negb (Z.land i (Z.lnot 127) =? 0) then
        match WriteByte fs w (Z.lor (Z.land i 127) 128) with
        | Ret (fs, w) => WriteVLoop fuel' fs w (Z.shiftr i 7)
        | Throw e msg => Some (Throw e msg)
        | UB why => Some (UB why)
        end
      else Some (WriteByte fs w i)
  end.

Definition WriteVInt (fuel : nat) fs w (vi : Z) : option (outcome (Files * FileWriter)) := WriteVLoop fuel fs w (to_u32 vi).
Definition WriteVLong (fuel : nat) fs w (vi : Z) : option (outcome (Files * FileWriter)) := WriteVLoop fuel fs w (to_u64 vi).

(** [FileWriter::WriteLong] *)
Definition WriteLong fs w (i : Z) : outcome (Files * FileWriter) :=
  '(fs, w) ← WriteInt fs w (to_i32 (Z.shiftr i 32)); WriteInt fs w (to_i32 i).

(** [FileWriter::Write]; [bytes] are those from [start_pos] to [end_pos]. *)
Fixpoint WriteBytes (fuel : nat) fs w (bytes : list Z) : option (outcome (Files * FileWriter)) :=
  match fuel with
  | O => None
  | S fuel' =>
      match bytes with
      | [] => Some (Ret (fs, w))
      | _ =>
          let to_write := Nat.min (length bytes) (w_buffer_size_ w - length (w_data w)) in
          let w := with_data w (w_data w ++ take to_write bytes) in
          match (if bool_decide (length (w_data w) = w_buffer_size_ w) then Flush fs w else Ret (fs, w)) with
          | Ret (fs, w) => WriteBytes fuel' fs w (drop to_write bytes)
          | Throw e msg => Some (Throw e msg)
          | UB why => Some (UB why)
          end
      end
  end.

(** [FileWriter::Sync] *)
Definition Sync fs w : outcome (Files * FileWriter) := Flush fs w.

(** [FileWriter::GetFileSize] *)
Definition WriterFileSize fs w : Z := to_i64 (GetFileSize fs (w_handler w) + Z.of_nat (length (w_data w))).

(** [FileWriter::TotalWrittenBytes] *)
Definition TotalWrittenBytes w : nat := total_written_ w + length (w_data w).
End FileWriter.

(** ** [FileReader] *)

(** [r_data] is the buffer, always of [r_buffer_size_] bytes. *)
Record FileReader := mkFileReader {
  r_handler : FileHandler;
  r_data : list Z;
  buffer_offset_ : nat;
  already_read_size_ : nat;
  buffer_start_ : nat;
  r_buffer_size_ : nat;
  r_file_size_ : Z;
}.

Section FileReader.
Implicit Types (fs : gmap string (list Z)) (r : FileReader).

(** [FileReader::FileReader] *)
Definition NewFileReader fs (path : string) (buffer_size : nat) : outcome (Files * FileReader) :=
  '(h, fs) ← OpenFile fs path READ_FLAG;
  Ret (fs, mkFileReader h (replicate buffer_size 0) 0 0 0 buffer_size (GetFileSize fs h)).

Definition with_offset r (off : nat) : FileReader :=
  mkFileReader (r_handler r) (r_data r) off (already_read_size_ r) (buffer_start_ r) (r_buffer_size_ r) (r_file_size_ r).

(** A new buffer is read; the bytes after it stay. *)
Definition Refill fs r (start : nat) : outcome FileReader :=
  '(got, h) ← Read fs (r_handler r) (r_buffer_size_ r);
  if bool_decide (length got = 0%nat) then Throw StorageException "No enough data from file"
  else Ret (mkFileReader h (got ++ drop (length got) (r_data r)) 0 (length got) start (r_buffer_size_ r) (r_file_size_ r)).

(** [FileReader::ReadByte] *)
Definition ReadByte fs r : outcome (Z * FileReader) :=
  r ← (if bool_decide (r_buffer_size_ r <= buffer_offset_ r)%nat then
         r' ← Refill fs r 0;
         Ret (mkFileReader (r_handler r') (r_data r') 0 (already_read_size_ r') (buffer_start_ r + already_read_size_ r')
                (r_buffer_size_ r) (r_file_size_ r))
       else Ret r);
  match r_data r !! buffer_offset_ r with
  | Some b => Ret (b, with_offset r (S (buffer_offset_ r)))
  | None => UB "data_ index out of range"
  end.

(** [FileReader::ReadShort] *)
Definition ReadShort fs r : outcome (Z * FileReader) :=
  '(b1, r) ← ReadByte fs r; '(b2, r) ← ReadByte fs r;
  Ret (to_i16 (Z.lor (Z.shiftl b1 8) b2), r).

(** [FileReader::ReadInt] *)
Definition ReadInt fs r : outcome (Z * FileReader) :=
  '(b1, r) ← ReadByte fs r; '(b2, r) ← ReadByte fs r; '(b3, r) ← ReadByte fs r; '(b4, r) ← ReadByte fs r;
  Ret (to_i32 (Z.lor (Z.lor (Z.lor (Z.shiftl b1 24) (Z.shiftl b2 16)) (Z.shiftl b3 8)) b4), r).

(** [FileReader::ReadLong] *)
Definition ReadLong fs r : outcome (Z * FileReader) :=
  '(hi, r) ← ReadInt fs r; '(lo, r) ← ReadInt fs r;
  Ret (to_i64 (Z.lor (Z.shiftl hi 32) (Z.land lo (2 ^ 32 - 1))), r).

(** The loop of [FileReader::ReadVInt] ([w] is 32) and of [FileReader::ReadVLong]
    (64); a shift by the width or more is undefined. *)
Fixpoint ReadVLoop (fuel : nat) (w : Z) fs r (b i shift : Z) : option (outcome (Z * FileReader)) :=
  match fuel with
  | O => None
  | S fuel' =>
      if Z.land b 128 =? 0 then Some (Ret (i, r))
      else match ReadByte fs r with
           | Ret (b, r) =>
               if w <=? shift then Some (UB "shift out of range")
               else ReadVLoop fuel' w fs r b (s_wrap w (Z.lor i (Z.shiftl (Z.land b 127) shift))) (shift + 7)
           | Throw e msg => Some (Throw e msg)
           | UB why => Some (UB why)
           end
  end.

Definition ReadV (fuel : nat) (w : Z) fs r : option (outcome (Z * FileReader)) :=
  match ReadByte fs r with
  | Ret (b, r) => ReadVLoop fuel w fs r b (Z.land b 127) 7
  | Throw e msg => Some (Throw e msg)
  | UB why => Some (UB why)
  end.

Definition ReadVInt (fuel : nat) := ReadV fuel 32.
Definition ReadVLong (fuel : nat) := ReadV fuel 64.

(** The loop of [FileReader::Read]; [pos] is [start_pos - buffer], and [out] the
    caller's memory: every copy goes to its begin. *)
Fixpoint ReadBytes (fuel : nat) fs r (read_size pos : nat) (out : list Z) : option (outcome (list Z * FileReader)) :=
  match fuel with
  | O => None
  | S fuel' =>
      let to_read := Nat.min read_size (already_read_size_ r - buffer_offset_ r) in
      let out := take to_read (drop (buffer_offset_ r) (r_data r)) ++ drop to_read out in
      let r := with_offset r (buffer_offset_ r + to_read) in
      let pos := (pos + to_read)%nat in
      if bool_decide (pos < read_size)%nat then
        if negb (bool_decide (buffer_offset_ r = already_read_size_ r)) then Some (Throw StorageException "Error file read size")
        else
          match Refill fs r (buffer_start_ r + already_read_size_ r) with
          | Ret r => ReadBytes fuel' fs r read_size pos out
          | Throw e msg => Some (Throw e msg)
          | UB why => Some (UB why)
          end
      else Some (Ret (out, r))
  end.

(** [FileReader::Read] into memory that holds [out]. *)
Definition ReadInto (fuel : nat) fs r (out : list Z) : option (outcome (list Z * FileReader)) := ReadBytes fuel fs r (length out) 0 out.

(** [FileReader::Finished] *)
Definition Finished r : bool := Z.of_nat (buffer_start_ r + buffer_offset_ r) =? r_file_size_ r.

(** [FileReader::GetFilePointer] *)
Definition GetFilePointer r : nat := buffer_start_ r + buffer_offset_ r.

(** [FileReader::Seek] *)
Definition ReaderSeek r (pos : nat) : outcome FileReader :=
  if bool_decide (buffer_start_ r <= pos < buffer_start_ r + r_buffer_size_ r)%nat then Ret (with_offset r (pos - buffer_start_ r))
  else
    h ← Seek (r_handler r) (Z.of_nat pos);
    Ret (mkFileReader h (r_data r) 0 0 pos (r_buffer_size_ r) (r_file_size_ r)).
End FileReader.

(** ** What the writer does *)

(** The calls of a writer and the bytes they stand for. *)
Inductive write_op :=
  | OpByte (b : Z)
  | OpShort (i : Z)
  | OpInt (i : Z)
  | OpLong (i : Z)
  | OpVInt (i : Z)
  | OpVLong (i : Z)
  | OpBytes (bytes : list Z)
  | OpFlush.

Fixpoint be_bytes (n : nat) (i : Z) : list Z :=
  match n with O => [] | S n' => to_u8 (Z.shiftr i (8 * Z.of_nat n')) :: be_bytes n' i end.

(** Seven bits per byte, the lowest first; the top bit says that more follow. *)
Fixpoint v_bytes (n : nat) (i : Z) : list Z :=
  match n with
  | O => [i]
  | S n' => if i <? 128 then [i] else (i mod 128 + 128) :: v_bytes n' (i / 128)
  end.

Definition op_bytes (op : write_op) : list Z :=
  match op with
  | OpByte b => [to_u8 b]
  | OpShort i => be_bytes 2 i
  | OpInt i => be_bytes 4 i
  | OpLong i => be_bytes 8 i
  | OpVInt i => v_bytes 5 (to_u32 i)
  | OpVLong i => v_bytes 10 (to_u64 i)
  | OpBytes bytes => bytes
  | OpFlush => []
  end.

Definition exec_op (fuel : nat) (fs : Files) (w : FileWriter) (op : write_op) : option (outcome (Files * FileWriter)) :=
  match op with
  | OpByte b => Some (WriteByte fs w b)
  | OpShort i => Some (WriteShort fs w i)
  | OpInt i => Some (WriteInt fs w i)
  | OpLong i => Some (WriteLong fs w i)
  | OpVInt i => WriteVInt fuel fs w i
  | OpVLong i => WriteVLong fuel fs w i
  | OpBytes bytes => WriteBytes fuel fs w bytes
  | OpFlush => Some (Flush fs w)
  end.

Fixpoint exec_ops (fuel : nat) (fs : Files) (w : FileWriter) (ops : list write_op) : option (outcome (Files * FileWriter)) :=
  match ops with
  | [] => Some (Ret (fs, w))
  | op :: ops =>
      match exec_op fuel fs w op with
      | Some (Ret (fs, w)) => exec_ops fuel fs w ops
      | r => r
      end
  end.

(** The writer has been given [bytes]: a prefix is in the file, the rest in the
    buffer, which never overflows; other files are those of [fs0]. *)
Record writes (fs0 : Files) (path : string) (size : nat) (bytes : list Z) (fs : Files) (w : FileWriter) : Prop := {
  ws_path : path_ (w_handler w) = path;
  ws_open : fd_open (w_handler w) = true /\ can_write (w_handler w) = true /\ appends (w_handler w) = false;
  ws_size : w_buffer_size_ w = size;
  ws_room : (length (w_data w) <= size)%nat;
  ws_disk : exists disk, fs = <[path := disk]> fs0 /\ bytes = disk ++ w_data w /\
    file_pos (w_handler w) = length disk /\ total_written_ w = length disk;
}.

Lemma s_wrap_shift n z : 1 <= n -> exists m, s_wrap n z = z + m * 2 ^ n.
Proof.
  intros Hn. unfold s_wrap. exists (- ((z + 2 ^ (n - 1)) / 2 ^ n)).
  pose proof (Z.div_mod (z + 2 ^ (n - 1)) (2 ^ n) ltac:(lia)). lia.
Qed.

Section Writer.
Context (fs0 : Files) (path : string) (size : nat) (Hsize : (0 < size)%nat).
Implicit Types (fs : Files) (w : FileWriter) (bytes : list Z).

Lemma write_at_end bytes data : write_at bytes (length bytes) data = bytes ++ data.
Proof.
  unfold write_at. rewrite firstn_all, Nat.sub_diag. simpl. by rewrite drop_ge, app_nil_r by lia.
Qed.

Lemma FileFlush_writes bytes fs w :
  writes fs0 path size bytes fs w ->
  exists fs' w', Flush fs w = Ret (fs', w') /\ writes fs0 path size bytes fs' w' /\ w_data w' = [].
Proof.
  intros [Hp (Ho & Hw & Ha) Hs Hr (disk & -> & -> & Hpos & Ht)]. unfold Flush. case_bool_decide as Hl.
  - exists (<[path := disk]> fs0), w. split; [done|]. split; [|by destruct (w_data w)].
    split; [done..|by exists disk].
  - unfold Write. rewrite Ho, Hw, Hp, lookup_insert_eq, Ha, Hpos, write_at_end. simpl. eexists _, _. split; [done|]. split; [|done].
    split; simpl; [done|done|done|lia|]. exists (disk ++ w_data w).
    by rewrite insert_insert_eq, app_nil_r, length_app, Ht.
Qed.

Lemma WriteByte_writes bytes fs w b :
  writes fs0 path size bytes fs w ->
  exists fs' w', WriteByte fs w b = Ret (fs', w') /\ writes fs0 path size (bytes ++ [to_u8 b]) fs' w'.
Proof.
  intros H. unfold WriteByte.
  assert (exists fs1 w1, (if bool_decide (length (w_data w) = w_buffer_size_ w) then Flush fs w else Ret (fs, w)) = Ret (fs1, w1) /\
    writes fs0 path size bytes fs1 w1 /\ (length (w_data w1) < size)%nat) as (fs1 & w1 & -> & H1 & Hlt).
  { rewrite (ws_size _ _ _ _ _ _ H). case_bool_decide as Hl.
    - destruct (FileFlush_writes _ _ _ H) as (fs1 & w1 & E & H1 & Hd). exists fs1, w1. by rewrite Hd.
    - exists fs, w. pose proof (ws_room _ _ _ _ _ _ H). split_and!; [done|done|lia]. }
  cbn [mbind outcome_bind]. rewrite (ws_size _ _ _ _ _ _ H1), bool_decide_true by done. eexists _, _. split; [done|].
  destruct H1 as [Hp Ho Hs Hr (disk & -> & -> & Hpos & Ht)].
  split; simpl; [done|done|done|rewrite length_app; simpl; lia|]. exists disk. by rewrite app_assoc.
Qed.

(** Two calls in a row. *)
Lemma writes_bind bytes b1 b2 (m1 : outcome (Files * FileWriter)) (m2 : Files * FileWriter -> outcome (Files * FileWriter)) :
  (exists fs w, m1 = Ret (fs, w) /\ writes fs0 path size (bytes ++ b1) fs w) ->
  (forall fs w, writes fs0 path size (bytes ++ b1) fs w -> exists fs' w', m2 (fs, w) = Ret (fs', w') /\ writes fs0 path size ((bytes ++ b1) ++ b2) fs' w') ->
  exists fs' w', m1 ≫= m2 = Ret (fs', w') /\ writes fs0 path size (bytes ++ b1 ++ b2) fs' w'.
Proof. intros (fs & w & -> & H) H2. rewrite app_assoc. by apply H2. Qed.

Lemma WriteShort_writes bytes fs w i :
  writes fs0 path size bytes fs w ->
  exists fs' w', WriteShort fs w i = Ret (fs', w') /\ writes fs0 path size (bytes ++ be_bytes 2 i) fs' w'.
Proof.
  intros H. apply (writes_bind _ [_] [_]); [by apply WriteByte_writes|]. intros fs1 w1 H1. rewrite Z.shiftr_0_r. by apply WriteByte_writes.
Qed.

Lemma WriteInt_writes bytes fs w i :
  writes fs0 path size bytes fs w ->
  exists fs' w', WriteInt fs w i = Ret (fs', w') /\ writes fs0 path size (bytes ++ be_bytes 4 i) fs' w'.
Proof.
  intros H. apply (writes_bind _ [_] [_; _; _]); [by apply WriteByte_writes|]. intros fs1 w1 H1.
  apply (writes_bind _ [_] [_; _]); [by apply WriteByte_writes|]. intros fs2 w2 H2.
  apply (writes_bind _ [_] [_]); [by apply WriteByte_writes|]. intros fs3 w3 H3. rewrite Z.shiftr_0_r. by apply WriteByte_writes.
Qed.

Lemma byte_of_i32 x k : 0 <= k <= 24 -> to_u8 (Z.shiftr (to_i32 x) k) = to_u8 (Z.shiftr x k).
Proof.
  intros Hk. unfold to_i32. destruct (s_wrap_shift 32 x) as [m ->]; [lia|]. unfold to_u8, u_wrap. rewrite !Z.shiftr_div_pow2 by lia.
  assert (2 ^ 32 = 2 ^ (24 - k) * 2 ^ 8 * 2 ^ k) as -> by (rewrite <- !Z.pow_add_r by lia; f_equal; lia).
  rewrite Z.mul_assoc, Z.div_add by lia. rewrite Z.mul_assoc. apply Z.mod_add. lia.
Qed.

Lemma WriteLong_writes bytes fs w i :
  writes fs0 path size bytes fs w ->
  exists fs' w', WriteLong fs w i = Ret (fs', w') /\ writes fs0 path size (bytes ++ be_bytes 8 i) fs' w'.
Proof.
  intros H. assert (be_bytes 8 i = be_bytes 4 (to_i32 (Z.shiftr i 32)) ++ be_bytes 4 (to_i32 i)) as ->.
  { simpl. rewrite !byte_of_i32 by lia. by rewrite !Z.shiftr_shiftr by lia. }
  apply writes_bind; [by apply WriteInt_writes|]. intros fs1 w1 H1. by apply WriteInt_writes.
Qed.

Lemma v_last i : 0 <= i -> (negb (Z.land i (Z.lnot 127) =? 0)) = negb (i <? 128).
Proof.
  intros Hi. f_equal. change 127 with (Z.ones 7). rewrite <- Z.ldiff_land, Z.ldiff_ones_r, Z.shiftl_mul_pow2, Z.shiftr_div_pow2 by lia.
  change (2 ^ 7) with 128. apply eq_true_iff_eq. rewrite Z.eqb_eq, Z.ltb_lt.
  pose proof (Z.div_mod i 128 ltac:(lia)). pose proof (Z.mod_pos_bound i 128 ltac:(lia)). pose proof (Z.div_pos i 128). nia.
Qed.

Lemma v_more i : 0 <= i -> to_u8 (Z.lor (Z.land i 127) 128) = i mod 128 + 128.
Proof.
  intros Hi. change 127 with (Z.ones 7). rewrite Z.land_ones by lia. change (2 ^ 7) with 128.
  pose proof (Z.mod_pos_bound i 128 ltac:(lia)) as Hm.
  assert (Z.land (i mod 128) 128 = 0) as Hd.
  { change 128 with (2 ^ 7) at 2. apply Z.bits_inj'. intros n Hn. rewrite Z.land_spec, Z.bits_0, Z.pow2_bits_eqb by lia.
    destruct (Z.eqb_spec 7 n) as [<-|]; [|apply andb_false_r]. rewrite andb_true_r.
    change 128 with (2 ^ 7). apply Z.mod_pow2_bits_high. lia. }
  rewrite <- (Z.lxor_lor _ _ Hd), <- (Z.add_nocarry_lxor _ _ Hd). apply u_wrap_id. unfold u_range. lia.
Qed.

Lemma WriteVLoop_writes n fuel bytes fs w i :
  0 <= i < 2 ^ (7 * Z.of_nat n) -> (n < fuel)%nat -> writes fs0 path size bytes fs w ->
  exists fs' w', WriteVLoop fuel fs w i = Some (Ret (fs', w')) /\ writes fs0 path size (bytes ++ v_bytes n i) fs' w'.
Proof.
  revert fuel bytes fs w i. induction n as [|n IH]; intros fuel bytes fs w i Hi Hf H; (destruct fuel as [|fuel]; [lia|]).
  - change (2 ^ (7 * Z.of_nat 0)) with 1 in Hi. assert (i = 0) as -> by lia. simpl.
    destruct (WriteByte_writes bytes fs w 0 H) as (fs' & w' & -> & H'). by exists fs', w'.
  - simpl. rewrite v_last by lia. destruct (i <? 128) eqn:E; simpl.
    + destruct (WriteByte_writes bytes fs w i H) as (fs' & w' & -> & H'). exists fs', w'. split; [done|].
      unfold to_u8 in H'. rewrite u_wrap_id in H'; [done|]. unfold u_range. zbool. lia.
    + destruct (WriteByte_writes bytes fs w (Z.lor (Z.land i 127) 128) H) as (fs1 & w1 & -> & H1).
      rewrite v_more in H1 by lia. rewrite Z.shiftr_div_pow2 by lia. change (2 ^ 7) with 128.
      assert (0 <= i / 128 < 2 ^ (7 * Z.of_nat n)) as Hq.
      { split; [apply Z.div_pos; lia|]. apply Z.div_lt_upper_bound; [lia|].
        replace (7 * Z.of_nat (S n)) with (7 + 7 * Z.of_nat n) in Hi by lia. rewrite Z.pow_add_r in Hi by lia. lia. }
      destruct (IH fuel _ fs1 w1 (i / 128) Hq ltac:(lia) H1) as (fs' & w' & E' & H').
      exists fs', w'. split; [done|]. by rewrite <- app_assoc in H'.
Qed.

Lemma WriteBytes_writes fuel bytes fs w data :
  writes fs0 path size bytes fs w -> (length data + (if bool_decide (length (w_data w) = size) then 1 else 0) < fuel)%nat ->
  exists fs' w', WriteBytes fuel fs w data = Some (Ret (fs', w')) /\ writes fs0 path size (bytes ++ data) fs' w'.
Proof.
  revert bytes fs w data. induction fuel as [|fuel IH]; intros bytes fs w data H Hf; [lia|]. cbn [WriteBytes].
  destruct data as [|b data]; [exists fs, w; by rewrite app_nil_r|].
  set (n := Nat.min _ _). set (w0 := with_data w _). pose proof (ws_size _ _ _ _ _ _ H) as Hs.
  pose proof (ws_room _ _ _ _ _ _ H) as Hroom.
  assert (writes fs0 path size (bytes ++ take n (b :: data)) fs w0) as H0.
  { destruct H as [Hp Ho _ _ (disk & -> & -> & Hpos & Ht)]. split; [done..| |].
    - unfold w0. cbn [w_data with_data]. rewrite length_app, length_take. lia.
    - exists disk. unfold w0. cbn [w_data with_data]. by rewrite (assoc_L (++)). }
  assert (exists fs1 w1, (if bool_decide (length (w_data w0) = w_buffer_size_ w0) then Flush fs w0 else Ret (fs, w0)) = Ret (fs1, w1) /\
    writes fs0 path size (bytes ++ take n (b :: data)) fs1 w1 /\ (length (w_data w1) < size)%nat) as (fs1 & w1 & -> & H1 & Hlt).
  { rewrite (ws_size _ _ _ _ _ _ H0). destruct (decide (length (w_data w0) = size)) as [Hl|Hl]; [rewrite bool_decide_true by done|rewrite bool_decide_false by done].
    - destruct (FileFlush_writes _ _ _ H0) as (fs1 & w1 & E & H1 & Hd). exists fs1, w1. rewrite Hd. split_and!; [exact E|exact H1|exact Hsize].
    - exists fs, w0. pose proof (ws_room _ _ _ _ _ _ H0). split_and!; [done|done|lia]. }
  destruct (IH _ fs1 w1 (drop n (b :: data)) H1) as (fs' & w' & E & H').
  { rewrite (bool_decide_false (length (w_data w1) = size)) by lia. rewrite length_drop.
    assert (n = Nat.min (S (length data)) (size - length (w_data w))) as -> by (unfold n; by rewrite Hs).
    cbn [length] in Hf |- *. destruct (bool_decide_reflect (length (w_data w) = size)); lia. }
  exists fs', w'. split; [done|]. by rewrite <- app_assoc, take_drop in H'.
Qed.

(** Enough fuel for a call. *)
Definition op_fuel (fuel : nat) (op : write_op) : Prop :=
  match op with OpVInt _ => (5 < fuel)%nat | OpVLong _ => (10 < fuel)%nat | OpBytes bytes => (length bytes + 1 < fuel)%nat | _ => True end.

Lemma exec_op_writes fuel bytes fs w op :
  writes fs0 path size bytes fs w -> op_fuel fuel op ->
  exists fs' w', exec_op fuel fs w op = Some (Ret (fs', w')) /\ writes fs0 path size (bytes ++ op_bytes op) fs' w'.
Proof.
  intros H Hf. destruct op as [b|i|i|i|i|i|data|]; cbn [exec_op op_bytes op_fuel] in *.
  - destruct (WriteByte_writes bytes fs w b H) as (? & ? & -> & ?). eauto.
  - destruct (WriteShort_writes bytes fs w i H) as (? & ? & -> & ?). eauto.
  - destruct (WriteInt_writes bytes fs w i H) as (? & ? & -> & ?). eauto.
  - destruct (WriteLong_writes bytes fs w i H) as (? & ? & -> & ?). eauto.
  - apply WriteVLoop_writes; [|done|done]. pose proof (u_wrap_range 32 i ltac:(lia)) as []. unfold to_u32. split; [done|].
    change (7 * Z.of_nat 5) with 35. lia.
  - apply WriteVLoop_writes; [|done|done]. pose proof (u_wrap_range 64 i ltac:(lia)) as []. unfold to_u64. split; [done|].
    change (7 * Z.of_nat 10) with 70. lia.
  - apply WriteBytes_writes; [done|]. case_bool_decide; lia.
  - destruct (FileFlush_writes bytes fs w H) as (? & ? & -> & ? & _). rewrite app_nil_r. eauto.
Qed.

Lemma exec_ops_writes fuel bytes fs w ops :
  writes fs0 path size bytes fs w -> Forall (op_fuel fuel) ops ->
  exists fs' w', exec_ops fuel fs w ops = Some (Ret (fs', w')) /\ writes fs0 path size (bytes ++ concat (op_bytes <$> ops)) fs' w'.
Proof.
  intros H Hf. revert bytes fs w H. induction Hf as [|op ops Hop _ IH]; intros bytes fs w H; simpl; [rewrite app_nil_r; eauto|].
  destruct (exec_op_writes fuel bytes fs w op H Hop) as (fs1 & w1 & -> & H1). rewrite app_assoc. by apply IH.
Qed.
End Writer.

(** Buffered writing is exact: whatever calls are made on a [FileWriter] for
    a new file, after a final flush the file holds the big-endian and
    variable-length encodings of the calls in order, the other files are
    unchanged and [TotalWrittenBytes] is the length. *)
Theorem file_writer_exact (fs : Files) path size ops fuel :
  (0 < size)%nat -> fs !! path = None -> Forall (op_fuel fuel) ops ->
  exists fs1 w1 fs2 w2,
    NewFileWriter fs path size (Z.lor WRITE_FLAG CREATE_FLAG) = Ret (fs1, w1) /\
    exec_ops fuel fs1 w1 (ops ++ [OpFlush]) = Some (Ret (fs2, w2)) /\
    fs2 = <[path := concat (op_bytes <$> ops)]> fs /\
    TotalWrittenBytes w2 = length (concat (op_bytes <$> ops)).
Proof.
  intros Hs Hp Hf. unfold NewFileWriter, OpenFile. simpl. rewrite Hp. simpl.
  set (w1 := mkFileWriter _ [] 0 size).
  assert (writes fs path size [] (<[path := []]> fs) w1) as H1 by (split; [done|done|done|simpl; lia|by exists []]).
  assert (forall ops1 fs1 w1, exec_ops fuel fs1 w1 (ops1 ++ [OpFlush]) =
    match exec_ops fuel fs1 w1 ops1 with Some (Ret (fs, w)) => exec_ops fuel fs w [OpFlush] | r => r end) as Happ.
  { induction ops1 as [|op ops1 IH]; intros fs1 w2; [done|]. simpl. destruct (exec_op fuel fs1 w2 op) as [[[fs2 w3]| |]|]; [apply IH|done..]. }
  destruct (exec_ops_writes fs path size Hs fuel [] _ w1 ops H1 Hf) as (fs2 & w2 & E & H2).
  destruct (FileFlush_writes fs path size Hs _ _ _ H2) as (fs3 & w3 & E3 & H3 & Hd).
  exists (<[path := []]> fs), w1, fs3, w3. split; [done|]. rewrite Happ, E. simpl. rewrite E3. split; [done|].
  destruct H3 as [_ _ _ _ (disk & -> & Hb & _ & Ht)]. rewrite Hd, app_nil_r in Hb. simpl in Hb. subst disk.
  split; [done|]. unfold TotalWrittenBytes. by rewrite Hd, Ht, Nat.add_0_r.
Qed.

Lemma file_writer_exact_witness : exists fs1 w1 fs2 w2,
  NewFileWriter ∅ "posting" 4 (Z.lor WRITE_FLAG CREATE_FLAG) = Ret (fs1, w1) /\
  exec_ops 11 fs1 w1 ([OpInt (-2); OpVInt 300; OpBytes [7; 8; 9; 10; 11]] ++ [OpFlush]) = Some (Ret (fs2, w2)) /\
  fs2 = {[ "posting" := [255; 255; 255; 254; 172; 2; 7; 8; 9; 10; 11] ]} /\ TotalWrittenBytes w2 = 11%nat.
Proof.
  apply (file_writer_exact ∅ "posting" 4 [OpInt (-2); OpVInt 300; OpBytes [7; 8; 9; 10; 11]] 11);
    [lia|reflexivity|repeat constructor; simpl; lia].
Defined.

(** ** What the reader does *)

Lemma reader_new (fs : Files) path size bytes :
  fs !! path = Some bytes ->
  NewFileReader fs path size =
    Ret (fs, mkFileReader (mkFileHandler path true true false false 0) (replicate size 0) 0 0 0 size (Z.of_nat (length bytes))).
Proof. intros Hp. unfold NewFileReader, OpenFile. simpl. rewrite Hp. simpl. unfold GetFileSize. simpl. by rewrite Hp. Qed.

(** Reading up to one buffer is exact: the first [Read] of a new [FileReader],
    of at most [buffer_size] bytes that the file has, fills the caller's memory
    with the first bytes of the file. *)
Theorem file_reader_first_read (fs : Files) path size bytes (out : list Z) fuel :
  fs !! path = Some bytes -> (0 < length out <= size)%nat -> (length out <= length bytes)%nat -> (1 < fuel)%nat ->
  exists r r', NewFileReader fs path size = Ret (fs, r) /\
    ReadInto fuel fs r out = Some (Ret (take (length out) bytes, r')) /\ GetFilePointer r' = length out.
Proof.
  intros Hp Hn Hl Hf. destruct fuel as [|[|fuel]]; [lia..|]. rewrite (reader_new fs path size bytes Hp). eexists _, _. split; [done|].
  unfold ReadInto. cbn [ReadBytes already_read_size_ buffer_offset_ with_offset r_handler r_data r_buffer_size_].
  rewrite Nat.sub_diag, Nat.min_0_r. rewrite !bool_decide_true by (done || lia). cbn [negb].
  unfold Refill, Read. simpl. rewrite Hp. simpl. rewrite drop_0, length_take, bool_decide_false by lia.
  cbn [mbind outcome_bind ReadBytes already_read_size_ buffer_offset_ with_offset r_data].
  rewrite Nat.sub_0_r, (Nat.min_l (length out)) by lia. rewrite (bool_decide_false (length out < length out)%nat) by lia.
  rewrite drop_0. split; [refine (f_equal (fun o => Some (Ret (o, _))) _)|reflexivity]. rewrite (drop_ge (drop 0 out)) by (rewrite drop_0; lia). rewrite app_nil_r.
  rewrite take_app_le by (rewrite length_take; lia). rewrite take_take. by rewrite Nat.min_l by lia.
Qed.

Lemma file_reader_first_read_witness : exists r r',
  NewFileReader {[ "f" := [1; 2; 3; 4] ]} "f" 4 = Ret ({[ "f" := [1; 2; 3; 4] ]}, r) /\
  ReadInto 2 {[ "f" := [1; 2; 3; 4] ]} r [0; 0; 0] = Some (Ret ([1; 2; 3], r')) /\ GetFilePointer r' = 3%nat.
Proof. apply (file_reader_first_read _ "f" 4 [1; 2; 3; 4] [0; 0; 0] 2); [reflexivity|simpl; lia..]. Defined.

(** The caller's memory after a read of four bytes with buffers of [size]. *)
Definition read_four (size : nat) : option (outcome (list Z)) :=
  match NewFileReader {[ "f" := [1; 2; 3; 4] ]} "f" size with
  | Ret (fs, r) => match ReadInto 10 fs r [0; 0; 0; 0] with
                   | Some (Ret (out, _)) => Some (Ret out)
                   | _ => None
                   end
  | _ => None
  end.

(** The reader does not read back what was written: [ReadByte] of a new
    reader does not fill the buffer and returns 0 whatever the file holds, and
    [Read] copies every buffer to the begin of the caller's memory, so that a
    read of more than one buffer is wrong. *)
Theorem file_reader_misreads :
  (forall (fs : Files) path n bytes, fs !! path = Some bytes ->
    exists r r', NewFileReader fs path (S n) = Ret (fs, r) /\ ReadByte fs r = Ret (0, r')) /\
  read_four 4 = Some (Ret [1; 2; 3; 4]) /\ read_four 2 = Some (Ret [3; 4; 0; 0]).
Proof.
  split_and!; [|vm_compute; reflexivity..]. intros fs path n bytes Hp. rewrite (reader_new fs path (S n) bytes Hp).
  eexists _, _. split; reflexivity.
Qed.
