(* ===== verification/FileWorker.v ===== *)
(** * File workers

    [FileWorker] ([storage/buffer/file_worker/file_worker.cpp]) moves the data of
    one buffer between memory and its file, and [DataFileWorker]
    ([data_file_worker.cpp]) is the implementation for blocks of bytes.  The
    virtual functions are the class [FileImpl]; [FileImplLaws] is what the buffer
    objects rely on. *)
From S2P Require Import Prelude Wire Io.

Local Open Scope Z_scope.

(** The virtual functions of [FileWorker]; [option D] is [data_]. *)
Class FileImpl (W D : Type) := {
  GetMemoryCost : W -> Z;
  AllocateInMemory : W -> option D -> outcome D;
  FreeInMemory : W -> option D -> outcome unit;
  WriteToFileImpl : W -> D -> Files -> FileHandler -> outcome (Files * FileHandler);
  ReadFromFileImpl : W -> Files -> FileHandler -> outcome (D * FileHandler);
}.

(** [fw_temp_dir_] is set by [SetBaseTempDir]. *)
Record FileWorker (W D : Type) := mkFileWorker {
  fw_impl : W;
  fw_file_dir_ : string;
  fw_file_name_ : string;
  fw_temp_dir_ : string;
  fw_data_ : option D;
  fw_handler_ : option FileHandler;
}.

Arguments mkFileWorker {W D} _ _ _ _ _ _.
Arguments fw_impl {W D} _.
Arguments fw_file_dir_ {W D} _.
Arguments fw_file_name_ {W D} _.
Arguments fw_temp_dir_ {W D} _.
Arguments fw_data_ {W D} _.
Arguments fw_handler_ {W D} _.

Section FileWorker.
Context {W D : Type} `{FileImpl W D}.
Implicit Types (fs : gmap string (list Z)) (fw : FileWorker W D).

Definition with_data fw (d : option D) : FileWorker W D :=
  mkFileWorker (fw_impl fw) (fw_file_dir_ fw) (fw_file_name_ fw) (fw_temp_dir_ fw) d (fw_handler_ fw).

Definition with_handler fw (h : option FileHandler) : FileWorker W D :=
  mkFileWorker (fw_impl fw) (fw_file_dir_ fw) (fw_file_name_ fw) (fw_temp_dir_ fw) (fw_data_ fw) h.

(** [FileWorker::SetBaseTempDir] *)
Definition SetTempDir fw (temp_dir : string) : FileWorker W D :=
  mkFileWorker (fw_impl fw) (fw_file_dir_ fw) (fw_file_name_ fw) temp_dir (fw_data_ fw) (fw_handler_ fw).

(** [FileWorker::GetFilePath] *)
Definition GetFilePath fw : string := fw_file_dir_ fw +:+ "/" +:+ fw_file_name_ fw.

(** [FileWorker::ChooseFileDir] *)
Definition ChooseFileDir fw (spill : bool) : string := if spill then fw_temp_dir_ fw +:+ fw_file_dir_ fw else fw_file_dir_ fw.

Definition file_at fw (spill : bool) : string := ChooseFileDir fw spill +:+ "/" +:+ fw_file_name_ fw.

(** [FileWorker::WriteToFile]: on success the file stays open. *)
Definition WriteToFile fs fw (to_spill : bool) : outcome (Files * FileWorker W D) :=
  match fw_data_ fw with
  | None => Throw StorageException "No data will be written."
  | Some d =>
      '(h, fs) ← OpenFile fs (file_at fw to_spill) (Z.lor WRITE_FLAG CREATE_FLAG);
      '(fs, h) ← WriteToFileImpl (fw_impl fw) d fs h;
      Ret (fs, with_handler fw (Some h))
  end.

(** [FileWorker::ReadFromFile] *)
Definition ReadFromFile fs fw (from_spill : bool) : outcome (FileWorker W D) :=
  '(h, fs) ← OpenFile fs (file_at fw from_spill) READ_FLAG;
  '(d, h) ← ReadFromFileImpl (fw_impl fw) fs h;
  _ ← Close h;
  Ret (with_handler (with_data fw (Some d)) None).

(** [FileWorker::MoveFile] *)
Definition MoveFile fs fw : outcome Files :=
  if negb (Exists fs (file_at fw true)) then Throw StorageException "File doesn't exist."
  else Rename fs (file_at fw true) (file_at fw false).

(** [FileWorker::Sync] *)
Definition SyncFile fw : outcome unit :=
  match fw_handler_ fw with
  | None => UB "file_handler_ is null"
  | Some h => if fd_open h then Ret tt else Throw StorageException "fsync failed"
  end.

(** [FileWorker::CloseFile] *)
Definition CloseFile fw : outcome (FileWorker W D) :=
  match fw_handler_ fw with
  | None => UB "file_handler_ is null"
  | Some h => h ← Close h; Ret (with_handler fw (Some h))
  end.
End FileWorker.

(** What a worker must be for the buffers: it can allocate, and what it writes
    over a file of its own it reads back. *)
Class FileImplLaws (W D : Type) `{FileImpl W D} := {
  worker_ok : W -> Prop;
  good_data : W -> D -> Prop;
  file_of : W -> D -> list Z -> Prop;
  cost_range w : worker_ok w -> 0 <= GetMemoryCost w < 2 ^ 63;
  alloc_law w : worker_ok w -> exists d, AllocateInMemory w None = Ret d /\ good_data w d;
  free_law w d : FreeInMemory w (Some d) = Ret tt;
  write_law w d fs h old :
    worker_ok w -> good_data w d -> fd_open h = true -> can_write h = true -> appends h = false -> file_pos h = 0%nat ->
    fs !! path_ h = Some old -> (old = [] \/ exists d', file_of w d' old) ->
    exists bytes h', WriteToFileImpl w d fs h = Ret (<[path_ h := bytes]> fs, h') /\ file_of w d bytes /\ fd_open h' = true;
  read_law w d fs h bytes :
    file_of w d bytes -> fs !! path_ h = Some bytes -> fd_open h = true -> can_read h = true -> file_pos h = 0%nat ->
    exists h', ReadFromFileImpl w fs h = Ret (d, h') /\ fd_open h' = true;
  file_good w d bytes : file_of w d bytes -> good_data w d;
}.

(** ** [DataFileWorker] *)
Section DataFileWorker.
Implicit Types (fs : gmap string (list Z)) (h : FileHandler).

Definition magic_number : Z := 0x00dd3344.

(** [DataFileWorker::AllocateInMemory]; the worker is its [buffer_size_]. *)
Definition DataAllocateInMemory (buffer_size : Z) (data : option (list Z)) : outcome (list Z) :=
  match data with
  | Some _ => Throw StorageException "Data is already allocated."
  | None => if buffer_size =? 0 then Throw StorageException "Buffer size is 0." else Ret (replicate (Z.to_nat buffer_size) 0)
  end.

(** [DataFileWorker::FreeInMemory] *)
Definition DataFreeInMemory (buffer_size : Z) (data : option (list Z)) : outcome unit :=
  match data with
  | Some _ => Ret tt
  | None => Throw StorageException "Data is already freed."
  end.

(** [DataFileWorker::WriteToFileImpl]; the disk takes every write whole. *)
Definition DataWriteToFileImpl (buffer_size : Z) (data : list Z) fs h : outcome (Files * FileHandler) :=
  '(fs, h) ← Write fs h (le_bytes 8 magic_number);
  '(fs, h) ← Write fs h (le_bytes 8 buffer_size);
  '(fs, h) ← Write fs h (take (Z.to_nat buffer_size) data);
  Write fs h (le_bytes 8 0).

(** [fs.Read] of [n] bytes with the test of the count. *)
Definition ReadExact fs h (n : nat) (msg : string) : outcome (list Z * FileHandler) :=
  '(got, h) ← Read fs h n;
  if bool_decide (length got = n) then Ret (got, h) else Throw StorageException msg.

(** [DataFileWorker::ReadFromFileImpl] *)
Definition DataReadFromFileImpl (_ : Z) fs h : outcome (list Z * FileHandler) :=
  let file_size := GetFileSize fs h in
  if file_size <? 24 then Throw StorageException "Incorrect file length"
  else
    '(m, h) ← ReadExact fs h 8 "Read magic number which length isn't";
    if negb (le_value m =? magic_number) then Throw StorageException "Incorrect file header magic number"
    else
      '(sz, h) ← ReadExact fs h 8 "Unmatched buffer length";
      let buffer_size := le_value sz in
      if negb (file_size =? to_u64 (buffer_size + 24)) then Throw StorageException "File size isn't matched"
      else
        '(d, h) ← ReadExact fs h (Z.to_nat buffer_size) "Expect to read buffer";
        '(_, h) ← ReadExact fs h 8 "Incorrect file checksum length";
        Ret (d, h).

(** The file of a block. *)
Definition image (buffer_size : Z) (data : list Z) : list Z :=
  le_bytes 8 magic_number ++ le_bytes 8 buffer_size ++ data ++ le_bytes 8 0.

End DataFileWorker.

#[export] Instance data_file_impl : FileImpl Z (list Z) := {
  GetMemoryCost buffer_size := buffer_size;
  AllocateInMemory := DataAllocateInMemory;
  FreeInMemory := DataFreeInMemory;
  WriteToFileImpl := DataWriteToFileImpl;
  ReadFromFileImpl := DataReadFromFileImpl;
}.

(** ** Properties *)

Lemma write_at_in old pos data :
  (pos <= length old)%nat -> write_at old pos data = take pos old ++ data ++ drop (pos + length data) old.
Proof. intros Hp. unfold write_at. by replace (pos - length old)%nat with 0%nat by lia. Qed.

Lemma write_at_twice old pos d1 d2 :
  (pos <= length old)%nat -> write_at (write_at old pos d1) (pos + length d1) d2 = write_at old pos (d1 ++ d2).
Proof.
  intros Hp. rewrite (write_at_in old pos d1), (write_at_in old pos (d1 ++ d2)), length_app by done.
  assert (length (take pos old ++ d1) = (pos + length d1)%nat) as Hl by (rewrite length_app, length_take; lia).
  rewrite (assoc_L (++) (take _ _) d1), write_at_in by (rewrite length_app, Hl; lia).
  rewrite take_app_le, take_ge by lia. rewrite drop_app_ge, Hl, drop_drop by lia.
  rewrite <- !(assoc_L (++)). do 4 f_equal. lia.
Qed.

(** Two writes in a row are one. *)
Lemma write_write fs h old d1 d2 :
  appends h = false -> fs !! path_ h = Some old -> (file_pos h <= length old)%nat ->
  ('(fs, h) ← Write fs h d1; Write fs h d2) = Write fs h (d1 ++ d2).
Proof.
  intros Ha Hf Hp. unfold Write. destruct (fd_open h) eqn:Ho, (can_write h) eqn:Hw; try done. rewrite Hf, Ha. simpl.
  rewrite Ho, Hw, lookup_insert_eq, Ha. simpl. rewrite insert_insert_eq, length_app. unfold at_pos. simpl.
  by rewrite write_at_twice, Nat.add_assoc.
Qed.

Lemma read_step fs h pre got rest msg :
  fd_open h = true -> can_read h = true -> file_pos h = length pre -> fs !! path_ h = Some (pre ++ got ++ rest) ->
  ReadExact fs h (length got) msg = Ret (got, at_pos h (length (pre ++ got))).
Proof.
  intros Ho Hr Hp Hf. unfold ReadExact, Read. rewrite Ho, Hr, Hf, Hp. simpl.
  rewrite drop_app_length, take_app_length, bool_decide_true by done. by rewrite length_app.
Qed.

Lemma image_length sz d : length (image sz d) = (24 + length d)%nat.
Proof. unfold image. rewrite !length_app, !le_bytes_length. lia. Qed.

Lemma data_write sz d fs h old :
  Z.of_nat (length d) = sz -> fd_open h = true -> can_write h = true -> appends h = false -> file_pos h = 0%nat ->
  fs !! path_ h = Some old -> (length old <= 24 + length d)%nat ->
  exists h', DataWriteToFileImpl sz d fs h = Ret (<[path_ h := image sz d]> fs, h') /\ fd_open h' = true.
Proof.
  intros Hsz Ho Hw Ha Hp Hf Hold. exists (at_pos h (length (image sz d))). split; [|done].
  transitivity (Write fs h (image sz d)).
  - unfold DataWriteToFileImpl, image. rewrite take_ge by lia.
    rewrite !(assoc_L (++)). rewrite <- (write_write fs h old) by (done || lia). rewrite <- (write_write fs h old) by (done || lia).
    rewrite <- (write_write fs h old) by (done || lia).
    destruct (Write fs h _) as [[fs1 h1]| |]; [|done..]. simpl. destruct (Write fs1 h1 _) as [[fs2 h2]| |]; [|done..]. simpl.
    by destruct (Write fs2 h2 _) as [[fs3 h3]| |].
  - unfold Write. rewrite Ho, Hw, Hf, Ha, Hp. simpl. by rewrite write_at_in, drop_ge, app_nil_r by (rewrite ?image_length; lia).
Qed.

Lemma data_read sz d fs h :
  Z.of_nat (length d) = sz -> 0 <= sz < 2 ^ 63 -> fd_open h = true -> can_read h = true -> file_pos h = 0%nat ->
  fs !! path_ h = Some (image sz d) ->
  exists h', DataReadFromFileImpl sz fs h = Ret (d, h') /\ fd_open h' = true.
Proof.
  intros Hsz Hr Ho Hw Hp Hf. unfold DataReadFromFileImpl, GetFileSize. rewrite Ho, Hf, image_length.
  destruct (Z.of_nat (24 + length d) <? 24) eqn:E; [zbool; lia|]. unfold image in Hf.
  set (m := le_bytes 8 magic_number) in *.
  rewrite (read_step fs h [] m _ _ Ho Hw Hp Hf). cbn [mbind outcome_bind]. change (le_value m =? _) with true. cbn [negb].
  rewrite (read_step fs (at_pos h (length ([] ++ m))) m (le_bytes 8 sz) (d ++ le_bytes 8 0)) by done. cbn [mbind outcome_bind].
  rewrite le_value_bytes, u_wrap_id by (unfold u_range; cbn [Z.of_nat]; lia). unfold to_u64. rewrite u_wrap_id by (unfold u_range; lia).
  rewrite (proj2 (Z.eqb_eq _ _)) by lia. cbn [negb]. replace (Z.to_nat sz) with (length d) by lia.
  rewrite (assoc_L (++)) in Hf. rewrite (read_step fs (at_pos _ _) (m ++ le_bytes 8 sz) d (le_bytes 8 0)) by done. cbn [mbind outcome_bind].
  rewrite <- (app_nil_r (le_bytes 8 0)), (assoc_L (++)) in Hf.
  rewrite (read_step fs (at_pos _ _) ((m ++ le_bytes 8 sz) ++ d) (le_bytes 8 0) []) by done. cbn [mbind outcome_bind]. by eexists.
Qed.

#[export] Instance data_file_laws : FileImplLaws Z (list Z).
Proof.
  refine {| worker_ok sz := 0 < sz < 2 ^ 63;
            good_data sz d := Z.of_nat (length d) = sz /\ 0 <= sz < 2 ^ 63;
            file_of sz d bytes := (Z.of_nat (length d) = sz /\ 0 <= sz < 2 ^ 63) /\ bytes = image sz d |}.
  - simpl. lia.
  - intros sz Hsz. simpl. unfold DataAllocateInMemory. rewrite (proj2 (Z.eqb_neq sz 0)) by lia.
    eexists. split; [done|]. rewrite length_replicate. lia.
  - done.
  - intros sz d fs h old Hsz [Hl Hr] Ho Hw Ha Hp Hf Hold.
    destruct (data_write sz d fs h old Hl Ho Hw Ha Hp Hf) as (h' & E & Hh).
    { destruct Hold as [->|(d' & [Hl' _] & ->)]; [simpl; lia|]. rewrite image_length. lia. }
    by eexists _, h'.
  - intros sz d fs h bytes [[Hl Hr] ->] Hf Ho Hw Hp. by apply data_read.
  - by intros sz d bytes [? _].
Defined.
