(* ===== verification/Buffer.v ===== *)
(** * The buffer manager

    [BufferObj], [BufferManager] and [BufferHandle] ([storage/buffer/]): buffers
    that are loaded on demand, counted references, and a queue of unused
    buffers that are written out and freed when memory runs short.

    A buffer object is never destroyed while its manager lives, so a pointer to
    it is its key in [buffer_map_].  Each member function is one step of the
    state of the manager and the disk. *)
From S2P Require Import Prelude Io FileWorker.

Local Open Scope Z_scope.

Inductive BufferStatus := kLoaded | kUnloaded | kFreed | kNew.
Inductive BufferType := kPersistent | kEphemeral | kTemp.

#[export] Instance BufferStatus_eq_dec : EqDecision BufferStatus.
Proof. solve_decision. Defined.

#[export] Instance BufferType_eq_dec : EqDecision BufferType.
Proof. solve_decision. Defined.

Record BufferObj (W D : Type) := mkBufferObj {
  type_ : BufferType;
  status_ : BufferStatus;
  rc_ : Z;
  file_worker_ : FileWorker W D;
}.

Arguments mkBufferObj {W D} _ _ _ _.
Arguments type_ {W D} _.
Arguments status_ {W D} _.
Arguments rc_ {W D} _.
Arguments file_worker_ {W D} _.

(** The members of [BufferManager], and the disk. *)
Record BufferManager (W D : Type) := mkBufferManager {
  temp_dir_ : string;
  memory_limit_ : Z;
  current_memory_size_ : Z;
  buffer_map_ : gmap string (BufferObj W D);
  gc_queue_ : list string;
  disk : gmap string (list Z);
}.

Arguments mkBufferManager {W D} _ _ _ _ _ _.
Arguments temp_dir_ {W D} _.
Arguments memory_limit_ {W D} _.
Arguments current_memory_size_ {W D} _.
Arguments buffer_map_ {W D} _.
Arguments gc_queue_ {W D} _.
Arguments disk {W D} _.

Section Buffer.
Context {W D : Type} `{FileImpl W D}.
Implicit Types (o : BufferObj W D) (s : BufferManager W D) (p : string).

Definition set_obj s p o : BufferManager W D :=
  mkBufferManager (temp_dir_ s) (memory_limit_ s) (current_memory_size_ s) (<[p := o]> (buffer_map_ s)) (gc_queue_ s) (disk s).

Definition set_disk s (fs : Files) : BufferManager W D :=
  mkBufferManager (temp_dir_ s) (memory_limit_ s) (current_memory_size_ s) (buffer_map_ s) (gc_queue_ s) fs.

Definition set_memory s (n : Z) : BufferManager W D :=
  mkBufferManager (temp_dir_ s) (memory_limit_ s) n (buffer_map_ s) (gc_queue_ s) (disk s).

Definition set_queue s (q : list string) : BufferManager W D :=
  mkBufferManager (temp_dir_ s) (memory_limit_ s) (current_memory_size_ s) (buffer_map_ s) q (disk s).

(** The object a pointer points to. *)
Definition get_obj s p : outcome (BufferObj W D) :=
  match buffer_map_ s !! p with Some o => Ret o | None => UB "no such buffer" end.

(** [BufferManager::BufferManager] *)
Definition NewBufferManager (memory_limit : Z) (temp_dir : string) (fs : Files) : BufferManager W D :=
  mkBufferManager temp_dir memory_limit 0 ∅ [] fs.

(** [BufferObj::BufferObj] *)
Definition NewBufferObj s (is_ephemeral : bool) (fw : FileWorker W D) : BufferObj W D :=
  let fw := SetTempDir fw (temp_dir_ s) in
  if is_ephemeral then mkBufferObj kEphemeral kNew 0 fw else mkBufferObj kPersistent kFreed 0 fw.

(** [BufferObj::GetBufferSize] *)
Definition GetBufferSize o : Z := GetMemoryCost (fw_impl (file_worker_ o)).

(** [BufferManager::Allocate] *)
Definition Allocate s (fw : FileWorker W D) : outcome (BufferManager W D * string) :=
  let file_path := GetFilePath fw in
  match buffer_map_ s !! file_path with
  | Some _ => Throw StorageException "BufferManager::Allocate: file already exists."
  | None => Ret (set_obj s file_path (NewBufferObj s true fw), file_path)
  end.

(** [BufferManager::Get] *)
Definition Get s (fw : FileWorker W D) : BufferManager W D * string :=
  let file_path := GetFilePath fw in
  match buffer_map_ s !! file_path with
  | Some _ => (s, file_path)
  | None => (set_obj s file_path (NewBufferObj s false fw), file_path)
  end.

(** [BufferObj::Free] *)
Definition Free s p : outcome (BufferManager W D * bool) :=
  o ← get_obj s p;
  match status_ o with
  | kFreed | kLoaded => Ret (s, false)
  | kNew => Throw StorageException "Invalid call."
  | kUnloaded =>
      '(fs, fw) ← match type_ o with
                  | kTemp | kPersistent => Ret (disk s, file_worker_ o)
                  | kEphemeral => WriteToFile (disk s) (file_worker_ o) true
                  end;
      _ ← FreeInMemory (fw_impl fw) (fw_data_ fw);
      Ret (set_obj (set_disk s fs) p (mkBufferObj (type_ o) kFreed (rc_ o) (with_data fw None)), true)
  end.

(** [BufferManager::RequestSpace]: one buffer of the queue is freed. *)
Definition FreeOne s p : outcome (BufferManager W D) :=
  '(s, freed) ← Free s p;
  if freed : bool then o ← get_obj s p; Ret (set_memory s (to_u64 (current_memory_size_ s - GetBufferSize o))) else Ret s.

(** The loop of [BufferManager::RequestSpace]: true once there is room, false if
    the queue is empty, which is the exception "Out of memory.". *)
Fixpoint RequestLoop (fuel : nat) s (need_size : Z) p : option (outcome (BufferManager W D * bool)) :=
  match fuel with
  | O => None
  | S fuel' =>
      if to_u64 (current_memory_size_ s + need_size) >? memory_limit_ s then
        match gc_queue_ s with
        | [] => Some (Ret (s, false))
        | p1 :: q =>
            let s := set_queue s q in
            if bool_decide (p = p1) then
              match get_obj s p1 with
              | Ret o => if bool_decide (status_ o = kFreed) then RequestLoop fuel' s need_size p else Some (Throw StorageException "Bug.")
              | Throw e msg => Some (Throw e msg)
              | UB why => Some (UB why)
              end
            else
              match FreeOne s p1 with
              | Ret s => RequestLoop fuel' s need_size p
              | Throw e msg => Some (Throw e msg)
              | UB why => Some (UB why)
              end
        end
      else Some (Ret (s, true))
  end.

(** The last statement of [BufferManager::RequestSpace] *)
Definition AddSpace s (need_size : Z) : BufferManager W D := set_memory s (to_u64 (current_memory_size_ s + need_size)).

(** [BufferManager::RequestSpace] *)
Definition RequestSpace (fuel : nat) s (need_size : Z) p : option (outcome (BufferManager W D * bool)) :=
  match RequestLoop fuel s need_size p with
  | Some (Ret (s, true)) => Some (Ret (AddSpace s need_size, true))
  | r => r
  end.

(** [BufferObj::Load] after the [switch]. *)
Definition FinishLoad s p o (ty : BufferType) (fw : FileWorker W D) : BufferManager W D :=
  set_obj s p (mkBufferObj ty kLoaded (to_u64 (rc_ o + 1)) fw).

(** [BufferObj::Load]: false if "Out of memory." is thrown. *)
Definition Load (fuel : nat) s p : option (outcome (BufferManager W D * bool)) :=
  match get_obj s p with
  | Throw e msg => Some (Throw e msg)
  | UB why => Some (UB why)
  | Ret o =>
      match status_ o with
      | kLoaded | kUnloaded => Some (Ret (FinishLoad s p o (type_ o) (file_worker_ o), true))
      | kFreed =>
          match RequestSpace fuel s (GetBufferSize o) p with
          | Some (Ret (s, true)) => Some (
              fw ← ReadFromFile (disk s) (file_worker_ o) (negb (bool_decide (type_ o = kPersistent)));
              Ret (FinishLoad s p o (if bool_decide (type_ o = kEphemeral) then kTemp else type_ o) fw, true))
          | r => r
          end
      | kNew =>
          match RequestSpace fuel s (GetBufferSize o) p with
          | Some (Ret (s, true)) => Some (
              d ← AllocateInMemory (fw_impl (file_worker_ o)) (fw_data_ (file_worker_ o));
              Ret (FinishLoad s p o (type_ o) (with_data (file_worker_ o) (Some d)), true))
          | r => r
          end
      end
  end.

(** [BufferObj::GetMutPointer] *)
Definition GetMutPointer s p : outcome (BufferManager W D) :=
  o ← get_obj s p; Ret (set_obj s p (mkBufferObj kEphemeral (status_ o) (rc_ o) (file_worker_ o))).

(** [BufferObj::UnloadInner] *)
Definition UnloadInner s p : outcome (BufferManager W D) :=
  o ← get_obj s p;
  match status_ o with
  | kLoaded =>
      let rc := to_u64 (rc_ o - 1) in
      if rc =? 0 then Ret (set_obj (set_queue s (gc_queue_ s ++ [p])) p (mkBufferObj (type_ o) kUnloaded rc (file_worker_ o)))
      else Ret (set_obj s p (mkBufferObj (type_ o) kLoaded rc (file_worker_ o)))
  | _ => Throw StorageException "Invalid call."
  end.

(** [BufferObj::Save]; true if the file is open and [rw_locker_] held. *)
Definition Save s p : outcome (BufferManager W D * bool) :=
  o ← get_obj s p;
  if bool_decide (type_ o = kPersistent) then Ret (s, false)
  else match status_ o with
       | kLoaded | kUnloaded =>
           '(fs, fw) ← WriteToFile (disk s) (file_worker_ o) false;
           Ret (set_obj (set_disk s fs) p (mkBufferObj kPersistent (status_ o) (rc_ o) fw), true)
       | kFreed =>
           fs ← MoveFile (disk s) (file_worker_ o);
           Ret (set_obj (set_disk s fs) p (mkBufferObj kPersistent (status_ o) (rc_ o) (file_worker_ o)), false)
       | kNew => Throw StorageException "Invalid buffer status."
       end.

(** [BufferObj::Sync] *)
Definition BufferSync s p : outcome unit := o ← get_obj s p; SyncFile (file_worker_ o).

(** [BufferObj::CloseFile] *)
Definition BufferCloseFile s p : outcome (BufferManager W D) :=
  o ← get_obj s p; fw ← CloseFile (file_worker_ o); Ret (set_obj s p (mkBufferObj (type_ o) (status_ o) (rc_ o) fw)).

(** What the callers of [Save] do, under the lock of the object. *)
Definition SaveAndClose s p : outcome (BufferManager W D) :=
  '(s, write) ← Save s p;
  if write : bool then _ ← BufferSync s p; BufferCloseFile s p else Ret s.

(** [BufferObj::CheckState] *)
Definition CheckState o : outcome unit :=
  let bad := match status_ o with
             | kLoaded => rc_ o =? 0
             | kUnloaded | kFreed => rc_ o >? 0
             | kNew => negb (bool_decide (type_ o = kEphemeral)) || (rc_ o >? 0)
             end in
  if bad then Throw StorageException "Invalid status." else Ret tt.

(** ** [BufferHandle]: the pointer of the handle, null after a move *)

Definition CopyRef s p : outcome (BufferManager W D) :=
  o ← get_obj s p; Ret (set_obj s p (mkBufferObj (type_ o) (status_ o) (to_u64 (rc_ o + 1)) (file_worker_ o))).

(** [BufferHandle::~BufferHandle] *)
Definition DropHandle s (h : option string) : outcome (BufferManager W D) :=
  match h with Some p => UnloadInner s p | None => Ret s end.

(** [BufferHandle::BufferHandle(const BufferHandle &)] *)
Definition CopyHandle s (other : option string) : outcome (BufferManager W D * option string) :=
  match other with Some p => s ← CopyRef s p; Ret (s, other) | None => UB "buffer_obj_ is null" end.

(** [BufferHandle::operator=(const BufferHandle &)] *)
Definition AssignHandle s (h other : option string) : outcome (BufferManager W D * option string) :=
  s ← DropHandle s h; CopyHandle s other.

(** [BufferHandle::operator=(BufferHandle &&)] on two handles: the new values of
    this and the other one. *)
Definition MoveHandle s (h other : option string) : outcome (BufferManager W D * option string * option string) :=
  s ← DropHandle s h; Ret (s, other, None).

(** The memory that a loaded handle gives access to. *)
Definition read_data s p : option D := buffer_map_ s !! p ≫= fun o => fw_data_ (file_worker_ o).

Definition write_data s p (d : D) : outcome (BufferManager W D) :=
  o ← get_obj s p;
  match fw_data_ (file_worker_ o) with
  | Some _ => Ret (set_obj s p (mkBufferObj (type_ o) (status_ o) (rc_ o) (with_data (file_worker_ o) (Some d))))
  | None => UB "data_ is null"
  end.

(** [BufferHandle::GetDataMut] and a store through the pointer. *)
Definition StoreMut s p (d : D) : outcome (BufferManager W D) := s ← GetMutPointer s p; write_data s p d.
End Buffer.
