(* ===== verification/BufferProps.v ===== *)
(** * Properties of the buffer manager

    Buffers keep their contents whatever is evicted, saved and loaded; the
    memory in use stays within the limit; a load fails only if the buffers in
    use leave no room; references are counted exactly. *)
From S2P Require Import Prelude Wire Io FileWorker Buffer.

Local Open Scope Z_scope.

(** ** Sums over the buffers *)

Definition total {A} (f : A -> Z) (m : gmap string A) : Z := map_fold (fun _ a acc => f a + acc) 0 m.

Section Total.
Context {A : Type} (f : A -> Z).
Implicit Types (m : gmap string A).

Lemma total_insert_new m p a : m !! p = None -> total f (<[p := a]> m) = f a + total f m.
Proof. intros Hp. unfold total. rewrite map_fold_insert_L; [done| |done]. intros. lia. Qed.

Lemma total_delete m p a : m !! p = Some a -> total f m = f a + total f (delete p m).
Proof. intros Hp. rewrite <- (insert_delete_id m p a Hp) at 1. apply total_insert_new, lookup_delete_eq. Qed.

Lemma total_insert m p a a' : m !! p = Some a -> total f (<[p := a']> m) = total f m - f a + f a'.
Proof.
  intros Hp. rewrite <- insert_delete_eq, total_insert_new by apply lookup_delete_eq. rewrite (total_delete m p a Hp). lia.
Qed.

Lemma total_ext (g : A -> Z) m : (forall p a, m !! p = Some a -> f a = g a) -> total f m = total g m.
Proof.
  induction m as [|p a m Hp IH] using map_ind; intros Hfg; [done|]. rewrite total_insert_new by done.
  unfold total at 2. rewrite map_fold_insert_L; [|intros; lia|done]. rewrite IH; [|intros q b Hq; apply (Hfg q); rewrite lookup_insert_ne; [done|congruence]].
  by rewrite (Hfg p a (lookup_insert_eq _ _ _)).
Qed.

Lemma total_nonneg m : (forall p a, m !! p = Some a -> 0 <= f a) -> 0 <= total f m.
Proof.
  induction m as [|p a m Hp IH] using map_ind; intros Hf; [done|]. rewrite total_insert_new by done.
  pose proof (Hf p a (lookup_insert_eq _ _ _)). enough (0 <= total f m) by lia. apply IH. intros q b Hq. apply (Hf q).
  rewrite lookup_insert_ne; [done|congruence].
Qed.
End Total.

(** ** References *)

Definition count (p : string) (hs : gmap nat string) : nat := size (filter (fun kv => kv.2 = p) hs).

Lemma count_insert p q h hs : hs !! h = None -> count p (<[h := q]> hs) = ((if decide (q = p) then 1 else 0) + count p hs)%nat.
Proof.
  intros Hh. unfold count. destruct (decide (q = p)) as [->|Hq].
  - rewrite map_filter_insert_True by done. rewrite map_size_insert_None; [done|]. apply map_lookup_filter_None. by left.
  - rewrite map_filter_insert_False by done. by rewrite delete_id.
Qed.

Lemma count_delete p q h hs : hs !! h = Some q -> count p hs = ((if decide (q = p) then 1 else 0) + count p (delete h hs))%nat.
Proof. intros Hh. rewrite <- count_insert with (h := h) by apply lookup_delete_eq. by rewrite insert_delete_id. Qed.

Lemma count_le p hs : (count p hs <= size hs)%nat.
Proof. apply map_subseteq_size, map_filter_subseteq. Qed.

Lemma count_pos p h hs : hs !! h = Some p -> (0 < count p hs)%nat.
Proof. intros Hh. rewrite (count_delete p p h) by done. rewrite decide_True by done. lia. Qed.

Lemma size_delete (hs : gmap nat string) h p : hs !! h = Some p -> size hs = S (size (delete h hs)).
Proof. intros Hh. rewrite <- (insert_delete_id hs h p Hh) at 1. apply map_size_insert_None, lookup_delete_eq. Qed.

(** ** The invariant *)

Section Props.
Context {W D : Type} `{FileImplLaws W D}.
Implicit Types (o : BufferObj W D) (s : BufferManager W D) (p q : string) (d : D) (fs : gmap string (list Z)) (fw : FileWorker W D)
  (hs : gmap nat string) (c : gmap string D).

Definition outside (temp p : string) : Prop := String.prefix temp p = false.

Definition holds_at fs (path : string) (w : W) d : Prop := exists bytes, fs !! path = Some bytes /\ file_of w d bytes.

(** No file, or one of this worker. *)
Definition own_file fs (path : string) (w : W) : Prop := fs !! path = None \/ exists d, holds_at fs path w d.

Definition content_ok fs (temp p : string) o d : Prop :=
  let w := fw_impl (file_worker_ o) in
  match status_ o with
  | kLoaded | kUnloaded =>
      fw_data_ (file_worker_ o) = Some d /\ good_data w d /\
      (type_ o = kPersistent -> holds_at fs p w d) /\ (type_ o = kTemp -> holds_at fs (temp +:+ p) w d)
  | kFreed =>
      fw_data_ (file_worker_ o) = None /\
      (type_ o = kPersistent -> holds_at fs p w d) /\ (type_ o <> kPersistent -> holds_at fs (temp +:+ p) w d)
  | kNew => fw_data_ (file_worker_ o) = None /\ type_ o = kEphemeral /\ AllocateInMemory w None = Ret d
  end.

(** The buffer [o] of key [p] has the contents [d]. *)
Record obj_ok fs (temp p : string) o d : Prop := {
  ok_worker : worker_ok (fw_impl (file_worker_ o));
  ok_path : GetFilePath (file_worker_ o) = p;
  ok_temp : fw_temp_dir_ (file_worker_ o) = temp;
  ok_file : own_file fs p (fw_impl (file_worker_ o));
  ok_spill : own_file fs (temp +:+ p) (fw_impl (file_worker_ o));
  ok_content : content_ok fs temp p o d;
}.

Definition mem_of o : Z := match status_ o with kLoaded | kUnloaded => GetBufferSize o | _ => 0 end.
Definition pin_of o : Z := match status_ o with kLoaded => GetBufferSize o | _ => 0 end.

(** [hs] are the handles that exist, [c] the contents that the buffers stand for. *)
Record inv s hs c : Prop := {
  i_objs p o : buffer_map_ s !! p = Some o -> outside (temp_dir_ s) p /\ exists d, c !! p = Some d /\ obj_ok (disk s) (temp_dir_ s) p o d;
  i_rc p o : buffer_map_ s !! p = Some o -> rc_ o = Z.of_nat (count p hs) /\ (status_ o = kLoaded <-> 0 < rc_ o);
  i_handles h p : hs !! h = Some p -> is_Some (buffer_map_ s !! p);
  i_mem : current_memory_size_ s = total mem_of (buffer_map_ s) /\ current_memory_size_ s <= memory_limit_ s;
  i_limit : 0 <= memory_limit_ s < 2 ^ 63;
  i_unloaded p o : buffer_map_ s !! p = Some o -> status_ o = kUnloaded -> p ∈ gc_queue_ s;
  i_queue p : p ∈ gc_queue_ s -> exists o, buffer_map_ s !! p = Some o /\ status_ o <> kNew;
  i_size : Z.of_nat (size hs) < 2 ^ 64;
}.

Lemma file_at_false fw : file_at fw false = GetFilePath fw.
Proof. done. Qed.

Lemma string_app_assoc (a b e : string) : (a +:+ b) +:+ e = a +:+ (b +:+ e).
Proof. induction a as [|ch a IH]; [done|]. exact (f_equal (String.String ch) IH). Qed.

Lemma file_at_true fw : file_at fw true = fw_temp_dir_ fw +:+ GetFilePath fw.
Proof. unfold file_at, GetFilePath. simpl. by rewrite string_app_assoc. Qed.

Lemma outside_ne temp p q : outside temp q -> q <> temp +:+ p.
Proof.
  intros Ho ->. unfold outside in Ho. revert Ho. induction temp as [|ch temp IH]; [by destruct p|].
  change (String.prefix (String.String ch temp) (String.String ch (temp +:+ p)) = false -> False). cbn [String.prefix].
  destruct (Ascii.ascii_dec ch ch); [exact IH|done].
Qed.

(** Other buffers do not see a change of the files of [p]. *)
Lemma obj_ok_frame fs fs' temp p o d :
  fs' !! p = fs !! p -> fs' !! (temp +:+ p) = fs !! (temp +:+ p) -> obj_ok fs temp p o d -> obj_ok fs' temp p o d.
Proof.
  intros E1 E2 [Hw Hp Ht Hf Hs Hc]. unfold own_file, content_ok, holds_at in *. rewrite <- E1 in Hf. rewrite <- E2 in Hs.
  rewrite <- E1, <- E2 in Hc. by split.
Qed.

(** ** The file operations *)

Lemma WriteToFile_ok fs fw spill d :
  fw_data_ fw = Some d -> worker_ok (fw_impl fw) -> good_data (fw_impl fw) d -> own_file fs (file_at fw spill) (fw_impl fw) ->
  exists bytes h, WriteToFile fs fw spill = Ret (<[file_at fw spill := bytes]> fs, with_handler fw (Some h)) /\
    file_of (fw_impl fw) d bytes /\ fd_open h = true.
Proof.
  intros Hd Hw Hg Hf. unfold WriteToFile. rewrite Hd. set (path := file_at fw spill) in *.
  set (h0 := mkFileHandler path true false true false 0).
  assert (exists fs1 old, OpenFile fs path (Z.lor WRITE_FLAG CREATE_FLAG) = Ret (h0, fs1) /\ fs1 !! path = Some old /\
    (old = [] \/ exists d', file_of (fw_impl fw) d' old) /\ forall bytes, <[path := bytes]> fs1 = <[path := bytes]> fs) as (fs1 & old & -> & Hp & Ho & Hins).
  { unfold OpenFile. simpl. destruct Hf as [->|(d' & bytes & Hp & Hfo)].
    - exists (<[path := []]> fs), []. split_and!; [done|apply lookup_insert_eq|by left|]. intros bytes. apply insert_insert_eq.
    - rewrite Hp. exists fs, bytes. split_and!; [done|done|right; by exists d'|done]. }
  cbn [mbind outcome_bind].
  destruct (write_law (fw_impl fw) d fs1 h0 old Hw Hg eq_refl eq_refl eq_refl eq_refl Hp Ho) as (bytes & h' & -> & Hfo & Hh).
  cbn [mbind outcome_bind]. exists bytes, h'. split_and!; [|done|done]. simpl. by rewrite Hins.
Qed.

Lemma ReadFromFile_ok fs fw spill d :
  holds_at fs (file_at fw spill) (fw_impl fw) d -> ReadFromFile fs fw spill = Ret (with_handler (with_data fw (Some d)) None).
Proof.
  intros (bytes & Hp & Hfo). unfold ReadFromFile, OpenFile. simpl. rewrite Hp. simpl.
  set (h0 := mkFileHandler (file_at fw spill) true true false false 0).
  match goal with |- context [ReadFromFileImpl _ _ ?h] => change h with h0 end.
  destruct (read_law (fw_impl fw) d fs h0 bytes Hfo Hp eq_refl eq_refl eq_refl) as (h' & -> & Hh). simpl. unfold Close. by rewrite Hh.
Qed.

Lemma MoveFile_ok fs fw d :
  holds_at fs (file_at fw true) (fw_impl fw) d ->
  exists bytes, MoveFile fs fw = Ret (<[file_at fw false := bytes]> (delete (file_at fw true) fs)) /\ file_of (fw_impl fw) d bytes.
Proof.
  intros (bytes & Hp & Hfo). exists bytes. unfold MoveFile, Exists, Rename. rewrite Hp. by rewrite bool_decide_true by by eexists.
Qed.

(** ** Freeing *)

Lemma Free_ok s hs c p o :
  inv s hs c -> buffer_map_ s !! p = Some o -> status_ o = kUnloaded ->
  exists fs' fw', Free s p = Ret (set_obj (set_disk s fs') p (mkBufferObj (type_ o) kFreed (rc_ o) fw'), true) /\
    (forall q, q <> temp_dir_ s +:+ p -> fs' !! q = disk s !! q) /\ fw_impl fw' = fw_impl (file_worker_ o) /\
    exists d, c !! p = Some d /\ obj_ok fs' (temp_dir_ s) p (mkBufferObj (type_ o) kFreed (rc_ o) fw') d.
Proof.
  intros Hi Hp Hst. destruct (i_objs _ _ _ Hi p o Hp) as (Hout & d & Hc & Hok). destruct Hok as [Hw Hpath Htemp Hf Hs Hcont].
  unfold content_ok in Hcont. rewrite Hst in Hcont. destruct Hcont as (Hd & Hg & Hper & Htmp).
  assert (file_at (file_worker_ o) true = temp_dir_ s +:+ p) as Hat by (by rewrite file_at_true, Htemp, Hpath).
  assert (p <> temp_dir_ s +:+ p) as Hne by (by apply outside_ne).
  unfold Free, get_obj. rewrite Hp. simpl. rewrite Hst.
  assert (exists fs' fw', match type_ o with kTemp | kPersistent => Ret (disk s, file_worker_ o)
      | kEphemeral => WriteToFile (disk s) (file_worker_ o) true end = Ret (fs', fw') /\
    (forall q, q <> temp_dir_ s +:+ p -> fs' !! q = disk s !! q) /\ fw_impl fw' = fw_impl (file_worker_ o) /\
    GetFilePath fw' = p /\ fw_temp_dir_ fw' = temp_dir_ s /\ fw_data_ fw' = Some d /\
    (type_ o <> kPersistent -> holds_at fs' (temp_dir_ s +:+ p) (fw_impl (file_worker_ o)) d) /\
    own_file fs' (temp_dir_ s +:+ p) (fw_impl (file_worker_ o))) as (fs' & fw' & -> & Hfr & Himpl & Hpath' & Htemp' & Hd' & Hsp & Hown).
  { destruct (type_ o) eqn:Hty.
    - exists (disk s), (file_worker_ o). by split_and!.
    - destruct (WriteToFile_ok (disk s) (file_worker_ o) true d Hd Hw Hg) as (bytes & h & -> & Hfo & _); [by rewrite Hat|].
      rewrite Hat. eexists _, _. split; [done|].
      assert (holds_at (<[temp_dir_ s +:+ p := bytes]> (disk s)) (temp_dir_ s +:+ p) (fw_impl (file_worker_ o)) d) as Hh.
      { exists bytes. by rewrite lookup_insert_eq. }
      split_and!; [intros q Hq; by rewrite lookup_insert_ne|done..|right; by exists d].
    - exists (disk s), (file_worker_ o). by split_and!; [..|intros _; apply Htmp|]. }
  cbn [mbind outcome_bind]. rewrite Hd', free_law. cbn [mbind outcome_bind]. exists fs', (with_data fw' None).
  split; [done|]. split; [done|]. split; [done|]. exists d. split; [done|].
  assert (fs' !! p = disk s !! p) as Efp by (by apply Hfr).
  split; simpl; [by rewrite Himpl|done|done|rewrite Himpl; unfold own_file, holds_at in *; by rewrite Efp|by rewrite Himpl|].
  unfold content_ok. simpl. rewrite Himpl. split_and!; [done| |done]. intros Hty. destruct (Hper Hty) as (b & Hb & Hfo).
  exists b. by rewrite Efp.
Qed.

(** ** One buffer changes *)

Record changes s hs c p o s' hs' c' o' : Prop := {
  ch_temp : temp_dir_ s' = temp_dir_ s;
  ch_limit : memory_limit_ s' = memory_limit_ s;
  ch_map : buffer_map_ s' = <[p := o']> (buffer_map_ s);
  ch_disk q : q <> p -> q <> temp_dir_ s +:+ p -> disk s' !! q = disk s !! q;
  ch_content q : q <> p -> c' !! q = c !! q;
  ch_obj : exists d, c' !! p = Some d /\ obj_ok (disk s') (temp_dir_ s) p o' d;
  ch_mem : current_memory_size_ s' = current_memory_size_ s - mem_of o + mem_of o' /\ current_memory_size_ s' <= memory_limit_ s;
  ch_count q : q <> p -> count q hs' = count q hs;
  ch_rc : rc_ o' = Z.of_nat (count p hs') /\ (status_ o' = kLoaded <-> 0 < rc_ o');
  ch_handles h q : hs' !! h = Some q -> is_Some (buffer_map_ s !! q);
  ch_size : Z.of_nat (size hs') < 2 ^ 64;
  ch_keep q : q <> p -> q ∈ gc_queue_ s -> q ∈ gc_queue_ s';
  ch_unloaded : status_ o' = kUnloaded -> p ∈ gc_queue_ s';
  ch_queue q : q ∈ gc_queue_ s' -> q ∈ gc_queue_ s \/ q = p;
  ch_new : status_ o' = kNew -> status_ o = kNew;
  ch_old : status_ o = kNew -> p ∉ gc_queue_ s';
}.

Lemma changes_inv s hs c p o s' hs' c' o' :
  inv s hs c -> buffer_map_ s !! p = Some o -> changes s hs c p o s' hs' c' o' -> inv s' hs' c'.
Proof.
  intros Hi Hp Hch. destruct (i_objs _ _ _ Hi p o Hp) as [Hout _].
  split; rewrite ?(ch_temp _ _ _ _ _ _ _ _ _ Hch), ?(ch_limit _ _ _ _ _ _ _ _ _ Hch), ?(ch_map _ _ _ _ _ _ _ _ _ Hch).
  - intros q o1 [[<- <-]|[Hne Hq]]%lookup_insert_Some; [split; [done|apply Hch]|].
    destruct (i_objs _ _ _ Hi q o1 Hq) as (Hout' & d & Hc & Hok). split; [done|]. exists d.
    split; [by rewrite (ch_content _ _ _ _ _ _ _ _ _ Hch)|]. eapply obj_ok_frame; [..|exact Hok]; apply (ch_disk _ _ _ _ _ _ _ _ _ Hch).
    + congruence.
    + by apply outside_ne.
    + intros E. by apply (outside_ne (temp_dir_ s) q p Hout).
    + by intros ?%(inj (String.append (temp_dir_ s))).
  - intros q o1 [[<- <-]|[Hne Hq]]%lookup_insert_Some; [apply Hch|]. rewrite (ch_count _ _ _ _ _ _ _ _ _ Hch) by done. by apply (i_rc _ _ _ Hi).
  - intros h q Hh. destruct (decide (q = p)) as [->|Hne]; [rewrite lookup_insert_eq; by eexists|]. rewrite lookup_insert_ne by done.
    by apply (ch_handles _ _ _ _ _ _ _ _ _ Hch h).
  - destruct (ch_mem _ _ _ _ _ _ _ _ _ Hch) as [-> ?]. destruct (i_mem _ _ _ Hi) as [Em _]. rewrite (total_insert _ _ _ o) by done. lia.
  - apply Hi.
  - intros q o1 [[<- <-]|[Hne Hq]]%lookup_insert_Some Hst; [by apply (ch_unloaded _ _ _ _ _ _ _ _ _ Hch)|].
    apply (ch_keep _ _ _ _ _ _ _ _ _ Hch); [done|]. by eapply (i_unloaded _ _ _ Hi).
  - intros q Hq. destruct (decide (q = p)) as [->|Hne].
    + exists o'. split; [apply lookup_insert_eq|]. intros Hnew%(ch_new _ _ _ _ _ _ _ _ _ Hch). by apply (ch_old _ _ _ _ _ _ _ _ _ Hch Hnew).
    + rewrite lookup_insert_ne by done. apply (i_queue _ _ _ Hi). by destruct (ch_queue _ _ _ _ _ _ _ _ _ Hch q Hq).
  - apply Hch.
Qed.

Lemma cost_nonneg s hs c p o : inv s hs c -> buffer_map_ s !! p = Some o -> 0 <= GetBufferSize o < 2 ^ 63.
Proof. intros Hi Hp. destruct (i_objs _ _ _ Hi p o Hp) as (_ & d & _ & Hok). apply cost_range, Hok. Qed.

Lemma memory_range s hs c : inv s hs c -> 0 <= current_memory_size_ s < 2 ^ 63.
Proof.
  intros Hi. destruct (i_mem _ _ _ Hi) as [Em Hl]. pose proof (i_limit _ _ _ Hi) as Hlim. split; [|lia]. rewrite Em. apply total_nonneg. intros p o Hp. pose proof (cost_nonneg _ _ _ _ _ Hi Hp). unfold mem_of. destruct (status_ o); lia.
Qed.

(** ** Making room *)

Lemma total_in f m p o :
  (forall q o', m !! q = Some o' -> 0 <= f o') -> m !! p = Some o -> f o <= total f m.
Proof.
  intros Hf Hp. rewrite (total_delete f m p o Hp). enough (0 <= total f (delete p m)) by lia.
  apply total_nonneg. intros q o' [_ Hq]%lookup_delete_Some. by apply (Hf q).
Qed.

(** What eviction leaves alone. *)
Definition evicts s s' p : Prop :=
  temp_dir_ s' = temp_dir_ s /\ memory_limit_ s' = memory_limit_ s /\ buffer_map_ s' !! p = buffer_map_ s !! p /\
  total pin_of (buffer_map_ s') = total pin_of (buffer_map_ s) /\
  (forall q o, buffer_map_ s !! q = Some o -> status_ o = kLoaded -> buffer_map_ s' !! q = Some o).

Lemma evicts_refl s p : evicts s s p.
Proof. done. Qed.

Lemma evicts_trans s1 s2 s3 p : evicts s1 s2 p -> evicts s2 s3 p -> evicts s1 s3 p.
Proof. unfold evicts. intros (? & ? & ? & ? & Hl) (? & ? & ? & ? & Hl'). split_and!; [congruence..|]. eauto. Qed.

Lemma Free_queue s rest p : Free (set_queue s rest) p = ('(s', freed) ← Free s p; Ret (set_queue s' rest, freed)).
Proof.
  unfold Free, get_obj. simpl. destruct (buffer_map_ s !! p) as [o|]; [|done]. simpl. destruct (status_ o); [done| |done|done].
  destruct (match type_ o with kEphemeral => _ | _ => _ end) as [[fs1 fw1]| |]; [|done..]. simpl.
  by destruct (FreeInMemory _ _).
Qed.

(** A buffer that is not waiting can leave the queue. *)
Lemma pop_inv s hs c p o rest :
  inv s hs c -> buffer_map_ s !! p = Some o -> status_ o <> kUnloaded -> gc_queue_ s = p :: rest -> inv (set_queue s rest) hs c.
Proof.
  intros Hi Hp Hst Hq. destruct (i_objs _ _ _ Hi p o Hp) as (Hout & d & Hc & Hok). eapply changes_inv; [exact Hi|exact Hp|].
  split with (o' := o); simpl; try done.
  - by rewrite insert_id.
  - by exists d.
  - destruct (i_mem _ _ _ Hi). lia.
  - by apply (i_rc _ _ _ Hi).
  - intros h q Hh. by apply (i_handles _ _ _ Hi h).
  - apply Hi.
  - intros q Hqn Hin. rewrite Hq in Hin. by apply elem_of_cons in Hin as [?|?].
  - intros q Hin. left. rewrite Hq. by right.
  - intros Hnew. destruct (i_queue _ _ _ Hi p) as (o1 & Hp1 & Hn); [rewrite Hq; by left|]. congruence.
Qed.

(** One buffer of the queue. *)
Lemma FreeOne_ok s hs c p p1 rest :
  inv s hs c -> gc_queue_ s = p1 :: rest -> p <> p1 ->
  exists s', FreeOne (set_queue s rest) p1 = Ret s' /\ inv s' hs c /\ gc_queue_ s' = rest /\ evicts s s' p /\
    current_memory_size_ s' <= current_memory_size_ s.
Proof.
  intros Hi Hq Hne. destruct (i_queue _ _ _ Hi p1) as (o & Hp1 & Hnew); [rewrite Hq; by left|].
  pose proof (cost_nonneg _ _ _ _ _ Hi Hp1) as Hcost. pose proof (memory_range _ _ _ Hi) as Hmem.
  destruct (i_objs _ _ _ Hi p1 o Hp1) as (Hout & d & Hc & Hok).
  destruct (decide (status_ o = kUnloaded)) as [Hst|Hst].
  - destruct (Free_ok s hs c p1 o Hi Hp1 Hst) as (fs' & fw' & E & Hfr & Himpl & d' & Hc' & Hok').
    set (o' := mkBufferObj (type_ o) kFreed (rc_ o) fw') in *.
    assert (Free (set_queue s rest) p1 = Ret (set_obj (set_disk (set_queue s rest) fs') p1 o', true)) as E'.
    { rewrite Free_queue, E. done. }
    unfold FreeOne. rewrite E'. simpl. unfold get_obj. simpl. rewrite lookup_insert_eq. simpl.
    assert (GetBufferSize o' = GetBufferSize o) as Hsz by (unfold GetBufferSize, o'; simpl; by rewrite Himpl). rewrite Hsz.
    assert (GetBufferSize o <= current_memory_size_ s) as Hle.
    { destruct (i_mem _ _ _ Hi) as [-> _]. replace (GetBufferSize o) with (mem_of o) by (unfold mem_of; by rewrite Hst).
      apply (total_in mem_of _ p1); [|done]. intros q oq Hoq. pose proof (cost_nonneg _ _ _ _ _ Hi Hoq). unfold mem_of. destruct (status_ oq); lia. }
    unfold to_u64. rewrite u_wrap_id by (unfold u_range; lia). eexists. split; [done|]. destruct (i_mem _ _ _ Hi) as [_ Hlim].
    split; [|split; [done|split; [|simpl; lia]]].
    + eapply changes_inv; [exact Hi|exact Hp1|]. split; simpl; try done.
      * by intros q _ Hq'; apply Hfr.
      * by exists d'.
      * unfold mem_of. simpl. rewrite Hst. lia.
      * destruct (i_rc _ _ _ Hi p1 o Hp1) as [Hrc Hld]. split; [done|]. rewrite Hst in Hld. simpl. split; [done|]. by intros ?%Hld.
      * intros h q Hh. by apply (i_handles _ _ _ Hi h).
      * apply Hi.
      * intros q Hqn Hin. rewrite Hq in Hin. by apply elem_of_cons in Hin as [?|?].
      * intros q Hin. left. rewrite Hq. by right.
    + split_and!; simpl; [done|done|by rewrite lookup_insert_ne| |].
      * rewrite (total_insert _ _ _ o) by done. unfold pin_of at 2 3. rewrite Hst. simpl. lia.
      * intros q oq Hoq Hl. rewrite lookup_insert_ne; [done|]. intros <-. congruence.
  - exists (set_queue s rest). unfold FreeOne, Free, get_obj. simpl. rewrite Hp1. simpl.
    split; [by destruct (status_ o)|]. split; [|split; [done|split; [done|simpl; lia]]].
    by eapply pop_inv.
Qed.

(** With an empty queue only buffers in use are in memory. *)
Lemma empty_queue_pinned s hs c : inv s hs c -> gc_queue_ s = [] -> current_memory_size_ s = total pin_of (buffer_map_ s).
Proof.
  intros Hi Hq. destruct (i_mem _ _ _ Hi) as [-> _]. apply total_ext. intros p o Hp. unfold mem_of, pin_of.
  destruct (status_ o) eqn:Hst; [done| |done|done]. pose proof (i_unloaded _ _ _ Hi p o Hp Hst) as Hin. rewrite Hq in Hin.
  by apply elem_of_nil in Hin.
Qed.

Lemma pin_le_mem s hs c : inv s hs c -> total pin_of (buffer_map_ s) <= current_memory_size_ s.
Proof.
  intros Hi. destruct (i_mem _ _ _ Hi) as [-> _].
  assert (0 <= total (fun o => mem_of o - pin_of o) (buffer_map_ s)) as Hd.
  { apply total_nonneg. intros p o Hp. pose proof (cost_nonneg _ _ _ _ _ Hi Hp). unfold mem_of, pin_of. destruct (status_ o); lia. }
  enough (total (fun o => mem_of o - pin_of o) (buffer_map_ s) = total mem_of (buffer_map_ s) - total pin_of (buffer_map_ s)) by lia.
  clear. induction (buffer_map_ s) as [|p o m Hp IH] using map_ind; [done|]. rewrite !total_insert_new by done. lia.
Qed.

Lemma RequestLoop_ok fuel s hs c p o need :
  inv s hs c -> buffer_map_ s !! p = Some o -> status_ o = kFreed \/ status_ o = kNew -> 0 <= need < 2 ^ 63 ->
  (length (gc_queue_ s) < fuel)%nat ->
  exists s' b, RequestLoop fuel s need p = Some (Ret (s', b)) /\ inv s' hs c /\ evicts s s' p /\
    if b : bool then current_memory_size_ s' + need <= memory_limit_ s'
    else current_memory_size_ s' = total pin_of (buffer_map_ s') /\ memory_limit_ s' < current_memory_size_ s' + need.
Proof.
  revert s. induction fuel as [|fuel IH]; intros s Hi Hp Hst Hneed Hf; [lia|]. cbn [RequestLoop].
  pose proof (memory_range _ _ _ Hi) as Hmem. unfold to_u64. rewrite u_wrap_id by (unfold u_range; lia).
  destruct (_ >? _) eqn:E; zbool; [|exists s, true; split_and!; [done|done|apply evicts_refl|lia]].
  destruct (gc_queue_ s) as [|p1 rest] eqn:Hq.
  { exists s, false. split_and!; [done|done|apply evicts_refl|by eapply empty_queue_pinned|lia]. }
  simpl in Hf. case_bool_decide as Hpp.
  - subst p1. unfold get_obj. simpl. rewrite Hp. destruct (i_queue _ _ _ Hi p) as (o1 & Hp1 & Hnew); [rewrite Hq; by left|].
    rewrite Hp in Hp1. injection Hp1 as <-. rewrite bool_decide_true by tauto.
    destruct (IH (set_queue s rest)) as (s' & b & E' & Hi' & Hev & Hb); [|done|done|done|simpl; lia|].
    + eapply pop_inv; [done|done| |done]. destruct Hst; congruence.
    + by exists s', b.
  - destruct (FreeOne_ok s hs c p p1 rest Hi Hq Hpp) as (s1 & -> & Hi1 & Hq1 & Hev1 & _).
    destruct (IH s1 Hi1) as (s' & b & E' & Hi' & Hev & Hb); [destruct Hev1 as (_ & _ & -> & _); done|done|done|rewrite Hq1; lia|].
    exists s', b. split_and!; [done|done|by eapply evicts_trans|done].
Qed.

(** ** Loading *)

Lemma load_inv s hs c p o ty fw h d mem :
  inv s hs c -> buffer_map_ s !! p = Some o -> hs !! h = None -> Z.of_nat (size hs) + 1 < 2 ^ 64 -> c !! p = Some d ->
  fw_impl fw = fw_impl (file_worker_ o) ->
  obj_ok (disk s) (temp_dir_ s) p (mkBufferObj ty kLoaded (to_u64 (rc_ o + 1)) fw) d ->
  mem = current_memory_size_ s - mem_of o + GetBufferSize o -> mem <= memory_limit_ s ->
  inv (FinishLoad (set_memory s mem) p o ty fw) (<[h := p]> hs) c.
Proof.
  intros Hi Hp Hh Hsz Hc Himpl Hok Hmem Hle. destruct (i_rc _ _ _ Hi p o Hp) as [Hrc Hld].
  pose proof (count_le p hs) as Hcl. assert (to_u64 (rc_ o + 1) = Z.of_nat (count p (<[h := p]> hs))) as Hrc'.
  { rewrite count_insert, decide_True, Hrc by done. unfold to_u64. rewrite u_wrap_id by (unfold u_range; lia). lia. }
  eapply changes_inv; [exact Hi|exact Hp|]. split; simpl; try done.
  - by exists d.
  - unfold mem_of at 2, GetBufferSize at 1. simpl. rewrite Himpl. by split.
  - intros q Hq. rewrite count_insert by done. by rewrite decide_False by congruence.
  - split; [done|]. split; [|done]. intros _. rewrite Hrc'. pose proof (count_pos p h (<[h := p]> hs) (lookup_insert_eq _ _ _)). simpl. lia.
  - intros h1 q [[_ <-]|[_ Hq]]%lookup_insert_Some; [by eexists|by apply (i_handles _ _ _ Hi h1)].
  - rewrite map_size_insert_None by done. lia.
  - by left.
  - intros Hnew Hin. destruct (i_queue _ _ _ Hi p Hin) as (o1 & Hp1 & Hn). congruence.
Qed.

Lemma set_memory_id s : set_memory s (current_memory_size_ s) = s.
Proof. by destruct s. Qed.

Lemma Load_ok fuel s hs c p o h :
  inv s hs c -> buffer_map_ s !! p = Some o -> hs !! h = None -> Z.of_nat (size hs) + 1 < 2 ^ 64 -> (length (gc_queue_ s) < fuel)%nat ->
  exists s' b, Load fuel s p = Some (Ret (s', b)) /\
    if b : bool then inv s' (<[h := p]> hs) c /\ read_data s' p = c !! p
    else inv s' hs c /\ mem_of o = 0 /\ memory_limit_ s < total pin_of (buffer_map_ s) + GetBufferSize o.
Proof.
  intros Hi Hp Hh Hsz Hf. destruct (i_objs _ _ _ Hi p o Hp) as (Hout & d & Hc & Hok). pose proof Hok as [Hw Hpath Htemp Hown Hsp Hcont].
  pose proof (cost_nonneg _ _ _ _ _ Hi Hp) as Hcost. unfold Load, get_obj. rewrite Hp.
  assert (status_ o = kFreed \/ status_ o = kNew ->
    (exists s1, RequestSpace fuel s (GetBufferSize o) p = Some (Ret (set_memory s1 (current_memory_size_ s1 + GetBufferSize o), true)) /\
      inv s1 hs c /\ evicts s s1 p /\ current_memory_size_ s1 + GetBufferSize o <= memory_limit_ s1) \/
    (exists s1, RequestSpace fuel s (GetBufferSize o) p = Some (Ret (s1, false)) /\ inv s1 hs c /\
      memory_limit_ s < total pin_of (buffer_map_ s) + GetBufferSize o)) as Hreq.
  { intros Hst. destruct (RequestLoop_ok fuel s hs c p o (GetBufferSize o) Hi Hp Hst Hcost Hf) as (s1 & b & E & Hi1 & Hev & Hb).
    unfold RequestSpace. rewrite E. destruct b; [left|right]; exists s1.
    - pose proof (memory_range _ _ _ Hi1). unfold AddSpace, to_u64. rewrite u_wrap_id by (unfold u_range; lia). by split_and!.
    - destruct Hev as (_ & El & _ & Et & _). split_and!; [done|done|lia]. }
  unfold content_ok in Hcont. destruct (status_ o) eqn:Hst.
  1,2: exists (FinishLoad s p o (type_ o) (file_worker_ o)), true; split; [done|]; split;
    [|unfold read_data; simpl; rewrite lookup_insert_eq; simpl; rewrite Hc; apply Hcont];
    rewrite <- (set_memory_id s) at 1; destruct (i_mem _ _ _ Hi); eapply load_inv; try done;
    first [by (destruct Hok; split)|by (unfold mem_of; rewrite Hst; lia)].
  - destruct (Hreq (or_introl eq_refl)) as [(s1 & -> & Hi1 & Hev & Hle)|(s1 & -> & Hi1 & Hlt)];
      [|exists s1, false; split_and!; [done|done|by unfold mem_of; rewrite Hst|done]].
    destruct Hev as (Et & _ & Em & _). rewrite Hp in Em. destruct (i_objs _ _ _ Hi1 p o Em) as (_ & d1 & Hc1 & Hok1).
    rewrite Hc in Hc1. injection Hc1 as <-. pose proof (ok_content _ _ _ _ _ Hok1) as Hcont1. unfold content_ok in Hcont1. rewrite Hst in Hcont1.
    destruct Hcont1 as (_ & Hper & Htmp). simpl.
    assert (holds_at (disk s1) (file_at (file_worker_ o) (negb (bool_decide (type_ o = kPersistent)))) (fw_impl (file_worker_ o)) d) as Hhold.
    { case_bool_decide as Hty; [by rewrite file_at_false, Hpath; apply Hper|by rewrite file_at_true, Htemp, <- Et, Hpath; apply Htmp]. }
    rewrite (ReadFromFile_ok _ _ _ _ Hhold). simpl. eexists _, true. split; [done|]. split.
    + destruct Hhold as (bytes & _ & Hfo). eapply load_inv; try done; [|unfold mem_of; rewrite Hst; lia].
      destruct Hok1. split; simpl; try done. unfold content_ok. simpl. split_and!; [done|by eapply file_good| |].
      * case_bool_decide; [done|]. apply Hper.
      * intros Hty. apply Htmp. destruct (type_ o); done.
    + unfold read_data. simpl. by rewrite lookup_insert_eq.
  - destruct (Hreq (or_intror eq_refl)) as [(s1 & -> & Hi1 & Hev & Hle)|(s1 & -> & Hi1 & Hlt)];
      [|exists s1, false; split_and!; [done|done|by unfold mem_of; rewrite Hst|done]].
    destruct Hev as (Et & _ & Em & _). rewrite Hp in Em. destruct (i_objs _ _ _ Hi1 p o Em) as (_ & d1 & Hc1 & Hok1).
    rewrite Hc in Hc1. injection Hc1 as <-. destruct Hcont as (-> & Hty & Hal). simpl. rewrite Hal. simpl.
    eexists _, true. split; [done|]. split; [|unfold read_data; simpl; by rewrite lookup_insert_eq].
    eapply load_inv; try done; [|unfold mem_of; rewrite Hst; lia]. destruct Hok1. split; simpl; try done. unfold content_ok. simpl.
    rewrite Hty. split_and!; [done| |done|done]. destruct (alloc_law _ Hw) as (d1 & Hal1 & Hg). rewrite Hal in Hal1. by simplify_eq.
Qed.

(** ** The other operations *)

(** A live handle points to a loaded buffer. *)
Lemma handle_loaded s hs c h p :
  inv s hs c -> hs !! h = Some p -> exists o, buffer_map_ s !! p = Some o /\ status_ o = kLoaded /\ 0 < rc_ o.
Proof.
  intros Hi Hh. destruct (i_handles _ _ _ Hi h p Hh) as [o Hp]. exists o. destruct (i_rc _ _ _ Hi p o Hp) as [Hrc Hld].
  pose proof (count_pos p h hs Hh). assert (0 < rc_ o) as Hpos by lia. by apply Hld in Hpos as Hst.
Qed.

Lemma queue_not_new s hs c p o : inv s hs c -> buffer_map_ s !! p = Some o -> status_ o = kNew -> p ∉ gc_queue_ s.
Proof. intros Hi Hp Hst Hin. destruct (i_queue _ _ _ Hi p Hin) as (o1 & Hp1 & Hn). congruence. Qed.

Lemma Unload_ok s hs c h p :
  inv s hs c -> hs !! h = Some p -> exists s', UnloadInner s p = Ret s' /\ inv s' (delete h hs) c.
Proof.
  intros Hi Hh. destruct (handle_loaded _ _ _ _ _ Hi Hh) as (o & Hp & Hst & Hpos).
  destruct (i_objs _ _ _ Hi p o Hp) as (_ & d & Hc & Hok). destruct (i_rc _ _ _ Hi p o Hp) as [Hrc _]. destruct (i_mem _ _ _ Hi) as [_ Hle].
  pose proof (count_delete p p h hs Hh) as Hcd. rewrite decide_True in Hcd by done. pose proof (count_le p hs) as Hcl. pose proof (i_size _ _ _ Hi) as Hsz.
  unfold UnloadInner, get_obj. rewrite Hp. simpl. rewrite Hst.
  assert (to_u64 (rc_ o - 1) = Z.of_nat (count p (delete h hs))) as -> by (unfold to_u64; rewrite u_wrap_id by (unfold u_range; lia); lia).
  assert (forall q, q <> p -> count q (delete h hs) = count q hs) as Hcnt.
  { intros q Hq. rewrite (count_delete q p h hs Hh). by rewrite decide_False by congruence. }
  assert (forall h1 q, delete h hs !! h1 = Some q -> is_Some (buffer_map_ s !! q)) as Hhs.
  { intros h1 q [_ Hq]%lookup_delete_Some. by apply (i_handles _ _ _ Hi h1). }
  assert (size (delete h hs) <= size hs)%nat as Hds by (apply map_subseteq_size, delete_subseteq).
  destruct (Z.of_nat (count p (delete h hs)) =? 0) eqn:E; zbool; (eexists; split; [done|]); (eapply changes_inv; [exact Hi|exact Hp|]).
  - split; simpl; try done; [| | |lia|set_solver|set_solver|set_solver|congruence].
    + exists d. split; [done|]. destruct Hok as [? ? ? ? ? Hcont]. split; try done. unfold content_ok in *. by rewrite Hst in Hcont.
    + unfold mem_of, GetBufferSize. simpl. rewrite Hst. lia.
    + split; [done|]. simpl. split; [done|lia].
  - split; simpl; try done; [| | |lia|set_solver|congruence].
    + exists d. split; [done|]. destruct Hok as [? ? ? ? ? Hcont]. split; try done. unfold content_ok in *. by rewrite Hst in Hcont.
    + unfold mem_of, GetBufferSize. simpl. rewrite Hst. lia.
    + split; [done|]. simpl. split; [lia|done].
Qed.

Lemma Copy_ok s hs c h h' p :
  inv s hs c -> hs !! h = Some p -> hs !! h' = None -> Z.of_nat (size hs) + 1 < 2 ^ 64 ->
  exists s', CopyRef s p = Ret s' /\ inv s' (<[h' := p]> hs) c.
Proof.
  intros Hi Hh Hh' Hsz. destruct (handle_loaded _ _ _ _ _ Hi Hh) as (o & Hp & Hst & Hpos).
  destruct (i_objs _ _ _ Hi p o Hp) as (_ & d & Hc & Hok). destruct (i_mem _ _ _ Hi) as [_ Hle].
  unfold CopyRef, get_obj. rewrite Hp. simpl. eexists. split; [done|]. rewrite Hst.
  change (set_obj s p _) with (FinishLoad s p o (type_ o) (file_worker_ o)).
  rewrite <- (set_memory_id s) at 1. eapply load_inv; try done; [|unfold mem_of; rewrite Hst; lia].
  destruct Hok as [? ? ? ? ? Hcont]. split; try done. unfold content_ok in *. by rewrite Hst in Hcont.
Qed.

Lemma Store_ok s hs c h p d :
  inv s hs c -> hs !! h = Some p ->
  (forall o, buffer_map_ s !! p = Some o -> good_data (fw_impl (file_worker_ o)) d) ->
  exists s', StoreMut s p d = Ret s' /\ inv s' hs (<[p := d]> c) /\ read_data s' p = Some d.
Proof.
  intros Hi Hh Hg. destruct (handle_loaded _ _ _ _ _ Hi Hh) as (o & Hp & Hst & Hpos). specialize (Hg o Hp).
  destruct (i_objs _ _ _ Hi p o Hp) as (_ & d0 & Hc & Hok). destruct (i_mem _ _ _ Hi) as [_ Hle].
  destruct Hok as [Hw Hpath Htemp Hown Hsp Hcont]. unfold content_ok in Hcont. rewrite Hst in Hcont. destruct Hcont as (Hd & _).
  unfold StoreMut, GetMutPointer, write_data, get_obj. rewrite Hp. simpl. rewrite lookup_insert_eq. simpl. rewrite Hd.
  eexists. split; [done|]. split; [|unfold read_data; simpl; by rewrite lookup_insert_eq].
  eapply changes_inv; [exact Hi|exact Hp|]. split with (o' := mkBufferObj kEphemeral (status_ o) (rc_ o) (with_data (file_worker_ o) (Some d))); simpl; try done.
  - by rewrite insert_insert_eq.
  - intros q Hq. by rewrite lookup_insert_ne.
  - exists d. split; [apply lookup_insert_eq|]. split; simpl; try done. unfold content_ok. simpl. by rewrite Hst.
  - unfold mem_of, GetBufferSize. simpl. rewrite Hst. lia.
  - by apply (i_rc _ _ _ Hi).
  - apply Hi.
  - apply Hi.
  - intros Hu. by eapply (i_unloaded _ _ _ Hi).
  - by left.
  - by apply (queue_not_new _ _ _ _ _ Hi).
Qed.

(** The buffer has been saved: its file holds the contents. *)
Definition saved s c p : Prop :=
  exists o d, buffer_map_ s !! p = Some o /\ type_ o = kPersistent /\ c !! p = Some d /\ holds_at (disk s) p (fw_impl (file_worker_ o)) d.

(** A save that leaves the status. *)
Lemma save_inv s hs c p o fs' fw' d :
  inv s hs c -> buffer_map_ s !! p = Some o -> status_ o <> kNew -> c !! p = Some d ->
  (forall q, q <> p -> q <> temp_dir_ s +:+ p -> fs' !! q = disk s !! q) ->
  fw_impl fw' = fw_impl (file_worker_ o) -> GetFilePath fw' = p -> fw_temp_dir_ fw' = temp_dir_ s -> fw_data_ fw' = fw_data_ (file_worker_ o) ->
  holds_at fs' p (fw_impl fw') d -> own_file fs' (temp_dir_ s +:+ p) (fw_impl fw') ->
  let s' := set_obj (set_disk s fs') p (mkBufferObj kPersistent (status_ o) (rc_ o) fw') in inv s' hs c /\ saved s' c p.
Proof.
  intros Hi Hp Hnew Hc Hfr Himpl Hpath Htemp Hdata Hhold Hown s'. destruct (i_objs _ _ _ Hi p o Hp) as (_ & d0 & Hc0 & Hok).
  rewrite Hc in Hc0. injection Hc0 as <-. destruct (i_mem _ _ _ Hi) as [_ Hle]. split.
  - eapply changes_inv; [exact Hi|exact Hp|]. unfold s'. split; simpl; try done.
    + exists d. split; [done|]. destruct Hok as [Hw _ _ _ _ Hcont]. split; simpl; [by rewrite Himpl|done|done|right; by exists d|done|].
      unfold content_ok in *. simpl. rewrite Hdata. destruct (status_ o); [..|done].
      * destruct Hcont as (-> & Hg & _). by rewrite Himpl in *.
      * destruct Hcont as (-> & Hg & _). by rewrite Himpl in *.
      * destruct Hcont as (-> & _). by split_and!; [..|intros []].
    + unfold mem_of, GetBufferSize. simpl. rewrite Himpl. destruct (status_ o); lia.
    + exact (i_rc _ _ _ Hi p o Hp).
    + apply Hi.
    + apply Hi.
    + intros Hu. by eapply (i_unloaded _ _ _ Hi).
    + by left.
  - exists (mkBufferObj kPersistent (status_ o) (rc_ o) fw'), d. unfold s'. simpl. by rewrite lookup_insert_eq.
Qed.

Lemma Save_ok s hs c p o :
  inv s hs c -> buffer_map_ s !! p = Some o -> status_ o <> kNew ->
  exists s', SaveAndClose s p = Ret s' /\ inv s' hs c /\ saved s' c p.
Proof.
  intros Hi Hp Hnew. destruct (i_objs _ _ _ Hi p o Hp) as (Hout & d & Hc & Hok).
  assert (p <> temp_dir_ s +:+ p) as Hne by (by apply outside_ne).
  destruct Hok as [Hw Hpath Htemp Hown Hsp Hcont]. unfold SaveAndClose, Save, get_obj. rewrite Hp. simpl.
  case_bool_decide as Hty; simpl.
  { exists s. split_and!; [done|done|]. exists o, d. split_and!; [done..|]. unfold content_ok in Hcont.
    destruct (status_ o); [apply Hcont; done..|done]. }
  assert (file_at (file_worker_ o) true = temp_dir_ s +:+ p) as Hat by (by rewrite file_at_true, Htemp, Hpath).
  assert (forall w, own_file (disk s) (temp_dir_ s +:+ p) w ->
    forall bytes, own_file (<[p := bytes]> (disk s)) (temp_dir_ s +:+ p) w) as Hspill.
  { intros w Hs bytes. unfold own_file, holds_at in *. by rewrite lookup_insert_ne. }
  assert (fw_data_ (file_worker_ o) = Some d /\ good_data (fw_impl (file_worker_ o)) d ->
    exists bytes h, WriteToFile (disk s) (file_worker_ o) false = Ret (<[p := bytes]> (disk s), with_handler (file_worker_ o) (Some h)) /\
      file_of (fw_impl (file_worker_ o)) d bytes /\ fd_open h = true) as Hwrite.
  { intros [Hd Hg]. pose proof (WriteToFile_ok (disk s) (file_worker_ o) false d Hd Hw Hg) as HW.
    rewrite file_at_false, Hpath in HW. by apply HW. }
  unfold content_ok in Hcont. destruct (status_ o) eqn:Hst; [..|done];
  match type of Hst with _ = kFreed => idtac | _ => destruct Hcont as (Hd & Hg & _); destruct Hwrite as (bytes & h & -> & Hfo & Hh); [done|]; simpl;
    unfold BufferSync, BufferCloseFile, get_obj; simpl; rewrite lookup_insert_eq; simpl; unfold SyncFile, CloseFile, Close; simpl;
    rewrite Hh; simpl; eexists; split; [done|]; rewrite <- Hst;
    match goal with |- context [set_obj (set_obj ?s1 p _) p ?o2] =>
      replace (set_obj (set_obj s1 p _) p o2) with (set_obj s1 p o2) by (unfold set_obj; simpl; by rewrite insert_insert_eq) end;
    eapply save_inv; try done; [congruence|intros q Hq _; by rewrite lookup_insert_ne|exists bytes; by rewrite lookup_insert_eq|by apply Hspill]
  end.
  destruct Hcont as (Hd & _ & Htmp). destruct (MoveFile_ok (disk s) (file_worker_ o) d) as (bytes & -> & Hfo); [rewrite Hat; by apply Htmp|]. simpl.
  rewrite file_at_false, Hpath, Hat. eexists. split; [done|]. rewrite <- Hst. eapply save_inv; try done.
  - congruence.
  - intros q Hq Hq'. by rewrite lookup_insert_ne, lookup_delete_ne.
  - exists bytes. by rewrite lookup_insert_eq.
  - left. by rewrite lookup_insert_ne, lookup_delete_eq.
Qed.

(** A new buffer without references. *)
Lemma add_inv s hs c p o d :
  inv s hs c -> buffer_map_ s !! p = None -> outside (temp_dir_ s) p -> rc_ o = 0 -> status_ o = kNew \/ status_ o = kFreed ->
  obj_ok (disk s) (temp_dir_ s) p o d -> inv (set_obj s p o) hs (<[p := d]> c).
Proof.
  intros Hi Hp Hout Hrc Hst Hok.
  assert (forall h, hs !! h <> Some p) as Hno by (intros h Hh; destruct (i_handles _ _ _ Hi h p Hh); congruence).
  assert (count p hs = 0%nat) as Hc0.
  { unfold count. apply map_size_empty_iff, map_empty. intros h. apply map_lookup_filter_None. right. intros q Hq Eq. simpl in Eq. subst q. by apply (Hno h). }
  split; simpl; [| | | |apply Hi| | |apply Hi].
  - intros q o1 [[<- <-]|[Hne Hq]]%lookup_insert_Some; [split; [done|]; exists d; by rewrite lookup_insert_eq|].
    rewrite lookup_insert_ne by done. by apply (i_objs _ _ _ Hi).
  - intros q o1 [[<- <-]|[Hne Hq]]%lookup_insert_Some; [|by apply (i_rc _ _ _ Hi)]. rewrite Hc0, Hrc. split; [done|].
    split; [destruct Hst; congruence|lia].
  - intros h q Hh. destruct (decide (q = p)) as [->|Hne]; [by destruct (Hno h)|]. rewrite lookup_insert_ne by done. by apply (i_handles _ _ _ Hi h).
  - rewrite total_insert_new by done. replace (mem_of o) with 0 by (unfold mem_of; destruct Hst as [-> | ->]; done). apply Hi.
  - intros q o1 [[<- <-]|[Hne Hq]]%lookup_insert_Some Hu; [destruct Hst; congruence|by eapply (i_unloaded _ _ _ Hi)].
  - intros q Hq. destruct (i_queue _ _ _ Hi q Hq) as (o1 & Ho1 & Hn). exists o1. split; [|done]. rewrite lookup_insert_ne; [done|congruence].
Qed.

(** ** The system *)

Inductive buffer_op :=
  | OAllocate (fw : FileWorker W D)
  | OGet (fw : FileWorker W D)
  | OLoad (h : nat) (p : string)
  | OCopy (h h' : nat)
  | OAssign (h other : nat)
  | OMove (h other : nat)
  | ODrop (h : nat)
  | OStore (h : nat) (d : D)
  | OSave (p : string).

Definition set_handle hs (h : nat) (v : option string) : gmap nat string := match v with Some p => <[h := p]> hs | None => delete h hs end.

Definition exec_op fuel s hs (op : buffer_op) : option (outcome (BufferManager W D * gmap nat string)) :=
  match op with
  | OAllocate fw => Some ('(s, _) ← Allocate s fw; Ret (s, hs))
  | OGet fw => Some (Ret ((Get s fw).1, hs))
  | OLoad h p => match Load fuel s p with
                 | Some r => Some ('(s, loaded) ← r; Ret (s, if loaded : bool then <[h := p]> hs else hs))
                 | None => None
                 end
  | OCopy h h' => Some ('(s, v) ← CopyHandle s (hs !! h); Ret (s, set_handle hs h' v))
  | OAssign h other => Some ('(s, v) ← AssignHandle s (hs !! h) (hs !! other); Ret (s, set_handle hs h v))
  | OMove h other => Some ('(s, v, v') ← MoveHandle s (hs !! h) (hs !! other); Ret (s, set_handle (set_handle hs other v') h v))
  | ODrop h => Some (s ← DropHandle s (hs !! h); Ret (s, delete h hs))
  | OStore h d => Some (match hs !! h with Some p => s ← StoreMut s p d; Ret (s, hs) | None => UB "buffer_obj_ is null" end)
  | OSave p => Some (s ← SaveAndClose s p; Ret (s, hs))
  end.

(** What a caller may ask for, and the contents after it. *)
Inductive op_spec s hs c : buffer_op -> gmap string D -> Prop :=
  | sp_allocate fw d :
      worker_ok (fw_impl fw) -> fw_data_ fw = None -> outside (temp_dir_ s) (GetFilePath fw) -> buffer_map_ s !! GetFilePath fw = None ->
      own_file (disk s) (GetFilePath fw) (fw_impl fw) -> own_file (disk s) (temp_dir_ s +:+ GetFilePath fw) (fw_impl fw) ->
      AllocateInMemory (fw_impl fw) None = Ret d -> op_spec s hs c (OAllocate fw) (<[GetFilePath fw := d]> c)
  | sp_get fw : is_Some (buffer_map_ s !! GetFilePath fw) -> op_spec s hs c (OGet fw) c
  | sp_get_file fw d :
      worker_ok (fw_impl fw) -> fw_data_ fw = None -> outside (temp_dir_ s) (GetFilePath fw) -> buffer_map_ s !! GetFilePath fw = None ->
      holds_at (disk s) (GetFilePath fw) (fw_impl fw) d -> own_file (disk s) (temp_dir_ s +:+ GetFilePath fw) (fw_impl fw) ->
      op_spec s hs c (OGet fw) (<[GetFilePath fw := d]> c)
  | sp_load h p :
      hs !! h = None -> is_Some (buffer_map_ s !! p) -> Z.of_nat (size hs) + 1 < 2 ^ 64 -> op_spec s hs c (OLoad h p) c
  | sp_copy h h' p : hs !! h = Some p -> hs !! h' = None -> Z.of_nat (size hs) + 1 < 2 ^ 64 -> op_spec s hs c (OCopy h h') c
  | sp_assign h other p q : h <> other -> hs !! h = Some p -> hs !! other = Some q -> op_spec s hs c (OAssign h other) c
  | sp_move h other p q : h <> other -> hs !! h = Some p -> hs !! other = Some q -> op_spec s hs c (OMove h other) c
  | sp_drop h p : hs !! h = Some p -> op_spec s hs c (ODrop h) c
  | sp_store h p o d :
      hs !! h = Some p -> buffer_map_ s !! p = Some o -> good_data (fw_impl (file_worker_ o)) d -> op_spec s hs c (OStore h d) (<[p := d]> c)
  | sp_save p o : buffer_map_ s !! p = Some o -> status_ o <> kNew -> op_spec s hs c (OSave p) c.

(** Everything that can happen after the start with [fs] on the disk. *)
Inductive reach (limit : Z) (temp : string) fs : BufferManager W D -> gmap nat string -> gmap string D -> Prop :=
  | reach_init : reach limit temp fs (NewBufferManager limit temp fs) ∅ ∅
  | reach_step s hs c op c' s' hs' :
      reach limit temp fs s hs c -> op_spec s hs c op c' ->
      exec_op (S (length (gc_queue_ s))) s hs op = Some (Ret (s', hs')) -> reach limit temp fs s' hs' c'.

Lemma same_count_inv s hs hs' c :
  inv s hs c -> (forall p, count p hs' = count p hs) -> (forall h p, hs' !! h = Some p -> exists h', hs !! h' = Some p) ->
  (size hs' <= size hs)%nat -> inv s hs' c.
Proof.
  intros Hi Hc Hh Hsz. destruct Hi as [Ho Hr Hhs Hm Hl Hu Hq Hs]. split; try done; [| |lia].
  - intros p o Hp. rewrite Hc. by apply Hr.
  - intros h p Hp. destruct (Hh h p Hp) as [h' Hh']. by apply (Hhs h').
Qed.

Lemma new_obj_ok s fw d b :
  worker_ok (fw_impl fw) -> fw_data_ fw = None -> own_file (disk s) (GetFilePath fw) (fw_impl fw) ->
  own_file (disk s) (temp_dir_ s +:+ GetFilePath fw) (fw_impl fw) ->
  (if b : bool then AllocateInMemory (fw_impl fw) None = Ret d else holds_at (disk s) (GetFilePath fw) (fw_impl fw) d) ->
  obj_ok (disk s) (temp_dir_ s) (GetFilePath fw) (NewBufferObj s b fw) d.
Proof.
  intros Hw Hd Ho Hs Hb. destruct b; by split.
Qed.

Lemma exec_ok fuel s hs c op c' :
  inv s hs c -> op_spec s hs c op c' -> (length (gc_queue_ s) < fuel)%nat ->
  exists s' hs', exec_op fuel s hs op = Some (Ret (s', hs')) /\ inv s' hs' c'.
Proof.
  intros Hi Hop Hf. destruct Hop as [fw d Hw Hd Hout Hp Ho Hs Hal|fw [o Hp]|fw d Hw Hd Hout Hp Hho Hs|h p Hh [o Hp] Hsz|h h' p Hh Hh' Hsz
    |h other p q Hne Hh Hq|h other p q Hne Hh Hq|h p Hh|h p o d Hh Hp Hg|p o Hp Hst]; cbn [exec_op].
  - unfold Allocate. rewrite Hp. eexists _, hs. split; [done|]. apply add_inv; [done..|by left|by apply new_obj_ok].
  - unfold Get. rewrite Hp. by exists s, hs.
  - unfold Get. rewrite Hp. eexists _, hs. split; [done|]. apply add_inv; [done..|by right|apply new_obj_ok; try done; right; by exists d].
  - destruct (Load_ok fuel s hs c p o h Hi Hp Hh Hsz Hf) as (s' & b & -> & Hb). simpl. destruct b.
    + exists s', (<[h := p]> hs). by destruct Hb.
    + exists s', hs. by destruct Hb.
  - rewrite Hh. simpl. destruct (Copy_ok s hs c h h' p Hi Hh Hh' Hsz) as (s' & -> & Hi'). simpl. by eexists _, _.
  - rewrite Hh, Hq. simpl. destruct (Unload_ok s hs c h p Hi Hh) as (s1 & E1 & Hi1). unfold AssignHandle. simpl. rewrite E1. simpl.
    pose proof (size_delete hs h p Hh) as Hsz.
    destruct (Copy_ok s1 (delete h hs) c other h q Hi1) as (s2 & E2 & Hi2);
      [by rewrite lookup_delete_ne|apply lookup_delete_eq|pose proof (i_size _ _ _ Hi); lia|].
    rewrite E2. simpl. eexists _, _. split; [done|]. by rewrite insert_delete_eq in Hi2.
  - rewrite Hh, Hq. simpl. destruct (Unload_ok s hs c h p Hi Hh) as (s1 & E1 & Hi1). unfold MoveHandle. simpl. rewrite E1. simpl.
    eexists _, _. split; [done|]. eapply same_count_inv; [exact Hi1|..].
    + intros p'. rewrite (count_delete p' q other (delete h hs)) by by rewrite lookup_delete_ne.
      rewrite <- (insert_delete_eq (delete other hs)), count_insert by apply lookup_delete_eq. by rewrite delete_delete.
    + intros h1 p1 [[-> ->]|[Hn Hp1]]%lookup_insert_Some; [exists other; by rewrite lookup_delete_ne|].
      apply lookup_delete_Some in Hp1 as [_ Hp1]. exists h1. by rewrite lookup_delete_ne.
    + rewrite <- (insert_delete_eq (delete other hs)), map_size_insert_None by apply lookup_delete_eq. rewrite delete_delete.
      rewrite (size_delete (delete h hs) other q); [done|]. by rewrite lookup_delete_ne.
  - rewrite Hh. simpl. destruct (Unload_ok s hs c h p Hi Hh) as (s1 & -> & Hi1). by eexists _, _.
  - rewrite Hh. destruct (Store_ok s hs c h p d Hi Hh) as (s' & -> & Hi' & _); [intros o'; rewrite Hp; by intros [= <-]|]. by eexists _, _.
  - destruct (Save_ok s hs c p o Hi Hp Hst) as (s' & -> & Hi' & _). by eexists _, _.
Qed.

Lemma reach_inv limit temp fs s hs c : 0 <= limit < 2 ^ 63 -> reach limit temp fs s hs c -> inv s hs c.
Proof.
  intros Hl. induction 1 as [|s hs c op c' s' hs' _ Hi Hop E].
  - split; simpl; [done..|split; [done|lia]|done|done| |done]. intros p Hp. by apply elem_of_nil in Hp.
  - destruct (exec_ok _ _ _ _ _ _ Hi Hop (Nat.lt_succ_diag_r _)) as (s1 & hs1 & E1 & Hi1). rewrite E in E1. by injection E1 as <- <-.
Qed.

(** ** Claims *)

(** C5: The buffers are a map of contents: from any state that the operations lead to,
    each run to its end before the next one, every permitted operation returns, and
    whatever has been evicted, spilled, saved and loaded in between, a handle gives
    access to the contents last stored, and a saved buffer's file holds them. *)
Theorem buffer_contents_kept limit temp fs s hs c op c' :
  0 <= limit < 2 ^ 63 -> reach limit temp fs s hs c -> op_spec s hs c op c' ->
  exists s' hs', exec_op (S (length (gc_queue_ s))) s hs op = Some (Ret (s', hs')) /\
    (forall h p, hs' !! h = Some p -> is_Some (c' !! p) /\ read_data s' p = c' !! p) /\
    (forall p, op = OSave p -> saved s' c' p).
Proof.
  intros Hl Hr Hop. pose proof (reach_inv _ _ _ _ _ _ Hl Hr) as Hi.
  destruct (exec_ok _ _ _ _ _ _ Hi Hop (Nat.lt_succ_diag_r _)) as (s' & hs' & E & Hi'). exists s', hs'. split; [done|]. split.
  - intros h p Hh. destruct (handle_loaded _ _ _ _ _ Hi' Hh) as (o & Hp & Hst & _). destruct (i_objs _ _ _ Hi' p o Hp) as (_ & d & -> & Hok).
    split; [by eexists|]. unfold read_data. rewrite Hp. simpl. pose proof (ok_content _ _ _ _ _ Hok) as Hc. unfold content_ok in Hc.
    rewrite Hst in Hc. apply Hc.
  - intros p ->. inversion Hop as [| | | | | | | | |p1 o Hp Hst]; subst. destruct (Save_ok s hs c' p o Hi Hp Hst) as (s1 & E1 & _ & Hs).
    cbn [exec_op] in E. rewrite E1 in E. by injection E as <- _.
Qed.

(** C34: Memory stays bounded: in every state that the operations lead to, each run to
    its end before the next one, [current_memory_size_] is the sum of the sizes of the
    buffers in memory and does not exceed [memory_limit_].  Loads that overlap in time
    can exceed it. *)
Theorem buffer_memory_bounded limit temp fs s hs c :
  0 <= limit < 2 ^ 63 -> reach limit temp fs s hs c ->
  current_memory_size_ s = total mem_of (buffer_map_ s) /\ current_memory_size_ s <= memory_limit_ s.
Proof. intros Hl Hr. exact (i_mem _ _ _ (reach_inv _ _ _ _ _ _ Hl Hr)). Qed.

(** C33: Eviction is complete: [Load] throws "Out of memory." if and only if the
    buffer is not in memory and does not fit beside the buffers that handles
    refer to; buffers without handles never stand in the way. *)
Theorem load_fails_iff_pinned limit temp fs s hs c p o :
  0 <= limit < 2 ^ 63 -> reach limit temp fs s hs c -> buffer_map_ s !! p = Some o -> Z.of_nat (size hs) + 1 < 2 ^ 64 ->
  exists s' b, Load (S (length (gc_queue_ s))) s p = Some (Ret (s', b)) /\
    (b = false <-> (status_ o = kFreed \/ status_ o = kNew) /\ memory_limit_ s < total pin_of (buffer_map_ s) + GetBufferSize o).
Proof.
  intros Hl Hr Hp Hsz. pose proof (reach_inv _ _ _ _ _ _ Hl Hr) as Hi. pose proof (cost_nonneg _ _ _ _ _ Hi Hp) as Hcost.
  destruct (exist_fresh (dom hs)) as [h Hh%not_elem_of_dom].
  destruct (Load_ok _ s hs c p o h Hi Hp Hh Hsz (Nat.lt_succ_diag_r _)) as (s' & b & E & Hb). exists s', b. split; [done|].
  unfold Load, get_obj in E. rewrite Hp in E. destruct (status_ o) eqn:Hst.
  1,2: injection E as _ <-; split; [done|]; naive_solver.
  all: destruct (RequestLoop_ok _ s hs c p o (GetBufferSize o) Hi Hp ltac:(auto) Hcost (Nat.lt_succ_diag_r _)) as (s1 & b1 & E1 & Hi1 & (_ & El & _ & Et & _) & Hb1);
    unfold RequestSpace in E; rewrite E1 in E; pose proof (pin_le_mem _ _ _ Hi1).
  all: destruct b1; [|injection E as _ <-; split; [intros _; split; [auto|lia]|done]].
  all: split; [intros ->; destruct Hb as (_ & _ & Hlt); lia|intros [_ Hlt]; lia].
Qed.

(** C35: The states are valid: in every state [CheckState] accepts every buffer and
    its reference count is the number of handles that point to it. *)
Theorem buffer_states_valid limit temp fs s hs c p o :
  0 <= limit < 2 ^ 63 -> reach limit temp fs s hs c -> buffer_map_ s !! p = Some o ->
  CheckState o = Ret tt /\ rc_ o = Z.of_nat (count p hs).
Proof.
  intros Hl Hr Hp. pose proof (reach_inv _ _ _ _ _ _ Hl Hr) as Hi. destruct (i_rc _ _ _ Hi p o Hp) as [Hrc Hld]. split; [|done].
  destruct (i_objs _ _ _ Hi p o Hp) as (_ & d & _ & Hok). pose proof (ok_content _ _ _ _ _ Hok) as Hc. unfold content_ok in Hc.
  assert (status_ o <> kLoaded -> rc_ o = 0) as Hz by (intros Hn; destruct (decide (0 < rc_ o)); [tauto|lia]).
  unfold CheckState. destruct (status_ o); [|rewrite Hz by done; done..|].
  - rewrite (proj2 (Z.eqb_neq _ _)); [done|]. pose proof (proj1 Hld eq_refl). lia.
  - destruct Hc as (_ & -> & _). by rewrite Hz.
Qed.

(** C36: [RequestSpace] terminates in any state: each round takes a buffer from the
    queue and none is added. *)
Theorem request_space_terminates fuel s need p : (length (gc_queue_ s) < fuel)%nat -> RequestSpace fuel s need p <> None.
Proof.
  intros Hf. enough (RequestLoop fuel s need p <> None) as Hn.
  { unfold RequestSpace. destruct (RequestLoop fuel s need p) as [[[s' []]| |]|]; done. }
  revert s Hf. induction fuel as [|fuel IH]; intros s Hf; [lia|]. simpl. destruct (_ >? _); [|done].
  destruct (gc_queue_ s) as [|p1 rest] eqn:Hq; [done|]. simpl in Hf. case_bool_decide.
  - destruct (get_obj _ _) as [o| |]; [|done..]. case_bool_decide; [apply IH; simpl; lia|done].
  - destruct (FreeOne _ p1) as [s1| |] eqn:E; [|done..]. apply IH.
    assert (gc_queue_ s1 = rest) as ->; [|lia]. unfold FreeOne in E. rewrite Free_queue in E. destruct (Free s p1) as [[s2 []]| |]; simpl in E; [|by simplify_eq|done..].
    destruct (get_obj _ _); simpl in E; by simplify_eq.
Qed.
End Props.

(** ** Examples *)

(** Two buffers of eight bytes where only one fits into memory. *)
Definition sample_worker (name : string) : FileWorker Z (list Z) := mkFileWorker 8 "/d" name "" None None.
Definition sample_data : list Z := [1; 2; 3; 4; 5; 6; 7; 8].
Definition zeros : list Z := replicate 8 0.

Definition sample_ops : list (buffer_op (W := Z) (D := list Z)) :=
  [OAllocate (sample_worker "a"); OLoad 0 "/d/a"; OStore 0 sample_data; ODrop 0; OAllocate (sample_worker "b"); OLoad 1 "/d/b"; ODrop 1].

Definition sample_contents : list (gmap string (list Z)) :=
  let a := {[ "/d/a" := zeros ]} in let a1 := <[ "/d/a" := sample_data ]> a in let ab := <[ "/d/b" := zeros ]> a1 in
  [∅; a; a; a1; a1; ab; ab; ab].

Definition sample_state (n : nat) : BufferManager Z (list Z) * gmap nat string :=
  foldl (fun '(s, hs) op => match exec_op (S (length (gc_queue_ s))) s hs op with Some (Ret r) => r | _ => (s, hs) end)
    (NewBufferManager 10 "/tmp" ∅, ∅) (take n sample_ops).

Definition sample_content (n : nat) : gmap string (list Z) := default ∅ (sample_contents !! n).

Abbreviation sample_reached n := (reach 10 "/tmp" ∅ (sample_state n).1 (sample_state n).2 (sample_content n)).

Lemma sample_step n op :
  sample_ops !! n = Some op -> sample_reached n -> op_spec (sample_state n).1 (sample_state n).2 (sample_content n) op (sample_content (S n)) ->
  exec_op (S (length (gc_queue_ (sample_state n).1))) (sample_state n).1 (sample_state n).2 op = Some (Ret (sample_state (S n))) -> sample_reached (S n).
Proof. intros _ Hr Hop E. destruct (sample_state (S n)) as [s' hs']. by eapply reach_step. Qed.

Lemma sample_alloc_spec (s : BufferManager Z (list Z)) hs c name :
  temp_dir_ s = "/tmp" -> outside "/tmp" (GetFilePath (sample_worker name)) -> buffer_map_ s !! GetFilePath (sample_worker name) = None ->
  disk s !! GetFilePath (sample_worker name) = None -> disk s !! ("/tmp" +:+ GetFilePath (sample_worker name)) = None ->
  op_spec s hs c (OAllocate (sample_worker name)) (<[GetFilePath (sample_worker name) := zeros]> c).
Proof.
  intros Ht Ho Hm H1 H2. apply sp_allocate; [done|done|by rewrite Ht|done|by left|rewrite Ht; by left|done].
Qed.

Lemma sample_reach : sample_reached 7.
Proof.
  apply (sample_step 6 (ODrop 1)); [reflexivity| |by eapply sp_drop|vm_compute; reflexivity].
  apply (sample_step 5 (OLoad 1 "/d/b")); [reflexivity| |by apply sp_load; [reflexivity|vm_compute; eexists; reflexivity|reflexivity]|vm_compute; reflexivity].
  apply (sample_step 4 (OAllocate (sample_worker "b"))); [reflexivity| |apply sample_alloc_spec; reflexivity|vm_compute; reflexivity].
  apply (sample_step 3 (ODrop 0)); [reflexivity| |by eapply sp_drop|vm_compute; reflexivity].
  apply (sample_step 2 (OStore 0 sample_data)); [reflexivity| | |vm_compute; reflexivity].
  { apply (sample_step 1 (OLoad 0 "/d/a")); [reflexivity| |by apply sp_load; [reflexivity|vm_compute; eexists; reflexivity|reflexivity]|vm_compute; reflexivity].
    apply (sample_step 0 (OAllocate (sample_worker "a"))); [reflexivity|apply reach_init|apply sample_alloc_spec; reflexivity|vm_compute; reflexivity]. }
  eapply sp_store; [reflexivity|vm_compute; reflexivity|]. split; [reflexivity|split; vm_compute; congruence].
Qed.

Lemma buffer_contents_kept_witness : exists s' hs',
  exec_op (S (length (gc_queue_ (sample_state 7).1))) (sample_state 7).1 (sample_state 7).2 (OLoad 2 "/d/a") = Some (Ret (s', hs')) /\
  (forall h p, hs' !! h = Some p -> is_Some (sample_content 7 !! p) /\ read_data s' p = sample_content 7 !! p) /\
  (forall p, OLoad (W := Z) (D := list Z) 2 "/d/a" = OSave p -> saved s' (sample_content 7) p).
Proof.
  apply (buffer_contents_kept 10 "/tmp" ∅ (sample_state 7).1 (sample_state 7).2 (sample_content 7) (OLoad 2 "/d/a") (sample_content 7)).
  - lia.
  - exact sample_reach.
  - apply sp_load; [reflexivity|vm_compute; eexists; reflexivity|reflexivity].
Defined.

Lemma buffer_memory_bounded_witness :
  current_memory_size_ (sample_state 7).1 = total mem_of (buffer_map_ (sample_state 7).1) /\
  current_memory_size_ (sample_state 7).1 <= memory_limit_ (sample_state 7).1.
Proof. exact (buffer_memory_bounded 10 "/tmp" ∅ _ _ _ ltac:(lia) sample_reach). Defined.

Definition sample_obj (p : string) : BufferObj Z (list Z) :=
  default (mkBufferObj kTemp kNew 0 (sample_worker "a")) (buffer_map_ (sample_state 7).1 !! p).

Lemma load_fails_iff_pinned_witness : exists s' b,
  Load (S (length (gc_queue_ (sample_state 7).1))) (sample_state 7).1 "/d/a" = Some (Ret (s', b)) /\
  (b = false <-> (status_ (sample_obj "/d/a") = kFreed \/ status_ (sample_obj "/d/a") = kNew) /\
    memory_limit_ (sample_state 7).1 < total pin_of (buffer_map_ (sample_state 7).1) + GetBufferSize (sample_obj "/d/a")).
Proof.
  apply (load_fails_iff_pinned 10 "/tmp" ∅ (sample_state 7).1 (sample_state 7).2 (sample_content 7) "/d/a" (sample_obj "/d/a"));
    [lia|exact sample_reach|vm_compute; reflexivity|reflexivity].
Defined.

Lemma buffer_states_valid_witness :
  CheckState (sample_obj "/d/a") = Ret tt /\ rc_ (sample_obj "/d/a") = Z.of_nat (count "/d/a" (sample_state 7).2).
Proof.
  apply (buffer_states_valid 10 "/tmp" ∅ (sample_state 7).1 (sample_state 7).2 (sample_content 7) "/d/a" (sample_obj "/d/a"));
    [lia|exact sample_reach|vm_compute; reflexivity].
Defined.

Lemma request_space_terminates_witness : RequestSpace 3 (sample_state 7).1 8 "/d/a" <> None.
Proof. apply request_space_terminates. vm_compute. lia. Defined.

(** ** What callers must not do *)

(** Assigning a handle to itself breaks its buffer: with no other handle the
    buffer is unloaded first and counted after, so that it waits in the queue
    with one reference; [CheckState] refuses it and the destructor of the
    handle throws. *)
Theorem handle_self_assignment_breaks {W D} `{FileImplLaws W D} limit temp fs (s : BufferManager W D) hs c h p :
  0 <= limit < 2 ^ 63 -> reach limit temp fs s hs c -> hs !! h = Some p -> count p hs = 1%nat ->
  exists s1 o1, AssignHandle s (hs !! h) (hs !! h) = Ret (s1, Some p) /\ buffer_map_ s1 !! p = Some o1 /\
    status_ o1 = kUnloaded /\ rc_ o1 = 1 /\ CheckState o1 = Throw StorageException "Invalid status." /\
    DropHandle s1 (Some p) = Throw StorageException "Invalid call.".
Proof.
  intros Hl Hr Hh Hc. pose proof (reach_inv _ _ _ _ _ _ Hl Hr) as Hi. destruct (handle_loaded _ _ _ _ _ Hi Hh) as (o & Hp & Hst & _).
  destruct (i_rc _ _ _ Hi p o Hp) as [Hrc _]. rewrite Hc in Hrc. rewrite Hh. unfold AssignHandle, DropHandle, UnloadInner, get_obj.
  rewrite Hp. cbn [mbind outcome_bind]. rewrite Hst, Hrc. simpl. unfold CopyRef, get_obj. simpl. rewrite lookup_insert_eq. simpl.
  eexists _, _. split; [reflexivity|]. simpl. rewrite lookup_insert_eq. by split_and!.
Qed.

(** The sample run up to its load of the first buffer. *)
Lemma sample_reach_loaded : sample_reached 2.
Proof.
  apply (sample_step 1 (OLoad 0 "/d/a")); [reflexivity| |by apply sp_load; [reflexivity|vm_compute; eexists; reflexivity|reflexivity]|vm_compute; reflexivity].
  apply (sample_step 0 (OAllocate (sample_worker "a"))); [reflexivity|apply reach_init|apply sample_alloc_spec; reflexivity|vm_compute; reflexivity].
Qed.

Lemma handle_self_assignment_breaks_witness : exists s1 o1,
  AssignHandle (sample_state 2).1 (Some "/d/a") (Some "/d/a") = Ret (s1, Some "/d/a") /\ buffer_map_ s1 !! "/d/a" = Some o1 /\
  status_ o1 = kUnloaded /\ rc_ o1 = 1 /\ CheckState o1 = Throw StorageException "Invalid status." /\
  DropHandle s1 (Some "/d/a") = Throw StorageException "Invalid call.".
Proof.
  apply (handle_self_assignment_breaks 10 "/tmp" ∅ (sample_state 2).1 (sample_state 2).2 (sample_content 2) 0 "/d/a");
    [lia|exact sample_reach_loaded|reflexivity|reflexivity].
Defined.

(** Two threads that load the buffers ["/d/a"] and ["/d/b"] run the loop of
    [RequestSpace] before either adds its size. *)
Definition interleaved_loads : option (Z * Z) :=
  match Allocate (NewBufferManager 10 "/tmp" ∅) (sample_worker "a") with
  | Ret (s, a) =>
      match Allocate s (sample_worker "b") with
      | Ret (s, b) =>
          match RequestLoop 1 s 8 a with
          | Some (Ret (s, true)) =>
              match RequestLoop 1 s 8 b with
              | Some (Ret (s, true)) => let s := AddSpace (AddSpace s 8) 8 in Some (current_memory_size_ s, memory_limit_ s)
              | _ => None
              end
          | _ => None
          end
      | _ => None
      end
  | _ => None
  end.

(** A store through a pointer that [GetDataMut] returned before a [Save]; the
    buffer is evicted and loaded again: what was stored last, and what is read. *)
Definition store_after_save : outcome (option (list Z)) :=
  let s := (sample_state 3).1 in
  s ← SaveAndClose s "/d/a";
  s ← write_data s "/d/a" zeros;
  s ← UnloadInner s "/d/a";
  s ← FreeOne s "/d/a";
  match Load 1 s "/d/a" with
  | Some (Ret (s, true)) => Ret (read_data s "/d/a")
  | _ => UB "not loaded"
  end.

(** The limits of the contract: the test and the addition of [RequestSpace] are
    two steps, so two threads that load at the same time exceed the memory limit;
    and a store through a mutable pointer taken before a [Save] is lost when the
    buffer is evicted, because the save made it persistent. *)
Theorem buffer_races :
  interleaved_loads = Some (16, 10) /\ store_after_save = Ret (Some sample_data).
Proof. vm_compute. split; reflexivity. Qed.
