(* ===== verification/Arrays.v ===== *)
(** * Arrays and words

    The arrays of the source as lists: reading, writing and filling with what is
    out of range undefined, and lookup tables.  Bits of machine words. *)
From S2P Require Import Prelude.

Local Open Scope Z_scope.

(** ** Arrays *)

(** [table[i]] *)
Definition at_index {A} (table : list A) (i : Z) : outcome A :=
  if i <? 0 then UB "index out of range"
  else match table !! Z.to_nat i with Some x => Ret x | None => UB "index out of range" end.

(** [table[i] = x] *)
Definition set_index {A} (table : list A) (i : Z) (x : A) : outcome (list A) :=
  _ ← at_index table i; Ret (<[Z.to_nat i := x]> table).

(** [Memset(&table[i], 0, n * sizeof(x))], for elements [x]. *)
Definition fill {A} (table : list A) (i n : Z) (x : A) : outcome (list A) :=
  if (i <? 0) || (n <? 0) || (Z.of_nat (length table) <? i + n) then UB "index out of range"
  else Ret (take (Z.to_nat i) table ++ replicate (Z.to_nat n) x ++ drop (Z.to_nat (i + n)) table).

(** The [n] elements that a [Memcpy] from [table + i] reads. *)
Definition read_at {A} (table : list A) (i n : Z) : outcome (list A) :=
  if (i <? 0) || (n <? 0) || (Z.of_nat (length table) <? i + n) then UB "read out of range"
  else Ret (take (Z.to_nat n) (drop (Z.to_nat i) table)).

(** [Memcpy(table + i, source, length of source)] *)
Definition write_at {A} (table : list A) (i : Z) (source : list A) : outcome (list A) :=
  if (i <? 0) || (Z.of_nat (length table) <? i + Z.of_nat (length source)) then UB "write out of range"
  else Ret (take (Z.to_nat i) table ++ source ++ drop (Z.to_nat i + length source) table).

(** [assert(c)] *)
Definition assert_that (c : bool) : outcome unit := if c then Ret () else UB "assertion".

(** ** Lemmas on arrays *)

Lemma ret_bind {A B} (x : A) (f : A -> outcome B) : (Ret x ≫= f) = f x.
Proof. done. Qed.

Lemma at_index_nat {A} (table : list A) n : at_index table (Z.of_nat n) = match table !! n with Some x => Ret x | None => UB "index out of range" end.
Proof. unfold at_index. destruct (_ <? 0) eqn:E; [zbool; lia|]. by rewrite Nat2Z.id. Qed.

Lemma at_index_lookup {A} (table : list A) i x : 0 <= i -> table !! Z.to_nat i = Some x -> at_index table i = Ret x.
Proof. intros Hi Hx. rewrite <- (Z2Nat.id i) by done. by rewrite at_index_nat, Hx. Qed.

Lemma at_index_in {A} (table : list A) i : 0 <= i < Z.of_nat (length table) -> exists x, table !! Z.to_nat i = Some x /\ at_index table i = Ret x.
Proof.
  intros Hi. destruct (lookup_lt_is_Some_2 table (Z.to_nat i)) as [x Hx]; [lia|].
  exists x. split; [done|]. apply at_index_lookup; [lia|done].
Qed.

Lemma set_index_in {A} (table : list A) i x : 0 <= i < Z.of_nat (length table) -> set_index table i x = Ret (<[Z.to_nat i := x]> table).
Proof. intros Hi. unfold set_index. by destruct (at_index_in table i Hi) as (y & _ & ->). Qed.

Lemma at_fmap {A B} (f : A -> B) (l : list A) n x : l !! n = Some x -> at_index (f <$> l) (Z.of_nat n) = Ret (f x).
Proof. intros Hx. rewrite (at_index_nat (f <$> l)), list_lookup_fmap, Hx. done. Qed.

(** A check of all entries of a table. *)
Lemma table_check (table : list Z) (f : Z -> Z) (n : nat) i :
  forallb (fun k => match table !! k with Some c => c =? f (Z.of_nat k) | None => false end) (seq 0 n) = true ->
  0 <= i < Z.of_nat n -> at_index table i = Ret (f i).
Proof.
  intros Hc Hi. rewrite forallb_forall in Hc. specialize (Hc (Z.to_nat i)). unfold at_index.
  destruct (i <? 0) eqn:E; [zbool; lia|]. destruct (table !! Z.to_nat i) as [c|].
  - rewrite Z2Nat.id in Hc by lia. f_equal. apply Z.eqb_eq, Hc, in_seq. lia.
  - discriminate Hc. apply in_seq. lia.
Qed.

Lemma read_at_in {A} (table : list A) i n : (i + n <= length table)%nat -> read_at table (Z.of_nat i) (Z.of_nat n) = Ret (take n (drop i table)).
Proof. intros Hi. unfold read_at. destruct (_ || _) eqn:E; [exfalso; rewrite !orb_true_iff, !Z.ltb_lt in E; lia|]. by rewrite !Nat2Z.id. Qed.

Lemma array_write_at {A} (table source : list A) i : (i + length source <= length table)%nat -> write_at table (Z.of_nat i) source = Ret (take i table ++ source ++ drop (i + length source) table).
Proof. intros Hi. unfold write_at. destruct (_ || _) eqn:E; [exfalso; rewrite !orb_true_iff, !Z.ltb_lt in E; lia|]. by rewrite !Nat2Z.id. Qed.
