(* ===== verification/Bits.v ===== *)
(** * Bits

    Sequences of booleans, and the bits of machine words as [Z]. *)
From S2P Require Import Prelude.

Local Open Scope Z_scope.

(** ** Sequences of booleans *)

Definition count_true (v : list bool) : nat := length (filter (fun b => b = true) v).

(** The first position that holds true. *)
Fixpoint first_true (v : list bool) : option nat :=
  match v with
  | [] => None
  | b :: v' => if b : bool then Some O else S <$> first_true v'
  end.

Lemma count_true_app u v : count_true (u ++ v) = (count_true u + count_true v)%nat.
Proof. unfold count_true. by rewrite filter_app, length_app. Qed.

Lemma count_true_cons b v : count_true (b :: v) = ((if b then 1 else 0) + count_true v)%nat.
Proof. destruct b; [done|done]. Qed.

Lemma count_true_le v : (count_true v <= length v)%nat.
Proof. apply length_filter. Qed.

Lemma count_true_false v : Forall (fun b => b = false) v -> count_true v = 0%nat.
Proof. induction 1 as [|b v -> _ IH]; [done|]. by rewrite count_true_cons, IH. Qed.

Lemma first_true_app u v : first_true (u ++ v) = match first_true u with Some k => Some k | None => Nat.add (length u) <$> first_true v end.
Proof.
  induction u as [|b u IH]; simpl; [by destruct (first_true v)|]. destruct b; [done|]. rewrite IH.
  by destruct (first_true u), (first_true v).
Qed.

Lemma first_true_false v : Forall (fun b => b = false) v -> first_true v = None.
Proof. induction 1 as [|b v -> _ IH]; [done|]. simpl. by rewrite IH. Qed.

Lemma first_true_at v k : v !! k = Some true -> (forall j, (j < k)%nat -> v !! j = Some false) -> first_true v = Some k.
Proof.
  revert k. induction v as [|b v IH]; intros k Hk Hb; [done|]. destruct k as [|k]; simpl in *; [by simplify_eq|].
  specialize (Hb 0%nat ltac:(lia)) as Hb0. simpl in Hb0. simplify_eq. rewrite (IH k); [done|done|].
  intros j Hj. apply (Hb (S j)). lia.
Qed.

Lemma count_true_reverse v : count_true (reverse v) = count_true v.
Proof. unfold count_true. by rewrite filter_reverse, length_reverse. Qed.

Lemma count_true_insert v i x y : v !! i = Some y -> Z.of_nat (count_true (<[i := x]> v)) = Z.of_nat (count_true v) + Z.b2z x - Z.b2z y.
Proof.
  revert i. induction v as [|z v IH]; intros i Hi; [done|]. destruct i as [|i]; simpl in *.
  - simplify_eq. rewrite !count_true_cons. destruct x, y; simpl; lia.
  - rewrite !count_true_cons. specialize (IH i Hi). lia.
Qed.

Lemma exists_count v : existsb id v = negb (Z.of_nat (count_true v) =? 0).
Proof. induction v as [|x v IH]; [done|]. simpl. rewrite IH, count_true_cons. by destruct x. Qed.

Lemma count_negb v : (count_true (negb <$> v) + count_true v)%nat = length v.
Proof. induction v as [|x v IH]; [done|]. rewrite fmap_cons, !count_true_cons. simpl length. destruct x; simpl; lia. Qed.

(** ** Blocks

    The concatenation of blocks of [n] elements, one for each element of a list. *)

Section Blocks.
Context {A B : Type} (f : A -> list B) (n : nat) (block_length : forall x, length (f x) = n).

Lemma blocks_length l : length (concat (f <$> l)) = (n * length l)%nat.
Proof using block_length. induction l as [|x l IH]; [simpl; lia|]. rewrite fmap_cons. simpl concat. rewrite length_app, IH, block_length. simpl. lia. Qed.

Lemma blocks_lookup l q r : (r < n)%nat -> concat (f <$> l) !! (n * q + r)%nat = l !! q ≫= fun x => f x !! r.
Proof using block_length.
  intros Hr. revert q. induction l as [|x l IH]; intros q; [by rewrite !lookup_nil|]. rewrite fmap_cons. simpl concat. destruct q as [|q].
  - rewrite lookup_app_l by (rewrite block_length; lia). simpl. f_equal. lia.
  - rewrite lookup_app_r by (rewrite block_length; lia). rewrite block_length. simpl. rewrite <- IH. f_equal. lia.
Qed.

Lemma blocks_take l q : concat (f <$> take q l) = take (n * q) (concat (f <$> l)).
Proof using block_length.
  revert q. induction l as [|x l IH]; intros q; [rewrite take_nil; symmetry; apply take_nil|]. destruct q as [|q]; [by rewrite Nat.mul_0_r|].
  simpl take at 1. rewrite !fmap_cons. simpl concat. rewrite IH, take_app_ge by (rewrite block_length; lia). rewrite block_length. do 2 f_equal. lia.
Qed.

Lemma blocks_drop l q : concat (f <$> drop q l) = drop (n * q) (concat (f <$> l)).
Proof using block_length.
  revert q. induction l as [|x l IH]; intros q; [rewrite drop_nil; symmetry; apply drop_nil|]. destruct q as [|q]; [by rewrite Nat.mul_0_r|].
  simpl drop at 1. rewrite fmap_cons. simpl concat. rewrite IH, drop_app_ge by (rewrite block_length; lia). rewrite block_length. f_equal. lia.
Qed.

Lemma blocks_replicate k x y : f x = replicate n y -> concat (f <$> replicate k x) = replicate (n * k) y.
Proof using Type.
  intros Hx. induction k as [|k IH]; [by rewrite Nat.mul_0_r|]. simpl replicate at 1. rewrite fmap_cons. simpl concat.
  rewrite IH, Hx, <- replicate_add. f_equal. lia.
Qed.

Lemma blocks_zip_with (h : A -> A -> A) (g : B -> B -> B) l1 l2 : (forall x y, f (h x y) = zip_with g (f x) (f y)) ->
  concat (f <$> zip_with h l1 l2) = zip_with g (concat (f <$> l1)) (concat (f <$> l2)).
Proof using block_length.
  intros Hh. revert l2. induction l1 as [|x l1 IH]; intros l2; [done|]. destruct l2 as [|y l2]; [by destruct (concat (f <$> x :: l1))|].
  simpl zip_with at 1. rewrite !fmap_cons. simpl concat. rewrite zip_with_app by (by rewrite !block_length). by rewrite Hh, IH.
Qed.

End Blocks.

(** ** Bits of words *)

(** A word of [n] bits has no others. *)
Lemma u_testbit_high n w j : u_range n w -> n <= j -> Z.testbit w j = false.
Proof.
  intros [H0 H1] Hj. destruct (decide (w = 0)) as [->|]; [apply Z.testbit_0_l|].
  apply Z.bits_above_log2; [done|]. assert (Z.log2 w < n) by (apply Z.log2_lt_pow2; lia). lia.
Qed.

Lemma u_bits n w : 0 <= n -> 0 <= w -> (forall j, n <= j -> Z.testbit w j = false) -> u_range n w.
Proof.
  intros Hn H0 H. split; [done|]. destruct (decide (w = 0)) as [->|Hz]; [by apply Z.pow_pos_nonneg|]. apply Z.log2_lt_pow2; [lia|].
  destruct (decide (Z.log2 w < n)) as [|Hge]; [done|]. specialize (H (Z.log2 w) ltac:(lia)). by rewrite Z.bit_log2 in H by lia.
Qed.

Lemma u_land_r n w v : 0 <= n -> u_range n v -> u_range n (Z.land w v).
Proof.
  intros Hn Hv. apply u_bits; [done|apply Z.land_nonneg; right; apply Hv|]. intros j Hj.
  rewrite Z.land_spec, (u_testbit_high n v) by done. apply andb_false_r.
Qed.

Lemma u_wrap_testbit n w j : 0 <= n -> Z.testbit (u_wrap n w) j = (j <? n) && Z.testbit w j.
Proof.
  intros Hn. unfold u_wrap. destruct (j <? n) eqn:E; zbool; simpl; [by apply Z.mod_pow2_bits_low|by apply Z.mod_pow2_bits_high].
Qed.

Lemma land_pow2_zero w k : 0 <= k -> (Z.land w (2 ^ k) =? 0) = negb (Z.testbit w k).
Proof.
  intros Hk. destruct (Z.testbit w k) eqn:E; simpl.
  - apply Z.eqb_neq. intros H. assert (Z.testbit (Z.land w (2 ^ k)) k = false) as Hf by (rewrite H; apply Z.testbit_0_l).
    by rewrite Z.land_spec, E, Z.pow2_bits_true in Hf by done.
  - apply Z.eqb_eq, Z.bits_inj'. intros j Hj. rewrite Z.land_spec, Z.testbit_0_l.
    destruct (decide (j = k)) as [->|]; [by rewrite E|]. rewrite Z.pow2_bits_false by done. apply andb_false_r.
Qed.

Lemma testbit_split n lo hi j : 0 <= n -> 0 <= lo < 2 ^ n -> 0 <= j ->
  Z.testbit (lo + 2 ^ n * hi) j = if j <? n then Z.testbit lo j else Z.testbit hi (j - n).
Proof.
  intros Hn Hlo Hj. destruct (j <? n) eqn:E; zbool.
  - rewrite <- (Z.mod_pow2_bits_low _ n) by lia. do 2 f_equal. rewrite Z.mul_comm, Z.mod_add by lia. by apply Z.mod_small.
  - replace j with (j - n + n) at 1 by lia. rewrite <- Z.div_pow2_bits by lia. f_equal.
    rewrite Z.mul_comm, Z.div_add, Z.div_small by lia. lia.
Qed.

Lemma land_u_wrap n x m : 0 <= n -> u_range n m -> Z.land (u_wrap n x) m = Z.land x m.
Proof.
  intros Hn Hm. apply Z.bits_inj'. intros j Hj. rewrite !Z.land_spec, u_wrap_testbit by done.
  destruct (j <? n) eqn:E; [done|]. zbool. by rewrite (u_testbit_high n m), !andb_false_r.
Qed.

(** The lowest [k] bits of a word, the first the least significant, and the
    number of those set. *)
Definition low_bits (k : nat) (v : Z) : list bool := (fun i => Z.testbit v (Z.of_nat i)) <$> seq 0 k.
Definition pop (k : nat) (v : Z) : nat := count_true (low_bits k v).

Lemma low_bits_length k v : length (low_bits k v) = k.
Proof. unfold low_bits. by rewrite length_fmap, length_seq. Qed.

Lemma low_bits_lookup k v i : (i < k)%nat -> low_bits k v !! i = Some (Z.testbit v (Z.of_nat i)).
Proof. intros Hi. unfold low_bits. by rewrite list_lookup_fmap, lookup_seq_lt. Qed.

Lemma low_bits_split n k lo hi : 0 <= lo < 2 ^ Z.of_nat n -> low_bits (n + k) (lo + 2 ^ Z.of_nat n * hi) = low_bits n lo ++ low_bits k hi.
Proof.
  intros Hlo. unfold low_bits. rewrite seq_app, fmap_app. f_equal.
  - apply list_fmap_ext. intros ? i Hi%lookup_seq. rewrite testbit_split by lia. destruct (_ <? _) eqn:E; zbool; [done|lia].
  - assert (seq (0 + n) k = Nat.add n <$> seq 0 k) as -> by (rewrite fmap_add_seq; f_equal; lia). rewrite <- list_fmap_compose. apply list_fmap_ext.
    intros ? i Hi. simpl. rewrite testbit_split by lia. destruct (_ <? _) eqn:E; zbool; [lia|]. f_equal. lia.
Qed.

Lemma pop_split n k lo hi : 0 <= lo < 2 ^ Z.of_nat n -> pop (n + k) (lo + 2 ^ Z.of_nat n * hi) = (pop n lo + pop k hi)%nat.
Proof. intros Hlo. unfold pop. by rewrite low_bits_split, count_true_app. Qed.

Lemma low_bits_map2 (f : Z -> Z -> Z) (g : bool -> bool -> bool) k u v :
  (forall i, 0 <= i -> Z.testbit (f u v) i = g (Z.testbit u i) (Z.testbit v i)) -> low_bits k (f u v) = zip_with g (low_bits k u) (low_bits k v).
Proof.
  intros Hf. apply list_eq_same_length with k; rewrite ?length_zip_with, ?low_bits_length; [lia..|].
  intros i x y Hi Hx Hy. rewrite low_bits_lookup in Hx by done. rewrite lookup_zip_with, !low_bits_lookup in Hy by done. simpl in Hy. simplify_eq. apply Hf. lia.
Qed.

Lemma low_bits_inj k u v : u_range (Z.of_nat k) u -> u_range (Z.of_nat k) v -> low_bits k u = low_bits k v -> u = v.
Proof.
  intros Hu Hv He. apply Z.bits_inj'. intros i Hi. destruct (decide (i < Z.of_nat k)) as [Hlt|].
  - assert (low_bits k u !! Z.to_nat i = low_bits k v !! Z.to_nat i) as Hl by (by rewrite He). rewrite !low_bits_lookup, Z2Nat.id in Hl by lia. by simplify_eq.
  - rewrite !(u_testbit_high (Z.of_nat k)) by (done || lia). done.
Qed.
