(* ===== verification/Date.v ===== *)
(** * Dates

    [DateType] ([parser/type/datetime/date_type.cpp]): a date is the number of days
    since 1970-01-01.  Tables, conversions from and to year, month and day and
    from and to text, and the arithmetic with intervals; checked against a
    definition of the Gregorian calendar. *)
From S2P Require Import Prelude Arrays.

Local Open Scope Z_scope.

(** ** Constants and tables *)

Definition MIN_DATE_YEAR : Z := -1969.
Definition MIN_DATE_MONTH : Z := 1.
Definition MIN_DATE_DAY : Z := 1.
Definition MAX_DATE_YEAR : Z := 9999.
Definition MAX_DATE_MONTH : Z := 12.
Definition MAX_DATE_DAY : Z := 31.
Definition EPOCH_YEAR : Z := 1970.
Definition YEAR_LEAP : Z := 400.
Definition DAYS_PER_YEAR_LEAP : Z := 146097.
Definition DAY_HOUR : Z := 24.
Definition DAY_MINUTE : Z := DAY_HOUR * 60.
Definition DAY_SECOND : Z := DAY_MINUTE * 60.

Definition NORMAL_DAYS : list Z :=
  [0; 31; 28; 31; 30; 31; 30; 31; 31; 30; 31; 30; 31].

Definition CUMULATIVE_DAYS : list Z :=
  [0; 31; 59; 90; 120; 151; 181; 212; 243; 273; 304; 334; 365].

Definition LEAP_DAYS : list Z :=
  [0; 31; 29; 31; 30; 31; 30; 31; 31; 30; 31; 30; 31].

Definition CUMULATIVE_LEAP_DAYS : list Z :=
  [0; 31; 60; 91; 121; 152; 182; 213; 244; 274; 305; 335; 366].

Definition MONTH_PER_DAY_OF_YEAR : list Z :=
  [1; 1; 1; 1; 1; 1; 1; 1; 1; 1; 1; 1; 1; 1; 1; 1; 1; 1; 1; 1; 1; 1; 1; 1; 1; 1; 1; 1; 1; 1; 1; 2; 2; 2; 2; 2; 2; 2; 2; 2; 2; 2;
   2; 2; 2; 2; 2; 2; 2; 2; 2; 2; 2; 2; 2; 2; 2; 2; 2; 3; 3; 3; 3; 3; 3; 3; 3; 3; 3; 3; 3; 3; 3; 3; 3; 3; 3; 3; 3; 3; 3; 3; 3; 3;
   3; 3; 3; 3; 3; 3; 4; 4; 4; 4; 4; 4; 4; 4; 4; 4; 4; 4; 4; 4; 4; 4; 4; 4; 4; 4; 4; 4; 4; 4; 4; 4; 4; 4; 4; 4; 5; 5; 5; 5; 5; 5;
   5; 5; 5; 5; 5; 5; 5; 5; 5; 5; 5; 5; 5; 5; 5; 5; 5; 5; 5; 5; 5; 5; 5; 5; 5; 6; 6; 6; 6; 6; 6; 6; 6; 6; 6; 6; 6; 6; 6; 6; 6; 6;
   6; 6; 6; 6; 6; 6; 6; 6; 6; 6; 6; 6; 6; 7; 7; 7; 7; 7; 7; 7; 7; 7; 7; 7; 7; 7; 7; 7; 7; 7; 7; 7; 7; 7; 7; 7; 7; 7; 7; 7; 7; 7;
   7; 7; 8; 8; 8; 8; 8; 8; 8; 8; 8; 8; 8; 8; 8; 8; 8; 8; 8; 8; 8; 8; 8; 8; 8; 8; 8; 8; 8; 8; 8; 8; 8; 9; 9; 9; 9; 9; 9; 9; 9; 9;
   9; 9; 9; 9; 9; 9; 9; 9; 9; 9; 9; 9; 9; 9; 9; 9; 9; 9; 9; 9; 9; 10; 10; 10; 10; 10; 10; 10; 10; 10; 10; 10; 10; 10; 10; 10; 10;
   10; 10; 10; 10; 10; 10; 10; 10; 10; 10; 10; 10; 10; 10; 10; 11; 11; 11; 11; 11; 11; 11; 11; 11; 11; 11; 11; 11; 11; 11; 11;
   11; 11; 11; 11; 11; 11; 11; 11; 11; 11; 11; 11; 11; 11; 12; 12; 12; 12; 12; 12; 12; 12; 12; 12; 12; 12; 12; 12; 12; 12; 12;
   12; 12; 12; 12; 12; 12; 12; 12; 12; 12; 12; 12; 12; 12].

Definition LEAP_MONTH_PER_DAY_OF_YEAR : list Z :=
  [1; 1; 1; 1; 1; 1; 1; 1; 1; 1; 1; 1; 1; 1; 1; 1; 1; 1; 1; 1; 1; 1; 1; 1; 1; 1; 1; 1; 1; 1; 1; 2; 2; 2; 2; 2; 2; 2; 2; 2; 2; 2;
   2; 2; 2; 2; 2; 2; 2; 2; 2; 2; 2; 2; 2; 2; 2; 2; 2; 2; 3; 3; 3; 3; 3; 3; 3; 3; 3; 3; 3; 3; 3; 3; 3; 3; 3; 3; 3; 3; 3; 3; 3; 3;
   3; 3; 3; 3; 3; 3; 3; 4; 4; 4; 4; 4; 4; 4; 4; 4; 4; 4; 4; 4; 4; 4; 4; 4; 4; 4; 4; 4; 4; 4; 4; 4; 4; 4; 4; 4; 4; 5; 5; 5; 5; 5;
   5; 5; 5; 5; 5; 5; 5; 5; 5; 5; 5; 5; 5; 5; 5; 5; 5; 5; 5; 5; 5; 5; 5; 5; 5; 5; 6; 6; 6; 6; 6; 6; 6; 6; 6; 6; 6; 6; 6; 6; 6; 6;
   6; 6; 6; 6; 6; 6; 6; 6; 6; 6; 6; 6; 6; 6; 7; 7; 7; 7; 7; 7; 7; 7; 7; 7; 7; 7; 7; 7; 7; 7; 7; 7; 7; 7; 7; 7; 7; 7; 7; 7; 7; 7;
   7; 7; 7; 8; 8; 8; 8; 8; 8; 8; 8; 8; 8; 8; 8; 8; 8; 8; 8; 8; 8; 8; 8; 8; 8; 8; 8; 8; 8; 8; 8; 8; 8; 8; 9; 9; 9; 9; 9; 9; 9; 9;
   9; 9; 9; 9; 9; 9; 9; 9; 9; 9; 9; 9; 9; 9; 9; 9; 9; 9; 9; 9; 9; 9; 10; 10; 10; 10; 10; 10; 10; 10; 10; 10; 10; 10; 10; 10; 10;
   10; 10; 10; 10; 10; 10; 10; 10; 10; 10; 10; 10; 10; 10; 10; 10; 11; 11; 11; 11; 11; 11; 11; 11; 11; 11; 11; 11; 11; 11; 11;
   11; 11; 11; 11; 11; 11; 11; 11; 11; 11; 11; 11; 11; 11; 11; 12; 12; 12; 12; 12; 12; 12; 12; 12; 12; 12; 12; 12; 12; 12; 12;
   12; 12; 12; 12; 12; 12; 12; 12; 12; 12; 12; 12; 12; 12; 12].

Definition CUMULATIVE_YEAR_DAYS : list Z :=
  [0; 365; 730; 1096; 1461; 1826; 2191; 2557; 2922; 3287; 3652; 4018; 4383; 4748; 5113; 5479; 5844; 6209; 6574; 6940; 7305; 7670;
   8035; 8401; 8766; 9131; 9496; 9862; 10227; 10592; 10957; 11323; 11688; 12053; 12418; 12784; 13149; 13514; 13879; 14245; 14610;
   14975; 15340; 15706; 16071; 16436; 16801; 17167; 17532; 17897; 18262; 18628; 18993; 19358; 19723; 20089; 20454; 20819; 21184;
   21550; 21915; 22280; 22645; 23011; 23376; 23741; 24106; 24472; 24837; 25202; 25567; 25933; 26298; 26663; 27028; 27394; 27759;
   28124; 28489; 28855; 29220; 29585; 29950; 30316; 30681; 31046; 31411; 31777; 32142; 32507; 32872; 33238; 33603; 33968; 34333;
   34699; 35064; 35429; 35794; 36160; 36525; 36890; 37255; 37621; 37986; 38351; 38716; 39082; 39447; 39812; 40177; 40543; 40908;
   41273; 41638; 42004; 42369; 42734; 43099; 43465; 43830; 44195; 44560; 44926; 45291; 45656; 46021; 46387; 46752; 47117; 47482;
   47847; 48212; 48577; 48942; 49308; 49673; 50038; 50403; 50769; 51134; 51499; 51864; 52230; 52595; 52960; 53325; 53691; 54056;
   54421; 54786; 55152; 55517; 55882; 56247; 56613; 56978; 57343; 57708; 58074; 58439; 58804; 59169; 59535; 59900; 60265; 60630;
   60996; 61361; 61726; 62091; 62457; 62822; 63187; 63552; 63918; 64283; 64648; 65013; 65379; 65744; 66109; 66474; 66840; 67205;
   67570; 67935; 68301; 68666; 69031; 69396; 69762; 70127; 70492; 70857; 71223; 71588; 71953; 72318; 72684; 73049; 73414; 73779;
   74145; 74510; 74875; 75240; 75606; 75971; 76336; 76701; 77067; 77432; 77797; 78162; 78528; 78893; 79258; 79623; 79989; 80354;
   80719; 81084; 81450; 81815; 82180; 82545; 82911; 83276; 83641; 84006; 84371; 84736; 85101; 85466; 85832; 86197; 86562; 86927;
   87293; 87658; 88023; 88388; 88754; 89119; 89484; 89849; 90215; 90580; 90945; 91310; 91676; 92041; 92406; 92771; 93137; 93502;
   93867; 94232; 94598; 94963; 95328; 95693; 96059; 96424; 96789; 97154; 97520; 97885; 98250; 98615; 98981; 99346; 99711; 100076;
   100442; 100807; 101172; 101537; 101903; 102268; 102633; 102998; 103364; 103729; 104094; 104459; 104825; 105190; 105555;
   105920; 106286; 106651; 107016; 107381; 107747; 108112; 108477; 108842; 109208; 109573; 109938; 110303; 110669; 111034;
   111399; 111764; 112130; 112495; 112860; 113225; 113591; 113956; 114321; 114686; 115052; 115417; 115782; 116147; 116513;
   116878; 117243; 117608; 117974; 118339; 118704; 119069; 119435; 119800; 120165; 120530; 120895; 121260; 121625; 121990;
   122356; 122721; 123086; 123451; 123817; 124182; 124547; 124912; 125278; 125643; 126008; 126373; 126739; 127104; 127469;
   127834; 128200; 128565; 128930; 129295; 129661; 130026; 130391; 130756; 131122; 131487; 131852; 132217; 132583; 132948;
   133313; 133678; 134044; 134409; 134774; 135139; 135505; 135870; 136235; 136600; 136966; 137331; 137696; 138061; 138427;
   138792; 139157; 139522; 139888; 140253; 140618; 140983; 141349; 141714; 142079; 142444; 142810; 143175; 143540; 143905;
   144271; 144636; 145001; 145366; 145732; 146097].

(** ** [DateType] *)

(** [DateType::IsLeapYear]; [%] truncates. *)
Definition IsLeapYear (year : Z) : bool :=
  (Z.rem year 4 =? 0) && (negb (Z.rem year 100 =? 0) || (Z.rem year 400 =? 0)).

(** [DateType::IsDateValid] *)
Definition IsDateValid (year month day : Z) : outcome bool :=
  if (year <? MIN_DATE_YEAR) || ((year =? MIN_DATE_YEAR) && ((month <? MIN_DATE_MONTH) || ((month =? MIN_DATE_MONTH) && (day <? MIN_DATE_DAY))))
  then Ret false
  else if (year >? MAX_DATE_YEAR) || ((year =? MAX_DATE_YEAR) && ((month >? MAX_DATE_MONTH) || ((month =? MAX_DATE_MONTH) && (day >? MAX_DATE_DAY))))
  then Ret false
  else if (month <? 1) || (month >? 12) then Ret false
  else if day <? 1 then Ret false
  else n ← at_index (if IsLeapYear year then LEAP_DAYS else NORMAL_DAYS) month; Ret (day <=? n).

(** [DateType::YMD2Date]: the value, or [None] if it returns false. *)
Definition YMD2Date (year month day : Z) : outcome (option Z) :=
  valid ← IsDateValid year month day;
  if valid : bool then
    c ← at_index (if IsLeapYear year then CUMULATIVE_LEAP_DAYS else CUMULATIVE_DAYS) (month - 1);
    let result := c + (day - 1) in
    if year <? 1970 then
      let diff_from_base := 1970 - year in
      y ← at_index CUMULATIVE_YEAR_DAYS (400 - Z.rem diff_from_base 400);
      Ret (Some (result + y - DAYS_PER_YEAR_LEAP - Z.quot diff_from_base 400 * DAYS_PER_YEAR_LEAP))
    else if year >=? 2370 then
      let diff_from_base := year - 2370 in
      y ← at_index CUMULATIVE_YEAR_DAYS (Z.rem diff_from_base 400);
      Ret (Some (result + y + DAYS_PER_YEAR_LEAP + Z.quot diff_from_base 400 * DAYS_PER_YEAR_LEAP))
    else
      y ← at_index CUMULATIVE_YEAR_DAYS (year - 1970);
      Ret (Some (result + y))
  else Ret None.

(** The loops of [DateType::Date2YMD] that bring [days] into one cycle of 400
    years. *)
Fixpoint NormalizeUp (fuel : nat) (days year : Z) : option (Z * Z) :=
  match fuel with
  | O => None
  | S fuel' => if days <? 0 then NormalizeUp fuel' (days + DAYS_PER_YEAR_LEAP) (year - YEAR_LEAP) else Some (days, year)
  end.

Fixpoint NormalizeDown (fuel : nat) (days year : Z) : option (Z * Z) :=
  match fuel with
  | O => None
  | S fuel' => if days >=? DAYS_PER_YEAR_LEAP then NormalizeDown fuel' (days - DAYS_PER_YEAR_LEAP) (year + YEAR_LEAP) else Some (days, year)
  end.

(** The loop that corrects [year_offset]. *)
Fixpoint FindYear (fuel : nat) (days year_offset : Z) : option (outcome Z) :=
  match fuel with
  | O => None
  | S fuel' =>
      match at_index CUMULATIVE_YEAR_DAYS year_offset with
      | Ret c => if days <? c then FindYear fuel' days (year_offset - 1) else Some (Ret year_offset)
      | Throw e msg => Some (Throw e msg)
      | UB why => Some (UB why)
      end
  end.

(** The month and the day of a day within its year *)
Definition MonthDay (year day : Z) : outcome (Z * Z) :=
  let '(months, days) := if IsLeapYear year then (LEAP_MONTH_PER_DAY_OF_YEAR, CUMULATIVE_LEAP_DAYS) else (MONTH_PER_DAY_OF_YEAR, CUMULATIVE_DAYS) in
  month ← at_index months day;
  c ← at_index days (month - 1);
  Ret (month, day - c + 1).

(** [DateType::Date2YMD]: its result, the year, the month and the day. *)
Definition Date2YMD (fuel : nat) (days : Z) : option (outcome (bool * Z * Z * Z)) :=
  '(days, year) ← NormalizeUp fuel days EPOCH_YEAR;
  '(days, year) ← NormalizeDown fuel days year;
  r ← FindYear fuel days (Z.quot days 365);
  Some (
    year_offset ← r;
    let year := year + year_offset in
    c ← at_index CUMULATIVE_YEAR_DAYS year_offset;
    '(month, day) ← MonthDay year (days - c);
    valid ← IsDateValid year month day;
    Ret (valid, year, month, day)).

(** ** Text: characters are their codes, and a string ends with a 0 *)

Definition isspace (c : Z) : bool := (c =? 32) || ((9 <=? c) && (c <=? 13)).
Definition isdigit (c : Z) : bool := (48 <=? c) && (c <=? 57).

(** A loop that reads a number of at most [limit]: the number and what follows,
    or [None] if the number is larger.  Its test for spaces is never reached. *)
Fixpoint ReadNumber (limit acc : Z) (cs : list Z) : option (Z * list Z) :=
  match cs with
  | c :: rest =>
      if isdigit c then
        let acc := acc * 10 + (c - 48) in
        if acc >? limit then None else ReadNumber limit acc rest
      else Some (acc, cs)
  | [] => Some (acc, [])
  end.

Fixpoint SkipSpaces (cs : list Z) : list Z :=
  match cs with
  | c :: rest => if isspace c then SkipSpaces rest else cs
  | [] => []
  end.

(** The separator behind a number; at the end of the string there is a 0. *)
Definition ReadSeparator (cs : list Z) : option (list Z) :=
  match cs with
  | c :: rest => if (c =? 45) || (c =? 47) then Some rest else None
  | [] => None
  end.

(** [DateType::ConvertFromString]: the value, or [None] if it returns false. *)
Definition ConvertFromString (cs : list Z) : outcome (option Z) :=
  match
    '(year, cs) ← ReadNumber 9999 0 (SkipSpaces cs);
    cs ← ReadSeparator cs;
    '(month, cs) ← ReadNumber 12 0 cs;
    cs ← ReadSeparator cs;
    '(day, _) ← ReadNumber 31 0 cs;
    Some (year, month, day)
  with
  | Some (year, month, day) => YMD2Date year month day
  | None => Ret None
  end.

(** [DateType::FromString] *)
Definition FromString (cs : list Z) : outcome Z :=
  r ← ConvertFromString cs;
  match r with Some v => Ret v | None => Throw ParserException "Invalid date format (YYYY-MM-DD or YYYY/MM/DD)." end.

(** The decimal digits of a number. *)
Fixpoint digits (fuel : nat) (n : Z) : list Z :=
  match fuel with
  | O => []
  | S fuel' => if n <? 10 then [48 + n] else digits fuel' (n / 10) ++ [48 + n mod 10]
  end.

(** The formats [{}] and [{:02d}] of an [int32_t] *)
Definition fmt_int (n : Z) : list Z := if n <? 0 then 45 :: digits 10 (- n) else digits 10 n.
Definition fmt_int2 (n : Z) : list Z := let t := fmt_int n in if bool_decide (length t < 2)%nat then 48 :: t else t.

(** [DateType::ToString]; the message of the exception without the date. *)
Definition ToString (fuel : nat) (value : Z) : option (outcome (list Z)) :=
  r ← Date2YMD fuel value;
  Some (
    '(ok, year, month, day) ← r;
    if ok : bool then Ret (fmt_int year ++ [45] ++ fmt_int2 month ++ [45] ++ fmt_int2 day)
    else Throw ParserException "Invalid date").

(** ** Intervals *)

Inductive TimeUnit := kYear | kMonth | kDay | kHour | kMinute | kSecond | kInvalidUnit.

Record IntervalType := mkInterval { unit_ : TimeUnit; ivalue : Z }.

(** [int32_t] arithmetic: an overflow is undefined. *)
Definition int_result (z : Z) : outcome Z :=
  if (- 2 ^ 31 <=? z) && (z <? 2 ^ 31) then Ret z else UB "signed overflow".

(** [DateType::Add] ([sign] is 1) and [DateType::Subtract] (-1): the result and
    [output], which was [out]. *)
Definition AddInterval (fuel : nat) (sign : Z) (input : Z) (interval : IntervalType) (out : Z) : option (outcome (bool * Z)) :=
  let by_ymd (k : Z -> Z -> Z -> outcome (bool * Z)) :=
    r ← Date2YMD fuel input;
    Some ('(ok, year, month, day) ← r; if ok : bool then k year month day else Ret (false, out)) in
  let store (r : option Z) := match r with Some v => (true, v) | None => (false, out) end in
  let v := ivalue interval in
  match unit_ interval with
  | kYear => by_ymd (fun year month day => year ← int_result (year + sign * v); r ← YMD2Date year month day; Ret (store r))
  | kMonth => by_ymd (fun year month day =>
      year ← int_result (year + sign * Z.quot v 12); r ← YMD2Date year (month + sign * Z.rem v 12) day; Ret (store r))
  | kDay => Some (x ← int_result (input + sign * v); Ret (true, x))
  | kHour => Some (x ← int_result (input + sign * Z.quot v DAY_HOUR); Ret (true, x))
  | kMinute => Some (_ ← int_result (input + sign * Z.quot v DAY_MINUTE); Ret (true, out))
  | kSecond => Some (_ ← int_result (input + sign * Z.quot v DAY_SECOND); Ret (true, out))
  | kInvalidUnit => Some (Throw ParserException "Invalid interval unit.")
  end.

Definition Add (fuel : nat) := AddInterval fuel 1.
Definition Subtract (fuel : nat) := AddInterval fuel (-1).

(** [DateType::GetDatePart] *)
Definition GetDatePart (fuel : nat) (input : Z) (unit : TimeUnit) : option (outcome Z) :=
  r ← Date2YMD fuel input;
  Some (
    '(ok, year, month, day) ← r;
    if ok : bool then
      match unit with
      | kYear => Ret year
      | kMonth => Ret month
      | kDay => Ret day
      | kHour => Throw ParserException "Can't extract hour from date"
      | kMinute => Throw ParserException "Can't extract minute from date"
      | kSecond => Throw ParserException "Can't extract second from date"
      | kInvalidUnit => Throw ParserException "Invalid time unit"
      end
    else Throw ParserException "Invalid date value").

(** ** The calendar *)

Definition leap (year : Z) : bool := (year mod 4 =? 0) && (negb (year mod 100 =? 0) || (year mod 400 =? 0)).

Definition days_in_month (year month : Z) : Z :=
  if month =? 2 then (if leap year then 29 else 28)
  else if (month =? 4) || (month =? 6) || (month =? 9) || (month =? 11) then 30 else 31.

(** The day after. *)
Definition next_day (year month day : Z) : Z * Z * Z :=
  if day <? days_in_month year month then (year, month, day + 1)
  else if month <? 12 then (year, month + 1, 1)
  else (year + 1, 1, 1).

(** The dates of the calendar, and those the type can hold. *)
Definition calendar_date (year month day : Z) : Prop := 1 <= month <= 12 /\ 1 <= day <= days_in_month year month.
Definition date_ok (year month day : Z) : Prop := MIN_DATE_YEAR <= year <= MAX_DATE_YEAR /\ calendar_date year month day.

#[export] Instance date_ok_dec year month day : Decision (date_ok year month day).
Proof. unfold date_ok, calendar_date. apply _. Defined.

(** ** Years *)

(** The days before a year, from 1970. *)
Definition year_days (year : Z) : Z := 365 * (year - 1970) + ((year - 1) / 4 - (year - 1) / 100 + (year - 1) / 400) - 477.

Definition year_length (year : Z) : Z := if leap year then 366 else 365.

Lemma IsLeapYear_leap year : IsLeapYear year = leap year.
Proof.
  assert (forall n, 0 < n -> (Z.rem year n =? 0) = (year mod n =? 0)) as Hn.
  { intros n Hn. apply eq_true_iff_eq. rewrite !Z.eqb_eq, Z.rem_divide, Z.mod_divide by lia. done. }
  unfold IsLeapYear, leap. by rewrite !Hn by lia.
Qed.

Lemma div_step year n : 0 < n -> year / n = (year - 1) / n + (if year mod n =? 0 then 1 else 0).
Proof.
  intros Hn. pose proof (Z.div_mod year n ltac:(lia)) as Hd. pose proof (Z.mod_pos_bound year n Hn).
  destruct (year mod n =? 0) eqn:E; zbool.
  - rewrite <- (Z.div_unique (year - 1) n (year / n - 1) (n - 1)); lia.
  - rewrite <- (Z.div_unique (year - 1) n (year / n) (year mod n - 1)); lia.
Qed.

Lemma year_days_next year : year_days (year + 1) = year_days year + year_length year.
Proof.
  unfold year_days, year_length, leap. replace (year + 1 - 1) with year by lia.
  rewrite (div_step year 4), (div_step year 100), (div_step year 400) by lia.
  assert (year mod 400 = 0 -> year mod 100 = 0) as H1 by (intros; Z.div_mod_to_equations; lia).
  assert (year mod 100 = 0 -> year mod 4 = 0) as H2 by (intros; Z.div_mod_to_equations; lia).
  destruct (year mod 4 =? 0) eqn:E4, (year mod 100 =? 0) eqn:E100, (year mod 400 =? 0) eqn:E400; simpl; zbool; tauto || lia.
Qed.

Lemma year_days_period year n : year_days (year + 400 * n) = year_days year + 146097 * n.
Proof.
  unfold year_days.
  assert ((year + 400 * n - 1) / 4 = (year - 1) / 4 + 100 * n) as -> by (rewrite <- Z.div_add by lia; f_equal; lia).
  assert ((year + 400 * n - 1) / 100 = (year - 1) / 100 + 4 * n) as -> by (rewrite <- Z.div_add by lia; f_equal; lia).
  assert ((year + 400 * n - 1) / 400 = (year - 1) / 400 + n) as -> by (rewrite <- Z.div_add by lia; f_equal; lia). lia.
Qed.

Lemma leap_period year n : leap (year + 400 * n) = leap year.
Proof.
  unfold leap.
  assert ((year + 400 * n) mod 4 = year mod 4) as -> by (rewrite <- (Z.mod_add year (100 * n)) by lia; f_equal; lia).
  assert ((year + 400 * n) mod 100 = year mod 100) as -> by (rewrite <- (Z.mod_add year (4 * n)) by lia; f_equal; lia).
  assert ((year + 400 * n) mod 400 = year mod 400) as -> by (rewrite <- (Z.mod_add year n) by lia; f_equal; lia). done.
Qed.

Lemma year_days_mono y1 y2 : y1 < y2 -> year_days y1 + year_length y1 <= year_days y2.
Proof.
  intros Hlt. rewrite <- year_days_next. replace y2 with (y1 + 1 + Z.of_nat (Z.to_nat (y2 - y1 - 1))) by lia.
  generalize (Z.to_nat (y2 - y1 - 1)). intros n. induction n as [|n IH]; [rewrite Z.add_0_r; lia|].
  replace (y1 + 1 + Z.of_nat (S n)) with (y1 + 1 + Z.of_nat n + 1) by lia.
  rewrite (year_days_next (y1 + 1 + Z.of_nat n)). unfold year_length. destruct (leap _); lia.
Qed.

(** ** Tables *)

Lemma year_table k : 0 <= k <= 400 -> at_index CUMULATIVE_YEAR_DAYS k = Ret (year_days (1970 + k)).
Proof. intros Hk. apply (table_check _ (fun k => year_days (1970 + k)) 401); [vm_compute; reflexivity|lia]. Qed.

Definition month_start (l : bool) (month : Z) : Z := default 0 ((if l then CUMULATIVE_LEAP_DAYS else CUMULATIVE_DAYS) !! Z.to_nat (month - 1)).

Lemma month_cases month : 1 <= month <= 12 ->
  month = 1 \/ month = 2 \/ month = 3 \/ month = 4 \/ month = 5 \/ month = 6 \/ month = 7 \/ month = 8 \/ month = 9 \/ month = 10 \/ month = 11 \/ month = 12.
Proof. lia. Qed.

Ltac by_month H := destruct (month_cases _ H) as [->|[->|[->|[->|[->|[->|[->|[->|[->|[->|[->| ->]]]]]]]]]]].

Lemma start_table (l : bool) month : 1 <= month <= 12 ->
  at_index (if l then CUMULATIVE_LEAP_DAYS else CUMULATIVE_DAYS) (month - 1) = Ret (month_start l month).
Proof. intros Hm. by_month Hm; by destruct l. Qed.

Lemma length_table year month : 1 <= month <= 12 ->
  at_index (if IsLeapYear year then LEAP_DAYS else NORMAL_DAYS) month = Ret (days_in_month year month).
Proof. intros Hm. rewrite IsLeapYear_leap. unfold days_in_month. by_month Hm; by destruct (leap year). Qed.

Lemma month_start_next year month : 1 <= month < 12 -> month_start (leap year) (month + 1) = month_start (leap year) month + days_in_month year month.
Proof. intros Hm. unfold days_in_month. assert (1 <= month <= 12) as Hm' by lia. by_month Hm'; try lia; by destruct (leap year). Qed.

Lemma month_start_first (l : bool) : month_start l 1 = 0.
Proof. by destruct l. Qed.

Lemma month_start_last year : month_start (leap year) 12 + days_in_month year 12 = year_length year.
Proof. unfold days_in_month, year_length. by destruct (leap year). Qed.

Lemma month_start_mono year m1 m2 : 1 <= m1 < m2 -> m2 <= 12 -> month_start (leap year) m1 + days_in_month year m1 <= month_start (leap year) m2.
Proof.
  intros H1 H2. unfold days_in_month. assert (1 <= m1 <= 12) as Hm1 by lia. assert (1 <= m2 <= 12) as Hm2 by lia.
  by_month Hm1; by_month Hm2; try lia; destruct (leap year); vm_compute; discriminate.
Qed.

Lemma month_start_range year month : 1 <= month <= 12 -> 0 <= month_start (leap year) month <= year_length year - days_in_month year month.
Proof.
  intros Hm. unfold days_in_month, year_length. by_month Hm; destruct (leap year); vm_compute; split; discriminate.
Qed.

(** ** Days of the calendar *)

(** The number of a date of the calendar. *)
Definition day_number (year month day : Z) : Z := year_days year + month_start (leap year) month + (day - 1).

Definition date_lt (a b : Z * Z * Z) : Prop :=
  let '(y1, m1, d1) := a in let '(y2, m2, d2) := b in
  y1 < y2 \/ (y1 = y2 /\ (m1 < m2 \/ (m1 = m2 /\ d1 < d2))).

Lemma day_number_range year month day : calendar_date year month day ->
  year_days year <= day_number year month day < year_days year + year_length year.
Proof. intros [Hm Hd]. unfold day_number. pose proof (month_start_range year month Hm). lia. Qed.

Lemma day_number_lt y1 m1 d1 y2 m2 d2 : calendar_date y1 m1 d1 -> calendar_date y2 m2 d2 -> date_lt (y1, m1, d1) (y2, m2, d2) ->
  day_number y1 m1 d1 < day_number y2 m2 d2.
Proof.
  intros H1 H2 [Hy|[<- [Hm|[<- Hd]]]].
  - pose proof (day_number_range _ _ _ H1). pose proof (day_number_range _ _ _ H2). pose proof (year_days_mono _ _ Hy). lia.
  - destruct H1 as [H1 H1'], H2 as [H2 H2']. unfold day_number. pose proof (month_start_mono y1 m1 m2). lia.
  - unfold day_number. lia.
Qed.

Lemma date_lt_total a b : date_lt a b \/ a = b \/ date_lt b a.
Proof.
  destruct a as [[y1 m1] d1], b as [[y2 m2] d2]. simpl.
  destruct (Z.lt_total y1 y2) as [|[-> |]]; [lia| |lia]. destruct (Z.lt_total m1 m2) as [|[-> |]]; [lia| |lia].
  destruct (Z.lt_total d1 d2) as [|[-> |]]; [lia| |lia]. auto.
Qed.

Lemma day_number_inj y1 m1 d1 y2 m2 d2 : calendar_date y1 m1 d1 -> calendar_date y2 m2 d2 ->
  day_number y1 m1 d1 = day_number y2 m2 d2 -> (y1, m1, d1) = (y2, m2, d2).
Proof.
  intros H1 H2 Heq. destruct (date_lt_total (y1, m1, d1) (y2, m2, d2)) as [Hlt|[?|Hlt]]; [|done|].
  - pose proof (day_number_lt _ _ _ _ _ _ H1 H2 Hlt). lia.
  - pose proof (day_number_lt _ _ _ _ _ _ H2 H1 Hlt). lia.
Qed.

Lemma next_day_number year month day : calendar_date year month day ->
  let '(y, m, d) := next_day year month day in calendar_date y m d /\ day_number y m d = day_number year month day + 1.
Proof.
  intros [Hm Hd]. unfold next_day, calendar_date. assert (forall y m, 28 <= days_in_month y m) as Hdim.
  { intros y m. unfold days_in_month. repeat case_match; lia. }
  pose proof (Hdim year (month + 1)). pose proof (Hdim (year + 1) 1).
  destruct (day <? days_in_month year month) eqn:E1; zbool; [unfold day_number; lia|].
  destruct (month <? 12) eqn:E2; zbool.
  - unfold day_number. rewrite month_start_next by lia. lia.
  - assert (month = 12) as -> by lia. unfold day_number. rewrite year_days_next, month_start_first.
    pose proof (month_start_last year). lia.
Qed.

(** ** The conversions *)

Lemma IsDateValid_spec year month day : IsDateValid year month day = Ret (bool_decide (date_ok year month day)).
Proof.
  unfold IsDateValid, date_ok, calendar_date, MIN_DATE_YEAR, MIN_DATE_MONTH, MIN_DATE_DAY, MAX_DATE_YEAR, MAX_DATE_MONTH, MAX_DATE_DAY.
  pose proof (length_table year month) as Ht. assert (days_in_month year month <= 31) as Hdim.
  { unfold days_in_month. repeat case_match; lia. }
  destruct (_ || _) eqn:E1; [rewrite bool_decide_false; [done|zbool; lia]|].
  destruct (_ || _) eqn:E2 in |- *; [rewrite bool_decide_false; [done|zbool; lia]|].
  destruct ((month <? 1) || (month >? 12)) eqn:E3; [rewrite bool_decide_false; [done|zbool; lia]|].
  destruct (day <? 1) eqn:E4; [rewrite bool_decide_false; [done|zbool; lia]|].
  rewrite Ht by (zbool; lia). simpl. f_equal. apply eq_true_iff_eq. rewrite bool_decide_eq_true. zbool. lia.
Qed.

Lemma ymd_value year month day : date_ok year month day -> YMD2Date year month day = Ret (Some (day_number year month day)).
Proof.
  intros Hok. unfold YMD2Date. rewrite IsDateValid_spec, bool_decide_true by done. destruct Hok as [Hy [Hm Hd]]. simpl.
  rewrite IsLeapYear_leap, start_table by done. simpl. unfold day_number, DAYS_PER_YEAR_LEAP.
  destruct (year <? 1970) eqn:E1; zbool; [|destruct (year >=? 2370) eqn:E2; zbool].
  - rewrite Z.rem_mod_nonneg, Z.quot_div_nonneg by lia. pose proof (Z.div_mod (1970 - year) 400). pose proof (Z.mod_pos_bound (1970 - year) 400).
    rewrite year_table by lia. simpl. replace (1970 + _) with (year + 400 * ((1970 - year) / 400 + 1)) by lia.
    rewrite year_days_period. do 2 f_equal. lia.
  - rewrite Z.rem_mod_nonneg, Z.quot_div_nonneg by lia. pose proof (Z.div_mod (year - 2370) 400). pose proof (Z.mod_pos_bound (year - 2370) 400).
    rewrite year_table by lia. simpl. replace (1970 + _) with (year + 400 * (- ((year - 2370) / 400 + 1))) by lia.
    rewrite year_days_period. do 2 f_equal. lia.
  - rewrite year_table by lia. simpl. replace (1970 + (year - 1970)) with year by lia. do 2 f_equal. lia.
Qed.

Lemma ymd_invalid year month day : ~ date_ok year month day -> YMD2Date year month day = Ret None.
Proof. intros Hok. unfold YMD2Date. by rewrite IsDateValid_spec, bool_decide_false. Qed.

Lemma normalize_up fuel : forall days year, - days <= 146097 * (Z.of_nat fuel - 1) -> (0 < fuel)%nat ->
  exists k, NormalizeUp fuel days year = Some (days + 146097 * k, year - 400 * k) /\ 0 <= k /\ 0 <= days + 146097 * k /\
    (days < 0 -> days + 146097 * k < 146097) /\ (0 <= days -> k = 0).
Proof.
  induction fuel as [|fuel IH]; intros days year Hf Hpos; [lia|]. simpl. destruct (days <? 0) eqn:E; zbool.
  - destruct (IH (days + DAYS_PER_YEAR_LEAP) (year - YEAR_LEAP)) as (k & -> & Hk & H0 & H1 & H2); unfold DAYS_PER_YEAR_LEAP, YEAR_LEAP in *; [lia..|].
    exists (k + 1). split; [f_equal; f_equal; lia|]. lia.
  - exists 0. split; [f_equal; f_equal; lia|lia].
Qed.

Lemma normalize_down fuel : forall days year, 0 <= days <= 146097 * (Z.of_nat fuel - 1) -> (0 < fuel)%nat ->
  exists k, NormalizeDown fuel days year = Some (days - 146097 * k, year + 400 * k) /\ 0 <= days - 146097 * k < 146097.
Proof.
  induction fuel as [|fuel IH]; intros days year Hf Hpos; [lia|]. simpl. destruct (days >=? DAYS_PER_YEAR_LEAP) eqn:E; unfold DAYS_PER_YEAR_LEAP, YEAR_LEAP in *; zbool.
  - destruct (IH (days - 146097) (year + 400)) as (k & -> & Hk); [lia..|].
    exists (k + 1). split; [f_equal; f_equal; lia|lia].
  - exists 0. split; [f_equal; f_equal; lia|lia].
Qed.

Lemma year_length_min year : 365 <= year_length year <= 366.
Proof. unfold year_length. destruct (leap year); lia. Qed.

Lemma year_days_min n : 0 <= n -> 365 * n <= year_days (1970 + n).
Proof.
  intros Hn. rewrite <- (Z2Nat.id n) by done. induction (Z.to_nat n) as [|k IH]; [done|].
  replace (1970 + Z.of_nat (S k)) with (1970 + Z.of_nat k + 1) by lia. rewrite year_days_next.
  pose proof (year_length_min (1970 + Z.of_nat k)). lia.
Qed.

Lemma find_year fuel : forall days o, 0 <= o <= 400 -> 0 <= days < year_days (1970 + o + 1) -> o < Z.of_nat fuel ->
  exists r, FindYear fuel days o = Some (Ret r) /\ 0 <= r <= o /\ year_days (1970 + r) <= days < year_days (1970 + r + 1).
Proof.
  induction fuel as [|fuel IH]; intros days o Ho Hd Hf; [lia|]. simpl. rewrite year_table by done.
  destruct (days <? year_days (1970 + o)) eqn:E; zbool; [|exists o; split; [done|lia]].
  assert (o <> 0) by (intros ->; change (year_days (1970 + 0)) with 0 in E; lia).
  destruct (IH days (o - 1)) as (r & -> & Hr); [lia| |lia|].
  - replace (1970 + (o - 1) + 1) with (1970 + o) by lia. lia.
  - exists r. split; [done|lia].
Qed.

(** All days of a year *)
Definition month_day_ok (year doy : Z) : bool :=
  match MonthDay year doy with
  | Ret (m, d) => bool_decide (calendar_date year m d) && (month_start (leap year) m + (d - 1) =? doy)
  | _ => false
  end.

Lemma month_day_leap y1 y2 doy : leap y1 = leap y2 -> month_day_ok y1 doy = month_day_ok y2 doy.
Proof.
  intros Hl. unfold month_day_ok, MonthDay. rewrite !IsLeapYear_leap, Hl. destruct (if leap y2 then _ else _) as [months days]. destruct (_ ≫= _) as [[m d]| |]; [|done..].
  f_equal. apply bool_decide_ext. unfold calendar_date, days_in_month. by rewrite Hl.
Qed.

Lemma month_day year doy : 0 <= doy < year_length year ->
  exists m d, MonthDay year doy = Ret (m, d) /\ calendar_date year m d /\ month_start (leap year) m + (d - 1) = doy.
Proof.
  intros Hd. assert (month_day_ok year doy = true) as Hok.
  { rewrite (month_day_leap year (if leap year then 2000 else 1970)) by (by destruct (leap year)). unfold year_length in Hd.
    assert (forall l : bool, forallb (fun k => month_day_ok (if l then 2000 else 1970) (Z.of_nat k)) (seq 0 (if l then 366 else 365)) = true) as Hall
      by (intros []; vm_compute; reflexivity).
    specialize (Hall (leap year)). rewrite forallb_forall in Hall. rewrite <- (Z2Nat.id doy) by lia. apply Hall, in_seq.
    destruct (leap year); lia. }
  unfold month_day_ok in Hok. destruct (MonthDay year doy) as [[m d]| |]; [|done..].
  apply andb_true_iff in Hok as [H1 H2]. apply bool_decide_eq_true in H1. apply Z.eqb_eq in H2. eauto.
Qed.

(** Enough fuel for every [int32_t]. *)
Definition date_fuel : nat := Z.to_nat 15000.

Lemma date_ymd fuel days : (date_fuel <= fuel)%nat -> - 2 ^ 31 <= days < 2 ^ 31 ->
  exists y m d, Date2YMD fuel days = Some (Ret (bool_decide (date_ok y m d), y, m, d)) /\ calendar_date y m d /\ day_number y m d = days.
Proof.
  intros Hf Hd. assert (15000 <= Z.of_nat fuel) as Hf' by (unfold date_fuel in Hf; lia). clear Hf. unfold Date2YMD, EPOCH_YEAR.
  destruct (normalize_up fuel days 1970) as (k1 & -> & Hk1 & H0 & H1 & H2); [lia..|].
  destruct (normalize_down fuel (days + 146097 * k1) (1970 - 400 * k1)) as (k2 & Hdown & H3); [destruct (decide (days < 0)); lia|lia|].
  simpl. rewrite Hdown. simpl. clear Hdown. set (n := days + 146097 * k1 - 146097 * k2) in *.
  rewrite Z.quot_div_nonneg by lia. pose proof (Z.div_mod n 365). pose proof (Z.mod_pos_bound n 365).
  pose proof (year_days_min (n / 365 + 1)) as Hmin. rewrite Z.add_assoc in Hmin.
  destruct (find_year fuel n (n / 365)) as (r & -> & Hr & Hlo & Hhi); [lia..|]. simpl. rewrite year_table by lia. simpl.
  set (y := 1970 - 400 * k1 + 400 * k2 + r). assert (y = 1970 + r + 400 * (k2 - k1)) as Hy by lia.
  assert (year_length y = year_length (1970 + r)) as Hlen by (unfold year_length; by rewrite Hy, leap_period).
  destruct (month_day y (n - year_days (1970 + r))) as (m & d & -> & Hcal & Hdoy); [rewrite year_days_next in Hhi; lia|].
  simpl. rewrite IsDateValid_spec. simpl. exists y, m, d. split_and!; [done..|].
  unfold day_number. rewrite Hy, year_days_period, <- Hy. lia.
Qed.

(** ** Text *)

Lemma read_digits limit fuel n rest : 0 <= n <= limit -> n < 10 ^ Z.of_nat fuel ->
  ReadNumber limit 0 (digits fuel n ++ rest) = ReadNumber limit n rest.
Proof.
  revert n rest. induction fuel as [|fuel IH]; intros n rest Hn Hf; [simpl in *; assert (n = 0) as -> by lia; done|].
  rewrite Nat2Z.inj_succ, Z.pow_succ_r in Hf by lia. simpl. destruct (n <? 10) eqn:E; zbool.
  - simpl. assert (isdigit (48 + n) = true) as -> by (unfold isdigit; zbool; lia).
    destruct (_ >? _) eqn:E2; zbool; [lia|]. f_equal. lia.
  - pose proof (Z.div_mod n 10). pose proof (Z.mod_pos_bound n 10).
    rewrite <- app_assoc, IH by lia. simpl. assert (isdigit (48 + n mod 10) = true) as -> by (unfold isdigit; zbool; lia).
    destruct (_ >? _) eqn:E2; zbool; [lia|]. f_equal. lia.
Qed.

Lemma digits_head fuel n : 0 <= n -> exists c l, digits (S fuel) n = c :: l /\ isdigit c = true.
Proof.
  revert n. induction fuel as [|fuel IH]; intros n Hn; simpl; (destruct (n <? 10) eqn:E; zbool;
    [eexists _, _; split; [done|unfold isdigit; zbool; lia]|]).
  - pose proof (Z.mod_pos_bound n 10). eexists _, _. split; [done|unfold isdigit; zbool; lia].
  - destruct (IH (n / 10)) as (c & l & Heq & Hc); [apply Z.div_pos; lia|]. simpl in Heq. rewrite Heq. by exists c, (l ++ [48 + n mod 10]).
Qed.

Lemma skip_digits fuel n rest : 0 <= n -> SkipSpaces (digits (S fuel) n ++ rest) = digits (S fuel) n ++ rest.
Proof.
  intros Hn. destruct (digits_head fuel n Hn) as (c & l & -> & Hc). simpl.
  assert (isspace c = false) as -> by (unfold isdigit, isspace in *; zbool; lia). done.
Qed.

Lemma fmt_int_digits n : 0 <= n -> fmt_int n = digits 10 n.
Proof. intros Hn. unfold fmt_int. destruct (n <? 0) eqn:E; zbool; [lia|done]. Qed.

Lemma read_fmt2 limit n rest : 0 <= n <= limit -> n < 10 ^ 10 -> ReadNumber limit 0 (fmt_int2 n ++ rest) = ReadNumber limit n rest.
Proof.
  intros Hn H10. rewrite <- (read_digits limit 10 n) by (simpl; lia). unfold fmt_int2. rewrite fmt_int_digits by lia. case_bool_decide; [|done].
  change (ReadNumber limit 0 ((48 :: digits 10 n) ++ rest)) with (if 0 >? limit then None else ReadNumber limit 0 (digits 10 n ++ rest)).
  destruct (0 >? limit) eqn:E; zbool; [lia|done].
Qed.

(** What is read of a date that was written, its year apart. *)
Lemma read_month_day m d : 1 <= m <= 12 -> 1 <= d <= 31 ->
  ('(month, cs) ← ReadNumber 12 0 (fmt_int2 m ++ [45] ++ fmt_int2 d); cs ← ReadSeparator cs; '(day, _) ← ReadNumber 31 0 cs; Some (month, day)) = Some (m, d).
Proof.
  intros Hm Hd. rewrite read_fmt2 by lia. simpl. rewrite <- (app_nil_r (fmt_int2 d)), read_fmt2 by lia. done.
Qed.

Lemma day_31 year month day : calendar_date year month day -> 1 <= day <= 31.
Proof. intros [Hm Hd]. unfold days_in_month in Hd. repeat case_match; lia. Qed.

Lemma read_date y m d : 0 <= y <= 9999 -> calendar_date y m d -> ConvertFromString (fmt_int y ++ [45] ++ fmt_int2 m ++ [45] ++ fmt_int2 d) = YMD2Date y m d.
Proof.
  intros Hy Hcal. pose proof (day_31 _ _ _ Hcal) as Hd. destruct Hcal as [Hm _]. pose proof (read_month_day m d Hm Hd) as Hmd.
  unfold ConvertFromString. rewrite fmt_int_digits, skip_digits, read_digits by (simpl; lia). simpl in *.
  destruct (ReadNumber 12 0 _) as [[? cs]|]; simplify_eq/=. destruct (ReadSeparator cs) as [cs'|]; simplify_eq/=.
  destruct (ReadNumber 31 0 cs') as [[? ?]|]; simplify_eq/=. done.
Qed.

Lemma day_number_small y m d : date_ok y m d -> - 2 ^ 21 <= day_number y m d < 2 ^ 22.
Proof.
  intros [Hy Hcal]. pose proof (day_number_range _ _ _ Hcal). pose proof (year_length_min y). unfold MIN_DATE_YEAR, MAX_DATE_YEAR in Hy.
  assert (year_days y <= year_days 10000 /\ year_days (-1970) <= year_days y) as [H1 H2].
  { split; [pose proof (year_days_mono y 10000)|pose proof (year_days_mono (-1970) y); pose proof (year_length_min (-1970))]; lia. }
  change (year_days 10000) with 2932897 in H1. change (year_days (-1970)) with (-1439055) in H2. lia.
Qed.

Lemma day_number_int32 y m d : date_ok y m d -> - 2 ^ 31 <= day_number y m d < 2 ^ 31.
Proof. intros Hok. pose proof (day_number_small _ _ _ Hok). lia. Qed.

Lemma date_back fuel y m d : (date_fuel <= fuel)%nat -> date_ok y m d -> Date2YMD fuel (day_number y m d) = Some (Ret (true, y, m, d)).
Proof.
  intros Hf Hok. pose proof (day_number_int32 _ _ _ Hok) as Hr. destruct (date_ymd fuel _ Hf Hr) as (y' & m' & d' & -> & Hcal & Heq).
  apply day_number_inj in Heq; [|done|apply Hok]. simplify_eq. by rewrite bool_decide_true.
Qed.

Lemma int_result_ok z : - 2 ^ 31 <= z < 2 ^ 31 -> int_result z = Ret z.
Proof. intros Hz. unfold int_result. destruct (_ && _) eqn:E; [done|]. rewrite andb_false_iff in E. zbool. lia. Qed.

(** ** Theorems *)

(** C27: [Date2YMD] gives a date of the Gregorian calendar for every value of 32 bits
    - no table is read outside, and the loops end - and reports whether its year is
    one the type holds; [YMD2Date] of that date is the value again.  Conversely every
    date that the type holds has a value of 32 bits, from which [Date2YMD] finds the
    date; all others are refused.  The years the type holds are those of the code, from
    [MIN_DATE_YEAR], which is -1969, to 9999; the comment on the type names 0001-01-01
    as the first date. *)
Theorem date_roundtrip fuel : (date_fuel <= fuel)%nat ->
  (forall days, - 2 ^ 31 <= days < 2 ^ 31 ->
     exists y m d, Date2YMD fuel days = Some (Ret (bool_decide (MIN_DATE_YEAR <= y <= MAX_DATE_YEAR), y, m, d)) /\ calendar_date y m d /\
       YMD2Date y m d = Ret (if bool_decide (MIN_DATE_YEAR <= y <= MAX_DATE_YEAR) then Some days else None)) /\
  (forall y m d, date_ok y m d ->
     exists days, YMD2Date y m d = Ret (Some days) /\ - 2 ^ 31 <= days < 2 ^ 31 /\ Date2YMD fuel days = Some (Ret (true, y, m, d))) /\
  (forall y m d, ~ date_ok y m d -> YMD2Date y m d = Ret None).
Proof.
  intros Hf. split_and!.
  - intros days Hd. destruct (date_ymd fuel days Hf Hd) as (y & m & d & -> & Hcal & <-). exists y, m, d.
    assert (bool_decide (date_ok y m d) = bool_decide (MIN_DATE_YEAR <= y <= MAX_DATE_YEAR)) as -> by (apply bool_decide_ext; unfold date_ok; tauto).
    split_and!; [done..|]. case_bool_decide; [by apply ymd_value|]. apply ymd_invalid. by intros [? _].
  - intros y m d Hok. exists (day_number y m d). split_and!; [by apply ymd_value|by apply day_number_int32..|by apply date_back].
  - intros y m d. apply ymd_invalid.
Qed.

Lemma date_roundtrip_witness : (date_fuel <= date_fuel)%nat /\ Date2YMD date_fuel 19782 = Some (Ret (true, 2024, 2, 29)) /\ YMD2Date 2024 2 29 = Ret (Some 19782).
Proof.
  split; [lia|]. destruct (date_roundtrip date_fuel (le_n _)) as (_ & H & _).
  destruct (H 2024 2 29) as (days & Hd & _ & Hb); [vm_compute; repeat split; discriminate|]. vm_compute in Hd. injection Hd as <-. done.
Defined.

(** C28: The values count the days of the Gregorian calendar: 1970-01-01 is 0,
    the day after a date has the next value - the ends of months and of years,
    the leap years, and the bounds of the tables included -, and the order of
    the values is the order of the dates. *)
Theorem date_counts_days :
  YMD2Date 1970 1 1 = Ret (Some 0) /\
  (forall y m d, date_ok y m d -> (y, m, d) <> (9999, 12, 31) ->
     exists v, YMD2Date y m d = Ret (Some v) /\ let '(y', m', d') := next_day y m d in YMD2Date y' m' d' = Ret (Some (v + 1))) /\
  (forall y1 m1 d1 y2 m2 d2 v1 v2, YMD2Date y1 m1 d1 = Ret (Some v1) -> YMD2Date y2 m2 d2 = Ret (Some v2) ->
     (v1 < v2 <-> date_lt (y1, m1, d1) (y2, m2, d2))).
Proof.
  split; [done|]. split.
  - intros y m d [Hy Hcal] Hne. exists (day_number y m d). split; [by apply ymd_value|].
    pose proof (next_day_number y m d Hcal) as Hnext. assert (let '(y', _, _) := next_day y m d in y <= y' <= 9999) as Hy'.
    { unfold next_day, MAX_DATE_YEAR, MIN_DATE_YEAR in *. repeat case_match; simplify_eq; [lia..|]. zbool.
      destruct (decide (y = 9999)) as [->|]; [|lia]. destruct Hcal as [Hm Hd]. assert (m = 12) as -> by lia.
      destruct Hne. change (days_in_month 9999 12) with 31 in *. do 2 f_equal. lia. }
    destruct (next_day y m d) as [[y' m'] d']. destruct Hnext as [Hcal' <-]. apply ymd_value.
    split; [unfold MAX_DATE_YEAR in *; lia|done].
  - assert (forall y m d v, YMD2Date y m d = Ret (Some v) -> calendar_date y m d /\ v = day_number y m d) as Hv.
    { intros y m d v Hv. destruct (decide (date_ok y m d)) as [Hok|Hok]; [|by rewrite ymd_invalid in Hv].
      rewrite ymd_value in Hv by done. injection Hv as <-. split; [apply Hok|done]. }
    intros y1 m1 d1 y2 m2 d2 v1 v2 [H1 ->]%Hv [H2 ->]%Hv. split; [|by apply day_number_lt].
    intros Hlt. destruct (date_lt_total (y1, m1, d1) (y2, m2, d2)) as [?|[?|Hgt]]; [done|simplify_eq; lia|].
    pose proof (day_number_lt _ _ _ _ _ _ H2 H1 Hgt). lia.
Qed.

(** A date from the year 0 on is read back from its text. *)
Theorem date_text_roundtrip fuel y m d v : (date_fuel <= fuel)%nat -> 0 <= y -> YMD2Date y m d = Ret (Some v) ->
  exists text, ToString fuel v = Some (Ret text) /\ FromString text = Ret v.
Proof.
  intros Hf Hy Hv. destruct (decide (date_ok y m d)) as [Hok|Hok]; [|by rewrite ymd_invalid in Hv].
  pose proof Hv as Hv'. rewrite ymd_value in Hv by done. injection Hv as <-. unfold ToString. rewrite date_back by done. simpl.
  exists (fmt_int y ++ [45] ++ fmt_int2 m ++ [45] ++ fmt_int2 d). split; [done|]. unfold FromString. destruct Hok as [Hmax Hcal]. unfold MAX_DATE_YEAR in Hmax.
  rewrite read_date by (done || lia). by rewrite Hv'.
Qed.

Lemma date_text_roundtrip_witness : exists text, ToString date_fuel 19782 = Some (Ret text) /\ FromString text = Ret 19782.
Proof. apply (date_text_roundtrip date_fuel 2024 2 29); [lia|lia|reflexivity]. Defined.

(** [Add] of months does not carry into the year: where the month passes
    December it returns false, as it does where the day does not exist; it adds
    [k mod 12] months only within the year.  [Add] of minutes returns true and
    leaves the output as it was, however many days they are. *)
Theorem date_add_months fuel y m d v k out : (date_fuel <= fuel)%nat -> YMD2Date y m d = Ret (Some v) -> 0 <= k < 2 ^ 31 - 10000 ->
  Add fuel v (mkInterval kMonth k) out =
    Some (Ret (if bool_decide (date_ok (y + k / 12) (m + k mod 12) d) then (true, day_number (y + k / 12) (m + k mod 12) d) else (false, out))) /\
  Add fuel v (mkInterval kMinute k) out = Some (Ret (true, out)).
Proof.
  intros Hf Hv Hk. destruct (decide (date_ok y m d)) as [Hok|Hok]; [|by rewrite ymd_invalid in Hv].
  rewrite ymd_value in Hv by done. injection Hv as <-. pose proof (day_number_small _ _ _ Hok) as Hr. unfold Add, AddInterval. simpl.
  rewrite date_back by done. simpl. rewrite Z.quot_div_nonneg, Z.rem_mod_nonneg by lia.
  assert (0 <= k / 12 <= k) by (split; [apply Z.div_pos|apply Z.div_le_upper_bound]; lia).
  replace (1 * (k / 12)) with (k / 12) by lia. replace (1 * (k mod 12)) with (k mod 12) by lia.
  destruct Hok as [Hy Hcal]. unfold MIN_DATE_YEAR, MAX_DATE_YEAR in Hy.
  rewrite int_result_ok by lia. split.
  - simpl. case_bool_decide as H1; [by rewrite ymd_value|by rewrite ymd_invalid].
  - assert (0 <= Z.quot k DAY_MINUTE <= 2 ^ 21) by (unfold DAY_MINUTE, DAY_HOUR; rewrite Z.quot_div_nonneg by lia; split; [apply Z.div_pos|apply Z.div_le_upper_bound]; lia).
    by rewrite int_result_ok by lia.
Qed.

Lemma date_add_months_witness : YMD2Date 2023 12 15 = Ret (Some 19706) /\ Add date_fuel 19706 (mkInterval kMonth 1) 7 = Some (Ret (false, 7)).
Proof. split; [reflexivity|]. apply (date_add_months date_fuel 2023 12 15 19706 1 7); [lia|reflexivity|lia]. Defined.

(** The text of a date with a year from -12 to -1 is read as a date of the
    year 0: the minus sign counts as the separator after an empty year. *)
Lemma date_text_negative : exists v text, YMD2Date (-5) 3 20 = Ret (Some v) /\ ToString date_fuel v = Some (Ret text) /\ FromString text = Ret (day_number 0 5 3) /\
  v <> day_number 0 5 3.
Proof. eexists _, _. split; [vm_compute; reflexivity|]. split; [vm_compute; reflexivity|]. split; [vm_compute; reflexivity|]. vm_compute. discriminate. Qed.
