(* ===== verification/Bitmap.v ===== *)
(** * Bitmap

    The bitmap of the inverted index ([storage/invertedindex/common/bitmap.cpp]): an
    array of words of 32 bits, in which the first item is the highest bit of the
    first word, with a count of the bits that are set.

    Arrays are lists and a bitmap owns its array; the memory pool is not
    modelled.  An assertion that does not hold is undefined behaviour. *)
From S2P Require Import Prelude Arrays.

Local Open Scope Z_scope.

(** ** Constants *)

Definition SLOT_SIZE : Z := 32.
Definition SLOT_SIZE_BIT_NUM : Z := 5.
Definition SLOT_SIZE_BIT_MASK : Z := 0x1F.
Definition INVALID_INDEX : Z := 0xFFFFFFFF.

Definition BITMAPOPMASK : list Z :=
  [0x80000000; 0x40000000; 0x20000000; 0x10000000; 0x08000000; 0x04000000; 0x02000000; 0x01000000;
   0x00800000; 0x00400000; 0x00200000; 0x00100000; 0x00080000; 0x00040000; 0x00020000; 0x00010000;
   0x00008000; 0x00004000; 0x00002000; 0x00001000; 0x00000800; 0x00000400; 0x00000200; 0x00000100;
   0x00000080; 0x00000040; 0x00000020; 0x00000010; 0x00000008; 0x00000004; 0x00000002; 0x00000001].

Definition BITMAP_NEXT_MASK : list Z :=
  [0xffffffff; 0x7fffffff; 0x3fffffff; 0x1fffffff; 0x0fffffff; 0x07ffffff; 0x03ffffff; 0x01ffffff;
   0x00ffffff; 0x007fffff; 0x003fffff; 0x001fffff; 0x000fffff; 0x0007ffff; 0x0003ffff; 0x0001ffff;
   0x0000ffff; 0x00007fff; 0x00003fff; 0x00001fff; 0x00000fff; 0x000007ff; 0x000003ff; 0x000001ff;
   0x000000ff; 0x0000007f; 0x0000003f; 0x0000001f; 0x0000000f; 0x00000007; 0x00000003; 0x00000001].

(** ** State *)

Record Bitmap := mkBitmap {
  item_count_ : Z;
  slot_count_ : Z;
  data_ : option (list Z);
  set_count_ : Z;
  mount_ : bool;
  init_set_ : bool;
}.

Definition with_words (b : Bitmap) (l : list Z) : Bitmap := mkBitmap (item_count_ b) (slot_count_ b) (Some l) (set_count_ b) (mount_ b) (init_set_ b).
Definition with_count (b : Bitmap) (n : Z) : Bitmap := mkBitmap (item_count_ b) (slot_count_ b) (data_ b) n (mount_ b) (init_set_ b).

(** The array behind [data_]. *)
Definition words (b : Bitmap) : outcome (list Z) := match data_ b with Some l => Ret l | None => UB "null pointer" end.

(** ** Words *)

(** [~w] *)
Definition not_u32 (w : Z) : Z := to_u32 (Z.lnot w).

(** [__builtin_clz] *)
Definition clz (w : Z) : outcome Z := if w =? 0 then UB "clz of 0" else Ret (31 - Z.log2 w).

(** [*(u64 * )&data[i]]; the machine is little endian. *)
Definition read_u64 (l : list Z) (i : Z) : outcome Z :=
  lo ← at_index l i; hi ← at_index l (i + 1); Ret (lo + 2 ^ 32 * hi).

(** [CountBits(u64)] *)
Definition CountBits64 (value : Z) : Z :=
  let value := to_u64 (value - Z.land (Z.shiftr value 1) 0x5555555555555555) in
  let value := to_u64 (Z.land value 0x3333333333333333 + Z.land (Z.shiftr value 2) 0x3333333333333333) in
  to_u32 (Z.shiftr (to_u64 (Z.land (to_u64 (value + Z.shiftr value 4)) 0xF0F0F0F0F0F0F0F * 0x101010101010101)) 56).

(** The loop of [CountBits(u32, u32)]; [todo] rounds are left. *)
Fixpoint CountLoop (todo : nat) (value count : Z) : Z :=
  match todo with
  | O => count
  | S todo' =>
      if value =? 0 then count
      else CountLoop todo' (to_u32 (Z.shiftl value 1)) (if Z.land value 0x80000000 =? 0 then count else to_u32 (count + 1))
  end.

Definition CountBits (value valid_count : Z) : Z := CountLoop (Z.to_nat valid_count) value 0.

(** ** Construction *)

Definition slots_of (item_count : Z) : Z := Z.shiftr (to_u32 (item_count + SLOT_SIZE - 1)) 5.

(** [Bitmap(bool)] *)
Definition NewEmpty (set : bool) : Bitmap := let n := if set then INVALID_INDEX else 0 in mkBitmap n n None 0 false set.

(** [Bitmap(u32, bool)] *)
Definition NewBitmap (item_count : Z) (set : bool) : Bitmap :=
  let slot_count := slots_of item_count in
  mkBitmap item_count slot_count (Some (replicate (Z.to_nat slot_count) (if set then 0xFFFFFFFF else 0))) (if set then item_count else 0) false set.

(** The first [n] words, copied by [Memcpy]. *)
Definition copy_words (l : list Z) (n : Z) : outcome (list Z) :=
  if Z.of_nat (length l) <? n then UB "index out of range" else Ret (take (Z.to_nat n) l).

(** [Bitmap(const Bitmap &)] *)
Definition CopyBitmap (rhs : Bitmap) : outcome Bitmap :=
  match data_ rhs with
  | Some l => l ← copy_words l (slot_count_ rhs); Ret (mkBitmap (item_count_ rhs) (slot_count_ rhs) (Some l) (set_count_ rhs) false (init_set_ rhs))
  | None => Ret (mkBitmap (item_count_ rhs) (slot_count_ rhs) None (set_count_ rhs) false (init_set_ rhs))
  end.

(** [operator=], of another object *)
Definition Assign (b rhs : Bitmap) : outcome Bitmap := CopyBitmap rhs.

Definition Clone (b : Bitmap) : outcome Bitmap := CopyBitmap b.

Definition Clear (b : Bitmap) : Bitmap := mkBitmap 0 (slot_count_ b) None 0 (mount_ b) (init_set_ b).

Definition Alloc (b : Bitmap) (item_count : Z) (set : bool) : Bitmap :=
  let b := Clear b in
  let slot_count := slots_of item_count in
  mkBitmap item_count slot_count (Some (replicate (Z.to_nat slot_count) (if set then 0xFFFFFFFF else 0))) (if set then item_count else 0) (mount_ b) (init_set_ b).

Definition Size (b : Bitmap) : Z := to_u32 (slot_count_ b * 4).

(** ** Counts *)

(** The loops over pairs of words; [todo] rounds are left. *)
Fixpoint PairLoop (todo : nat) (l : list Z) (i count : Z) : outcome Z :=
  match todo with
  | O => Ret count
  | S todo' =>
      data ← read_u64 l i;
      PairLoop todo' l (i + 2) (if data =? 0 then count else to_u32 (count + CountBits64 data))
  end.

(** The parts of [RefreshSetCountByScanning]: over pairs of words up to
    [last_slot], and before it over a last word that has no pair. *)
Definition RefreshPairs (b : Bitmap) (l : list Z) (count last_slot : Z) : outcome Bitmap :=
  _ ← assert_that (Z.odd last_slot);
  n ← PairLoop (Z.to_nat (last_slot / 2 + 1)) l 0 count; Ret (with_count b n).

Definition RefreshWords (b : Bitmap) (l : list Z) (count last_slot : Z) : outcome Bitmap :=
  if Z.odd last_slot then RefreshPairs b l count last_slot
  else
    data ← at_index l last_slot;
    let count := to_u32 (count + CountBits data 32) in
    if last_slot =? 0 then Ret (with_count b count) else RefreshPairs b l count (last_slot - 1).

Definition RefreshSetCountByScanning (b : Bitmap) : outcome Bitmap :=
  match data_ b with
  | None => Ret (with_count b 0)
  | Some l =>
      let last_slot := to_u32 (slot_count_ b - 1) in
      let test_bit_in_last_slot := Z.land (item_count_ b) SLOT_SIZE_BIT_MASK in
      if negb (test_bit_in_last_slot =? 0) then
        data ← at_index l last_slot;
        let count := CountBits data test_bit_in_last_slot in
        if last_slot =? 0 then Ret (with_count b count) else RefreshWords b l count (last_slot - 1)
      else RefreshWords b l 0 last_slot
  end.

Definition GetSetCount (b : Bitmap) : Z := set_count_ b.
Definition SetSetCount (b : Bitmap) (count : Z) : Bitmap := with_count b count.
Definition GetUnsetCount (b : Bitmap) : Z := to_u32 (item_count_ b - GetSetCount b).
Definition IsEmpty (b : Bitmap) : bool := set_count_ b =? 0.

(** ** Search *)

(** The loop of [Begin]; [todo] rounds are left. *)
Fixpoint BeginLoop (todo : nat) (l : list Z) (i : Z) : outcome Z :=
  match todo with
  | O => Ret INVALID_INDEX
  | S todo' =>
      data ← at_index l i;
      if negb (data =? 0) then c ← clz data; Ret (to_u32 (i * SLOT_SIZE + c)) else BeginLoop todo' l (i + 1)
  end.

Definition Begin (b : Bitmap) : outcome Z :=
  if slot_count_ b =? 0 then Ret INVALID_INDEX else l ← words b; BeginLoop (Z.to_nat (slot_count_ b)) l 0.

(** The rounds of the loop of [Next] after the first are those of [Begin]. *)
Definition Next (b : Bitmap) (index : Z) : outcome Z :=
  let index := to_u32 (index + 1) in
  if index <? item_count_ b then
    let quot := Z.shiftr index SLOT_SIZE_BIT_NUM in
    let rem := Z.land index SLOT_SIZE_BIT_MASK in
    if quot <? slot_count_ b then
      l ← words b;
      data ← at_index l quot;
      mask ← at_index BITMAP_NEXT_MASK rem;
      let rest_data := Z.land data mask in
      if negb (rest_data =? 0) then c ← clz rest_data; Ret (to_u32 (quot * SLOT_SIZE + c))
      else BeginLoop (Z.to_nat (slot_count_ b - quot - 1)) l (quot + 1)
    else Ret INVALID_INDEX
  else Ret INVALID_INDEX.

(** ** Single items *)

Definition Test (b : Bitmap) (index : Z) : outcome bool :=
  _ ← assert_that (index <? item_count_ b);
  l ← words b;
  data ← at_index l (Z.shiftr index SLOT_SIZE_BIT_NUM);
  mask ← at_index BITMAPOPMASK (Z.land index SLOT_SIZE_BIT_MASK);
  Ret (negb (Z.land data mask =? 0)).

Definition Set_ (b : Bitmap) (index : Z) : outcome (Bitmap * bool) :=
  _ ← assert_that (index <? item_count_ b);
  let quot := Z.shiftr index SLOT_SIZE_BIT_NUM in
  l ← words b;
  data ← at_index l quot;
  mask ← at_index BITMAPOPMASK (Z.land index SLOT_SIZE_BIT_MASK);
  if Z.land data mask =? 0 then
    l ← set_index l quot (Z.lor data mask);
    Ret (with_count (with_words b l) (to_u32 (set_count_ b + 1)), true)
  else Ret (b, false).

Definition Reset (b : Bitmap) (index : Z) : outcome (Bitmap * bool) :=
  if index >=? item_count_ b then Ret (b, false)
  else
    let quot := Z.shiftr index SLOT_SIZE_BIT_NUM in
    l ← words b;
    data ← at_index l quot;
    mask ← at_index BITMAPOPMASK (Z.land index SLOT_SIZE_BIT_MASK);
    if negb (Z.land data mask =? 0) then
      l ← set_index l quot (Z.land data (not_u32 mask));
      Ret (with_count (with_words b l) (to_u32 (set_count_ b - 1)), true)
    else Ret (b, false).

(** ** Many items *)

Definition ResetAll (b : Bitmap) : outcome Bitmap :=
  l ← words b; l ← fill l 0 (slot_count_ b) 0; Ret (with_count (with_words b l) 0).

(** The loop over the bits of a word; [todo] rounds are left. *)
Fixpoint ClearBits (todo : nat) (data i : Z) : outcome Z :=
  match todo with
  | O => Ret data
  | S todo' => mask ← at_index BITMAPOPMASK i; ClearBits todo' (Z.land data (not_u32 mask)) (i + 1)
  end.

Definition ResetAllAfter (b : Bitmap) (index : Z) : outcome Bitmap :=
  _ ← assert_that (index <? item_count_ b);
  let quot := Z.shiftr index SLOT_SIZE_BIT_NUM in
  let rem := Z.land index SLOT_SIZE_BIT_MASK in
  l ← words b;
  data ← at_index l quot;
  data ← ClearBits (Z.to_nat (SLOT_SIZE - rem)) data rem;
  l ← set_index l quot data;
  l ← (if quot <? to_u32 (slot_count_ b - 1) then fill l (quot + 1) (slot_count_ b - quot - 1) 0 else Ret l);
  RefreshSetCountByScanning (with_words b l).

Definition MountWithoutRefreshSetCount (b : Bitmap) (item_count : Z) (p_data : option (list Z)) (donot_delete : bool) : outcome Bitmap :=
  _ ← (if negb (mount_ b) then assert_that (bool_decide (data_ b = None)) else Ret ());
  Ret (mkBitmap item_count (slots_of item_count) p_data (set_count_ b) donot_delete (init_set_ b)).

Definition Mount (b : Bitmap) (item_count : Z) (p_data : option (list Z)) (donot_delete : bool) : outcome Bitmap :=
  b ← MountWithoutRefreshSetCount b item_count p_data donot_delete; RefreshSetCountByScanning b.

(** [*addr |= value] *)
Definition or_slot (l : list Z) (addr value : Z) : outcome (list Z) := w ← at_index l addr; set_index l addr (Z.lor w value).

(** The loop of the private [Copy], over the words of [data] but the last:
    [todo] rounds are left; the words, [dst_slot_addr] and the count. *)
Fixpoint CopyLoop (todo : nat) (l : list Z) (addr : Z) (data : list Z) (i num_slots_in_src offset count : Z) : outcome (list Z * Z * Z) :=
  match todo with
  | O => Ret (l, addr, count)
  | S todo' =>
      value ← at_index data i;
      l ← or_slot l addr (Z.shiftr value offset);
      let addr := addr + 1 in
      l ← (if negb (offset =? 0) then or_slot l addr (to_u32 (Z.shiftl value (32 - offset))) else Ret l);
      count ← (if Z.even i && (i + 1 <? to_u32 (num_slots_in_src - 1)) then c ← read_u64 data i; Ret (to_u32 (count + CountBits64 c)) else Ret count);
      CopyLoop todo' l addr data (i + 1) num_slots_in_src offset count
  end.

(** [Copy(u32 *, u32, u32 *, u32)] *)
Definition CopyBits (b : Bitmap) (addr start_index : Z) (data : list Z) (item_count : Z) : outcome Bitmap :=
  _ ← assert_that (start_index <? 32);
  let offset := start_index in
  let remain_bits_in_dst_slot := 32 - offset in
  let num_slots_in_src := slots_of item_count in
  l ← words b;
  '(l, addr, count) ← CopyLoop (Z.to_nat (to_u32 (num_slots_in_src - 1))) l addr data 0 num_slots_in_src offset (set_count_ b);
  count ← (if Z.even num_slots_in_src && (num_slots_in_src >=? 2) then
             w ← at_index data (num_slots_in_src - 2); Ret (to_u32 (count + CountBits w 32))
           else Ret count);
  value ← at_index data (to_u32 (num_slots_in_src - 1));
  let remain_bits_in_src_slot := to_u32 (item_count - 32 * (num_slots_in_src - 1)) in
  let count := to_u32 (count + CountBits value remain_bits_in_src_slot) in
  l ← (if remain_bits_in_src_slot >? 0 then
         if remain_bits_in_src_slot <=? remain_bits_in_dst_slot then
           or_slot l addr (to_u32 (Z.shiftl (Z.shiftr value (32 - remain_bits_in_src_slot)) (remain_bits_in_dst_slot - remain_bits_in_src_slot)))
         else
           l ← or_slot l addr (Z.shiftr value offset);
           or_slot l (addr + 1) (to_u32 (Z.shiftl (Z.shiftr value (32 - remain_bits_in_src_slot)) (32 - remain_bits_in_src_slot + remain_bits_in_dst_slot)))
       else Ret l);
  Ret (with_count (with_words b l) count).

(** [Copy(u32, u32 *, u32)] *)
Definition Copy (b : Bitmap) (start_index : Z) (data : option (list Z)) (item_count : Z) : outcome Bitmap :=
  _ ← words b;
  match data with
  | None => Ret b
  | Some data => if item_count =? 0 then Ret b else CopyBits b (Z.shiftr start_index 5) (Z.land start_index 31) data item_count
  end.

(** ** Operators *)

(** [operator[]] *)
Definition At (b : Bitmap) (i : Z) : outcome Z := _ ← assert_that (i <? slot_count_ b); l ← words b; at_index l i.

(** The loops over the words of two bitmaps, from word [i] on; [todo] rounds are
    left. *)
Fixpoint WordLoop (f : Z -> Z -> Z) (todo : nat) (l : list Z) (get : Z -> outcome Z) (i : Z) : outcome (list Z) :=
  match todo with
  | O => Ret l
  | S todo' =>
      w ← at_index l i; v ← get i; l ← set_index l i (f w v);
      WordLoop f todo' l get (i + 1)
  end.

Definition And (b bitmap : Bitmap) : outcome Bitmap :=
  _ ← assert_that (item_count_ bitmap =? item_count_ b);
  l ← words b; l2 ← words bitmap;
  l ← WordLoop Z.land (Z.to_nat (slot_count_ b)) l (at_index l2) 0;
  RefreshSetCountByScanning (with_words b l).

(** The batches of [operator|]: 32 words each, at [base]. *)
Fixpoint OrBatches (batches : nat) (l l2 : list Z) (base : Z) : outcome (list Z) :=
  match batches with
  | O => Ret l
  | S batches' => l ← WordLoop Z.lor 32 l (at_index l2) base; OrBatches batches' l l2 (base + 32)
  end.

Definition Or (b bitmap : Bitmap) : outcome Bitmap :=
  _ ← assert_that (item_count_ bitmap =? item_count_ b);
  l ← words b; l2 ← words bitmap;
  let batchNum := slot_count_ b / 32 in
  let remainCount := slot_count_ b mod 32 in
  l ← OrBatches (Z.to_nat batchNum) l l2 0;
  l ← WordLoop Z.lor (Z.to_nat remainCount) l (at_index l2) (batchNum * 32);
  RefreshSetCountByScanning (with_words b l).

(** The loops of [operator~]: over the words but the last, and over the bits of
    the last, whose value was [data]. *)
Fixpoint NotLoop (todo : nat) (l : list Z) (i : Z) : outcome (list Z) :=
  match todo with
  | O => Ret l
  | S todo' => w ← at_index l i; l ← set_index l i (not_u32 w); NotLoop todo' l (i + 1)
  end.

Fixpoint FlipLoop (todo : nat) (w data i : Z) : outcome Z :=
  match todo with
  | O => Ret w
  | S todo' =>
      mask ← at_index BITMAPOPMASK i;
      FlipLoop todo' (if negb (Z.land data mask =? 0) then Z.land w (not_u32 mask) else Z.lor w mask) data (i + 1)
  end.

Definition Not (b : Bitmap) : outcome Bitmap :=
  let set_count := GetUnsetCount b in
  let last_slot := to_u32 (slot_count_ b - 1) in
  l ← words b;
  l ← NotLoop (Z.to_nat last_slot) l 0;
  let count := to_u32 (item_count_ b - last_slot * SLOT_SIZE) in
  data ← at_index l last_slot;
  w ← FlipLoop (Z.to_nat count) data data 0;
  l ← set_index l last_slot w;
  Ret (with_count (with_words b l) set_count).

Definition Minus (b bitmap : Bitmap) : outcome Bitmap :=
  _ ← assert_that (item_count_ bitmap =? item_count_ b);
  l ← words b;
  l ← WordLoop (fun w v => Z.land w (not_u32 v)) (Z.to_nat (slot_count_ b)) l (At bitmap) 0;
  RefreshSetCountByScanning (with_words b l).

(** [operator==], of another object *)
Definition Equals (b bitmap : Bitmap) : outcome bool :=
  if negb (item_count_ b =? item_count_ bitmap) then Ret false
  else if negb (slot_count_ b =? slot_count_ bitmap) then Ret false
  else if negb (set_count_ b =? set_count_ bitmap) then Ret false
  else match data_ b, data_ bitmap with
       | None, None => Ret true
       | _, _ =>
           l ← words b; l2 ← words bitmap;
           x ← copy_words l (slot_count_ b); y ← copy_words l2 (slot_count_ b); Ret (bool_decide (x = y))
       end.

(** ** Ranges *)

(** The loop of [GetSetCount(u32, u32)] over the bits of its first word, which is
    0 after at most 32 rounds. *)
Fixpoint CountWhile (fuel : nat) (data count : Z) : outcome Z :=
  match fuel with
  | O => UB "out of fuel"
  | S fuel' =>
      if data =? 0 then Ret count
      else CountWhile fuel' (to_u32 (Z.shiftl data 1)) (if Z.land data 0x80000000 =? 0 then count else to_u32 (count + 1))
  end.

(** The parts of [GetSetCount(u32, u32)]: the items of a first word that is not
    whole; those of the last word; the words between. *)
Definition CountFirst (l : list Z) (begin test_begin_slot test_end_slot test_bit_in_end_slot : Z) : outcome (Z * Z) :=
  if negb (SLOT_SIZE - Z.land begin SLOT_SIZE_BIT_MASK =? SLOT_SIZE) then
    data ← at_index l test_begin_slot;
    data ← (if test_begin_slot =? test_end_slot then
              if test_bit_in_end_slot =? 0 then UB "shift by 32"
              else Ret (Z.land data (to_u32 (Z.shiftl 0xFFFFFFFF (SLOT_SIZE - test_bit_in_end_slot))))
            else Ret data);
    n ← CountWhile 33 (to_u32 (Z.shiftl data (Z.land begin SLOT_SIZE_BIT_MASK))) 0;
    Ret (n, test_begin_slot + 1)
  else Ret (0, test_begin_slot).

Definition CountLast (l : list Z) (set_count test_begin_slot test_end_slot test_bit_in_end_slot : Z) : outcome Z :=
  if (test_begin_slot <=? test_end_slot) && negb (test_bit_in_end_slot =? 0) then
    data ← at_index l test_end_slot; Ret (to_u32 (set_count + CountBits data test_bit_in_end_slot))
  else Ret set_count.

Definition CountMiddle (l : list Z) (set_count test_begin_slot test_end_slot : Z) : outcome Z :=
  '(set_count, test_begin_slot) ←
    (if (test_begin_slot <? test_end_slot) && Z.odd (test_end_slot - test_begin_slot) then
       data ← at_index l test_begin_slot;
       Ret (if data =? 0 then set_count else to_u32 (set_count + CountBits data 32), test_begin_slot + 1)
     else Ret (set_count, test_begin_slot));
  PairLoop (Z.to_nat ((test_end_slot - test_begin_slot + 1) / 2)) l test_begin_slot set_count.

(** [GetSetCount(u32, u32)] *)
Definition GetSetCountBetween (b : Bitmap) (begin last : Z) : outcome Z :=
  let last := if last >=? item_count_ b then to_u32 (item_count_ b - 1) else last in
  match data_ b with
  | None => Ret 0
  | Some l =>
      if last <? begin then Ret 0
      else
        let end_ := to_u32 (last + 1) in
        let test_end_slot := end_ / SLOT_SIZE in
        let test_bit_in_end_slot := Z.land end_ SLOT_SIZE_BIT_MASK in
        '(set_count, test_begin_slot) ← CountFirst l begin (begin / SLOT_SIZE) test_end_slot test_bit_in_end_slot;
        set_count ← CountLast l set_count test_begin_slot test_end_slot test_bit_in_end_slot;
        CountMiddle l set_count test_begin_slot test_end_slot
  end.

(** The masks of [HasSetData] and [ResetBetween]: the items of a word from
    [rem_begin] on, those after [rem_end], and those between them. *)
Definition MaskFrom (rem_begin : Z) : outcome Z := m ← at_index BITMAPOPMASK rem_begin; Ret (Z.lor (m - 1) m).
Definition MaskAfter (rem_end : Z) : outcome Z := m ← at_index BITMAPOPMASK rem_end; Ret (m - 1).
Definition MaskBetween (rem_begin rem_end : Z) : outcome Z := x ← MaskFrom rem_begin; y ← MaskAfter rem_end; Ret (to_u32 (x - y)).

(** The loop of [HasSetData] over whole words. *)
Fixpoint AnyLoop (todo : nat) (l : list Z) (i : Z) : outcome bool :=
  match todo with
  | O => Ret false
  | S todo' => w ← at_index l i; if negb (w =? 0) then Ret true else AnyLoop todo' l (i + 1)
  end.

(** A word that has something of a mask. *)
Definition Hits (l : list Z) (quot mask : Z) : outcome bool := w ← at_index l quot; Ret (negb (Z.land w mask =? 0)).

Definition HasSetData (b : Bitmap) (begin_index end_index : Z) : outcome bool :=
  _ ← assert_that (begin_index <=? end_index);
  _ ← assert_that (end_index <? item_count_ b);
  let quot_begin := Z.shiftr begin_index SLOT_SIZE_BIT_NUM in
  let rem_begin := Z.land begin_index SLOT_SIZE_BIT_MASK in
  let quot_end := Z.shiftr end_index SLOT_SIZE_BIT_NUM in
  let rem_end := Z.land end_index SLOT_SIZE_BIT_MASK in
  let test_start := if rem_begin =? 0 then quot_begin else quot_begin + 1 in
  let test_end := if rem_end =? SLOT_SIZE_BIT_MASK then quot_end else quot_end - 1 in
  l ← words b;
  found ← AnyLoop (Z.to_nat (test_end - test_start + 1)) l test_start;
  if found : bool then Ret true
  else if negb (quot_begin =? quot_end) then
    found ← (if negb (rem_begin =? 0) then mask ← MaskFrom rem_begin; Hits l quot_begin mask else Ret false);
    if found : bool then Ret true
    else if negb (rem_end =? SLOT_SIZE_BIT_MASK) then mask ← MaskAfter rem_end; Hits l quot_end (not_u32 mask) else Ret false
  else if negb (rem_begin =? 0) || negb (rem_end =? SLOT_SIZE_BIT_MASK) then mask ← MaskBetween rem_begin rem_end; Hits l quot_begin mask
  else Ret false.

(** The loop of [ResetBetween] over whole words. *)
Fixpoint ZeroLoop (todo : nat) (l : list Z) (i : Z) : outcome (list Z) :=
  match todo with
  | O => Ret l
  | S todo' => l ← set_index l i 0; ZeroLoop todo' l (i + 1)
  end.

(** A word of which a mask is kept. *)
Definition Keep (l : list Z) (quot mask : Z) : outcome (list Z) := w ← at_index l quot; set_index l quot (Z.land w mask).

(** [ResetBetween]; the count is left as it is. *)
Definition ResetBetween (b : Bitmap) (begin_index end_index : Z) : outcome Bitmap :=
  _ ← assert_that (begin_index <=? end_index);
  _ ← assert_that (end_index <? item_count_ b);
  let quot_begin := Z.shiftr begin_index SLOT_SIZE_BIT_NUM in
  let rem_begin := Z.land begin_index SLOT_SIZE_BIT_MASK in
  let quot_end := Z.shiftr end_index SLOT_SIZE_BIT_NUM in
  let rem_end := Z.land end_index SLOT_SIZE_BIT_MASK in
  let test_start := if rem_begin =? 0 then quot_begin else quot_begin + 1 in
  let test_end := if rem_end =? SLOT_SIZE_BIT_MASK then quot_end else quot_end - 1 in
  l ← words b;
  l ← ZeroLoop (Z.to_nat (test_end - test_start + 1)) l test_start;
  l ← (if negb (quot_begin =? quot_end) then
         l ← (if negb (rem_begin =? 0) then mask ← MaskFrom rem_begin; Keep l quot_begin (not_u32 mask) else Ret l);
         (if negb (rem_end =? SLOT_SIZE_BIT_MASK) then mask ← MaskAfter rem_end; Keep l quot_end mask else Ret l)
       else if negb (rem_begin =? 0) || negb (rem_end =? SLOT_SIZE_BIT_MASK) then
         mask ← MaskBetween rem_begin rem_end; Keep l quot_begin (not_u32 mask)
       else Ret l);
  Ret (with_words b l).
