(* ===== verification/BitmapWords.v ===== *)
(** * Words of the bitmap

    The items of a word and of an array of words, and the counting of bits: one
    bit after the other, and in all bytes of two words at once. *)
From S2P Require Import Prelude Arrays Bits Wire Bitmap.

Local Open Scope Z_scope.

(** The items of a word, and of an array of words. *)
Definition word_bits (w : Z) : list bool := (fun k => Z.testbit w (31 - Z.of_nat k)) <$> seq 0 32.
Definition bits (l : list Z) : list bool := concat (word_bits <$> l).

#[global] Arguments word_bits : simpl never.
#[global] Arguments bits : simpl never.

(** ** Words *)

Lemma word_bits_length w : length (word_bits w) = 32%nat.
Proof. done. Qed.

Lemma word_bits_lookup w k : (k < 32)%nat -> word_bits w !! k = Some (Z.testbit w (31 - Z.of_nat k)).
Proof. intros Hk. unfold word_bits. rewrite list_lookup_fmap, lookup_seq_lt by done. done. Qed.

Lemma word_bits_zero : word_bits 0 = replicate 32 false.
Proof. done. Qed.

Lemma not_u32_testbit w j : 0 <= j < 32 -> Z.testbit (not_u32 w) j = negb (Z.testbit w j).
Proof. intros Hj. unfold not_u32, to_u32. rewrite u_wrap_testbit, Z.lnot_spec by lia. destruct (j <? 32) eqn:E; zbool; [done|lia]. Qed.

Lemma word_bits_ext w v : (forall j, 0 <= j < 32 -> Z.testbit w j = Z.testbit v j) -> word_bits w = word_bits v.
Proof. intros H. unfold word_bits. apply list_fmap_ext. intros k x Hk%lookup_seq. apply H. lia. Qed.

Lemma u32_ext w v : u_range 32 w -> u_range 32 v -> word_bits w = word_bits v -> w = v.
Proof.
  intros Hw Hv Heq. apply Z.bits_inj'. intros j Hj. destruct (decide (j < 32)) as [Hlt|Hge].
  - assert (word_bits w !! Z.to_nat (31 - j) = word_bits v !! Z.to_nat (31 - j)) as H by (by rewrite Heq).
    rewrite !word_bits_lookup in H by lia. rewrite Z2Nat.id in H by lia. replace (31 - (31 - j)) with j in H by lia. by simplify_eq.
  - rewrite !(u_testbit_high 32) by (done || lia). done.
Qed.

(** Operations that keep within 32 bits. *)
Lemma u32_land w v : u_range 32 w -> u_range 32 v -> u_range 32 (Z.land w v).
Proof. intros _. by apply u_land_r. Qed.

Lemma u32_lor w v : u_range 32 w -> u_range 32 v -> u_range 32 (Z.lor w v).
Proof.
  intros Hw Hv. apply u_bits; [done|apply Z.lor_nonneg; split; [apply Hw|apply Hv]|]. intros j Hj. by rewrite Z.lor_spec, !(u_testbit_high 32).
Qed.

Lemma u32_not w : u_range 32 (not_u32 w).
Proof. by apply u_wrap_range. Qed.

Create HintDb u32.
#[export] Hint Resolve u32_land u32_lor u32_not : u32.

Lemma word_bits_land w v : word_bits (Z.land w v) = zip_with andb (word_bits w) (word_bits v).
Proof. unfold word_bits. rewrite zip_with_fmap_l, zip_with_fmap_r. rewrite zip_with_diag. apply list_fmap_ext. intros ? k _. apply Z.land_spec. Qed.

Lemma op_mask r : 0 <= r < 32 -> at_index BITMAPOPMASK r = Ret (2 ^ (31 - r)).
Proof. intros Hr. apply (table_check _ (fun r => 2 ^ (31 - r)) 32); [vm_compute; reflexivity|lia]. Qed.

Lemma next_mask r : 0 <= r < 32 -> at_index BITMAP_NEXT_MASK r = Ret (Z.ones (32 - r)).
Proof. intros Hr. apply (table_check _ (fun r => Z.ones (32 - r)) 32); [vm_compute; reflexivity|lia]. Qed.

Lemma pow2_u32 r : 0 <= r < 32 -> u_range 32 (2 ^ (31 - r)).
Proof. intros Hr. split; [apply Z.pow_nonneg; lia|apply Z.pow_lt_mono_r; lia]. Qed.

(** ** Arrays of words *)

Lemma bits_app l1 l2 : bits (l1 ++ l2) = bits l1 ++ bits l2.
Proof. unfold bits. by rewrite fmap_app, concat_app. Qed.

Lemma bits_cons w l : bits (w :: l) = word_bits w ++ bits l.
Proof. done. Qed.

Lemma bits_length l : length (bits l) = (32 * length l)%nat.
Proof. apply blocks_length, word_bits_length. Qed.

Lemma bits_lookup l q r : (r < 32)%nat -> bits l !! (32 * q + r)%nat = (fun w => Z.testbit w (31 - Z.of_nat r)) <$> l !! q.
Proof.
  intros Hr. unfold bits. rewrite (blocks_lookup _ _ word_bits_length) by done. destruct (l !! q); [|done]. by apply word_bits_lookup.
Qed.

Lemma div_mod_32 (i : nat) : exists q r, i = (32 * q + r)%nat /\ (r < 32)%nat.
Proof. exists (i / 32)%nat, (i mod 32)%nat. split; [apply Nat.div_mod; lia|apply Nat.mod_upper_bound; lia]. Qed.

Lemma bits_take l q : bits (take q l) = take (32 * q) (bits l).
Proof. apply blocks_take, word_bits_length. Qed.

Lemma bits_drop l q : bits (drop q l) = drop (32 * q) (bits l).
Proof. apply blocks_drop, word_bits_length. Qed.

Lemma bits_inj l1 l2 : Forall (u_range 32) l1 -> Forall (u_range 32) l2 -> bits l1 = bits l2 -> l1 = l2.
Proof.
  intros H1. revert l2. induction H1 as [|w l1 Hw _ IH]; intros l2 H2 Heq.
  - destruct l2; [done|]. apply (f_equal length) in Heq. rewrite !bits_length in Heq. done.
  - destruct H2 as [|v l2 Hv H2]; [by apply (f_equal length) in Heq; rewrite !bits_length in Heq|].
    rewrite !bits_cons in Heq. apply app_inj_1 in Heq as [He1 He2]; [|done]. f_equal; [by apply u32_ext|by apply IH].
Qed.

Lemma bits_replicate_zero n : bits (replicate n 0) = replicate (32 * n) false.
Proof. apply blocks_replicate, word_bits_zero. Qed.

Lemma zip_with_bits f g l1 l2 : (forall w v, word_bits (f w v) = zip_with g (word_bits w) (word_bits v)) ->
  bits (zip_with f l1 l2) = zip_with g (bits l1) (bits l2).
Proof. apply (blocks_zip_with _ _ word_bits_length). Qed.

Lemma word_bits_map2 (f : Z -> Z -> Z) (g : bool -> bool -> bool) w v :
  (forall j, 0 <= j < 32 -> Z.testbit (f w v) j = g (Z.testbit w j) (Z.testbit v j)) ->
  word_bits (f w v) = zip_with g (word_bits w) (word_bits v).
Proof.
  intros Hf. unfold word_bits. rewrite zip_with_fmap_l, zip_with_fmap_r, zip_with_diag. apply list_fmap_ext.
  intros i k Hk%lookup_seq. apply Hf. lia.
Qed.

(** ** Counting the bits of a word *)

Lemma word_bits_shift w : word_bits (to_u32 (Z.shiftl w 1)) = drop 1 (word_bits w) ++ [false].
Proof.
  apply list_eq_same_length with (n := 32%nat); [done|done|]. intros i x y Hi Hx Hy. rewrite word_bits_lookup in Hx by done. simplify_eq.
  unfold to_u32. rewrite u_wrap_testbit by done. destruct (31 - Z.of_nat i <? 32) eqn:E; zbool; [|lia].
  rewrite Z.shiftl_spec by lia. simpl. destruct (decide (i < 31)%nat) as [Hlt|Hge].
  - rewrite lookup_app_l, lookup_drop, word_bits_lookup in Hy by (rewrite ?length_drop, ?word_bits_length; lia).
    simplify_eq. f_equal. lia.
  - assert (i = 31%nat) as -> by lia. vm_compute in Hy. simplify_eq. by apply Z.testbit_neg_r.
Qed.

Lemma count_loop todo : forall w count, u_range 32 w -> 0 <= count -> count + Z.of_nat todo < 2 ^ 32 -> (todo <= 32)%nat ->
  CountLoop todo w count = count + Z.of_nat (count_true (take todo (word_bits w))).
Proof.
  induction todo as [|todo IH]; intros w count Hw Hc Ho Ht; [rewrite take_0; unfold count_true; simpl; lia|]. simpl CountLoop.
  destruct (w =? 0) eqn:E; zbool.
  { subst w. rewrite word_bits_zero, take_replicate, count_true_false; [lia|]. by apply Forall_replicate. }
  change 0x80000000 with (2 ^ 31). rewrite land_pow2_zero by done.
  assert (word_bits w = Z.testbit w 31 :: drop 1 (word_bits w)) as Hd by done. rewrite Hd.
  change (take (S todo) (?x :: ?r)) with (x :: take todo r). rewrite count_true_cons.
  assert (take todo (drop 1 (word_bits w)) = take todo (word_bits (to_u32 (Z.shiftl w 1)))) as ->.
  { rewrite word_bits_shift, take_app_le by (rewrite length_drop, word_bits_length; lia). done. }
  assert (to_u32 (count + 1) = count + 1) as Hid by (apply u_wrap_id; unfold u_range; lia). rewrite Hid.
  assert (u_range 32 (to_u32 (Z.shiftl w 1))) by (by apply u_wrap_range).
  destruct (Z.testbit w 31); simpl negb; cbv iota; rewrite IH by (done || lia); lia.
Qed.

Lemma count_bits w k : u_range 32 w -> 0 <= k <= 32 -> CountBits w k = Z.of_nat (count_true (take (Z.to_nat k) (word_bits w))).
Proof. intros Hw Hk. unfold CountBits. rewrite count_loop by (done || lia). lia. Qed.

(** ** Counting the bits of two words at once

    [CountBits64] works on all bytes of its argument at the same time; no carry
    passes from one byte to the next. *)

Lemma le_digits v : u_range 64 v -> exists bs, le_value bs = v /\ length bs = 8%nat /\ Forall is_byte bs.
Proof.
  intros Hv. exists (le_bytes 8 v). rewrite le_value_bytes, u_wrap_id, le_bytes_length by done. auto using le_bytes_are_bytes.
Qed.

Lemma land_split lo hi mlo mhi : is_byte lo -> is_byte mlo -> Z.land (lo + 256 * hi) (mlo + 256 * mhi) = Z.land lo mlo + 256 * Z.land hi mhi.
Proof.
  intros Hlo Hm. change 256 with (2 ^ 8). apply Z.bits_inj'. intros j Hj.
  rewrite Z.land_spec, !testbit_split by (done || by apply u_land_r). destruct (j <? 8) eqn:E; by rewrite Z.land_spec.
Qed.

Lemma shift_land_split s lo hi mlo mhi : 0 <= s <= 8 -> is_byte lo -> 0 <= mlo < 2 ^ (8 - s) ->
  Z.land (Z.shiftr (lo + 256 * hi) s) (mlo + 256 * mhi) = Z.land (Z.shiftr lo s) mlo + 256 * Z.land (Z.shiftr hi s) mhi.
Proof.
  intros Hs Hlo Hm. assert (is_byte mlo) as Hm8 by (unfold is_byte; pose proof (Z.pow_le_mono_r 2 (8 - s) 8); lia).
  change 256 with (2 ^ 8). apply Z.bits_inj'. intros j Hj.
  rewrite Z.land_spec, Z.shiftr_spec, !testbit_split by (done || lia || by apply u_land_r).
  destruct (j <? 8) eqn:E; rewrite Z.land_spec, Z.shiftr_spec by (zbool; lia).
  - destruct (j + s <? 8) eqn:E2; [done|]. zbool. rewrite (u_testbit_high (8 - s) mlo) by (done || lia). by rewrite !andb_false_r.
  - destruct (j + s <? 8) eqn:E2; zbool; [lia|]. do 2 f_equal. lia.
Qed.

(** The three steps on one byte. *)
Definition pairs_of (b : Z) : Z := b - Z.land (Z.shiftr b 1) 0x55.
Definition nibbles_of (b : Z) : Z := Z.land (pairs_of b) 0x33 + Z.land (Z.shiftr (pairs_of b) 2) 0x33.
Definition sum_of (b : Z) : Z := Z.land (nibbles_of b + Z.shiftr (nibbles_of b) 4) 0x0F.

Lemma byte_steps b : is_byte b ->
  is_byte (pairs_of b) /\ 0 <= nibbles_of b < 128 /\ nibbles_of b mod 16 <= 4 /\ nibbles_of b / 16 <= 4 /\ sum_of b = Z.of_nat (pop 8 b) /\ 0 <= sum_of b <= 8.
Proof.
  intros Hb. assert (forallb (fun k => let b := Z.of_nat k in
    (0 <=? pairs_of b) && (pairs_of b <? 256) && (0 <=? nibbles_of b) && (nibbles_of b <? 128) && (nibbles_of b mod 16 <=? 4) && (nibbles_of b / 16 <=? 4)
    && (sum_of b =? Z.of_nat (pop 8 b)) && (0 <=? sum_of b) && (sum_of b <=? 8)) (seq 0 256) = true) as H by (vm_compute; reflexivity).
  rewrite forallb_forall in H. specialize (H (Z.to_nat b)). cbv beta zeta in H. rewrite Z2Nat.id in H by apply Hb.
  assert (In (Z.to_nat b) (seq 0 256)) as Hin by (apply in_seq; unfold is_byte in Hb; lia). apply H in Hin. zbool. unfold is_byte. lia.
Qed.

Lemma le_replicate_S k p : le_value (replicate (S k) p) = p + 256 * le_value (replicate k p).
Proof. done. Qed.

Lemma pairs_step bs : Forall is_byte bs -> le_value bs - Z.land (Z.shiftr (le_value bs) 1) (le_value (replicate (length bs) 0x55)) = le_value (pairs_of <$> bs).
Proof.
  induction 1 as [|b bs Hb _ IH]; [done|]. simpl le_value at 1 2. simpl length. rewrite le_replicate_S, shift_land_split by (done || lia).
  rewrite fmap_cons. simpl le_value. rewrite <- IH. unfold pairs_of. lia.
Qed.

Lemma nibbles_step bs : Forall is_byte bs ->
  Z.land (le_value (pairs_of <$> bs)) (le_value (replicate (length bs) 0x33)) + Z.land (Z.shiftr (le_value (pairs_of <$> bs)) 2) (le_value (replicate (length bs) 0x33)) = le_value (nibbles_of <$> bs).
Proof.
  induction 1 as [|b bs Hb _ IH]; [done|]. pose proof (byte_steps b Hb) as (Hp & _). rewrite !fmap_cons. simpl le_value at 1 3 5. simpl length.
  rewrite le_replicate_S, shift_land_split, land_split by (done || lia). rewrite <- IH. unfold nibbles_of. lia.
Qed.

Lemma sums_step bs : Forall is_byte bs ->
  Z.land (le_value (nibbles_of <$> bs) + Z.shiftr (le_value (nibbles_of <$> bs)) 4) (le_value (replicate (length bs) 0x0F)) = le_value (sum_of <$> bs) /\
  le_value (nibbles_of <$> bs) mod 16 <= 4.
Proof.
  induction 1 as [|b bs Hb _ [IH Hlow]]; [done|]. pose proof (byte_steps b Hb) as (_ & Hn & Hmod & Hdiv & _). rewrite !fmap_cons. simpl le_value. simpl length.
  set (a := nibbles_of b) in *. set (A := le_value (nibbles_of <$> bs)) in *. rewrite !Z.shiftr_div_pow2 by lia. change (2 ^ 4) with 16.
  assert ((a + 256 * A) / 16 = a / 16 + 16 * A) as -> by (replace (a + 256 * A) with (a + (16 * A) * 16) by lia; rewrite Z.div_add; lia).
  pose proof (Z.div_mod A 16). pose proof (Z.mod_pos_bound A 16). pose proof (Z.div_mod a 16). pose proof (Z.mod_pos_bound a 16).
  split; [|replace (a + 256 * A) with (a + (16 * A) * 16) by lia; rewrite Z.mod_add; lia].
  replace (a + 256 * A + (a / 16 + 16 * A)) with ((a + a / 16 + 16 * (A mod 16)) + 256 * (A + A / 16)) by lia.
  rewrite land_split by (unfold is_byte; lia). rewrite <- IH. rewrite !Z.shiftr_div_pow2 by lia. f_equal.
  unfold sum_of. rewrite Z.shiftr_div_pow2 by lia. change 0x0F with (Z.ones 4). rewrite !Z.land_ones by lia. change (2 ^ 4) with 16.
  rewrite Z.mul_comm, Z.mod_add by lia. done.
Qed.

(** The multiplication adds the bytes. *)
Lemma byte_sum r0 r1 r2 r3 r4 r5 r6 r7 :
  Forall (fun r => 0 <= r <= 8) [r0; r1; r2; r3; r4; r5; r6; r7] ->
  Z.shiftr (to_u64 (le_value [r0; r1; r2; r3; r4; r5; r6; r7] * 0x101010101010101)) 56 = r0 + r1 + r2 + r3 + r4 + r5 + r6 + r7.
Proof.
  intros Hr. repeat (apply Forall_cons in Hr as [? Hr]). unfold to_u64, u_wrap. rewrite Z.shiftr_div_pow2 by lia.
  set (low := r0 * (1 + 256 * (1 + 256 * (1 + 256 * (1 + 256 * (1 + 256 * (1 + 256)))))) + 256 * r1 * (1 + 256 * (1 + 256 * (1 + 256 * (1 + 256 * (1 + 256))))) +
    256 ^ 2 * r2 * (1 + 256 * (1 + 256 * (1 + 256 * (1 + 256)))) + 256 ^ 3 * r3 * (1 + 256 * (1 + 256 * (1 + 256))) + 256 ^ 4 * r4 * (1 + 256 * (1 + 256)) +
    256 ^ 5 * r5 * (1 + 256) + 256 ^ 6 * r6).
  set (high := r1 + r2 + r3 + r4 + r5 + r6 + r7 + 256 * (r2 + r3 + r4 + r5 + r6 + r7) + 256 ^ 2 * (r3 + r4 + r5 + r6 + r7) + 256 ^ 3 * (r4 + r5 + r6 + r7) +
    256 ^ 4 * (r5 + r6 + r7) + 256 ^ 5 * (r6 + r7) + 256 ^ 6 * r7).
  assert (le_value [r0; r1; r2; r3; r4; r5; r6; r7] * 0x101010101010101 = low + 2 ^ 56 * (r0 + r1 + r2 + r3 + r4 + r5 + r6 + r7) + high * 2 ^ 64) as -> by (unfold low, high; simpl; lia).
  assert (0 <= low < 2 ^ 56) by (unfold low; lia). rewrite Z.mod_add by lia.
  rewrite Z.mod_small by lia. rewrite Z.mul_comm, Z.div_add, Z.div_small by lia. lia.
Qed.

Lemma pop_le bs : Forall is_byte bs -> Z.of_nat (pop (8 * length bs) (le_value bs)) = foldr Z.add 0 (sum_of <$> bs).
Proof.
  induction 1 as [|b bs Hb _ IH]; [done|]. pose proof (byte_steps b Hb) as (_ & _ & _ & _ & Hs & _). rewrite fmap_cons. simpl foldr. rewrite <- IH, Hs.
  simpl le_value. replace (8 * length (b :: bs))%nat with (8 + 8 * length bs)%nat by (simpl; lia). change 256 with (2 ^ Z.of_nat 8).
  rewrite pop_split by done. lia.
Qed.

Lemma count_word w : count_true (word_bits w) = pop 32 w.
Proof. unfold pop. rewrite <- count_true_reverse. done. Qed.

(** [CountBits64] counts the bits of two words. *)
Lemma count_bits64 lo hi : u_range 32 lo -> u_range 32 hi -> CountBits64 (lo + 2 ^ 32 * hi) = Z.of_nat (count_true (word_bits lo) + count_true (word_bits hi)).
Proof.
  intros Hlo Hhi. unfold u_range in *. rewrite !count_word, <- (pop_split 32 32) by done. change (2 ^ Z.of_nat 32) with (2 ^ 32).
  destruct (le_digits (lo + 2 ^ 32 * hi)) as (bs & <- & Hlen & Hbs); [unfold u_range; lia|].
  change (32 + 32)%nat with (8 * 8)%nat. pose proof (pop_le bs Hbs) as Hpop. rewrite Hlen in Hpop. rewrite Hpop. clear Hpop.
  assert (forall f, (forall b, is_byte b -> is_byte (f b)) -> to_u64 (le_value (f <$> bs)) = le_value (f <$> bs)) as Hid.
  { intros f Hf. apply u_wrap_id. pose proof (le_value_range (f <$> bs)) as H. rewrite length_fmap, Hlen in H. apply H, Forall_fmap.
    eapply Forall_impl; [done|]. intros b Hb. by apply Hf. }
  pose proof (pairs_step bs Hbs) as H1. pose proof (nibbles_step bs Hbs) as H2. pose proof (sums_step bs Hbs) as [H3 Hlow]. rewrite Hlen in H1, H2, H3.
  unfold CountBits64. cbv zeta.
  change 0x5555555555555555 with (le_value (replicate 8 0x55)). change 0x3333333333333333 with (le_value (replicate 8 0x33)). change 0xF0F0F0F0F0F0F0F with (le_value (replicate 8 0x0F)).
  rewrite H1, Hid by (intros b Hb; apply (byte_steps b Hb)). rewrite H2, Hid by (intros b Hb; pose proof (byte_steps b Hb); unfold is_byte; lia).
  unfold to_u64 at 2. rewrite land_u_wrap by (apply (le_value_range (replicate 8 0x0F)); by apply Forall_replicate). rewrite H3.
  clear H1 H2 H3 Hlow Hid. destruct bs as [|b0 [|b1 [|b2 [|b3 [|b4 [|b5 [|b6 [|b7 [|]]]]]]]]]; try done.
  assert (Forall (fun r => 0 <= r <= 8) (sum_of <$> [b0; b1; b2; b3; b4; b5; b6; b7])) as Hs.
  { apply Forall_fmap. eapply Forall_impl; [exact Hbs|]. intros b Hb. apply (byte_steps b Hb). }
  rewrite !fmap_cons, fmap_nil in *. rewrite byte_sum by exact Hs. repeat (apply Forall_cons in Hs as [? Hs]).
  unfold to_u32. rewrite u_wrap_id by (unfold u_range; lia). simpl. lia.
Qed.
