(* ===== verification/BitmapProps.v ===== *)
(** * Properties of the bitmap

    A bitmap of [n] items is a sequence of [n] booleans: every operation does on
    the words what its specification does on the sequence. *)
From S2P Require Import Prelude Arrays Bits Bitmap BitmapWords.

Local Open Scope Z_scope.

(** ** Loops *)

Lemma pair_loop l todo : Forall (u_range 32) l -> forall i count, (i + 2 * todo <= length l)%nat -> 0 <= count -> count + 64 * Z.of_nat todo < 2 ^ 32 ->
  PairLoop todo l (Z.of_nat i) count = Ret (count + Z.of_nat (count_true (bits (take (2 * todo) (drop i l))))).
Proof.
  intros Hl. induction todo as [|todo IH]; intros i count Hi Hc Ho; [simpl; f_equal; unfold count_true; simpl; lia|].
  destruct (lookup_lt_is_Some_2 l i) as [lo Hlo]; [lia|]. destruct (lookup_lt_is_Some_2 l (S i)) as [hi Hhi]; [lia|].
  assert (u_range 32 lo /\ u_range 32 hi) as [Rlo Rhi] by (rewrite Forall_forall in Hl; split; eapply Hl, list_elem_of_lookup_2; done).
  assert (bits (take (2 * S todo) (drop i l)) = word_bits lo ++ word_bits hi ++ bits (take (2 * todo) (drop (S (S i)) l))) as ->.
  { rewrite (drop_S _ _ _ Hlo), (drop_S _ _ _ Hhi). replace (2 * S todo)%nat with (S (S (2 * todo))) by lia. done. }
  cbn [PairLoop]. unfold read_u64. rewrite at_index_nat, Hlo. replace (Z.of_nat i + 1) with (Z.of_nat (S i)) by lia. cbn [mbind outcome_bind].
  rewrite at_index_nat, Hhi. cbn [mbind outcome_bind]. replace (Z.of_nat i + 2) with (Z.of_nat (S (S i))) by lia.
  rewrite !count_true_app. pose proof (count_bits64 lo hi Rlo Rhi) as H64.
  pose proof (count_true_le (word_bits lo)). pose proof (count_true_le (word_bits hi)). rewrite word_bits_length in *.
  assert ((if lo + 2 ^ 32 * hi =? 0 then count else to_u32 (count + CountBits64 (lo + 2 ^ 32 * hi))) =
    count + Z.of_nat (count_true (word_bits lo) + count_true (word_bits hi))) as ->.
  { rewrite H64. destruct (_ =? 0) eqn:E; [|apply u_wrap_id; unfold u_range; lia].
    apply Z.eqb_eq in E. rewrite E in H64. vm_compute CountBits64 in H64. lia. }
  rewrite IH by lia. f_equal. lia.
Qed.

Lemma count_prefix_le l m : (count_true (bits (take m l)) <= 32 * m)%nat.
Proof.
  etransitivity; [apply count_true_le|]. rewrite bits_length. pose proof (length_take l m). lia.
Qed.

Lemma refresh_pairs b l m count : Forall (u_range 32) l -> (0 < m)%nat -> (m <= length l)%nat -> Nat.Even m -> 0 <= count -> count + 32 * Z.of_nat m < 2 ^ 32 ->
  RefreshPairs b l count (Z.of_nat m - 1) = Ret (with_count b (count + Z.of_nat (count_true (bits (take m l))))).
Proof.
  intros Hl H0 Hm [k ->] Hc Ho. unfold RefreshPairs. assert (Z.odd (Z.of_nat (2 * k) - 1) = true) as ->.
  { replace (Z.of_nat (2 * k) - 1) with (2 * (Z.of_nat k - 1) + 1) by lia. by rewrite Z.add_1_r, Z.odd_succ, Z.even_mul. }
  simpl. assert ((Z.of_nat (k + (k + 0)) - 1) / 2 + 1 = Z.of_nat k) as ->.
  { replace (Z.of_nat (k + (k + 0)) - 1) with (1 + (Z.of_nat k - 1) * 2) by lia. rewrite Z.div_add by lia. change (1 / 2) with 0. lia. }
  rewrite Nat2Z.id. pose proof (pair_loop l k Hl 0 count) as Hp. change (Z.of_nat 0) with 0 in Hp. rewrite Hp by lia. done.
Qed.

Lemma refresh_words b l m count : Forall (u_range 32) l -> (0 < m)%nat -> (m <= length l)%nat -> 0 <= count -> count + 32 * Z.of_nat m < 2 ^ 32 ->
  RefreshWords b l count (Z.of_nat m - 1) = Ret (with_count b (count + Z.of_nat (count_true (bits (take m l))))).
Proof.
  intros Hl H0 Hm Hc Ho. unfold RefreshWords. destruct (Nat.Even_or_Odd m) as [He|[k Hk]].
  { assert (Z.odd (Z.of_nat m - 1) = true) as ->; [|by apply refresh_pairs]. destruct He as [k ->].
    replace (Z.of_nat (2 * k) - 1) with (2 * (Z.of_nat k - 1) + 1) by lia. by rewrite Z.add_1_r, Z.odd_succ, Z.even_mul. }
  assert (Z.odd (Z.of_nat m - 1) = false) as ->. { replace (Z.of_nat m - 1) with (2 * Z.of_nat k) by lia. by rewrite Z.odd_mul. }
  destruct (lookup_lt_is_Some_2 l (2 * k)) as [w Hw]; [lia|]. replace (Z.of_nat m - 1) with (Z.of_nat (2 * k)) by lia. rewrite at_index_nat, Hw.
  cbn [mbind outcome_bind]. assert (u_range 32 w) as Rw by (rewrite Forall_forall in Hl; eapply Hl, list_elem_of_lookup_2; done).
  rewrite count_bits by (done || lia). rewrite take_ge by (rewrite word_bits_length; lia).
  pose proof (count_true_le (word_bits w)). rewrite word_bits_length in *.
  assert (to_u32 (count + Z.of_nat (count_true (word_bits w))) = count + Z.of_nat (count_true (word_bits w))) as -> by (apply u_wrap_id; unfold u_range; lia).
  assert (count_true (bits (take m l)) = (count_true (bits (take (2 * k) l)) + count_true (word_bits w))%nat) as ->.
  { replace m with (S (2 * k)) by lia. rewrite (take_S_r _ _ w) by done. by rewrite bits_app, count_true_app. }
  destruct (_ =? 0) eqn:E; zbool.
  - replace (2 * k)%nat with 0%nat by lia. by rewrite take_0.
  - rewrite refresh_pairs; [|done|lia|lia|by exists k|lia|lia]. do 2 f_equal. lia.
Qed.

(** ** Well-formed bitmaps *)

(** What a bitmap holds. *)
Definition view (b : Bitmap) : list bool := take (Z.to_nat (item_count_ b)) (bits (default [] (data_ b))).

(** The words of a bitmap, whatever its count. *)
Record slots_ok (b : Bitmap) (l : list Z) : Prop := {
  so_data : data_ b = Some l;
  so_items : 0 < item_count_ b < 2 ^ 32 - 31;
  so_slots : slot_count_ b = (item_count_ b + 31) / 32;
  so_len : Z.of_nat (length l) = slot_count_ b;
  so_words : Forall (u_range 32) l;
  so_tail : Forall (fun x => x = false) (drop (Z.to_nat (item_count_ b)) (bits l));
}.

Definition bm_ok (b : Bitmap) : Prop := exists l, slots_ok b l /\ set_count_ b = Z.of_nat (count_true (view b)).

Lemma so_bounds b l : slots_ok b l -> item_count_ b <= 32 * Z.of_nat (length l) < item_count_ b + 32.
Proof. intros [_ Hi Hs Hl _ _]. pose proof (Z.div_mod (item_count_ b + 31) 32). pose proof (Z.mod_pos_bound (item_count_ b + 31) 32). lia. Qed.

Lemma view_length b l : slots_ok b l -> length (view b) = Z.to_nat (item_count_ b).
Proof. intros Ho. pose proof (so_bounds b l Ho). unfold view. rewrite (so_data _ _ Ho), length_take. simpl. rewrite bits_length. lia. Qed.

Lemma refresh_count b l : slots_ok b l -> RefreshSetCountByScanning b = Ret (with_count b (Z.of_nat (count_true (view b)))).
Proof.
  intros Ho. pose proof (so_bounds b l Ho) as Hb. destruct Ho as [Hd Hi Hs Hl Hw _]. unfold RefreshSetCountByScanning, view. rewrite Hd. simpl.
  unfold to_u32. rewrite u_wrap_id by (unfold u_range; lia). unfold SLOT_SIZE_BIT_MASK. change 0x1F with (Z.ones 5). rewrite Z.land_ones by lia. change (2 ^ 5) with 32.
  pose proof (Z.div_mod (item_count_ b) 32). pose proof (Z.mod_pos_bound (item_count_ b) 32). set (r := item_count_ b mod 32) in *.
  rewrite <- Hl. destruct (r =? 0) eqn:E; zbool; simpl.
  - rewrite refresh_words by (done || lia). rewrite Z.add_0_l, take_ge by lia. rewrite take_ge by (rewrite bits_length; lia). done.
  - destruct (lookup_lt_is_Some_2 l (length l - 1)) as [w Hlast]; [lia|]. replace (Z.of_nat (length l) - 1) with (Z.of_nat (length l - 1)) by lia.
    rewrite at_index_nat, Hlast. simpl. assert (u_range 32 w) as Rw by (rewrite Forall_forall in Hw; eapply Hw, list_elem_of_lookup_2; done).
    rewrite count_bits by (done || lia).
    assert (count_true (take (Z.to_nat (item_count_ b)) (bits l)) = (count_true (bits (take (length l - 1) l)) + count_true (take (Z.to_nat r) (word_bits w)))%nat) as ->.
    { rewrite bits_take, <- (take_drop (32 * (length l - 1)) (take (Z.to_nat (item_count_ b)) (bits l))), count_true_app, take_take, Nat.min_l by lia. f_equal. f_equal.
      rewrite skipn_firstn_comm, <- bits_drop, (drop_S _ _ _ Hlast), (drop_ge l) by lia. change (bits [w]) with (word_bits w). f_equal. lia. }
    pose proof (count_true_le (take (Z.to_nat r) (word_bits w))) as Hle. rewrite length_take in Hle.
    destruct (_ =? 0) eqn:E2; zbool.
    + replace (length l - 1)%nat with 0%nat by lia. rewrite take_0. done.
    + rewrite refresh_words by (done || lia). do 2 f_equal. lia.
Qed.

(** ** Specification *)

Inductive bm_op :=
  | OpSet (index : Z)
  | OpReset (index : Z)
  | OpResetAll
  | OpResetAllAfter (index : Z)
  | OpAnd (bitmap : Bitmap)
  | OpOr (bitmap : Bitmap)
  | OpMinus (bitmap : Bitmap)
  | OpNot
  | OpCopy (start_index : Z) (data : list Z) (item_count : Z)
  | OpAssign (bitmap : Bitmap)
  | OpTest (index : Z)
  | OpCount
  | OpUnsetCount
  | OpIsEmpty
  | OpBegin
  | OpNext (index : Z)
  | OpEquals (bitmap : Bitmap)
  | OpCountBetween (begin last : Z)
  | OpHasSetData (begin last : Z).

Inductive answer := Done | Yes (b : bool) | Number (n : Z).

Definition run_op (b : Bitmap) (op : bm_op) : outcome (Bitmap * answer) :=
  match op with
  | OpSet i => '(b, x) ← Set_ b i; Ret (b, Yes x)
  | OpReset i => '(b, x) ← Reset b i; Ret (b, Yes x)
  | OpResetAll => b ← ResetAll b; Ret (b, Done)
  | OpResetAllAfter i => b ← ResetAllAfter b i; Ret (b, Done)
  | OpAnd c => b ← And b c; Ret (b, Done)
  | OpOr c => b ← Or b c; Ret (b, Done)
  | OpMinus c => b ← Minus b c; Ret (b, Done)
  | OpNot => b ← Not b; Ret (b, Done)
  | OpCopy i data n => b ← Copy b i (Some data) n; Ret (b, Done)
  | OpAssign c => b ← Assign b c; Ret (b, Done)
  | OpTest i => x ← Test b i; Ret (b, Yes x)
  | OpCount => Ret (b, Number (GetSetCount b))
  | OpUnsetCount => Ret (b, Number (GetUnsetCount b))
  | OpIsEmpty => Ret (b, Yes (IsEmpty b))
  | OpBegin => n ← Begin b; Ret (b, Number n)
  | OpNext i => n ← Next b i; Ret (b, Number n)
  | OpEquals c => x ← Equals b c; Ret (b, Yes x)
  | OpCountBetween i j => n ← GetSetCountBetween b i j; Ret (b, Number n)
  | OpHasSetData i j => x ← HasSetData b i j; Ret (b, Yes x)
  end.

(** Positions: [n] items from [i] on, and a search result. *)
Definition items (v : list bool) (i n : Z) : list bool := take (Z.to_nat n) (drop (Z.to_nat i) v).
Definition found (base : Z) (k : option nat) : Z := match k with Some k => base + Z.of_nat k | None => INVALID_INDEX end.
Definition at_item (v : list bool) (i : Z) : bool := default false (v !! Z.to_nat i).
Definition set_item (v : list bool) (i : Z) (x : bool) : list bool := <[Z.to_nat i := x]> v.

(** The operations on a sequence of booleans. *)
Definition spec_op (v : list bool) (op : bm_op) : list bool * answer :=
  match op with
  | OpSet i => (set_item v i true, Yes (negb (at_item v i)))
  | OpReset i => (set_item v i false, Yes (at_item v i))
  | OpResetAll => (replicate (length v) false, Done)
  | OpResetAllAfter i => (take (Z.to_nat i) v ++ replicate (length v - Z.to_nat i) false, Done)
  | OpAnd c => (zip_with andb v (view c), Done)
  | OpOr c => (zip_with orb v (view c), Done)
  | OpMinus c => (zip_with (fun x y => x && negb y) v (view c), Done)
  | OpNot => (negb <$> v, Done)
  | OpCopy i data n => (take (Z.to_nat i) v ++ take (Z.to_nat n) (bits data) ++ drop (Z.to_nat (i + n)) v, Done)
  | OpAssign c => (view c, Done)
  | OpTest i => (v, Yes (at_item v i))
  | OpCount => (v, Number (Z.of_nat (count_true v)))
  | OpUnsetCount => (v, Number (Z.of_nat (length v - count_true v)))
  | OpIsEmpty => (v, Yes (negb (existsb id v)))
  | OpBegin => (v, Number (found 0 (first_true v)))
  | OpNext i => (v, Number (found (i + 1) (first_true (drop (Z.to_nat (i + 1)) v))))
  | OpEquals c => (v, Yes (bool_decide (v = view c)))
  | OpCountBetween i j => (v, Number (Z.of_nat (count_true (items v i (Z.min (j + 1) (Z.of_nat (length v)) - i)))))
  | OpHasSetData i j => (v, Yes (existsb id (items v i (j + 1 - i))))
  end.

(** What the operations ask for. *)
Definition op_ok (v : list bool) (op : bm_op) : Prop :=
  let n := Z.of_nat (length v) in
  match op with
  | OpSet i | OpReset i | OpResetAllAfter i | OpTest i => 0 <= i < n
  | OpAnd c | OpOr c | OpMinus c => bm_ok c /\ item_count_ c = n
  | OpAssign c | OpEquals c => bm_ok c
  | OpNext i => 0 <= i < n
  | OpCopy i data m =>
      0 <= i /\ 0 <= m /\ i + m <= n /\ Forall (u_range 32) data /\ m <= 32 * Z.of_nat (length data) /\ Forall (fun x => x = false) (items v i m)
  | OpCountBetween i j => 0 <= i /\ 0 <= j < 2 ^ 32
  | OpHasSetData i j => 0 <= i <= j /\ j < n
  | _ => True
  end.

(** An operation that does as specified. *)
Definition simulates (b : Bitmap) (op : bm_op) : Prop :=
  exists b', run_op b op = Ret (b', (spec_op (view b) op).2) /\ bm_ok b' /\ view b' = (spec_op (view b) op).1.

(** ** Single items *)

Lemma idx_split q r : (r < 32)%nat -> Z.shiftr (Z.of_nat (32 * q + r)) 5 = Z.of_nat q /\ Z.land (Z.of_nat (32 * q + r)) 0x1F = Z.of_nat r.
Proof.
  intros Hr. rewrite Z.shiftr_div_pow2 by lia. change 0x1F with (Z.ones 5). rewrite Z.land_ones by lia. change (2 ^ 5) with 32.
  replace (Z.of_nat (32 * q + r)) with (Z.of_nat r + Z.of_nat q * 32) by lia. rewrite Z.div_add, Z.mod_add, Z.div_small, Z.mod_small by lia. lia.
Qed.

Lemma slots_ok_words b l l' : slots_ok b l -> length l' = length l -> Forall (u_range 32) l' ->
  Forall (fun x => x = false) (drop (Z.to_nat (item_count_ b)) (bits l')) -> slots_ok (with_words b l') l'.
Proof. intros [Hd Hi Hs Hl Hw Ht] Hlen Hw' Ht'. split; simpl; try done. lia. Qed.

Lemma slots_ok_count b l n : slots_ok b l -> slots_ok (with_count b n) l.
Proof. intros [Hd Hi Hs Hl Hw Ht]. by split. Qed.

Lemma word_at l q : Forall (u_range 32) l -> (q < length l)%nat -> exists w, l !! q = Some w /\ u_range 32 w.
Proof.
  intros Hl Hq. destruct (lookup_lt_is_Some_2 l q Hq) as [w Hw]. exists w. split; [done|]. rewrite Forall_forall in Hl. eapply Hl, list_elem_of_lookup_2, Hw.
Qed.

Lemma bits_insert l q w w' r x : l !! q = Some w -> (r < 32)%nat -> word_bits w' = <[r := x]> (word_bits w) -> bits (<[q := w']> l) = <[(32 * q + r)%nat := x]> (bits l).
Proof.
  intros Hq Hr Hw. pose proof (lookup_lt_Some _ _ _ Hq) as Hlt. rewrite (insert_take_drop l) by done.
  rewrite <- (take_drop_middle l q w Hq) at 3. rewrite !bits_app, !bits_cons.
  assert (length (bits (take q l)) = (32 * q)%nat) as Hlen by (rewrite bits_length, length_take; lia).
  rewrite insert_app_r_alt by lia. rewrite Hlen. replace (32 * q + r - 32 * q)%nat with r by lia.
  rewrite insert_app_l by (rewrite word_bits_length; lia). by rewrite Hw.
Qed.

(** A word whose item [r] is set or reset. *)
Lemma word_set w r : (r < 32)%nat -> word_bits (Z.lor w (2 ^ (31 - Z.of_nat r))) = <[r := true]> (word_bits w).
Proof.
  intros Hr. apply list_eq_same_length with (n := 32%nat); [by rewrite ?length_insert|by rewrite ?length_insert|]. intros k x y Hk Hx Hy.
  rewrite word_bits_lookup in Hx by done. apply (inj Some) in Hx as <-. rewrite Z.lor_spec, Z.pow2_bits_eqb by lia.
  destruct (decide (k = r)) as [->|Hne].
  - rewrite list_lookup_insert_eq in Hy by (by rewrite word_bits_length). apply (inj Some) in Hy as <-. rewrite Z.eqb_refl. apply orb_true_r.
  - rewrite list_lookup_insert_ne, word_bits_lookup in Hy by done. apply (inj Some) in Hy as <-.
    destruct (_ =? _) eqn:E; zbool; [lia|]. apply orb_false_r.
Qed.

Lemma word_reset w r : (r < 32)%nat -> word_bits (Z.land w (not_u32 (2 ^ (31 - Z.of_nat r)))) = <[r := false]> (word_bits w).
Proof.
  intros Hr. apply list_eq_same_length with (n := 32%nat); [by rewrite ?length_insert|by rewrite ?length_insert|]. intros k x y Hk Hx Hy.
  rewrite word_bits_lookup in Hx by done. apply (inj Some) in Hx as <-. rewrite Z.land_spec, not_u32_testbit, Z.pow2_bits_eqb by lia.
  destruct (decide (k = r)) as [->|Hne].
  - rewrite list_lookup_insert_eq in Hy by (by rewrite word_bits_length). apply (inj Some) in Hy as <-. rewrite Z.eqb_refl. apply andb_false_r.
  - rewrite list_lookup_insert_ne, word_bits_lookup in Hy by done. apply (inj Some) in Hy as <-.
    destruct (_ =? _) eqn:E; zbool; [lia|]. apply andb_true_r.
Qed.

(** The word and the bit of an item. *)
Lemma item_word b l i : slots_ok b l -> 0 <= i < item_count_ b ->
  exists q r w, Z.to_nat i = (32 * q + r)%nat /\ (r < 32)%nat /\ l !! q = Some w /\ u_range 32 w /\ (q < length l)%nat /\
    Z.shiftr i SLOT_SIZE_BIT_NUM = Z.of_nat q /\ Z.land i SLOT_SIZE_BIT_MASK = Z.of_nat r /\ view b !! Z.to_nat i = Some (Z.testbit w (31 - Z.of_nat r)).
Proof.
  intros Ho Hi. pose proof (so_bounds b l Ho) as Hb. destruct (div_mod_32 (Z.to_nat i)) as (q & r & Hqr & Hr).
  destruct (word_at l q (so_words _ _ Ho)) as (w & Hw & Rw); [lia|]. exists q, r, w. destruct (idx_split q r Hr) as [H1 H2].
  rewrite <- Hqr, Z2Nat.id in H1, H2 by lia. split_and!; try done; [by eapply lookup_lt_Some|].
  unfold view. rewrite (so_data _ _ Ho), lookup_take_lt by lia. simpl. by rewrite Hqr, bits_lookup, Hw by done.
Qed.

(** Storing the word of an item with the item changed. *)
Lemma store_item b l q r w w' x i n : slots_ok b l -> 0 <= i < item_count_ b -> Z.to_nat i = (32 * q + r)%nat -> (r < 32)%nat -> l !! q = Some w ->
  u_range 32 w' -> word_bits w' = <[r := x]> (word_bits w) -> n = set_count_ b + Z.b2z x - Z.b2z (Z.testbit w (31 - Z.of_nat r)) ->
  set_count_ b = Z.of_nat (count_true (view b)) ->
  bm_ok (with_count (with_words b (<[q := w']> l)) (to_u32 n)) /\ view (with_count (with_words b (<[q := w']> l)) (to_u32 n)) = set_item (view b) i x.
Proof.
  intros Ho Hi Hqr Hr Hq Rw Hw Hn Hc. pose proof (so_bounds b l Ho) as Hb.
  assert (bits (<[q := w']> l) = <[Z.to_nat i := x]> (bits l)) as Hbits by (rewrite Hqr; by apply (bits_insert _ _ w)).
  assert (view (with_count (with_words b (<[q := w']> l)) (to_u32 n)) = set_item (view b) i x) as Hv.
  { unfold view, set_item. simpl. rewrite Hbits, (so_data _ _ Ho), take_insert_lt by lia. done. }
  split; [|done]. exists (<[q := w']> l). split.
  - apply slots_ok_count, (slots_ok_words b l); [done|apply length_insert|apply Forall_insert; [apply Ho|exact Rw]|].
    rewrite Hbits, drop_insert_lt by lia. apply Ho.
  - assert (view b !! Z.to_nat i = Some (Z.testbit w (31 - Z.of_nat r))) as Hi'.
    { unfold view. rewrite (so_data _ _ Ho), lookup_take_lt by lia. simpl. by rewrite Hqr, bits_lookup, Hq by done. }
    rewrite Hv. unfold set_item. pose proof (count_true_insert (view b) (Z.to_nat i) x _ Hi') as Hci.
    pose proof (count_true_le (<[Z.to_nat i := x]> (view b))) as Hle. rewrite length_insert, (view_length b l) in Hle by done.
    pose proof (so_items _ _ Ho). simpl. unfold to_u32. rewrite u_wrap_id by (unfold u_range; lia). lia.
Qed.

Lemma sim_set b i : bm_ok b -> 0 <= i < item_count_ b -> simulates b (OpSet i).
Proof.
  intros (l & Ho & Hc) Hi. destruct (item_word b l i Ho Hi) as (q & r & w & Hqr & Hr & Hw & Rw & Hq & H1 & H2 & Hv).
  unfold simulates, run_op, spec_op, Set_, at_item. rewrite H1, H2, Hv. destruct (i <? item_count_ b) eqn:E; [|zbool; lia]. simpl.
  unfold words. rewrite (so_data _ _ Ho). simpl. rewrite (at_index_nat l), Hw. simpl. rewrite op_mask by lia. simpl. rewrite land_pow2_zero by lia.
  destruct (Z.testbit w (31 - Z.of_nat r)) eqn:Eb; simpl.
  - exists b. split; [done|]. split; [by exists l|]. unfold set_item. symmetry. by apply list_insert_id.
  - rewrite set_index_in by lia. simpl. rewrite Nat2Z.id. eexists. split; [done|].
    eapply (store_item b l q r w _ true i); try done; [apply u32_lor; [done|apply pow2_u32; lia]|by apply word_set|rewrite Eb; simpl; lia].
Qed.

Lemma sim_reset b i : bm_ok b -> 0 <= i < item_count_ b -> simulates b (OpReset i).
Proof.
  intros (l & Ho & Hc) Hi. destruct (item_word b l i Ho Hi) as (q & r & w & Hqr & Hr & Hw & Rw & Hq & H1 & H2 & Hv).
  unfold simulates, run_op, spec_op, Reset, at_item. rewrite H1, H2, Hv. destruct (i >=? item_count_ b) eqn:E; [zbool; lia|]. simpl.
  unfold words. rewrite (so_data _ _ Ho). simpl. rewrite (at_index_nat l), Hw. simpl. rewrite op_mask by lia. simpl. rewrite land_pow2_zero by lia.
  destruct (Z.testbit w (31 - Z.of_nat r)) eqn:Eb; simpl.
  - rewrite set_index_in by lia. simpl. rewrite Nat2Z.id. eexists. split; [done|].
    eapply (store_item b l q r w _ false i); try done; [by auto with u32|by apply word_reset|rewrite Eb; simpl; lia].
  - exists b. split; [done|]. split; [by exists l|]. unfold set_item. symmetry. by apply list_insert_id.
Qed.

Lemma sim_test b i : bm_ok b -> 0 <= i < item_count_ b -> simulates b (OpTest i).
Proof.
  intros (l & Ho & Hc) Hi. destruct (item_word b l i Ho Hi) as (q & r & w & Hqr & Hr & Hw & Rw & Hq & H1 & H2 & Hv).
  exists b. unfold run_op, spec_op, Test, at_item. rewrite H1, H2, Hv. destruct (i <? item_count_ b) eqn:E; [|zbool; lia]. simpl.
  unfold words. rewrite (so_data _ _ Ho). simpl. rewrite (at_index_nat l), Hw. simpl. rewrite op_mask by lia. simpl. rewrite land_pow2_zero, negb_involutive by lia.
  split; [done|]. split; [by exists l|done].
Qed.

(** ** Many items *)

Lemma view_words b l l' : slots_ok b l -> view (with_words b l') = take (Z.to_nat (item_count_ b)) (bits l').
Proof. done. Qed.

(** The end of the operations that count anew. *)
Lemma refresh_ok b l : slots_ok b l -> exists b', RefreshSetCountByScanning b = Ret b' /\ bm_ok b' /\ view b' = view b.
Proof.
  intros Ho. rewrite (refresh_count b l Ho). eexists. split; [done|]. split; [|done].
  exists l. split; [by apply slots_ok_count|done].
Qed.

Lemma Forall_false_replicate n : Forall (fun x => x = false) (replicate n false).
Proof. by apply Forall_replicate. Qed.

Lemma sim_reset_all b : bm_ok b -> simulates b OpResetAll.
Proof.
  intros (l & Ho & Hc). pose proof (so_bounds b l Ho) as Hb. pose proof (view_length b l Ho) as Hvl. unfold simulates, run_op, spec_op, ResetAll, words.
  rewrite (so_data _ _ Ho). simpl. unfold fill. rewrite <- (so_len _ _ Ho). destruct (_ || _) eqn:E; [exfalso; apply orb_true_iff in E; rewrite orb_true_iff in E; zbool; lia|].
  simpl. rewrite Nat2Z.id, drop_ge, app_nil_r by lia. eexists. split; [done|]. pose proof (bits_replicate_zero (length l)) as Hz.
  assert (view (with_count (with_words b (replicate (length l) 0)) 0) = replicate (length (view b)) false) as Hv.
  { unfold view at 1. simpl. rewrite Hz, take_replicate, Hvl. f_equal. lia. }
  split; [|done]. exists (replicate (length l) 0). split.
  - apply slots_ok_count, (slots_ok_words b l); [done|by rewrite length_replicate|by apply Forall_replicate|].
    rewrite Hz, drop_replicate. apply Forall_false_replicate.
  - rewrite Hv, count_true_false; [done|apply Forall_false_replicate].
Qed.

Lemma word_loop f l2 get todo : (forall k, at_index l2 k = get k \/ Z.of_nat (length l2) <= k) -> forall i l, (i + todo <= length l)%nat -> (i + todo <= length l2)%nat ->
  WordLoop f todo l get (Z.of_nat i) = Ret (take i l ++ zip_with f (take todo (drop i l)) (take todo (drop i l2)) ++ drop (i + todo) l).
Proof.
  intros Hget. induction todo as [|todo IH]; intros i l H1 H2; [simpl; by rewrite Nat.add_0_r, take_drop|].
  destruct (lookup_lt_is_Some_2 l i) as [w Hw]; [lia|]. destruct (lookup_lt_is_Some_2 l2 i) as [v Hv]; [lia|].
  cbn [WordLoop]. rewrite at_index_nat, Hw. cbn [mbind outcome_bind]. destruct (Hget (Z.of_nat i)) as [<-|]; [|lia]. rewrite at_index_nat, Hv.
  cbn [mbind outcome_bind]. rewrite set_index_in by lia. cbn [mbind outcome_bind]. rewrite Nat2Z.id. replace (Z.of_nat i + 1) with (Z.of_nat (S i)) by lia.
  rewrite IH by (rewrite ?length_insert; lia). f_equal. rewrite !drop_insert_lt by lia.
  rewrite (take_S_r _ _ (f w v)) by (apply list_lookup_insert_eq; lia). rewrite take_insert_ge by lia. rewrite <- app_assoc. f_equal.
  rewrite (drop_S l w i Hw), (drop_S l2 v i Hv). simpl. do 2 f_equal. f_equal. lia.
Qed.

Lemma word_loop_add f todo1 todo2 l get i : WordLoop f (todo1 + todo2) l get i = (l' ← WordLoop f todo1 l get i; WordLoop f todo2 l' get (i + Z.of_nat todo1)).
Proof.
  revert l i. induction todo1 as [|todo1 IH]; intros l i; [simpl; f_equal; lia|]. cbn [WordLoop Nat.add].
  destruct (at_index l i) as [w| |]; [|done..]. cbn [mbind outcome_bind]. destruct (get i) as [v| |]; [|done..]. cbn [mbind outcome_bind].
  destruct (set_index l i (f w v)) as [l'| |]; [|done..]. cbn [mbind outcome_bind]. rewrite IH. destruct (WordLoop f todo1 l' get (i + 1)); [|done..].
  simpl. f_equal. lia.
Qed.

(** The unrolled loop is the loop. *)
Lemma or_batches n l l2 base : OrBatches n l l2 base = WordLoop Z.lor (32 * n) l (at_index l2) base.
Proof.
  revert l base. induction n as [|n IH]; intros l base; [done|]. replace (32 * S n)%nat with (32 + 32 * n)%nat by lia. rewrite word_loop_add.
  cbn [OrBatches]. destruct (WordLoop Z.lor 32 l (at_index l2) base); [|done..]. simpl. apply IH.
Qed.

(** The result of an operation on the words of two bitmaps. *)
Lemma zip_ok b l c l2 f g : slots_ok b l -> slots_ok c l2 -> item_count_ c = item_count_ b ->
  (forall w v, u_range 32 w -> u_range 32 v -> u_range 32 (f w v)) ->
  (forall w v j, 0 <= j < 32 -> Z.testbit (f w v) j = g (Z.testbit w j) (Z.testbit v j)) -> g false false = false ->
  exists b', RefreshSetCountByScanning (with_words b (zip_with f l l2)) = Ret b' /\ bm_ok b' /\ view b' = zip_with g (view b) (view c).
Proof.
  intros Ho Hc Hn Hr Hf Hg. pose proof (so_bounds b l Ho) as Hb. pose proof (so_bounds c l2 Hc) as Hcb.
  assert (length l2 = length l) as Hlen by lia.
  assert (bits (zip_with f l l2) = zip_with g (bits l) (bits l2)) as Hbits by (apply zip_with_bits; intros; apply word_bits_map2; auto).
  assert (slots_ok (with_words b (zip_with f l l2)) (zip_with f l l2)) as Hz.
  { apply (slots_ok_words b l); [done|rewrite length_zip_with; lia| |].
    - apply Forall_forall. intros x (w & v & -> & Hw & Hv)%elem_of_zip_with. pose proof (so_words _ _ Ho) as F1. pose proof (so_words _ _ Hc) as F2.
      rewrite Forall_forall in F1. rewrite Forall_forall in F2. auto.
    - rewrite Hbits, zip_with_drop. pose proof (so_tail _ _ Ho) as F1. pose proof (so_tail _ _ Hc) as F2. rewrite Hn in F2.
      apply Forall_forall. intros x (y & z & -> & Hy & Hz)%elem_of_zip_with. rewrite Forall_forall in F1. rewrite Forall_forall in F2.
      by rewrite (F1 y Hy), (F2 z Hz). }
  destruct (refresh_ok _ _ Hz) as (b' & Hb' & Hok & Hv). exists b'. split; [done|]. split; [done|]. rewrite Hv.
  rewrite (view_words b l) by done. rewrite Hbits, zip_with_take. unfold view. by rewrite (so_data _ _ Ho), (so_data _ _ Hc), Hn.
Qed.

Lemma word_loop_all f get l l2 n : (forall k, at_index l2 k = get k \/ Z.of_nat (length l2) <= k) -> length l2 = length l -> n = Z.of_nat (length l) ->
  WordLoop f (Z.to_nat n) l get 0 = Ret (zip_with f l l2).
Proof.
  intros Hget Hlen ->. rewrite Nat2Z.id. change 0 with (Z.of_nat 0). rewrite (word_loop f l2) by (done || lia). simpl.
  rewrite !drop_0, take_ge, take_ge, drop_ge, app_nil_r by lia. done.
Qed.

Lemma sim_and b c : bm_ok b -> bm_ok c -> item_count_ c = item_count_ b -> simulates b (OpAnd c).
Proof.
  intros (l & Ho & Hcb) (l2 & Hc & _) Hn. unfold simulates, run_op, spec_op, And, words. rewrite Hn, Z.eqb_refl, (so_data _ _ Ho), (so_data _ _ Hc). simpl.
  pose proof (so_bounds b l Ho). pose proof (so_bounds c l2 Hc). rewrite (word_loop_all _ _ _ l2) by (auto || (pose proof (so_len _ _ Ho); lia)). simpl.
  destruct (zip_ok b l c l2 Z.land andb) as (b' & -> & Hok & Hv); auto using Z.land_spec with u32. simpl. eauto.
Qed.

Lemma sim_or b c : bm_ok b -> bm_ok c -> item_count_ c = item_count_ b -> simulates b (OpOr c).
Proof.
  intros (l & Ho & Hcb) (l2 & Hc & _) Hn. unfold simulates, run_op, spec_op, Or, words. rewrite Hn, Z.eqb_refl, (so_data _ _ Ho), (so_data _ _ Hc). simpl.
  pose proof (so_bounds b l Ho). pose proof (so_bounds c l2 Hc). pose proof (so_len _ _ Ho) as Hlen.
  pose proof (Z.div_mod (slot_count_ b) 32). pose proof (Z.mod_pos_bound (slot_count_ b) 32).
  assert (forall {A} (k : list Z -> outcome A), (l' ← OrBatches (Z.to_nat (slot_count_ b / 32)) l l2 0; l'' ← WordLoop Z.lor (Z.to_nat (slot_count_ b mod 32)) l' (at_index l2) (slot_count_ b / 32 * 32); k l'') =
    k (zip_with Z.lor l l2)) as Hor.
  { intros A k. rewrite or_batches. pose proof (word_loop_all Z.lor (at_index l2) l l2 (slot_count_ b)) as Hall. 
    replace (Z.to_nat (slot_count_ b)) with (32 * Z.to_nat (slot_count_ b / 32) + Z.to_nat (slot_count_ b mod 32))%nat in Hall by lia.
    rewrite word_loop_add in Hall. specialize (Hall ltac:(auto) ltac:(lia) ltac:(lia)).
    replace (0 + Z.of_nat (32 * Z.to_nat (slot_count_ b / 32))) with (slot_count_ b / 32 * 32) in Hall by lia.
    destruct (WordLoop Z.lor (32 * Z.to_nat (slot_count_ b / 32)) l (at_index l2) 0) as [l'| |]; [|done..]. simpl in *. by rewrite Hall. }
  rewrite Hor. destruct (zip_ok b l c l2 Z.lor orb) as (b' & -> & Hok & Hv); auto using Z.lor_spec with u32. simpl. eauto.
Qed.

Lemma sim_minus b c : bm_ok b -> bm_ok c -> item_count_ c = item_count_ b -> simulates b (OpMinus c).
Proof.
  intros (l & Ho & Hcb) (l2 & Hc & _) Hn. unfold simulates, run_op, spec_op, Minus. unfold words at 1. rewrite Hn, Z.eqb_refl, (so_data _ _ Ho). simpl.
  pose proof (so_bounds b l Ho). pose proof (so_bounds c l2 Hc). pose proof (so_len _ _ Ho). pose proof (so_len _ _ Hc).
  rewrite (word_loop_all _ _ _ l2); [simpl| |lia|lia].
  - destruct (zip_ok b l c l2 (fun w v => Z.land w (not_u32 v)) (fun x y => x && negb y)) as (b' & -> & Hok & Hv); auto with u32.
    + intros w v j Hj. by rewrite Z.land_spec, not_u32_testbit.
    + simpl. eauto.
  - intros k. unfold At, words. rewrite (so_data _ _ Hc). destruct (k <? slot_count_ c) eqn:E; zbool; [by left|right; lia].
Qed.

Lemma last_word b l : slots_ok b l -> exists l0 w c, l = l0 ++ [w] /\ Z.to_nat (item_count_ b) = (32 * length l0 + c)%nat /\ (0 < c <= 32)%nat.
Proof.
  intros Ho. pose proof (so_bounds b l Ho). destruct (decide (l = [])) as [->|Hne]; [pose proof (so_items _ _ Ho); simpl in *; lia|].
  destruct (exists_last Hne) as (l0 & w & ->). exists l0, w, (Z.to_nat (item_count_ b) - 32 * length l0)%nat. pose proof (so_items _ _ Ho). rewrite length_app in *. simpl in *.
  split_and!; [done|lia..].
Qed.

Lemma not_loop todo : forall i l, (i + todo <= length l)%nat -> NotLoop todo l (Z.of_nat i) = Ret (take i l ++ (not_u32 <$> take todo (drop i l)) ++ drop (i + todo) l).
Proof.
  induction todo as [|todo IH]; intros i l Hi; [simpl; by rewrite Nat.add_0_r, take_drop|].
  destruct (lookup_lt_is_Some_2 l i) as [w Hw]; [lia|]. cbn [NotLoop]. rewrite at_index_nat, Hw. cbn [mbind outcome_bind].
  rewrite set_index_in by lia. cbn [mbind outcome_bind]. rewrite Nat2Z.id. replace (Z.of_nat i + 1) with (Z.of_nat (S i)) by lia.
  rewrite IH by (rewrite length_insert; lia). f_equal. rewrite !drop_insert_lt by lia.
  rewrite (take_S_r _ _ (not_u32 w)) by (apply list_lookup_insert_eq; lia). rewrite take_insert_ge by lia. rewrite <- app_assoc. f_equal.
  rewrite (drop_S l w i Hw). simpl. do 2 f_equal. f_equal. lia.
Qed.

Lemma flip_loop data todo : forall w i, (i + todo <= 32)%nat -> u_range 32 w -> (forall k, (i <= k < 32)%nat -> Z.testbit w (31 - Z.of_nat k) = Z.testbit data (31 - Z.of_nat k)) ->
  exists w', FlipLoop todo w data (Z.of_nat i) = Ret w' /\ u_range 32 w' /\
    word_bits w' = take i (word_bits w) ++ (negb <$> take todo (drop i (word_bits data))) ++ drop (i + todo) (word_bits data).
Proof.
  induction todo as [|todo IH]; intros w i Hi Rw Hd.
  { exists w. split; [done|]. split; [done|]. simpl. rewrite Nat.add_0_r. rewrite <- (take_drop i (word_bits w)) at 1. f_equal.
    apply list_eq_same_length with (n := (32 - i)%nat); [by rewrite length_drop|by rewrite length_drop|]. intros k x y Hk. rewrite !lookup_drop, !word_bits_lookup by lia.
    rewrite Hd by lia. congruence. }
  cbn [FlipLoop]. rewrite op_mask by lia. cbn [mbind outcome_bind]. rewrite land_pow2_zero, negb_involutive by lia. replace (Z.of_nat i + 1) with (Z.of_nat (S i)) by lia.
  set (w1 := if Z.testbit data (31 - Z.of_nat i) then _ else _).
  assert (u_range 32 w1) as R1 by (unfold w1; destruct (Z.testbit data _); [by auto with u32|apply u32_lor; [done|apply pow2_u32; lia]]).
  assert (word_bits w1 = <[i := negb (Z.testbit data (31 - Z.of_nat i))]> (word_bits w)) as Hw1.
  { unfold w1. destruct (Z.testbit data _); [apply word_reset; lia|apply word_set; lia]. }
  destruct (IH w1 (S i)) as (w' & -> & Rw' & Hw'); [lia|done| |].
  { intros k Hk. assert (word_bits w1 !! k = word_bits w !! k) as He by (rewrite Hw1, list_lookup_insert_ne; [done|lia]).
    rewrite !word_bits_lookup in He by lia. apply (inj Some) in He as ->. apply Hd. lia. }
  exists w'. split; [done|]. split; [done|]. rewrite Hw', Hw1. rewrite (take_S_r _ _ (negb (Z.testbit data (31 - Z.of_nat i)))) by (apply list_lookup_insert_eq; rewrite word_bits_length; lia).
  rewrite take_insert_ge by lia. rewrite <- app_assoc. f_equal. rewrite (drop_S (word_bits data) (Z.testbit data (31 - Z.of_nat i)) i) by (apply word_bits_lookup; lia).
  replace (i + S todo)%nat with (S i + todo)%nat by lia. done.
Qed.

Lemma bits_not l : bits (not_u32 <$> l) = negb <$> bits l.
Proof.
  induction l as [|w l IH]; [done|]. rewrite fmap_cons, !bits_cons, fmap_app, IH. f_equal. unfold word_bits. rewrite <- list_fmap_compose. apply list_fmap_ext.
  intros i k Hk%lookup_seq. apply not_u32_testbit. lia.
Qed.

Lemma sim_not b : bm_ok b -> simulates b OpNot.
Proof.
  intros (l & Ho & Hc). pose proof (so_bounds b l Ho) as Hb. pose proof (view_length b l Ho) as Hvl. pose proof (so_items _ _ Ho) as Hi.
  destruct (last_word b l Ho) as (l0 & w & c & -> & Hn & Hcr). pose proof (so_len _ _ Ho) as Hlen. rewrite length_app in *. simpl in Hlen, Hb.
  assert (u_range 32 w /\ Forall (u_range 32) l0) as [Rw R0] by (pose proof (so_words _ _ Ho) as F; apply Forall_app in F as [F0 F1]; split; [by apply Forall_cons in F1 as [? _]|done]).
  unfold simulates, run_op, spec_op, Not, words. rewrite (so_data _ _ Ho). cbn [mbind outcome_bind].
  assert (to_u32 (slot_count_ b - 1) = Z.of_nat (length l0)) as -> by (unfold to_u32; rewrite u_wrap_id by (unfold u_range; lia); lia).
  rewrite Nat2Z.id. pose proof (not_loop (length l0) 0 (l0 ++ [w])) as Hnot. change (Z.of_nat 0) with 0 in Hnot. rewrite Hnot by (rewrite length_app; simpl; lia).
  cbn [mbind outcome_bind]. change (0 + length l0)%nat with (length l0). rewrite drop_0, take_0, take_app_length, drop_app_length, app_nil_l.
  assert (at_index ((not_u32 <$> l0) ++ [w]) (Z.of_nat (length l0)) = Ret w) as ->.
  { rewrite at_index_nat, lookup_app_r, length_fmap, Nat.sub_diag by (rewrite length_fmap; lia). done. }
  cbn [mbind outcome_bind]. assert (to_u32 (item_count_ b - Z.of_nat (length l0) * SLOT_SIZE) = Z.of_nat c) as ->.
  { unfold to_u32, SLOT_SIZE. rewrite u_wrap_id by (unfold u_range; lia). lia. }
  rewrite Nat2Z.id. destruct (flip_loop w c w 0) as (w' & Hflip & Rw' & Hw'); [lia|done|done|]. change (Z.of_nat 0) with 0 in Hflip. rewrite Hflip.
  cbn [mbind outcome_bind]. rewrite set_index_in by (rewrite length_app, length_fmap; simpl; lia). cbn [mbind outcome_bind].
  rewrite Nat2Z.id, insert_app_r_alt, length_fmap, Nat.sub_diag by (rewrite length_fmap; lia). change (<[0%nat := w']> [w]) with [w'].
  eexists. split; [done|]. set (l' := (not_u32 <$> l0) ++ [w']).
  assert (bits l' = (negb <$> take (Z.to_nat (item_count_ b)) (bits (l0 ++ [w]))) ++ drop (Z.to_nat (item_count_ b)) (bits (l0 ++ [w]))) as Hbits.
  { unfold l'. rewrite !bits_app, bits_not, Hn, <- bits_length. change (bits [w']) with (word_bits w'). change (bits [w]) with (word_bits w).
    rewrite take_app_add, drop_app_add, fmap_app, <- app_assoc, Hw'. done. }
  assert (length (negb <$> take (Z.to_nat (item_count_ b)) (bits (l0 ++ [w]))) = Z.to_nat (item_count_ b)) as Hl1.
  { rewrite length_fmap, length_take, bits_length, length_app. simpl. lia. }
  assert (view (with_count (with_words b l') (GetUnsetCount b)) = negb <$> view b) as Hv.
  { unfold view. simpl. rewrite Hbits, (so_data _ _ Ho). simpl. by rewrite take_app_length'. }
  split; [|done]. exists l'. split.
  - apply slots_ok_count, (slots_ok_words b (l0 ++ [w])); [done|unfold l'; rewrite !length_app, length_fmap; done| |].
    + unfold l'. apply Forall_app. split; [|by constructor]. apply Forall_fmap, Forall_true. intros x. apply u32_not.
    + rewrite Hbits, drop_app_length' by done. apply Ho.
  - rewrite Hv. simpl. unfold GetUnsetCount, GetSetCount, to_u32. pose proof (count_negb (view b)). rewrite u_wrap_id by (unfold u_range; lia). lia.
Qed.

Lemma clear_bits todo : forall w i, (i + todo = 32)%nat -> u_range 32 w ->
  exists w', ClearBits todo w (Z.of_nat i) = Ret w' /\ u_range 32 w' /\ word_bits w' = take i (word_bits w) ++ replicate todo false.
Proof.
  induction todo as [|todo IH]; intros w i Hi Rw.
  { exists w. split; [done|]. split; [done|]. by rewrite take_ge, app_nil_r by (rewrite word_bits_length; lia). }
  cbn [ClearBits]. rewrite op_mask by lia. cbn [mbind outcome_bind]. replace (Z.of_nat i + 1) with (Z.of_nat (S i)) by lia.
  destruct (IH (Z.land w (not_u32 (2 ^ (31 - Z.of_nat i)))) (S i)) as (w' & -> & Rw' & Hw'); [lia|by auto with u32|].
  exists w'. split; [done|]. split; [done|]. rewrite Hw', word_reset by lia.
  rewrite (take_S_r _ _ false) by (apply list_lookup_insert_eq; rewrite word_bits_length; lia). rewrite take_insert_ge by lia. by rewrite <- app_assoc.
Qed.

Lemma sim_reset_all_after b i : bm_ok b -> 0 <= i < item_count_ b -> simulates b (OpResetAllAfter i).
Proof.
  intros (l & Ho & Hc) Hi. pose proof (so_bounds b l Ho) as Hb. pose proof (view_length b l Ho) as Hvl. pose proof (so_len _ _ Ho) as Hlen. pose proof (so_items _ _ Ho).
  destruct (item_word b l i Ho Hi) as (q & r & w & Hqr & Hr & Hw & Rw & Hq & H1 & H2 & Hv).
  unfold simulates, run_op, spec_op, ResetAllAfter, words. rewrite H1, H2, (so_data _ _ Ho). destruct (i <? item_count_ b) eqn:E; [|zbool; lia]. cbn [mbind outcome_bind assert_that].
  rewrite at_index_nat, Hw. cbn [mbind outcome_bind]. unfold SLOT_SIZE. replace (Z.to_nat (32 - Z.of_nat r)) with (32 - r)%nat by lia.
  destruct (clear_bits (32 - r) w r) as (w' & -> & Rw' & Hw'); [lia|done|]. cbn [mbind outcome_bind]. rewrite set_index_in by lia. cbn [mbind outcome_bind]. rewrite Nat2Z.id.
  set (l' := take q l ++ w' :: replicate (length l - q - 1) 0).
  assert ((if Z.of_nat q <? to_u32 (slot_count_ b - 1) then fill (<[q:=w']> l) (Z.of_nat q + 1) (slot_count_ b - Z.of_nat q - 1) 0 else Ret (<[q:=w']> l)) = Ret l') as ->.
  { unfold to_u32. rewrite u_wrap_id by (unfold u_range; lia). rewrite <- Hlen. unfold l', fill. rewrite length_insert. destruct (Z.of_nat q <? Z.of_nat (length l) - 1) eqn:E2; zbool.
    - destruct (_ || _) eqn:E3; [exfalso; apply orb_true_iff in E3; rewrite orb_true_iff in E3; zbool; lia|]. rewrite drop_insert_lt, drop_ge, app_nil_r by lia.
      replace (Z.to_nat (Z.of_nat q + 1)) with (S q) by lia. rewrite (take_S_r _ _ w') by (apply list_lookup_insert_eq; lia). rewrite take_insert_ge, <- app_assoc by lia.
      replace (Z.to_nat (Z.of_nat (length l) - Z.of_nat q - 1)) with (length l - q - 1)%nat by lia. done.
    - rewrite insert_take_drop, (drop_ge l (S q)) by lia. replace (length l - q - 1)%nat with 0%nat by lia. done. }
  cbn [mbind outcome_bind].
  assert (bits l' = take (Z.to_nat i) (bits l) ++ replicate (32 * length l - Z.to_nat i) false) as Hbits.
  { unfold l'. rewrite bits_app, bits_cons, Hw', bits_replicate_zero, bits_take, Hqr. rewrite <- (take_drop (32 * q) (bits l)) at 2.
    rewrite take_app_add' by (rewrite length_take, bits_length; lia). rewrite <- bits_drop, (drop_S l w q Hw), bits_cons, take_app_le by (rewrite word_bits_length; lia).
    rewrite <- !app_assoc, <- replicate_add. do 3 f_equal. lia. }
  assert (slots_ok (with_words b l') l') as Hok.
  { apply (slots_ok_words b l); [done|unfold l'; rewrite length_app, length_take; simpl; rewrite length_replicate; lia| |].
    - unfold l'. apply Forall_app. split; [apply Forall_take, Ho|]. constructor; [done|by apply Forall_replicate].
    - rewrite Hbits, drop_app_ge by (rewrite length_take; lia). rewrite drop_replicate. apply Forall_false_replicate. }
  destruct (refresh_ok _ _ Hok) as (b' & -> & Hbok & Hbv). cbn [mbind outcome_bind]. exists b'. split; [done|]. split; [done|].
  rewrite Hbv, (view_words b l) by done. rewrite Hbits, take_app_ge by (rewrite length_take, bits_length; lia). rewrite length_take, bits_length, take_replicate, Hvl.
  unfold view. rewrite (so_data _ _ Ho), take_take. simpl. f_equal; [f_equal; lia|f_equal; lia].
Qed.

Lemma sim_assign b c : bm_ok c -> simulates b (OpAssign c).
Proof.
  intros (l & Ho & Hc). unfold simulates, run_op, spec_op, Assign, CopyBitmap, copy_words. rewrite (so_data _ _ Ho). pose proof (so_len _ _ Ho) as Hlen.
  rewrite <- Hlen, Z.ltb_irrefl. cbn [mbind outcome_bind]. rewrite Nat2Z.id, take_ge by lia. eexists. split; [done|].
  assert (forall x y z, view (mkBitmap (item_count_ c) x (Some l) y z (init_set_ c)) = view c) as Hv by (intros; unfold view; by rewrite (so_data _ _ Ho)).
  split; [|apply Hv]. exists l. rewrite Hv. split; [|done]. destruct Ho. split; simpl; try done. lia.
Qed.

Lemma view_inj b l c l2 : slots_ok b l -> slots_ok c l2 -> view b = view c -> item_count_ b = item_count_ c /\ l = l2.
Proof.
  intros Ho Hc Hv. assert (item_count_ b = item_count_ c) as Hn.
  { apply (f_equal length) in Hv. rewrite (view_length b l Ho), (view_length c l2 Hc) in Hv. pose proof (so_items _ _ Ho). pose proof (so_items _ _ Hc). lia. }
  split; [done|]. apply bits_inj; [apply Ho|apply Hc|]. rewrite <- (take_drop (Z.to_nat (item_count_ b)) (bits l)), <- (take_drop (Z.to_nat (item_count_ b)) (bits l2)).
  unfold view in Hv. rewrite (so_data _ _ Ho), (so_data _ _ Hc), <- Hn in Hv. simpl in Hv. rewrite Hv. f_equal.
  pose proof (so_bounds b l Ho). pose proof (so_bounds c l2 Hc). pose proof (so_tail _ _ Ho) as T1. pose proof (so_tail _ _ Hc) as T2. rewrite <- Hn in T2.
  assert (forall v, Forall (fun x => x = false) v -> v = replicate (length v) false) as Hr by (induction 1 as [|x v -> _ IH]; [done|simpl; by rewrite <- IH]).
  pose proof (so_len _ _ Ho). pose proof (so_len _ _ Hc). pose proof (so_slots _ _ Ho). pose proof (so_slots _ _ Hc). rewrite Hn in *.
  rewrite (Hr _ T1), (Hr _ T2), !length_drop, !bits_length. f_equal. lia.
Qed.

Lemma sim_equals b c : bm_ok b -> bm_ok c -> simulates b (OpEquals c).
Proof.
  intros (l & Ho & Hcb) (l2 & Hc & Hcc). exists b. split; [|split; [by exists l|done]]. unfold run_op, spec_op, Equals. simpl.
  destruct (item_count_ b =? item_count_ c) eqn:E1; zbool; simpl; [|rewrite bool_decide_false; [done|intros Hv; by apply (view_inj b l c l2) in Hv as [? _]]].
  assert (slot_count_ b = slot_count_ c) as Hs by (by rewrite (so_slots _ _ Ho), (so_slots _ _ Hc), E1). rewrite Hs, Z.eqb_refl. simpl.
  destruct (set_count_ b =? set_count_ c) eqn:E2; zbool; simpl; [|rewrite bool_decide_false; [done|intros Hv; rewrite Hv in Hcb; lia]].
  assert (length l = length l2) as Hlen by (pose proof (so_len _ _ Ho); pose proof (so_len _ _ Hc); lia).
  unfold words, copy_words. rewrite (so_data _ _ Ho), (so_data _ _ Hc), <- (so_len _ _ Hc). cbn [mbind outcome_bind]. rewrite Hlen, Z.ltb_irrefl.
  cbn [mbind outcome_bind]. rewrite Nat2Z.id, !take_ge by lia.
  do 3 f_equal. apply bool_decide_ext. split; [intros ->; unfold view; by rewrite (so_data _ _ Ho), (so_data _ _ Hc), E1|intros Hv; by apply (view_inj b l c l2) in Hv as [_ ?]].
Qed.

(** ** Search *)

Lemma clz_first w : u_range 32 w -> w <> 0 -> clz w = Ret (31 - Z.log2 w) /\ first_true (word_bits w) = Some (Z.to_nat (31 - Z.log2 w)) /\ 0 <= Z.log2 w < 32.
Proof.
  intros Rw Hw. assert (0 <= Z.log2 w < 32) as Hl by (split; [apply Z.log2_nonneg|apply Z.log2_lt_pow2; unfold u_range in Rw; lia]).
  split; [|split; [|done]].
  - unfold clz. destruct (w =? 0) eqn:E; zbool; [done|done].
  - apply first_true_at.
    + rewrite word_bits_lookup by lia. rewrite Z2Nat.id by lia. replace (31 - (31 - Z.log2 w)) with (Z.log2 w) by lia. rewrite Z.bit_log2; [done|unfold u_range in Rw; lia].
    + intros j Hj. rewrite word_bits_lookup by lia. f_equal. apply Z.bits_above_log2; unfold u_range in Rw; lia.
Qed.

Lemma begin_loop l todo : Forall (u_range 32) l -> 32 * Z.of_nat (length l) < 2 ^ 32 -> forall i, (i + todo <= length l)%nat ->
  BeginLoop todo l (Z.of_nat i) = Ret (found (32 * Z.of_nat i) (first_true (bits (take todo (drop i l))))).
Proof.
  intros Hl Hlen. induction todo as [|todo IH]; intros i Hi; [done|]. destruct (word_at l i Hl) as (w & Hw & Rw); [lia|].
  rewrite (drop_S l w i Hw). cbn [BeginLoop]. rewrite at_index_nat, Hw. cbn [mbind outcome_bind]. change (take (S todo) (w :: ?x)) with (w :: take todo x).
  rewrite bits_cons, first_true_app, word_bits_length. destruct (w =? 0) eqn:E; zbool; simpl negb; cbv iota.
  - subst w. rewrite word_bits_zero, first_true_false by apply Forall_false_replicate. replace (Z.of_nat i + 1) with (Z.of_nat (S i)) by lia. rewrite IH by lia.
    destruct (first_true _); cbn; f_equal; lia.
  - destruct (clz_first w Rw E) as (-> & -> & Hlog). cbn [mbind outcome_bind]. unfold found, to_u32, SLOT_SIZE. rewrite u_wrap_id by (unfold u_range; lia). f_equal. lia.
Qed.

(** The tail of the words never holds an item. *)
Lemma first_view b l k : slots_ok b l -> (k <= Z.to_nat (item_count_ b))%nat -> first_true (drop k (view b)) = first_true (drop k (bits l)).
Proof.
  intros Ho Hk. rewrite <- (take_drop (Z.to_nat (item_count_ b)) (bits l)) at 1. pose proof (view_length b l Ho). unfold view in *. rewrite (so_data _ _ Ho) in *. simpl in *.
  rewrite drop_app_le by lia. rewrite first_true_app, (first_true_false (drop (Z.to_nat _) _)) by apply Ho. by destruct (first_true _).
Qed.

Lemma sim_begin b : bm_ok b -> simulates b OpBegin.
Proof.
  intros (l & Ho & Hc). exists b. split; [|split; [by exists l|done]]. pose proof (so_bounds b l Ho). pose proof (so_items _ _ Ho). unfold run_op, spec_op, Begin, words.
  rewrite (so_data _ _ Ho), <- (so_len _ _ Ho). destruct (_ =? 0) eqn:E; zbool; [lia|]. cbn [mbind outcome_bind]. rewrite Nat2Z.id.
  pose proof (begin_loop l (length l) (so_words _ _ Ho) ltac:(lia) 0) as Hbl. change (Z.of_nat 0) with 0 in Hbl. rewrite Hbl by lia. rewrite drop_0, take_ge by lia.
  simpl. rewrite <- (drop_0 (view b)), (first_view b l) by (done || lia). done.
Qed.

(** Masks: the items from [x] up to [y]. *)
Definition is_mask (m : Z) (x y : nat) : Prop := forall k, (k < 32)%nat -> Z.testbit m (31 - Z.of_nat k) = ((x <=? k) && (k <? y))%nat.

Lemma mask_items w m x y : is_mask m x y -> (x <= y <= 32)%nat -> word_bits (Z.land w m) = replicate x false ++ take (y - x) (drop x (word_bits w)) ++ replicate (32 - y) false.
Proof.
  intros Hm Hxy. apply list_eq_same_length with (n := 32%nat); [|done|].
  { rewrite !length_app, !length_replicate, length_take, length_drop, word_bits_length. lia. }
  intros k u v Hk Hu Hv. rewrite word_bits_lookup in Hu by done. apply (inj Some) in Hu as <-. rewrite Z.land_spec, Hm by done.
  destruct (Nat.leb_spec x k); simpl; [|rewrite lookup_app_l, lookup_replicate_2 in Hv by (rewrite ?length_replicate; lia); rewrite andb_false_r; congruence].
  rewrite lookup_app_r, length_replicate in Hv by (rewrite length_replicate; lia). destruct (Nat.ltb_spec k y).
  - rewrite lookup_app_l, lookup_take_lt, lookup_drop, word_bits_lookup in Hv by (rewrite ?length_take, ?length_drop, ?word_bits_length; lia).
    rewrite andb_true_r. replace (x + (k - x))%nat with k in Hv by lia. congruence.
  - rewrite lookup_app_r in Hv by (rewrite ?length_take, ?length_drop, ?word_bits_length; lia). rewrite length_take, length_drop, word_bits_length in Hv.
    rewrite lookup_replicate_2 in Hv by lia. rewrite andb_false_r. congruence.
Qed.

Lemma mask_from r : (r < 32)%nat -> is_mask (Z.ones (32 - Z.of_nat r)) r 32.
Proof.
  intros Hr k Hk. destruct (Nat.leb_spec r k); [|rewrite Z.ones_spec_high by lia; done].
  rewrite Z.ones_spec_low by lia. destruct (Nat.ltb_spec k 32); [done|lia].
Qed.

Lemma ones_u32 r : (r < 32)%nat -> u_range 32 (Z.ones (32 - Z.of_nat r)).
Proof. intros Hr. rewrite Z.ones_equiv. assert (0 < 2 ^ (32 - Z.of_nat r) <= 2 ^ 32) by (split; [apply Z.pow_pos_nonneg|apply Z.pow_le_mono_r]; lia). unfold u_range. lia. Qed.

Lemma sim_next b i : bm_ok b -> 0 <= i < item_count_ b -> simulates b (OpNext i).
Proof.
  intros (l & Ho & Hc) Hi. exists b. split; [|split; [by exists l|done]]. pose proof (so_bounds b l Ho). pose proof (so_items _ _ Ho). pose proof (so_len _ _ Ho) as Hlen.
  unfold run_op, spec_op, Next. simpl. assert (to_u32 (i + 1) = i + 1) as -> by (apply u_wrap_id; unfold u_range; lia). destruct (i + 1 <? item_count_ b) eqn:E; zbool.
  2: { rewrite drop_ge by (rewrite (view_length b l Ho); lia). done. }
  destruct (item_word b l (i + 1) Ho ltac:(lia)) as (q & r & w & Hqr & Hr & Hw & Rw & Hq & -> & -> & Hv). destruct (_ <? slot_count_ b) eqn:E2; zbool; [|lia].
  rewrite (first_view b l) by (done || lia). rewrite Hqr, <- (drop_drop (bits l) r), <- bits_drop, (drop_S l w q Hw), bits_cons, drop_app_le by (rewrite word_bits_length; lia).
  unfold words. rewrite (so_data _ _ Ho). cbn [mbind outcome_bind]. rewrite (at_index_nat l), Hw. cbn [mbind outcome_bind]. rewrite next_mask by lia. cbn [mbind outcome_bind].
  pose proof (mask_items w _ _ _ (mask_from r Hr) ltac:(lia)) as Hm. rewrite (take_ge (drop r _)), Nat.sub_diag, app_nil_r in Hm by (rewrite length_drop, word_bits_length; lia).
  rewrite first_true_app, length_drop, word_bits_length. destruct (_ =? 0) eqn:E3; zbool; simpl negb; cbv iota.
  - rewrite E3, word_bits_zero in Hm. assert (first_true (drop r (word_bits w)) = None) as ->.
    { apply first_true_false. assert (drop r (word_bits w) = drop r (replicate 32 false)) as -> by (rewrite Hm, drop_app_length'; [done|by rewrite length_replicate]). apply Forall_drop, Forall_false_replicate. }
    replace (Z.of_nat q + 1) with (Z.of_nat (S q)) by lia. replace (Z.to_nat (slot_count_ b - Z.of_nat q - 1)) with (length l - S q)%nat by lia.
    rewrite (begin_loop l _ (so_words _ _ Ho)) by lia. rewrite take_ge by (rewrite length_drop; lia). destruct (first_true _) as [k|]; cbn; [|done]. do 3 f_equal. lia.
  - destruct (clz_first _ (u32_land w _ Rw (ones_u32 _ Hr)) E3) as (-> & Hf & Hlog). rewrite Hm, first_true_app, first_true_false, length_replicate in Hf by apply Forall_false_replicate.
    cbn [mbind outcome_bind]. unfold to_u32, SLOT_SIZE. rewrite u_wrap_id by (unfold u_range; lia).
    destruct (first_true (drop r (word_bits w))) as [k|]; simpl in Hf; [|done]. apply (inj Some) in Hf. cbn. do 3 f_equal. lia.
Qed.

(** ** Ranges *)

(** The number of items from [a] up to [c]. *)
Definition seg (l : list Z) (a c : nat) : nat := count_true (take (c - a) (drop a (bits l))).

Lemma seg_add l a m c : (a <= m <= c)%nat -> seg l a c = (seg l a m + seg l m c)%nat.
Proof.
  intros H. unfold seg. rewrite <- count_true_app. f_equal. replace (c - a)%nat with ((m - a) + (c - m))%nat by lia.
  rewrite <- (take_drop (m - a) (take (m - a + (c - m)) _)). rewrite take_take, Nat.min_l by lia. f_equal.
  rewrite skipn_firstn_comm, drop_drop. f_equal; [lia|]. f_equal. lia.
Qed.

Lemma seg_empty l a : seg l a a = 0%nat.
Proof. unfold seg. by rewrite Nat.sub_diag, take_0. Qed.

Lemma seg_words l i j : seg l (32 * i) (32 * j) = count_true (bits (take (j - i) (drop i l))).
Proof. unfold seg. rewrite bits_take, bits_drop. do 2 f_equal. lia. Qed.

Lemma seg_word l q w x y : l !! q = Some w -> (x <= y <= 32)%nat -> seg l (32 * q + x) (32 * q + y) = count_true (take (y - x) (drop x (word_bits w))).
Proof.
  intros Hw Hxy. unfold seg. rewrite <- (drop_drop (bits l) x), <- bits_drop, (drop_S l w q Hw), bits_cons.
  rewrite drop_app_le, take_app_le by (rewrite ?length_drop, word_bits_length; lia). do 2 f_equal. lia.
Qed.

Lemma seg_masked l q w m x y : l !! q = Some w -> is_mask m x y -> (x <= y <= 32)%nat -> seg l (32 * q + x) (32 * q + y) = count_true (word_bits (Z.land w m)).
Proof.
  intros Hw Hm Hxy. rewrite (seg_word _ _ w), (mask_items w m x y), !count_true_app, !(count_true_false (replicate _ _)) by (done || apply Forall_false_replicate). lia.
Qed.

Lemma seg_le l a c : (seg l a c <= c - a)%nat.
Proof. unfold seg. etransitivity; [apply count_true_le|]. rewrite length_take. lia. Qed.

Lemma items_seg b l i n : slots_ok b l -> 0 <= i -> 0 <= n -> i + n <= item_count_ b -> count_true (items (view b) i n) = seg l (Z.to_nat i) (Z.to_nat (i + n)).
Proof.
  intros Ho Hi Hn Hb. unfold items, view, seg. rewrite (so_data _ _ Ho). simpl. rewrite skipn_firstn_comm, take_take. f_equal. f_equal. lia.
Qed.

Lemma count_zero w : u_range 32 w -> (Z.of_nat (count_true (word_bits w)) =? 0) = (w =? 0).
Proof.
  intros Rw. destruct (w =? 0) eqn:E; zbool; [by subst w|]. apply Z.eqb_neq. destruct (clz_first w Rw E) as (_ & Hf & _). intros Hc.
  rewrite first_true_false in Hf; [done|]. apply Forall_forall. intros [] Hx; [|done]. assert (0 < count_true (word_bits w))%nat; [|lia].
  unfold count_true. assert (true ∈ filter (fun x => x = true) (word_bits w)) as Hin by (by apply list_elem_of_filter). destruct (filter _ _); [by apply not_elem_of_nil in Hin|simpl; lia].
Qed.

Lemma count_while k : forall w count, u_range 32 w -> (k <= 32)%nat -> Forall (fun x => x = false) (drop k (word_bits w)) -> 0 <= count -> count + Z.of_nat k < 2 ^ 32 ->
  CountWhile (S k) w count = Ret (count + Z.of_nat (count_true (word_bits w))).
Proof.
  induction k as [|k IH]; intros w count Rw Hk Hf Hc Ho.
  - rewrite drop_0 in Hf. pose proof (count_zero w Rw) as Hz. rewrite count_true_false in * by done. destruct (w =? 0) eqn:E; [|done]. cbn [CountWhile]. rewrite E. f_equal. lia.
  - remember (S k) as k1. cbn [CountWhile]. destruct (w =? 0) eqn:E.
    { apply Z.eqb_eq in E as ->. rewrite word_bits_zero, count_true_false by apply Forall_false_replicate. f_equal. lia. }
    subst k1. change 0x80000000 with (2 ^ 31). rewrite land_pow2_zero by done. assert (word_bits w = Z.testbit w 31 :: drop 1 (word_bits w)) as Hd by done. rewrite Hd, count_true_cons.
    assert (to_u32 (count + 1) = count + 1) as -> by (apply u_wrap_id; unfold u_range; lia). pose proof (word_bits_shift w) as Hs.
    assert (count_true (word_bits (to_u32 (Z.shiftl w 1))) = count_true (drop 1 (word_bits w))) as Hcs by (rewrite Hs, count_true_app; change (count_true [false]) with 0%nat; lia).
    assert (Forall (fun x => x = false) (drop k (word_bits (to_u32 (Z.shiftl w 1))))) as Hf'.
    { rewrite Hs. destruct (decide (k <= 31)%nat) as [Hle|]; [|lia]. rewrite drop_app_le by (rewrite length_drop, word_bits_length; lia). apply Forall_app. split; [|by constructor].
      rewrite drop_drop. exact Hf. }
    destruct (Z.testbit w 31); cbn [negb]; rewrite IH by (done || lia || by apply u_wrap_range); rewrite Hcs; f_equal; lia.
Qed.

Lemma word_bits_shiftl w r : (r < 32)%nat -> word_bits (to_u32 (Z.shiftl w (Z.of_nat r))) = drop r (word_bits w) ++ replicate r false.
Proof.
  intros Hr. apply list_eq_same_length with (n := 32%nat); [rewrite length_app, length_drop, length_replicate, word_bits_length; lia|done|].
  intros k x y Hk Hx Hy. rewrite word_bits_lookup in Hx by done. apply (inj Some) in Hx as <-. unfold to_u32. rewrite u_wrap_testbit, Z.shiftl_spec by lia.
  destruct (_ <? 32) eqn:E; zbool; [|lia]. simpl. destruct (decide (k < 32 - r)%nat).
  - rewrite lookup_app_l, lookup_drop, word_bits_lookup in Hy by (rewrite ?length_drop, ?word_bits_length; lia). apply (inj Some) in Hy as <-. f_equal. lia.
  - rewrite lookup_app_r, lookup_replicate_2 in Hy by (rewrite ?length_drop, ?word_bits_length; lia). apply (inj Some) in Hy as <-. apply Z.testbit_neg_r. lia.
Qed.

Lemma mask_to r : (0 < r <= 32)%nat -> is_mask (to_u32 (Z.shiftl 0xFFFFFFFF (32 - Z.of_nat r))) 0 r.
Proof.
  intros Hr k Hk. unfold to_u32. rewrite u_wrap_testbit, Z.shiftl_spec by lia. destruct (_ <? 32) eqn:E; zbool; [|lia]. simpl.
  change 0xFFFFFFFF with (Z.ones 32). destruct (Nat.ltb_spec k r); [rewrite Z.ones_spec_low by lia; done|rewrite Z.testbit_neg_r by lia; done].
Qed.

(** The words from [i] up to [j], by pairs. *)
Lemma count_words l i j count : Forall (u_range 32) l -> (i <= j <= length l)%nat -> 0 <= count -> count + 32 * Z.of_nat (j - i) < 2 ^ 32 ->
  CountMiddle l count (Z.of_nat i) (Z.of_nat j) = Ret (count + Z.of_nat (seg l (32 * i) (32 * j))).
Proof.
  intros Hl Hij Hc Ho. unfold CountMiddle. assert (forall i' n c, (i' + 2 * n = j)%nat -> (i <= i')%nat -> 0 <= c -> c + 64 * Z.of_nat n < 2 ^ 32 ->
    PairLoop (Z.to_nat ((Z.of_nat j - Z.of_nat i' + 1) / 2)) l (Z.of_nat i') c = Ret (c + Z.of_nat (seg l (32 * i') (32 * j)))) as Hpairs.
  { intros i' n c Hn Hi' Hc0 Hc1. replace (Z.of_nat j - Z.of_nat i' + 1) with (1 + Z.of_nat n * 2) by lia. rewrite Z.div_add by lia. change (1 / 2) with 0.
    replace (Z.to_nat (0 + Z.of_nat n)) with n by lia. rewrite pair_loop by (done || lia). rewrite seg_words. replace (j - i')%nat with (2 * n)%nat by lia. done. }
  destruct (Nat.Even_or_Odd (j - i)) as [[n Hn]|[n Hn]].
  - assert (Z.odd (Z.of_nat j - Z.of_nat i) = false) as -> by (replace (Z.of_nat j - Z.of_nat i) with (2 * Z.of_nat n) by lia; by rewrite Z.odd_mul).
    rewrite andb_false_r. cbn [mbind outcome_bind]. apply (Hpairs i n); lia.
  - assert (Z.odd (Z.of_nat j - Z.of_nat i) = true) as -> by (replace (Z.of_nat j - Z.of_nat i) with (Z.succ (2 * Z.of_nat n)) by lia; by rewrite Z.odd_succ, Z.even_mul).
    destruct (_ <? _) eqn:E; zbool; [|lia]. destruct (word_at l i Hl) as (w & Hw & Rw); [lia|]. cbn [andb]. rewrite at_index_nat, Hw. cbn [mbind outcome_bind].
    assert (seg l (32 * i) (32 * S i) = count_true (word_bits w)) as Hs.
    { rewrite seg_words. replace (S i - i)%nat with 1%nat by lia. rewrite (drop_S l w i Hw). done. }
    pose proof (count_true_le (word_bits w)). rewrite word_bits_length in *.
    assert ((if w =? 0 then count else to_u32 (count + CountBits w 32)) = count + Z.of_nat (count_true (word_bits w))) as ->.
    { rewrite count_bits, take_ge by (rewrite ?word_bits_length; done || lia). pose proof (count_zero w Rw) as Hz. destruct (w =? 0); [apply Z.eqb_eq in Hz; lia|].
      apply u_wrap_id. unfold u_range. lia. }
    replace (Z.of_nat i + 1) with (Z.of_nat (S i)) by lia. rewrite (Hpairs (S i) n) by lia. rewrite (seg_add l (32 * i) (32 * S i) (32 * j)), Hs by lia. f_equal. lia.
Qed.

Lemma idx_div q r : (r < 32)%nat -> Z.of_nat (32 * q + r) / 32 = Z.of_nat q.
Proof. intros Hr. destruct (idx_split q r Hr) as [H _]. by rewrite Z.shiftr_div_pow2 in H by lia. Qed.

Lemma count_shifted w x : (x < 32)%nat -> CountWhile 33 (to_u32 (Z.shiftl w (Z.of_nat x))) 0 = Ret (Z.of_nat (count_true (drop x (word_bits w)))).
Proof.
  intros Hx. rewrite (count_while 32); [|by apply u_wrap_range|lia|by constructor|lia|lia].
  rewrite word_bits_shiftl, count_true_app, (count_true_false (replicate _ _)) by (done || apply Forall_false_replicate). f_equal. lia.
Qed.

Lemma count_first l tb rb te re : Forall (u_range 32) l -> (rb < 32)%nat -> (re < 32)%nat -> (32 * tb + rb < 32 * te + re)%nat -> (32 * te + re <= 32 * length l)%nat ->
  CountFirst l (Z.of_nat (32 * tb + rb)) (Z.of_nat tb) (Z.of_nat te) (Z.of_nat re) =
    Ret (if decide (rb = 0%nat) then (0, Z.of_nat tb)
         else (Z.of_nat (seg l (32 * tb + rb) (if decide (tb = te) then 32 * te + re else 32 * S tb)%nat), Z.of_nat (S tb))).
Proof.
  intros Hl Hrb Hre Hlt Hlen. unfold CountFirst, SLOT_SIZE, SLOT_SIZE_BIT_MASK. destruct (idx_split tb rb Hrb) as [_ ->].
  destruct (decide (rb = 0%nat)) as [->|Hne]; [done|]. assert ((32 - Z.of_nat rb =? 32) = false) as -> by (apply Z.eqb_neq; lia). cbn [negb].
  destruct (word_at l tb Hl) as (w & Hw & Rw); [lia|]. rewrite (at_index_nat l), Hw. rewrite ret_bind. replace (Z.of_nat tb + 1) with (Z.of_nat (S tb)) by lia.
  destruct (decide (tb = te)) as [->|Hd].
  - rewrite Z.eqb_refl. destruct (_ =? 0) eqn:E2; zbool; [lia|]. rewrite ret_bind. rewrite count_shifted by done. rewrite ret_bind.
    rewrite (mask_items w _ _ _ (mask_to re ltac:(lia))) by lia. change (replicate 0 false) with (@nil bool). rewrite app_nil_l, drop_0, Nat.sub_0_r.
    rewrite drop_app_le by (rewrite length_take, word_bits_length; lia).
    rewrite count_true_app, (count_true_false (replicate _ _)), skipn_firstn_comm, Nat.add_0_r, (seg_word _ _ w) by (done || lia || apply Forall_false_replicate). done.
  - destruct (_ =? Z.of_nat te) eqn:E2; zbool; [lia|]. rewrite ret_bind. rewrite count_shifted by done. rewrite ret_bind.
    replace (32 * S tb)%nat with (32 * tb + 32)%nat by lia. rewrite (seg_word _ _ w), take_ge by (done || lia || (rewrite length_drop, word_bits_length; lia)). done.
Qed.

Lemma count_last l count tb te re : Forall (u_range 32) l -> (re < 32)%nat -> (32 * te + re <= 32 * length l)%nat -> 0 <= count < 2 ^ 32 - 32 ->
  CountLast l count (Z.of_nat tb) (Z.of_nat te) (Z.of_nat re) = Ret (if decide (tb <= te)%nat then count + Z.of_nat (seg l (32 * te) (32 * te + re)) else count).
Proof.
  intros Hl Hre Hlen Hc. unfold CountLast. destruct (decide (tb <= te)%nat) as [Hle|Hgt]; (destruct (_ <=? _) eqn:E; zbool; [|try lia]); try lia; [|done].
  destruct (_ =? 0) eqn:E2; zbool; cbn [andb negb].
  - replace re with 0%nat by lia. rewrite Nat.add_0_r, seg_empty. f_equal. lia.
  - destruct (word_at l te Hl) as (w & Hw & Rw); [lia|]. rewrite at_index_nat, Hw. cbn [mbind outcome_bind]. rewrite count_bits, Nat2Z.id by (done || lia).
    pose proof (seg_word l te w 0 re Hw ltac:(lia)) as Hs. rewrite Nat.add_0_r, Nat.sub_0_r, drop_0 in Hs. rewrite Hs. f_equal.
    pose proof (seg_le l (32 * te) (32 * te + re)). apply u_wrap_id. unfold u_range. lia.
Qed.

Lemma count_between b l i e : slots_ok b l -> 0 <= i -> 0 <= e < 2 ^ 32 -> let e' := Z.min (e + 1) (item_count_ b) in
  GetSetCountBetween b i e = Ret (Z.of_nat (if i <? e' then seg l (Z.to_nat i) (Z.to_nat e') else 0%nat)).
Proof.
  intros Ho Hi He. pose proof (so_bounds b l Ho) as Hb. pose proof (so_items _ _ Ho) as Hn. pose proof (so_words _ _ Ho) as Hws. simpl. unfold GetSetCountBetween. rewrite (so_data _ _ Ho).
  set (last := if e >=? item_count_ b then to_u32 (item_count_ b - 1) else e). set (e' := Z.min (e + 1) (item_count_ b)).
  assert (last = e' - 1) as ->.
  { unfold last, e'. destruct (_ >=? _) eqn:E; zbool; [unfold to_u32; rewrite u_wrap_id by (unfold u_range; lia)|]; lia. }
  assert (e' <= item_count_ b) as Hen by lia. clearbody e'. destruct (e' - 1 <? i) eqn:E1; zbool.
  { destruct (i <? e') eqn:E2; zbool; [lia|done]. }
  destruct (i <? e') eqn:E2; zbool; [|lia]. assert (to_u32 (e' - 1 + 1) = e') as -> by (unfold to_u32; rewrite u_wrap_id; unfold u_range; lia).
  destruct (div_mod_32 (Z.to_nat i)) as (tb & rb & Hib & Hrb). destruct (div_mod_32 (Z.to_nat e')) as (te & re & Hie & Hre).
  replace i with (Z.of_nat (32 * tb + rb)) by lia. replace e' with (Z.of_nat (32 * te + re)) by lia. unfold SLOT_SIZE, SLOT_SIZE_BIT_MASK.
  rewrite !idx_div by done. destruct (idx_split te re Hre) as [_ ->]. rewrite !Nat2Z.id. rewrite count_first by (done || lia). cbn [mbind outcome_bind].
  pose proof (seg_le l (32 * tb + rb) (32 * te + re)) as Hle.
  destruct (decide (rb = 0%nat)) as [->|Hrb0].
  - rewrite count_last by (done || lia). rewrite decide_True by lia. cbn [mbind outcome_bind]. pose proof (seg_le l (32 * te) (32 * te + re)).
    rewrite count_words by (done || lia). rewrite (seg_add l (32 * tb + 0) (32 * te) (32 * te + re)) by lia. rewrite Nat.add_0_r. f_equal. lia.
  - destruct (decide (tb = te)) as [<-|Hne].
    + rewrite count_last by (done || lia). rewrite decide_False by lia. cbn [mbind outcome_bind]. unfold CountMiddle. destruct (_ <? _) eqn:E3; zbool; [lia|]. cbn [mbind outcome_bind andb].
      replace (Z.of_nat tb - Z.of_nat (S tb) + 1) with 0 by lia. done.
    + pose proof (seg_le l (32 * tb + rb) (32 * S tb)). rewrite count_last by (done || lia). rewrite decide_True by lia. cbn [mbind outcome_bind]. pose proof (seg_le l (32 * te) (32 * te + re)).
      rewrite count_words by (done || lia). rewrite (seg_add l (32 * tb + rb) (32 * S tb) (32 * te + re)), (seg_add l (32 * S tb) (32 * te) (32 * te + re)) by lia. f_equal. lia.
Qed.

Lemma sim_count_between b i e : bm_ok b -> 0 <= i -> 0 <= e < 2 ^ 32 -> simulates b (OpCountBetween i e).
Proof.
  intros (l & Ho & Hc) Hi He. exists b. split; [|split; [by exists l|done]]. unfold run_op, spec_op. rewrite (count_between b l i e Ho Hi He), ret_bind.
  pose proof (so_items _ _ Ho). rewrite (view_length b l Ho), Z2Nat.id by lia. do 4 f_equal. destruct (_ <? _) eqn:E; zbool.
  - rewrite (items_seg b l) by (done || lia). by rewrite Zplus_minus.
  - unfold items. replace (Z.to_nat (Z.min (e + 1) (item_count_ b) - i)) with 0%nat by lia. done.
Qed.

(** A word that a mask keeps something of. *)
Lemma mask_hits l q w m x y : l !! q = Some w -> u_range 32 w -> is_mask m x y -> (x <= y <= 32)%nat ->
  negb (Z.land w m =? 0) = negb (Z.of_nat (seg l (32 * q + x) (32 * q + y)) =? 0).
Proof.
  intros Hw Rw Hm Hxy. rewrite (seg_masked l q w m x y) by done. f_equal. symmetry. apply count_zero. rewrite Z.land_comm. by apply u_land_r.
Qed.

Lemma mask_from_value r : (r < 32)%nat -> MaskFrom (Z.of_nat r) = Ret (Z.ones (32 - Z.of_nat r)).
Proof.
  intros Hr. unfold MaskFrom. rewrite op_mask by lia. cbn [mbind outcome_bind]. f_equal. rewrite Z.sub_1_r, <- Z.ones_equiv.
  apply Z.bits_inj'. intros j Hj. rewrite Z.lor_spec, Z.pow2_bits_eqb, !Z.testbit_ones_nonneg by lia.
  destruct (Z.ltb_spec j (31 - Z.of_nat r)), (Z.eqb_spec (31 - Z.of_nat r) j), (Z.ltb_spec j (32 - Z.of_nat r)); done || lia.
Qed.

Lemma mask_after_value r : (r < 32)%nat -> MaskAfter (Z.of_nat r) = Ret (Z.ones (31 - Z.of_nat r)).
Proof. intros Hr. unfold MaskAfter. rewrite op_mask by lia. cbn [mbind outcome_bind]. f_equal. by rewrite Z.sub_1_r, <- Z.ones_equiv. Qed.

Lemma ones_testbit n k : 0 <= n -> (k < 32)%nat -> Z.testbit (Z.ones n) (31 - Z.of_nat k) = (31 - Z.of_nat k <? n).
Proof. intros Hn Hk. apply Z.testbit_ones_nonneg; lia. Qed.

Lemma mask_upto r : (r < 32)%nat -> is_mask (not_u32 (Z.ones (31 - Z.of_nat r))) 0 (S r).
Proof.
  intros Hr k Hk. rewrite not_u32_testbit, ones_testbit by lia. simpl. destruct (Z.ltb_spec (31 - Z.of_nat k) (31 - Z.of_nat r)), (Nat.ltb_spec k (S r)); done || lia.
Qed.

Lemma ones_sub n m : 0 <= m <= n -> n <= 32 -> to_u32 (Z.ones n - Z.ones m) = Z.shiftl (Z.ones (n - m)) m.
Proof.
  intros Hm Hn. rewrite Z.shiftl_mul_pow2, !Z.ones_equiv by lia. replace (Z.pred (2 ^ n) - Z.pred (2 ^ m)) with (2 ^ n - 2 ^ m) by lia.
  assert (2 ^ n = 2 ^ (n - m) * 2 ^ m) as -> by (rewrite <- Z.pow_add_r by lia; f_equal; lia).
  unfold to_u32. rewrite u_wrap_id; [lia|]. assert (2 ^ (n - m) * 2 ^ m <= 2 ^ 32) by (rewrite <- Z.pow_add_r by lia; apply Z.pow_le_mono_r; lia).
  assert (0 < 2 ^ (n - m)) by (apply Z.pow_pos_nonneg; lia). assert (0 < 2 ^ m) by (apply Z.pow_pos_nonneg; lia). unfold u_range. nia.
Qed.

Lemma mask_between x y : (x <= y < 32)%nat -> exists m, MaskBetween (Z.of_nat x) (Z.of_nat y) = Ret m /\ is_mask m x (S y).
Proof.
  intros Hxy. unfold MaskBetween. rewrite mask_from_value by lia. cbn [mbind outcome_bind]. rewrite mask_after_value by lia. cbn [mbind outcome_bind].
  rewrite ones_sub by lia. eexists. split; [done|]. intros k Hk. rewrite Z.shiftl_spec, Z.testbit_ones by lia.
  destruct (Nat.leb_spec x k), (Nat.ltb_spec k (S y)), (Z.leb_spec 0 (31 - Z.of_nat k - (31 - Z.of_nat y))),
    (Z.ltb_spec (31 - Z.of_nat k - (31 - Z.of_nat y)) (32 - Z.of_nat x - (31 - Z.of_nat y))); done || lia.
Qed.

Lemma any_loop l todo : Forall (u_range 32) l -> forall i, (i + todo <= length l)%nat ->
  AnyLoop todo l (Z.of_nat i) = Ret (negb (Z.of_nat (seg l (32 * i) (32 * (i + todo))) =? 0)).
Proof.
  intros Hl. induction todo as [|todo IH]; intros i Hi; [by rewrite Nat.add_0_r, seg_empty|].
  destruct (word_at l i Hl) as (w & Hw & Rw); [lia|]. cbn [AnyLoop]. rewrite at_index_nat, Hw. cbn [mbind outcome_bind].
  rewrite (seg_add l _ (32 * S i)) by lia. pose proof (seg_word l i w 0 32 Hw ltac:(lia)) as Hs. rewrite Nat.add_0_r, Nat.sub_0_r, drop_0, take_ge in Hs by (rewrite word_bits_length; lia).
  replace (32 * S i)%nat with (32 * i + 32)%nat at 1 by lia. rewrite Hs, Nat2Z.inj_add. pose proof (count_zero w Rw) as Hz. destruct (w =? 0); zbool; cbn [negb].
  - replace (Z.of_nat i + 1) with (Z.of_nat (S i)) by lia. rewrite IH by lia. replace (S i + todo)%nat with (i + S todo)%nat by lia. rewrite Hz. done.
  - f_equal. symmetry. apply negb_true_iff, Z.eqb_neq. lia.
Qed.

Lemma pos_or a c d : d = (a + c)%nat -> negb (Z.of_nat d =? 0) = negb (Z.of_nat a =? 0) || negb (Z.of_nat c =? 0).
Proof. intros ->. destruct (Z.eqb_spec (Z.of_nat a) 0), (Z.eqb_spec (Z.of_nat c) 0), (Z.eqb_spec (Z.of_nat (a + c)) 0); done || lia. Qed.

Lemma hits_value l q m x y : Forall (u_range 32) l -> (q < length l)%nat -> is_mask m x y -> (x <= y <= 32)%nat ->
  Hits l (Z.of_nat q) m = Ret (negb (Z.of_nat (seg l (32 * q + x) (32 * q + y)) =? 0)).
Proof. intros Hl Hq Hm Hxy. destruct (word_at l q Hl Hq) as (w & Hw & Rw). unfold Hits. rewrite at_index_nat, Hw, ret_bind. by rewrite (mask_hits l q w m x y). Qed.

(** The whole words of a range. *)
Lemma whole_words qb rb qe re : (rb < 32)%nat -> (re < 32)%nat -> (32 * qb + rb <= 32 * qe + re)%nat ->
  exists ts m, (if Z.of_nat rb =? 0 then Z.of_nat qb else Z.of_nat qb + 1) = Z.of_nat ts /\
    Z.to_nat ((if Z.of_nat re =? SLOT_SIZE_BIT_MASK then Z.of_nat qe else Z.of_nat qe - 1) - Z.of_nat ts + 1) = m /\ (ts + m <= S qe)%nat /\
    ((qb < qe)%nat -> ts = (if decide (rb = 0) then qb else S qb) /\ ts + m = (if decide (re = 31) then S qe else qe))%nat /\
    (qb = qe -> if decide (rb = 0 /\ re = 31) then ts = qb /\ m = 1 else m = 0)%nat.
Proof.
  intros Hrb Hre Hle. unfold SLOT_SIZE_BIT_MASK. exists (if decide (rb = 0) then qb else S qb)%nat. eexists.
  split; [destruct (decide (rb = 0%nat)), (Z.eqb_spec (Z.of_nat rb) 0); lia|]. split; [reflexivity|].
  destruct (decide (rb = 0%nat)), (Z.eqb_spec (Z.of_nat re) 0x1F), (decide (re = 31%nat)), (decide (rb = 0%nat /\ re = 31%nat)); lia.
Qed.

Lemma has_set_data b l qb rb qe re : slots_ok b l -> (rb < 32)%nat -> (re < 32)%nat -> (32 * qb + rb <= 32 * qe + re)%nat -> (Z.of_nat (32 * qe + re) < item_count_ b) ->
  HasSetData b (Z.of_nat (32 * qb + rb)) (Z.of_nat (32 * qe + re)) = Ret (negb (Z.of_nat (seg l (32 * qb + rb) (S (32 * qe + re))) =? 0)).
Proof.
  intros Ho Hrb Hre Hle Hlt. pose proof (so_bounds b l Ho) as Hb. pose proof (so_words _ _ Ho) as Hl. unfold HasSetData, SLOT_SIZE_BIT_NUM. change SLOT_SIZE_BIT_MASK with 0x1F.
  destruct (idx_split qb rb Hrb) as [-> ->]. destruct (idx_split qe re Hre) as [-> ->].
  destruct (whole_words qb rb qe re Hrb Hre Hle) as (ts & m & -> & Hm & Htm & Hlt2 & Heq). change SLOT_SIZE_BIT_MASK with 0x1F in Hm.
  assert ((Z.of_nat (32 * qb + rb) <=? Z.of_nat (32 * qe + re)) = true) as -> by (apply Z.leb_le; lia).
  assert ((Z.of_nat (32 * qe + re) <? item_count_ b) = true) as -> by (apply Z.ltb_lt; lia). unfold assert_that, words. rewrite (so_data _ _ Ho), !ret_bind.
  rewrite Hm, any_loop by (done || lia). rewrite ret_bind. destruct (decide (qb = qe)) as [<-|Hne].
  - specialize (Heq eq_refl). rewrite Z.eqb_refl. cbn [negb]. destruct (decide (rb = 0%nat /\ re = 31%nat)) as [[-> ->]|Hn].
    + destruct Heq as [-> ->]. replace (S (32 * qb + 31)) with (32 * (qb + 1))%nat by lia. rewrite Nat.add_0_r. by destruct (negb _).
    + rewrite Heq, Nat.add_0_r, seg_empty. cbn [negb Z.of_nat Z.eqb]. destruct (mask_between rb re ltac:(lia)) as (mk & Hmk & Hmask).
      assert (negb (Z.of_nat rb =? 0) || negb (Z.of_nat re =? 0x1F) = true) as ->.
      { destruct (Z.eqb_spec (Z.of_nat rb) 0), (Z.eqb_spec (Z.of_nat re) 0x1F); try done. destruct Hn. lia. }
      rewrite Hmk, ret_bind. rewrite (hits_value l qb mk rb (S re)) by (done || lia). by rewrite Nat.add_succ_r.
  - destruct Hlt2 as [Hts Htm2]; [lia|]. assert ((Z.of_nat qb =? Z.of_nat qe) = false) as -> by (apply Z.eqb_neq; lia). cbn [negb].
    set (mid := negb (Z.of_nat (seg l (32 * ts) (32 * (ts + m))) =? 0)). set (first := negb (Z.of_nat (seg l (32 * qb + rb) (32 * ts)) =? 0)).
    set (last := negb (Z.of_nat (seg l (32 * (ts + m)) (S (32 * qe + re))) =? 0)).
    assert (negb (Z.of_nat (seg l (32 * qb + rb) (S (32 * qe + re))) =? 0) = mid || (first || last)) as ->.
    { rewrite orb_assoc, (orb_comm mid first), <- orb_assoc. unfold first, mid, last. rewrite <- (pos_or _ _ (seg l (32 * ts) (S (32 * qe + re)))).
      - apply pos_or. apply seg_add. destruct (decide (rb = 0%nat)), (decide (re = 31%nat)); lia.
      - apply seg_add. destruct (decide (rb = 0%nat)), (decide (re = 31%nat)); lia. }
    assert ((if negb (Z.of_nat rb =? 0) then mask ← MaskFrom (Z.of_nat rb); Hits l (Z.of_nat qb) mask else Ret false) = Ret first) as ->.
    { unfold first. destruct (Z.eqb_spec (Z.of_nat rb) 0), (decide (rb = 0%nat)); try lia; cbn [negb].
      - rewrite Hts. replace rb with 0%nat by lia. by rewrite Nat.add_0_r, seg_empty.
      - rewrite mask_from_value by lia. rewrite ret_bind, (hits_value l qb _ rb 32) by (lia || done || by apply mask_from). by rewrite Hts, <- Nat.mul_succ_r. }
    assert ((if negb (Z.of_nat re =? 0x1F) then mask ← MaskAfter (Z.of_nat re); Hits l (Z.of_nat qe) (not_u32 mask) else Ret false) = Ret last) as ->.
    { unfold last. rewrite Htm2. destruct (Z.eqb_spec (Z.of_nat re) 0x1F), (decide (re = 31%nat)); try lia; cbn [negb].
      - replace (S (32 * qe + re)) with (32 * S qe)%nat by lia. by rewrite seg_empty.
      - rewrite mask_after_value by lia. rewrite ret_bind, (hits_value l qe _ 0 (S re)) by (lia || done || by apply mask_upto). by rewrite Nat.add_0_r, Nat.add_succ_r. }
    rewrite ret_bind. by destruct mid, first.
Qed.

Lemma sim_has_set_data b i e : bm_ok b -> 0 <= i <= e -> e < item_count_ b -> simulates b (OpHasSetData i e).
Proof.
  intros (l & Ho & Hc) Hi He. exists b. split; [|split; [by exists l|done]]. unfold run_op, spec_op. cbn [fst snd]. rewrite exists_count, (items_seg b l) by (done || lia).
  destruct (div_mod_32 (Z.to_nat i)) as (qb & rb & Hib & Hrb). destruct (div_mod_32 (Z.to_nat e)) as (qe & re & Hie & Hre).
  replace i with (Z.of_nat (32 * qb + rb)) by lia. replace e with (Z.of_nat (32 * qe + re)) by lia. rewrite (has_set_data b l) by (done || lia). rewrite ret_bind, Nat2Z.id.
  by replace (Z.to_nat (Z.of_nat (32 * qb + rb) + (Z.of_nat (32 * qe + re) + 1 - Z.of_nat (32 * qb + rb)))) with (S (32 * qe + re)) by lia.
Qed.

(** ** Copying *)

(** [l'] is [l] with the items [s] added from position [p] on. *)
Definition ored (l : list Z) (p : nat) (s : list bool) (l' : list Z) : Prop :=
  length l' = length l /\ Forall (u_range 32) l' /\
  forall k x, bits l !! k = Some x -> bits l' !! k = Some (x || (bool_decide (p <= k)%nat && default false (s !! (k - p)%nat))).

Lemma ored_nil l p : Forall (u_range 32) l -> ored l p [] l.
Proof. intros Hl. split; [done|]. split; [done|]. intros k x Hx. rewrite lookup_nil. simpl. by rewrite andb_false_r, orb_false_r. Qed.

Lemma ored_app l p s1 s2 l1 l2 : ored l p s1 l1 -> ored l1 (p + length s1) s2 l2 -> ored l p (s1 ++ s2) l2.
Proof.
  intros (L1 & _ & B1) (L2 & R2 & B2). split; [congruence|]. split; [done|]. intros k x Hx. specialize (B2 _ _ (B1 _ _ Hx)). rewrite B2. f_equal. rewrite <- orb_assoc. f_equal.
  destruct (decide (p <= k)%nat) as [Hp|Hp]; [rewrite bool_decide_true by done|rewrite (bool_decide_false _ Hp), bool_decide_false by lia; done]. simpl.
  destruct (decide (p + length s1 <= k)%nat) as [Hk|Hk].
  - rewrite bool_decide_true by done. rewrite lookup_app_r, (lookup_ge_None_2 s1) by lia. simpl. do 2 f_equal. lia.
  - rewrite bool_decide_false, lookup_app_l by lia. simpl. apply orb_false_r.
Qed.

Lemma ored_pad l p n s m l' : ored l p (replicate n false ++ s ++ replicate m false) l' -> ored l (p + n) s l'.
Proof.
  intros (L & R & B). split; [done|]. split; [done|]. intros k x Hx. rewrite (B k x Hx). do 2 f_equal.
  destruct (decide (p <= k)%nat) as [Hp|Hp]; [rewrite bool_decide_true by done|rewrite (bool_decide_false _ Hp), bool_decide_false by lia; done]. simpl.
  destruct (decide (p + n <= k)%nat) as [Hk|Hk].
  - rewrite bool_decide_true, lookup_app_r, length_replicate by (rewrite ?length_replicate; lia). simpl. replace (k - p - n)%nat with (k - (p + n))%nat by lia.
    destruct (decide (k - (p + n) < length s)%nat); [by rewrite lookup_app_l|]. rewrite lookup_app_r, (lookup_ge_None_2 s) by lia.
    destruct (replicate m false !! _) as [y|] eqn:E; [|done]. by apply lookup_replicate in E as [-> _].
  - rewrite bool_decide_false, lookup_app_l, lookup_replicate_2 by (rewrite ?length_replicate; lia). done.
Qed.

(** [*addr |= v] *)
Lemma or_slot_ored l a v : Forall (u_range 32) l -> (a < length l)%nat -> u_range 32 v ->
  exists l', or_slot l (Z.of_nat a) v = Ret l' /\ ored l (32 * a) (word_bits v) l'.
Proof.
  intros Hl Ha Rv. destruct (word_at l a Hl Ha) as (w & Hw & Rw). unfold or_slot. rewrite at_index_nat, Hw, ret_bind, set_index_in, Nat2Z.id by lia.
  eexists. split; [done|]. split; [apply length_insert|]. split; [apply Forall_insert; [done|by apply u32_lor]|]. intros k x Hx.
  destruct (div_mod_32 k) as (q & r & -> & Hr). rewrite bits_lookup in Hx |- * by done. destruct (decide (q = a)) as [->|Hne].
  - rewrite list_lookup_insert_eq by done. rewrite Hw in Hx. apply (inj Some) in Hx as <-. cbn [fmap option_fmap option_map]. rewrite Z.lor_spec, bool_decide_true by lia.
    replace (32 * a + r - 32 * a)%nat with r by lia. by rewrite word_bits_lookup.
  - rewrite list_lookup_insert_ne by done. rewrite Hx. f_equal. destruct (decide (32 * a <= 32 * q + r)%nat); [|rewrite bool_decide_false by done; simpl; by rewrite orb_false_r].
    rewrite (lookup_ge_None_2 (word_bits v)) by (rewrite word_bits_length; lia). simpl. by rewrite andb_false_r, orb_false_r.
Qed.

Lemma word_bits_shiftr w r : u_range 32 w -> (r <= 32)%nat -> word_bits (Z.shiftr w (Z.of_nat r)) = replicate r false ++ take (32 - r) (word_bits w).
Proof.
  intros Rw Hr. apply list_eq_same_length with (n := 32%nat); [rewrite length_app, length_take, length_replicate, word_bits_length; lia|done|].
  intros k x y Hk Hx Hy. rewrite word_bits_lookup in Hx by done. apply (inj Some) in Hx as <-. rewrite Z.shiftr_spec by lia. destruct (decide (k < r)%nat).
  - rewrite lookup_app_l, lookup_replicate_2 in Hy by (rewrite ?length_replicate; lia). apply (inj Some) in Hy as <-. apply (u_testbit_high 32); [done|lia].
  - rewrite lookup_app_r, length_replicate, lookup_take_lt, word_bits_lookup in Hy by (rewrite ?length_replicate; lia). apply (inj Some) in Hy as <-. f_equal. lia.
Qed.

Lemma u32_shiftr w r : u_range 32 w -> 0 <= r -> u_range 32 (Z.shiftr w r).
Proof.
  intros Rw Hr. apply u_bits; [done|apply Z.shiftr_nonneg, Rw|]. intros j Hj. rewrite Z.shiftr_spec by lia. apply (u_testbit_high 32); [done|lia].
Qed.

(** Two words at once. *)
Lemma or_slots_ored l a v1 v2 : Forall (u_range 32) l -> (S a < length l)%nat -> u_range 32 v1 -> u_range 32 v2 ->
  exists l', (l1 ← or_slot l (Z.of_nat a) v1; or_slot l1 (Z.of_nat a + 1) v2) = Ret l' /\ ored l (32 * a) (word_bits v1 ++ word_bits v2) l'.
Proof.
  intros Hl Ha R1 R2. destruct (or_slot_ored l a v1) as (l1 & -> & H1); [done|lia|done|]. rewrite ret_bind. replace (Z.of_nat a + 1) with (Z.of_nat (S a)) by lia.
  destruct (or_slot_ored l1 (S a) v2) as (l2 & -> & H2); [apply H1|destruct H1 as (-> & _); lia|done|]. exists l2. split; [done|].
  eapply ored_app; [done|]. rewrite word_bits_length. by replace (32 * a + 32)%nat with (32 * S a)%nat by lia.
Qed.

(** One word of the source. *)
Lemma copy_word l a off value : Forall (u_range 32) l -> u_range 32 value -> (off < 32)%nat -> (32 * a + off + 32 < 32 * length l + (if decide (off = 0%nat) then 32 else 0))%nat ->
  exists l', (l1 ← or_slot l (Z.of_nat a) (Z.shiftr value (Z.of_nat off));
    if negb (Z.of_nat off =? 0) then or_slot l1 (Z.of_nat a + 1) (to_u32 (Z.shiftl value (32 - Z.of_nat off))) else Ret l1) = Ret l' /\ ored l (32 * a + off) (word_bits value) l'.
Proof.
  intros Hl Rv Hoff Hlen. destruct (decide (off = 0%nat)) as [->|Hne].
  - destruct (or_slot_ored l a value) as (l1 & Hor & H1); [done|lia|done|]. change (Z.shiftr value (Z.of_nat 0)) with value. rewrite Hor. exists l1. split; [done|by rewrite Nat.add_0_r].
  - assert ((Z.of_nat off =? 0) = false) as -> by (apply Z.eqb_neq; lia). cbn [negb].
    destruct (or_slots_ored l a (Z.shiftr value (Z.of_nat off)) (to_u32 (Z.shiftl value (32 - Z.of_nat off)))) as (l' & -> & H');
      [done|lia|apply u32_shiftr; [done|lia]|by apply u_wrap_range|]. exists l'. split; [done|]. apply (ored_pad _ _ _ _ (32 - off)).
    replace (32 - Z.of_nat off) with (Z.of_nat (32 - off)) in H' by lia. rewrite word_bits_shiftr, word_bits_shiftl in H' by (done || lia).
    rewrite <- app_assoc, (app_assoc (take _ _)), take_drop in H'. exact H'.
Qed.

(** The last word of the source, of which [n] items are copied. *)
Lemma copy_rest l a off value n : Forall (u_range 32) l -> u_range 32 value -> (off < 32)%nat -> (0 < n <= 32)%nat -> (32 * a + off + n <= 32 * length l)%nat ->
  exists l', (if Z.of_nat n <=? 32 - Z.of_nat off then
      or_slot l (Z.of_nat a) (to_u32 (Z.shiftl (Z.shiftr value (32 - Z.of_nat n)) (32 - Z.of_nat off - Z.of_nat n)))
    else
      l1 ← or_slot l (Z.of_nat a) (Z.shiftr value (Z.of_nat off));
      or_slot l1 (Z.of_nat a + 1) (to_u32 (Z.shiftl (Z.shiftr value (32 - Z.of_nat n)) (32 - Z.of_nat n + (32 - Z.of_nat off))))) = Ret l' /\
    ored l (32 * a + off) (take n (word_bits value)) l'.
Proof.
  intros Hl Rv Hoff Hn Hlen. replace (32 - Z.of_nat n) with (Z.of_nat (32 - n)) by lia. pose proof (word_bits_shiftr value (32 - n) Rv ltac:(lia)) as Hsr.
  replace (32 - (32 - n))%nat with n in Hsr by lia. destruct (Z.leb_spec (Z.of_nat n) (32 - Z.of_nat off)).
  - replace (32 - Z.of_nat off - Z.of_nat n) with (Z.of_nat (32 - off - n)) by lia.
    destruct (or_slot_ored l a (to_u32 (Z.shiftl (Z.shiftr value (Z.of_nat (32 - n))) (Z.of_nat (32 - off - n))))) as (l' & -> & H'); [done|lia|by apply u_wrap_range|].
    exists l'. split; [done|]. apply (ored_pad _ _ _ _ (32 - off - n)). rewrite word_bits_shiftl, Hsr, drop_app_le, drop_replicate, <- app_assoc in H' by (rewrite ?length_replicate; lia).
    by replace (32 - n - (32 - off - n))%nat with off in H' by lia.
  - replace (Z.of_nat (32 - n) + (32 - Z.of_nat off)) with (Z.of_nat (32 - n + (32 - off))) by lia.
    destruct (or_slots_ored l a (Z.shiftr value (Z.of_nat off)) (to_u32 (Z.shiftl (Z.shiftr value (Z.of_nat (32 - n))) (Z.of_nat (32 - n + (32 - off)))))) as (l' & -> & H');
      [done|lia|apply u32_shiftr; [done|lia]|by apply u_wrap_range|]. exists l'. split; [done|]. apply (ored_pad _ _ _ _ (32 - n + (32 - off))).
    rewrite word_bits_shiftr, word_bits_shiftl, Hsr, drop_app_add' in H' by (done || lia || by rewrite length_replicate).
    rewrite <- app_assoc, (app_assoc (take _ _)) in H'. rewrite <- (Nat.min_l (32 - off) n) in H' at 1 by lia. rewrite <- take_take, take_drop in H'. exact H'.
Qed.

(** The items that the loop counts from word [i] on: pairs of words among the
    first [n]. *)
Definition paired (data : list Z) (n i : nat) : nat := count_true (bits (take (2 * (n / 2) - (i + i mod 2)) (drop (i + i mod 2) data))).

Lemma paired_le data n i : (paired data n i <= 32 * (n - i))%nat.
Proof.
  unfold paired. etransitivity; [apply count_true_le|]. rewrite bits_length, length_take. pose proof (Nat.div_mod n 2 ltac:(lia)). lia.
Qed.

Lemma paired_step data n i w1 w2 : data !! i = Some w1 -> (i < n)%nat ->
  if (Nat.even i && (S i <? n)%nat)%bool then data !! S i = Some w2 -> paired data n i = (count_true (word_bits w1) + count_true (word_bits w2) + paired data n (S i))%nat
  else paired data n i = paired data n (S i).
Proof.
  intros H1 Hi. unfold paired. pose proof (Nat.div_mod n 2 ltac:(lia)). pose proof (Nat.mod_upper_bound n 2 ltac:(lia)).
  destruct (Nat.even i) eqn:Ev; cbn [andb].
  - apply Nat.even_spec in Ev as [k ->]. assert ((2 * k) mod 2 = 0 /\ S (2 * k) mod 2 = 1)%nat as [E1 E2].
    { replace (S (2 * k)) with (1 + k * 2)%nat by lia. replace (2 * k)%nat with (0 + k * 2)%nat by lia. rewrite !Nat.Div0.mod_add. done. }
    rewrite E1, E2. destruct (Nat.ltb_spec (S (2 * k)) n).
    + intros Hw2. rewrite Nat.add_0_r, (drop_S data w1), (drop_S data w2) by done. replace (2 * (n / 2) - 2 * k)%nat with (S (S (2 * (n / 2) - (S (2 * k) + 1)))) by lia.
      change (take (S (S ?m)) (w1 :: w2 :: ?t)) with (w1 :: w2 :: take m t). rewrite !bits_cons, !count_true_app.
      replace (S (2 * k) + 1)%nat with (S (S (2 * k))) by lia. lia.
    + replace (2 * (n / 2) - (2 * k + 0))%nat with 0%nat by lia. by replace (2 * (n / 2) - (S (2 * k) + 1))%nat with 0%nat by lia.
  - assert (exists k, i = S (2 * k)) as [k ->] by (apply Nat.odd_spec in Ev as [k ->] || (assert (Nat.odd i = true) as Ho by (unfold Nat.odd; by rewrite Ev); apply Nat.odd_spec in Ho as [k ->]); exists k; lia).
    assert (S (2 * k) mod 2 = 1 /\ S (S (2 * k)) mod 2 = 0)%nat as [E1 E2].
    { replace (S (S (2 * k))) with (0 + (S k) * 2)%nat by lia. replace (S (2 * k)) with (1 + k * 2)%nat by lia. rewrite !Nat.Div0.mod_add. done. }
    rewrite E1, E2. by replace (S (S (2 * k)) + 0)%nat with (S (2 * k) + 1)%nat by lia.
Qed.

Lemma even_Z n : Z.even (Z.of_nat n) = Nat.even n.
Proof. destruct (Nat.even n) eqn:E; [by apply Nat.even_spec in E as [k ->]; rewrite Nat2Z.inj_mul, Z.even_mul|].
  assert (Nat.odd n = true) as Ho by (unfold Nat.odd; by rewrite E). apply Nat.odd_spec in Ho as [k ->].
  replace (Z.of_nat (2 * k + 1)) with (Z.succ (2 * Z.of_nat k)) by lia. by rewrite Z.even_succ, Z.odd_mul.
Qed.

Lemma copy_loop data n off todo : Forall (u_range 32) data -> (n < length data)%nat -> Z.of_nat n < 2 ^ 27 -> (off < 32)%nat -> forall i l a count, (i + todo = n)%nat -> Forall (u_range 32) l ->
  (32 * (a + todo) + off < 32 * length l)%nat -> 0 <= count -> count + Z.of_nat (paired data n i) < 2 ^ 32 ->
  exists l', CopyLoop todo l (Z.of_nat a) data (Z.of_nat i) (Z.of_nat (S n)) (Z.of_nat off) count = Ret (l', Z.of_nat (a + todo), count + Z.of_nat (paired data n i)) /\
    ored l (32 * a + off) (bits (take todo (drop i data))) l'.
Proof.
  intros Hd Hn Hn2 Hoff. induction todo as [|todo IH]; intros i l a count Hi Hl Hlen Hc Ho.
  - exists l. cbn [CopyLoop]. rewrite Nat.add_0_r. split; [|by rewrite take_0; apply ored_nil]. do 2 f_equal.
    assert (paired data n i = 0%nat) as -> by (pose proof (paired_le data n i); lia). lia.
  - destruct (word_at data i Hd) as (w1 & H1 & R1); [lia|]. destruct (word_at data (S i) Hd) as (w2 & H2 & R2); [lia|]. cbn [CopyLoop]. rewrite at_index_nat, H1, ret_bind.
    destruct (copy_word l a off w1) as (l1 & Hcw & O1); [done|done|done|destruct (decide (off = 0%nat)); lia|].
    destruct (or_slot l (Z.of_nat a) _) as [l0| |]; [|done..]. rewrite ret_bind in Hcw. rewrite ret_bind, Hcw, ret_bind.
    assert (to_u32 (Z.of_nat (S n) - 1) = Z.of_nat n) as -> by (unfold to_u32; rewrite u_wrap_id by (unfold u_range; lia); lia).
    pose proof (paired_step data n i w1 w2 H1 ltac:(lia)) as Hp. rewrite even_Z. replace (Z.of_nat i + 1) with (Z.of_nat (S i)) by lia.
    assert ((Z.of_nat (S i) <? Z.of_nat n) = (S i <? n)%nat) as -> by (destruct (Z.ltb_spec (Z.of_nat (S i)) (Z.of_nat n)), (Nat.ltb_spec (S i) n); done || lia).
    assert (paired data n (S i) <= paired data n i)%nat as Hmono by (destruct (Nat.even i && (S i <? n)%nat); [specialize (Hp H2)|]; lia).
    assert ((if Nat.even i && (S i <? n)%nat then c ← read_u64 data (Z.of_nat i); Ret (to_u32 (count + CountBits64 c)) else Ret count) =
      Ret (count + Z.of_nat (paired data n i) - Z.of_nat (paired data n (S i)))) as ->.
    { destruct (Nat.even i && (S i <? n)%nat); [|rewrite Hp; f_equal; lia]. unfold read_u64. replace (Z.of_nat i + 1) with (Z.of_nat (S i)) by lia.
      rewrite (at_index_nat data i), H1, ret_bind, at_index_nat, H2, !ret_bind, count_bits64 by done. specialize (Hp H2).
      unfold to_u32. rewrite u_wrap_id by (unfold u_range; lia). f_equal. lia. }
    rewrite ret_bind. replace (Z.of_nat a + 1) with (Z.of_nat (S a)) by lia.
    destruct (IH (S i) l1 (S a) (count + Z.of_nat (paired data n i) - Z.of_nat (paired data n (S i)))) as (l' & -> & O'); [lia|apply O1|destruct O1 as (-> & _); lia|lia|lia|].
    exists l'. split; [do 2 f_equal; [f_equal; lia|lia]|]. rewrite (drop_S data w1) by done. change (take (S todo) (w1 :: ?t)) with (w1 :: take todo t).
    rewrite bits_cons. eapply ored_app; [done|]. rewrite word_bits_length. by replace (32 * a + off + 32)%nat with (32 * S a + off)%nat by lia.
Qed.

(** Counting all items that are copied. *)
Lemma paired_total data n w r : (n < length data)%nat -> data !! n = Some w -> (r <= 32)%nat ->
  count_true (take (32 * n + r) (bits data)) =
    (paired data n 0 + (if Nat.even n then 0 else count_true (word_bits (default 0%Z (data !! (n - 1)%nat)))) + count_true (take r (word_bits w)))%nat.
Proof.
  intros Hn Hw Hr. unfold paired. rewrite Nat.Div0.mod_0_l, Nat.add_0_r, drop_0, Nat.sub_0_r.
  assert (take (32 * n + r) (bits data) = bits (take n data) ++ take r (word_bits w)) as ->.
  { rewrite <- (take_drop (32 * n) (bits data)) at 1. rewrite take_app_add', <- bits_drop, <- bits_take, (drop_S data w) by (done || (rewrite length_take, bits_length; lia)).
    rewrite bits_cons, take_app_le by (rewrite word_bits_length; lia). done. }
  rewrite count_true_app. f_equal. pose proof (Nat.div_mod n 2 ltac:(lia)) as Hdm. destruct (Nat.even n) eqn:E.
  - apply Nat.even_spec in E as [k ->]. assert (2 * (2 * k / 2) = 2 * k)%nat as -> by (rewrite (Nat.mul_comm 2 k), Nat.div_mul; lia). lia.
  - assert (Nat.odd n = true) as Ho by (unfold Nat.odd; by rewrite E). apply Nat.odd_spec in Ho as [k ->].
    destruct (lookup_lt_is_Some_2 data (2 * k)) as [v Hv]; [lia|]. replace (2 * k + 1 - 1)%nat with (2 * k)%nat by lia. rewrite Hv.
    replace (2 * ((2 * k + 1) / 2))%nat with (2 * k)%nat by (rewrite Nat.mul_comm, Nat.div_add_l by lia; simpl; lia).
    replace (2 * k + 1)%nat with (S (2 * k)) by lia. rewrite (take_S_r _ _ v), bits_app, count_true_app by done. done.
Qed.

Lemma slots_of_value n r : (0 < r <= 32)%nat -> Z.of_nat (32 * n + r) < 2 ^ 32 - 31 -> slots_of (Z.of_nat (32 * n + r)) = Z.of_nat (S n).
Proof.
  intros Hr Hn. unfold slots_of, SLOT_SIZE, to_u32. rewrite u_wrap_id by (unfold u_range; lia). rewrite Z.shiftr_div_pow2 by lia. change (2 ^ 5) with 32.
  replace (Z.of_nat (32 * n + r) + 32 - 1) with (Z.of_nat (r - 1) + Z.of_nat (S n) * 32) by lia. rewrite Z.div_add, Z.div_small by lia. lia.
Qed.

Lemma copy_bits b l a off data n r : slots_ok b l -> Forall (u_range 32) data -> (off < 32)%nat -> (0 < r <= 32)%nat -> (n < length data)%nat ->
  Z.of_nat (32 * a + off + (32 * n + r)) <= item_count_ b -> 0 <= set_count_ b -> let src := take (32 * n + r) (bits data) in set_count_ b + Z.of_nat (count_true src) < 2 ^ 32 ->
  exists l', CopyBits b (Z.of_nat a) (Z.of_nat off) data (Z.of_nat (32 * n + r)) = Ret (with_count (with_words b l') (set_count_ b + Z.of_nat (count_true src))) /\
    ored l (32 * a + off) src l'.
Proof.
  intros Ho Hd Hoff Hr Hn Hlen Hc src Hover. pose proof (so_bounds b l Ho) as Hb. pose proof (so_items _ _ Ho) as Hi. destruct (word_at data n Hd Hn) as (w & Hw & Rw).
  pose proof (paired_total data n w r Hn Hw ltac:(lia)) as Htot. fold src in Htot. unfold CopyBits. assert ((Z.of_nat off <? 32) = true) as -> by (apply Z.ltb_lt; lia).
  unfold assert_that, words. rewrite (so_data _ _ Ho), !ret_bind, slots_of_value by (done || lia).
  assert (to_u32 (Z.of_nat (S n) - 1) = Z.of_nat n) as -> by (unfold to_u32; rewrite u_wrap_id by (unfold u_range; lia); lia).
  assert (to_u32 (Z.of_nat (32 * n + r) - 32 * (Z.of_nat (S n) - 1)) = Z.of_nat r) as -> by (unfold to_u32; rewrite u_wrap_id by (unfold u_range; lia); lia).
  rewrite Nat2Z.id. destruct (copy_loop data n off n Hd Hn ltac:(lia) Hoff 0 l a (set_count_ b)) as (l1 & Hloop & O1); [done|apply Ho|lia|done|lia|].
  change (Z.of_nat 0) with 0 in Hloop. rewrite Hloop, ret_bind. rewrite drop_0 in O1.
  assert ((if Z.even (Z.of_nat (S n)) && (Z.of_nat (S n) >=? 2) then v ← at_index data (Z.of_nat (S n) - 2); Ret (to_u32 (set_count_ b + Z.of_nat (paired data n 0) + CountBits v 32)) else Ret (set_count_ b + Z.of_nat (paired data n 0))) =
    Ret (set_count_ b + Z.of_nat (paired data n 0 + (if Nat.even n then 0 else count_true (word_bits (default 0%Z (data !! (n - 1)%nat))))))) as ->.
  { rewrite even_Z, Nat.even_succ. unfold Nat.odd. destruct (Nat.even n) eqn:E; cbn [negb andb]; [f_equal; lia|]. assert (n <> 0%nat) by (by intros ->).
    assert ((Z.of_nat (S n) >=? 2) = true) as -> by (rewrite Z.geb_leb; apply Z.leb_le; lia). destruct (word_at data (n - 1) Hd) as (v & Hv & Rv); [lia|].
    replace (Z.of_nat (S n) - 2) with (Z.of_nat (n - 1)) by lia. rewrite at_index_nat, Hv, ret_bind, count_bits, take_ge by (done || lia || (rewrite word_bits_length; lia)).
    rewrite Hv in Htot. simpl in *. unfold to_u32. rewrite u_wrap_id by (unfold u_range; lia). f_equal. lia. }
  rewrite ret_bind, at_index_nat, Hw, ret_bind, count_bits by (done || lia). rewrite Nat2Z.id.
  assert ((Z.of_nat r >? 0) = true) as -> by (rewrite Z.gtb_ltb; apply Z.ltb_lt; lia).
  destruct (copy_rest l1 (a + n) off w r) as (l' & Hrest & O2); [apply O1|done|done|done|destruct O1 as (-> & _); lia|]. rewrite Hrest, ret_bind. exists l'. split.
  - do 2 f_equal. unfold to_u32. rewrite u_wrap_id; [lia|unfold u_range; lia].
  - assert (src = bits (take n data) ++ take r (word_bits w)) as ->.
    { unfold src. rewrite <- (take_drop (32 * n) (bits data)). rewrite take_app_add', <- bits_drop, <- bits_take, (drop_S data w) by (done || (rewrite length_take, bits_length; lia)).
      by rewrite bits_cons, take_app_le by (rewrite word_bits_length; lia). }
    eapply ored_app; [done|]. rewrite bits_length, length_take. by replace (32 * a + off + 32 * (n `min` length data))%nat with (32 * (a + n) + off)%nat by lia.
Qed.

Lemma ored_clear l p s l' : ored l p s l' -> (p + length s <= 32 * length l)%nat -> Forall (fun x => x = false) (take (length s) (drop p (bits l))) ->
  bits l' = take p (bits l) ++ s ++ drop (p + length s) (bits l).
Proof.
  intros (L & _ & B) Hlen Hf. apply list_eq_same_length with (n := (32 * length l)%nat).
  { rewrite !length_app, length_take, length_drop, bits_length. lia. } { by rewrite bits_length, L. }
  intros k x y Hk Hx Hy. destruct (lookup_lt_is_Some_2 (bits l) k) as [z Hz]; [rewrite bits_length; lia|]. rewrite (B k z Hz) in Hx. apply (inj Some) in Hx as <-.
  destruct (decide (p <= k)%nat) as [Hp|Hp].
  - rewrite bool_decide_true by done. rewrite lookup_app_r, length_take, bits_length, Nat.min_l in Hy by (rewrite ?length_take, ?bits_length; lia). simpl. destruct (decide (k - p < length s)%nat) as [Hs|Hs].
    + rewrite lookup_app_l in Hy by done. rewrite Hy. rewrite Forall_forall in Hf. rewrite (Hf z); [done|]. apply list_elem_of_lookup. exists (k - p)%nat.
      rewrite lookup_take_lt, lookup_drop by done. by replace (p + (k - p))%nat with k by lia.
    + rewrite lookup_app_r, lookup_drop in Hy by lia. rewrite (lookup_ge_None_2 s) by lia. simpl. rewrite orb_false_r. replace (p + length s + (k - p - length s))%nat with k in Hy by lia. congruence.
  - rewrite bool_decide_false by done. rewrite lookup_app_l, lookup_take_lt in Hy by (rewrite ?length_take, ?bits_length; lia). simpl. rewrite orb_false_r. congruence.
Qed.

Lemma take_split_at {A} (v : list A) (i n : nat) : (i + n <= length v)%nat -> v = take i v ++ take n (drop i v) ++ drop (i + n) v.
Proof. intros H. rewrite <- (take_drop i v) at 1. f_equal. rewrite <- (take_drop n (drop i v)) at 1. by rewrite drop_drop. Qed.

Lemma sim_copy b i data m : bm_ok b -> op_ok (view b) (OpCopy i data m) -> simulates b (OpCopy i data m).
Proof.
  intros (l & Ho & Hc) (Hi & Hm & Him & Hd & Hdm & Hf). pose proof (so_bounds b l Ho) as Hb. pose proof (so_items _ _ Ho) as Hit. pose proof (view_length b l Ho) as Hvl.
  rewrite Hvl, Z2Nat.id in Him by lia. unfold simulates, run_op, spec_op, Copy. unfold words at 1. rewrite (so_data _ _ Ho), ret_bind. cbn [fst snd]. destruct (m =? 0) eqn:E; zbool.
  { subst m. rewrite ret_bind. exists b. split; [done|]. split; [by exists l|]. rewrite Z.add_0_r, take_0, app_nil_l, take_drop. done. }
  assert (exists n r, Z.to_nat m = (32 * n + r)%nat /\ (0 < r <= 32)%nat) as (n & r & Hnr & Hr).
  { destruct (div_mod_32 (Z.to_nat m - 1)) as (n & r & Hnr & Hr). exists n, (S r). lia. }
  destruct (div_mod_32 (Z.to_nat i)) as (a & off & Hao & Hoff). set (src := take (Z.to_nat m) (bits data)).
  assert (length src = Z.to_nat m) as Hsl by (unfold src; rewrite length_take, bits_length; lia).
  assert (view b = take (Z.to_nat i) (view b) ++ items (view b) i m ++ drop (Z.to_nat (i + m)) (view b)) as Hsplit.
  { unfold items. replace (Z.to_nat (i + m)) with (Z.to_nat i + Z.to_nat m)%nat by lia. apply take_split_at. lia. }
  assert (Z.of_nat (count_true (take (Z.to_nat i) (view b) ++ src ++ drop (Z.to_nat (i + m)) (view b))) = set_count_ b + Z.of_nat (count_true src)) as Hcount.
  { apply (f_equal count_true) in Hsplit. rewrite !count_true_app, (count_true_false (items _ _ _)) in Hsplit by done. rewrite !count_true_app. lia. }
  assert (set_count_ b + Z.of_nat (count_true src) < 2 ^ 32) as Hover.
  { rewrite <- Hcount. pose proof (count_true_le (take (Z.to_nat i) (view b) ++ src ++ drop (Z.to_nat (i + m)) (view b))) as Hle. rewrite !length_app, length_take, length_drop, Hsl in Hle. lia. }
  destruct (copy_bits b l a off data n r) as (l' & Hcopy & Hor); [done|done|done|done|lia|lia|lia|by rewrite <- Hnr|]. rewrite <- Hnr, Z2Nat.id in Hcopy by lia. rewrite <- Hnr, <- Hao in Hor. fold src in Hcopy, Hor.
  destruct (idx_split a off Hoff) as [H1 H2]. rewrite <- Hao, Z2Nat.id in H1, H2 by lia. change 31 with 0x1F. rewrite H1, H2, Hcopy, ret_bind. eexists. split; [done|].
  assert (bits l' = take (Z.to_nat i) (bits l) ++ src ++ drop (Z.to_nat (i + m)) (bits l)) as Hbits.
  { rewrite (ored_clear _ _ _ _ Hor); [rewrite Hsl; by replace (Z.to_nat i + Z.to_nat m)%nat with (Z.to_nat (i + m)) by lia|lia|].
    rewrite Hsl. unfold items, view in Hf. rewrite (so_data _ _ Ho), skipn_firstn_comm, take_take, Nat.min_l in Hf by lia. exact Hf. }
  assert (view (with_count (with_words b l') (set_count_ b + Z.of_nat (count_true src))) = take (Z.to_nat i) (view b) ++ src ++ drop (Z.to_nat (i + m)) (view b)) as Hv.
  { unfold view. simpl. rewrite Hbits, (so_data _ _ Ho), take_take, Nat.min_l, skipn_firstn_comm by lia. simpl.
    rewrite take_app_ge, length_take, bits_length, Nat.min_l by (rewrite ?length_take, ?bits_length; lia). f_equal. rewrite take_app_ge by lia. f_equal. rewrite Hsl. f_equal. lia. }
  split; [|done]. exists l'. split; [|by rewrite Hv, Hcount].
  apply slots_ok_count, (slots_ok_words b l); [done|apply Hor|apply Hor|]. rewrite Hbits, drop_app_ge by (rewrite length_take; lia). rewrite drop_app_ge by (rewrite length_take, bits_length; lia).
  rewrite drop_drop, length_take, bits_length, Hsl. replace (Z.to_nat (i + m) + _)%nat with (Z.to_nat (item_count_ b)) by lia. apply Ho.
Qed.

(** ** Resetting a range *)

(** [l'] is [l] without the items from [a] up to [c]. *)
Definition blanked (l : list Z) (a c : nat) (l' : list Z) : Prop :=
  length l' = length l /\ Forall (u_range 32) l' /\ forall k x, bits l !! k = Some x -> bits l' !! k = Some (if decide (a <= k < c)%nat then false else x).

Lemma blanked_trans l a m c a' c' l1 l2 : blanked l a m l1 -> blanked l1 a' c' l2 -> (a' <= a /\ c' = a /\ c = m \/ a' = m /\ c' = c /\ m <= c /\ a <= m)%nat -> (a' <= c' /\ a <= m)%nat ->
  blanked l (a `min` a') c l2.
Proof.
  intros (L1 & _ & B1) (L2 & R2 & B2) Hcase Hle. split; [congruence|]. split; [done|]. intros k x Hx. rewrite (B2 _ _ (B1 _ _ Hx)). f_equal.
  destruct (decide (a' <= k < c')%nat), (decide (a <= k < m)%nat), (decide (a `min` a' <= k < c)%nat); done || lia.
Qed.

Lemma blanked_empty l a : Forall (u_range 32) l -> blanked l a a l.
Proof. intros Hl. split; [done|]. split; [done|]. intros k x Hx. rewrite decide_False by lia. done. Qed.

Lemma keep_blanked l q mk x y : Forall (u_range 32) l -> (q < length l)%nat -> (forall k, (k < 32)%nat -> Z.testbit mk (31 - Z.of_nat k) = negb ((x <=? k) && (k <? y))%nat) -> (x <= y <= 32)%nat ->
  exists l', Keep l (Z.of_nat q) mk = Ret l' /\ blanked l (32 * q + x) (32 * q + y) l'.
Proof.
  intros Hl Hq Hm Hxy. destruct (word_at l q Hl Hq) as (w & Hw & Rw). unfold Keep. rewrite at_index_nat, Hw, ret_bind, set_index_in, Nat2Z.id by lia. eexists. split; [done|].
  split; [apply length_insert|]. split; [apply Forall_insert; [done|rewrite Z.land_comm; by apply u_land_r]|]. intros k z Hz. destruct (div_mod_32 k) as (q' & r & -> & Hr).
  rewrite bits_lookup in Hz |- * by done. destruct (decide (q' = q)) as [->|Hne].
  - rewrite list_lookup_insert_eq by done. rewrite Hw in Hz. apply (inj Some) in Hz as <-. cbn [fmap option_fmap option_map]. rewrite Z.land_spec, Hm by done. f_equal.
    destruct (Nat.leb_spec x r), (Nat.ltb_spec r y); cbn [andb negb]; rewrite ?andb_true_r, ?andb_false_r; [rewrite decide_True by lia|rewrite decide_False by lia..]; done.
  - rewrite list_lookup_insert_ne, Hz by done. rewrite decide_False by lia. done.
Qed.

Lemma zero_loop todo : forall i l, Forall (u_range 32) l -> (i + todo <= length l)%nat -> exists l', ZeroLoop todo l (Z.of_nat i) = Ret l' /\ blanked l (32 * i) (32 * (i + todo)) l'.
Proof.
  induction todo as [|todo IH]; intros i l Hl Hi; [exists l; rewrite Nat.add_0_r; split; [done|by apply blanked_empty]|].
  destruct (word_at l i Hl) as (w & Hw & Rw); [lia|]. cbn [ZeroLoop]. rewrite set_index_in, Nat2Z.id, ret_bind by lia. replace (Z.of_nat i + 1) with (Z.of_nat (S i)) by lia.
  destruct (keep_blanked l i 0 0 32) as (l1 & Hk & B1); [done|lia| |lia|].
  { intros k Hk. rewrite Z.testbit_0_l. destruct (Nat.ltb_spec k 32); [done|lia]. }
  unfold Keep in Hk. rewrite at_index_nat, Hw, ret_bind, Z.land_0_r, set_index_in, Nat2Z.id in Hk by lia. injection Hk as <-.
  destruct (IH (S i) (<[i := 0]> l)) as (l' & -> & B2); [apply B1|rewrite length_insert; lia|]. exists l'. split; [done|].
  pose proof (blanked_trans _ _ _ (32 * (i + S todo)) _ _ _ _ B1 B2) as B. rewrite Nat.add_0_r, Nat.min_l in B by lia. apply B; lia.
Qed.

Lemma reset_between_words b l qb rb qe re : slots_ok b l -> (rb < 32)%nat -> (re < 32)%nat -> (32 * qb + rb <= 32 * qe + re)%nat -> (Z.of_nat (32 * qe + re) < item_count_ b) ->
  exists l', ResetBetween b (Z.of_nat (32 * qb + rb)) (Z.of_nat (32 * qe + re)) = Ret (with_words b l') /\ blanked l (32 * qb + rb) (S (32 * qe + re)) l'.
Proof.
  intros Ho Hrb Hre Hle Hlt. pose proof (so_bounds b l Ho) as Hb. pose proof (so_words _ _ Ho) as Hl. unfold ResetBetween, SLOT_SIZE_BIT_NUM. change SLOT_SIZE_BIT_MASK with 0x1F.
  destruct (idx_split qb rb Hrb) as [-> ->]. destruct (idx_split qe re Hre) as [-> ->].
  destruct (whole_words qb rb qe re Hrb Hre Hle) as (ts & m & -> & Hm & Htm & Hlt2 & Heq). change SLOT_SIZE_BIT_MASK with 0x1F in Hm.
  assert ((Z.of_nat (32 * qb + rb) <=? Z.of_nat (32 * qe + re)) = true) as -> by (apply Z.leb_le; lia).
  assert ((Z.of_nat (32 * qe + re) <? item_count_ b) = true) as -> by (apply Z.ltb_lt; lia). unfold assert_that, words. rewrite (so_data _ _ Ho), !ret_bind.
  destruct (zero_loop m ts l Hl) as (l1 & Hz & B1); [lia|]. rewrite Hm, Hz, ret_bind. destruct (decide (qb = qe)) as [<-|Hne].
  - specialize (Heq eq_refl). rewrite Z.eqb_refl. cbn [negb]. destruct (decide (rb = 0%nat /\ re = 31%nat)) as [[-> ->]|Hn].
    + destruct Heq as [-> ->]. exists l1. split; [done|]. rewrite Nat.add_0_r. by replace (S (32 * qb + 31)) with (32 * (qb + 1))%nat by lia.
    + rewrite Heq in Hz. injection Hz as <-. destruct (mask_between rb re ltac:(lia)) as (mk & Hmk & Hmask).
      assert (negb (Z.of_nat rb =? 0) || negb (Z.of_nat re =? 0x1F) = true) as ->.
      { destruct (Z.eqb_spec (Z.of_nat rb) 0), (Z.eqb_spec (Z.of_nat re) 0x1F); try done. destruct Hn. lia. }
      rewrite Hmk, ret_bind. destruct (keep_blanked l qb (not_u32 mk) rb (S re)) as (l' & -> & B'); [done|lia|intros k Hk; by rewrite not_u32_testbit, Hmask by lia|lia|].
      exists l'. split; [done|]. by rewrite Nat.add_succ_r in B'.
  - destruct Hlt2 as [Hts Htm2]; [lia|]. assert ((Z.of_nat qb =? Z.of_nat qe) = false) as -> by (apply Z.eqb_neq; lia). cbn [negb].
    assert (exists l2, (if negb (Z.of_nat rb =? 0) then mask ← MaskFrom (Z.of_nat rb); Keep l1 (Z.of_nat qb) (not_u32 mask) else Ret l1) = Ret l2 /\ blanked l (32 * qb + rb) (32 * (ts + m)) l2) as (l2 & -> & B2).
    { destruct (Z.eqb_spec (Z.of_nat rb) 0), (decide (rb = 0%nat)); try lia; cbn [negb].
      - exists l1. split; [done|]. rewrite Hts in B1 at 1. by replace (32 * qb + rb)%nat with (32 * qb)%nat by lia.
      - rewrite mask_from_value, ret_bind by lia. destruct (keep_blanked l1 qb (not_u32 (Z.ones (32 - Z.of_nat rb))) rb 32) as (l2 & -> & B2);
          [apply B1|destruct B1 as (-> & _); lia|intros k Hk; rewrite not_u32_testbit by lia; f_equal; by apply mask_from|lia|]. exists l2. split; [done|].
        pose proof (blanked_trans _ _ _ (32 * (ts + m)) _ _ _ _ B1 B2) as B. rewrite Nat.min_r in B by lia. apply B; lia. }
    rewrite ret_bind. destruct (Z.eqb_spec (Z.of_nat re) 0x1F), (decide (re = 31%nat)); try lia; cbn [negb].
    + exists l2. split; [done|]. rewrite Htm2 in B2. by replace (S (32 * qe + re)) with (32 * S qe)%nat by lia.
    + rewrite mask_after_value, ret_bind by lia. destruct (keep_blanked l2 qe (Z.ones (31 - Z.of_nat re)) 0 (S re)) as (l3 & -> & B3); [apply B2|destruct B2 as (-> & _); lia| |lia|].
      { intros k Hk. rewrite ones_testbit by lia. destruct (Z.ltb_spec (31 - Z.of_nat k) (31 - Z.of_nat re)), (Nat.ltb_spec k (S re)); done || lia. }
      exists l3. split; [done|]. rewrite Htm2 in B2. pose proof (blanked_trans _ _ _ (S (32 * qe + re)) _ _ _ _ B2 B3) as B. rewrite Nat.min_l in B by lia. apply B; lia.
Qed.

(** ** Theorems *)

Lemma op_simulates b op : bm_ok b -> op_ok (view b) op -> simulates b op.
Proof.
  intros Hok Hop. pose proof Hok as (l & Ho & Hc). pose proof (so_items _ _ Ho). pose proof (view_length b l Ho) as Hvl.
  assert (Z.of_nat (length (view b)) = item_count_ b) as Hn by lia.
  assert (op = OpCount \/ op = OpUnsetCount \/ op = OpIsEmpty -> simulates b op) as Hcounts.
  { intros [->|[->| ->]]; exists b; (split; [|split; [done|done]]); unfold run_op, spec_op, GetSetCount, GetUnsetCount, IsEmpty, GetSetCount; cbn [fst snd].
    - by rewrite Hc.
    - pose proof (count_true_le (view b)). unfold to_u32. rewrite u_wrap_id by (unfold u_range; lia). do 3 f_equal. lia.
    - by rewrite exists_count, negb_involutive, Hc. }
  destruct op; simpl in Hop; rewrite ?Hn in Hop; try (by apply Hcounts; tauto);
    eauto using sim_set, sim_reset, sim_reset_all, sim_reset_all_after, sim_not, sim_assign, sim_test, sim_begin, sim_next, sim_equals, sim_count_between.
  - destruct Hop. by apply sim_and.
  - destruct Hop. by apply sim_or.
  - destruct Hop. by apply sim_minus.
  - apply sim_copy; [done|]. simpl. by rewrite Hn.
  - destruct Hop. by apply sim_count_between.
  - destruct Hop. by apply sim_has_set_data.
Qed.

(** A new bitmap. *)
Lemma new_bitmap_ok n : 0 < n < 2 ^ 32 - 31 -> bm_ok (NewBitmap n false) /\ view (NewBitmap n false) = replicate (Z.to_nat n) false.
Proof.
  intros Hn. assert (slots_of n = (n + 31) / 32) as Hs.
  { unfold slots_of, SLOT_SIZE, to_u32. rewrite u_wrap_id by (unfold u_range; lia). rewrite Z.shiftr_div_pow2 by lia. f_equal. lia. }
  pose proof (Z.div_mod (n + 31) 32). pose proof (Z.mod_pos_bound (n + 31) 32).
  assert (view (NewBitmap n false) = replicate (Z.to_nat n) false) as Hv.
  { unfold view, NewBitmap. simpl. rewrite bits_replicate_zero, take_replicate, Hs. f_equal. lia. }
  split; [|done]. exists (replicate (Z.to_nat (slots_of n)) 0). split.
  - split; simpl; try done; [rewrite length_replicate; lia|by apply Forall_replicate|]. rewrite bits_replicate_zero, drop_replicate. apply Forall_false_replicate.
  - rewrite Hv, count_true_false; [done|apply Forall_false_replicate].
Qed.

Fixpoint run_ops (b : Bitmap) (ops : list bm_op) : outcome (Bitmap * list answer) :=
  match ops with
  | [] => Ret (b, [])
  | op :: rest => '(b, x) ← run_op b op; '(b, xs) ← run_ops b rest; Ret (b, x :: xs)
  end.

Fixpoint spec_ops (v : list bool) (ops : list bm_op) : list bool * list answer :=
  match ops with
  | [] => (v, [])
  | op :: rest => let '(v, x) := spec_op v op in let '(v, xs) := spec_ops v rest in (v, x :: xs)
  end.

Fixpoint ops_ok (v : list bool) (ops : list bm_op) : Prop :=
  match ops with
  | [] => True
  | op :: rest => op_ok v op /\ ops_ok (spec_op v op).1 rest
  end.

Lemma ops_simulate ops : forall b, bm_ok b -> ops_ok (view b) ops ->
  exists b', run_ops b ops = Ret (b', (spec_ops (view b) ops).2) /\ bm_ok b' /\ view b' = (spec_ops (view b) ops).1.
Proof.
  induction ops as [|op ops IH]; intros b Hok Hops; [by exists b|]. destruct Hops as [Hop Hops]. destruct (op_simulates b op Hok Hop) as (b1 & Hrun & Hok1 & Hv1).
  simpl. rewrite Hrun. simpl. rewrite <- Hv1 in Hops. destruct (IH b1 Hok1 Hops) as (b' & -> & Hok' & Hv'). simpl.
  destruct (spec_op (view b) op) as [v x]. simpl in *. subst v. destruct (spec_ops (view b1) ops) as [v' xs]. by exists b'.
Qed.

(** C15: Bitmaps implement sequences of booleans.  A new bitmap holds [n] times false,
    and every sequence of these operations - setting and resetting single items and
    all items after one, [&], [|] with its unrolled loop, [-], [~], copying bits from
    another array at any offset into items that are false, assignment, and the queries
    for items, for counts of all and of a range, for the first and the next item, for
    a range that holds an item, and for equality - with indexes in range returns what
    the operations on sequences give and leaves what they leave.  No access is out of
    range and the count is always that of the items that are set.  [ResetBetween] and
    the construction of a bitmap with all items set are not among the operations. *)
Theorem bitmap_refines_bits n ops : 0 < n < 2 ^ 32 - 31 -> ops_ok (replicate (Z.to_nat n) false) ops ->
  exists b, run_ops (NewBitmap n false) ops = Ret (b, (spec_ops (replicate (Z.to_nat n) false) ops).2) /\
    view b = (spec_ops (replicate (Z.to_nat n) false) ops).1 /\ GetSetCount b = Z.of_nat (count_true (view b)).
Proof.
  intros Hn Hops. destruct (new_bitmap_ok n Hn) as [Hok Hv]. rewrite <- Hv in Hops |- *. destruct (ops_simulate ops _ Hok Hops) as (b & Hrun & (l & _ & Hc) & Hb).
  by exists b.
Qed.

Lemma bitmap_refines_bits_witness :
  exists b, run_ops (NewBitmap 70 false) [OpSet 3; OpCopy 30 [0xF0000000; 0x80000000] 33; OpNext 3; OpNot; OpCountBetween 0 69; OpResetAllAfter 64; OpHasSetData 65 69] =
    Ret (b, [Yes true; Done; Number 30; Done; Number 64; Done; Yes false]).
Proof.
  destruct (bitmap_refines_bits 70 [OpSet 3; OpCopy 30 [0xF0000000; 0x80000000] 33; OpNext 3; OpNot; OpCountBetween 0 69; OpResetAllAfter 64; OpHasSetData 65 69]) as (b & Hb & _).
  - lia.
  - split; [vm_compute; split; [discriminate|reflexivity]|].
    split; [split_and!; [lia|lia|vm_compute; discriminate|repeat constructor; vm_compute; (discriminate || reflexivity)|vm_compute; discriminate|by repeat constructor]|].
    split; [vm_compute; split; [discriminate|reflexivity]|]. split; [exact I|]. split; [cbn [op_ok]; lia|]. split; [vm_compute; split; [discriminate|reflexivity]|].
    split; [|exact I]. split; [lia|vm_compute; reflexivity].
  - exists b. rewrite Hb. vm_compute. reflexivity.
Defined.

(** [ResetBetween] resets the items of a range and no others; but it does not
    count them, so that the count is wrong if there were any. *)
Lemma bitmap_reset_between b i e : bm_ok b -> 0 <= i <= e -> e < item_count_ b ->
  exists b', ResetBetween b i e = Ret b' /\ view b' = take (Z.to_nat i) (view b) ++ replicate (Z.to_nat (e + 1 - i)) false ++ drop (Z.to_nat (e + 1)) (view b) /\
    GetSetCount b' = GetSetCount b.
Proof.
  intros (l & Ho & Hc) Hi He. pose proof (so_bounds b l Ho). pose proof (view_length b l Ho) as Hvl.
  destruct (div_mod_32 (Z.to_nat i)) as (qb & rb & Hib & Hrb). destruct (div_mod_32 (Z.to_nat e)) as (qe & re & Hie & Hre).
  destruct (reset_between_words b l qb rb qe re) as (l' & Hr & L & _ & B); [done|done|done|lia|lia|]. rewrite <- Hib, <- Hie, !Z2Nat.id in Hr by lia.
  exists (with_words b l'). split; [done|]. split; [|done]. rewrite <- Hib, <- Hie in B. apply list_eq_same_length with (n := Z.to_nat (item_count_ b)).
  { rewrite !length_app, length_take, length_drop, length_replicate, Hvl. lia. } { unfold view. simpl. rewrite length_take, bits_length. lia. }
  intros k x y Hk Hx Hy. unfold view in Hx. simpl in Hx. rewrite lookup_take_lt in Hx by done.
  destruct (lookup_lt_is_Some_2 (bits l) k) as [z Hz]; [rewrite bits_length; lia|]. rewrite (B k z Hz) in Hx. apply (inj Some) in Hx as <-.
  assert (view b !! k = Some z) as Hvk by (unfold view; rewrite (so_data _ _ Ho), lookup_take_lt by done; done).
  destruct (decide (k < Z.to_nat i)%nat); [rewrite decide_False by lia; rewrite lookup_app_l, lookup_take_lt in Hy by (rewrite ?length_take; lia); congruence|].
  rewrite lookup_app_r, length_take, Nat.min_l in Hy by (rewrite ?length_take; lia). destruct (decide (k < S (Z.to_nat e))%nat).
  - rewrite decide_True by lia. rewrite lookup_app_l, lookup_replicate_2 in Hy by (rewrite ?length_replicate; lia). congruence.
  - rewrite decide_False by lia. rewrite lookup_app_r, length_replicate, lookup_drop in Hy by (rewrite ?length_replicate; lia).
    replace (Z.to_nat (e + 1) + (k - Z.to_nat i - Z.to_nat (e + 1 - i)))%nat with k in Hy by lia. congruence.
Qed.

(** A bitmap created with all items set also sets the bits behind the last item:
    after all items are reset, [Begin] finds one that does not exist. *)
Lemma bitmap_set_tail :
  exists b, run_ops (NewBitmap 2 true) [OpReset 0; OpReset 1; OpCount] = Ret (b, [Yes true; Yes true; Number 0]) /\ Begin b = Ret 2.
Proof. exists (mkBitmap 2 1 (Some [0x3FFFFFFF]) 0 false true). split; vm_compute; reflexivity. Qed.
