(* ===== verification/Bitmask.v ===== *)
(** * Bit masks of column vectors

    [storage/column_vector/bitmask.cpp], [bitmask.cppm], [bitmask_buffer.cpp] and
    [bitmask_buffer.cppm]: the mask of the null, deleted or filtered rows of a
    vector.  A mask without a buffer is all true; a buffer is allocated when the
    first bit is cleared, and is shared between masks by [ShallowCopy] and
    [Merge].  The buffers are the cells of a store, so that what is done to one
    mask is seen through the others that share its buffer. *)
From stdpp Require Import pretty.
From S2P Require Import Prelude Arrays Wire.

Local Open Scope Z_scope.

(** ** Buffers *)

Definition UNIT_BITS : Z := 64.
Definition BYTE_BITS : Z := 8.
Definition UNIT_MAX : Z := 2 ^ 64 - 1.
Definition sizeof_u64 : Z := 8.

Record BitmaskBuffer := mkBitmaskBuffer {
  units : list Z;  (** [data_ptr_] *)
  buffer_count_ : Z
}.

(** The buffers that [SharedPtr<BitmaskBuffer>] point to. *)
Abbreviation Buffers := (gmap positive BitmaskBuffer).

Definition UnitCount (capacity : Z) : Z := to_u64 (capacity + (UNIT_BITS - 1)) / UNIT_BITS.

(** [(count & (count - 1)) != 0] *)
Definition not_power_of_2 (count : Z) : bool := negb (Z.land count (to_u64 (count - 1)) =? 0).

Definition unit_bytes (us : list Z) : list Z := concat (le_bytes 8 <$> us).

Fixpoint bytes_units (n : nat) (bs : list Z) : list Z :=
  match n with
  | O => []
  | S n => le_value (take 8 bs) :: bytes_units n (drop 8 bs)
  end.

(** [Memcpy(target, source, bytes)] with [target] an array of units and
    [source] the bytes that are copied. *)
Definition copy_bytes (target source : list Z) (bytes : Z) : outcome (list Z) :=
  if (bytes <? 0) || (Z.of_nat (length source) <? bytes) || (Z.of_nat (length (unit_bytes target)) <? bytes) then UB "memcpy out of range"
  else Ret (bytes_units (length target) (take (Z.to_nat bytes) source ++ drop (Z.to_nat bytes) (unit_bytes target))).

(** [BitmaskBuffer::Initialize(count)] *)
Definition Buffer_Initialize (count : Z) : outcome BitmaskBuffer :=
  if not_power_of_2 count then Throw TypeException "Capacity need to be N power of 2."
  else Ret (mkBitmaskBuffer (replicate (Z.to_nat (UnitCount count)) UNIT_MAX) count).

(** [BitmaskBuffer::Initialize(input_ptr, count)]; [MakeUnique<u64[]>] fills the
    new array with zeros. *)
Definition Buffer_InitializeFrom (input : list Z) (count : Z) : outcome BitmaskBuffer :=
  if not_power_of_2 count then Throw TypeException "Capacity need to be N power of 2."
  else
    us ← copy_bytes (replicate (Z.to_nat (UnitCount count)) 0) (unit_bytes input) (UnitCount count * sizeof_u64);
    Ret (mkBitmaskBuffer us count).

(** A new cell of the store. *)
Definition alloc (h : Buffers) (b : BitmaskBuffer) : Buffers * positive :=
  let p := fresh (dom h) in (<[p := b]> h, p).

Definition Buffer_Make (h : Buffers) (count : Z) : outcome (Buffers * positive) :=
  b ← Buffer_Initialize count; Ret (alloc h b).

Definition Buffer_MakeFrom (h : Buffers) (input : list Z) (count : Z) : outcome (Buffers * positive) :=
  b ← Buffer_InitializeFrom input count; Ret (alloc h b).

(** ** Masks

    [data_ptr_] is the array of the buffer [buffer_ptr] points to, and null when
    [buffer_ptr] is. *)

Record Bitmask := mkBitmask {
  buffer_ptr : option positive;
  count_ : Z
}.

Definition Bitmask_new : Bitmask := mkBitmask None 0.

(** The array [data_ptr_] points to. *)
Definition data_at (h : Buffers) (p : positive) : outcome (list Z) :=
  match h !! p with Some b => Ret (units b) | None => UB "dangling pointer" end.

(** A write through [data_ptr_]. *)
Definition write_units (h : Buffers) (p : positive) (us : list Z) : Buffers :=
  alter (fun b => mkBitmaskBuffer us (buffer_count_ b)) p h.

Definition Bitmask_Reset (m : Bitmask) : Bitmask := mkBitmask None 0.

Definition Bitmask_Initialize (m : Bitmask) (count : Z) : outcome Bitmask :=
  if negb (count_ m =? 0) then Throw TypeException "Bitmask is already initialized."
  else if not_power_of_2 count then Throw TypeException "Capacity need to be N power of 2."
  else Ret (mkBitmask (buffer_ptr m) count).

Definition Bitmask_Make (count : Z) : outcome Bitmask := Bitmask_Initialize Bitmask_new count.

(** The loop of [IsAllTrue] from the unit [i], [n] units to go. *)
Fixpoint all_units (us : list Z) (i : Z) (n : nat) : outcome bool :=
  match n with
  | O => Ret true
  | S n => u ← at_index us i; if negb (u =? UNIT_MAX) : bool then Ret false else all_units us (i + 1) n
  end.

Definition IsAllTrue (h : Buffers) (m : Bitmask) : outcome bool :=
  match buffer_ptr m with
  | None => Ret true
  | Some p => us ← data_at h p; all_units us 0 (Z.to_nat (UnitCount (count_ m)))
  end.

Definition DeepCopy (h : Buffers) (m ref : Bitmask) : outcome (Buffers * Bitmask) :=
  let count := count_ ref in
  all_true ← IsAllTrue h ref;
  if all_true : bool then Ret (h, mkBitmask None count)
  else
    match buffer_ptr ref with
    | None => UB "null pointer"
    | Some p => us ← data_at h p; '(h, q) ← Buffer_MakeFrom h us count; Ret (h, mkBitmask (Some q) count)
    end.

Definition ShallowCopy (h : Buffers) (m ref : Bitmask) : outcome Bitmask :=
  let count := count_ ref in
  all_true ← IsAllTrue h ref;
  if all_true : bool then Ret (mkBitmask None count) else Ret (mkBitmask (buffer_ptr ref) count).

Definition Resize (h : Buffers) (m : Bitmask) (new_count : Z) : outcome (Buffers * Bitmask) :=
  if not_power_of_2 new_count then Throw TypeException "New capacity need to be N power of 2."
  else if new_count <? count_ m then Throw TypeException "New capacity < old capacity."
  else
    match buffer_ptr m with
    | Some p =>
        '(h, q) ← Buffer_Make h new_count;
        target ← data_at h q;
        source ← data_at h p;
        us ← copy_bytes target (unit_bytes source) (count_ m / BYTE_BITS);
        Ret (write_units h q us, mkBitmask (Some q) new_count)
    | None => Ret (h, mkBitmask None new_count)
    end.

Definition u64_index (row_index : Z) : Z := row_index / UNIT_BITS.
Definition index_in_u64 (row_index : Z) : Z := row_index - u64_index row_index * UNIT_BITS.

Definition IsTrue (h : Buffers) (m : Bitmask) (row_index : Z) : outcome bool :=
  match buffer_ptr m with
  | None => Ret true
  | Some p =>
      us ← data_at h p;
      u ← at_index us (u64_index row_index);
      Ret (negb (Z.land u (to_u64 (Z.shiftl 1 (index_in_u64 row_index))) =? 0))
  end.

Definition SetTrue (h : Buffers) (m : Bitmask) (row_index : Z) : outcome Buffers :=
  match buffer_ptr m with
  | None => Ret h
  | Some p =>
      us ← data_at h p;
      u ← at_index us (u64_index row_index);
      us ← set_index us (u64_index row_index) (Z.lor u (to_u64 (Z.shiftl 1 (index_in_u64 row_index))));
      Ret (write_units h p us)
  end.

(** The buffer of a mask, made on demand. *)
Definition ensure_buffer (h : Buffers) (m : Bitmask) : outcome (Buffers * positive) :=
  match buffer_ptr m with
  | None => Buffer_Make h (count_ m)
  | Some p => Ret (h, p)
  end.

Definition SetFalse (h : Buffers) (m : Bitmask) (row_index : Z) : outcome (Buffers * Bitmask) :=
  '(h, p) ← ensure_buffer h m;
  us ← data_at h p;
  u ← at_index us (u64_index row_index);
  us ← set_index us (u64_index row_index) (Z.land u (to_u64 (Z.lnot (to_u64 (Z.shiftl 1 (index_in_u64 row_index))))));
  Ret (write_units h p us, mkBitmask (Some p) (count_ m)).

Definition Bitmask_Set (h : Buffers) (m : Bitmask) (row_index : Z) (valid : bool) : outcome (Buffers * Bitmask) :=
  if valid then h ← SetTrue h m row_index; Ret (h, m) else SetFalse h m row_index.

Definition SetAllTrue (m : Bitmask) : Bitmask :=
  match buffer_ptr m with
  | None => m
  | Some _ => mkBitmask None (count_ m)
  end.

Fixpoint clear_units (us : list Z) (i : Z) (n : nat) : outcome (list Z) :=
  match n with
  | O => Ret us
  | S n => us ← set_index us i 0; clear_units us (i + 1) n
  end.

Definition SetAllFalse (h : Buffers) (m : Bitmask) : outcome (Buffers * Bitmask) :=
  '(h, p) ← ensure_buffer h m;
  us ← data_at h p;
  us ← clear_units us 0 (Z.to_nat (UnitCount (count_ m)));
  Ret (write_units h p us, mkBitmask (Some p) (count_ m)).

(** [while (elem) { elem &= (elem - 1); ++count_true; }] *)
Fixpoint count_elem (fuel : nat) (elem count_true : Z) : outcome Z :=
  match fuel with
  | O => UB "out of fuel"
  | S fuel =>
      if elem =? 0 then Ret count_true
      else count_elem fuel (Z.land elem (to_u64 (elem - 1))) (to_u64 (count_true + 1))
  end.

Fixpoint count_units (us : list Z) (i : Z) (n : nat) (count_true : Z) : outcome Z :=
  match n with
  | O => Ret count_true
  | S n =>
      u ← at_index us i;
      count_true ← (if u =? UNIT_MAX then Ret (to_u64 (count_true + UNIT_BITS)) else count_elem 65 u count_true);
      count_units us (i + 1) n count_true
  end.

Definition CountTrue (h : Buffers) (m : Bitmask) : outcome Z :=
  match buffer_ptr m with
  | None => Ret (count_ m)
  | Some p => us ← data_at h p; count_units us 0 (Z.to_nat (UnitCount (count_ m))) 0
  end.

Definition CountFalse (h : Buffers) (m : Bitmask) : outcome Z := n ← CountTrue h m; Ret (to_u64 (count_ m - n)).

Fixpoint and_units (us other : list Z) (i : Z) (n : nat) : outcome (list Z) :=
  match n with
  | O => Ret us
  | S n => u ← at_index us i; v ← at_index other i; us ← set_index us i (Z.land u v); and_units us other (i + 1) n
  end.

Definition Merge (h : Buffers) (m other : Bitmask) : outcome (Buffers * Bitmask) :=
  other_all ← IsAllTrue h other;
  if other_all : bool then Ret (h, m)
  else
    this_all ← IsAllTrue h m;
    m ← (if this_all : bool then ShallowCopy h m other else Ret m);
    if decide (buffer_ptr m = buffer_ptr other) then Ret (h, m)
    else if negb (count_ m =? count_ other) then Throw TypeException "Attempt to merge two bitmasks with different size."
    else
      match buffer_ptr m, buffer_ptr other with
      | Some p, Some q =>
          us ← data_at h p;
          vs ← data_at h q;
          us ← and_units us vs 0 (Z.to_nat (UnitCount (count_ m)));
          Ret (write_units h p us, m)
      | _, _ => UB "null pointer"
      end.

Fixpoint equal_units (us other : list Z) (i : Z) (n : nat) : outcome bool :=
  match n with
  | O => Ret true
  | S n => u ← at_index us i; v ← at_index other i; if negb (u =? v) : bool then Ret false else equal_units us other (i + 1) n
  end.

(** [operator==] *)
Definition Bitmask_eq (h : Buffers) (m other : Bitmask) : outcome bool :=
  if negb (count_ m =? count_ other) then Ret false
  else if decide (buffer_ptr m = buffer_ptr other) then Ret true
  else
    match buffer_ptr m, buffer_ptr other with
    | Some p, Some q => us ← data_at h p; vs ← data_at h q; equal_units us vs 0 (Z.to_nat (UnitCount (count_ m)))
    | _, _ => Ret false
    end.

(** The digits that [ToString] prints from the row [i], [n] rows to go. *)
Fixpoint row_digits (h : Buffers) (m : Bitmask) (i : Z) (n : nat) : outcome string :=
  match n with
  | O => Ret EmptyString
  | S n => b ← IsTrue h m i; s ← row_digits h m (i + 1) n; Ret (String.append (if b : bool then "1" else "0") s)
  end.

(** [ToString(from, to)], with [to] below the largest [SizeT], which the loop of
    the null case never exceeds. *)
Definition Bitmask_ToString (h : Buffers) (m : Bitmask) (from to : Z) : outcome string :=
  digits ← (match buffer_ptr m with
            | None => Ret (String.concat "" (replicate (Z.to_nat (to + 1 - from)) "1"))
            | Some _ => row_digits h m from (Z.to_nat (to - from))
            end);
  Ret (String.append "BITMASK(" (String.append (pretty (Z.to_N (to_u64 (to - from)))) (String.append "): " digits))).

(** ** Serialization *)

(** [UnitCount(count_) * sizeof(u64)] as an [i32] *)
Definition units_size (count : Z) : Z := to_i32 (to_u64 (UnitCount count * sizeof_u64)).

Definition Bitmask_GetSizeInBytes (h : Buffers) (m : Bitmask) : outcome Z :=
  all_true ← IsAllTrue h m;
  Ret (to_i32 (to_u64 ((if all_true : bool then 0 else units_size (count_ m)) + 4 + 1))).

Definition Bitmask_WriteAdv (h : Buffers) (m : Bitmask) : outcome (list Z) :=
  all_true ← IsAllTrue h m;
  let head := le_bytes 4 (to_i32 (count_ m)) ++ le_bytes 1 (Z.b2z all_true) in
  if all_true : bool then Ret head
  else
    match buffer_ptr m with
    | None => UB "null pointer"
    | Some p =>
        us ← data_at h p;
        let bytes := units_size (count_ m) in
        if (bytes <? 0) || (Z.of_nat (length (unit_bytes us)) <? bytes) then UB "memcpy out of range"
        else Ret (head ++ take (Z.to_nat bytes) (unit_bytes us))
    end.

(** [ReadAdv]; the count read is an [i32] that [Make] takes as a [SizeT]. *)
Definition Bitmask_ReadAdv (h : Buffers) : Reader (Buffers * Bitmask) :=
  count ← read_s 4;
  m ← lift (Bitmask_Make (to_u64 count));
  all_true ← read_s 1;
  if all_true =? 0 then
    let bytes := units_size (to_u64 count) in
    '(h, m) ← lift (SetAllFalse h m);
    content ← read_bytes (Z.to_nat bytes);
    match buffer_ptr m with
    | None => out_of_model "null pointer"
    | Some p => us ← lift (data_at h p); us ← lift (copy_bytes us content bytes); mret (write_units h p us, m)
    end
  else mret (h, m).
