(* ===== verification/BitmaskProps.v ===== *)
(** * Correctness of the bit masks

    The masks of [Bitmask] as vectors of booleans with reference semantics. *)
From S2P Require Import Prelude Arrays Bits Wire Bitmask.

Local Open Scope Z_scope.

(** ** Vectors of bits *)

Definition unit_bits : Z -> list bool := low_bits 64.
Definition buffer_bits (us : list Z) : list bool := concat (unit_bits <$> us).

(** A number of rows that a mask works with: none, or a power of two of at
    least a whole unit. *)
Definition is_power_of_2 (c : Z) : bool := c =? 2 ^ Z.log2 c.
Definition valid_count (c : Z) : Prop := c = 0 \/ is_power_of_2 c = true /\ 64 <= c < 2 ^ 64.

(** The mask [m] of the store [h] has the rows [l]. *)
Definition buffer_ok (us : list Z) (l : list bool) : Prop := Forall (u_range 64) us /\ buffer_bits us = l.

Definition mask_ok (h : Buffers) (m : Bitmask) (l : list bool) : Prop :=
  count_ m = Z.of_nat (length l) /\ valid_count (count_ m) /\
  match buffer_ptr m with
  | None => l = replicate (length l) true
  | Some p => l <> [] /\ exists b, h !! p = Some b /\ buffer_ok (units b) l
  end.

(** ** Operations on a number of masks *)

Record Masks := mkMasks { buffers : Buffers; masks : list Bitmask }.

Inductive mask_op :=
  | OReset (i : nat)
  | OInitialize (i : nat) (count : Z)
  | ODeepCopy (i j : nat)
  | OShallowCopy (i j : nat)
  | OResize (i : nat) (new_count : Z)
  | OSet (i : nat) (row_index : Z) (valid : bool)
  | OSetAllTrue (i : nat)
  | OSetAllFalse (i : nat)
  | OMerge (i j : nat)
  | OIsTrue (i : nat) (row_index : Z)
  | OIsAllTrue (i : nat)
  | OCountTrue (i : nat)
  | OCountFalse (i : nat).

Inductive mask_answer := MDone | MYes (b : bool) | MNumber (n : Z).

Definition mask_at {A} (l : list A) (i : nat) : outcome A :=
  match l !! i with Some x => Ret x | None => UB "no such mask" end.

Definition run_mask_op (s : Masks) (op : mask_op) : outcome (Masks * mask_answer) :=
  let h := buffers s in
  let ms := masks s in
  match op with
  | OReset i => m ← mask_at ms i; Ret (mkMasks h (<[i := Bitmask_Reset m]> ms), MDone)
  | OInitialize i c => m ← mask_at ms i; m ← Bitmask_Initialize m c; Ret (mkMasks h (<[i := m]> ms), MDone)
  | ODeepCopy i j => m ← mask_at ms i; ref ← mask_at ms j; '(h, m) ← DeepCopy h m ref; Ret (mkMasks h (<[i := m]> ms), MDone)
  | OShallowCopy i j => m ← mask_at ms i; ref ← mask_at ms j; m ← ShallowCopy h m ref; Ret (mkMasks h (<[i := m]> ms), MDone)
  | OResize i c => m ← mask_at ms i; '(h, m) ← Resize h m c; Ret (mkMasks h (<[i := m]> ms), MDone)
  | OSet i row b => m ← mask_at ms i; '(h, m) ← Bitmask_Set h m row b; Ret (mkMasks h (<[i := m]> ms), MDone)
  | OSetAllTrue i => m ← mask_at ms i; Ret (mkMasks h (<[i := SetAllTrue m]> ms), MDone)
  | OSetAllFalse i => m ← mask_at ms i; '(h, m) ← SetAllFalse h m; Ret (mkMasks h (<[i := m]> ms), MDone)
  | OMerge i j => m ← mask_at ms i; other ← mask_at ms j; '(h, m) ← Merge h m other; Ret (mkMasks h (<[i := m]> ms), MDone)
  | OIsTrue i row => m ← mask_at ms i; b ← IsTrue h m row; Ret (s, MYes b)
  | OIsAllTrue i => m ← mask_at ms i; b ← IsAllTrue h m; Ret (s, MYes b)
  | OCountTrue i => m ← mask_at ms i; n ← CountTrue h m; Ret (s, MNumber n)
  | OCountFalse i => m ← mask_at ms i; n ← CountFalse h m; Ret (s, MNumber n)
  end.

(** ** The specification

    A mask is a vector of booleans, named by a number: masks with the same
    number are the same vector. *)

Abbreviation Vectors := (list (nat * list bool)).

Definition fresh_name (vs : Vectors) : nat := S (max_list (vs.*1)).
Definition renew (vs : Vectors) (i : nat) (l : list bool) : Vectors := <[i := (fresh_name vs, l)]> vs.
Definition assign (vs : Vectors) (g : nat) (l : list bool) : Vectors := (fun v => if decide (v.1 = g) then (g, l) else v) <$> vs.
Definition trues (n : Z) : list bool := replicate (Z.to_nat n) true.

Definition spec_mask_op (vs : Vectors) (op : mask_op) : outcome (Vectors * mask_answer) :=
  match op with
  | OReset i => Ret (renew vs i [], MDone)
  | OInitialize i c =>
      v ← mask_at vs i;
      if negb (Z.of_nat (length v.2) =? 0) then Throw TypeException "Bitmask is already initialized."
      else if negb ((c =? 0) || is_power_of_2 c) then Throw TypeException "Capacity need to be N power of 2."
      else Ret (renew vs i (trues c), MDone)
  | ODeepCopy i j => v ← mask_at vs j; Ret (renew vs i v.2, MDone)
  | OShallowCopy i j =>
      v ← mask_at vs j;
      Ret (if forallb id v.2 then renew vs i v.2 else <[i := v]> vs, MDone)
  | OResize i c =>
      v ← mask_at vs i;
      if negb ((c =? 0) || is_power_of_2 c) then Throw TypeException "New capacity need to be N power of 2."
      else if c <? Z.of_nat (length v.2) then Throw TypeException "New capacity < old capacity."
      else Ret (renew vs i (v.2 ++ trues (c - Z.of_nat (length v.2))), MDone)
  | OSet i row b => v ← mask_at vs i; Ret (assign vs v.1 (<[Z.to_nat row := b]> v.2), MDone)
  | OSetAllTrue i => v ← mask_at vs i; Ret (renew vs i ((fun _ => true) <$> v.2), MDone)
  | OSetAllFalse i => v ← mask_at vs i; Ret (assign vs v.1 ((fun _ => false) <$> v.2), MDone)
  | OMerge i j =>
      v ← mask_at vs i;
      w ← mask_at vs j;
      if forallb id w.2 then Ret (vs, MDone)
      else if forallb id v.2 then Ret (<[i := w]> vs, MDone)
      else if decide (v.1 = w.1) then Ret (vs, MDone)
      else if negb (Z.of_nat (length v.2) =? Z.of_nat (length w.2)) then Throw TypeException "Attempt to merge two bitmasks with different size."
      else Ret (assign vs v.1 (zip_with andb v.2 w.2), MDone)
  | OIsTrue i row => v ← mask_at vs i; b ← mask_at v.2 (Z.to_nat row); Ret (vs, MYes b)
  | OIsAllTrue i => v ← mask_at vs i; Ret (vs, MYes (forallb id v.2))
  | OCountTrue i => v ← mask_at vs i; Ret (vs, MNumber (Z.of_nat (count_true v.2)))
  | OCountFalse i => v ← mask_at vs i; Ret (vs, MNumber (Z.of_nat (count_true (negb <$> v.2))))
  end.

(** The masks named, the rows and the counts are in range; a count that is a
    power of two is none or at least a unit. *)
Definition row_ok (vs : Vectors) (i : nat) (row : Z) : Prop := exists v, vs !! i = Some v /\ 0 <= row < Z.of_nat (length v.2).
Definition count_ok (c : Z) : Prop := 0 <= c < 2 ^ 64 /\ (is_power_of_2 c = true -> 64 <= c).
Definition mask_op_ok (vs : Vectors) (op : mask_op) : Prop :=
  match op with
  | OReset i | OSetAllTrue i | OIsAllTrue i | OCountTrue i | OCountFalse i => (i < length vs)%nat
  | OInitialize i c | OResize i c => (i < length vs)%nat /\ count_ok c
  | ODeepCopy i j | OShallowCopy i j | OMerge i j => (i < length vs)%nat /\ (j < length vs)%nat
  | OSet i row _ | OIsTrue i row => row_ok vs i row
  | OSetAllFalse i => row_ok vs i 0
  end.

(** The masks of [s] are the vectors [vs]: the rows agree, and two masks share
    a buffer exactly when they have the same name. *)
Definition shared (m m' : Bitmask) : Prop := exists p, buffer_ptr m = Some p /\ buffer_ptr m' = Some p.

Definition share_ok (ms : list Bitmask) (vs : Vectors) : Prop :=
  forall i j m m' v v', ms !! i = Some m -> ms !! j = Some m' -> vs !! i = Some v -> vs !! j = Some v' -> i <> j -> (v.1 = v'.1 <-> shared m m').

Record masks_rel (s : Masks) (vs : Vectors) : Prop := {
  mr_rows : Forall2 (fun m v => mask_ok (buffers s) m v.2) (masks s) vs;
  mr_share : share_ok (masks s) vs
}.

(** The outcomes of an operation correspond. *)
Definition mask_simulates (s : Masks) (vs : Vectors) (op : mask_op) : Prop :=
  match spec_mask_op vs op with
  | Ret (vs', a) => exists s', run_mask_op s op = Ret (s', a) /\ masks_rel s' vs'
  | Throw e msg => run_mask_op s op = Throw e msg
  | UB _ => False
  end.

(** ** Units *)

Lemma unit_bits_length u : length (unit_bits u) = 64%nat.
Proof. apply low_bits_length. Qed.

Lemma buffer_bits_length us : length (buffer_bits us) = (64 * length us)%nat.
Proof. apply blocks_length, unit_bits_length. Qed.

Lemma buffer_bits_lookup us q r : (r < 64)%nat -> buffer_bits us !! (64 * q + r)%nat = (fun u => Z.testbit u (Z.of_nat r)) <$> us !! q.
Proof.
  intros Hr. unfold buffer_bits. rewrite (blocks_lookup _ _ unit_bits_length) by done. destruct (us !! q); [|done]. by apply low_bits_lookup.
Qed.

Lemma row_split row : 0 <= row -> exists q r, (r < 64)%nat /\ row = Z.of_nat (64 * q + r) /\ u64_index row = Z.of_nat q /\ index_in_u64 row = Z.of_nat r.
Proof.
  intros Hrow. exists (Z.to_nat (row / 64)), (Z.to_nat (row mod 64)). pose proof (Z.mod_pos_bound row 64 ltac:(lia)). pose proof (Z.div_mod row 64 ltac:(lia)).
  assert (0 <= row / 64) by (apply Z.div_pos; lia). unfold index_in_u64, u64_index, UNIT_BITS. lia.
Qed.

Lemma shift_bit r : (r < 64)%nat -> to_u64 (Z.shiftl 1 (Z.of_nat r)) = 2 ^ Z.of_nat r.
Proof.
  intros Hr. rewrite Z.shiftl_mul_pow2, Z.mul_1_l by lia. apply u_wrap_id. split; [apply Z.pow_nonneg; lia|apply Z.pow_lt_mono_r; lia].
Qed.

(** A unit replaced by one that differs in one bit. *)
Lemma buffer_bits_insert us q r u u' b : (r < 64)%nat -> us !! q = Some u ->
  (forall k, (k < 64)%nat -> Z.testbit u' (Z.of_nat k) = if decide (k = r) then b else Z.testbit u (Z.of_nat k)) ->
  buffer_bits (<[q := u']> us) = <[(64 * q + r)%nat := b]> (buffer_bits us).
Proof.
  intros Hr Hq Hu'. pose proof (lookup_lt_Some _ _ _ Hq) as Hlt. apply list_eq. intros i.
  pose proof (Nat.div_mod i 64 ltac:(lia)) as Hi. pose proof (Nat.mod_upper_bound i 64 ltac:(lia)) as Hk. set (k := (i mod 64)%nat) in *. set (q' := (i / 64)%nat) in *. rewrite Hi.
  rewrite buffer_bits_lookup by done. destruct (decide (q = q')) as [<-|Hne].
  - rewrite list_lookup_insert_eq by done. cbn [fmap option_fmap option_map]. rewrite Hu' by done. destruct (decide (k = r)) as [->|Hkr].
    + rewrite list_lookup_insert_eq; [done|]. rewrite buffer_bits_length. lia.
    + by rewrite list_lookup_insert_ne, buffer_bits_lookup, Hq by lia.
  - by rewrite !list_lookup_insert_ne, buffer_bits_lookup by lia.
Qed.

Lemma unit_max_bits : unit_bits UNIT_MAX = replicate 64 true.
Proof. vm_compute. reflexivity. Qed.

Lemma unit_zero_bits : unit_bits 0 = replicate 64 false.
Proof. vm_compute. reflexivity. Qed.

Lemma full_unit u : u_range 64 u -> (u =? UNIT_MAX) = forallb id (unit_bits u).
Proof.
  intros Hu. destruct (u =? UNIT_MAX) eqn:E; zbool.
  - subst. by rewrite unit_max_bits.
  - symmetry. apply not_true_is_false. intros Hall. apply E. apply (low_bits_inj 64); [done|done|]. change (low_bits 64 UNIT_MAX) with (unit_bits UNIT_MAX).
    rewrite unit_max_bits. apply list_eq_same_length with 64%nat; [done|apply unit_bits_length|]. intros i x y Hi Hx Hy.
    rewrite forallb_forall in Hall. apply lookup_replicate in Hy as [-> _]. apply Hall. apply list_elem_of_In. by eapply list_elem_of_lookup_2.
Qed.

(** ** Loops over units *)

Lemma all_units_ok n : forall us i, Forall (u_range 64) us -> (i + n = length us)%nat ->
  all_units us (Z.of_nat i) n = Ret (forallb id (buffer_bits (drop i us))).
Proof.
  induction n as [|n IH]; intros us i Hus Hi; cbn [all_units].
  - by rewrite drop_ge by lia.
  - destruct (lookup_lt_is_Some_2 us i ltac:(lia)) as [u Hu]. rewrite (at_index_nat us), Hu, ret_bind, (drop_S _ _ _ Hu).
    unfold buffer_bits. rewrite fmap_cons. cbn [concat]. rewrite forallb_app, full_unit by (by eapply Forall_lookup_1). destruct (forallb id (unit_bits u)); [|done].
    replace (Z.of_nat i + 1) with (Z.of_nat (S i)) by lia. cbn [negb andb]. apply IH; [done|lia].
Qed.

Lemma clear_units_ok n : forall us i, (i + n = length us)%nat -> clear_units us (Z.of_nat i) n = Ret (take i us ++ replicate n 0).
Proof.
  induction n as [|n IH]; intros us i Hi; cbn [clear_units].
  - by rewrite take_ge, app_nil_r by lia.
  - rewrite set_index_in, ret_bind, Nat2Z.id by lia. replace (Z.of_nat i + 1) with (Z.of_nat (S i)) by lia. rewrite IH by (rewrite length_insert; lia).
    destruct (lookup_lt_is_Some_2 (<[i := 0]> us) i) as [u Hu]; [rewrite length_insert; lia|]. rewrite (take_S_r _ _ _ Hu), take_insert_ge by lia.
    rewrite list_lookup_insert_eq in Hu by lia. simplify_eq. by rewrite <- app_assoc.
Qed.

Lemma and_units_ok n : forall us vs i, (i + n = length us)%nat -> length vs = length us ->
  and_units us vs (Z.of_nat i) n = Ret (take i us ++ zip_with Z.land (drop i us) (drop i vs)).
Proof.
  induction n as [|n IH]; intros us vs i Hi Hlen; cbn [and_units].
  - by rewrite take_ge, !drop_ge, app_nil_r by lia.
  - destruct (lookup_lt_is_Some_2 us i ltac:(lia)) as [u Hu]. destruct (lookup_lt_is_Some_2 vs i ltac:(lia)) as [v Hv].
    rewrite (at_index_nat us), (at_index_nat vs), Hu, Hv, !ret_bind, set_index_in, ret_bind, Nat2Z.id by lia.
    replace (Z.of_nat i + 1) with (Z.of_nat (S i)) by lia. rewrite IH by (rewrite length_insert; lia).
    rewrite (drop_S us _ _ Hu), (drop_S vs _ _ Hv), drop_insert_lt by lia. cbn [zip_with].
    destruct (lookup_lt_is_Some_2 (<[i := Z.land u v]> us) i) as [w Hw]; [rewrite length_insert; lia|]. rewrite (take_S_r _ _ _ Hw), take_insert_ge by lia.
    rewrite list_lookup_insert_eq in Hw by lia. simplify_eq. by rewrite <- app_assoc.
Qed.

Lemma equal_units_ok n : forall us vs i, (i + n = length us)%nat -> length vs = length us ->
  equal_units us vs (Z.of_nat i) n = Ret (bool_decide (drop i us = drop i vs)).
Proof.
  induction n as [|n IH]; intros us vs i Hi Hlen; cbn [equal_units].
  - rewrite !drop_ge by lia. done.
  - destruct (lookup_lt_is_Some_2 us i ltac:(lia)) as [u Hu]. destruct (lookup_lt_is_Some_2 vs i ltac:(lia)) as [v Hv].
    rewrite (at_index_nat us), (at_index_nat vs), Hu, Hv, !ret_bind, (drop_S us _ _ Hu), (drop_S vs _ _ Hv).
    destruct (u =? v) eqn:E; zbool; cbn [negb].
    + subst. replace (Z.of_nat i + 1) with (Z.of_nat (S i)) by lia. rewrite IH by lia. f_equal. apply bool_decide_ext. split; [by intros ->|by intros [= ?]].
    + rewrite bool_decide_eq_false_2; [done|]. by intros [= ?].
Qed.

(** [elem & (elem - 1)] clears the lowest bit that is set. *)
Lemma clear_lowest k : forall e, u_range (Z.of_nat k) e -> e <> 0 ->
  u_range (Z.of_nat k) (Z.land e (e - 1)) /\ pop k e = S (pop k (Z.land e (e - 1))).
Proof.
  unfold u_range. induction k as [|k IH]; intros e He Hne; [change (2 ^ Z.of_nat 0) with 1 in He; lia|].
  rewrite Nat2Z.inj_succ, Z.pow_succ_r in He by lia.
  assert (forall b v, 0 <= b < 2 -> pop (S k) (b + 2 ^ 1 * v) = (pop 1 b + pop k v)%nat) as Hpop by (intros b v Hb; by apply (pop_split 1 k)).
  rewrite Nat2Z.inj_succ, Z.pow_succ_r by lia. pose proof (Z.div_mod e 2 ltac:(lia)) as Hdm. pose proof (Z.mod_pos_bound e 2 ltac:(lia)) as Hb. set (v := e / 2) in *. destruct (Z.eq_dec (e mod 2) 0) as [E|E].
  - assert (Z.land e (e - 1) = 0 + 2 ^ 1 * Z.land v (v - 1)) as ->.
    { replace e with (0 + 2 ^ 1 * v) by lia. replace (0 + 2 ^ 1 * v - 1) with (1 + 2 ^ 1 * (v - 1)) by lia.  apply Z.bits_inj'. intros j Hj.
      rewrite Z.land_spec, !testbit_split by lia. destruct (j <? 1) eqn:Ej; zbool; [by rewrite Z.bits_0|]. by rewrite Z.land_spec. }
    destruct (IH v ltac:(lia) ltac:(lia)) as [Hr Hp]. replace (pop (S k) e) with (pop (S k) (0 + 2 ^ 1 * v)) by (f_equal; lia). rewrite !Hpop, Hp by lia. lia.
  - assert (Z.land e (e - 1) = 0 + 2 ^ 1 * v) as ->.
    { replace e with (1 + 2 ^ 1 * v) by lia. replace (1 + 2 ^ 1 * v - 1) with (0 + 2 ^ 1 * v) by lia.  apply Z.bits_inj'. intros j Hj.
      rewrite Z.land_spec, !testbit_split by lia. destruct (j <? 1) eqn:Ej; zbool; [by rewrite Z.bits_0, andb_false_r|]. by rewrite andb_diag. }
    replace (pop (S k) e) with (pop (S k) (1 + 2 ^ 1 * v)) by (f_equal; lia). rewrite !Hpop by lia. split; [lia|done].
Qed.

Lemma count_elem_ok fuel : forall e c, u_range 64 e -> (pop 64 e < fuel)%nat -> 0 <= c -> c + Z.of_nat (pop 64 e) < 2 ^ 64 ->
  count_elem fuel e c = Ret (c + Z.of_nat (pop 64 e)).
Proof.
  induction fuel as [|fuel IH]; intros e c He Hf Hc Hlt; [lia|]. cbn [count_elem]. destruct (e =? 0) eqn:E; zbool.
  - subst e. change (pop 64 0) with 0%nat. f_equal. lia.
  - destruct (clear_lowest 64 e He E) as [Hr Hp]. unfold to_u64. rewrite (u_wrap_id 64 (e - 1)) by (unfold u_range in *; lia).
    rewrite u_wrap_id by (unfold u_range; lia). rewrite IH by (done || lia). f_equal. lia.
Qed.

Lemma count_units_ok n : forall us i c, Forall (u_range 64) us -> (i + n = length us)%nat -> 0 <= c ->
  c + Z.of_nat (count_true (buffer_bits (drop i us))) < 2 ^ 64 ->
  count_units us (Z.of_nat i) n c = Ret (c + Z.of_nat (count_true (buffer_bits (drop i us)))).
Proof.
  induction n as [|n IH]; intros us i c Hus Hi Hc Hlt; cbn [count_units].
  - rewrite drop_ge by lia. change (count_true (buffer_bits [])) with 0%nat. f_equal. lia.
  - destruct (lookup_lt_is_Some_2 us i ltac:(lia)) as [u Hu]. rewrite (drop_S _ _ _ Hu) in Hlt |- *. rewrite (at_index_nat us), Hu, ret_bind.
    unfold buffer_bits in Hlt |- *. rewrite fmap_cons in Hlt |- *. cbn [concat] in Hlt |- *. rewrite count_true_app in Hlt |- *. fold (buffer_bits (drop (S i) us)) in Hlt |- *.
    change (count_true (unit_bits u)) with (pop 64 u) in Hlt |- *. pose proof (Forall_lookup_1 _ _ _ _ Hus Hu) as Hr.
    assert ((if u =? UNIT_MAX then Ret (to_u64 (c + UNIT_BITS)) else count_elem 65 u c) = Ret (c + Z.of_nat (pop 64 u))) as ->.
    { destruct (u =? UNIT_MAX) eqn:E; zbool.
      - subst u. change (pop 64 UNIT_MAX) with 64%nat in Hlt |- *. f_equal. apply u_wrap_id. unfold u_range, UNIT_BITS. lia.
      - pose proof (count_true_le (low_bits 64 u)). rewrite low_bits_length in *. unfold pop in *. apply count_elem_ok; unfold pop; (done || lia). }
    rewrite ret_bind. replace (Z.of_nat i + 1) with (Z.of_nat (S i)) by lia. rewrite IH by (done || lia). f_equal. lia.
Qed.

(** ** Counts *)

Lemma power_of_2_test c : 0 <= c < 2 ^ 64 -> not_power_of_2 c = negb ((c =? 0) || is_power_of_2 c).
Proof.
  intros Hc. unfold not_power_of_2, is_power_of_2. f_equal. destruct (decide (c = 0)) as [->|Hne]; [done|].
  pose proof (Z.log2_spec c ltac:(lia)) as Hl. pose proof (Z.log2_nonneg c) as Hk. set (k := Z.log2 c) in *.
  replace (c =? 0) with false by lia. unfold to_u64. rewrite u_wrap_id by (unfold u_range; lia). rewrite Z.pow_succ_r in Hl by done. simpl. destruct (c =? 2 ^ k) eqn:E; zbool.
  - rewrite Z.eqb_eq. rewrite E. replace (2 ^ k - 1) with (Z.ones k) by (rewrite Z.ones_equiv; lia).
    rewrite Z.land_ones by done. apply Z.mod_same. lia.
  - apply Z.eqb_neq. intros H0. assert (Z.testbit (Z.land c (c - 1)) k = true) as Ht; [|by rewrite H0, Z.bits_0 in Ht].
    rewrite Z.land_spec. apply andb_true_iff. rewrite !Z.testbit_true by done. rewrite <- (Z.div_unique c (2 ^ k) 1 (c - 2 ^ k)) by lia.
    by rewrite <- (Z.div_unique (c - 1) (2 ^ k) 1 (c - 1 - 2 ^ k)) by lia.
Qed.

Lemma valid_units c : valid_count c -> 0 <= c < 2 ^ 64 /\ c = 64 * UnitCount c.
Proof.
  intros [->|[Hp Hc]]; [done|]. split; [lia|]. unfold is_power_of_2 in Hp. zbool. pose proof (Z.log2_nonneg c).
  assert (6 <= Z.log2 c) by (apply (Z.log2_le_mono 64 c); lia). assert (Z.log2 c < 64) by (apply Z.log2_lt_pow2; lia).
  assert (c <= 2 ^ 63) by (rewrite Hp; apply Z.pow_le_mono_r; lia). set (k := Z.log2 c) in *.
  assert (c = 64 * 2 ^ (k - 6)) as He by (rewrite Hp; change 64 with (2 ^ 6); rewrite <- Z.pow_add_r by lia; f_equal; lia).
  unfold UnitCount, to_u64, UNIT_BITS. rewrite u_wrap_id by (unfold u_range; lia).
  rewrite <- (Z.div_unique (c + (64 - 1)) 64 (2 ^ (k - 6)) 63) by lia. done.
Qed.

Lemma valid_not_power c : valid_count c -> not_power_of_2 c = false.
Proof.
  intros Hv. pose proof (valid_units c Hv) as [Hr _]. rewrite power_of_2_test by done. destruct Hv as [->|[-> _]]; [done|]. by rewrite orb_true_r.
Qed.

Lemma count_ok_valid c : count_ok c -> not_power_of_2 c = false -> valid_count c.
Proof.
  intros [Hr Hp] Hn. rewrite power_of_2_test in Hn by done. destruct (c =? 0) eqn:E; zbool; [by left|]. right. simpl in *. zbool. split; [done|]. split; [by apply Hp|lia].
Qed.

(** ** Copies of bytes *)

Lemma unit_bytes_length us : Z.of_nat (length (unit_bytes us)) = 8 * Z.of_nat (length us).
Proof. unfold unit_bytes. rewrite (blocks_length _ 8) by (intros; apply le_bytes_length). lia. Qed.

Lemma bytes_units_of us : Forall (u_range 64) us -> bytes_units (length us) (unit_bytes us) = us.
Proof.
  induction 1 as [|u us Hu _ IH]; [done|]. simpl length. cbn [bytes_units]. unfold unit_bytes. rewrite fmap_cons. cbn [concat].
  rewrite take_app_length', drop_app_length' by (by rewrite le_bytes_length). rewrite le_value_bytes, u_wrap_id by done. f_equal. apply IH.
Qed.

Lemma copy_units target source k : Forall (u_range 64) target -> Forall (u_range 64) source -> (k <= length target)%nat -> (k <= length source)%nat ->
  copy_bytes target (unit_bytes source) (8 * Z.of_nat k) = Ret (take k source ++ drop k target).
Proof.
  intros Ht Hs Hkt Hks. unfold copy_bytes. rewrite !unit_bytes_length. destruct (_ || _) eqn:E; zbool; [exfalso; rewrite !orb_true_iff in E; lia|].
  f_equal. replace (Z.to_nat (8 * Z.of_nat k)) with (8 * k)%nat by lia. unfold unit_bytes at 1 2.
  rewrite <- (blocks_take _ 8), <- (blocks_drop _ 8), <- concat_app, <- fmap_app by (intros; apply le_bytes_length).
  replace (length target) with (length (take k source ++ drop k target)) by (rewrite length_app, length_take, length_drop; lia).
  apply bytes_units_of. apply Forall_app. split; [by apply Forall_take|by apply Forall_drop].
Qed.

(** ** Queries of one mask *)

Lemma mask_buffer h m l p : mask_ok h m l -> buffer_ptr m = Some p ->
  exists b, h !! p = Some b /\ buffer_ok (units b) l /\ data_at h p = Ret (units b) /\ Z.to_nat (UnitCount (count_ m)) = length (units b) /\ l <> [].
Proof.
  intros (Hc & Hv & Hm) Hp. rewrite Hp in Hm. destruct Hm as (Hne & b & Hb & Hok). exists b. unfold data_at. rewrite Hb. repeat split; try done; [apply Hok..|].
  apply valid_units in Hv as [_ Hv]. destruct Hok as [_ <-]. rewrite buffer_bits_length in Hc. lia.
Qed.

Lemma all_true_ok h m l : mask_ok h m l -> IsAllTrue h m = Ret (forallb id l).
Proof.
  intros Hm. unfold IsAllTrue. destruct (buffer_ptr m) as [p|] eqn:Hp.
  - destruct (mask_buffer _ _ _ _ Hm Hp) as (b & _ & [Hu <-] & -> & -> & _). rewrite ret_bind. by apply (all_units_ok _ _ 0).
  - destruct Hm as (_ & _ & Hm). rewrite Hp in Hm. rewrite Hm. f_equal. clear. by induction (length l).
Qed.

Lemma count_true_all n : count_true (replicate n true) = n.
Proof. induction n as [|n IH]; [done|]. simpl replicate. rewrite count_true_cons. lia. Qed.

Lemma count_true_ok h m l : mask_ok h m l -> CountTrue h m = Ret (Z.of_nat (count_true l)).
Proof.
  intros Hm. unfold CountTrue. destruct (buffer_ptr m) as [p|] eqn:Hp.
  - destruct (mask_buffer _ _ _ _ Hm Hp) as (b & _ & [Hu Hl] & -> & -> & _). destruct Hm as (Hc & [Hr _]%valid_units & _). rewrite ret_bind, <- Hl in *.
    pose proof (count_true_le (buffer_bits (units b))). rewrite (count_units_ok _ _ 0); try (done || (rewrite drop_0; lia)). 
  - destruct Hm as (Hc & _ & Hm). rewrite Hp in Hm. rewrite Hm, count_true_all. by f_equal.
Qed.

Lemma count_false_ok h m l : mask_ok h m l -> CountFalse h m = Ret (Z.of_nat (count_true (negb <$> l))).
Proof.
  intros Hm. unfold CountFalse. rewrite (count_true_ok _ _ _ Hm), ret_bind. destruct Hm as (Hc & [Hr _]%valid_units & _).
  pose proof (count_negb l). f_equal. unfold to_u64. rewrite u_wrap_id; unfold u_range; lia.
Qed.

Lemma is_true_ok h m l row : mask_ok h m l -> 0 <= row < Z.of_nat (length l) -> IsTrue h m row = mask_at l (Z.to_nat row).
Proof.
  intros Hm Hrow. unfold IsTrue, mask_at. destruct (buffer_ptr m) as [p|] eqn:Hp.
  - destruct (mask_buffer _ _ _ _ Hm Hp) as (b & _ & [Hu <-] & -> & _ & _). destruct (row_split row) as (q & r & Hr & -> & -> & ->); [lia|].
    rewrite Nat2Z.id, buffer_bits_lookup, ret_bind, (at_index_nat (units b)) by done. rewrite buffer_bits_length in Hrow.
    destruct (lookup_lt_is_Some_2 (units b) q ltac:(lia)) as [u Hq]. rewrite Hq, ret_bind, shift_bit, land_pow2_zero, negb_involutive by lia. done.
  - destruct Hm as (_ & _ & Hm). rewrite Hp in Hm. rewrite Hm, lookup_replicate_2 by lia. done.
Qed.

(** Writing one bit of a buffer. *)
Lemma set_bit_ok us l row (b : bool) : buffer_ok us l -> 0 <= row < Z.of_nat (length l) ->
  exists u us', at_index us (u64_index row) = Ret u /\
    set_index us (u64_index row) (let bit := to_u64 (Z.shiftl 1 (index_in_u64 row)) in if b then Z.lor u bit else Z.land u (to_u64 (Z.lnot bit))) = Ret us' /\
    buffer_ok us' (<[Z.to_nat row := b]> l).
Proof.
  intros [Hu <-] Hrow. destruct (row_split row) as (q & r & Hr & -> & -> & ->); [lia|]. rewrite buffer_bits_length in Hrow. rewrite Nat2Z.id.
  destruct (lookup_lt_is_Some_2 us q ltac:(lia)) as [u Hq]. rewrite (at_index_nat us), Hq. cbv zeta. rewrite shift_bit by done.
  set (v := if b then Z.lor u (2 ^ Z.of_nat r) else Z.land u (to_u64 (Z.lnot (2 ^ Z.of_nat r)))). assert (forall k, 0 <= k -> Z.testbit v k = (k <? 64) && if decide (k = Z.of_nat r) then b else Z.testbit u k) as Hv.
  { intros k Hk. pose proof (Forall_lookup_1 _ _ _ _ Hu Hq) as Hur.
    assert (Z.testbit u k = (k <? 64) && Z.testbit u k) as Hhigh by (destruct (k <? 64) eqn:E; [done|zbool; by rewrite (u_testbit_high 64)]).
    subst v. destruct b.
    - rewrite Z.lor_spec. destruct (decide (k = Z.of_nat r)) as [->|].
      + rewrite Z.pow2_bits_true, orb_true_r by lia. by replace (Z.of_nat r <? 64) with true by lia.
      + by rewrite Z.pow2_bits_false, orb_false_r, <- Hhigh by done.
    - rewrite Z.land_spec. unfold to_u64. rewrite u_wrap_testbit, Z.lnot_spec by lia. destruct (decide (k = Z.of_nat r)) as [->|].
      + by rewrite Z.pow2_bits_true, !andb_false_r by lia.
      + rewrite Z.pow2_bits_false, andb_true_r, andb_comm by done. done. }
  exists u, (<[q := v]> us). split; [done|]. rewrite set_index_in, Nat2Z.id by lia. split; [done|]. split.
  - apply Forall_insert; [done|]. apply u_bits; [lia| |].
    + subst v. destruct b; [apply Z.lor_nonneg; split; [|by apply Z.pow_nonneg]|apply Z.land_nonneg; left]; by eapply (Forall_lookup_1 _ _ _ _ Hu Hq).
    + intros j Hj. rewrite Hv by lia. by replace (j <? 64) with false by lia.
  - apply (buffer_bits_insert us q r u); [done|done|]. intros k Hk. rewrite Hv by lia. replace (Z.of_nat k <? 64) with true by lia. simpl.
    destruct (decide (k = r)), (decide (Z.of_nat k = Z.of_nat r)); (done || lia).
Qed.

(** ** Changes of the masks *)

Lemma rel_length s vs : masks_rel s vs -> length (masks s) = length vs.
Proof. intros Hs. eapply Forall2_length, mr_rows, Hs. Qed.

Lemma rel_at s vs i : masks_rel s vs -> (i < length vs)%nat -> exists m v, masks s !! i = Some m /\ vs !! i = Some v /\ mask_ok (buffers s) m v.2.
Proof.
  intros Hs Hi. destruct (lookup_lt_is_Some_2 vs i Hi) as [v Hv]. destruct (Forall2_lookup_r _ _ _ _ _ (mr_rows _ _ Hs) Hv) as (m & Hm & Hok). eauto.
Qed.

Lemma mask_ok_mono h h' m l : mask_ok h m l -> h ⊆ h' -> mask_ok h' m l.
Proof.
  intros (Hc & Hv & Hm) Hh. split; [done|]. split; [done|]. destruct (buffer_ptr m) as [p|]; [|done]. destruct Hm as (Hne & b & Hb & Hok).
  split; [done|]. exists b. split; [|done]. by eapply lookup_weaken.
Qed.

Lemma mask_ok_buffer h m l p : mask_ok h m l -> buffer_ptr m = Some p -> is_Some (h !! p).
Proof. intros Hm Hp. destruct (mask_buffer _ _ _ _ Hm Hp) as (b & -> & _). eauto. Qed.

Lemma shared_sym m m' : shared m m' <-> shared m' m.
Proof. split; intros (p & ? & ?); by exists p. Qed.

Lemma share_insert ms vs i m v : share_ok ms vs ->
  (forall k mk vk, k <> i -> ms !! k = Some mk -> vs !! k = Some vk -> (v.1 = vk.1 <-> shared m mk)) -> share_ok (<[i := m]> ms) (<[i := v]> vs).
Proof.
  intros Hs Hi j k mj mk vj vk Hmj Hmk Hvj Hvk Hne. destruct (decide (j = i)) as [->|Hj]; [|destruct (decide (k = i)) as [->|Hk]].
  - rewrite list_lookup_insert_ne in Hmk by done. rewrite list_lookup_insert_ne in Hvk by done.
    apply list_lookup_insert_Some in Hmj, Hvj. destruct Hmj as [(_ & <- & _)|[]]; [|done]. destruct Hvj as [(_ & <- & _)|[]]; [|done]. by eapply Hi.
  - rewrite list_lookup_insert_ne in Hmj by done. rewrite list_lookup_insert_ne in Hvj by done. rewrite (symmetry_iff (=) vj.1), shared_sym.
    apply list_lookup_insert_Some in Hmk, Hvk. destruct Hmk as [(_ & <- & _)|[]]; [|done]. destruct Hvk as [(_ & <- & _)|[]]; [|done]. by eapply Hi.
  - rewrite list_lookup_insert_ne in Hmj, Hmk by done. rewrite list_lookup_insert_ne in Hvj, Hvk by done. by eapply Hs.
Qed.

Lemma fresh_name_ne vs k vk : vs !! k = Some vk -> fresh_name vs <> vk.1.
Proof.
  intros Hk. unfold fresh_name. assert (vk.1 <= max_list vs.*1)%nat; [|lia]. apply max_list_elem_of_le. apply list_elem_of_fmap. exists vk. split; [done|]. by eapply list_elem_of_lookup_2.
Qed.

(** A mask gets a vector of its own. *)
Lemma rel_renew s vs i h m l : masks_rel s vs -> buffers s ⊆ h -> mask_ok h m l -> (forall p, buffer_ptr m = Some p -> buffers s !! p = None) ->
  masks_rel (mkMasks h (<[i := m]> (masks s))) (renew vs i l).
Proof.
  intros Hs Hh Hm Hp. split; simpl.
  - apply Forall2_insert; [|done]. eapply Forall2_impl; [apply (mr_rows _ _ Hs)|]. intros m' v' Hm'. exact (mask_ok_mono _ _ _ _ Hm' Hh).
  - apply share_insert; [apply Hs|]. intros k mk vk Hki Hmk Hvk. simpl. split; [intros Hf; by destruct (fresh_name_ne _ _ _ Hvk)|].
    intros (p & Hmp & Hkp). pose proof (Hp p Hmp) as Hnone. destruct (Forall2_lookup_lr _ _ _ _ _ _ (mr_rows _ _ Hs) Hmk Hvk) as (Hc & Hv & Hok).
    rewrite Hkp in Hok. destruct Hok as (_ & b & Hb & _). by rewrite Hnone in Hb.
Qed.

(** A mask gets the vector of another that has a buffer. *)
Lemma rel_share s vs i j m v p : masks_rel s vs -> masks s !! j = Some m -> vs !! j = Some v -> buffer_ptr m = Some p ->
  masks_rel (mkMasks (buffers s) (<[i := m]> (masks s))) (<[i := v]> vs).
Proof.
  intros Hs Hm Hv Hp. pose proof (Forall2_lookup_lr _ _ _ _ _ _ (mr_rows _ _ Hs) Hm Hv) as Hok. split; simpl.
  - by apply Forall2_insert; [apply Hs|].
  - apply share_insert; [apply Hs|]. intros k mk vk Hki Hmk Hvk. destruct (decide (k = j)) as [->|Hkj].
    + rewrite Hm in Hmk. rewrite Hv in Hvk. simplify_eq. split; [by exists p|done].
    + by eapply (mr_share _ _ Hs).
Qed.

(** A mask without a buffer gets one. *)
Lemma rel_alloc s vs i h m m' v : masks_rel s vs -> masks s !! i = Some m -> vs !! i = Some v -> buffer_ptr m = None ->
  buffers s ⊆ h -> mask_ok h m' v.2 -> (forall p, buffer_ptr m' = Some p -> buffers s !! p = None) ->
  masks_rel (mkMasks h (<[i := m']> (masks s))) vs.
Proof.
  intros Hs Hm Hv Hnull Hh Hm' Hp. rewrite <- (list_insert_id vs i v Hv). split; simpl.
  - apply Forall2_insert; [|done]. eapply Forall2_impl; [apply (mr_rows _ _ Hs)|]. intros m1 v1 Hm1. exact (mask_ok_mono _ _ _ _ Hm1 Hh).
  - apply share_insert; [apply Hs|]. intros k mk vk Hki Hmk Hvk. split.
    + intros Heq. apply (mr_share _ _ Hs i k m mk v vk Hm Hmk Hv Hvk ltac:(done)) in Heq as (p & Hp' & _). by rewrite Hnull in Hp'.
    + intros (p & Hmp & Hkp). pose proof (Hp p Hmp) as Hnone.
      destruct (mask_ok_buffer _ _ _ _ (Forall2_lookup_lr _ _ _ _ _ _ (mr_rows _ _ Hs) Hmk Hvk) Hkp) as [b Hb]. by rewrite Hnone in Hb.
Qed.

(** The buffer of a mask is written. *)
Lemma rel_assign s vs i m v p us l : masks_rel s vs -> masks s !! i = Some m -> vs !! i = Some v -> buffer_ptr m = Some p ->
  buffer_ok us l -> length l = length v.2 -> masks_rel (mkMasks (write_units (buffers s) p us) (masks s)) (assign vs v.1 l).
Proof.
  intros Hs Hm Hv Hp Hus Hlen. pose proof (Forall2_lookup_lr _ _ _ _ _ _ (mr_rows _ _ Hs) Hm Hv) as Hok.
  destruct (mask_buffer _ _ _ _ Hok Hp) as (b & Hb & [_ Hbits] & _ & _ & Hne). split; simpl.
  - apply Forall2_fmap_r. apply Forall2_same_length_lookup. split; [by apply rel_length|]. intros j mj w Hmj Hw.
    pose proof (Forall2_lookup_lr _ _ _ _ _ _ (mr_rows _ _ Hs) Hmj Hw) as (Hcj & Hvj & Hj). assert (buffer_ptr mj = Some p <-> w.1 = v.1) as Hiff.
    { destruct (decide (j = i)) as [->|Hji]; [by simplify_eq|]. rewrite (mr_share _ _ Hs j i mj m w v) by done. split; [by exists p|]. intros (q & ? & ?). congruence. }
    simpl. case_decide as Heq.
    + apply Hiff in Heq. rewrite Heq in Hj. destruct Hj as (Hnej & b' & Hb' & [_ Hl]). assert (w.2 = v.2) as Hwv by congruence. simpl.
      split; [rewrite Hlen, <- Hwv; apply Hcj|]. split; [done|]. rewrite Heq. split; [by destruct l, v.2|]. eexists. unfold write_units. rewrite lookup_alter_eq, Hb. done.
    + split; [done|]. split; [done|]. destruct (buffer_ptr mj) as [q|]; [|done]. unfold write_units. rewrite lookup_alter_ne; [done|]. intros ->. by apply Heq, Hiff.
  - intros j k mj mk vj vk Hmj Hmk Hvj Hvk Hjk. unfold assign in Hvj, Hvk. rewrite list_lookup_fmap_Some in Hvj, Hvk. destruct Hvj as (wj & -> & Hwj), Hvk as (wk & -> & Hwk).
    rewrite <- (mr_share _ _ Hs j k mj mk wj wk) by done. by destruct (decide (wj.1 = v.1)) as [->|], (decide (wk.1 = v.1)) as [->|].
Qed.

(** ** Allocation *)

Lemma alloc_ok h b : exists p, alloc h b = (<[p := b]> h, p) /\ h !! p = None.
Proof. exists (fresh (dom h)). split; [done|]. apply not_elem_of_dom, is_fresh. Qed.

Lemma trues_length c : 0 <= c -> Z.of_nat (length (trues c)) = c.
Proof. intros Hc. unfold trues. rewrite length_replicate. lia. Qed.

Lemma full_buffer c : valid_count c -> buffer_ok (replicate (Z.to_nat (UnitCount c)) UNIT_MAX) (trues c).
Proof.
  intros [Hr Hu]%valid_units. split; [by apply Forall_replicate|]. unfold buffer_bits, trues. rewrite (blocks_replicate _ 64 _ _ true) by apply unit_max_bits.
  f_equal. lia.
Qed.

Lemma make_ok h c : valid_count c -> exists p b, Buffer_Make h c = Ret (<[p := b]> h, p) /\ h !! p = None /\ buffer_ok (units b) (trues c).
Proof.
  intros Hv. unfold Buffer_Make, Buffer_Initialize. rewrite valid_not_power by done. rewrite ret_bind. set (b := mkBitmaskBuffer _ _).
  destruct (alloc_ok h b) as (p & -> & Hp). exists p, b. split; [done|]. split; [done|]. by apply full_buffer.
Qed.

Lemma make_from_ok h us l c : buffer_ok us l -> c = Z.of_nat (length l) -> valid_count c ->
  exists p b, Buffer_MakeFrom h us c = Ret (<[p := b]> h, p) /\ h !! p = None /\ buffer_ok (units b) l.
Proof.
  intros [Hus <-] Hc Hv. unfold Buffer_MakeFrom, Buffer_InitializeFrom. rewrite valid_not_power by done. pose proof (valid_units c Hv) as [Hr Hu].
  rewrite buffer_bits_length in Hc. replace (UnitCount c) with (Z.of_nat (length us)) by lia. unfold sizeof_u64. rewrite Z.mul_comm, Nat2Z.id.
  rewrite copy_units by (rewrite ?length_replicate; (done || by apply Forall_replicate)). rewrite !ret_bind, firstn_all, drop_ge, app_nil_r by (by rewrite length_replicate).
  set (b := mkBitmaskBuffer _ _). destruct (alloc_ok h b) as (p & -> & Hp). by exists p, b.
Qed.

Lemma all_trues l : forallb id l = true <-> l = replicate (length l) true.
Proof. induction l as [|[] l IH]; simpl; [done| |done]. rewrite IH. split; [by intros <-|by intros [= H]]. Qed.

Lemma mask_ok_null h c l : Z.of_nat (length l) = c -> valid_count c -> forallb id l = true -> mask_ok h (mkBitmask None c) l.
Proof. intros <- Hv Hl%all_trues. done. Qed.

Lemma mask_ok_count h m l : mask_ok h m l -> valid_count (Z.of_nat (length l)).
Proof. intros (<- & Hv & _). done. Qed.

Lemma mask_ok_new h p b c l : buffer_ok (units b) l -> c = Z.of_nat (length l) -> valid_count c -> l <> [] -> mask_ok (<[p := b]> h) (mkBitmask (Some p) c) l.
Proof. intros Hb Hc Hv Hne. split; [done|]. split; [done|]. simpl. split; [done|]. exists b. by rewrite lookup_insert_eq. Qed.

Lemma ensure_ok s vs i m v : masks_rel s vs -> masks s !! i = Some m -> vs !! i = Some v -> v.2 <> [] ->
  exists h p, ensure_buffer (buffers s) m = Ret (h, p) /\ masks_rel (mkMasks h (<[i := mkBitmask (Some p) (count_ m)]> (masks s))) vs.
Proof.
  intros Hs Hm Hv Hne. pose proof (Forall2_lookup_lr _ _ _ _ _ _ (mr_rows _ _ Hs) Hm Hv) as Hok. pose proof Hok as (Hc & Hvc & Hl). unfold ensure_buffer.
  destruct (buffer_ptr m) as [p|] eqn:Hp.
  - exists (buffers s), p. split; [done|]. rewrite <- Hp. replace (mkBitmask (buffer_ptr m) (count_ m)) with m by (by destruct m). rewrite list_insert_id by done. by destruct s.
  - destruct (make_ok (buffers s) (count_ m) Hvc) as (p & b & -> & Hfresh & Hb). exists (<[p := b]> (buffers s)), p. split; [done|].
    eapply rel_alloc; try done; [by apply insert_subseteq| |simpl; by intros ? [= <-]]. apply mask_ok_new; [|done|done|done].
    rewrite Hl. rewrite Hc in Hb. unfold trues in Hb. by rewrite Nat2Z.id in Hb.
Qed.

(** The buffer that is made is written. *)
Lemma ensure_write s vs i m v : masks_rel s vs -> masks s !! i = Some m -> vs !! i = Some v -> v.2 <> [] ->
  exists h p us, ensure_buffer (buffers s) m = Ret (h, p) /\ data_at h p = Ret us /\ buffer_ok us v.2 /\ Z.to_nat (UnitCount (count_ m)) = length us /\
    forall us' l, buffer_ok us' l -> length l = length v.2 ->
      masks_rel (mkMasks (write_units h p us') (<[i := mkBitmask (Some p) (count_ m)]> (masks s))) (assign vs v.1 l).
Proof.
  intros Hs Hm Hv Hne. destruct (ensure_ok s vs i m v Hs Hm Hv Hne) as (h & p & He & Hs'). set (m' := mkBitmask (Some p) (count_ m)) in *.
  assert (<[i := m']> (masks s) !! i = Some m') as Hm' by (apply list_lookup_insert_eq; by eapply lookup_lt_Some).
  pose proof (Forall2_lookup_lr _ _ _ _ _ _ (mr_rows _ _ Hs') Hm' Hv) as Hok'. destruct (mask_buffer _ _ _ p Hok' eq_refl) as (b & _ & Hb & Hdata & Hn & _).
  exists h, p, (units b). repeat (split; [done|]). intros us l Hus Hl. by apply (rel_assign _ _ i m' v p us l Hs' Hm' Hv).
Qed.

(** ** The operations *)

Lemma mask_at_some {A} (l : list A) i x : l !! i = Some x -> mask_at l i = Ret x.
Proof. unfold mask_at. by intros ->. Qed.

Lemma mask_sim_reset s vs i : masks_rel s vs -> mask_op_ok vs (OReset i) -> mask_simulates s vs (OReset i).
Proof.
  intros Hs Hi. destruct (rel_at s vs i Hs Hi) as (m & v & Hm & Hv & Hok). unfold mask_simulates. simpl. rewrite (mask_at_some _ _ _ Hm). eexists. split; [done|].
  apply rel_renew; [done|done| |done]. apply mask_ok_null; [done|by left|done].
Qed.

Lemma sim_initialize s vs i c : masks_rel s vs -> mask_op_ok vs (OInitialize i c) -> mask_simulates s vs (OInitialize i c).
Proof.
  intros Hs [Hi Hc]. destruct (rel_at s vs i Hs Hi) as (m & v & Hm & Hv & Hok). unfold mask_simulates. simpl. rewrite (mask_at_some _ _ _ Hm), (mask_at_some _ _ _ Hv), !ret_bind.
  pose proof Hok as (Hcm & _ & Hl). unfold Bitmask_Initialize. rewrite Hcm, power_of_2_test by apply Hc. destruct (Z.of_nat (length v.2) =? 0) eqn:E; [|done]. cbn [negb].
  destruct (negb ((c =? 0) || is_power_of_2 c)) eqn:Hp; [done|]. eexists. split; [done|]. assert (valid_count c) as Hvc by (apply count_ok_valid; [done|by rewrite power_of_2_test by apply Hc]).
  assert (buffer_ptr m = None) as ->. { destruct (buffer_ptr m); [|done]. destruct Hl as [Hl _]. destruct v.2; [done|zbool; simpl in E; lia]. }
  apply rel_renew; [done|done| |done]. apply mask_ok_null; [apply trues_length, Hc|done|]. apply all_trues. unfold trues. by rewrite length_replicate.
Qed.

(** A mask that is not all true has a buffer. *)
Lemma not_all_buffer h m l : mask_ok h m l -> forallb id l = false -> exists p, buffer_ptr m = Some p.
Proof. intros (_ & _ & Hm) Hl. destruct (buffer_ptr m) as [p|]; [eauto|]. apply all_trues in Hm. congruence. Qed.

Lemma sim_deep_copy s vs i j : masks_rel s vs -> mask_op_ok vs (ODeepCopy i j) -> mask_simulates s vs (ODeepCopy i j).
Proof.
  intros Hs [Hi Hj]. destruct (rel_at s vs i Hs Hi) as (m & _ & Hm & _ & _). destruct (rel_at s vs j Hs Hj) as (ref & v & Hr & Hv & Hok).
  unfold mask_simulates. simpl. rewrite (mask_at_some _ _ _ Hm), (mask_at_some _ _ _ Hr), (mask_at_some _ _ _ Hv), !ret_bind.
  unfold DeepCopy. rewrite (all_true_ok _ _ _ Hok), ret_bind. pose proof Hok as (Hc & Hvc & _). destruct (forallb id v.2) eqn:Hall.
  - eexists. split; [done|]. apply rel_renew; [done|done| |done]. by apply mask_ok_null.
  - destruct (not_all_buffer _ _ _ Hok Hall) as [p Hp]. rewrite Hp. destruct (mask_buffer _ _ _ _ Hok Hp) as (b & _ & Hb & -> & _ & Hne). rewrite ret_bind.
    destruct (make_from_ok (buffers s) _ _ _ Hb Hc Hvc) as (q & b' & -> & Hq & Hb'). eexists. split; [done|].
    apply rel_renew; [done|by apply insert_subseteq| |simpl; by intros ? [= <-]]. by apply mask_ok_new.
Qed.

Lemma sim_shallow_copy s vs i j : masks_rel s vs -> mask_op_ok vs (OShallowCopy i j) -> mask_simulates s vs (OShallowCopy i j).
Proof.
  intros Hs [Hi Hj]. destruct (rel_at s vs i Hs Hi) as (m & _ & Hm & _ & _). destruct (rel_at s vs j Hs Hj) as (ref & v & Hr & Hv & Hok).
  unfold mask_simulates. simpl. rewrite (mask_at_some _ _ _ Hm), (mask_at_some _ _ _ Hr), (mask_at_some _ _ _ Hv), !ret_bind.
  unfold ShallowCopy. rewrite (all_true_ok _ _ _ Hok), ret_bind. pose proof Hok as (Hc & Hvc & _). destruct (forallb id v.2) eqn:Hall; (eexists; split; [done|]).
  - apply rel_renew; [done|done| |done]. by apply mask_ok_null.
  - destruct (not_all_buffer _ _ _ Hok Hall) as [p Hp]. replace (mkBitmask (buffer_ptr ref) (count_ ref)) with ref by (by destruct ref). by eapply rel_share.
Qed.

Lemma write_new h p b us : write_units (<[p := b]> h) p us = <[p := mkBitmaskBuffer us (buffer_count_ b)]> h.
Proof. unfold write_units. by rewrite alter_insert_eq. Qed.

Lemma extend_buffer us l full c : buffer_ok us l -> buffer_ok full (trues c) -> Z.of_nat (length l) <= c ->
  exists us', copy_bytes full (unit_bytes us) (Z.of_nat (length l) / BYTE_BITS) = Ret us' /\ buffer_ok us' (l ++ trues (c - Z.of_nat (length l))).
Proof.
  intros [Hus <-] [Hf Hfull] Hle. pose proof (f_equal length Hfull) as Hlen. rewrite !buffer_bits_length in *. unfold trues in Hlen. rewrite length_replicate in Hlen.
  unfold BYTE_BITS. replace (Z.of_nat (64 * length us) / 8) with (8 * Z.of_nat (length us)) by (apply (Z.div_unique _ _ _ 0); lia).
  rewrite copy_units by (done || lia). eexists. split; [done|]. rewrite firstn_all. split; [apply Forall_app; split; [done|by apply Forall_drop]|].
  unfold buffer_bits. rewrite fmap_app, concat_app, (blocks_drop _ _ unit_bits_length). fold (buffer_bits full). rewrite Hfull. f_equal. unfold trues. rewrite drop_replicate. f_equal. lia.
Qed.

Lemma sim_resize s vs i c : masks_rel s vs -> mask_op_ok vs (OResize i c) -> mask_simulates s vs (OResize i c).
Proof.
  intros Hs [Hi Hc]. destruct (rel_at s vs i Hs Hi) as (m & v & Hm & Hv & Hok). unfold mask_simulates. simpl. rewrite (mask_at_some _ _ _ Hm), (mask_at_some _ _ _ Hv), !ret_bind.
  pose proof Hok as (Hcm & Hvm & Hl). unfold Resize. rewrite Hcm, power_of_2_test by apply Hc. destruct (negb ((c =? 0) || is_power_of_2 c)) eqn:Hp; [done|].
  destruct (c <? Z.of_nat (length v.2)) eqn:Hlt; [done|]. zbool. assert (valid_count c) as Hvc by (apply count_ok_valid; [done|rewrite power_of_2_test by apply Hc; by rewrite Hp]).
  assert (Z.of_nat (length (v.2 ++ trues (c - Z.of_nat (length v.2)))) = c) as Hlen by (rewrite length_app, Nat2Z.inj_add, trues_length; lia).
  destruct (buffer_ptr m) as [p|] eqn:Hbp.
  - destruct (mask_buffer _ _ _ _ Hok Hbp) as (b & Hb & Hbo & _ & _ & Hne). destruct (make_ok (buffers s) c Hvc) as (q & b' & -> & Hq & Hb'). rewrite ret_bind. unfold data_at.
    rewrite lookup_insert_eq, lookup_insert_ne, Hb, !ret_bind by congruence. destruct (extend_buffer _ _ _ _ Hbo Hb' Hlt) as (us & -> & Hus). rewrite ret_bind.
    eexists. split; [done|]. rewrite write_new. apply rel_renew; [done|by apply insert_subseteq| |by intros ? [= <-]].
    apply mask_ok_new; [done|done|done|by destruct v.2].
  - eexists. split; [done|]. apply rel_renew; [done|done| |done]. apply mask_ok_null; [done|done|]. apply all_trues in Hl. rewrite forallb_app, Hl. apply all_trues. unfold trues. by rewrite length_replicate.
Qed.

Lemma mask_sim_set s vs i row b : masks_rel s vs -> mask_op_ok vs (OSet i row b) -> mask_simulates s vs (OSet i row b).
Proof.
  intros Hs (v & Hv & Hrow). destruct (rel_at s vs i Hs (lookup_lt_Some _ _ _ Hv)) as (m & v' & Hm & Hv' & Hok). rewrite Hv in Hv'. simplify_eq.
  unfold mask_simulates. simpl. rewrite (mask_at_some _ _ _ Hm), (mask_at_some _ _ _ Hv), !ret_bind. destruct b; simpl.
  - unfold SetTrue. destruct (buffer_ptr m) as [p|] eqn:Hp.
    + destruct (mask_buffer _ _ _ _ Hok Hp) as (b & _ & Hb & -> & _ & _). destruct (set_bit_ok _ _ row true Hb Hrow) as (u & us & Hu & Hus & Hbo).
      cbv zeta in Hus. rewrite ret_bind, Hu, ret_bind, Hus, !ret_bind. eexists. split; [done|]. rewrite list_insert_id by done. eapply rel_assign; try done. apply length_insert.
    + eexists. split; [done|]. rewrite list_insert_id by done. pose proof Hok as (_ & _ & Hl). rewrite Hp in Hl.
      assert (<[Z.to_nat row := true]> v'.2 = v'.2) as -> by (apply list_insert_id; rewrite Hl, lookup_replicate_2 by lia; done).
      assert (assign vs v'.1 v'.2 = vs) as ->; [|by destruct s].
      apply list_eq. intros j. unfold assign. rewrite list_lookup_fmap. destruct (vs !! j) as [w|] eqn:Hw; [|done]. simpl. case_decide as Heq; [|done].
      destruct (decide (i = j)) as [->|Hij]; [rewrite Hv in Hw; simplify_eq; by destruct w|]. exfalso.
      destruct (Forall2_lookup_r _ _ _ _ _ (mr_rows _ _ Hs) Hw) as (mj & Hmj & _). apply (mr_share _ _ Hs j i mj m w v') in Heq as (p & _ & Hp'); congruence.
  - destruct (ensure_write s vs i m v' Hs Hm Hv) as (h & p & us & He & Hdata & Hb & _ & Hrel); [by intros Hn; rewrite Hn in Hrow; simpl in Hrow; lia|]. unfold SetFalse. rewrite He, ret_bind.
    destruct (set_bit_ok _ _ row false Hb Hrow) as (u & us' & Hu & Hus & Hbo). cbv zeta in Hus. rewrite Hdata, ret_bind, Hu, ret_bind, Hus, !ret_bind. eexists. split; [done|].
    apply Hrel; [done|apply length_insert].
Qed.

Lemma sim_set_all_true s vs i : masks_rel s vs -> mask_op_ok vs (OSetAllTrue i) -> mask_simulates s vs (OSetAllTrue i).
Proof.
  intros Hs Hi. destruct (rel_at s vs i Hs Hi) as (m & v & Hm & Hv & Hok). unfold mask_simulates. simpl. rewrite (mask_at_some _ _ _ Hm), (mask_at_some _ _ _ Hv), !ret_bind.
  eexists. split; [done|]. pose proof Hok as (Hc & Hvc & Hl). replace (SetAllTrue m) with (mkBitmask None (count_ m)) by (unfold SetAllTrue; by destruct m as [[]]).
  apply rel_renew; [done|done| |done]. apply mask_ok_null; [by rewrite length_fmap|done|]. clear. induction v.2; [done|]. simpl. done.
Qed.

Lemma sim_set_all_false s vs i : masks_rel s vs -> mask_op_ok vs (OSetAllFalse i) -> mask_simulates s vs (OSetAllFalse i).
Proof.
  intros Hs (v & Hv & Hrow). destruct (rel_at s vs i Hs (lookup_lt_Some _ _ _ Hv)) as (m & v' & Hm & Hv' & Hok). rewrite Hv in Hv'. simplify_eq.
  unfold mask_simulates. simpl. rewrite (mask_at_some _ _ _ Hm), (mask_at_some _ _ _ Hv), !ret_bind.
  destruct (ensure_write s vs i m v' Hs Hm Hv) as (h & p & us & He & Hdata & [Hb Hl] & Hn & Hrel); [by intros Hn; rewrite Hn in Hrow; simpl in Hrow; lia|].
  unfold SetAllFalse. rewrite He, ret_bind, Hdata, ret_bind, Hn, (clear_units_ok _ _ 0) by done. rewrite ret_bind. eexists. split; [done|].
  apply Hrel; [|apply length_fmap]. simpl. split; [by apply Forall_replicate|].
  unfold buffer_bits. rewrite (blocks_replicate _ 64 _ _ false) by apply unit_zero_bits. rewrite <- Hl. rewrite <- (blocks_length _ _ unit_bits_length). fold (buffer_bits us).
  clear. generalize (buffer_bits us). intros l. induction l as [|x l IH]; [done|]. simpl. by f_equal.
Qed.

Lemma buffer_and us vs l l' : buffer_ok us l -> buffer_ok vs l' -> buffer_ok (zip_with Z.land us vs) (zip_with andb l l').
Proof.
  intros [Hu <-] [Hv <-]. split.
  - clear Hu. revert us. induction Hv as [|v vs Hv _ IH]; intros [|u us]; simpl; constructor; [|done]. by apply u_land_r.
  - apply (blocks_zip_with _ _ unit_bits_length). intros u v. apply low_bits_map2. intros. apply Z.land_spec.
Qed.

Lemma sim_merge s vs i j : masks_rel s vs -> mask_op_ok vs (OMerge i j) -> mask_simulates s vs (OMerge i j).
Proof.
  intros Hs [Hi Hj]. destruct (rel_at s vs i Hs Hi) as (m & v & Hm & Hv & Hok). destruct (rel_at s vs j Hs Hj) as (other & w & Ho & Hw & Hoo).
  unfold mask_simulates. simpl. rewrite (mask_at_some _ _ _ Hm), (mask_at_some _ _ _ Ho), (mask_at_some _ _ _ Hv), (mask_at_some _ _ _ Hw), !ret_bind.
  unfold Merge. rewrite (all_true_ok _ _ _ Hoo), ret_bind. destruct (forallb id w.2) eqn:Hall.
  { eexists. split; [done|]. rewrite list_insert_id by done. by destruct s. }
  destruct (not_all_buffer _ _ _ Hoo Hall) as [q Hq]. rewrite (all_true_ok _ _ _ Hok), ret_bind. destruct (forallb id v.2) eqn:Hallv.
  { unfold ShallowCopy. rewrite (all_true_ok _ _ _ Hoo), ret_bind, Hall, ret_bind. cbn [buffer_ptr]. rewrite decide_True by done. eexists. split; [done|].
    replace (mkBitmask (buffer_ptr other) (count_ other)) with other by (by destruct other). by eapply rel_share. }
  destruct (not_all_buffer _ _ _ Hok Hallv) as [p Hp]. rewrite ret_bind. rewrite Hp, Hq. assert (p = q <-> v.1 = w.1) as Hiff.
  { destruct (decide (i = j)) as [->|Hij]; [by simplify_eq|]. rewrite (mr_share _ _ Hs i j m other v w) by done. split; [intros ->; by exists q|]. intros (r & ? & ?). congruence. }
  pose proof Hok as (Hc & _ & _). pose proof Hoo as (Hco & _ & _). rewrite Hc, Hco. case_decide as Hpq.
  - apply Hiff in Hpq as ->. rewrite decide_True by done. eexists. split; [done|]. rewrite list_insert_id by done. by destruct s.
  - rewrite decide_False by (intros [= ?]; by apply Hpq, Hiff). destruct (_ =? _) eqn:E; [|done]. zbool. cbn [negb].
    destruct (mask_buffer _ _ _ _ Hok Hp) as (b & _ & Hb & -> & Hn & _). destruct (mask_buffer _ _ _ _ Hoo Hq) as (b' & _ & Hb' & -> & Hn' & _). rewrite !ret_bind, <- Hc, Hn.
    rewrite Hc, E, <- Hco, Hn' in Hn. rewrite (and_units_ok _ _ _ 0) by done. rewrite ret_bind, take_0, !drop_0. eexists. split; [done|]. rewrite list_insert_id by done.
    apply (rel_assign s vs i m v p _ _ Hs Hm Hv Hp); [by apply buffer_and|]. rewrite length_zip_with. lia.
Qed.

Lemma sim_query s vs op : masks_rel s vs -> mask_op_ok vs op ->
  match op with OIsTrue _ _ | OIsAllTrue _ | OCountTrue _ | OCountFalse _ => mask_simulates s vs op | _ => True end.
Proof.
  intros Hs Hop. destruct op as [| | | | | | | | |i row|i|i|i]; try done; unfold mask_simulates; simpl in *.
  - destruct Hop as (v & Hv & Hrow). destruct (rel_at s vs i Hs (lookup_lt_Some _ _ _ Hv)) as (m & v' & Hm & Hv' & Hok). rewrite Hv in Hv'. simplify_eq.
    rewrite (mask_at_some _ _ _ Hm), (mask_at_some _ _ _ Hv), !ret_bind, (is_true_ok _ _ _ _ Hok) by done.
    destruct (lookup_lt_is_Some_2 v'.2 (Z.to_nat row) ltac:(lia)) as [b Hb]. rewrite (mask_at_some _ _ _ Hb), !ret_bind. by exists s.
  - destruct (rel_at s vs i Hs Hop) as (m & v & Hm & Hv & Hok). rewrite (mask_at_some _ _ _ Hm), (mask_at_some _ _ _ Hv), !ret_bind, (all_true_ok _ _ _ Hok). by exists s.
  - destruct (rel_at s vs i Hs Hop) as (m & v & Hm & Hv & Hok). rewrite (mask_at_some _ _ _ Hm), (mask_at_some _ _ _ Hv), !ret_bind, (count_true_ok _ _ _ Hok). by exists s.
  - destruct (rel_at s vs i Hs Hop) as (m & v & Hm & Hv & Hok). rewrite (mask_at_some _ _ _ Hm), (mask_at_some _ _ _ Hv), !ret_bind, (count_false_ok _ _ _ Hok). by exists s.
Qed.

(** ** Equality *)

Lemma buffer_bits_inj us : forall vs, Forall (u_range 64) us -> Forall (u_range 64) vs -> buffer_bits us = buffer_bits vs -> us = vs.
Proof.
  intros vs H1. revert vs. induction H1 as [|u us Hu _ IH]; intros vs H2 Heq; [by destruct vs|]. destruct H2 as [|v vs Hv H2]; [done|].
  unfold buffer_bits in Heq. rewrite !fmap_cons in Heq. cbn [concat] in Heq. apply app_inj_1 in Heq as [He1 He2]; [|by rewrite !unit_bits_length]. f_equal; [by apply (low_bits_inj 64)|by apply IH].
Qed.

(** [operator==] compares the rows, of masks that both have a buffer or both
    have none. *)
Lemma bitmask_eq_ok h m m' l l' : mask_ok h m l -> mask_ok h m' l' ->
  Bitmask_eq h m m' = Ret (bool_decide (l = l' /\ (buffer_ptr m = None <-> buffer_ptr m' = None))).
Proof.
  intros Hm Hm'. pose proof Hm as (Hc & _ & Hl). pose proof Hm' as (Hc' & _ & Hl'). unfold Bitmask_eq. rewrite Hc, Hc'.
  destruct (_ =? _) eqn:E; zbool; cbn [negb]; [|rewrite bool_decide_eq_false_2; [done|]; intros [-> _]; done].
  case_decide as Hp.
  - rewrite bool_decide_eq_true_2; [done|]. rewrite Hp in Hl |- *. split; [|done]. destruct (buffer_ptr m') as [p|].
    + destruct Hl as (_ & b & Hb & _ & <-), Hl' as (_ & b' & Hb' & _ & <-). by simplify_eq.
    + rewrite Hl, Hl'. f_equal. lia.
  - destruct (buffer_ptr m) as [p|] eqn:Ep, (buffer_ptr m') as [q|] eqn:Eq; try done; try (rewrite bool_decide_eq_false_2; [done|]; intros [_ [H1 H2]]; first [discriminate (H2 eq_refl)|discriminate (H1 eq_refl)]).
    destruct (mask_buffer _ _ _ _ Hm Ep) as (b & _ & [Hb Hbl] & -> & Hn & _). destruct (mask_buffer _ _ _ _ Hm' Eq) as (b' & _ & [Hb' Hbl'] & -> & Hn' & _).
    rewrite !ret_bind. rewrite Hc' , <- E, <- Hc, Hn in Hn'. rewrite <- Hc, Hn, (equal_units_ok _ _ _ 0) by done. rewrite !drop_0. f_equal. apply bool_decide_ext. subst l l'.
    split; [by intros ->|]. intros [? _]. by apply buffer_bits_inj.
Qed.

(** ** Sequences of operations *)

Fixpoint run_mask_ops {S} (step : S -> mask_op -> outcome (S * mask_answer)) (s : S) (ops : list mask_op) : outcome (S * list mask_answer) :=
  match ops with
  | [] => Ret (s, [])
  | op :: ops => '(s, a) ← step s op; '(s, answers) ← run_mask_ops step s ops; Ret (s, a :: answers)
  end.

Fixpoint mask_ops_ok (vs : Vectors) (ops : list mask_op) : Prop :=
  match ops with
  | [] => True
  | op :: ops => mask_op_ok vs op /\ match spec_mask_op vs op with Ret (vs, _) => mask_ops_ok vs ops | _ => True end
  end.

Definition new_masks (n : nat) : Masks := mkMasks ∅ (replicate n Bitmask_new).
Definition new_vectors (n : nat) : Vectors := (fun i => (i, [])) <$> seq 0 n.

Lemma new_masks_rel n : masks_rel (new_masks n) (new_vectors n).
Proof.
  split; simpl.
  - apply Forall2_same_length_lookup. unfold new_vectors. rewrite length_replicate, length_fmap, length_seq. split; [done|].
    intros i m v [-> _]%lookup_replicate (j & -> & _)%list_lookup_fmap_Some. split; [done|]. split; [by left|done].
  - intros i j m m' v v' Hm Hm' Hv Hv' Hij. apply lookup_replicate in Hm as [-> _]. apply lookup_replicate in Hm' as [-> _]. unfold new_vectors in Hv, Hv'.
    apply list_lookup_fmap_Some in Hv as (a & -> & Ha%lookup_seq), Hv' as (b & -> & Hb%lookup_seq). simpl. split; [lia|]. by intros (p & Hp & _).
Qed.

Lemma sim_mask_op s vs op : masks_rel s vs -> mask_op_ok vs op -> mask_simulates s vs op.
Proof.
  intros Hs Hop. destruct op; auto using mask_sim_reset, sim_initialize, sim_deep_copy, sim_shallow_copy, sim_resize, mask_sim_set, sim_set_all_true, sim_set_all_false, sim_merge;
    apply (sim_query _ _ _ Hs Hop).
Qed.

(** C16: bit masks whose numbers of rows are none or powers of two of at least a
    unit refine vectors of booleans with reference semantics.  After any sequence
    of operations on [n] masks ([Reset], [Initialize], [DeepCopy], [ShallowCopy],
    [Resize], [Set], [SetAllTrue], [SetAllFalse], [Merge] and the queries) the rows
    and the answers are those of the vectors, the exceptions are thrown exactly
    when the specification says so, no access is out of range, and two masks share
    a buffer exactly when they are the same vector. *)
Theorem bitmask_refines_vectors n ops : mask_ops_ok (new_vectors n) ops ->
  match run_mask_ops spec_mask_op (new_vectors n) ops with
  | Ret (vs, answers) => exists s, run_mask_ops run_mask_op (new_masks n) ops = Ret (s, answers) /\ masks_rel s vs
  | Throw e msg => run_mask_ops run_mask_op (new_masks n) ops = Throw e msg
  | UB _ => False
  end.
Proof.
  generalize (new_masks_rel n). generalize (new_masks n) (new_vectors n). induction ops as [|op ops IH]; intros s vs Hs Hops; [by exists s|].
  destruct Hops as [Hop Hops]. pose proof (sim_mask_op s vs op Hs Hop) as Hsim. unfold mask_simulates in Hsim. cbn [run_mask_ops].
  destruct (spec_mask_op vs op) as [[vs' a]|e msg|why]; [|by rewrite Hsim|done]. destruct Hsim as (s' & -> & Hs'). rewrite !ret_bind. specialize (IH s' vs' Hs' Hops).
  destruct (run_mask_ops spec_mask_op vs' ops) as [[vs'' answers]|e msg|why]; [|by rewrite IH|done]. destruct IH as (s'' & -> & Hs''). by exists s''.
Qed.

(** ** Serialization *)

Lemma small_count c : valid_count c -> c < 2 ^ 31 -> units_size c = 8 * UnitCount c /\ to_i32 c = c /\ to_u64 c = c /\ UnitCount c < 2 ^ 25.
Proof.
  intros Hv Hlt. pose proof (valid_units c Hv) as [Hr Hu]. unfold units_size, sizeof_u64, to_i32, to_u64. rewrite u_wrap_id by (unfold u_range; lia).
  rewrite !s_wrap_id by (unfold s_range; lia). rewrite u_wrap_id by (unfold u_range; lia). lia.
Qed.

Lemma read_back {A B} (m : Reader A) (f : A -> Reader B) w rest x : reads_back m w x -> (m ≫= f) (w ++ rest) = f x rest.
Proof. intros Hm. unfold mbind, reader_bind. by rewrite Hm. Qed.

Lemma lift_bind {A B} (o : outcome A) (f : A -> Reader B) x l : o = Ret x -> (lift o ≫= f) l = f x l.
Proof. by intros ->. Qed.

(** A mask without rows cleared is read back without a buffer. *)
Lemma read_mask_null h c rest : valid_count c -> c < 2 ^ 31 -> Bitmask_ReadAdv h ((le_bytes 4 c ++ le_bytes 1 1) ++ rest) = Ret ((h, mkBitmask None c), rest).
Proof.
  intros Hv Hlt. pose proof (small_count c Hv Hlt) as (_ & _ & Hu & _). pose proof (valid_units c Hv) as [Hr _]. unfold Bitmask_ReadAdv. rewrite <- app_assoc.
  rewrite (read_back _ _ _ _ c) by (apply read_s_back; [lia|unfold s_range; simpl; lia]). rewrite Hu.
  rewrite (lift_bind _ _ (mkBitmask None c)) by (unfold Bitmask_Make, Bitmask_Initialize; by rewrite valid_not_power by done).
  by rewrite (read_back _ _ _ _ 1) by (apply read_s_back; [lia|unfold s_range; simpl; lia]).
Qed.

Lemma read_mask_units h c us l rest : buffer_ok us l -> c = Z.of_nat (length l) -> valid_count c -> c < 2 ^ 31 -> l <> [] ->
  exists p b, Bitmask_ReadAdv h ((le_bytes 4 c ++ le_bytes 1 0) ++ unit_bytes us ++ rest) = Ret ((<[p := b]> h, mkBitmask (Some p) c), rest) /\
    h !! p = None /\ buffer_ok (units b) l.
Proof.
  intros [Hus Hl] Hc Hv Hlt Hne. pose proof (small_count c Hv Hlt) as (Hsize & _ & Hu & _). pose proof (valid_units c Hv) as [Hr Hunits]. unfold Bitmask_ReadAdv. rewrite <- app_assoc.
  assert (UnitCount c = Z.of_nat (length us)) as Hn by (subst l; rewrite buffer_bits_length in Hc; lia).
  rewrite (read_back _ _ _ _ c) by (apply read_s_back; [lia|unfold s_range; simpl; lia]). rewrite Hu.
  rewrite (lift_bind _ _ (mkBitmask None c)) by (unfold Bitmask_Make, Bitmask_Initialize; by rewrite valid_not_power by done).
  rewrite (read_back _ _ _ _ 0) by (apply read_s_back; [lia|unfold s_range; simpl; lia]). cbn [Z.eqb]. rewrite Hsize, Hn.
  destruct (make_ok h c Hv) as (p & b & Hmake & Hp & Hb). assert (length (units b) = length us) as Hlen.
  { destruct Hb as [_ Hb]. apply (f_equal length) in Hb. unfold trues in Hb. rewrite buffer_bits_length, length_replicate in Hb. lia. }
  set (b0 := mkBitmaskBuffer (replicate (length us) 0) (buffer_count_ b)). rewrite (lift_bind _ _ (<[p := b0]> h, mkBitmask (Some p) c)).
  2: { unfold SetAllFalse, ensure_buffer. cbn [buffer_ptr count_]. rewrite Hmake, ret_bind. unfold data_at. rewrite lookup_insert_eq, ret_bind, Hn, Nat2Z.id, (clear_units_ok _ _ 0) by lia.
       by rewrite ret_bind, write_new. }
  replace (Z.to_nat (8 * Z.of_nat (length us))) with (length (unit_bytes us)) by (pose proof (unit_bytes_length us); lia).
  rewrite (read_back _ _ _ _ (unit_bytes us)) by (by apply read_bytes_app). cbn [buffer_ptr].
  rewrite (lift_bind _ _ (units b0)) by (unfold data_at; by rewrite lookup_insert_eq). rewrite (lift_bind _ _ us).
  2: { rewrite copy_units by (simpl; rewrite ?length_replicate; (done || by apply Forall_replicate)). by rewrite firstn_all, drop_ge, app_nil_r by (simpl; by rewrite length_replicate). }
  rewrite write_new. by eexists p, _.
Qed.

(** [ReadAdv] reads back the mask that [WriteAdv] wrote, in [GetSizeInBytes]
    bytes, into a new buffer. *)
Theorem bitmask_roundtrip h m l h' rest : mask_ok h m l -> count_ m < 2 ^ 31 ->
  exists w h'' m', Bitmask_WriteAdv h m = Ret w /\ Bitmask_GetSizeInBytes h m = Ret (Z.of_nat (length w)) /\
    Bitmask_ReadAdv h' (w ++ rest) = Ret ((h'', m'), rest) /\ mask_ok h'' m' l /\ h' ⊆ h'' /\ (forall p, buffer_ptr m' = Some p -> h' !! p = None).
Proof.
  intros Hm Hlt. pose proof Hm as (Hc & Hv & _). destruct (small_count _ Hv Hlt) as (Hsize & Hi & _ & Hn). pose proof (valid_units _ Hv) as [Hr Hu].
  unfold Bitmask_WriteAdv, Bitmask_GetSizeInBytes. rewrite (all_true_ok _ _ _ Hm), !ret_bind, Hi. destruct (forallb id l) eqn:Hall.
  - eexists _, h', (mkBitmask None (count_ m)). split; [done|]. split; [done|]. rewrite read_mask_null by done. split; [done|]. split; [by apply mask_ok_null|]. done.
  - destruct (not_all_buffer _ _ _ Hm Hall) as [p Hp]. rewrite Hp. destruct (mask_buffer _ _ _ _ Hm Hp) as (b & _ & Hb & -> & Hlen & Hne). rewrite ret_bind, Hsize.
    pose proof (unit_bytes_length (units b)) as Hbytes. destruct (_ || _) eqn:E; zbool; [rewrite orb_true_iff in E; lia|].
    rewrite take_ge by lia. destruct (read_mask_units h' _ _ _ rest Hb Hc Hv Hlt Hne) as (q & b' & Hread & Hq & Hb'). eexists _, _, _. split; [done|]. change (Z.b2z false) with 0.
    rewrite <- (app_assoc (_ ++ _) _ rest), Hread. split; [|split; [done|]].
    + rewrite !length_app, !le_bytes_length. f_equal. unfold to_i32, to_u64. rewrite u_wrap_id, s_wrap_id by (unfold u_range, s_range; lia). lia.
    + split; [by apply mask_ok_new|]. split; [by apply insert_subseteq|]. by intros ? [= <-].
Qed.

(** ** Instances *)

Definition row_okb (vs : Vectors) (i : nat) (row : Z) : bool :=
  match vs !! i with Some v => (0 <=? row) && (row <? Z.of_nat (length v.2)) | None => false end.
Definition count_okb (c : Z) : bool := (0 <=? c) && (c <? 2 ^ 64) && (negb (is_power_of_2 c) || (64 <=? c)).
Definition mask_op_okb (vs : Vectors) (op : mask_op) : bool :=
  match op with
  | OReset i | OSetAllTrue i | OIsAllTrue i | OCountTrue i | OCountFalse i => (i <? length vs)%nat
  | OInitialize i c | OResize i c => (i <? length vs)%nat && count_okb c
  | ODeepCopy i j | OShallowCopy i j | OMerge i j => (i <? length vs)%nat && (j <? length vs)%nat
  | OSet i row _ | OIsTrue i row => row_okb vs i row
  | OSetAllFalse i => row_okb vs i 0
  end.

Fixpoint mask_ops_okb (vs : Vectors) (ops : list mask_op) : bool :=
  match ops with
  | [] => true
  | op :: ops => mask_op_okb vs op && match spec_mask_op vs op with Ret (vs, _) => mask_ops_okb vs ops | _ => true end
  end.

Lemma row_okb_ok vs i row : row_okb vs i row = true -> row_ok vs i row.
Proof. unfold row_okb, row_ok. destruct (vs !! i) as [v|]; [|done]. intros H. zbool. exists v. split; [done|lia]. Qed.

Lemma count_okb_ok c : count_okb c = true -> count_ok c.
Proof. unfold count_okb, count_ok. intros H. zbool. split; [lia|]. intros Hp. rewrite Hp in *. simpl in *. lia. Qed.

Lemma mask_ops_okb_ok ops : forall vs, mask_ops_okb vs ops = true -> mask_ops_ok vs ops.
Proof.
  induction ops as [|op ops IH]; intros vs; [done|]. simpl. intros [Hop Hops]%andb_true_iff. split.
  - destruct op; simpl in *; rewrite ?andb_true_iff, ?Nat.ltb_lt in Hop; try (split; [apply Hop|apply count_okb_ok, Hop]); auto using row_okb_ok.
  - destruct (spec_mask_op vs op) as [[vs' a]| |]; auto.
Qed.

(** Merging into a mask that is all true shares the buffer: what is cleared in
    the one is cleared in the other; a deep copy is not affected. *)
Definition sample_mask_ops : list mask_op :=
  [OInitialize 0 64; OSet 0 3 false; OInitialize 1 64; OMerge 1 0; ODeepCopy 2 0; OSet 1 5 false; OIsTrue 0 5; OCountTrue 0; OResize 2 128; OCountTrue 2; OCountFalse 2;
   OSetAllFalse 0; OCountTrue 1; OSetAllTrue 1; OIsAllTrue 1; OIsAllTrue 0].

Definition sample_answers : list mask_answer :=
  [MDone; MDone; MDone; MDone; MDone; MDone; MYes false; MNumber 62; MDone; MNumber 127; MNumber 1; MDone; MNumber 0; MDone; MYes true; MYes false].

Lemma sample_mask_ops_ok : mask_ops_ok (new_vectors 3) sample_mask_ops.
Proof. apply mask_ops_okb_ok. vm_compute. reflexivity. Qed.

Definition sample_vectors : Vectors := [(3%nat, replicate 64 false); (6%nat, trues 64); (5%nat, <[3%nat := false]> (trues 128))].

Lemma sample_mask_spec : run_mask_ops spec_mask_op (new_vectors 3) sample_mask_ops = Ret (sample_vectors, sample_answers).
Proof. vm_compute. reflexivity. Qed.

Lemma bitmask_refines_vectors_witness :
  mask_ops_ok (new_vectors 3) sample_mask_ops /\ exists s, run_mask_ops run_mask_op (new_masks 3) sample_mask_ops = Ret (s, sample_answers).
Proof.
  split; [exact sample_mask_ops_ok|]. pose proof (bitmask_refines_vectors 3 sample_mask_ops sample_mask_ops_ok) as H.
  rewrite sample_mask_spec in H. destruct H as (s & Hs & _). exists s. exact Hs.
Defined.

Definition sample_mask : Bitmask := mkBitmask (Some 1%positive) 64.
Definition sample_buffers : Buffers := {[ 1%positive := mkBitmaskBuffer [UNIT_MAX - 8] 64 ]}.

Lemma sample_mask_ok : mask_ok sample_buffers sample_mask (buffer_bits [UNIT_MAX - 8]).
Proof.
  split; [done|]. split; [right; split; [done|simpl; lia]|]. simpl. split; [done|]. eexists. split; [done|]. split; [|done]. constructor; [|done]. unfold u_range, UNIT_MAX. simpl. lia.
Qed.

Lemma bitmask_roundtrip_witness :
  mask_ok sample_buffers sample_mask (buffer_bits [UNIT_MAX - 8]) /\ count_ sample_mask < 2 ^ 31 /\
  exists w h'' m', Bitmask_WriteAdv sample_buffers sample_mask = Ret w /\ Bitmask_ReadAdv ∅ (w ++ [7]) = Ret ((h'', m'), [7]).
Proof.
  split; [exact sample_mask_ok|]. split; [simpl; lia|].
  destruct (bitmask_roundtrip sample_buffers sample_mask _ ∅ [7] sample_mask_ok ltac:(simpl; lia)) as (w & h'' & m' & Hw & _ & Hr & _). exists w, h'', m'. split; [exact Hw|exact Hr].
Defined.

(** Of a mask of 8 rows with one cleared, the rows that are true are counted up to
    the end of the unit. *)
Lemma small_mask_count : (m ← Bitmask_Make 8; '(h, m) ← SetFalse ∅ m 0; CountTrue h m) = Ret 63.
Proof. reflexivity. Qed.

(** Growing a mask of 4 rows copies no byte, and the cleared row is lost. *)
Lemma small_mask_resize : (m ← Bitmask_Make 4; '(h, m) ← SetFalse ∅ m 0; '(h, m) ← Resize h m 64; IsTrue h m 0) = Ret true.
Proof. vm_compute. reflexivity. Qed.

(** Two masks that are all true, one of them after its row is set again, differ. *)
Lemma all_true_masks_differ : (m ← Bitmask_Make 64; '(h, m') ← SetFalse ∅ m 0; h ← SetTrue h m' 0; Bitmask_eq h m m') = Ret false.
Proof. vm_compute. reflexivity. Qed.

(** Without a buffer the row after the last is printed, too. *)
Lemma all_true_to_string : (m ← Bitmask_Make 64; Bitmask_ToString ∅ m 0 2) = Ret "BITMASK(2): 111".
Proof. vm_compute. reflexivity. Qed.
