(* ===== verification/Distance.v ===== *)
(** * Distances and their order

    The comparisons of [CompareMax] and [CompareMin] in
    [storage/knnindex/result_handler.cppm], over any type of distances whose
    [operator<] is a strict weak order: the integers, and the binary
    floating-point numbers other than NaN. *)
From Stdlib Require Import SpecFloat.
From S2P Require Import Prelude.

Local Open Scope Z_scope.

(** ** The interface of a distance type *)

(** [operator<], [operator<=], [operator==], [std::numeric_limits::max] and
    [lowest]. *)
Class Distance (D : Type) := {
  d_lt : D -> D -> bool;
  d_le : D -> D -> bool;
  d_eq : D -> D -> bool;
  LimitMax : D;
  LimitLowest : D
}.

Class DistanceLaws (D : Type) `{Distance D} := {
  d_lt_irrefl a : d_lt a a = false;
  d_lt_trans a b c : d_lt a b = true -> d_lt b c = true -> d_lt a c = true;
  d_lt_neg_trans a b c : d_lt a b = false -> d_lt b c = false -> d_lt a c = false;
  d_le_spec a b : d_le a b = negb (d_lt b a);
  d_eq_spec a b : d_eq a b = negb (d_lt a b) && negb (d_lt b a)
}.

(** [std::max(a, b)] *)
Definition d_max {D} `{Distance D} (a b : D) : D := if d_lt a b then b else a.

(** [CompareMax] when [is_max], [CompareMin] otherwise. *)
Definition Compare {D} `{Distance D} (is_max : bool) (a b : D) : bool := if is_max then d_lt b a else d_lt a b.
Definition InitialValue {D} `{Distance D} (is_max : bool) : D := if is_max then LimitMax else LimitLowest.

(** ** The order of a comparison

    [Compare a b] says that [b] is better than [a]. *)

Section Order.
Context {D : Type} `{DistanceLaws D} (is_max : bool).
Implicit Types a b c : D.
Abbreviation Compare := (Compare is_max).

Lemma cmp_irrefl a : Compare a a = false.
Proof. unfold Distance.Compare. destruct is_max; apply d_lt_irrefl. Qed.

Lemma cmp_trans a b c : Compare a b = true -> Compare b c = true -> Compare a c = true.
Proof. unfold Distance.Compare. destruct is_max; eauto using d_lt_trans. Qed.

Lemma cmp_neg_trans a b c : Compare a b = false -> Compare b c = false -> Compare a c = false.
Proof. unfold Distance.Compare. destruct is_max; eauto using d_lt_neg_trans. Qed.

Lemma cmp_asym a b : Compare a b = true -> Compare b a = false.
Proof. intros Hab. apply not_true_is_false. intros Hba. pose proof (cmp_trans a b a Hab Hba) as Haa. by rewrite cmp_irrefl in Haa. Qed.

(** What is not better than [b] is not better than what is better than [b]. *)
Lemma cmp_lt_le a b c : Compare a b = true -> Compare c b = false -> Compare a c = true.
Proof. intros Hab Hcb. apply not_false_is_true. intros Hac. pose proof (cmp_neg_trans a c b Hac Hcb). congruence. Qed.

Lemma cmp_le_lt a b c : Compare a b = false -> Compare c b = true -> Compare c a = true.
Proof. intros Hab Hcb. apply not_false_is_true. intros Hca. pose proof (cmp_neg_trans c a b Hca Hab). congruence. Qed.

Lemma cmp_le_lt' a b c : Compare a b = false -> Compare a c = true -> Compare b c = true.
Proof. intros Hab Hac. apply not_false_is_true. intros Hbc. pose proof (cmp_neg_trans a b c Hab Hbc). congruence. Qed.

Lemma cmp_eq a b : d_eq a b = negb (Compare a b) && negb (Compare b a).
Proof. unfold Distance.Compare. rewrite d_eq_spec. destruct is_max; [apply andb_comm|done]. Qed.

Lemma d_max_or a b : d_max a b = a \/ d_max a b = b.
Proof. unfold d_max. destruct (d_lt a b); auto. Qed.

End Order.

Create HintDb distance.
#[export] Hint Resolve cmp_irrefl cmp_asym : distance.

(** ** Integers *)

#[export] Instance Z_distance : Distance Z := { d_lt := Z.ltb; d_le := Z.leb; d_eq := Z.eqb; LimitMax := 2 ^ 63 - 1; LimitLowest := - 2 ^ 63 }.

#[export] Instance Z_distance_laws : DistanceLaws Z.
Proof. split; simpl; intros; lia. Qed.

(** ** Floating-point numbers *)

Definition is_nan (x : spec_float) : bool := match x with S754_nan => true | _ => false end.

(** A binary floating-point number that is not NaN. *)
Record Number := mkNumber { value : spec_float; not_nan : is_nan value = false }.

(** The limits of [f32], 24 bits of precision and exponents below 128. *)
#[export] Instance f32_distance : Distance Number := {
  d_lt a b := SFltb (value a) (value b);
  d_le a b := SFleb (value a) (value b);
  d_eq a b := SFeqb (value a) (value b);
  LimitMax := mkNumber (S754_finite false (2 ^ 24 - 1) 104) eq_refl;
  LimitLowest := mkNumber (S754_finite true (2 ^ 24 - 1) 104) eq_refl
}.

(** The [f32] nearest to an integer. *)
Definition number_of (x : spec_float) : Number :=
  match x with
  | S754_zero s => mkNumber (S754_zero s) eq_refl
  | S754_infinity s => mkNumber (S754_infinity s) eq_refl
  | S754_finite s m e => mkNumber (S754_finite s m e) eq_refl
  | S754_nan => LimitMax
  end.
Definition f32_of (z : Z) : Number := number_of (binary_normalize 24 128 z 0 false).

(** Numbers are ordered by sign, exponent and mantissa. *)
Definition rank (x : spec_float) : Z * Z * Z :=
  match x with
  | S754_zero _ | S754_nan => (0, 0, 0)
  | S754_infinity s => (if s then -2 else 2, 0, 0)
  | S754_finite s m e => if s then (-1, - e, - Z.pos m) else (1, e, Z.pos m)
  end.

Definition rank_compare (x y : Z * Z * Z) : comparison :=
  match Z.compare x.1.1 y.1.1 with
  | Eq => match Z.compare x.1.2 y.1.2 with Eq => Z.compare x.2 y.2 | c => c end
  | c => c
  end.

Lemma compare_rank x y : is_nan x = false -> is_nan y = false -> SFcompare x y = Some (rank_compare (rank x) (rank y)).
Proof.
  destruct x as [s| [] | |[] m e], y as [s'| [] | |[] m' e']; try done; intros _ _; simpl; f_equal; unfold rank_compare; simpl.
  - rewrite Z.compare_opp, (Z.compare_antisym e e'). by destruct (e ?= e').
Qed.

Lemma rank_lt_cases x y :
  rank_compare x y = Lt <-> x.1.1 < y.1.1 \/ x.1.1 = y.1.1 /\ (x.1.2 < y.1.2 \/ x.1.2 = y.1.2 /\ x.2 < y.2).
Proof. unfold rank_compare. destruct (Z.compare_spec x.1.1 y.1.1), (Z.compare_spec x.1.2 y.1.2), (Z.compare_spec x.2 y.2); split; intros; try done; lia. Qed.

Lemma rank_swap x y : rank_compare y x = CompOpp (rank_compare x y).
Proof. unfold rank_compare. rewrite (Z.compare_antisym x.1.1), (Z.compare_antisym x.1.2), (Z.compare_antisym x.2). by destruct (_ ?= _), (_ ?= _). Qed.

Definition rank_ltb (a b : Number) : bool := match rank_compare (rank (value a)) (rank (value b)) with Lt => true | _ => false end.

Lemma number_lt a b : d_lt a b = rank_ltb a b.
Proof. simpl. unfold SFltb, rank_ltb. by rewrite compare_rank by apply not_nan. Qed.

Lemma rank_ltb_true a b : rank_ltb a b = true <-> rank_compare (rank (value a)) (rank (value b)) = Lt.
Proof. unfold rank_ltb. by destruct (rank_compare _ _). Qed.

#[export] Instance f32_distance_laws : DistanceLaws Number.
Proof.
  split.
  - intros a. rewrite number_lt. apply not_true_is_false. rewrite rank_ltb_true, rank_lt_cases. lia.
  - intros a b c. rewrite !number_lt, !rank_ltb_true, !rank_lt_cases. lia.
  - intros a b c. rewrite !number_lt, <- !not_true_iff_false, !rank_ltb_true, !rank_lt_cases. lia.
  - intros a b. rewrite number_lt. unfold rank_ltb. rewrite rank_swap. simpl. unfold SFleb. rewrite compare_rank by apply not_nan. by destruct (rank_compare _ _).
  - intros a b. rewrite !number_lt. unfold rank_ltb. rewrite (rank_swap (rank (value a))). simpl. unfold SFeqb. rewrite compare_rank by apply not_nan. by destruct (rank_compare _ _).
Qed.
