(* ===== verification/ResultHandler.v ===== *)
(** * The handlers of search results

    [storage/knnindex/result_handler.cppm]: what a nearest-neighbour search does
    with the distances it computes.  [HeapResultHandler] keeps the [top_k] best of
    each query in a heap, [SingleBestResultHandler] the best one, and
    [ReservoirResultHandler] at least the [top_k] best of a reservoir that is
    partitioned when it is full.  The arrays of the results are lists of the
    caller, with a window of [top_k] elements for each query. *)
From S2P Require Import Prelude Defs Arrays Bitmask Distance.

Local Open Scope Z_scope.

Section Handlers.
Context {D I : Type} `{Distance D} (is_max : bool).
Abbreviation Compare := (Compare is_max).
Abbreviation InitialValue := (InitialValue is_max).

(** ** Heaps

    [distance[k]] of the source is the element [base + k] of the array, for
    [k] from 1. *)

(** The loop of [HeapifyDown] and the two assignments behind it. *)
Fixpoint HeapifyLoop (fuel : nat) (distance : list D) (id : list I) (base size index : Z) (tmp_d : D) (tmp_i : I) : outcome (list D * list I) :=
  match fuel with
  | O => UB "out of fuel"
  | S fuel =>
      let sub := to_u32 (Z.shiftl index 1) in
      if sub <=? size then
        sub ← (if to_u32 (sub + 1) <=? size then
                 a ← at_index distance (base + to_u32 (sub + 1)); b ← at_index distance (base + sub);
                 Ret (if Compare a b then to_u32 (sub + 1) else sub)
               else Ret sub);
        d ← at_index distance (base + sub);
        if negb (Compare d tmp_d) : bool then
          distance ← set_index distance (base + index) tmp_d; id ← set_index id (base + index) tmp_i; Ret (distance, id)
        else
          distance ← set_index distance (base + index) d;
          i ← at_index id (base + sub);
          id ← set_index id (base + index) i;
          HeapifyLoop fuel distance id base size sub tmp_d tmp_i
      else
        distance ← set_index distance (base + index) tmp_d; id ← set_index id (base + index) tmp_i; Ret (distance, id)
  end.

Definition HeapifyDown (distance : list D) (id : list I) (base size index : Z) : outcome (list D * list I) :=
  if (index =? 0) || (to_u32 (Z.shiftl index 1) >? size) then Ret (distance, id)
  else
    tmp_d ← at_index distance (base + index);
    tmp_i ← at_index id (base + index);
    HeapifyLoop 33 distance id base size index tmp_d tmp_i.

(** [for (u32 index = n; index > 0; --index) HeapifyDown(distance, id, size, index);] *)
Fixpoint HeapifyAll (n : nat) (distance : list D) (id : list I) (base size : Z) : outcome (list D * list I) :=
  match n with
  | O => Ret (distance, id)
  | S n' => '(distance, id) ← HeapifyDown distance id base size (Z.of_nat n); HeapifyAll n' distance id base size
  end.

(** [std::swap(table[i], table[j])] *)
Definition swap_index {A} (table : list A) (i j : Z) : outcome (list A) :=
  x ← at_index table i; y ← at_index table j; table ← set_index table i y; set_index table j x.

(** [while (size > 1)] with the root moved behind the heap, from [size = n]. *)
Fixpoint HeapSort (n : nat) (distance : list D) (id : list I) (base : Z) : outcome (list D * list I) :=
  match n with
  | O => Ret (distance, id)
  | S n' =>
      if Z.of_nat n >? 1 then
        distance ← swap_index distance (base + Z.of_nat n) (base + 1);
        id ← swap_index id (base + Z.of_nat n) (base + 1);
        '(distance, id) ← HeapifyDown distance id base (Z.of_nat n') 1;
        HeapSort n' distance id base
      else Ret (distance, id)
  end.

(** A candidate for a full heap. *)
Definition ReplaceRoot (distance : list D) (id : list I) (base size : Z) (d : D) (i : I) : outcome (list D * list I) :=
  root ← at_index distance (base + 1);
  if Compare root d : bool then
    distance ← set_index distance (base + 1) d;
    id ← set_index id (base + 1) i;
    HeapifyDown distance id base size 1
  else Ret (distance, id).

(** ** [HeapResultHandler] *)

Record HeapResultHandler := mkHeapResultHandler {
  h_n_queries : Z;
  h_top_k : Z;
  h_distance_ptr : list D;
  h_id_ptr : list I;
  h_sizes : list Z
}.

Definition NewHeapResultHandler (n_queries top_k : Z) (distance : list D) (id : list I) : HeapResultHandler :=
  mkHeapResultHandler n_queries (to_u32 top_k) distance id (replicate (Z.to_nat n_queries) 0).

(** The window of a query, one element before its start. *)
Definition heap_base (h : HeapResultHandler) (q_id : Z) : Z := q_id * h_top_k h - 1.

Definition h_with (h : HeapResultHandler) (q_id size : Z) (arrays : list D * list I) : outcome HeapResultHandler :=
  sizes ← set_index (h_sizes h) q_id size; Ret (mkHeapResultHandler (h_n_queries h) (h_top_k h) arrays.1 arrays.2 sizes).

Definition Heap_GetDistance0 (h : HeapResultHandler) (q_id : Z) : outcome D := at_index (h_distance_ptr h) (q_id * h_top_k h).
Definition Heap_GetSize (h : HeapResultHandler) (q_id : Z) : outcome Z := at_index (h_sizes h) q_id.

Definition Heap_ReInitialize (h : HeapResultHandler) : HeapResultHandler :=
  mkHeapResultHandler (h_n_queries h) (h_top_k h) (h_distance_ptr h) (h_id_ptr h) ((fun _ => 0) <$> h_sizes h).

Definition Heap_AddResult (h : HeapResultHandler) (q_id : Z) (d : D) (i : I) : outcome HeapResultHandler :=
  size ← at_index (h_sizes h) q_id;
  let base := heap_base h q_id in
  if size =? h_top_k h then
    arrays ← ReplaceRoot (h_distance_ptr h) (h_id_ptr h) base size d i; h_with h q_id size arrays
  else
    let size := to_u32 (size + 1) in
    distance ← set_index (h_distance_ptr h) (base + size) d;
    id ← set_index (h_id_ptr h) (base + size) i;
    arrays ← (if size =? h_top_k h then HeapifyAll (Z.to_nat (size / 2)) distance id base size else Ret (distance, id));
    h_with h q_id size arrays.

Definition Heap_End (h : HeapResultHandler) (q_id : Z) : outcome HeapResultHandler :=
  size ← at_index (h_sizes h) q_id;
  let base := heap_base h q_id in
  '(distance, id) ← (if size <? h_top_k h then
                       distance ← fill (h_distance_ptr h) (base + size + 1) (h_top_k h - size) InitialValue;
                       HeapifyAll (Z.to_nat (size / 2)) distance (h_id_ptr h) base size
                     else Ret (h_distance_ptr h, h_id_ptr h));
  arrays ← HeapSort (Z.to_nat size) distance id base;
  h_with h q_id 0 arrays.

(** [for (i = i_start; i < i_end; ++i) f(i)], [n = i_end - i] to go. *)
Fixpoint for_range {S} (f : S -> Z -> outcome S) (n : nat) (i : Z) (s : S) : outcome S :=
  match n with
  | O => Ret s
  | S n => s ← f s i; for_range f n (i + 1) s
  end.

Definition Heap_EndRange (h : HeapResultHandler) (i_start i_end : Z) : outcome HeapResultHandler := for_range Heap_End (Z.to_nat (i_end - i_start)) i_start h.
Definition Heap_EndAll (h : HeapResultHandler) : outcome HeapResultHandler := for_range Heap_End (Z.to_nat (h_n_queries h)) 0 h.

Definition Heap_EndWithoutSort (h : HeapResultHandler) (q_id : Z) : outcome HeapResultHandler :=
  size ← at_index (h_sizes h) q_id;
  if size <? h_top_k h then
    distance ← fill (h_distance_ptr h) (q_id * h_top_k h + size) (h_top_k h - size) InitialValue;
    Ret (mkHeapResultHandler (h_n_queries h) (h_top_k h) distance (h_id_ptr h) (h_sizes h))
  else Ret h.

Definition Heap_EndWithoutSortAll (h : HeapResultHandler) : outcome HeapResultHandler := for_range Heap_EndWithoutSort (Z.to_nat (h_n_queries h)) 0 h.

(** ** [SingleBestResultHandler] *)

Record SingleBestResultHandler := mkSingleBestResultHandler {
  s_n_queries : Z;
  s_distance_ptr : list D;
  s_id_ptr : list I
}.

Definition Single_Begin (h : SingleBestResultHandler) (i : Z) : outcome SingleBestResultHandler :=
  distance ← set_index (s_distance_ptr h) i InitialValue; Ret (mkSingleBestResultHandler (s_n_queries h) distance (s_id_ptr h)).

Definition Single_BeginRange (h : SingleBestResultHandler) (i_start i_end : Z) : outcome SingleBestResultHandler :=
  distance ← fill (s_distance_ptr h) i_start (i_end - i_start) InitialValue; Ret (mkSingleBestResultHandler (s_n_queries h) distance (s_id_ptr h)).

Definition Single_BeginAll (h : SingleBestResultHandler) : outcome SingleBestResultHandler :=
  distance ← fill (s_distance_ptr h) 0 (s_n_queries h) InitialValue; Ret (mkSingleBestResultHandler (s_n_queries h) distance (s_id_ptr h)).

Definition Single_ReInitialize (h : SingleBestResultHandler) : outcome SingleBestResultHandler := Single_BeginAll h.

Definition Single_AddResult (h : SingleBestResultHandler) (i : Z) (dis : D) (idx : I) : outcome SingleBestResultHandler :=
  min_distance ← at_index (s_distance_ptr h) i;
  _ ← at_index (s_id_ptr h) i;
  if Compare min_distance dis : bool then
    distance ← set_index (s_distance_ptr h) i dis;
    id ← set_index (s_id_ptr h) i idx;
    Ret (mkSingleBestResultHandler (s_n_queries h) distance id)
  else Ret h.

(** ** [ReservoirResultHandler] *)

Definition median3 (a b c : D) : D :=
  let '(a, b) := if d_lt b a then (b, a) else (a, b) in
  if d_le b c then b else d_max a c.

Fixpoint count_lt_and_eq (vals : list D) (base : Z) (i : Z) (n : nat) (thresh : D) (n_lt n_eq : Z) : outcome (Z * Z) :=
  match n with
  | O => Ret (n_lt, n_eq)
  | S n =>
      v ← at_index vals (base + i);
      let '(n_lt, n_eq) := if Compare thresh v then (n_lt + 1, n_eq) else if d_eq v thresh then (n_lt, n_eq + 1) else (n_lt, n_eq) in
      count_lt_and_eq vals base (i + 1) n thresh n_lt n_eq
  end.

Definition big_prime : Z := 6700417.

Definition between (thresh_inf thresh_sup v : D) : bool := Compare v thresh_inf && Compare thresh_sup v.

(** The first loop of [sample_threshold_median3] from [i], [todo] to go;
    [val3] are the values found. *)
Fixpoint sample_loop (vals : list D) (base n i : Z) (todo : nat) (thresh_inf thresh_sup : D) (val3 : list D) : outcome (list D) :=
  match todo with
  | O => Ret val3
  | S todo =>
      v ← at_index vals (base + to_u64 (i * big_prime) mod n);
      if between thresh_inf thresh_sup v then
        let val3 := val3 ++ [v] in
        if (length val3 =? 3)%nat then Ret val3 else sample_loop vals base n (i + 1) todo thresh_inf thresh_sup val3
      else sample_loop vals base n (i + 1) todo thresh_inf thresh_sup val3
  end.

(** The second loop. *)
Fixpoint first_between (vals : list D) (base i : Z) (todo : nat) (thresh_inf thresh_sup : D) : outcome D :=
  match todo with
  | O => Ret thresh_inf
  | S todo =>
      v ← at_index vals (base + i);
      if between thresh_inf thresh_sup v then Ret v else first_between vals base (i + 1) todo thresh_inf thresh_sup
  end.

Definition sample_threshold_median3 (vals : list D) (base n : Z) (thresh_inf thresh_sup : D) : outcome D :=
  val3 ← sample_loop vals base n 0 (Z.to_nat n) thresh_inf thresh_sup [];
  match val3 with
  | [a; b; c] => Ret (median3 a b c)
  | a :: _ => Ret a
  | [] => first_between vals base 0 (Z.to_nat n) thresh_inf thresh_sup
  end.

(** The element [i] is kept at [wp]. *)
Definition keep (vals : list D) (ids : list I) (base i wp : Z) : outcome (list D * list I) :=
  if negb (wp =? i) then
    v ← at_index vals (base + i);
    vals ← set_index vals (base + wp) v;
    x ← at_index ids (base + i);
    ids ← set_index ids (base + wp) x;
    Ret (vals, ids)
  else Ret (vals, ids).

Fixpoint compress_loop (vals : list D) (ids : list I) (base i : Z) (todo : nat) (thresh : D) (n_eq wp : Z) : outcome (list D * list I * Z * Z) :=
  match todo with
  | O => Ret (vals, ids, n_eq, wp)
  | S todo =>
      v ← at_index vals (base + i);
      if Compare thresh v : bool then
        '(vals, ids) ← keep vals ids base i wp; compress_loop vals ids base (i + 1) todo thresh n_eq (wp + 1)
      else if (n_eq >? 0) && d_eq v thresh then
        '(vals, ids) ← keep vals ids base i wp; compress_loop vals ids base (i + 1) todo thresh (n_eq - 1) (wp + 1)
      else compress_loop vals ids base (i + 1) todo thresh n_eq wp
  end.

Definition compress_array (vals : list D) (ids : list I) (base n : Z) (thresh : D) (n_eq : Z) : outcome (list D * list I * Z) :=
  '(vals, ids, n_eq, wp) ← compress_loop vals ids base 0 (Z.to_nat n) thresh n_eq 0;
  if negb (n_eq =? 0) then Throw ExecutorException "compress_array error: n_eq != 0" else Ret (vals, ids, wp).

(** The loop of [partition_median3], [fuel] iterations to go: the threshold,
    [n_lt] of the last iteration, and [q]. *)
Fixpoint partition_loop (fuel : nat) (vals : list D) (base n q_min q_max : Z) (thresh_inf thresh_sup thresh : D) (n_lt : Z) : outcome (D * Z * Z) :=
  match fuel with
  | O => Ret (thresh, n_lt, 0)
  | S fuel =>
      '(n_lt, n_eq) ← count_lt_and_eq vals base 0 (Z.to_nat n) thresh 0 0;
      let next thresh_inf thresh_sup :=
        new_thresh ← sample_threshold_median3 vals base n thresh_inf thresh_sup;
        if d_eq new_thresh thresh_inf : bool then Throw ExecutorException "partition_median3 error: new_thresh == thresh_inf"
        else partition_loop fuel vals base n q_min q_max thresh_inf thresh_sup new_thresh n_lt in
      if n_lt <=? q_min then
        if n_lt + n_eq >=? q_min then Ret (thresh, n_lt, q_min) else next thresh thresh_sup
      else if n_lt <=? q_max then Ret (thresh, n_lt, n_lt)
      else next thresh_inf thresh
  end.

Definition partition_median3 (vals : list D) (ids : list I) (base n q_min q_max : Z) : outcome (list D * list I * Z * D) :=
  if n <? 3 then Throw ExecutorException "partition_median3 error: n < 3"
  else
    a ← at_index vals base;
    b ← at_index vals (base + n / 2);
    c ← at_index vals (base + (n - 1));
    '(thresh, n_lt, q) ← partition_loop 200 vals base n q_min q_max (Distance.InitialValue (negb is_max)) InitialValue (median3 a b c) 0;
    if q <? n_lt then Throw ExecutorException "partition_median3 error: q < n_lt"
    else
      '(vals, ids, wp) ← compress_array vals ids base n thresh (q - n_lt);
      if negb (wp =? q) then Throw ExecutorException "partition_median3 error: wp != q" else Ret (vals, ids, q, thresh).

Record ReservoirResultHandler := mkReservoirResultHandler {
  r_n_queries : Z;
  r_top_k : Z;
  r_capacity : Z;
  r_distance_ptr : list D;
  r_id_ptr : list I;
  r_sizes : list Z;
  r_thresholds : list D;
  reservoir_distance_ptr : list D;
  reservoir_id_ptr : list I
}.

Definition reservoir_capacity (top_k : Z) : Z := let capacity := to_u64 (2 * top_k) in if capacity <? 8 then 8 else capacity.

(** The reservoirs are arrays with unspecified contents [rd] and [ri]. *)
Definition NewReservoirResultHandler (n_queries top_k : Z) (distance : list D) (id : list I) (rd : list D) (ri : list I) : ReservoirResultHandler :=
  mkReservoirResultHandler n_queries top_k (reservoir_capacity top_k) distance id (replicate (Z.to_nat n_queries) 0) (replicate (Z.to_nat n_queries) InitialValue) rd ri.

Definition Reservoir_ReInitialize (h : ReservoirResultHandler) : ReservoirResultHandler :=
  mkReservoirResultHandler (r_n_queries h) (r_top_k h) (r_capacity h) (r_distance_ptr h) (r_id_ptr h)
    ((fun _ => 0) <$> r_sizes h) ((fun _ => InitialValue) <$> r_thresholds h) (reservoir_distance_ptr h) (reservoir_id_ptr h).

Definition Reservoir_GetThreshold (h : ReservoirResultHandler) (q_id : Z) : outcome D := at_index (r_thresholds h) q_id.
Definition Reservoir_GetSize (h : ReservoirResultHandler) (q_id : Z) : outcome Z := at_index (r_sizes h) q_id.

Definition Reservoir_AddResult (h : ReservoirResultHandler) (q_id : Z) (distance : D) (id : I) : outcome ReservoirResultHandler :=
  let base := q_id * r_capacity h in
  size ← at_index (r_sizes h) q_id;
  bar ← at_index (r_thresholds h) q_id;
  if Compare bar distance : bool then
    '(rd, ri, size, bar) ← (if size =? r_capacity h then
                              partition_median3 (reservoir_distance_ptr h) (reservoir_id_ptr h) base (r_capacity h) (r_top_k h) ((r_capacity h + r_top_k h) / 2)
                            else Ret (reservoir_distance_ptr h, reservoir_id_ptr h, size, bar));
    rd ← set_index rd (base + size) distance;
    ri ← set_index ri (base + size) id;
    sizes ← set_index (r_sizes h) q_id (size + 1);
    thresholds ← set_index (r_thresholds h) q_id bar;
    Ret (mkReservoirResultHandler (r_n_queries h) (r_top_k h) (r_capacity h) (r_distance_ptr h) (r_id_ptr h) sizes thresholds rd ri)
  else Ret h.

(** [memcpy] of [n] elements of [source] at [j] to [target] at [i]. *)
Definition copy_elements {A} (target : list A) (i : Z) (source : list A) (j n : Z) : outcome (list A) :=
  if (i <? 0) || (j <? 0) || (n <? 0) || (Z.of_nat (length target) <? i + n) || (Z.of_nat (length source) <? j + n) then UB "memcpy out of range"
  else Ret (take (Z.to_nat i) target ++ take (Z.to_nat n) (drop (Z.to_nat j) source) ++ drop (Z.to_nat (i + n)) target).

(** The candidates from [j] on, for the heap of the results. *)
Fixpoint replace_rest (distance : list D) (id : list I) (base top_k : Z) (rd : list D) (ri : list I) (rbase j : Z) (todo : nat) : outcome (list D * list I) :=
  match todo with
  | O => Ret (distance, id)
  | S todo =>
      d ← at_index rd (rbase + j);
      i ← at_index ri (rbase + j);
      '(distance, id) ← ReplaceRoot distance id base top_k d i;
      replace_rest distance id base top_k rd ri rbase (j + 1) todo
  end.

Definition r_with (h : ReservoirResultHandler) (q_id size : Z) (arrays : list D * list I) : outcome ReservoirResultHandler :=
  sizes ← set_index (r_sizes h) q_id size;
  Ret (mkReservoirResultHandler (r_n_queries h) (r_top_k h) (r_capacity h) arrays.1 arrays.2 sizes (r_thresholds h) (reservoir_distance_ptr h) (reservoir_id_ptr h)).

Definition Reservoir_End (h : ReservoirResultHandler) (q_id : Z) : outcome ReservoirResultHandler :=
  let top_k := r_top_k h in
  let rbase := q_id * r_capacity h in
  size ← at_index (r_sizes h) q_id;
  let result_size := Z.min size top_k in
  distance ← copy_elements (r_distance_ptr h) (q_id * top_k) (reservoir_distance_ptr h) rbase result_size;
  id ← copy_elements (r_id_ptr h) (q_id * top_k) (reservoir_id_ptr h) rbase result_size;
  let base := q_id * top_k - 1 in
  '(distance, id) ← HeapifyAll (Z.to_nat (to_u32 (result_size / 2))) distance id base (to_u32 result_size);
  '(distance, id) ← (if size <? top_k then
                       distance ← fill distance (base + size + 1) (top_k - size) InitialValue; Ret (distance, id)
                     else replace_rest distance id base (to_u32 top_k) (reservoir_distance_ptr h) (reservoir_id_ptr h) rbase top_k (Z.to_nat (size - top_k)));
  arrays ← HeapSort (Z.to_nat result_size) distance id base;
  r_with h q_id result_size arrays.

Definition Reservoir_EndAll (h : ReservoirResultHandler) : outcome ReservoirResultHandler := for_range Reservoir_End (Z.to_nat (r_n_queries h)) 0 h.

Definition Reservoir_EndWithoutSort (h : ReservoirResultHandler) (q_id : Z) : outcome ReservoirResultHandler :=
  let top_k := r_top_k h in
  let rbase := q_id * r_capacity h in
  size ← at_index (r_sizes h) q_id;
  let result_size := Z.min size top_k in
  distance ← copy_elements (r_distance_ptr h) (q_id * top_k) (reservoir_distance_ptr h) rbase result_size;
  id ← copy_elements (r_id_ptr h) (q_id * top_k) (reservoir_id_ptr h) rbase result_size;
  let base := q_id * top_k - 1 in
  arrays ← (if size <? top_k then
              distance ← fill distance (base + size + 1) (top_k - size) InitialValue; Ret (distance, id)
            else if size >? top_k then
              '(distance, id) ← HeapifyAll (Z.to_nat (to_u32 (result_size / 2))) distance id base (to_u32 result_size);
              replace_rest distance id base (to_u32 top_k) (reservoir_distance_ptr h) (reservoir_id_ptr h) rbase top_k (Z.to_nat (size - top_k))
            else Ret (distance, id));
  r_with h q_id result_size arrays.

Definition Reservoir_EndWithoutSortAll (h : ReservoirResultHandler) : outcome ReservoirResultHandler := for_range Reservoir_EndWithoutSort (Z.to_nat (r_n_queries h)) 0 h.

End Handlers.

Arguments HeapResultHandler : clear implicits.
Arguments SingleBestResultHandler : clear implicits.
Arguments ReservoirResultHandler : clear implicits.

(** ** Tables of distances

    [dis_tab] has a row for each query from [i_start] to [i_end] and a column for
    each data row from [j0] to [j1] of a segment. *)

Section Tables.
Context {D : Type} `{Distance D} (is_max : bool).
Implicit Types (dis_tab : list D).

Definition tab_index (i_start j0 j1 q_id j : Z) : Z := (j1 - j0) * (q_id - i_start) - j0 + j.

(** The loops of [AddResults] around [AddResult]. *)
Definition AddTable {S} (add : S -> Z -> D -> RowID -> outcome S) (h : S) (i_start i_end j0 j1 : Z) dis_tab (segment_id segment_offset_start : Z) : outcome S :=
  for_range (fun h q_id =>
    for_range (fun h j =>
      dis ← at_index dis_tab (tab_index i_start j0 j1 q_id j);
      add h q_id dis (mkRowID segment_id (to_u32 (segment_offset_start + j)))) (Z.to_nat (j1 - j0)) j0 h) (Z.to_nat (i_end - i_start)) i_start h.

Definition AddTableMasked {S} (add : S -> Z -> D -> RowID -> outcome S) (h : S) (i_start i_end j0 j1 : Z) dis_tab (segment_id segment_offset_start : Z)
    (buffers : Buffers) (bitmask : Bitmask) : outcome S :=
  for_range (fun h q_id =>
    for_range (fun h j =>
      let segment_offset := segment_offset_start + j in
      visible ← IsTrue buffers bitmask segment_offset;
      if visible : bool then
        dis ← at_index dis_tab (tab_index i_start j0 j1 q_id j);
        add h q_id dis (mkRowID segment_id (to_u32 segment_offset))
      else Ret h) (Z.to_nat (j1 - j0)) j0 h) (Z.to_nat (i_end - i_start)) i_start h.

Definition Heap_AddResults (h : HeapResultHandler D RowID) := AddTable (Heap_AddResult is_max) h.
Definition Heap_AddResultsMasked (h : HeapResultHandler D RowID) := AddTableMasked (Heap_AddResult is_max) h.
Definition Reservoir_AddResults (h : ReservoirResultHandler D RowID) := AddTable (Reservoir_AddResult is_max) h.
Definition Reservoir_AddResultsMasked (h : ReservoirResultHandler D RowID) := AddTableMasked (Reservoir_AddResult is_max) h.

(** [SingleBestResultHandler::AddResults]: the best of the row is found first. *)
Definition Single_AddResults (h : SingleBestResultHandler D RowID) (i_start i_end j0 j1 : Z) dis_tab (segment_id segment_offset_start : Z) : outcome (SingleBestResultHandler D RowID) :=
  let no_j := 2 ^ 64 - 1 in
  for_range (fun h i =>
    min_distance ← at_index (s_distance_ptr h) i;
    '(tmp_min_distance, tmp_min_j) ←
      for_range (fun best j =>
        distance ← at_index dis_tab (tab_index i_start j0 j1 i j);
        Ret (if Compare is_max best.1 distance then (distance, j) else best)) (Z.to_nat (j1 - j0)) j0 (min_distance, no_j);
    if negb (tmp_min_j =? no_j) then
      distance ← set_index (s_distance_ptr h) i tmp_min_distance;
      id ← set_index (s_id_ptr h) i (mkRowID segment_id (to_u32 (segment_offset_start + tmp_min_j)));
      Ret (mkSingleBestResultHandler (s_n_queries h) distance id)
    else Ret h) (Z.to_nat (i_end - i_start)) i_start h.

End Tables.
