(* ===== verification/HeapProps.v ===== *)
(** * Correctness of the heaps

    What the heap operations of [ResultHandler] do to a window of the arrays, as
    operations on a list of pairs of a distance and an identifier, and that they
    keep, build and sort heaps.  [HeapResultHandler] keeps the [top_k] best. *)
From S2P Require Import Prelude Arrays Bits Distance ResultHandler.

Local Open Scope Z_scope.

(** ** The [k] best *)

Section Best.
Context {D I : Type} `{Distance D} (is_max : bool).
Abbreviation Compare := (Compare is_max).
Implicit Types (seen r v : list (D * I)).

(** [x] is not better than [y]. *)
Definition no_better (y x : D * I) : Prop := Compare y.1 x.1 = false.

Definition sorted_best r : Prop := forall i j x y, (i <= j)%nat -> r !! i = Some x -> r !! j = Some y -> no_better x y.

(** [r] are [k] of the results seen (all, if there are no more), none of the
    others is better than one of them. *)
Definition best_of (k : nat) seen r : Prop :=
  length r = Nat.min k (length seen) /\ exists rest, seen ≡ₚ r ++ rest /\ forall x y, x ∈ r -> y ∈ rest -> no_better x y.

(** The best first. *)
Definition top_k_of (k : nat) seen r : Prop := best_of k seen r /\ sorted_best r.

End Best.

(** ** Heaps as lists

    The element [k] of a heap, from 1, is the element [k - 1] of a list. *)

Section Heaps.
Context {D I : Type} `{DistanceLaws D} (is_max : bool).
Abbreviation Compare := (Compare is_max).
Abbreviation no_better := (no_better is_max).
Implicit Types (v : list (D * I)) (n k j c : nat).

Definition key v k : D := match v !! (k - 1)%nat with Some x => x.1 | None => LimitMax end.

Definition swap v a b : list (D * I) :=
  match v !! (a - 1)%nat, v !! (b - 1)%nat with
  | Some x, Some y => <[(b - 1)%nat := x]> (<[(a - 1)%nat := y]> v)
  | _, _ => v
  end.

Definition worse_child v n j : nat := if (2 * j + 1 <=? n)%nat && Compare (key v (2 * j + 1)) (key v (2 * j)) then (2 * j + 1)%nat else (2 * j)%nat.

Fixpoint sift (fuel : nat) v n j : list (D * I) :=
  match fuel with
  | O => v
  | S fuel =>
      if (2 * j <=? n)%nat then
        if Compare (key v (worse_child v n j)) (key v j) then sift fuel (swap v j (worse_child v n j)) n (worse_child v n j) else v
      else v
  end.

Fixpoint sift_all (fuel m : nat) v n : list (D * I) :=
  match m with
  | O => v
  | S m' => sift_all fuel m' (sift fuel v n m) n
  end.

Fixpoint heap_sort (fuel n : nat) v : list (D * I) :=
  match n with
  | O => v
  | S n' => if (1 <? n)%nat then heap_sort fuel n' (sift fuel (swap v n 1) n' 1) else v
  end.

(** What becomes of a full heap of [n] elements when [x] is offered. *)
Definition offer (fuel : nat) v n (x : D * I) : list (D * I) := if Compare (key v 1) x.1 then sift fuel (<[0%nat := x]> v) n 1 else v.

(** The elements from [a] on are not better than their children. *)
Definition heap_from v n a : Prop := forall k c, (1 <= k)%nat -> (a <= k)%nat -> (c = 2 * k \/ c = 2 * k + 1)%nat -> (c <= n)%nat -> Compare (key v c) (key v k) = false.

Lemma key_lookup v k x : v !! (k - 1)%nat = Some x -> key v k = x.1.
Proof. unfold key. by intros ->. Qed.

Lemma swap_length v a b : length (swap v a b) = length v.
Proof. unfold swap. destruct (v !! (a - 1)%nat), (v !! (b - 1)%nat); rewrite ?length_insert; done. Qed.

Lemma swap_perm v a b : swap v a b ≡ₚ v.
Proof. unfold swap. destruct (v !! (a - 1)%nat) eqn:Ea, (v !! (b - 1)%nat) eqn:Eb; try done. by apply Permutation_insert_swap. Qed.

Lemma swap_lookup_ne v a b k : k <> (a - 1)%nat -> k <> (b - 1)%nat -> swap v a b !! k = v !! k.
Proof. intros Ha Hb. unfold swap. destruct (v !! (a - 1)%nat), (v !! (b - 1)%nat); rewrite ?list_lookup_insert_ne; done. Qed.

Lemma swap_key v a b k : (1 <= a <= length v)%nat -> (1 <= b <= length v)%nat -> (1 <= k)%nat ->
  key (swap v a b) k = if decide (k = b) then key v a else if decide (k = a) then key v b else key v k.
Proof.
  intros Ha Hb Hk. unfold swap. destruct (lookup_lt_is_Some_2 v (a - 1)%nat ltac:(lia)) as [x Hx], (lookup_lt_is_Some_2 v (b - 1)%nat ltac:(lia)) as [y Hy].
  rewrite Hx, Hy, (key_lookup v a x), (key_lookup v b y) by done. unfold key at 1. destruct (decide (k = b)) as [->|Hkb].
  { by rewrite list_lookup_insert_eq by (rewrite length_insert; lia). }
  rewrite list_lookup_insert_ne by lia. destruct (decide (k = a)) as [->|Hka]; [by rewrite list_lookup_insert_eq by lia|]. by rewrite list_lookup_insert_ne by lia.
Qed.

Lemma worse_child_cases v n j : worse_child v n j = (2 * j)%nat \/ worse_child v n j = (2 * j + 1)%nat /\ (2 * j + 1 <= n)%nat.
Proof. unfold worse_child. destruct (2 * j + 1 <=? n)%nat eqn:E; [|auto]. apply Nat.leb_le in E. destruct (Compare _ _); simpl; auto. Qed.

(** The other child is not worse. *)
Lemma worse_child_worse v n j c : (c = 2 * j \/ c = 2 * j + 1)%nat -> (c <= n)%nat -> Compare (key v c) (key v (worse_child v n j)) = false.
Proof.
  intros Hc Hn. unfold worse_child. destruct (2 * j + 1 <=? n)%nat eqn:E; cbn [andb].
  - destruct (Compare (key v (2 * j + 1)) (key v (2 * j))) eqn:Hcmp; destruct Hc as [-> | ->]; first [done|apply cmp_irrefl|by apply cmp_asym].
  - apply Nat.leb_gt in E. destruct Hc as [-> | ->]; [apply cmp_irrefl|lia].
Qed.

Lemma sift_perm fuel : forall v n j, sift fuel v n j ≡ₚ v.
Proof. induction fuel as [|fuel IH]; intros v n j; [done|]. simpl. repeat case_match; try done. rewrite IH. apply swap_perm. Qed.

Lemma sift_length fuel v n j : length (sift fuel v n j) = length v.
Proof. apply Permutation_length, sift_perm. Qed.

Lemma sift_above fuel : forall v n j k, (1 <= j <= n)%nat -> (n <= k)%nat -> sift fuel v n j !! k = v !! k.
Proof.
  induction fuel as [|fuel IH]; intros v n j k Hj Hk; [done|]. cbn [sift]. destruct (2 * j <=? n)%nat eqn:E; [|done]. apply Nat.leb_le in E.
  destruct (Compare _ _); [|done]. pose proof (worse_child_cases v n j). rewrite IH by lia. apply swap_lookup_ne; lia.
Qed.

(** Sifting down from [j] when only [j] may be better than its children. *)
Lemma sift_heap_at fuel i n : forall v j, (1 <= i <= j)%nat -> (j <= n <= length v)%nat -> Z.of_nat n < Z.of_nat j * 2 ^ Z.of_nat fuel ->
  (forall k c, (i <= k)%nat -> k <> j -> (c = 2 * k \/ c = 2 * k + 1)%nat -> (c <= n)%nat -> Compare (key v c) (key v k) = false) ->
  (forall p c, (i <= p)%nat -> (j = 2 * p \/ j = 2 * p + 1)%nat -> (c = 2 * j \/ c = 2 * j + 1)%nat -> (c <= n)%nat -> Compare (key v c) (key v p) = false) ->
  heap_from (sift fuel v n j) n i.
Proof.
  induction fuel as [|fuel IH]; intros v j Hij Hn Hfuel Hheap Hup; [simpl in Hfuel; lia|]. rewrite Nat2Z.inj_succ, Z.pow_succ_r in Hfuel by lia. cbn [sift].
  destruct (2 * j <=? n)%nat eqn:E; [|apply Nat.leb_gt in E; intros k c _ Hk Hc Hcn; apply Hheap; lia].
  apply Nat.leb_le in E. pose proof (worse_child_cases v n j) as Hw. set (s := worse_child v n j) in *.
  destruct (Compare (key v s) (key v j)) eqn:Hcmp.
  - assert (forall k, (1 <= k)%nat -> key (swap v j s) k = if decide (k = s) then key v j else if decide (k = j) then key v s else key v k) as Hkey by (intros k Hk; apply swap_key; lia).
    apply IH; [lia|rewrite swap_length; lia|nia| |].
    + intros k c Hk Hks Hc Hcn. rewrite !Hkey by lia. rewrite (decide_False (P := k = s)) by done. destruct (decide (c = s)) as [->|Hcs].
      * rewrite (decide_True (P := k = j)) by lia. by apply cmp_asym.
      * destruct (decide (c = j)) as [->|Hcj]; [rewrite (decide_False (P := k = j)) by lia; apply (Hup k s); lia|].
        destruct (decide (k = j)) as [->|Hkj]; [by apply worse_child_worse|by apply Hheap].
    + intros p c Hp Hs Hc Hcn. assert (p = j) as -> by lia. rewrite !Hkey by lia. rewrite (decide_False (P := c = s)), (decide_False (P := c = j)), (decide_False (P := j = s)), (decide_True (P := j = j)) by lia. apply Hheap; lia.
  - intros k c _ Hk Hc Hcn. destruct (decide (k = j)) as [->|]; [|by apply Hheap]. eapply cmp_neg_trans; [by apply worse_child_worse|done].
Qed.

Lemma sift_heap fuel v n j : (1 <= j)%nat -> (j <= n <= length v)%nat -> Z.of_nat n < 2 ^ Z.of_nat fuel -> heap_from v n (S j) -> heap_from (sift fuel v n j) n j.
Proof.
  intros Hj Hn Hlt Hheap. apply sift_heap_at; [lia|lia|nia| |].
  - intros k c Hk Hkj Hc Hcn. apply Hheap; lia.
  - intros p c Hp Hpj. lia.
Qed.

Lemma sift_all_heap fuel m : forall v n, (m <= n <= length v)%nat -> Z.of_nat n < 2 ^ Z.of_nat fuel -> heap_from v n (S m) ->
  heap_from (sift_all fuel m v n) n 1 /\ sift_all fuel m v n ≡ₚ v /\ forall k, (n <= k)%nat -> sift_all fuel m v n !! k = v !! k.
Proof.
  induction m as [|m IH]; intros v n Hn Hlt Hheap; [done|]. cbn [sift_all]. destruct (IH (sift fuel v n (S m)) n) as (Hh & Hp & Ha); [rewrite sift_length; lia|done|apply sift_heap; (done || lia)|].
  split; [done|]. split; [by rewrite Hp, sift_perm|]. intros k Hk. rewrite Ha by done. apply sift_above; lia.
Qed.

Lemma sift_all_length fuel m : forall v n, length (sift_all fuel m v n) = length v.
Proof. induction m as [|m IH]; intros v n; [done|]. cbn [sift_all]. by rewrite IH, sift_length. Qed.

(** [for (index = n / 2; index > 0; --index)] makes a heap. *)
Lemma make_heap fuel v n : (n <= length v)%nat -> Z.of_nat n < 2 ^ Z.of_nat fuel ->
  heap_from (sift_all fuel (n / 2) v n) n 1 /\ sift_all fuel (n / 2) v n ≡ₚ v /\ forall k, (n <= k)%nat -> sift_all fuel (n / 2) v n !! k = v !! k.
Proof.
  intros Hn Hlt. pose proof (Nat.div_mod n 2 ltac:(lia)) as Hd. pose proof (Nat.mod_upper_bound n 2 ltac:(lia)). apply sift_all_heap; [lia|done|]. intros k c _ Hk Hc. lia.
Qed.

(** The root is the worst. *)
Lemma root_worst v n k : heap_from v n 1 -> (1 <= k <= n)%nat -> Compare (key v k) (key v 1) = false.
Proof.
  intros Hh. induction (lt_wf k) as [k _ IH]. intros Hk. destruct (decide (k = 1%nat)) as [->|]; [apply cmp_irrefl|].
  pose proof (Nat.div_mod k 2 ltac:(lia)). pose proof (Nat.mod_upper_bound k 2 ltac:(lia)). apply cmp_neg_trans with (key v (k / 2)); [apply Hh; lia|apply IH; lia].
Qed.

Lemma perm_take v v' n : v' ≡ₚ v -> (forall k, (n <= k)%nat -> v' !! k = v !! k) -> take n v' ≡ₚ take n v.
Proof.
  intros Hp Hk. rewrite <- (take_drop n v), <- (take_drop n v') in Hp at 1. assert (drop n v' = drop n v) as Hd by (apply list_eq; intros i; rewrite !lookup_drop; apply Hk; lia).
  rewrite Hd in Hp. by apply Permutation_app_inv_r in Hp.
Qed.

Lemma key_take_forall v n (P : D * I -> Prop) (Q : D -> Prop) : (n <= length v)%nat -> (forall x, P x <-> Q x.1) ->
  Forall P (take n v) <-> forall k, (1 <= k <= n)%nat -> Q (key v k).
Proof.
  intros Hn HPQ. rewrite Forall_lookup. split; intros Hall.
  - intros k Hk. destruct (lookup_lt_is_Some_2 v (k - 1)%nat ltac:(lia)) as [x Hx]. rewrite (key_lookup v k x Hx). apply HPQ, (Hall (k - 1)%nat). by rewrite lookup_take_lt by lia.
  - intros i x [Hx Hi]%lookup_take_Some. apply HPQ. rewrite <- (key_lookup v (S i) x); [apply Hall; lia|]. by replace (S i - 1)%nat with i by lia.
Qed.

(** [HeapSort] sorts a heap, the best first. *)
Lemma heap_sort_ok fuel n : forall v, (n <= length v)%nat -> Z.of_nat n < 2 ^ Z.of_nat fuel -> heap_from v n 1 ->
  heap_sort fuel n v ≡ₚ v /\ (forall k, (n <= k)%nat -> heap_sort fuel n v !! k = v !! k) /\
  forall a b, (1 <= a <= b)%nat -> (b <= n)%nat -> Compare (key (heap_sort fuel n v) a) (key (heap_sort fuel n v) b) = false.
Proof.
  induction n as [|n IH]; intros v Hn Hlt Hheap; [split; [done|]; split; [done|]; lia|]. cbn [heap_sort]. destruct (1 <? S n)%nat eqn:E.
  2: { apply Nat.ltb_ge in E. split; [done|]. split; [done|]. intros a b Ha Hb. replace a with b by lia. apply cmp_irrefl. }
  apply Nat.ltb_lt in E. set (v1 := swap v (S n) 1). assert (length v1 = length v) as Hlen by apply swap_length.
  assert (forall k, (1 <= k)%nat -> key v1 k = if decide (k = 1%nat) then key v (S n) else if decide (k = S n) then key v 1 else key v k) as Hkey by (intros k Hk; apply swap_key; lia).
  assert (heap_from (sift fuel v1 n 1) n 1) as Hh.
  { apply sift_heap; [lia|lia|lia|]. intros k c H1 Hk Hc Hcn. rewrite !Hkey by lia. repeat (rewrite decide_False by lia). apply Hheap; lia. }
  destruct (IH (sift fuel v1 n 1)) as (Hp & Ha & Hs); [rewrite sift_length; lia|lia|done|]. set (v' := heap_sort fuel n (sift fuel v1 n 1)) in *.
  assert (forall k, (n <= k)%nat -> v' !! k = v1 !! k) as Hv1 by (intros k Hk; rewrite Ha, sift_above by lia; done).
  assert (v' ≡ₚ v1) as Hp1 by (by rewrite Hp, sift_perm). split; [rewrite Hp1; apply swap_perm|]. split.
  { intros k Hk. rewrite Hv1 by lia. apply swap_lookup_ne; lia. }
  assert (key v' (S n) = key v 1) as Hroot by (unfold key at 1; rewrite Hv1 by lia; fold (key v1 (S n)); rewrite Hkey by lia; by rewrite decide_False, decide_True by lia).
  intros a b Hab Hb. destruct (decide (b = S n)) as [->|]; [|apply Hs; lia]. destruct (decide (a = S n)) as [->|]; [apply cmp_irrefl|]. rewrite Hroot.
  assert (Forall (fun x => Compare x.1 (key v 1) = false) (take n v')) as Hall.
  { rewrite (perm_take v1 v' n Hp1 Hv1). apply (key_take_forall v1 n _ (fun d => Compare d (key v 1) = false)); [lia|done|]. intros k Hk. rewrite Hkey by lia.
    destruct (decide (k = 1%nat)); [apply (root_worst v (S n)); (done || lia)|]. rewrite decide_False by lia. apply (root_worst v (S n)); (done || lia). }
  pose proof (Permutation_length Hp1). rewrite (key_take_forall v' n _ (fun d => Compare d (key v 1) = false)) in Hall by (done || lia). apply Hall. lia.
Qed.
End Heaps.

(** ** Windows of arrays *)

Section Windows.
Context {D I : Type} `{DistanceLaws D} (is_max : bool).
Context (pre post : list D) (pre' post' : list I) (base : Z) (base_eq : base = Z.of_nat (length pre) - 1) (pre_eq : length pre' = length pre).
Implicit Types (v : list (D * I)).

(** The arrays, with the window [v]. *)
Definition arr v : list D * list I := (pre ++ v.*1 ++ post, pre' ++ v.*2 ++ post').

Lemma window_index {A} (p l q : list A) k x : length p = length pre -> (1 <= k)%nat -> l !! (k - 1)%nat = Some x -> at_index (p ++ l ++ q) (base + Z.of_nat k) = Ret x.
Proof.
  intros Hp Hk Hx. apply at_index_lookup; [lia|]. replace (Z.to_nat (base + Z.of_nat k)) with (length p + (k - 1))%nat by lia.
  rewrite lookup_app_r by lia. replace (length p + (k - 1) - length p)%nat with (k - 1)%nat by lia. by apply lookup_app_l_Some.
Qed.

Lemma window_insert {A} (p l q : list A) k x : length p = length pre -> (1 <= k <= length l)%nat -> set_index (p ++ l ++ q) (base + Z.of_nat k) x = Ret (p ++ <[(k - 1)%nat := x]> l ++ q).
Proof.
  intros Hp Hk. rewrite set_index_in by (rewrite !length_app; lia). replace (Z.to_nat (base + Z.of_nat k)) with (length p + (k - 1))%nat by lia.
  rewrite insert_app_r, insert_app_l by lia. done.
Qed.

Lemma window_at v k x : (1 <= k)%nat -> v !! (k - 1)%nat = Some x -> at_index (arr v).1 (base + Z.of_nat k) = Ret x.1 /\ at_index (arr v).2 (base + Z.of_nat k) = Ret x.2.
Proof. intros Hk Hx. split; apply window_index; try done; by rewrite list_lookup_fmap, Hx. Qed.

Lemma window_set v k x : (1 <= k <= length v)%nat ->
  set_index (arr v).1 (base + Z.of_nat k) x.1 = Ret (arr (<[(k - 1)%nat := x]> v)).1 /\ set_index (arr v).2 (base + Z.of_nat k) x.2 = Ret (arr (<[(k - 1)%nat := x]> v)).2.
Proof. intros Hk. unfold arr. simpl. rewrite !window_insert by (rewrite ?length_fmap; done). by rewrite !list_fmap_insert. Qed.

Lemma shift_index j : (1 <= j)%nat -> Z.of_nat j < 2 ^ 31 -> to_u32 (Z.shiftl (Z.of_nat j) 1) = Z.of_nat (2 * j) /\ to_u32 (Z.of_nat (2 * j) + 1) = Z.of_nat (2 * j + 1).
Proof. intros Hj Hlt. rewrite Z.shiftl_mul_pow2 by lia. unfold to_u32. rewrite !u_wrap_id by (unfold u_range; lia). lia. Qed.

Lemma heapify_loop fuel n : Z.of_nat n < 2 ^ 31 -> forall v j tmp, (1 <= j <= n)%nat -> (n <= length v)%nat -> Z.of_nat n < Z.of_nat j * 2 ^ Z.of_nat fuel ->
  HeapifyLoop is_max fuel (arr v).1 (arr v).2 base (Z.of_nat n) (Z.of_nat j) tmp.1 tmp.2 = Ret (arr (sift is_max fuel (<[(j - 1)%nat := tmp]> v) n j)).
Proof.
  intros Hn. induction fuel as [|fuel IH]; intros v j tmp Hj Hlen Hfuel; [simpl in Hfuel; lia|]. rewrite Nat2Z.inj_succ, Z.pow_succ_r in Hfuel by lia. cbn [HeapifyLoop sift].
  destruct (shift_index j ltac:(lia) ltac:(lia)) as [-> ->]. set (w := <[(j - 1)%nat := tmp]> v). destruct (window_set v j tmp ltac:(lia)) as [Hset1 Hset2].
  assert (forall c x, (1 <= c)%nat -> c <> j -> v !! (c - 1)%nat = Some x -> w !! (c - 1)%nat = Some x) as Hw by (intros c x Hc Hcj Hx; unfold w; rewrite list_lookup_insert_ne by lia; done).
  assert (key w j = tmp.1) as Hkj by (apply key_lookup; unfold w; by rewrite list_lookup_insert_eq by lia).
  replace (Z.of_nat (2 * j) <=? Z.of_nat n) with (2 * j <=? n)%nat by (destruct (2 * j <=? n)%nat eqn:E1; [apply Nat.leb_le in E1|apply Nat.leb_gt in E1]; symmetry; [apply Z.leb_le|apply Z.leb_gt]; lia).
  destruct (2 * j <=? n)%nat eqn:E; [|by rewrite Hset1, ret_bind, Hset2, ret_bind]. apply Nat.leb_le in E.
  assert (forall c, (j < c <= n)%nat -> exists x, v !! (c - 1)%nat = Some x /\ key w c = x.1) as Hget.
  { intros c Hc. destruct (lookup_lt_is_Some_2 v (c - 1)%nat ltac:(lia)) as [x Hx]. exists x. split; [done|]. apply key_lookup, Hw; (done || lia). }
  match goal with |- (?m ≫= _) = _ => assert (m = Ret (Z.of_nat (worse_child is_max w n j))) as -> end.
  { unfold worse_child. destruct (2 * j + 1 <=? n)%nat eqn:E2; cbn [andb].
    - apply Nat.leb_le in E2. replace (Z.of_nat (2 * j + 1) <=? Z.of_nat n) with true by (symmetry; apply Z.leb_le; lia).
      destruct (Hget (2 * j + 1)%nat ltac:(lia)) as (x & Hx & ->), (Hget (2 * j)%nat ltac:(lia)) as (y & Hy & ->).
      rewrite (proj1 (window_at v (2 * j + 1) x ltac:(lia) Hx)), ret_bind, (proj1 (window_at v (2 * j) y ltac:(lia) Hy)), ret_bind. by destruct (Compare is_max x.1 y.1).
    - apply Nat.leb_gt in E2. by replace (Z.of_nat (2 * j + 1) <=? Z.of_nat n) with false by (symmetry; apply Z.leb_gt; lia). }
  rewrite ret_bind. pose proof (worse_child_cases is_max w n j) as Hc. set (s := worse_child is_max w n j) in *. destruct (Hget s ltac:(lia)) as (x & Hx & Hks).
  destruct (window_at v s x ltac:(lia) Hx) as [Hx1 Hx2]. rewrite Hx1, ret_bind, Hks, Hkj. destruct (Compare is_max x.1 tmp.1) eqn:Hcmp; cbn [negb].
  - destruct (window_set v j x ltac:(lia)) as [H1 H2]. rewrite H1, ret_bind, Hx2, ret_bind, H2, ret_bind. rewrite IH by (rewrite ?length_insert; nia).
    f_equal. f_equal. f_equal. unfold swap. rewrite (Hw s x) by (done || lia). unfold w. rewrite list_lookup_insert_eq by lia. by rewrite list_insert_insert_eq.
  - by rewrite Hset1, ret_bind, Hset2, ret_bind.
Qed.
Lemma heapify_down v n j : (1 <= j)%nat -> (n <= length v)%nat -> Z.of_nat n < 2 ^ 31 -> Z.of_nat j < 2 ^ 31 ->
  HeapifyDown is_max (arr v).1 (arr v).2 base (Z.of_nat n) (Z.of_nat j) = Ret (arr (sift is_max 33 v n j)).
Proof.
  intros Hj Hlen Hn Hj2. unfold HeapifyDown. destruct (shift_index j Hj Hj2) as [-> _]. replace (Z.of_nat j =? 0) with false by lia. cbn [orb]. rewrite Z.gtb_ltb.
  assert (Z.of_nat n < Z.of_nat j * 2 ^ Z.of_nat 33) as Hfuel by (change (2 ^ Z.of_nat 33) with (2 ^ 33); lia). generalize dependent 33%nat. intros fuel Hfuel.
  destruct (Z.of_nat n <? Z.of_nat (2 * j)) eqn:E; zbool.
  - destruct fuel; [done|]. cbn [sift]. by replace (2 * j <=? n)%nat with false by (symmetry; apply Nat.leb_gt; lia).
  - destruct (lookup_lt_is_Some_2 v (j - 1)%nat ltac:(lia)) as [x Hx]. destruct (window_at v j x Hj Hx) as [H1 H2]. rewrite H1, ret_bind, H2, ret_bind.
    rewrite heapify_loop by (done || lia). by rewrite list_insert_id.
Qed.

Lemma heapify_all m : forall v n, (m <= n <= length v)%nat -> Z.of_nat n < 2 ^ 31 ->
  HeapifyAll is_max m (arr v).1 (arr v).2 base (Z.of_nat n) = Ret (arr (sift_all is_max 33 m v n)).
Proof.
  generalize (heapify_down). generalize 33%nat. intros fuel Hdown. induction m as [|m IH]; intros v n Hn Hlt; [done|]. cbn [HeapifyAll sift_all]. rewrite Hdown by lia. rewrite ret_bind.
  rewrite (surjective_pairing (arr (sift is_max fuel v n (S m)))). apply IH; [rewrite sift_length; lia|done].
Qed.

Lemma swap_arr v a b : (1 <= a <= length v)%nat -> (1 <= b <= length v)%nat ->
  swap_index (arr v).1 (base + Z.of_nat a) (base + Z.of_nat b) = Ret (arr (swap v a b)).1 /\ swap_index (arr v).2 (base + Z.of_nat a) (base + Z.of_nat b) = Ret (arr (swap v a b)).2.
Proof.
  intros Ha Hb. destruct (lookup_lt_is_Some_2 v (a - 1)%nat ltac:(lia)) as [x Hx], (lookup_lt_is_Some_2 v (b - 1)%nat ltac:(lia)) as [y Hy]. unfold swap, swap_index. rewrite Hx, Hy.
  destruct (window_at v a x ltac:(lia) Hx) as [-> ->], (window_at v b y ltac:(lia) Hy) as [-> ->]. rewrite !ret_bind. destruct (window_set v a y Ha) as [-> ->]. rewrite !ret_bind.
  apply window_set. rewrite length_insert. lia.
Qed.

Lemma heap_sort_arr n : forall v, (n <= length v)%nat -> Z.of_nat n < 2 ^ 31 -> HeapSort is_max n (arr v).1 (arr v).2 base = Ret (arr (heap_sort is_max 33 n v)).
Proof.
  generalize (heapify_down). generalize 33%nat. intros fuel Hdown. induction n as [|n IH]; intros v Hn Hlt; [done|]. cbn [HeapSort heap_sort].
  replace (Z.of_nat (S n) >? 1) with (1 <? S n)%nat by (destruct (1 <? S n)%nat eqn:E; [apply Nat.ltb_lt in E|apply Nat.ltb_ge in E]; symmetry; rewrite Z.gtb_ltb; [apply Z.ltb_lt|apply Z.ltb_ge]; lia).
  destruct (1 <? S n)%nat eqn:E; [|done]. apply Nat.ltb_lt in E. change (base + 1) with (base + Z.of_nat 1). destruct (swap_arr v (S n) 1 ltac:(lia) ltac:(lia)) as [-> ->]. rewrite !ret_bind.
  change 1 with (Z.of_nat 1) at 1. rewrite Hdown by (rewrite ?swap_length; lia). rewrite ret_bind. rewrite (surjective_pairing (arr (sift is_max fuel _ n 1))). apply IH; [rewrite sift_length, swap_length; lia|lia].
Qed.

(** The root is replaced if it is worse than [x]. *)
Lemma replace_root v n x : (1 <= n <= length v)%nat -> Z.of_nat n < 2 ^ 31 ->
  ReplaceRoot is_max (arr v).1 (arr v).2 base (Z.of_nat n) x.1 x.2 = Ret (arr (offer is_max 33 v n x)).
Proof.
  intros Hn Hlt. unfold ReplaceRoot, offer. change (base + 1) with (base + Z.of_nat 1). destruct (lookup_lt_is_Some_2 v 0%nat ltac:(lia)) as [r Hr]. rewrite (proj1 (window_at v 1 r ltac:(lia) Hr)), ret_bind.
  rewrite (key_lookup v 1 r Hr). destruct (Compare is_max r.1 x.1); [|done]. destruct (window_set v 1 x ltac:(lia)) as [-> ->]. rewrite !ret_bind.
  change 1 with (Z.of_nat 1). apply heapify_down; rewrite ?length_insert; lia.
Qed.
End Windows.

(** ** Keeping the best *)

Section Keeping.
Context {D I : Type} `{DistanceLaws D} (is_max : bool).
Abbreviation Compare := (Compare is_max).
Abbreviation no_better := (no_better is_max).
Abbreviation best_of := (best_of is_max).
Implicit Types (v r seen : list (D * I)).

Lemma best_perm k seen r r' : r' ≡ₚ r -> best_of k seen r -> best_of k seen r'.
Proof.
  intros Hp (Hlen & rest & Hs & Hb). split; [by rewrite Hp|]. exists rest. split; [by rewrite Hp|]. intros x y Hx Hy. apply Hb; [by rewrite <- Hp|done].
Qed.

Lemma best_add k seen r x : best_of k seen r -> (length r < k)%nat -> best_of k (seen ++ [x]) (r ++ [x]).
Proof.
  intros (Hlen & rest & Hs & _) Hk. pose proof (Permutation_length Hs) as Hl. rewrite !length_app in *. destruct rest as [|y rest]; [|simpl in Hl; lia].
  split; [rewrite !length_app; simpl; lia|]. exists []. rewrite app_nil_r in *. split; [by rewrite Hs|]. intros ? ? _ []%elem_of_nil.
Qed.

Lemma best_skip k seen r x : best_of k seen r -> length r = k -> (forall y, y ∈ r -> no_better y x) -> best_of k (seen ++ [x]) r.
Proof.
  intros (Hlen & rest & Hs & Hb) Hk Hx. split; [rewrite length_app; simpl; lia|]. exists (rest ++ [x]). split; [by rewrite app_assoc, Hs|].
  intros y z Hy [Hz|Hz%list_elem_of_singleton]%elem_of_app; [by apply Hb|]. subst. by apply Hx.
Qed.

Lemma best_replace k seen w r x : best_of k seen (w :: r) -> length (w :: r) = k -> (forall y, y ∈ r -> no_better y w) -> Compare w.1 x.1 = true -> best_of k (seen ++ [x]) (x :: r).
Proof.
  intros (Hlen & rest & Hs & Hb) Hk Hw Hx. split; [rewrite length_app in *; simpl in *; lia|]. exists (w :: rest). split.
  - rewrite Hs. simpl. solve_Permutation.
  - intros y z [->|Hy]%elem_of_cons [->|Hz]%elem_of_cons.
    + by apply cmp_asym.
    + assert (no_better w z) as Hwz by (apply Hb; [by left|done]). apply not_true_is_false. intros Hc. pose proof (cmp_trans is_max _ _ _ Hx Hc). red in Hwz. congruence.
    + by apply Hw.
    + apply Hb; [by right|done].
Qed.

Lemma best_all k seen : (length seen <= k)%nat -> best_of k seen seen.
Proof. intros Hk. split; [lia|]. exists []. rewrite app_nil_r. split; [done|]. intros ? ? _ []%elem_of_nil. Qed.

(** A candidate is offered to a full heap. *)
Lemma heap_offer fuel k v seen x : (1 <= k)%nat -> length v = k -> Z.of_nat k < 2 ^ Z.of_nat fuel -> heap_from is_max v k 1 -> best_of k seen v ->
  length (offer is_max fuel v k x) = k /\ heap_from is_max (offer is_max fuel v k x) k 1 /\ best_of k (seen ++ [x]) (offer is_max fuel v k x).
Proof.
  unfold offer. intros Hk Hlen Hfuel Hheap Hbest. assert (forall y, y ∈ v -> Compare y.1 (key v 1) = false) as Hroot.
  { intros y (i & Hi)%list_elem_of_lookup. pose proof (lookup_lt_Some _ _ _ Hi). rewrite <- (key_lookup v (S i) y) by (simpl; by rewrite Nat.sub_0_r). apply (root_worst is_max v k); (done || lia). }
  destruct v as [|w r]; [simpl in Hlen; lia|]. change (key (w :: r) 1) with w.1 in *. destruct (Compare w.1 x.1) eqn:Hc.
  - change (<[0%nat := x]> (w :: r)) with (x :: r). split; [by rewrite sift_length|]. split.
    + apply sift_heap; [lia|simpl in *; lia|done|]. intros i c Hi1 Hi Hic Hcn. specialize (Hheap i c Hi1 ltac:(lia) Hic Hcn). unfold key in *.
      destruct (c - 1)%nat eqn:E1; [lia|]. destruct (i - 1)%nat eqn:E2; [lia|]. done.
    + eapply best_perm; [apply sift_perm|]. eapply best_replace; [done|done|intros y Hy; apply Hroot; by right|done].
  - split; [done|]. split; [done|]. apply best_skip; [done|done|]. intros y Hy. eapply cmp_neg_trans; [by apply Hroot|done].
Qed.

(** The best are sorted. *)
Lemma heap_sorted fuel k n v seen : (n <= length v)%nat -> Z.of_nat n < 2 ^ Z.of_nat fuel -> heap_from is_max v n 1 -> best_of k seen (take n v) ->
  length (heap_sort is_max fuel n v) = length v /\ top_k_of is_max k seen (take n (heap_sort is_max fuel n v)) /\ drop n (heap_sort is_max fuel n v) = drop n v.
Proof.
  intros Hn Hfuel Hheap Hbest. destruct (heap_sort_ok is_max fuel n v Hn Hfuel Hheap) as (Hp & Ha & Hs). pose proof (Permutation_length Hp) as Hl. split; [done|]. split; [split|].
  - eapply best_perm; [|done]. by apply perm_take.
  - intros i j x y Hij [Hx Hi]%lookup_take_Some [Hy Hj]%lookup_take_Some. specialize (Hs (S i) (S j) ltac:(lia) ltac:(lia)).
    rewrite (key_lookup _ (S i) x), (key_lookup _ (S j) y) in Hs by (simpl; by rewrite Nat.sub_0_r). done.
  - apply list_eq. intros i. rewrite !lookup_drop. apply Ha. lia.
Qed.
End Keeping.

(** ** The arrays of all queries *)

Section Flat.
Context {D I : Type}.
Implicit Types (v : list (D * I)) (ws : list (list (D * I))).

(** The windows of [ws], one after the other. *)
Definition flat1 ws : list D := concat ((fun v => v.*1) <$> ws).
Definition flat2 ws : list I := concat ((fun v => v.*2) <$> ws).

Lemma concat_insert {A B} (f : A -> list B) (l : list A) q x : (q < length l)%nat -> concat (f <$> <[q := x]> l) = concat (f <$> take q l) ++ f x ++ concat (f <$> drop (S q) l).
Proof. intros Hq. rewrite insert_take_drop by done. rewrite fmap_app, concat_app, fmap_cons. done. Qed.

Lemma flat_length {A B} (f : A -> list B) k (l : list A) : Forall (fun x => length (f x) = k) l -> length (concat (f <$> l)) = (length l * k)%nat.
Proof. induction 1 as [|x l Hx _ IH]; [done|]. rewrite fmap_cons. cbn [concat length]. rewrite length_app, IH, Hx. lia. Qed.

(** The window of query [q] in the arrays. *)
Lemma flat_arr ws q v k : Forall (fun v => length v = k) ws -> (q < length ws)%nat ->
  exists pre post pre' post', length pre = (q * k)%nat /\ length pre' = length pre /\ forall v, (flat1 (<[q := v]> ws), flat2 (<[q := v]> ws)) = arr pre post pre' post' v.
Proof.
  intros Hws Hq. exists (flat1 (take q ws)), (flat1 (drop (S q) ws)), (flat2 (take q ws)), (flat2 (drop (S q) ws)).
  assert (forall A (f : D * I -> A), length (concat ((fun v => f <$> v) <$> take q ws)) = (q * k)%nat) as Hlen.
  { intros A f. rewrite (flat_length _ k), length_take; [f_equal; lia|]. apply Forall_take. eapply Forall_impl; [done|]. intros w Hw. by rewrite length_fmap. }
  split; [apply Hlen|]. split; [unfold flat1, flat2; by rewrite !Hlen|]. intros w. unfold flat1, flat2, arr. by rewrite !concat_insert.
Qed.

Lemma flat_window {A} (f : D * I -> A) ws q v k : Forall (fun v => length v = k) ws -> ws !! q = Some v -> take k (drop (q * k) (concat ((fun v => f <$> v) <$> ws))) = f <$> v.
Proof.
  intros Hws Hq. pose proof (lookup_lt_Some _ _ _ Hq) as Hlt. rewrite <- (list_insert_id ws q v Hq) at 1. rewrite concat_insert by done.
  assert (length (concat ((fun v => f <$> v) <$> take q ws)) = (q * k)%nat) as Hlen.
  { rewrite (flat_length _ k), length_take; [f_equal; lia|]. apply Forall_take. eapply Forall_impl; [done|]. intros w Hw. by rewrite length_fmap. }
  rewrite drop_app_length' by done. pose proof (Forall_lookup_1 _ _ _ _ Hws Hq) as Hv. apply take_app_length'. by rewrite length_fmap.
Qed.
End Flat.

(** [fill_n] behind the first [n] elements of a window. *)
Definition padded {D I} (v : list (D * I)) (n : nat) (x : D) : list (D * I) := take n v ++ zip (replicate (length v - n) x) (drop n v).*2.

Lemma padded_fst {D I} (v : list (D * I)) n x : (padded v n x).*1 = (take n v).*1 ++ replicate (length v - n) x.
Proof. unfold padded. rewrite fmap_app. f_equal. apply fst_zip. rewrite length_replicate, length_fmap, length_drop. lia. Qed.

Lemma padded_snd {D I} (v : list (D * I)) n x : (padded v n x).*2 = v.*2.
Proof.
  unfold padded. rewrite fmap_app, snd_zip; [|rewrite length_replicate, length_fmap, length_drop; lia]. by rewrite <- fmap_app, take_drop.
Qed.

Lemma padded_length {D I} (v : list (D * I)) n x : length (padded v n x) = length v.
Proof. rewrite <- (length_fmap snd (padded v n x)), padded_snd. apply length_fmap. Qed.

Lemma padded_take {D I} (v : list (D * I)) n x : (n <= length v)%nat -> take n (padded v n x) = take n v.
Proof. intros Hn. unfold padded. apply take_app_length'. rewrite length_take. lia. Qed.

Lemma fill_arr {D I} (pre post : list D) (pre' post' : list I) (v : list (D * I)) base n x : base = Z.of_nat (length pre) - 1 -> (n <= length v)%nat ->
  fill (arr pre post pre' post' v).1 (base + Z.of_nat n + 1) (Z.of_nat (length v) - Z.of_nat n) x = Ret (arr pre post pre' post' (padded v n x)).1 /\
  (arr pre post pre' post' v).2 = (arr pre post pre' post' (padded v n x)).2.
Proof.
  intros -> Hn. unfold arr. simpl. rewrite padded_fst, padded_snd. split; [|done]. unfold fill. rewrite !length_app, !length_fmap.
  destruct (_ || _) eqn:E; [exfalso; rewrite !orb_true_iff, !Z.ltb_lt in E; lia|]. f_equal.
  replace (Z.to_nat (Z.of_nat (length pre) - 1 + Z.of_nat n + 1)) with (length pre + n)%nat by lia.
  replace (Z.to_nat (Z.of_nat (length v) - Z.of_nat n)) with (length v - n)%nat by lia.
  replace (Z.to_nat (Z.of_nat (length pre) - 1 + Z.of_nat n + 1 + (Z.of_nat (length v) - Z.of_nat n))) with (length pre + length v)%nat by lia.
  rewrite take_app_add', drop_app_add' by done. rewrite take_app_le, fmap_take, drop_app_length' by (rewrite length_fmap; lia). by rewrite <- !app_assoc.
Qed.

(** ** [HeapResultHandler] *)

(** Results are added to the queries [x.1]. *)
Fixpoint add_all {S D I} (add : S -> Z -> D -> I -> outcome S) (h : S) (adds : list (nat * (D * I))) : outcome S :=
  match adds with
  | [] => Ret h
  | (q, (d, i)) :: adds => h ← add h (Z.of_nat q) d i; add_all add h adds
  end.

(** Those of a query. *)
Definition results_of {D I} (q : nat) (adds : list (nat * (D * I))) : list (D * I) := (filter (fun x => x.1 = q) adds).*2.

Lemma results_cons {D I} q p (x : D * I) adds : results_of q ((p, x) :: adds) = if decide (p = q) then x :: results_of q adds else results_of q adds.
Proof. unfold results_of. rewrite filter_cons. simpl. by destruct (decide (p = q)). Qed.

Lemma add_all_app {S D I} (add : S -> Z -> D -> I -> outcome S) (l1 l2 : list (nat * (D * I))) : forall h, add_all add h (l1 ++ l2) = (h ← add_all add h l1; add_all add h l2).
Proof. induction l1 as [|[q [d i]] l1 IH]; intros h; [done|]. cbn [app add_all]. destruct (add h (Z.of_nat q) d i) as [h'| |]; [|done|done]. rewrite !ret_bind. apply IH. Qed.

Lemma fuel_enough n : Z.of_nat n < 2 ^ 31 -> Z.of_nat n < 2 ^ Z.of_nat 33.
Proof. intros Hn. change (2 ^ Z.of_nat 33) with (2 ^ 33). lia. Qed.

Lemma half_le n : (n / 2 <= n)%nat.
Proof. apply Nat.Div0.div_le_upper_bound. lia. Qed.

Lemma half_Z n : Z.to_nat (Z.of_nat n / 2) = (n / 2)%nat.
Proof. by rewrite <- (Nat2Z.id (n / 2)), Nat2Z.inj_div. Qed.

Section Handler.
Context {D I : Type} `{DistanceLaws D} (is_max : bool) (k : nat) (k_pos : (1 <= k)%nat) (k_small : Z.of_nat k < 2 ^ 31).
Abbreviation best_of := (best_of is_max).
Abbreviation top_k_of := (top_k_of is_max).

(** A query: its window of the arrays, the size of its heap, and the results
    it was given. *)
Record query := mkQuery { window : list (D * I); qsize : nat; seen : list (D * I) }.

Definition query_ok (q : query) : Prop :=
  length (window q) = k /\ (qsize q <= k)%nat /\ best_of k (seen q) (take (qsize q) (window q)) /\ (qsize q = k -> heap_from is_max (window q) k 1).

Definition heap_rel (h : HeapResultHandler D I) (qs : list query) : Prop :=
  h = mkHeapResultHandler (Z.of_nat (length qs)) (Z.of_nat k) (flat1 (window <$> qs)) (flat2 (window <$> qs)) ((fun q => Z.of_nat (qsize q)) <$> qs) /\ Forall query_ok qs.

(** The window of the result: the best of the results, then [InitialValue]. *)
Definition result_of (results w : list (D * I)) : Prop :=
  exists r, top_k_of k results r /\ w.*1 = r.*1 ++ replicate (k - length r) (InitialValue is_max) /\ take (length r) w.*2 = r.*2.

Lemma windows_length qs : Forall query_ok qs -> Forall (fun v => length v = k) (window <$> qs).
Proof. intros Hqs. apply Forall_fmap. eapply Forall_impl; [done|]. by intros q (Hl & _). Qed.

(** The arrays around the window of a query. *)
Lemma query_arr qs q qu : Forall query_ok qs -> qs !! q = Some qu ->
  exists pre post pre' post', length pre = (q * k)%nat /\ length pre' = length pre /\
    (flat1 (window <$> qs), flat2 (window <$> qs)) = arr pre post pre' post' (window qu) /\
    forall qu', (flat1 (window <$> <[q := qu']> qs), flat2 (window <$> <[q := qu']> qs)) = arr pre post pre' post' (window qu').
Proof.
  intros Hqs Hq. pose proof (lookup_lt_Some _ _ _ Hq) as Hlt. destruct (flat_arr (window <$> qs) q (window qu) k (windows_length qs Hqs)) as (pre & post & pre' & post' & H1 & H2 & H3); [by rewrite length_fmap|].
  exists pre, post, pre', post'. split; [done|]. split; [done|]. assert (forall qu', (flat1 (window <$> <[q := qu']> qs), flat2 (window <$> <[q := qu']> qs)) = arr pre post pre' post' (window qu')) as H4.
  { intros qu'. rewrite list_fmap_insert. apply H3. }
  split; [|done]. rewrite <- H4. by rewrite list_insert_id.
Qed.

(** The handler of the queries [qs] with the arrays [distance] and [id]. *)
Definition handler_of (qs : list query) (arrays : list D * list I) : HeapResultHandler D I :=
  mkHeapResultHandler (Z.of_nat (length qs)) (Z.of_nat k) arrays.1 arrays.2 ((fun q => Z.of_nat (qsize q)) <$> qs).

(** A query changes. *)
Lemma heap_with qs q qu qu' pre post pre' post' arrays : qs !! q = Some qu -> query_ok qu' -> Forall query_ok qs ->
  (forall qu', (flat1 (window <$> <[q := qu']> qs), flat2 (window <$> <[q := qu']> qs)) = arr pre post pre' post' (window qu')) ->
  exists h', h_with (handler_of qs arrays) (Z.of_nat q) (Z.of_nat (qsize qu')) (arr pre post pre' post' (window qu')) = Ret h' /\ heap_rel h' (<[q := qu']> qs).
Proof.
  intros Hq Hok Hqs Harr. pose proof (lookup_lt_Some _ _ _ Hq) as Hlt. unfold h_with, handler_of. cbn [h_sizes h_n_queries h_top_k]. rewrite set_index_in by (rewrite length_fmap; lia).
  rewrite ret_bind. eexists. split; [done|]. split; [|by apply Forall_insert]. rewrite <- Harr, length_insert, Nat2Z.id. f_equal. by rewrite list_fmap_insert.
Qed.

(** The arrays after [AddResult]. *)
Definition added (qu : query) (x : D * I) : query :=
  if decide (qsize qu = k) then mkQuery (offer is_max 33 (window qu) k x) k (seen qu ++ [x])
  else
    let w := <[qsize qu := x]> (window qu) in
    mkQuery (if decide (S (qsize qu) = k) then sift_all is_max 33 (k / 2) w k else w) (S (qsize qu)) (seen qu ++ [x]).

Lemma added_ok qu x : query_ok qu -> query_ok (added qu x).
Proof.
  intros (Hlen & Hsize & Hbest & Hheap). pose proof (fuel_enough k k_small) as Hfuel. unfold added. generalize dependent 33%nat. intros fuel Hfuel. destruct (decide (qsize qu = k)) as [Hk|Hk].
  - rewrite Hk, firstn_all2 in Hbest by lia. destruct (heap_offer is_max fuel k (window qu) (seen qu) x) as (Hl & Hh & Hb); [done|done|done|by apply Hheap|done|].
    split; [done|]. split; [done|]. split; [|done]. cbn [window qsize seen]. by rewrite firstn_all2 by lia.
  - cbv zeta. set (w := <[qsize qu := x]> (window qu)). assert (length w = k) as Hw by (unfold w; by rewrite length_insert).
    assert (best_of k (seen qu ++ [x]) (take (S (qsize qu)) w)) as Hb.
    { assert (w !! qsize qu = Some x) as Hx by (apply list_lookup_insert_eq; lia). rewrite (take_S_r _ _ _ Hx). unfold w. rewrite take_insert_ge by lia.
      apply best_add; [done|]. rewrite length_take. lia. }
    destruct (decide (S (qsize qu) = k)) as [HS|HS]; [|split; [done|]; split; [cbn [window qsize seen]; lia|]; split; [done|]; cbn [window qsize seen]; lia].
    destruct (make_heap is_max fuel w k ltac:(lia) Hfuel) as (Hh & Hp & _). rewrite HS, firstn_all2 in Hb by lia. rewrite HS. pose proof (Permutation_length Hp) as Hl.
    split; [cbn [window qsize seen]; lia|]. split; [done|]. split; [|done]. cbn [window qsize seen]. rewrite firstn_all2 by lia. by eapply best_perm.
Qed.

Lemma heap_add_ok h qs q qu d i : heap_rel h qs -> qs !! q = Some qu ->
  exists h', Heap_AddResult is_max h (Z.of_nat q) d i = Ret h' /\ heap_rel h' (<[q := added qu (d, i)]> qs).
Proof.
  intros [-> Hqs] Hq. destruct (query_arr qs q qu Hqs Hq) as (pre & post & pre' & post' & Hpre & Hpre' & Harr & Harr'). pose proof (Forall_lookup_1 _ _ _ _ Hqs Hq) as Hok. pose proof Hok as (Hlen & Hsize & _).
  pose proof (heap_with qs q qu (added qu (d, i)) pre post pre' post' (arr pre post pre' post' (window qu)) Hq (added_ok _ _ Hok) Hqs Harr') as Hwith.
  injection Harr as -> ->. change (mkHeapResultHandler _ _ _ _ _) with (handler_of qs (arr pre post pre' post' (window qu))).
  unfold Heap_AddResult, heap_base. cbn [h_sizes h_top_k h_distance_ptr h_id_ptr handler_of]. rewrite (at_fmap _ qs q qu Hq), ret_bind. set (base := Z.of_nat q * Z.of_nat k - 1).
  assert (base = Z.of_nat (length pre) - 1) as Hbase by (unfold base; lia). unfold added in Hwith |- *. destruct (decide (qsize qu = k)) as [Hk|Hk].
  - rewrite Hk, Z.eqb_refl. rewrite (replace_root is_max pre post pre' post' base Hbase Hpre' (window qu) k (d, i)) by lia. rewrite ret_bind. exact Hwith.
  - replace (Z.of_nat (qsize qu) =? Z.of_nat k) with false by lia. replace (to_u32 (Z.of_nat (qsize qu) + 1)) with (Z.of_nat (S (qsize qu))) by (unfold to_u32; rewrite u_wrap_id; unfold u_range; lia).
    destruct (window_set pre post pre' post' base Hbase Hpre' (window qu) (S (qsize qu)) (d, i) ltac:(lia)) as [H1 H2]. replace (S (qsize qu) - 1)%nat with (qsize qu) in H1, H2 by lia. change (d, i).1 with d in H1. change (d, i).2 with i in H2.
    rewrite H1, ret_bind, H2, ret_bind. cbv zeta in Hwith |- *. destruct (decide (S (qsize qu) = k)) as [HS|HS].
    + rewrite HS, Z.eqb_refl. rewrite half_Z.
      rewrite (heapify_all is_max pre post pre' post' base Hbase Hpre') by (rewrite ?length_insert; pose proof (half_le k); lia). rewrite ret_bind. rewrite HS in Hwith. exact Hwith.
    + rewrite (proj2 (Z.eqb_neq _ _)) by lia. rewrite ret_bind. exact Hwith.
Qed.
(** ** The end of a query *)

Definition sorted_window (w : list (D * I)) (n : nat) : list (D * I) :=
  heap_sort is_max 33 n (if decide (n < k)%nat then sift_all is_max 33 (n / 2) (padded w n (InitialValue is_max)) n else w).

Definition ended (qu : query) : query := mkQuery (sorted_window (window qu) (qsize qu)) 0 [].

Lemma result_intro results v n : top_k_of k results (take n v) -> (n <= k)%nat -> length v = k -> (drop n v).*1 = replicate (k - n) (InitialValue is_max) -> result_of results v.
Proof.
  intros Htop Hn Hlen Hdrop. exists (take n v). split; [done|]. rewrite length_take. replace (n `min` length v)%nat with n by lia. split; [|by rewrite fmap_take].
  by rewrite <- Hdrop, <- fmap_app, take_drop.
Qed.

(** The padding, the heap and its sorting, on a window. *)
Lemma sorted_window_ok w n results : length w = k -> (n <= k)%nat -> best_of k results (take n w) -> (n = k -> heap_from is_max w k 1) ->
  length (sorted_window w n) = k /\ result_of results (sorted_window w n).
Proof.
  intros Hlen Hn Hbest Hheap. pose proof (fuel_enough n ltac:(lia)) as Hfuel. unfold sorted_window. generalize dependent 33%nat. intros fuel Hfuel. destruct (decide (n < k)%nat) as [Hlt|Hge].
  - set (v1 := padded w n _). assert (length v1 = k) as Hl1 by (unfold v1; by rewrite padded_length). destruct (make_heap is_max fuel v1 n ltac:(lia) Hfuel) as (Hh & Hp & Ha).
    set (v2 := sift_all is_max fuel (n / 2) v1 n) in *. pose proof (Permutation_length Hp) as Hl2. assert (best_of k results (take n v2)) as Hb2.
    { eapply best_perm; [exact (perm_take v1 v2 n Hp Ha)|]. unfold v1. rewrite padded_take by lia. done. }
    destruct (heap_sorted is_max fuel k n v2 results ltac:(lia) Hfuel Hh Hb2) as (Hl3 & Htop & Hdrop). split; [lia|]. eapply result_intro; [done|lia|lia|]. rewrite Hdrop.
    assert (drop n v2 = drop n v1) as -> by (apply list_eq; intros i; rewrite !lookup_drop; apply Ha; lia). unfold v1. rewrite fmap_drop, padded_fst, Hlen. apply drop_app_length'.
    rewrite length_fmap, length_take. lia.
  - assert (n = k) as -> by lia. destruct (heap_sorted is_max fuel k k w results ltac:(lia) Hfuel (Hheap eq_refl) Hbest) as (Hl3 & Htop & Hdrop). split; [lia|].
    eapply result_intro; [done|lia|lia|]. by rewrite drop_ge, Nat.sub_diag by lia.
Qed.

Lemma ended_ok qu : query_ok qu -> query_ok (ended qu) /\ result_of (seen qu) (window (ended qu)).
Proof.
  intros (Hlen & Hsize & Hbest & Hheap). destruct (sorted_window_ok (window qu) (qsize qu) (seen qu) Hlen Hsize Hbest Hheap) as [Hl Hr]. split; [|done].
  split; [done|]. split; [cbn [ended qsize]; lia|]. split; [apply (best_all is_max k []); simpl; lia|]. cbn [ended qsize]. lia.
Qed.

Lemma heap_end_ok h qs q qu : heap_rel h qs -> qs !! q = Some qu -> exists h', Heap_End is_max h (Z.of_nat q) = Ret h' /\ heap_rel h' (<[q := ended qu]> qs).
Proof.
  intros [-> Hqs] Hq. destruct (query_arr qs q qu Hqs Hq) as (pre & post & pre' & post' & Hpre & Hpre' & Harr & Harr'). pose proof (Forall_lookup_1 _ _ _ _ Hqs Hq) as Hok. pose proof Hok as (Hlen & Hsize & _).
  pose proof (heap_with qs q qu (ended qu) pre post pre' post' (arr pre post pre' post' (window qu)) Hq (proj1 (ended_ok _ Hok)) Hqs Harr') as Hwith.
  injection Harr as -> ->. change (mkHeapResultHandler _ _ _ _ _) with (handler_of qs (arr pre post pre' post' (window qu))).
  unfold Heap_End, heap_base. cbn [h_sizes h_top_k h_distance_ptr h_id_ptr handler_of]. rewrite (at_fmap _ qs q qu Hq), ret_bind. set (base := Z.of_nat q * Z.of_nat k - 1).
  assert (base = Z.of_nat (length pre) - 1) as Hbase by (unfold base; lia). rewrite Nat2Z.id. unfold ended, sorted_window in Hwith |- *. cbn [window qsize] in Hwith. destruct (decide (qsize qu < k)%nat) as [Hlt|Hge].
  - rewrite (proj2 (Z.ltb_lt _ _)) by lia. destruct (fill_arr pre post pre' post' (window qu) base (qsize qu) (InitialValue is_max) Hbase ltac:(lia)) as [H1 H2].
    rewrite Hlen in H1. rewrite H1, ret_bind, H2, half_Z, (heapify_all is_max pre post pre' post' base Hbase Hpre') by (rewrite ?padded_length; pose proof (half_le (qsize qu)); lia). rewrite ret_bind.
    rewrite (surjective_pairing (arr _ _ _ _ _)), (heap_sort_arr is_max pre post pre' post' base Hbase Hpre') by (rewrite ?sift_all_length, ?padded_length; lia). rewrite ret_bind. exact Hwith.
  - rewrite (proj2 (Z.ltb_ge _ _)) by lia. rewrite ret_bind, (heap_sort_arr is_max pre post pre' post' base Hbase Hpre') by lia. rewrite ret_bind. exact Hwith.
Qed.

(** All queries are ended. *)
Lemma heap_end_range h qs todo : forall n, heap_rel h qs -> (n + todo = length qs)%nat ->
  exists h', for_range (Heap_End is_max) todo (Z.of_nat n) h = Ret h' /\ heap_rel h' (take n qs ++ (ended <$> drop n qs)).
Proof.
  revert h qs. induction todo as [|todo IH]; intros h qs n Hrel Hn; cbn [for_range].
  - exists h. split; [done|]. by rewrite take_ge, drop_ge, app_nil_r by lia.
  - destruct (lookup_lt_is_Some_2 qs n ltac:(lia)) as [qu Hq]. destruct (heap_end_ok h qs n qu Hrel Hq) as (h1 & -> & Hrel1). rewrite ret_bind.
    replace (Z.of_nat n + 1) with (Z.of_nat (S n)) by lia. destruct (IH h1 _ (S n) Hrel1) as (h' & -> & Hrel'); [rewrite length_insert; lia|]. exists h'. split; [done|].
    rewrite drop_insert_lt in Hrel' by lia. rewrite (drop_S _ _ _ Hq), fmap_cons.
    assert (<[n := ended qu]> qs !! n = Some (ended qu)) as Hx by (apply list_lookup_insert_eq; lia). rewrite (take_S_r _ _ _ Hx), take_insert_ge, <- app_assoc in Hrel' by lia. done.
Qed.

Lemma heap_add_all (adds : list (nat * (D * I))) : forall h qs, heap_rel h qs -> Forall (fun x => (x.1 < length qs)%nat) adds ->
  exists h' qs', add_all (Heap_AddResult is_max) h adds = Ret h' /\ heap_rel h' qs' /\ length qs' = length qs /\
    forall q qu, qs !! q = Some qu -> exists qu', qs' !! q = Some qu' /\ seen qu' = seen qu ++ results_of q adds.
Proof.
  induction adds as [|[p [d i]] adds IH]; intros h qs Hrel Hadds.
  - exists h, qs. split; [done|]. split; [done|]. split; [done|]. intros q qu Hq. exists qu. by rewrite app_nil_r.
  - apply Forall_cons in Hadds as [Hp Hadds]. destruct (lookup_lt_is_Some_2 qs p Hp) as [qp Hqp]. destruct (heap_add_ok h qs p qp d i Hrel Hqp) as (h1 & Hadd & Hrel1). cbn [add_all]. rewrite Hadd, ret_bind.
    destruct (IH h1 _ Hrel1) as (h' & qs' & -> & Hrel' & Hlen & Hseen); [by rewrite length_insert|]. exists h', qs'. split; [done|]. split; [done|]. rewrite length_insert in Hlen. split; [done|].
    intros q qu Hq. rewrite results_cons. destruct (decide (p = q)) as [->|Hpq].
    + rewrite Hqp in Hq. simplify_eq. destruct (Hseen q (added qu (d, i))) as (qu' & Hqu' & Hs); [by apply list_lookup_insert_eq|]. exists qu'. split; [done|]. rewrite Hs.
      unfold added. destruct (decide (qsize qu = k)); cbn [seen]; by rewrite <- app_assoc.
    + destruct (Hseen q qu) as (qu' & Hqu' & Hs); [by rewrite list_lookup_insert_ne|]. eauto.
Qed.

Lemma heap_new n distance id : length distance = (n * k)%nat -> length id = (n * k)%nat ->
  exists qs, heap_rel (NewHeapResultHandler (Z.of_nat n) (Z.of_nat k) distance id) qs /\ length qs = n /\ Forall (fun q => seen q = []) qs.
Proof.
  intros Hd Hi. revert distance id Hd Hi. induction n as [|n IH]; intros distance id Hd Hi.
  - exists []. destruct distance, id; try done. split; [|done]. split; [|done]. unfold NewHeapResultHandler, to_u32. by rewrite u_wrap_id by (unfold u_range; lia).
  - destruct (IH (drop k distance) (drop k id)) as (qs & [Hrel Hok] & Hlen & Hs); [rewrite length_drop; lia..|]. unfold NewHeapResultHandler, to_u32 in *.
    rewrite u_wrap_id in * by (unfold u_range; lia). rewrite Nat2Z.id in *. injection Hrel as Hn Hf1 Hf2 Hsz.
    set (w := zip (take k distance) (take k id)). assert (w.*1 = take k distance) as Hw1 by (apply fst_zip; rewrite !length_take; lia). assert (w.*2 = take k id) as Hw2 by (apply snd_zip; rewrite !length_take; lia).
    exists (mkQuery w 0 [] :: qs). split; [|split; [simpl; lia|by constructor]]. split.
    + rewrite fmap_cons. unfold flat1, flat2 in *. rewrite !fmap_cons. cbn [concat window qsize length replicate]. rewrite Hw1, Hw2, <- Hf1, <- Hf2, !take_drop. f_equal; [lia|]. by f_equal.
    + constructor; [|done]. split; [cbn [window]; unfold w; rewrite length_zip_with, !length_take; lia|]. cbn [qsize seen]. split; [lia|]. split; [apply (best_all is_max k []); simpl; lia|lia].
Qed.

Lemma end_windows (qs : list query) q qu : qs !! q = Some qu -> (ended <$> qs) !! q = Some (ended qu).
Proof. intros Hq. by rewrite list_lookup_fmap, Hq. Qed.

(** C13: [HeapResultHandler], constructed on any two arrays, keeps the [top_k]
    best results of every query.  After any results added in any order to any of
    the queries, [End] leaves for each query the [top_k] best of those added to it
    (all of them, if there are fewer), the best first, each distance with its
    identifier, and the rest of its distances are [InitialValue]; no access is out
    of range. *)
Theorem heap_handler_top_k n (distance : list D) (id : list I) (adds : list (nat * (D * I))) : length distance = (n * k)%nat -> length id = (n * k)%nat -> Forall (fun x => (x.1 < n)%nat) adds ->
  exists h h', add_all (Heap_AddResult is_max) (NewHeapResultHandler (Z.of_nat n) (Z.of_nat k) distance id) adds = Ret h /\ Heap_EndAll is_max h = Ret h' /\
    forall q, (q < n)%nat -> exists r, top_k_of k (results_of q adds) r /\
      take k (drop (q * k) (h_distance_ptr h')) = r.*1 ++ replicate (k - length r) (InitialValue is_max) /\
      take (length r) (take k (drop (q * k) (h_id_ptr h'))) = r.*2.
Proof.
  intros Hd Hi Hadds. destruct (heap_new n distance id Hd Hi) as (qs & Hrel & Hn & Hnew). destruct (heap_add_all adds _ qs Hrel) as (h & qs' & Hadd & Hrel' & Hlen & Hseen); [by rewrite Hn|].
  destruct (heap_end_range h qs' (length qs') 0 Hrel') as (h' & Hend & Hrel''); [lia|]. simpl in Hrel''. exists h, h'. split; [done|]. split.
  { unfold Heap_EndAll. rewrite (proj1 Hrel'). cbn [h_n_queries]. rewrite Nat2Z.id. rewrite (proj1 Hrel') in Hend. exact Hend. }
  intros q Hq. destruct (lookup_lt_is_Some_2 qs q ltac:(lia)) as [qu Hqu]. destruct (Hseen q qu Hqu) as (qu' & Hqu' & Hs). rewrite (Forall_lookup_1 _ _ _ _ Hnew Hqu) in Hs. simpl in Hs.
  destruct (ended_ok qu' (Forall_lookup_1 _ _ _ _ (proj2 Hrel') Hqu')) as (_ & r & Htop & H1 & H2). rewrite Hs in Htop. exists r. split; [done|].
  rewrite (proj1 Hrel''). cbn [h_distance_ptr h_id_ptr]. pose proof (windows_length _ (proj2 Hrel'')) as Hw.
  assert ((window <$> (ended <$> qs')) !! q = Some (window (ended qu'))) as Hwq by (by rewrite list_lookup_fmap, (end_windows _ _ _ Hqu')).
  unfold flat1, flat2. rewrite (flat_window fst _ q _ k Hw Hwq), (flat_window snd _ q _ k Hw Hwq). done.
Qed.
End Handler.

(** ** An instance, with floating-point distances *)

Definition sample_adds : list (nat * (Number * nat)) :=
  [(0, (f32_of 5, 10)); (1, (f32_of 8, 11)); (0, (f32_of 3, 12)); (0, (f32_of 9, 13)); (0, (f32_of 1, 14))]%nat.

Lemma heap_handler_top_k_witness :
  (1 <= 2)%nat /\ Z.of_nat 2 < 2 ^ 31 /\
  exists h h', add_all (Heap_AddResult true) (NewHeapResultHandler 2 2 (replicate 4 (f32_of 7)) (replicate 4 0%nat)) sample_adds = Ret h /\ Heap_EndAll true h = Ret h' /\
    exists r, top_k_of true 2 (results_of 0 sample_adds) r /\ take 2 (h_distance_ptr h') = r.*1 ++ replicate (2 - length r) (InitialValue true).
Proof.
  split; [lia|]. split; [simpl; lia|].
  destruct (heap_handler_top_k true 2 ltac:(lia) ltac:(simpl; lia) 2 (replicate 4 (f32_of 7)) (replicate 4 0%nat) sample_adds eq_refl eq_refl) as (h & h' & Hadd & Hend & Hres).
  { repeat constructor. }
  exists h, h'. split; [exact Hadd|]. split; [exact Hend|]. destruct (Hres 0%nat ltac:(lia)) as (r & Htop & Hd & _). exists r. split; [exact Htop|exact Hd].
Defined.

(** The results of the sample. *)
Lemma sample_heap_results :
  (h ← add_all (Heap_AddResult true) (NewHeapResultHandler 2 2 (replicate 4 (f32_of 7)) (replicate 4 0%nat)) sample_adds; h ← Heap_EndAll true h; Ret (h_distance_ptr h, h_id_ptr h)) =
  Ret ([f32_of 1; f32_of 3; f32_of 8; LimitMax], [14; 12; 11; 0]%nat).
Proof. vm_compute. reflexivity. Qed.
