(* ===== verification/ReservoirProps.v ===== *)
(** * Correctness of the reservoirs

    [ReservoirResultHandler] of [ResultHandler] keeps the [top_k] best: the
    partition of a full reservoir keeps at least [top_k] elements and none that is
    worse than one it drops, and for [top_k] up to 100 it never gives up. *)
From S2P Require Import Prelude Arrays Bits Distance ResultHandler HeapProps.

Local Open Scope Z_scope.

(** ** Counting *)

Section Counting.
Context {A : Type}.
Implicit Types (P Q : A -> bool) (l : list A).

Definition count P l : nat := length (filter (fun x => P x = true) l).

Lemma count_cons P x l : count P (x :: l) = ((if P x then 1 else 0) + count P l)%nat.
Proof. unfold count. rewrite filter_cons. destruct (P x); [by rewrite decide_True|by rewrite decide_False]. Qed.

Lemma count_app P l1 l2 : count P (l1 ++ l2) = (count P l1 + count P l2)%nat.
Proof. unfold count. by rewrite filter_app, length_app. Qed.

Lemma count_perm P l1 l2 : l1 ≡ₚ l2 -> count P l1 = count P l2.
Proof. intros Hl. unfold count. by rewrite Hl. Qed.

Lemma count_le_length P l : (count P l <= length l)%nat.
Proof. apply length_filter. Qed.

Lemma count_mono P Q l : (forall x, x ∈ l -> P x = true -> Q x = true) -> (count P l <= count Q l)%nat.
Proof.
  induction l as [|x l IH]; intros HPQ; [done|]. rewrite !count_cons. assert (count P l <= count Q l)%nat by (apply IH; intros y Hy; apply HPQ; by right).
  specialize (HPQ x ltac:(by left)). destruct (P x), (Q x); naive_solver lia.
Qed.

Lemma count_lt P Q l x : x ∈ l -> (forall y, y ∈ l -> P y = true -> Q y = true) -> P x = false -> Q x = true -> (count P l < count Q l)%nat.
Proof.
  intros (l1 & l2 & ->)%list_elem_of_split HPQ Hp Hq. rewrite !count_app, !count_cons, Hp, Hq.
  assert (count P l1 <= count Q l1)%nat by (apply count_mono; intros y Hy; apply HPQ; set_solver).
  assert (count P l2 <= count Q l2)%nat by (apply count_mono; intros y Hy; apply HPQ; set_solver). lia.
Qed.

Lemma count_all P l : (forall x, x ∈ l -> P x = true) -> count P l = length l.
Proof.
  induction l as [|x l IH]; intros Hall; [done|]. rewrite count_cons, (Hall x) by (by left). simpl. f_equal. apply IH. intros y Hy. apply Hall. by right.
Qed.

Lemma count_none P l : (forall x, x ∈ l -> P x = false) -> count P l = 0%nat.
Proof.
  induction l as [|x l IH]; intros Hall; [done|]. rewrite count_cons, (Hall x) by (by left). apply IH. intros y Hy. apply Hall. by right.
Qed.

Lemma count_some P l : (0 < count P l)%nat -> exists x, x ∈ l /\ P x = true.
Proof.
  induction l as [|x l IH]; [intros Hc; change (0 < 0)%nat in Hc; lia|]. rewrite count_cons. destruct (P x) eqn:E; [intros _; exists x; split; [by left|done]|]. intros (y & Hy & HP)%IH. exists y. split; [by right|done].
Qed.

(** Those of [Q] are in one of three sets. *)
Lemma count_cover Q P1 P2 P3 l : (forall x, x ∈ l -> Q x = true -> P1 x = true \/ P2 x = true \/ P3 x = true) -> (count Q l <= count P1 l + count P2 l + count P3 l)%nat.
Proof.
  induction l as [|x l IH]; intros Hc; [done|]. rewrite !count_cons. assert (count Q l <= count P1 l + count P2 l + count P3 l)%nat by (apply IH; intros y Hy; apply Hc; by right).
  specialize (Hc x ltac:(by left)). destruct (Q x), (P1 x), (P2 x), (P3 x); naive_solver lia.
Qed.
End Counting.

(** ** Windows, from 0 *)

Section Partition.
Context {D I : Type} `{DistanceLaws D} (is_max : bool).
Context (pre post : list D) (pre' post' : list I) (base : Z) (base_eq : base = Z.of_nat (length pre)) (pre_eq : length pre' = length pre).
Abbreviation Compare := (Compare is_max).
Abbreviation arr := (arr pre post pre' post').
Implicit Types (v l : list (D * I)) (thresh : D).

Lemma arr_at v i x : v !! i = Some x -> at_index (arr v).1 (base + Z.of_nat i) = Ret x.1 /\ at_index (arr v).2 (base + Z.of_nat i) = Ret x.2.
Proof.
  intros Hx. replace (base + Z.of_nat i) with (base - 1 + Z.of_nat (S i)) by lia. apply window_at; [lia|done|lia|]. by rewrite Nat.sub_1_r.
Qed.

Lemma arr_set v i x : (i < length v)%nat ->
  set_index (arr v).1 (base + Z.of_nat i) x.1 = Ret (arr (<[i := x]> v)).1 /\ set_index (arr v).2 (base + Z.of_nat i) x.2 = Ret (arr (<[i := x]> v)).2.
Proof.
  intros Hi. replace (base + Z.of_nat i) with (base - 1 + Z.of_nat (S i)) by lia. destruct (window_set pre post pre' post' (base - 1) ltac:(lia) pre_eq v (S i) x ltac:(lia)) as [H1 H2].
  by rewrite Nat.sub_1_r in H1, H2.
Qed.

(** ** The counts of a threshold *)

Definition lt_count thresh l : nat := count (fun x => Compare thresh x.1) l.
Definition eq_count thresh l : nat := count (fun x => d_eq x.1 thresh) l.

Lemma eq_not_better (a b : D) : d_eq a b = true -> Compare a b = false /\ Compare b a = false.
Proof. rewrite (cmp_eq is_max). intros [?%negb_true_iff ?%negb_true_iff]%andb_true_iff. done. Qed.

Lemma count_values n : forall v i thresh a b, (i + n = length v)%nat ->
  count_lt_and_eq is_max (arr v).1 base (Z.of_nat i) n thresh a b = Ret (a + Z.of_nat (lt_count thresh (drop i v)), b + Z.of_nat (eq_count thresh (drop i v))).
Proof.
  induction n as [|n IH]; intros v i thresh a b Hi; cbn [count_lt_and_eq].
  - rewrite drop_ge by lia. unfold lt_count, eq_count, count. simpl. f_equal. f_equal; lia.
  - destruct (lookup_lt_is_Some_2 v i ltac:(lia)) as [x Hx]. rewrite (proj1 (arr_at v i x Hx)), ret_bind, (drop_S _ _ _ Hx). replace (Z.of_nat i + 1) with (Z.of_nat (S i)) by lia.
    unfold lt_count, eq_count. rewrite !count_cons. destruct (Compare thresh x.1) eqn:Hc.
    + assert (d_eq x.1 thresh = false) as -> by (apply not_true_is_false; intros [_ ?]%eq_not_better; congruence). rewrite IH by lia. f_equal. unfold lt_count, eq_count. f_equal; lia.
    + destruct (d_eq x.1 thresh); rewrite IH by lia; f_equal; unfold lt_count, eq_count; f_equal; lia.
Qed.

(** ** The next threshold *)

Definition inside (inf sup d : D) v : Prop := between is_max inf sup d = true /\ d ∈ v.*1.

Lemma sample_inside todo : forall v n i inf sup val3, n = Z.of_nat (length v) -> (0 < length v)%nat -> Forall (fun d => inside inf sup d v) val3 -> (length val3 < 3)%nat ->
  exists r, sample_loop is_max (arr v).1 base n i todo inf sup val3 = Ret r /\ Forall (fun d => inside inf sup d v) r /\ (length r <= 3)%nat.
Proof.
  induction todo as [|todo IH]; intros v n i inf sup val3 Hn Hv Hval Hlen; cbn [sample_loop]; [exists val3; split; [done|]; split; [done|lia]|].
  pose proof (Z.mod_pos_bound (to_u64 (i * big_prime)) n ltac:(lia)) as Hm. set (j := to_u64 (i * big_prime) mod n) in *.
  destruct (lookup_lt_is_Some_2 v (Z.to_nat j) ltac:(lia)) as [x Hx]. pose proof (proj1 (arr_at v _ x Hx)) as Hat. rewrite Z2Nat.id in Hat by lia. rewrite Hat, ret_bind.
  destruct (between is_max inf sup x.1) eqn:E; [|by apply IH]. assert (Forall (fun d => inside inf sup d v) (val3 ++ [x.1])) as Hval'.
  { apply Forall_app. split; [done|]. constructor; [|done]. split; [done|]. apply list_elem_of_fmap. exists x. split; [done|]. by eapply list_elem_of_lookup_2. }
  cbv zeta. destruct (length (val3 ++ [x.1]) =? 3)%nat eqn:E3; [eexists; split; [done|]; split; [done|]; apply Nat.eqb_eq in E3; lia|].
  apply Nat.eqb_neq in E3. rewrite length_app in E3. simpl in E3. apply IH; [done|done|done|]. rewrite length_app. simpl. lia.
Qed.

Lemma first_inside todo : forall v i inf sup x, (i + todo = length v)%nat -> x ∈ drop i v -> between is_max inf sup x.1 = true ->
  exists d, first_between is_max (arr v).1 base (Z.of_nat i) todo inf sup = Ret d /\ inside inf sup d v.
Proof.
  induction todo as [|todo IH]; intros v i inf sup x Hi Hx Hb; [rewrite drop_ge in Hx by lia; by apply elem_of_nil in Hx|]. cbn [first_between].
  destruct (lookup_lt_is_Some_2 v i ltac:(lia)) as [y Hy]. rewrite (proj1 (arr_at v i y Hy)), ret_bind. destruct (between is_max inf sup y.1) eqn:E.
  - exists y.1. split; [done|]. split; [done|]. apply list_elem_of_fmap. exists y. split; [done|]. by eapply list_elem_of_lookup_2.
  - replace (Z.of_nat i + 1) with (Z.of_nat (S i)) by lia. apply (IH v (S i) inf sup x); [lia| |done]. rewrite (drop_S _ _ _ Hy) in Hx. apply elem_of_cons in Hx as [->|Hx]; [congruence|done].
Qed.

Lemma median3_or (a b c : D) : median3 a b c = a \/ median3 a b c = b \/ median3 a b c = c.
Proof.
  unfold median3. destruct (d_lt b a).
  - destruct (d_le a c); [auto|]. destruct (d_max_or b c) as [-> | ->]; auto.
  - destruct (d_le b c); [auto|]. destruct (d_max_or a c) as [-> | ->]; auto.
Qed.

Lemma sample_ok v inf sup x : x ∈ v -> between is_max inf sup x.1 = true ->
  exists d, sample_threshold_median3 is_max (arr v).1 base (Z.of_nat (length v)) inf sup = Ret d /\ inside inf sup d v.
Proof.
  intros Hx Hb. unfold sample_threshold_median3. destruct (sample_inside (Z.to_nat (Z.of_nat (length v))) v (Z.of_nat (length v)) 0 inf sup []) as (r & -> & Hr & Hlen); [done|by destruct v; [apply elem_of_nil in Hx|simpl; lia]|done|simpl; lia|].
  rewrite ret_bind. destruct r as [|a [|b [|c [|]]]]; [|inversion Hr; eauto..|simpl in Hlen; lia].
  - rewrite Nat2Z.id. by apply (first_inside (length v) v 0 inf sup x).
  - inversion Hr as [|? ? Ha Hr']. inversion Hr' as [|? ? Hb' Hr'']. inversion Hr'' as [|? ? Hc _]. exists (median3 a b c). split; [done|]. destruct (median3_or a b c) as [->|[->| ->]]; done.
Qed.
(** ** The search for a threshold *)

Abbreviation between_count inf sup v := (count (fun x => between is_max inf sup x.1) v).

(** Between a bound with more than [q_max] better elements and one with fewer
    than [q_min] there is an element. *)
Lemma between_some inf sup v q_min q_max : (q_min <= q_max)%nat -> (lt_count inf v + eq_count inf v < q_min)%nat -> (q_max < lt_count sup v)%nat -> (0 < between_count inf sup v)%nat.
Proof.
  intros Hq Hinf Hsup. enough (lt_count sup v <= lt_count inf v + eq_count inf v + between_count inf sup v)%nat by lia. apply count_cover. intros x _ Hx.
  unfold between. rewrite Hx, andb_true_r, (cmp_eq is_max). destruct (Compare inf x.1), (Compare x.1 inf); auto.
Qed.

(** The threshold becomes one of the bounds, and the interval loses it. *)
Lemma between_shrinks inf sup thresh v : inside inf sup thresh v ->
  (between_count thresh sup v < between_count inf sup v)%nat /\ (between_count inf thresh v < between_count inf sup v)%nat.
Proof.
  intros [Hb (x & -> & Hx)%list_elem_of_fmap]. unfold between in Hb. apply andb_true_iff in Hb as [Hinf Hsup].
  split; (apply (count_lt _ _ _ x Hx); [|unfold between; by rewrite cmp_irrefl, ?andb_false_r|unfold between; by rewrite Hinf, Hsup]); unfold between; intros y _ [H1 H2]%andb_true_iff; apply andb_true_iff.
  - split; [by eapply cmp_trans|done].
  - split; [done|by eapply cmp_trans].
Qed.

Lemma partition_loop_ok fuel v q_min q_max : (q_min <= q_max)%nat -> forall inf sup thresh lt0,
  inside inf sup thresh v -> (lt_count inf v + eq_count inf v < q_min)%nat -> (q_max < lt_count sup v)%nat -> (between_count inf sup v <= fuel)%nat ->
  exists t q, partition_loop is_max fuel (arr v).1 base (Z.of_nat (length v)) (Z.of_nat q_min) (Z.of_nat q_max) inf sup thresh lt0 = Ret (t, Z.of_nat (lt_count t v), Z.of_nat q) /\
    (q_min <= q <= q_max)%nat /\ (lt_count t v <= q <= lt_count t v + eq_count t v)%nat.
Proof.
  intros Hq. induction fuel as [|fuel IH]; intros inf sup thresh lt0 Hin Hinf Hsup Hfuel; [pose proof (between_shrinks inf sup thresh v Hin); lia|]. cbn [partition_loop].
  pose proof (count_values (length v) v 0 thresh 0 0 eq_refl) as Hcount. change (Z.of_nat 0) with 0 in Hcount. rewrite Nat2Z.id, Hcount, drop_0, ret_bind, !Z.add_0_l. destruct (between_shrinks inf sup thresh v Hin) as [Hs1 Hs2].
  assert (forall inf' sup', (lt_count inf' v + eq_count inf' v < q_min)%nat -> (q_max < lt_count sup' v)%nat -> (between_count inf' sup' v <= fuel)%nat -> exists t q,
    (new_thresh ← sample_threshold_median3 is_max (arr v).1 base (Z.of_nat (length v)) inf' sup';
     if d_eq new_thresh inf' : bool then Throw ExecutorException "partition_median3 error: new_thresh == thresh_inf"
     else partition_loop is_max fuel (arr v).1 base (Z.of_nat (length v)) (Z.of_nat q_min) (Z.of_nat q_max) inf' sup' new_thresh (Z.of_nat (lt_count thresh v))) =
      Ret (t, Z.of_nat (lt_count t v), Z.of_nat q) /\ (q_min <= q <= q_max)%nat /\ (lt_count t v <= q <= lt_count t v + eq_count t v)%nat) as Hnext.
  { intros inf' sup' Hi Hs Hf. destruct (count_some _ _ (between_some inf' sup' v q_min q_max Hq Hi Hs)) as (x & Hx & Hb). destruct (sample_ok v inf' sup' x Hx Hb) as (d & -> & Hd). rewrite ret_bind.
    assert (d_eq d inf' = false) as ->; [|by apply IH]. destruct Hd as [Hd _]. apply andb_true_iff in Hd as [Hd _]. apply not_true_is_false. intros [? _]%eq_not_better. congruence. }
  destruct (Z.of_nat (lt_count thresh v) <=? Z.of_nat q_min) eqn:E1; zbool.
  - destruct (_ >=? _) eqn:E2; zbool; [exists thresh, q_min; split; [done|lia]|]. apply Hnext; lia.
  - destruct (_ <=? _) eqn:E2; zbool; [exists thresh, (lt_count thresh v); split; [done|lia]|]. apply Hnext; lia.
Qed.

(** ** The search as a function

    What the loop computes, without the arrays: [order] are the values in the
    order in which they are sampled. *)

Definition inside_of (inf sup : D) (l : list D) : list D := filter (fun d => between is_max inf sup d = true) l.

Definition sampled v (i : nat) : option D := fst <$> v !! Z.to_nat (to_u64 (Z.of_nat i * big_prime) mod Z.of_nat (length v)).
Definition sample_order v : list D := omap (sampled v) (seq 0 (length v)).

Definition next_threshold (vals order : list D) (inf sup : D) : D :=
  match take 3 (inside_of inf sup order) with
  | [a; b; c] => median3 a b c
  | a :: _ => a
  | [] => match inside_of inf sup vals with d :: _ => d | [] => inf end
  end.

Fixpoint search (fuel : nat) v (vals order : list D) (q_min q_max : nat) (inf sup thresh : D) (lt : nat) : outcome (D * Z * Z) :=
  match fuel with
  | O => Ret (thresh, Z.of_nat lt, 0)
  | S fuel =>
      let lt := lt_count thresh v in
      let next inf sup :=
        let new_thresh := next_threshold vals order inf sup in
        if d_eq new_thresh inf then Throw ExecutorException "partition_median3 error: new_thresh == thresh_inf"
        else search fuel v vals order q_min q_max inf sup new_thresh lt in
      if (lt <=? q_min)%nat then if (q_min <=? lt + eq_count thresh v)%nat then Ret (thresh, Z.of_nat lt, Z.of_nat q_min) else next thresh sup
      else if (lt <=? q_max)%nat then Ret (thresh, Z.of_nat lt, Z.of_nat lt)
      else next inf thresh
  end.

Lemma sample_loop_eq v inf sup todo : (0 < length v)%nat -> forall i val3, (length val3 < 3)%nat ->
  sample_loop is_max (arr v).1 base (Z.of_nat (length v)) (Z.of_nat i) todo inf sup val3 = Ret (take 3 (val3 ++ inside_of inf sup (omap (sampled v) (seq i todo)))).
Proof.
  intros Hv. induction todo as [|todo IH]; intros i val3 Hlen; cbn [sample_loop seq omap list_omap].
  - unfold inside_of. simpl. by rewrite app_nil_r, take_ge by lia.
  - pose proof (Z.mod_pos_bound (to_u64 (Z.of_nat i * big_prime)) (Z.of_nat (length v)) ltac:(lia)) as Hm.
    destruct (lookup_lt_is_Some_2 v (Z.to_nat (to_u64 (Z.of_nat i * big_prime) mod Z.of_nat (length v))) ltac:(lia)) as [x Hx].
    pose proof (proj1 (arr_at v _ x Hx)) as Hat. rewrite Z2Nat.id in Hat by lia. rewrite Hat, ret_bind. unfold sampled at 1. rewrite Hx. cbn [fmap option_fmap option_map].
    replace (Z.of_nat i + 1) with (Z.of_nat (S i)) by lia. unfold inside_of. rewrite filter_cons. fold (inside_of inf sup (omap (sampled v) (seq (S i) todo))). destruct (between is_max inf sup x.1) eqn:E.
    + rewrite decide_True by done. cbv zeta. rewrite (cons_middle x.1 val3 (inside_of _ _ _)), app_assoc. destruct (length (val3 ++ [x.1]) =? 3)%nat eqn:E3.
      * apply Nat.eqb_eq in E3. f_equal. symmetry. apply take_app_length'. done.
      * apply Nat.eqb_neq in E3. apply IH. rewrite length_app in *. simpl in *. lia.
    + rewrite decide_False by congruence. by apply IH.
Qed.

Lemma first_between_eq v inf sup todo : forall i, (i + todo = length v)%nat ->
  first_between is_max (arr v).1 base (Z.of_nat i) todo inf sup = Ret (match inside_of inf sup (drop i v).*1 with d :: _ => d | [] => inf end).
Proof.
  induction todo as [|todo IH]; intros i Hi; cbn [first_between]; [by rewrite drop_ge by lia|]. destruct (lookup_lt_is_Some_2 v i ltac:(lia)) as [x Hx].
  rewrite (proj1 (arr_at v i x Hx)), ret_bind, (drop_S _ _ _ Hx), fmap_cons. unfold inside_of. rewrite filter_cons. destruct (between is_max inf sup x.1) eqn:E; [by rewrite decide_True|].
  rewrite decide_False by congruence. replace (Z.of_nat i + 1) with (Z.of_nat (S i)) by lia. apply IH. lia.
Qed.

Lemma sample_eq v inf sup : (0 < length v)%nat ->
  sample_threshold_median3 is_max (arr v).1 base (Z.of_nat (length v)) inf sup = Ret (next_threshold v.*1 (sample_order v) inf sup).
Proof.
  intros Hv. unfold sample_threshold_median3, next_threshold, sample_order. rewrite Nat2Z.id. pose proof (sample_loop_eq v inf sup (length v) Hv 0 [] ltac:(simpl; lia)) as Hl.
  change (Z.of_nat 0) with 0 in Hl. rewrite Hl, ret_bind, app_nil_l.
  destruct (take 3 _) as [|a [|b [|c [|]]]]; try done. by apply (first_between_eq v inf sup (length v) 0).
Qed.

Lemma partition_loop_eq fuel v q_min q_max : (0 < length v)%nat -> forall inf sup thresh lt,
  partition_loop is_max fuel (arr v).1 base (Z.of_nat (length v)) (Z.of_nat q_min) (Z.of_nat q_max) inf sup thresh (Z.of_nat lt) = search fuel v v.*1 (sample_order v) q_min q_max inf sup thresh lt.
Proof.
  intros Hv. induction fuel as [|fuel IH]; intros inf sup thresh lt; [done|]. cbn [partition_loop search]. pose proof (count_values (length v) v 0 thresh 0 0 eq_refl) as Hcount.
  change (Z.of_nat 0) with 0 in Hcount. rewrite Nat2Z.id, Hcount, drop_0, ret_bind, !Z.add_0_l. cbv zeta. rewrite !sample_eq, !ret_bind by done.
  destruct (Z.of_nat (lt_count thresh v) <=? Z.of_nat q_min) eqn:E1; zbool.
  - rewrite (proj2 (Nat.leb_le _ _)) by lia. rewrite Z.geb_leb. destruct (Z.of_nat q_min <=? _) eqn:E2; zbool.
    + by rewrite (proj2 (Nat.leb_le _ _)) by lia.
    + rewrite (proj2 (Nat.leb_gt _ _)) by lia. destruct (d_eq _ thresh); [done|apply IH].
  - rewrite (proj2 (Nat.leb_gt _ _)) by lia. destruct (Z.of_nat (lt_count thresh v) <=? Z.of_nat q_max) eqn:E2; zbool.
    + by rewrite (proj2 (Nat.leb_le _ _)) by lia.
    + rewrite (proj2 (Nat.leb_gt _ _)) by lia. destruct (d_eq _ inf); [done|apply IH].
Qed.

(** ** The compression *)

Fixpoint compress (thresh : D) (n_eq : nat) l : list (D * I) :=
  match l with
  | [] => []
  | x :: l =>
      if Compare thresh x.1 then x :: compress thresh n_eq l
      else match n_eq with
           | S n_eq' => if d_eq x.1 thresh then x :: compress thresh n_eq' l else compress thresh n_eq l
           | O => compress thresh n_eq l
           end
  end.

Lemma compress_split thresh l : forall n_eq, exists dropped, l ≡ₚ compress thresh n_eq l ++ dropped /\
  (forall x, x ∈ compress thresh n_eq l -> Compare x.1 thresh = false) /\ (forall y, y ∈ dropped -> Compare thresh y.1 = false).
Proof.
  induction l as [|x l IH]; intros n_eq; [exists []; split; [done|]; split; intros ? []%elem_of_nil|].
  assert (forall n, Compare x.1 thresh = false -> exists dropped, x :: l ≡ₚ (x :: compress thresh n l) ++ dropped /\
    (forall y, y ∈ x :: compress thresh n l -> Compare y.1 thresh = false) /\ (forall y, y ∈ dropped -> Compare thresh y.1 = false)) as Hkeep.
  { intros n Hx. destruct (IH n) as (dropped & Hp & Hk & Hd). exists dropped. split; [by rewrite <- app_comm_cons, <- Hp|]. split; [|done]. by intros y [->|Hy]%elem_of_cons; [|apply Hk]. }
  assert (Compare thresh x.1 = false -> exists dropped, x :: l ≡ₚ compress thresh n_eq l ++ dropped /\
    (forall y, y ∈ compress thresh n_eq l -> Compare y.1 thresh = false) /\ (forall y, y ∈ dropped -> Compare thresh y.1 = false)) as Hdrop.
  { intros Hx. destruct (IH n_eq) as (dropped & Hp & Hk & Hd). exists (x :: dropped). split; [by rewrite <- Permutation_middle, <- Hp|]. split; [done|]. by intros y [->|Hy]%elem_of_cons; [|apply Hd]. }
  cbn [compress]. destruct (Compare thresh x.1) eqn:Hc; [apply Hkeep; by apply cmp_asym|]. destruct n_eq as [|n_eq]; [by apply Hdrop|].
  destruct (d_eq x.1 thresh) eqn:He; [|by apply Hdrop]. apply Hkeep. exact (proj1 (eq_not_better _ _ He)).
Qed.

Lemma compress_length thresh l : forall n_eq, (n_eq <= eq_count thresh l)%nat -> length (compress thresh n_eq l) = (lt_count thresh l + n_eq)%nat.
Proof.
  induction l as [|x l IH]; intros n_eq Hn; [unfold eq_count, count in Hn; simpl in *; lia|]. cbn [compress]. unfold lt_count, eq_count in *. rewrite count_cons in Hn |- *.
  destruct (Compare thresh x.1) eqn:Hc.
  - assert (d_eq x.1 thresh = false) as He by (apply not_true_is_false; intros [_ ?]%eq_not_better; congruence). rewrite He in Hn. cbn [length]. rewrite IH; lia.
  - destruct n_eq as [|n_eq]; [rewrite IH; lia|]. destruct (d_eq x.1 thresh); [cbn [length]; rewrite IH; lia|rewrite IH; lia].
Qed.

Lemma keep_ok v i wp x : v !! i = Some x -> (wp <= i)%nat ->
  keep (arr v).1 (arr v).2 base (Z.of_nat i) (Z.of_nat wp) = Ret (arr (<[wp := x]> v)).
Proof.
  intros Hx Hwp. pose proof (lookup_lt_Some _ _ _ Hx) as Hlt. unfold keep. destruct (_ =? _) eqn:E; zbool; cbn [negb].
  - replace wp with i by lia. by rewrite list_insert_id.
  - destruct (arr_at v i x Hx) as [-> H2]. rewrite ret_bind. destruct (arr_set v wp x ltac:(lia)) as [Hs1 Hs2]. by rewrite Hs1, ret_bind, H2, ret_bind, Hs2, ret_bind.
Qed.

Lemma compress_loop_ok todo : forall v i thresh n_eq wp, (i + todo = length v)%nat -> (wp <= i)%nat -> (n_eq <= eq_count thresh (drop i v))%nat ->
  exists v', compress_loop is_max (arr v).1 (arr v).2 base (Z.of_nat i) todo thresh (Z.of_nat n_eq) (Z.of_nat wp) =
      Ret ((arr v').1, (arr v').2, 0, Z.of_nat (wp + (lt_count thresh (drop i v) + n_eq))) /\ length v' = length v /\
    take (wp + (lt_count thresh (drop i v) + n_eq)) v' = take wp v ++ compress thresh n_eq (drop i v).
Proof.
  induction todo as [|todo IH]; intros v i thresh n_eq wp Hi Hwp Hn; cbn [compress_loop].
  - rewrite drop_ge in * by lia. unfold lt_count, eq_count, count in *. simpl in *. exists v. replace n_eq with 0%nat by lia. rewrite !Nat.add_0_r, app_nil_r. done.
  - destruct (lookup_lt_is_Some_2 v i ltac:(lia)) as [x Hx]. rewrite (proj1 (arr_at v i x Hx)), ret_bind. rewrite (drop_S _ _ _ Hx) in Hn |- *. unfold eq_count, lt_count in Hn |- *. rewrite !count_cons in *.
    replace (Z.of_nat i + 1) with (Z.of_nat (S i)) by lia. fold (lt_count thresh (drop (S i) v)) in *. fold (eq_count thresh (drop (S i) v)) in *.
    assert (forall n, (n <= eq_count thresh (drop (S i) v))%nat -> exists v', ('(vals, ids) ← keep (arr v).1 (arr v).2 base (Z.of_nat i) (Z.of_nat wp); compress_loop is_max vals ids base (Z.of_nat (S i)) todo thresh (Z.of_nat n) (Z.of_nat wp + 1)) =
        Ret ((arr v').1, (arr v').2, 0, Z.of_nat (S wp + (lt_count thresh (drop (S i) v) + n))) /\ length v' = length v /\
      take (S wp + (lt_count thresh (drop (S i) v) + n)) v' = take wp v ++ x :: compress thresh n (drop (S i) v)) as Hkeep.
    { intros n Hle. rewrite (keep_ok v i wp x Hx Hwp), ret_bind. replace (Z.of_nat wp + 1) with (Z.of_nat (S wp)) by lia. pose proof (lookup_lt_Some _ _ _ Hx) as Hlt.
      destruct (IH (<[wp := x]> v) (S i) thresh n (S wp)) as (v' & Hrun & Hl & Ht); [rewrite length_insert; lia|lia|by rewrite drop_insert_lt by lia|].
      rewrite drop_insert_lt, length_insert in * by lia. exists v'. split; [exact Hrun|]. split; [done|]. rewrite Ht.
      assert (<[wp := x]> v !! wp = Some x) as Hxw by (apply list_lookup_insert_eq; lia). rewrite (take_S_r _ _ _ Hxw), take_insert_ge by lia. by rewrite <- app_assoc. }
    cbn [compress]. destruct (Compare thresh x.1) eqn:Hc.
    + assert (d_eq x.1 thresh = false) as He by (apply not_true_is_false; intros [_ ?]%eq_not_better; congruence). rewrite He in Hn. destruct (Hkeep n_eq ltac:(lia)) as (v' & Hrun & Hl & Ht). exists v'. split; [rewrite Hrun; do 3 f_equal; lia|]. split; [done|]. rewrite <- Ht. f_equal. lia.
    + destruct n_eq as [|n_eq]; cbn [Z.gtb andb]; [by apply IH; [lia|lia|lia]|]. destruct (d_eq x.1 thresh) eqn:He.
      * replace (Z.of_nat (S n_eq) >? 0) with true by (rewrite Z.gtb_ltb; symmetry; apply Z.ltb_lt; lia). cbn [andb]. replace (Z.of_nat (S n_eq) - 1) with (Z.of_nat n_eq) by lia.
        destruct (Hkeep n_eq ltac:(lia)) as (v' & Hrun & Hl & Ht). exists v'. split; [rewrite Hrun; do 3 f_equal; lia|]. split; [done|]. rewrite <- Ht. f_equal. lia.
      * rewrite andb_false_r. destruct (IH v (S i) thresh (S n_eq) wp ltac:(lia) ltac:(lia) ltac:(lia)) as (v' & Hrun & Hl & Ht). by exists v'.
Qed.
(** ** The partition *)

(** A distance strictly between the initial values. *)
Definition valid (x : D * I) : Prop := between is_max (InitialValue (negb is_max)) (InitialValue is_max) x.1 = true.

Lemma partition_ok v q_min q_max : (3 <= length v <= 200)%nat -> (1 <= q_min <= q_max)%nat -> (q_max < length v)%nat -> Forall valid v ->
  exists v' q t, partition_median3 is_max (arr v).1 (arr v).2 base (Z.of_nat (length v)) (Z.of_nat q_min) (Z.of_nat q_max) = Ret ((arr v').1, (arr v').2, Z.of_nat q, t) /\
    (q_min <= q <= q_max)%nat /\ length v' = length v /\ exists dropped, v ≡ₚ take q v' ++ dropped /\
    (forall x, x ∈ take q v' -> Compare x.1 t = false) /\ (forall y, y ∈ dropped -> Compare t y.1 = false).
Proof.
  intros Hlen Hq Hmax Hvalid. set (n := length v) in *. rewrite Forall_forall in Hvalid. unfold partition_median3. rewrite (proj2 (Z.ltb_ge _ _)) by lia.
  assert (forall i, (i < n)%nat -> exists x, v !! i = Some x /\ x ∈ v) as Hget by (intros i Hi; destruct (lookup_lt_is_Some_2 v i Hi) as [x Hx]; exists x; split; [done|by eapply list_elem_of_lookup_2]).
  pose proof (half_le n). pose proof (Nat.div_lt n 2 ltac:(lia) ltac:(lia)). destruct (Hget 0%nat ltac:(lia)) as (a & Ha & Hav), (Hget (n / 2)%nat ltac:(lia)) as (b & Hb & Hbv), (Hget (n - 1)%nat ltac:(lia)) as (c & Hc & Hcv).
  replace (at_index (arr v).1 base) with (Ret a.1) by (symmetry; rewrite <- (Z.add_0_r base); apply (arr_at v 0 a Ha)). rewrite ret_bind.
  replace (Z.of_nat n / 2) with (Z.of_nat (n / 2)) by (by rewrite Nat2Z.inj_div). rewrite (proj1 (arr_at v _ b Hb)), ret_bind.
  replace (Z.of_nat n - 1) with (Z.of_nat (n - 1)) by lia. rewrite (proj1 (arr_at v _ c Hc)), ret_bind. set (inf := InitialValue (negb is_max)) in *. set (sup := InitialValue is_max) in *.
  assert (inside inf sup (median3 a.1 b.1 c.1) v) as Hin.
  { destruct (median3_or a.1 b.1 c.1) as [->|[->| ->]]; (split; [by apply Hvalid|apply list_elem_of_fmap; eauto]). }
  assert (lt_count inf v + eq_count inf v < q_min)%nat as Hinf.
  { unfold lt_count, eq_count. rewrite !count_none; [lia| |]; intros x Hx; pose proof (Hvalid x Hx) as [Hx1 _]%andb_true_iff; [|by apply cmp_asym]. apply not_true_is_false. intros [? _]%eq_not_better. fold inf in Hx1. congruence. }
  assert (q_max < lt_count sup v)%nat as Hsup by (unfold lt_count; rewrite count_all; [done|]; intros x Hx; by pose proof (Hvalid x Hx) as [_ Hx1]%andb_true_iff).
  destruct (partition_loop_ok 200 v q_min q_max ltac:(lia) inf sup _ 0 Hin Hinf Hsup) as (t & q & Hpl & Hqq & Hqt); [etrans; [apply count_le_length|lia]|]. fold n in Hpl. rewrite Hpl, ret_bind. rewrite (proj2 (Z.ltb_ge _ _)) by lia.
  unfold compress_array. replace (Z.of_nat q - Z.of_nat (lt_count t v)) with (Z.of_nat (q - lt_count t v)) by lia. rewrite Nat2Z.id.
  destruct (compress_loop_ok n v 0 t (q - lt_count t v) 0 ltac:(lia) ltac:(lia)) as (v' & Hrun & Hl & Ht); [rewrite drop_0; lia|]. change (Z.of_nat 0) with 0 in Hrun. rewrite Hrun, ret_bind. cbn [negb Z.eqb].
  rewrite drop_0, take_0, Nat.add_0_l in *. replace (lt_count t v + (q - lt_count t v))%nat with q in * by lia. rewrite ret_bind, Z.eqb_refl. cbn [negb].
  exists v', q, t. split; [done|]. split; [lia|]. split; [done|]. rewrite Ht. cbn [app]. apply compress_split.
Qed.
End Partition.

(** ** What is dropped is no better than [k] of what is kept *)

Section Kept.
Context {D I : Type} `{DistanceLaws D} (is_max : bool) (k : nat).
Abbreviation Compare := (Compare is_max).
Abbreviation best_of := (best_of is_max).
Implicit Types (R dropped results r : list (D * I)).

(** The elements that [d] is not better than. *)
Definition le_count (d : D) R : nat := count (fun x => negb (Compare x.1 d)) R.

Definition keeps R dropped : Prop := forall y, y ∈ dropped -> (k <= le_count y.1 R)%nat.

Lemma le_count_mono (a b : D) R : Compare a b = false -> (le_count a R <= le_count b R)%nat.
Proof. intros Hab. apply count_mono. intros x _ Hx. apply negb_true_iff in Hx. apply negb_true_iff. by eapply cmp_neg_trans. Qed.

Lemma le_count_all (d : D) R : (forall x, x ∈ R -> Compare x.1 d = false) -> le_count d R = length R.
Proof. intros HR. apply count_all. intros x Hx. by rewrite HR. Qed.

(** A partition of [R] into [K] and [L]. *)
Lemma keeps_partition R K L dropped (t : D) : R ≡ₚ K ++ L -> (k <= length K)%nat -> (forall x, x ∈ K -> Compare x.1 t = false) -> (forall y, y ∈ L -> Compare t y.1 = false) ->
  keeps R dropped -> keeps K (dropped ++ L).
Proof.
  intros HR HK Ht HL Hkeep y [Hy|Hy]%elem_of_app.
  - specialize (Hkeep y Hy). unfold le_count in Hkeep. rewrite (count_perm _ _ _ HR), count_app in Hkeep. destruct (decide (count (fun x => negb (Compare x.1 y.1)) L = 0%nat)) as [E|E]; [unfold le_count; lia|].
    destruct (count_some (fun x => negb (Compare x.1 y.1)) L) as (e & He & Hey%negb_true_iff); [lia|].
    rewrite le_count_all; [done|]. intros x Hx. eapply cmp_neg_trans; [by apply Ht|]. eapply cmp_neg_trans; [by apply HL|done].
  - rewrite le_count_all; [done|]. intros x Hx. eapply cmp_neg_trans; [by apply Ht|by apply HL].
Qed.

Lemma keeps_more R R' dropped : keeps R dropped -> keeps (R ++ R') dropped.
Proof. intros Hk y Hy. unfold le_count. rewrite count_app. specialize (Hk y Hy). unfold le_count in Hk. lia. Qed.

(** The [k] best of what is kept are the [k] best of all. *)
Lemma best_kept results R dropped r : results ≡ₚ R ++ dropped -> keeps R dropped -> best_of k R r -> best_of k results r.
Proof.
  intros Hres Hkeep (Hlen & rest & HR & Hbest). assert (dropped = [] \/ length r = k) as Hcase.
  { destruct dropped as [|y dropped]; [by left|right]. pose proof (Hkeep y ltac:(by left)) as Hy. pose proof (count_le_length (fun x : D * I => negb (Compare x.1 y.1)) R). unfold le_count in Hy. lia. }
  split. { rewrite (Permutation_length Hres), length_app. destruct Hcase as [->|]; simpl; lia. }
  exists (rest ++ dropped). split; [by rewrite Hres, HR, app_assoc|]. intros x y Hx [Hy|Hy]%elem_of_app; [by apply Hbest|].
  destruct Hcase as [->|Hk]; [by apply elem_of_nil in Hy|]. apply not_true_is_false. intros Hxy. specialize (Hkeep y Hy). unfold le_count in Hkeep. rewrite (count_perm _ _ _ HR), count_app in Hkeep.
  rewrite (count_none _ rest) in Hkeep.
  - assert (count (fun x => negb (Compare x.1 y.1)) r < count (fun _ => true) r)%nat as Hlt by (apply (count_lt _ _ _ x Hx); [done|by rewrite Hxy|done]). rewrite (count_all (fun _ => true) r) in Hlt by done. lia.
  - intros z Hz. apply negb_false_iff. apply not_false_is_true. intros Hzy. pose proof (Hbest x z Hx Hz) as Hxz. red in Hxz. pose proof (cmp_neg_trans is_max _ _ _ Hxz Hzy). congruence.
Qed.
End Kept.

(** ** [ReservoirResultHandler] *)

Section Reservoir.
Context {D I : Type} `{DistanceLaws D} (is_max : bool) (k : nat) (k_pos : (1 <= k)%nat) (k_max : Z.of_nat k <= 100).
Abbreviation best_of := (best_of is_max).
Abbreviation top_k_of := (top_k_of is_max).
Abbreviation Compare := (Compare is_max).
Abbreviation valid := (valid is_max).

Definition cap : nat := Nat.max 8 (2 * k).

(** A query: its windows of the results and of the reservoirs, the size and
    the threshold, and the results it was given. *)
Record rquery := mkRQuery { rwindow : list (D * I); reservoir : list (D * I); rsize : nat; bar : D; rseen : list (D * I) }.

Definition shape (q : rquery) : Prop := length (rwindow q) = k /\ length (reservoir q) = cap /\ (rsize q <= cap)%nat.

Definition rquery_ok (q : rquery) : Prop :=
  Forall valid (rseen q) /\ exists dropped, rseen q ≡ₚ take (rsize q) (reservoir q) ++ dropped /\
    (bar q = InitialValue is_max /\ dropped = [] \/ (k <= le_count is_max (bar q) (take (rsize q) (reservoir q)))%nat) /\
    keeps is_max k (take (rsize q) (reservoir q)) dropped.

Definition reservoir_of (qs : list rquery) : ReservoirResultHandler D I :=
  mkReservoirResultHandler (Z.of_nat (length qs)) (Z.of_nat k) (Z.of_nat cap) (flat1 (rwindow <$> qs)) (flat2 (rwindow <$> qs))
    ((fun q => Z.of_nat (rsize q)) <$> qs) (bar <$> qs) (flat1 (reservoir <$> qs)) (flat2 (reservoir <$> qs)).

Lemma capacity_eq : reservoir_capacity (Z.of_nat k) = Z.of_nat cap.
Proof. unfold reservoir_capacity, cap, to_u64. rewrite u_wrap_id by (unfold u_range; lia). destruct (_ <? 8) eqn:E; zbool; lia. Qed.

(** The arrays around the window of a query. *)
Lemma field_arr (f : rquery -> list (D * I)) n qs q qu : Forall (fun q => length (f q) = n) qs -> qs !! q = Some qu ->
  exists pre post pre' post', length pre = (q * n)%nat /\ length pre' = length pre /\
    flat1 (f <$> qs) = (arr pre post pre' post' (f qu)).1 /\ flat2 (f <$> qs) = (arr pre post pre' post' (f qu)).2 /\
    forall qu', flat1 (f <$> <[q := qu']> qs) = (arr pre post pre' post' (f qu')).1 /\ flat2 (f <$> <[q := qu']> qs) = (arr pre post pre' post' (f qu')).2.
Proof.
  intros Hf Hq. pose proof (lookup_lt_Some _ _ _ Hq) as Hlt. destruct (flat_arr (f <$> qs) q (f qu) n) as (pre & post & pre' & post' & H1 & H2 & H3); [by apply Forall_fmap|by rewrite length_fmap|].
  assert (forall qu', flat1 (f <$> <[q := qu']> qs) = (arr pre post pre' post' (f qu')).1 /\ flat2 (f <$> <[q := qu']> qs) = (arr pre post pre' post' (f qu')).2) as H4.
  { intros qu'. rewrite !list_fmap_insert, <- H3. done. }
  exists pre, post, pre', post'. split; [done|]. split; [done|]. destruct (H4 qu) as [H5 H6]. rewrite list_insert_id in H5, H6 by done. done.
Qed.

(** ** Adding a result *)

Definition add_to (qu : rquery) (x : D * I) (v : list (D * I)) (n : nat) (t : D) : rquery := mkRQuery (rwindow qu) (<[n := x]> v) (S n) t (rseen qu ++ [x]).
Definition skip (qu : rquery) (x : D * I) : rquery := mkRQuery (rwindow qu) (reservoir qu) (rsize qu) (bar qu) (rseen qu ++ [x]).

Lemma add_to_ok qu x v n t : valid x -> Forall valid (rseen qu) -> length v = cap -> (n < cap)%nat ->
  (exists dropped, rseen qu ≡ₚ take n v ++ dropped /\ (t = InitialValue is_max /\ dropped = [] \/ (k <= le_count is_max t (take n v))%nat) /\ keeps is_max k (take n v) dropped) ->
  rquery_ok (add_to qu x v n t).
Proof.
  intros Hx Hseen Hlen Hn (dropped & Hp & Hbar & Hkeep). split; [by apply Forall_app; split; [|constructor]|]. exists dropped. cbn [add_to rseen rsize reservoir bar].
  assert (<[n := x]> v !! n = Some x) as Hxn by (apply list_lookup_insert_eq; lia). rewrite (take_S_r _ _ _ Hxn), take_insert_ge by lia. split; [|split].
  - rewrite Hp, <- !app_assoc. f_equiv. apply Permutation_app_comm.
  - destruct Hbar as [?|Hbar]; [by left|right]. unfold le_count in *. rewrite count_app. lia.
  - by apply keeps_more.
Qed.

Lemma skip_ok qu x : valid x -> Compare (bar qu) x.1 = false -> rquery_ok qu -> rquery_ok (skip qu x).
Proof.
  intros Hx Hbar (Hseen & dropped & Hp & Hb & Hkeep). split; [by apply Forall_app; split; [|constructor]|]. exists (dropped ++ [x]). cbn [skip rseen rsize reservoir bar].
  assert (k <= le_count is_max (bar qu) (take (rsize qu) (reservoir qu)))%nat as Hle.
  { destruct Hb as [[Hinit _]|]; [|done]. exfalso. apply andb_true_iff in Hx as [_ Hx]. rewrite <- Hinit in Hx. congruence. }
  split; [by rewrite app_assoc, Hp|]. split; [by right|]. intros y [Hy|Hy%list_elem_of_singleton]%elem_of_app; [by apply Hkeep|]. subst y. etrans; [done|]. by apply le_count_mono.
Qed.

(** A full reservoir is partitioned. *)
Lemma make_room pre post pre' post' base qu : base = Z.of_nat (length pre) -> length pre' = length pre -> length (reservoir qu) = cap -> (rsize qu <= cap)%nat -> rquery_ok qu ->
  exists v n t, (if Z.of_nat (rsize qu) =? Z.of_nat cap then partition_median3 is_max (arr pre post pre' post' (reservoir qu)).1 (arr pre post pre' post' (reservoir qu)).2 base (Z.of_nat cap) (Z.of_nat k) ((Z.of_nat cap + Z.of_nat k) / 2)
      else Ret ((arr pre post pre' post' (reservoir qu)).1, (arr pre post pre' post' (reservoir qu)).2, Z.of_nat (rsize qu), bar qu)) = Ret ((arr pre post pre' post' v).1, (arr pre post pre' post' v).2, Z.of_nat n, t) /\
    length v = cap /\ (n < cap)%nat /\ exists dropped, rseen qu ≡ₚ take n v ++ dropped /\ (t = InitialValue is_max /\ dropped = [] \/ (k <= le_count is_max t (take n v))%nat) /\ keeps is_max k (take n v) dropped.
Proof.
  intros Hbase Hpre' Hlen Hsize (Hseen & dropped & Hp & Hbar & Hkeep). destruct (_ =? _) eqn:E; zbool.
  2: { exists (reservoir qu), (rsize qu), (bar qu). split; [done|]. split; [done|]. split; [lia|]. by exists dropped. }
  rewrite take_ge in Hp, Hkeep by lia. set (q_max := ((cap + k) / 2)%nat). assert (k <= q_max < cap)%nat as Hmax.
  { pose proof (Nat.div_mod (cap + k) 2 ltac:(lia)). pose proof (Nat.mod_upper_bound (cap + k) 2 ltac:(lia)). unfold q_max, cap in *. lia. }
  replace ((Z.of_nat cap + Z.of_nat k) / 2) with (Z.of_nat q_max) by (unfold q_max; by rewrite Nat2Z.inj_div, Nat2Z.inj_add).
  destruct (partition_ok is_max pre post pre' post' base Hbase Hpre' (reservoir qu) k q_max) as (v & q & t & Hpart & Hq & Hv & L & HL & HK & Hd); [unfold cap in *; lia|lia|lia|by rewrite Hp in Hseen; apply Forall_app in Hseen as [? _]|].
  rewrite Hlen in Hpart. rewrite Hpart.
  assert (length (take q v) = q) as Hlq by (rewrite length_take; lia). exists v, q, t. split; [done|]. split; [lia|]. split; [lia|]. exists (dropped ++ L). split; [|split].
  - rewrite Hp, HL, <- !app_assoc. f_equiv. apply Permutation_app_comm.
  - right. rewrite le_count_all by done. lia.
  - eapply keeps_partition; [done|lia|done|done|done].
Qed.

Lemma reservoir_set qs q qu qu' pre post pre' post' sizes thresholds : qs !! q = Some qu -> rwindow qu' = rwindow qu ->
  (forall qu', flat1 (reservoir <$> <[q := qu']> qs) = (arr pre post pre' post' (reservoir qu')).1 /\ flat2 (reservoir <$> <[q := qu']> qs) = (arr pre post pre' post' (reservoir qu')).2) ->
  sizes = <[q := Z.of_nat (rsize qu')]> ((fun q => Z.of_nat (rsize q)) <$> qs) -> thresholds = <[q := bar qu']> (bar <$> qs) ->
  mkReservoirResultHandler (Z.of_nat (length qs)) (Z.of_nat k) (Z.of_nat cap) (flat1 (rwindow <$> qs)) (flat2 (rwindow <$> qs)) sizes thresholds
    (arr pre post pre' post' (reservoir qu')).1 (arr pre post pre' post' (reservoir qu')).2 = reservoir_of (<[q := qu']> qs).
Proof.
  intros Hq Hw Harr -> ->. unfold reservoir_of. destruct (Harr qu') as [-> ->]. rewrite length_insert, !list_fmap_insert, Hw. rewrite (list_insert_id (rwindow <$> qs)) by (by rewrite list_lookup_fmap, Hq). done.
Qed.

Lemma reservoir_add_ok qs q qu x : Forall shape qs -> qs !! q = Some qu -> rquery_ok qu -> valid x ->
  exists qu', Reservoir_AddResult is_max (reservoir_of qs) (Z.of_nat q) x.1 x.2 = Ret (reservoir_of (<[q := qu']> qs)) /\ shape qu' /\ rquery_ok qu' /\ rseen qu' = rseen qu ++ [x].
Proof.
  intros Hqs Hq Hok Hx. pose proof (Forall_lookup_1 _ _ _ _ Hqs Hq) as (Hw & Hr & Hsize). pose proof (lookup_lt_Some _ _ _ Hq) as Hlt. unfold Reservoir_AddResult.
  cbn [r_capacity r_sizes r_thresholds reservoir_of r_top_k r_n_queries r_distance_ptr r_id_ptr reservoir_distance_ptr reservoir_id_ptr].
  destruct (field_arr reservoir cap qs q qu) as (pre & post & pre' & post' & Hpre & Hpre' & Hf1 & Hf2 & Harr); [by eapply Forall_impl; [done|]; intros ? (_ & ? & _)|done|].
  rewrite (at_fmap (fun q => Z.of_nat (rsize q)) qs q qu Hq), ret_bind, (at_fmap bar qs q qu Hq), ret_bind.
  destruct (Compare (bar qu) x.1) eqn:Hc.
  2: { exists (skip qu x). split; [|split; [done|]; split; [by apply skip_ok|done]]. f_equal. unfold reservoir_of. rewrite length_insert, !list_fmap_insert. cbn [skip rwindow reservoir rsize bar].
       by rewrite !(list_insert_id (_ <$> qs)) by (by rewrite list_lookup_fmap, Hq). }
  set (base := Z.of_nat q * Z.of_nat cap). assert (base = Z.of_nat (length pre)) as Hbase by (unfold base; lia). rewrite Hf1, Hf2.
  destruct (make_room pre post pre' post' base qu Hbase Hpre' Hr Hsize Hok) as (v & n & t & -> & Hv & Hn & Hst).
  rewrite ret_bind. destruct (arr_set pre post pre' post' base Hbase Hpre' v n x ltac:(lia)) as [Hs1 Hs2]. rewrite Hs1, ret_bind, Hs2, ret_bind.
  rewrite (set_index_in ((fun q => Z.of_nat (rsize q)) <$> qs)) by (rewrite length_fmap; lia). rewrite ret_bind, (set_index_in (bar <$> qs)) by (rewrite length_fmap; lia). rewrite ret_bind, Nat2Z.id. exists (add_to qu x v n t).
  split; [|split; [split; [done|]; cbn [add_to reservoir rsize]; rewrite length_insert; lia|split; [apply add_to_ok; (done || apply Hok)|done]]].
  f_equal. apply (reservoir_set qs q qu (add_to qu x v n t)); [done|done|done| |done]. f_equal. cbn [add_to rsize]. lia.
Qed.
(** ** The end of a query *)

(** The first [n] elements of the window replaced by those of the reservoir. *)
Definition copied (w res : list (D * I)) (n : nat) : list (D * I) := take n res ++ drop n w.

Lemma copied_length w res n : (n <= length w)%nat -> (n <= length res)%nat -> length (copied w res n) = length w.
Proof. intros Hw Hr. unfold copied. rewrite length_app, length_take, length_drop. lia. Qed.

Lemma copied_take w res n : (n <= length res)%nat -> take n (copied w res n) = take n res.
Proof. intros Hr. unfold copied. apply take_app_length'. rewrite length_take. lia. Qed.

Lemma copy_window {A} (pre w post pre2 res post2 : list A) n : (n <= length w)%nat -> (n <= length res)%nat ->
  copy_elements (pre ++ w ++ post) (Z.of_nat (length pre)) (pre2 ++ res ++ post2) (Z.of_nat (length pre2)) (Z.of_nat n) = Ret (pre ++ (take n res ++ drop n w) ++ post).
Proof.
  intros Hw Hr. unfold copy_elements. rewrite !length_app. destruct (_ || _) eqn:E; [exfalso; rewrite !orb_true_iff, !Z.ltb_lt in E; lia|]. f_equal. rewrite !Nat2Z.id.
  replace (Z.to_nat (Z.of_nat (length pre) + Z.of_nat n)) with (length pre + n)%nat by lia. rewrite take_app_length' by done. rewrite drop_app_length' by done.
  rewrite take_app_le by done. rewrite drop_app_add' by done. rewrite drop_app_le by done. by rewrite <- app_assoc.
Qed.

Lemma copy_arr (pre post pre2 post2 : list D) (pre' post' pre2' post2' : list I) w res n i j : length pre' = length pre -> length pre2' = length pre2 -> i = Z.of_nat (length pre) -> j = Z.of_nat (length pre2) ->
  (n <= length w)%nat -> (n <= length res)%nat ->
  copy_elements (arr pre post pre' post' w).1 i (arr pre2 post2 pre2' post2' res).1 j (Z.of_nat n) = Ret (arr pre post pre' post' (copied w res n)).1 /\
  copy_elements (arr pre post pre' post' w).2 i (arr pre2 post2 pre2' post2' res).2 j (Z.of_nat n) = Ret (arr pre post pre' post' (copied w res n)).2.
Proof.
  intros Hp Hp2 -> -> Hw Hr. unfold arr, copied. simpl. rewrite !fmap_app, !fmap_take, !fmap_drop. split; [by rewrite copy_window by (by rewrite length_fmap)|].
  rewrite <- Hp, <- Hp2. by rewrite copy_window by (by rewrite length_fmap).
Qed.

Fixpoint offers (fuel : nat) (v l : list (D * I)) : list (D * I) :=
  match l with
  | [] => v
  | x :: l => offers fuel (offer is_max fuel v k x) l
  end.

Lemma offers_ok fuel l : forall v results, length v = k -> Z.of_nat k < 2 ^ Z.of_nat fuel -> heap_from is_max v k 1 -> best_of k results v ->
  length (offers fuel v l) = k /\ heap_from is_max (offers fuel v l) k 1 /\ best_of k (results ++ l) (offers fuel v l).
Proof.
  induction l as [|x l IH]; intros v results Hlen Hfuel Hheap Hbest; cbn [offers]; [by rewrite app_nil_r|].
  destruct (heap_offer is_max fuel k v results x k_pos Hlen Hfuel Hheap Hbest) as (Hl & Hh & Hb). rewrite cons_middle, app_assoc. by apply IH.
Qed.

Lemma offer_length fuel (v : list (D * I)) x : length (offer is_max fuel v k x) = length v.
Proof. unfold offer. destruct (Compare _ _); [by rewrite sift_length, length_insert|done]. Qed.

Lemma offers_length fuel l : forall v : list (D * I), length (offers fuel v l) = length v.
Proof. induction l as [|x l IH]; intros v; [done|]. cbn [offers]. by rewrite IH, offer_length. Qed.

Lemma replace_rest_ok (pre post pre2 post2 : list D) (pre' post' pre2' post2' : list I) base rbase res : base = Z.of_nat (length pre) - 1 -> length pre' = length pre -> rbase = Z.of_nat (length pre2) -> length pre2' = length pre2 ->
  forall todo v j, length v = k -> (j + todo <= length res)%nat ->
  replace_rest is_max (arr pre post pre' post' v).1 (arr pre post pre' post' v).2 base (Z.of_nat k) (arr pre2 post2 pre2' post2' res).1 (arr pre2 post2 pre2' post2' res).2 rbase (Z.of_nat j) todo =
    Ret (arr pre post pre' post' (offers 33 v (take todo (drop j res)))).
Proof.
  intros Hbase Hpre' Hrbase Hpre2'. induction todo as [|todo IH]; intros v j Hv Hj; [done|]. cbn [replace_rest]. destruct (lookup_lt_is_Some_2 res j ltac:(lia)) as [x Hx].
  destruct (arr_at pre2 post2 pre2' post2' rbase Hrbase Hpre2' res j x Hx) as [-> ->]. rewrite !ret_bind, (replace_root is_max pre post pre' post' base Hbase Hpre' v k x) by lia. rewrite ret_bind.
  replace (Z.of_nat j + 1) with (Z.of_nat (S j)) by lia. rewrite (surjective_pairing (arr _ _ _ _ (offer _ _ _ _ _))). rewrite IH by (rewrite ?offer_length; lia).
  rewrite (drop_S _ _ _ Hx). done.
Qed.

(** The window of the results after [End]. *)
Definition rsorted (w res : list (D * I)) (n : nat) : list (D * I) :=
  let m := Nat.min n k in
  let w := sift_all is_max 33 (m / 2) (copied w res m) m in
  heap_sort is_max 33 m (if decide (n < k)%nat then padded w n (InitialValue is_max) else offers 33 w (take (n - k) (drop k res))).

Lemma heap_from_ext (v v' : list (D * I)) n a : (forall i, (i < n)%nat -> v' !! i = v !! i) -> heap_from is_max v n a -> heap_from is_max v' n a.
Proof. intros Hv Hh i c H1 Hi Hc Hn. specialize (Hh i c H1 Hi Hc Hn). unfold key in *. by rewrite !Hv by lia. Qed.

Lemma rsorted_ok w res n : length w = k -> length res = cap -> (n <= cap)%nat -> length (rsorted w res n) = k /\ result_of is_max k (take n res) (rsorted w res n).
Proof.
  intros Hw Hr Hn. pose proof (fuel_enough k ltac:(lia)) as Hfuel. unfold rsorted. cbv zeta. generalize dependent 33%nat. intros fuel Hfuel. remember (Nat.min n k) as m eqn:Em.
  assert (length (copied w res m) = k) as Hl1 by (rewrite copied_length; lia). destruct (make_heap is_max fuel (copied w res m) m ltac:(lia) ltac:(lia)) as (Hh & Hp & Ha).
  set (w2 := sift_all is_max fuel (m / 2) (copied w res m) m) in *. pose proof (Permutation_length Hp) as Hl2. pose proof (perm_take _ _ m Hp Ha) as Ht. rewrite copied_take in Ht by lia.
  destruct (decide (n < k)%nat) as [Hlt|Hge].
  - assert (m = n) as Hm by lia. rewrite Hm in *. assert (best_of k (take n res) (take n (padded w2 n (InitialValue is_max)))) as Hb.
    { rewrite padded_take by lia. eapply best_perm; [exact Ht|]. apply best_all. rewrite length_take. lia. }
    assert (heap_from is_max (padded w2 n (InitialValue is_max)) n 1) as Hh'.
    { eapply heap_from_ext; [|exact Hh]. intros i Hi. rewrite <- (lookup_take_lt (padded _ _ _) n), padded_take, lookup_take_lt by lia. done. }
    destruct (heap_sorted is_max fuel k n (padded w2 n (InitialValue is_max)) (take n res)) as (Hl3 & Htop & Hd); [rewrite padded_length; lia|lia|done|done|]. rewrite padded_length in Hl3. split; [lia|].
    eapply (result_intro is_max k k_pos); [exact Htop|lia|lia|]. rewrite Hd, fmap_drop, padded_fst. rewrite drop_app_length' by (rewrite length_fmap, length_take; lia). f_equal. lia.
  - assert (m = k) as Hm by lia. rewrite Hm in *. rewrite take_ge in Ht by lia. assert (best_of k (take k res) w2) as Hb by (eapply best_perm; [exact Ht|]; apply best_all; rewrite length_take; lia).
    destruct (offers_ok fuel (take (n - k) (drop k res)) w2 (take k res) ltac:(lia) Hfuel Hh Hb) as (Hl3 & Hh3 & Hb3). set (w3 := offers _ _ _) in *.
    replace (take k res ++ take (n - k) (drop k res)) with (take n res) in Hb3 by (rewrite take_take_drop; f_equal; lia).
    destruct (heap_sorted is_max fuel k k w3 (take n res)) as (Hl4 & Htop & Hd); [lia|done|done|by rewrite (take_ge w3) by lia|]. split; [lia|].
    eapply (result_intro is_max k k_pos); [exact Htop|lia|lia|]. by rewrite drop_ge, Nat.sub_diag by lia.
Qed.
Definition rended (qu : rquery) : rquery := mkRQuery (rsorted (rwindow qu) (reservoir qu) (rsize qu)) (reservoir qu) (Nat.min (rsize qu) k) (bar qu) (rseen qu).

Lemma rended_ok qu : shape qu -> rquery_ok qu -> shape (rended qu) /\ result_of is_max k (rseen qu) (rwindow (rended qu)).
Proof.
  intros (Hw & Hr & Hsize) (_ & dropped & Hp & _ & Hkeep). destruct (rsorted_ok (rwindow qu) (reservoir qu) (rsize qu) Hw Hr Hsize) as (Hl & r & [Hbest Hsort] & H1 & H2). split.
  - split; [done|]. split; [done|]. cbn [rended rsize]. lia.
  - exists r. split; [|done]. split; [|done]. by eapply best_kept.
Qed.

Lemma rended_shape qu : shape qu -> shape (rended qu).
Proof. intros (Hw & Hr & Hsize). split; [by apply rsorted_ok|]. split; [done|]. cbn [rended rsize]. lia. Qed.

Lemma r_with_ok qs q qu pre post pre' post' : qs !! q = Some qu ->
  (forall qu', flat1 (rwindow <$> <[q := qu']> qs) = (arr pre post pre' post' (rwindow qu')).1 /\ flat2 (rwindow <$> <[q := qu']> qs) = (arr pre post pre' post' (rwindow qu')).2) ->
  r_with (reservoir_of qs) (Z.of_nat q) (Z.of_nat (Nat.min (rsize qu) k)) (arr pre post pre' post' (rwindow (rended qu))) = Ret (reservoir_of (<[q := rended qu]> qs)).
Proof.
  intros Hq Harr. pose proof (lookup_lt_Some _ _ _ Hq) as Hlt. unfold r_with. cbn [reservoir_of r_sizes r_n_queries r_top_k r_capacity r_thresholds reservoir_distance_ptr reservoir_id_ptr].
  rewrite set_index_in by (rewrite length_fmap; lia). rewrite ret_bind, Nat2Z.id. f_equal. unfold reservoir_of. destruct (Harr (rended qu)) as [-> ->]. rewrite length_insert, !list_fmap_insert.
  by rewrite (list_insert_id (reservoir <$> qs)), (list_insert_id (bar <$> qs)) by (by rewrite list_lookup_fmap, Hq).
Qed.

Lemma small_u32 n : (n <= k)%nat -> to_u32 (Z.of_nat n) = Z.of_nat n.
Proof. intros Hn. apply u_wrap_id. unfold u_range. lia. Qed.

Lemma reservoir_end_ok qs q qu : Forall shape qs -> qs !! q = Some qu -> Reservoir_End is_max (reservoir_of qs) (Z.of_nat q) = Ret (reservoir_of (<[q := rended qu]> qs)).
Proof.
  intros Hqs Hq. pose proof (Forall_lookup_1 _ _ _ _ Hqs Hq) as (Hw & Hr & Hsize). unfold Reservoir_End.
  destruct (field_arr reservoir cap qs q qu) as (pre2 & post2 & pre2' & post2' & Hpre2 & Hpre2' & Hf1 & Hf2 & _); [by eapply Forall_impl; [done|]; intros ? (_ & ? & _)|done|].
  destruct (field_arr rwindow k qs q qu) as (pre & post & pre' & post' & Hpre & Hpre' & Hg1 & Hg2 & Harr); [by eapply Forall_impl; [done|]; intros ? (? & _ & _)|done|].
  pose proof (r_with_ok qs q qu pre post pre' post' Hq Harr) as Hwith. change (rwindow (rended qu)) with (rsorted (rwindow qu) (reservoir qu) (rsize qu)) in Hwith. unfold rsorted in Hwith. cbv zeta in Hwith.
  cbn [r_capacity r_sizes r_thresholds reservoir_of r_top_k r_n_queries r_distance_ptr r_id_ptr reservoir_distance_ptr reservoir_id_ptr].
  rewrite (at_fmap (fun q => Z.of_nat (rsize q)) qs q qu Hq), ret_bind, <- Nat2Z.inj_min. set (m := Nat.min (rsize qu) k) in *. assert (m <= k)%nat as Hmk by (unfold m; lia). rewrite Hf1, Hf2, Hg1, Hg2.
  destruct (copy_arr pre post pre2 post2 pre' post' pre2' post2' (rwindow qu) (reservoir qu) m (Z.of_nat q * Z.of_nat k) (Z.of_nat q * Z.of_nat cap)) as [-> H2]; [done|done|lia|lia|lia|unfold cap in *; lia|].
  rewrite ret_bind, H2, ret_bind. set (base := Z.of_nat q * Z.of_nat k - 1). assert (base = Z.of_nat (length pre) - 1) as Hbase by (unfold base; lia).
  assert (length (copied (rwindow qu) (reservoir qu) m) = k) as Hl by (rewrite copied_length by (unfold cap in *; lia); done). pose proof (half_le m).
  assert (Z.of_nat m / 2 = Z.of_nat (m / 2)) as -> by (by rewrite Nat2Z.inj_div). rewrite !small_u32 by lia.
  rewrite !Nat2Z.id, (heapify_all is_max pre post pre' post' base Hbase Hpre') by lia. rewrite ret_bind, (surjective_pairing (arr pre post pre' post' (sift_all _ _ _ _ _))). cbv beta iota.
  assert (length (sift_all is_max 33 (m / 2) (copied (rwindow qu) (reservoir qu) m) m) = k) as Hl2 by (by rewrite sift_all_length). set (w2 := sift_all is_max 33 (m / 2) (copied (rwindow qu) (reservoir qu) m) m) in *.
  destruct (decide (rsize qu < k)%nat) as [Hlt|Hge].
  - rewrite (proj2 (Z.ltb_lt _ _)) by lia. destruct (fill_arr pre post pre' post' w2 base (rsize qu) (InitialValue is_max) Hbase ltac:(lia)) as [H3 H4]. rewrite Hl2 in H3. rewrite H3, ret_bind, H4, ret_bind.
    rewrite (heap_sort_arr is_max pre post pre' post' base Hbase Hpre') by (rewrite ?padded_length; lia). rewrite ret_bind. exact Hwith.
  - rewrite (proj2 (Z.ltb_ge _ _)) by lia. replace (Z.to_nat (Z.of_nat (rsize qu) - Z.of_nat k)) with (rsize qu - k)%nat by lia.
    rewrite (replace_rest_ok pre post pre2 post2 pre' post' pre2' post2' base (Z.of_nat q * Z.of_nat cap) (reservoir qu) Hbase Hpre' ltac:(lia) Hpre2') by (unfold cap in *; lia). rewrite ret_bind.
    rewrite (surjective_pairing (arr pre post pre' post' (offers _ _ _))). rewrite (heap_sort_arr is_max pre post pre' post' base Hbase Hpre'); [rewrite ret_bind; exact Hwith|rewrite (offers_length 33); lia|lia].
Qed.
Lemma reservoir_end_range todo : forall qs n, Forall shape qs -> (n + todo = length qs)%nat ->
  for_range (Reservoir_End is_max) todo (Z.of_nat n) (reservoir_of qs) = Ret (reservoir_of (take n qs ++ (rended <$> drop n qs))).
Proof.
  induction todo as [|todo IH]; intros qs n Hqs Hn; cbn [for_range].
  - by rewrite take_ge, drop_ge, app_nil_r by lia.
  - destruct (lookup_lt_is_Some_2 qs n ltac:(lia)) as [qu Hq]. rewrite (reservoir_end_ok qs n qu Hqs Hq), ret_bind. replace (Z.of_nat n + 1) with (Z.of_nat (S n)) by lia.
    assert (shape (rended qu)) as Hsh by (apply rended_shape; by eapply Forall_lookup_1). rewrite IH by (rewrite ?length_insert; by (apply Forall_insert || lia)). do 2 f_equal. rewrite drop_insert_lt by lia.
    assert (<[n := rended qu]> qs !! n = Some (rended qu)) as Hx by (apply list_lookup_insert_eq; lia). rewrite (take_S_r _ _ _ Hx), take_insert_ge, <- app_assoc by lia.
    by rewrite (drop_S _ _ _ Hq), fmap_cons.
Qed.

(** The queries after some results. *)
Lemma reservoir_add_all (adds : list (nat * (D * I))) : forall qs, Forall shape qs -> Forall rquery_ok qs -> Forall (fun x => (x.1 < length qs)%nat /\ valid x.2) adds ->
  exists qs', add_all (Reservoir_AddResult is_max) (reservoir_of qs) adds = Ret (reservoir_of qs') /\ Forall shape qs' /\ Forall rquery_ok qs' /\ length qs' = length qs /\
    forall q qu, qs !! q = Some qu -> exists qu', qs' !! q = Some qu' /\ rseen qu' = rseen qu ++ results_of q adds.
Proof.
  induction adds as [|[p x] adds IH]; intros qs Hsh Hok Hadds.
  - exists qs. repeat (split; [done|]). intros q qu Hq. exists qu. by rewrite app_nil_r.
  - apply Forall_cons in Hadds as [[Hp Hx] Hadds]. destruct (lookup_lt_is_Some_2 qs p Hp) as [qp Hqp].
    destruct (reservoir_add_ok qs p qp x Hsh Hqp (Forall_lookup_1 _ _ _ _ Hok Hqp) Hx) as (qp' & Hadd & Hsh' & Hok' & Hs). destruct x as [d i]. cbn [add_all]. cbn [fst snd] in Hadd. rewrite Hadd, ret_bind.
    destruct (IH (<[p := qp']> qs)) as (qs' & -> & Hsh2 & Hok2 & Hlen & Hseen); [by apply Forall_insert|by apply Forall_insert|by rewrite length_insert|]. exists qs'. rewrite length_insert in Hlen. repeat (split; [done|]).
    intros q qu Hq. rewrite results_cons. destruct (decide (p = q)) as [->|Hpq].
    + rewrite Hqp in Hq. simplify_eq. destruct (Hseen q qp') as (qu' & Hqu' & Hs'); [by apply list_lookup_insert_eq|]. exists qu'. split; [done|]. by rewrite Hs', Hs, <- app_assoc.
    + apply Hseen. by rewrite list_lookup_insert_ne.
Qed.

(** Arrays of [n] windows of [m] elements. *)
Lemma windows_of n m (d : list D) (i : list I) : length d = (n * m)%nat -> length i = (n * m)%nat ->
  exists ws, flat1 ws = d /\ flat2 ws = i /\ length ws = n /\ Forall (fun w => length w = m) ws.
Proof.
  revert d i. induction n as [|n IH]; intros d i Hd Hi; [exists []; by destruct d, i|]. destruct (IH (drop m d) (drop m i)) as (ws & H1 & H2 & Hl & Hw); [rewrite length_drop; lia..|].
  exists (zip (take m d) (take m i) :: ws). unfold flat1, flat2 in *. rewrite !fmap_cons. cbn [concat length]. rewrite H1, H2, fst_zip, snd_zip, !take_drop by (rewrite !length_take; lia).
  repeat (split; [done || lia|]). constructor; [rewrite length_zip_with, !length_take; lia|done].
Qed.

Lemma reservoir_new n distance id rd ri : length distance = (n * k)%nat -> length id = (n * k)%nat -> length rd = (n * cap)%nat -> length ri = (n * cap)%nat ->
  exists qs, NewReservoirResultHandler is_max (Z.of_nat n) (Z.of_nat k) distance id rd ri = reservoir_of qs /\ Forall shape qs /\ Forall rquery_ok qs /\ length qs = n /\ Forall (fun q => rseen q = []) qs.
Proof.
  intros Hd Hi Hrd Hri. destruct (windows_of n k distance id Hd Hi) as (ws & H1 & H2 & Hl & Hw), (windows_of n cap rd ri Hrd Hri) as (rs & H3 & H4 & Hl' & Hr).
  exists (zip_with (fun w r => mkRQuery w r 0 (InitialValue is_max) []) ws rs). set (qs := zip_with _ ws rs). assert (length qs = n) as Hn by (unfold qs; rewrite length_zip_with; lia).
  assert (Forall (fun q => (length (rwindow q) = k /\ length (reservoir q) = cap) /\ rsize q = 0%nat /\ bar q = InitialValue is_max /\ rseen q = []) qs) as Hqs.
  { apply Forall_lookup_2. intros q qu Hq. apply lookup_zip_with_Some in Hq as (w & r & -> & Hwq & Hrq). cbn [rwindow reservoir rsize bar rseen]. split; [split; [exact (Forall_lookup_1 _ _ _ _ Hw Hwq)|exact (Forall_lookup_1 _ _ _ _ Hr Hrq)]|done]. }
  assert (rwindow <$> qs = ws) as Hq1 by (unfold qs; rewrite fmap_zip_with_l; [done|done|lia]). assert (reservoir <$> qs = rs) as Hq2 by (unfold qs; rewrite fmap_zip_with_r; [done|done|lia]).
  split; [|split; [|split; [|split; [done|]]]].
  - unfold NewReservoirResultHandler, reservoir_of. rewrite capacity_eq, Hn, Hq1, Hq2, H1, H2, H3, H4, Nat2Z.id. f_equal.
    + rewrite <- Hn. clear -Hqs. induction Hqs as [|q qs (_ & Hz & _) _ IH]; [done|]. rewrite fmap_cons. cbn [length replicate]. by rewrite Hz, IH.
    + rewrite <- Hn. clear -Hqs. induction Hqs as [|q qs (_ & _ & Hb & _) _ IH]; [done|]. rewrite fmap_cons. cbn [length replicate]. by rewrite Hb, IH.
  - eapply Forall_impl; [exact Hqs|]. intros q ([Hw1 Hr1] & Hz & _). split; [done|]. split; [done|]. lia.
  - eapply Forall_impl; [exact Hqs|]. intros q (_ & Hz & Hb & Hs). split; [by rewrite Hs|]. exists []. rewrite Hz, Hs. split; [done|]. split; [by left|]. intros y []%elem_of_nil.
  - eapply Forall_impl; [exact Hqs|]. by intros q (_ & _ & _ & Hs).
Qed.

Lemma reservoir_end_all qs : Forall shape qs -> Reservoir_EndAll is_max (reservoir_of qs) = Ret (reservoir_of (rended <$> qs)).
Proof. intros Hsh. unfold Reservoir_EndAll. cbn [r_n_queries reservoir_of]. rewrite Nat2Z.id. by apply (reservoir_end_range (length qs) qs 0). Qed.

Lemma reservoir_results qs q qu : Forall shape qs -> Forall rquery_ok qs -> qs !! q = Some qu ->
  exists r, top_k_of k (rseen qu) r /\ take k (drop (q * k) (r_distance_ptr (reservoir_of (rended <$> qs)))) = r.*1 ++ replicate (k - length r) (InitialValue is_max) /\
    take (length r) (take k (drop (q * k) (r_id_ptr (reservoir_of (rended <$> qs))))) = r.*2.
Proof.
  intros Hsh Hok Hq. destruct (rended_ok qu (Forall_lookup_1 _ _ _ _ Hsh Hq) (Forall_lookup_1 _ _ _ _ Hok Hq)) as (_ & r & Htop & H1 & H2). exists r. split; [done|].
  assert (Forall (fun v => length v = k) (rwindow <$> (rended <$> qs))) as Hw.
  { apply Forall_fmap, Forall_fmap. eapply Forall_impl; [exact Hsh|]. intros q' Hq'. by apply rended_shape. }
  assert ((rwindow <$> (rended <$> qs)) !! q = Some (rwindow (rended qu))) as Hwq by (by rewrite !list_lookup_fmap, Hq).
  cbn [r_distance_ptr r_id_ptr reservoir_of]. unfold flat1, flat2. rewrite (flat_window fst _ q _ k Hw Hwq), (flat_window snd _ q _ k Hw Hwq). done.
Qed.

(** C14: [ReservoirResultHandler] with [top_k] up to 100, constructed on arrays
    with any contents, keeps the [top_k] best results of every query.  After any
    results added in any order, with distances strictly between the limits of the
    type, no operation throws or accesses memory out of range, and [End] leaves for
    each query the [top_k] best of those added to it (all of them, if there are
    fewer), the best first, each distance with its identifier, and the rest of its
    distances are [InitialValue]. *)
Theorem reservoir_handler_top_k n (distance : list D) (id : list I) (rd : list D) (ri : list I) (adds : list (nat * (D * I))) :
  length distance = (n * k)%nat -> length id = (n * k)%nat -> length rd = (n * cap)%nat -> length ri = (n * cap)%nat -> Forall (fun x => (x.1 < n)%nat /\ valid x.2) adds ->
  exists h h', add_all (Reservoir_AddResult is_max) (NewReservoirResultHandler is_max (Z.of_nat n) (Z.of_nat k) distance id rd ri) adds = Ret h /\ Reservoir_EndAll is_max h = Ret h' /\
    forall q, (q < n)%nat -> exists r, top_k_of k (results_of q adds) r /\
      take k (drop (q * k) (r_distance_ptr h')) = r.*1 ++ replicate (k - length r) (InitialValue is_max) /\ take (length r) (take k (drop (q * k) (r_id_ptr h'))) = r.*2.
Proof.
  intros Hd Hi Hrd Hri Hadds. destruct (reservoir_new n distance id rd ri Hd Hi Hrd Hri) as (qs & -> & Hsh & Hok & Hn & Hnew).
  destruct (reservoir_add_all adds qs Hsh Hok) as (qs' & -> & Hsh' & Hok' & Hlen & Hseen); [by rewrite Hn|]. eexists _, _. split; [done|]. split; [by apply reservoir_end_all|]. intros q Hq.
  destruct (lookup_lt_is_Some_2 qs q ltac:(lia)) as [qu Hqu]. destruct (Hseen q qu Hqu) as (qu' & Hqu' & Hs). rewrite (Forall_lookup_1 _ _ _ _ Hnew Hqu) in Hs. cbn [app] in Hs.
  rewrite <- Hs. by apply reservoir_results.
Qed.
End Reservoir.

(** ** Instances *)

(** Ten results for a query with [top_k = 2], whose reservoir has 8 elements. *)
Definition ten_adds : list (nat * (Number * nat)) :=
  [(0, (f32_of 5, 10)); (0, (f32_of 8, 11)); (0, (f32_of 3, 12)); (0, (f32_of 9, 13)); (0, (f32_of 7, 14));
   (0, (f32_of 6, 15)); (0, (f32_of 12, 16)); (0, (f32_of 4, 17)); (0, (f32_of 2, 18)); (0, (f32_of 4, 19))]%nat.

Lemma reservoir_handler_top_k_witness :
  (1 <= 2)%nat /\ Z.of_nat 2 <= 100 /\
  exists h h', add_all (Reservoir_AddResult true) (NewReservoirResultHandler true 1 2 (replicate 2 (f32_of 7)) (replicate 2 0%nat) (replicate 8 (f32_of 7)) (replicate 8 0%nat)) ten_adds = Ret h /\
    Reservoir_EndAll true h = Ret h' /\ exists r, top_k_of true 2 (results_of 0 ten_adds) r /\ take 2 (r_distance_ptr h') = r.*1 ++ replicate (2 - length r) (InitialValue true).
Proof.
  split; [lia|]. split; [simpl; lia|].
  destruct (reservoir_handler_top_k true 2 ltac:(lia) ltac:(simpl; lia) 1 (replicate 2 (f32_of 7)) (replicate 2 0%nat) (replicate 8 (f32_of 7)) (replicate 8 0%nat) ten_adds eq_refl eq_refl eq_refl eq_refl) as (h & h' & Hadd & Hend & Hres).
  { repeat constructor. }
  exists h, h'. split; [exact Hadd|]. split; [exact Hend|]. destruct (Hres 0%nat ltac:(lia)) as (r & Htop & Hd & _). exists r. split; [exact Htop|exact Hd].
Defined.

Lemma sample_reservoir_results :
  (h ← add_all (Reservoir_AddResult true) (NewReservoirResultHandler true 1 2 (replicate 2 (f32_of 7)) (replicate 2 0%nat) (replicate 8 (f32_of 7)) (replicate 8 0%nat)) ten_adds;
   h ← Reservoir_EndAll true h; Ret (r_distance_ptr h, r_id_ptr h, reservoir_id_ptr h)) =
  Ret ([f32_of 2; f32_of 3], [18; 12]%nat, [12; 17; 18; 19; 14; 15; 16; 17]%nat).
Proof. vm_compute. reflexivity. Qed.

(** A reservoir that is used again after [End] without [ReInitialize]: its size was
    cut to the number of results, but its first elements are not the best ones,
    so that a new result, worse than all, replaces the results 1 and 2 by 4 and 5. *)
Definition small_reservoir : ReservoirResultHandler Z nat := NewReservoirResultHandler true 1 2 [0; 0] [0%nat; 0%nat] (replicate 8 0) (replicate 8 0%nat).

Lemma reservoir_reused_loses_best :
  (h ← add_all (Reservoir_AddResult true) small_reservoir ((fun d => (0%nat, (Z.of_nat d, d))) <$> [5; 4; 3; 2; 1]%nat);
   h ← Reservoir_EndAll true h;
   h' ← add_all (Reservoir_AddResult true) h [(0%nat, (10, 10%nat))];
   h' ← Reservoir_EndAll true h'; Ret (r_distance_ptr h, r_distance_ptr h')) = Ret ([1; 2], [4; 5]).
Proof. by vm_compute. Qed.

(** A result whose distance is the initial value is dropped by a reservoir that is
    not full, and kept by a heap. *)
Lemma reservoir_drops_initial :
  (h ← Reservoir_AddResult true small_reservoir 0 LimitMax 5%nat; h ← Reservoir_EndAll true h; Ret (r_sizes h, r_id_ptr h)) = Ret ([0], [0; 0]%nat) /\
  (h ← Heap_AddResult true (NewHeapResultHandler 1 2 [0; 0] [0%nat; 0%nat]) 0 LimitMax 5%nat; h ← Heap_EndAll true h; Ret (h_id_ptr h)) = Ret [5; 0]%nat.
Proof. split; by vm_compute. Qed.

(** ** A partition that gives up

    439 results are wanted, the reservoir has 878 elements, and the distances come
    in an order in which every threshold that is sampled is only two elements
    better than the one before: 200 iterations are not enough. *)

Definition hard_order : list Z := (fun p => Z.of_nat p * 867 mod 878 + 1) <$> seq 0 878.
Definition hard_adds : list (nat * (Z * nat)) := (fun d => (0%nat, (d, 0%nat))) <$> hard_order.
Definition hard_window : list (Z * nat) := (fun d => (d, 0%nat)) <$> hard_order.

Definition hard_start : ReservoirResultHandler Z nat :=
  NewReservoirResultHandler true 1 439 (replicate 439 0) (replicate 439 0%nat) (replicate 878 0) (replicate 878 0%nat).
Definition hard_full : ReservoirResultHandler Z nat :=
  mkReservoirResultHandler 1 439 878 (replicate 439 0) (replicate 439 0%nat) [878] [InitialValue true] hard_order (replicate 878 0%nat).

Lemma hard_fills : add_all (Reservoir_AddResult true) hard_start hard_adds = Ret hard_full.
Proof. vm_compute. reflexivity. Qed.

Lemma hard_search : search true 200 hard_window hard_order (sample_order hard_window) 439 658 (InitialValue false) (InitialValue true)
  (median3 1 440 12) 0 = Ret (412, 409, 0).
Proof. vm_compute. reflexivity. Qed.

Lemma hard_partition : partition_median3 true hard_order (replicate 878 0%nat) 0 878 439 658 = Throw ExecutorException "partition_median3 error: q < n_lt".
Proof.
  assert (length hard_window = 878%nat) as Hlen by done.
  pose proof (partition_loop_eq true ([] : list Z) [] ([] : list nat) [] 0%Z eq_refl eq_refl 200 hard_window 439 658 ltac:(rewrite Hlen; lia) (InitialValue false) (InitialValue true) (median3 1 440 12) 0) as Hloop.
  assert (hard_window.*1 = hard_order) as Hw by (vm_compute; reflexivity). assert ((arr [] [] [] [] hard_window).1 = hard_order) as Ha by (unfold arr; cbn [fst app]; by rewrite app_nil_r).
  rewrite Ha, Hlen, Hw, hard_search in Hloop. change (Z.of_nat 878) with 878 in Hloop. change (Z.of_nat 439) with 439 in Hloop. change (Z.of_nat 658) with 658 in Hloop. change (Z.of_nat 0) with 0 in Hloop.
  unfold partition_median3. assert (at_index hard_order 0 = Ret 1) as -> by (vm_compute; reflexivity). assert (at_index hard_order (0 + 878 / 2) = Ret 440) as -> by (vm_compute; reflexivity).
  assert (at_index hard_order (0 + (878 - 1)) = Ret 12) as -> by (vm_compute; reflexivity). rewrite !ret_bind. cbn [negb]. by rewrite Hloop.
Qed.

Lemma hard_distances : length hard_adds = 878%nat /\ NoDup (hard_adds.*2.*1).
Proof. split; [vm_compute; reflexivity|]. apply (bool_decide_eq_true_1 _). vm_compute. reflexivity. Qed.


