(* ===== verification/MergeKnn.v ===== *)
(** * Merging the results of a nearest-neighbour search

    [storage/knnindex/merge_knn.cppm]: the distances from some queries to the rows
    of the blocks of a segment, or the results of an index, are given to a
    [ReservoirResultHandler].  The distance function is a parameter, as in the
    source. *)
From S2P Require Import Prelude Common Defs Arrays Bits Bitmask BitmaskProps Distance ResultHandler HeapProps ReservoirProps.

Local Open Scope Z_scope.

Section MergeKnn.
Context {D : Type} `{Distance D} (is_max : bool).

(** The arrays [distance_array_] and [idx_array_] are those of the handler. *)
Record MergeKnn := mkMergeKnn {
  total_count_ : Z;
  begin_ : bool;
  query_count_ : Z;
  topk_ : Z;
  result_handler_ : ReservoirResultHandler D RowID
}.

(** The contents of the new arrays is unspecified. *)
Definition NewMergeKnn (query_count topk : Z) (distance_array rd : list D) (idx_array ri : list RowID) : MergeKnn :=
  mkMergeKnn 0 false query_count (to_i64 topk) (NewReservoirResultHandler is_max query_count topk distance_array idx_array rd ri).

Definition with_results (s : MergeKnn) (total : Z) (h : ReservoirResultHandler D RowID) : MergeKnn := mkMergeKnn total (begin_ s) (query_count_ s) (topk_ s) h.

Section Search.
Variable dist_f : list D -> list D -> D.

(** The [dim] elements at [v + i * dim]. *)
Definition vec (v : list D) (i dim : Z) : outcome (list D) :=
  if (i <? 0) || (dim <? 0) || (Z.of_nat (length v) <? i * dim + dim) then UB "read past the end of the buffer"
  else Ret (take (Z.to_nat dim) (drop (Z.to_nat (i * dim)) v)).

(** [Search(query, data, dim, dist_f, row_cnt, segment_id, block_id)] *)
Definition SearchBlock (s : MergeKnn) (query data : list D) (dim row_cnt segment_id block_id : Z) : outcome MergeKnn :=
  let total := to_i64 (total_count_ s + row_cnt) in
  let segment_offset_start := to_u32 (block_id * DEFAULT_BLOCK_CAPACITY) in
  h ← for_range (fun h i =>
        for_range (fun h j =>
          x_i ← vec query i dim;
          y_j ← vec data j dim;
          Reservoir_AddResult is_max h i (dist_f x_i y_j) (mkRowID segment_id (to_u32 (segment_offset_start + j)))) (Z.to_nat row_cnt) 0 h)
        (Z.to_nat (query_count_ s)) 0 (result_handler_ s);
  Ret (with_results s total h).

(** The body of the loops of the [Search] with a bit mask, for query [i] and row [j]. *)
Definition SearchMaskedRow (query data : list D) (dim segment_id segment_offset_start : Z) (buffers : Buffers) (bitmask : Bitmask)
    (i : Z) (st : Z * ReservoirResultHandler D RowID) (j : Z) : outcome (Z * ReservoirResultHandler D RowID) :=
  let '(total, h) := st in
  visible ← IsTrue buffers bitmask j;
  if visible : bool then
    let total := if i =? 0 then to_i64 (total + 1) else total in
    x_i ← vec query i dim;
    y_j ← vec data j dim;
    h ← Reservoir_AddResult is_max h i (dist_f x_i y_j) (mkRowID segment_id (to_u32 (segment_offset_start + j)));
    Ret (total, h)
  else Ret (total, h).

(** [Search] with a bit mask of the rows of the block. *)
Definition SearchBlockMasked (s : MergeKnn) (query data : list D) (dim row_cnt segment_id block_id : Z) (buffers : Buffers) (bitmask : Bitmask) : outcome MergeKnn :=
  all_true ← IsAllTrue buffers bitmask;
  if all_true : bool then SearchBlock s query data dim row_cnt segment_id block_id
  else
    let segment_offset_start := to_u32 (block_id * DEFAULT_BLOCK_CAPACITY) in
    '(total, h) ← for_range (fun st i =>
        for_range (SearchMaskedRow query data dim segment_id segment_offset_start buffers bitmask i) (Z.to_nat row_cnt) 0 st)
        (Z.to_nat (query_count_ s)) 0 (total_count_ s, result_handler_ s);
    Ret (with_results s total h).
End Search.

(** The loop over the results of an index for one query. *)
Definition AddRow (h : ReservoirResultHandler D RowID) (q_id : Z) (dist : list D) (row_ids : list RowID) (start count : Z) : outcome (ReservoirResultHandler D RowID) :=
  for_range (fun h j =>
    d ← at_index dist (start + j); r ← at_index row_ids (start + j); Reservoir_AddResult is_max h q_id d r) (Z.to_nat count) 0 h.

(** [Search(dist, row_ids, count)] *)
Definition SearchResults (s : MergeKnn) (dist : list D) (row_ids : list RowID) (count : Z) : outcome MergeKnn :=
  let total := to_i64 (total_count_ s + count) in
  h ← for_range (fun h i => AddRow h i dist row_ids (i * topk_ s) count) (Z.to_nat (query_count_ s)) 0 (result_handler_ s);
  Ret (with_results s total h).

(** [Search(query_id, dist, row_ids, count)] *)
Definition SearchQueryResults (s : MergeKnn) (query_id : Z) (dist : list D) (row_ids : list RowID) (count : Z) : outcome MergeKnn :=
  let total := if query_id =? 0 then to_i64 (total_count_ s + count) else total_count_ s in
  h ← AddRow (result_handler_ s) query_id dist row_ids 0 count;
  Ret (with_results s total h).

Definition Knn_Begin (s : MergeKnn) : MergeKnn :=
  if begin_ s || (query_count_ s =? 0) then s else mkMergeKnn (total_count_ s) true (query_count_ s) (topk_ s) (result_handler_ s).

Definition Knn_End (s : MergeKnn) : outcome MergeKnn :=
  if negb (begin_ s) then Ret s
  else h ← Reservoir_EndAll is_max (result_handler_ s); Ret (mkMergeKnn (total_count_ s) false (query_count_ s) (topk_ s) h).

Definition Knn_EndWithoutSort (s : MergeKnn) : outcome MergeKnn :=
  if negb (begin_ s) then Ret s
  else h ← Reservoir_EndWithoutSortAll is_max (result_handler_ s); Ret (mkMergeKnn (total_count_ s) false (query_count_ s) (topk_ s) h).

Definition GetDistances (s : MergeKnn) : list D := r_distance_ptr (result_handler_ s).
Definition GetIDs (s : MergeKnn) : list RowID := r_id_ptr (result_handler_ s).

(** A pointer into an array is the rest of the array from there. *)
Definition GetDistancesByIdx (s : MergeKnn) (idx : Z) : outcome (list D) :=
  if idx >=? query_count_ s then Throw ExecutorException "Query index exceeds the limit" else Ret (drop (Z.to_nat (idx * topk_ s)) (GetDistances s)).

Definition GetIDsByIdx (s : MergeKnn) (idx : Z) : outcome (list RowID) :=
  if idx >=? query_count_ s then Throw ExecutorException "Query index exceeds the limit" else Ret (drop (Z.to_nat (idx * topk_ s)) (GetIDs s)).

End MergeKnn.

Arguments MergeKnn : clear implicits.

(** ** Searches and what they find *)

Section Searches.
Context {D : Type} `{Distance D} (is_max : bool) (dist_f : list D -> list D -> D) (query : list D) (dim : Z).

(** A call of [Search]; a bit mask comes with its rows. *)
Inductive search_call :=
  | CBlock (data : list D) (row_cnt : nat) (segment_id block_id : Z)
  | CBlockMasked (data : list D) (row_cnt : nat) (segment_id block_id : Z) (buffers : Buffers) (bitmask : Bitmask) (rows : list bool)
  | CResults (dist : list D) (row_ids : list RowID) (count : nat)
  | CQueryResults (query_id : nat) (dist : list D) (row_ids : list RowID) (count : nat).

Definition run_call (s : MergeKnn D) (c : search_call) : outcome (MergeKnn D) :=
  match c with
  | CBlock data n seg blk => SearchBlock is_max dist_f s query data dim (Z.of_nat n) seg blk
  | CBlockMasked data n seg blk h m _ => SearchBlockMasked is_max dist_f s query data dim (Z.of_nat n) seg blk h m
  | CResults dist row_ids count => SearchResults is_max s dist row_ids (Z.of_nat count)
  | CQueryResults q dist row_ids count => SearchQueryResults is_max s (Z.of_nat q) dist row_ids (Z.of_nat count)
  end.

Fixpoint run_calls (s : MergeKnn D) (cs : list search_call) : outcome (MergeKnn D) :=
  match cs with
  | [] => Ret s
  | c :: cs => s ← run_call s c; run_calls s cs
  end.

(** The vector [i] of an array of vectors. *)
Definition row_vec (v : list D) (i : nat) : list D := take (Z.to_nat dim) (drop (i * Z.to_nat dim) v).

Definition block_result (data : list D) (seg blk : Z) (q j : nat) : D * RowID :=
  (dist_f (row_vec query q) (row_vec data j), mkRowID seg (to_u32 (to_u32 (blk * DEFAULT_BLOCK_CAPACITY) + Z.of_nat j))).

Definition visible (rows : list bool) (j : nat) : bool := default false (rows !! j).

Definition pairs (dist : list D) (row_ids : list RowID) (start count : nat) : list (D * RowID) := take count (drop start (zip dist row_ids)).

(** The results that a call has for query [q]. *)
Definition found (k : nat) (q : nat) (c : search_call) : list (D * RowID) :=
  match c with
  | CBlock data n seg blk => block_result data seg blk q <$> seq 0 n
  | CBlockMasked data n seg blk _ _ rows => block_result data seg blk q <$> filter (fun j => visible rows j = true) (seq 0 n)
  | CResults dist row_ids count => pairs dist row_ids (q * k) count
  | CQueryResults p dist row_ids count => if decide (p = q) then pairs dist row_ids 0 count else []
  end.

(** How many rows a call counts. *)
Definition rows_of (c : search_call) : nat :=
  match c with
  | CBlock _ n _ _ => n
  | CBlockMasked _ n _ _ _ _ rows => length (filter (fun j => visible rows j = true) (seq 0 n))
  | CResults _ _ count => count
  | CQueryResults p _ _ count => if decide (p = 0%nat) then count else 0%nat
  end.

(** The arrays are long enough for [n] queries, the masks are those of the
    rows, and the distances are valid. *)
Definition call_ok (k n : nat) (c : search_call) : Prop :=
  match c with
  | CBlock data m _ _ => Z.of_nat n * dim <= Z.of_nat (length query) /\ Z.of_nat m * dim <= Z.of_nat (length data)
  | CBlockMasked data m _ _ h mask rows => Z.of_nat n * dim <= Z.of_nat (length query) /\ Z.of_nat m * dim <= Z.of_nat (length data) /\ mask_ok h mask rows /\ (m <= length rows)%nat
  | CResults dist row_ids count => (count <= k)%nat /\ (n * k <= length dist)%nat /\ (n * k <= length row_ids)%nat
  | CQueryResults p dist row_ids count => (p < n)%nat /\ (count <= length dist)%nat /\ (count <= length row_ids)%nat
  end /\ forall q, (q < n)%nat -> Forall (valid is_max) (found k q c).
End Searches.

Arguments search_call : clear implicits.

(** ** Loops that add results *)

Section Loops.
Context {S D I : Type} (add : S -> Z -> D -> I -> outcome S).
Implicit Types (g : nat -> list (nat * (D * I))).

Lemma bind_ret_r {A} (m : outcome A) : (m ≫= fun x => Ret x) = m.
Proof. by destruct m. Qed.

Lemma add_one h q d i : add_all add h [(q, (d, i))] = add h (Z.of_nat q) d i.
Proof. cbn [add_all]. apply bind_ret_r. Qed.

Lemma for_range_adds (step : S -> Z -> outcome S) g todo : forall i s, (forall s j, (i <= j < i + todo)%nat -> step s (Z.of_nat j) = add_all add s (g j)) ->
  for_range step todo (Z.of_nat i) s = add_all add s (concat (g <$> seq i todo)).
Proof.
  induction todo as [|todo IH]; intros i s Hstep; [done|]. cbn [for_range seq]. rewrite fmap_cons. cbn [concat]. rewrite add_all_app, Hstep by lia.
  destruct (add_all add s (g i)) as [s'| |]; [|done|done]. rewrite !ret_bind. replace (Z.of_nat i + 1) with (Z.of_nat (Datatypes.S i)) by lia. apply IH. intros s'' j Hj. apply Hstep. lia.
Qed.

Lemma for_rows_adds (step : S -> Z -> outcome S) g todo s : (forall s j, (j < todo)%nat -> step s (Z.of_nat j) = add_all add s (g j)) ->
  for_range step todo 0 s = add_all add s (concat (g <$> seq 0 todo)).
Proof. intros Hstep. apply (for_range_adds step g todo 0). intros s' j Hj. apply Hstep. lia. Qed.

(** The same for loops that count. *)
Lemma for_range_counts (step : Z * S -> Z -> outcome (Z * S)) g (c : nat -> nat) B todo : forall i t s,
  (forall t s j, (i <= j < i + todo)%nat -> 0 <= t -> t + Z.of_nat (c j) < B -> step (t, s) (Z.of_nat j) = (s ← add_all add s (g j); Ret (t + Z.of_nat (c j), s))) ->
  0 <= t -> t + Z.of_nat (sum_list (c <$> seq i todo)) < B ->
  for_range step todo (Z.of_nat i) (t, s) = (s ← add_all add s (concat (g <$> seq i todo)); Ret (t + Z.of_nat (sum_list (c <$> seq i todo)), s)).
Proof.
  induction todo as [|todo IH]; intros i t s Hstep Ht HB; cbn [for_range seq]; [cbn; by rewrite Z.add_0_r|]. cbn [seq] in HB. rewrite fmap_cons in HB |- *. rewrite fmap_cons. cbn [concat].
  change (sum_list (c i :: (c <$> seq (Datatypes.S i) todo))) with (c i + sum_list (c <$> seq (Datatypes.S i) todo))%nat in HB |- *.
  rewrite add_all_app, Hstep by lia. destruct (add_all add s (g i)) as [s'| |]; [|done|done]. rewrite !ret_bind. replace (Z.of_nat i + 1) with (Z.of_nat (Datatypes.S i)) by lia.
  rewrite IH; [|intros t' s'' j Hj; apply Hstep; lia|lia|lia]. destruct (add_all _ _ _); [|done|done]. rewrite !ret_bind. do 2 f_equal. lia.
Qed.
Lemma for_rows_counts (step : Z * S -> Z -> outcome (Z * S)) g (c : nat -> nat) B todo t s :
  (forall t s j, (j < todo)%nat -> 0 <= t -> t + Z.of_nat (c j) < B -> step (t, s) (Z.of_nat j) = (s ← add_all add s (g j); Ret (t + Z.of_nat (c j), s))) ->
  0 <= t -> t + Z.of_nat (sum_list (c <$> seq 0 todo)) < B ->
  for_range step todo 0 (t, s) = (s ← add_all add s (concat (g <$> seq 0 todo)); Ret (t + Z.of_nat (sum_list (c <$> seq 0 todo)), s)).
Proof. intros Hstep. apply (for_range_counts step g c B todo 0). intros t' s' j Hj. apply Hstep. lia. Qed.
End Loops.

(** ** Lists with a condition *)

Lemma concat_if {A B} (P : A -> bool) (f : A -> B) (l : list A) : concat ((fun x => if P x then [f x] else []) <$> l) = f <$> filter (fun x => P x = true) l.
Proof. induction l as [|x l IH]; [done|]. rewrite fmap_cons, filter_cons. cbn [concat]. destruct (P x); [by rewrite decide_True, IH|by rewrite decide_False, IH]. Qed.

Lemma concat_lookups {A B} (f : A -> B) (l : list A) : concat ((fun j => match l !! j with Some x => [f x] | None => [] end) <$> seq 0 (length l)) = f <$> l.
Proof.
  induction l as [|x l IH]; [done|]. cbn [length seq]. rewrite !fmap_cons. cbn [concat]. cbn. f_equal. rewrite <- IH, <- fmap_S_seq, <- list_fmap_compose. done.
Qed.

Lemma sum_if {A} (P : A -> bool) (l : list A) : sum_list ((fun x => if P x then 1%nat else 0%nat) <$> l) = length (filter (fun x => P x = true) l).
Proof. induction l as [|x l IH]; [done|]. rewrite fmap_cons, filter_cons. destruct (P x); [rewrite decide_True by done|rewrite decide_False by done]; cbn; rewrite <- IH; done. Qed.

Lemma sum_zero {A} (l : list A) : sum_list ((fun _ => 0%nat) <$> l) = 0%nat.
Proof. induction l as [|x l IH]; [done|]. rewrite fmap_cons. cbn. exact IH. Qed.

(** Only the first counts. *)
Lemma sum_first r n : (1 <= n)%nat -> sum_list ((fun q => if decide (q = 0%nat) then r else 0%nat) <$> seq 0 n) = r.
Proof.
  intros Hn. destruct n as [|n]; [lia|]. cbn [seq]. rewrite fmap_cons. cbn [sum_list sum_list_with]. rewrite decide_True by done. unfold id.
  assert ((fun q => if decide (q = 0%nat) then r else 0%nat) <$> seq 1 n = (fun _ => 0%nat) <$> seq 1 n) as ->.
  { apply list_fmap_ext. intros i q Hq. apply lookup_seq in Hq. by rewrite decide_False by lia. }
  fold sum_list. rewrite sum_zero. lia.
Qed.

(** ** What a call adds *)

Lemma results_app {D I} q (l1 l2 : list (nat * (D * I))) : results_of q (l1 ++ l2) = results_of q l1 ++ results_of q l2.
Proof. unfold results_of. by rewrite filter_app, fmap_app. Qed.

Lemma results_named {D I} q p (l : list (D * I)) : results_of q ((fun x => (p, x)) <$> l) = if decide (p = q) then l else [].
Proof. induction l as [|x l IH]; [by destruct (decide (p = q))|]. rewrite fmap_cons, results_cons, IH. by destruct (decide (p = q)). Qed.

Section Adds.
Context {D : Type} `{DistanceLaws D} (is_max : bool) (dist_f : list D -> list D -> D) (query : list D) (dim : Z) (dim_pos : 0 <= dim).
Context (k n : nat) (n_pos : (1 <= n)%nat).
Abbreviation found := (found dist_f query dim k).
Abbreviation run_call := (run_call is_max dist_f query dim).
Abbreviation call_ok := (call_ok is_max dist_f query dim k n).
Abbreviation add_all := (add_all (Reservoir_AddResult is_max)).
Implicit Types (s : MergeKnn D) (c : search_call D).

Definition call_adds c : list (nat * (D * RowID)) := concat ((fun q => (fun x => (q, x)) <$> found q c) <$> seq 0 n).

Lemma call_results q c : (q < n)%nat -> results_of q (call_adds c) = found q c.
Proof.
  unfold call_adds. intros Hq. clear n_pos. induction n as [|m IH]; [lia|]. rewrite seq_S, fmap_app, concat_app, results_app. cbn [fmap list_fmap concat]. rewrite app_nil_r, results_named. simpl.
  destruct (decide (m = q)) as [->|Hne]; [|rewrite app_nil_r; apply IH; lia]. assert (results_of q (concat ((fun p => (fun x => (p, x)) <$> found p c) <$> seq 0 q)) = []) as ->; [|done].
  clear. assert (forall m, (m <= q)%nat -> results_of q (concat ((fun p => (fun x => (p, x)) <$> found p c) <$> seq 0 m)) = []) as Hm; [|by apply Hm].
  induction m as [|m IH]; intros Hm; [done|]. rewrite seq_S, fmap_app, concat_app, results_app, IH by lia. cbn [fmap list_fmap concat]. rewrite app_nil_r, results_named. by rewrite decide_False by (simpl; lia).
Qed.

Lemma vec_row (v : list D) i m : (i < m)%nat -> Z.of_nat m * dim <= Z.of_nat (length v) -> vec v (Z.of_nat i) dim = Ret (row_vec dim v i).
Proof.
  intros Hi Hm. unfold vec, row_vec. destruct (_ || _) eqn:E; [exfalso; rewrite !orb_true_iff, !Z.ltb_lt in E; nia|]. f_equal. f_equal. f_equal. lia.
Qed.

Lemma concat_singles {A B} (f : A -> B) (l : list A) : concat ((fun x => [f x]) <$> l) = f <$> l.
Proof. induction l as [|x l IH]; [done|]. rewrite !fmap_cons. cbn [concat]. by rewrite IH. Qed.

Lemma block_adds s data m seg blk : query_count_ s = Z.of_nat n -> call_ok (CBlock data m seg blk) -> 0 <= total_count_ s -> total_count_ s + Z.of_nat m < 2 ^ 63 ->
  run_call s (CBlock data m seg blk) = (h ← add_all (result_handler_ s) (call_adds (CBlock data m seg blk)); Ret (with_results s (total_count_ s + Z.of_nat m) h)).
Proof.
  intros Hn ((Hquery & Hdata) & _) Ht Htot. cbn [MergeKnn.run_call]. unfold SearchBlock. rewrite Hn, !Nat2Z.id. replace (to_i64 (total_count_ s + Z.of_nat m)) with (total_count_ s + Z.of_nat m) by (symmetry; apply s_wrap_id; unfold s_range; lia).
  unfold call_adds. erewrite for_rows_adds; [done|].
  intros h q Hq. cbn [MergeKnn.found]. rewrite (for_rows_adds (Reservoir_AddResult is_max) _ (fun j => [(q, block_result dist_f query dim data seg blk q j)])).
  - f_equal. rewrite concat_singles, <- list_fmap_compose. done.
  - intros h' j Hj. rewrite (vec_row query q n), ret_bind, (vec_row data j m), ret_bind by (done || lia). unfold block_result. by rewrite add_one.
Qed.
Lemma masked_sum rows q m : sum_list ((fun j => if visible rows j then if decide (q = 0%nat) then 1%nat else 0%nat else 0%nat) <$> seq 0 m) = if decide (q = 0%nat) then length (filter (fun j => visible rows j = true) (seq 0 m)) else 0%nat.
Proof.
  destruct (decide (q = 0%nat)); [apply sum_if|]. etrans; [|apply (sum_zero (seq 0 m))]. f_equal. apply list_fmap_ext. intros i j _. by destruct (visible rows j).
Qed.

Lemma masked_row data m seg blk h0 mask rows t h q j : Z.of_nat n * dim <= Z.of_nat (length query) -> Z.of_nat m * dim <= Z.of_nat (length data) -> mask_ok h0 mask rows -> (m <= length rows)%nat ->
  (q < n)%nat -> (j < m)%nat -> 0 <= t -> t + Z.of_nat (if visible rows j then if decide (q = 0%nat) then 1%nat else 0%nat else 0%nat) < 2 ^ 63 ->
  SearchMaskedRow is_max dist_f query data dim seg (to_u32 (blk * DEFAULT_BLOCK_CAPACITY)) h0 mask (Z.of_nat q) (t, h) (Z.of_nat j) =
    (h ← add_all h (if visible rows j then [(q, block_result dist_f query dim data seg blk q j)] else []);
     Ret (t + Z.of_nat (if visible rows j then if decide (q = 0%nat) then 1%nat else 0%nat else 0%nat), h)).
Proof.
  intros Hquery Hdata Hmask Hm Hq Hj Ht Hlt. unfold SearchMaskedRow. rewrite (is_true_ok _ _ _ _ Hmask), Nat2Z.id by lia. destruct (lookup_lt_is_Some_2 rows j ltac:(lia)) as [b Hb].
  rewrite (mask_at_some _ _ _ Hb), ret_bind. assert (visible rows j = b) as Hvis by (unfold visible; by rewrite Hb). rewrite Hvis in *. destruct b; [|cbn [HeapProps.add_all]; rewrite ret_bind; by rewrite Z.add_0_r].
  rewrite (vec_row query q n), ret_bind, (vec_row data j m), ret_bind by (done || lia). unfold block_result. rewrite add_one. destruct (Reservoir_AddResult _ _ _ _ _); [|done|done]. rewrite !ret_bind. do 2 f_equal.
  destruct (decide (q = 0%nat)) as [->|Hne].
  - change (Z.of_nat 0 =? 0) with true. cbv iota. apply s_wrap_id; unfold s_range; lia.
  - rewrite (proj2 (Z.eqb_neq _ _)) by lia. lia.
Qed.

Lemma seq_split p m : (p < m)%nat -> seq 0 m = seq 0 p ++ p :: seq (Datatypes.S p) (m - Datatypes.S p).
Proof. intros Hp. replace m with (p + (1 + (m - Datatypes.S p)))%nat at 1 by lia. by rewrite seq_app. Qed.

Lemma concat_nil_found (l : list nat) c : (forall q, q ∈ l -> found q c = []) -> concat ((fun q => (fun x => (q, x)) <$> found q c) <$> l) = [].
Proof. induction l as [|q l IH]; intros Hl; [done|]. rewrite fmap_cons. cbn [concat]. rewrite (Hl q) by (by left). apply IH. intros q' Hq'. apply Hl. by right. Qed.

Lemma masked_adds s data m seg blk h0 mask rows : query_count_ s = Z.of_nat n -> let c := CBlockMasked data m seg blk h0 mask rows in
  call_ok c -> 0 <= total_count_ s -> total_count_ s + Z.of_nat (rows_of c) < 2 ^ 63 ->
  run_call s c = (h ← add_all (result_handler_ s) (call_adds c); Ret (with_results s (total_count_ s + Z.of_nat (rows_of c)) h)).
Proof.
  intros Hn c ((Hquery & Hdata & Hmask & Hm) & Hvalid) Ht Htot. cbn [MergeKnn.run_call c]. unfold SearchBlockMasked. rewrite (all_true_ok _ _ _ Hmask), ret_bind. destruct (forallb id rows) eqn:Hall.
  - assert (filter (fun j => visible rows j = true) (seq 0 m) = seq 0 m) as Hf.
    { apply list_filter_all. intros j Hj%elem_of_seq. unfold visible. rewrite (proj1 (all_trues rows) Hall), lookup_replicate_2 by lia. done. }
    assert (forall q, found q c = found q (CBlock data m seg blk)) as Hfound by (intros q; cbn [MergeKnn.found c]; by rewrite Hf).
    pose proof (block_adds s data m seg blk Hn) as Hblock. cbn [MergeKnn.run_call] in Hblock. cbn [rows_of c] in Htot |- *. rewrite Hf, length_seq in Htot |- *. rewrite Hblock; [|split; [done|intros q Hq; rewrite <- Hfound; by apply Hvalid]|done|done].
    unfold call_adds. assert ((fun q => (fun x => (q, x)) <$> found q (CBlock data m seg blk)) <$> seq 0 n = (fun q => (fun x => (q, x)) <$> found q c) <$> seq 0 n) as ->; [|done].
    apply list_fmap_ext. intros i q _. by rewrite Hfound.
  - cbv zeta. rewrite Hn, !Nat2Z.id.
    rewrite (for_rows_counts (Reservoir_AddResult is_max) _ (fun q => (fun x => (q, x)) <$> found q c) (fun q => if decide (q = 0%nat) then rows_of c else 0%nat) (2 ^ 63)).
    + rewrite sum_first by done. fold (call_adds c). by destruct (add_all _ _).
    + intros t h q Hq Ht' Hlt. rewrite (for_rows_counts (Reservoir_AddResult is_max) _ (fun j => if visible rows j then [(q, block_result dist_f query dim data seg blk q j)] else [])
        (fun j => if visible rows j then if decide (q = 0%nat) then 1%nat else 0%nat else 0%nat) (2 ^ 63)); [|intros t' h' j Hj Ht'' Hlt'; apply (masked_row data m); (done || lia)|done|].
      * rewrite concat_if, (list_fmap_compose (block_result dist_f query dim data seg blk q) (fun x => (q, x))). rewrite masked_sum. done.
      * rewrite masked_sum. done.
    + done.
    + rewrite sum_first by done. done.
Qed.

(** ** Results of an index *)

Lemma pairs_lookup dist row_ids start count j : (j < count)%nat -> (start + count <= length dist)%nat -> (start + count <= length row_ids)%nat ->
  exists d r, dist !! (start + j)%nat = Some d /\ row_ids !! (start + j)%nat = Some r /\ pairs dist row_ids start count !! j = Some ((d : D), r).
Proof.
  intros Hj Hd Hr. destruct (lookup_lt_is_Some_2 dist (start + j)%nat ltac:(lia)) as [d Hdj], (lookup_lt_is_Some_2 row_ids (start + j)%nat ltac:(lia)) as [r Hrj]. exists d, r. split; [done|]. split; [done|].
  unfold pairs. rewrite lookup_take_lt, lookup_drop by done. apply lookup_zip_with_Some. eauto.
Qed.

Lemma add_row h q dist row_ids start count : (start + count <= length dist)%nat -> (start + count <= length row_ids)%nat ->
  AddRow is_max h (Z.of_nat q) dist row_ids (Z.of_nat start) (Z.of_nat count) = add_all h ((fun x => (q, x)) <$> pairs dist row_ids start count).
Proof.
  intros Hd Hr. unfold AddRow. rewrite Nat2Z.id, (for_rows_adds (Reservoir_AddResult is_max) _ (fun j => match pairs dist row_ids start count !! j with Some x => [(q, x)] | None => [] end)).
  - assert (length (pairs dist row_ids start count) = count) as Hlen by (unfold pairs; rewrite length_take, length_drop, length_zip_with; lia).
    rewrite <- (concat_lookups (fun x => (q, x)) (pairs dist row_ids start count)), Hlen. done.
  - intros h' j Hj. destruct (pairs_lookup dist row_ids start count j Hj Hd Hr) as (d & r & Hdj & Hrj & ->). rewrite <- Nat2Z.inj_add, (at_index_nat dist), Hdj, ret_bind, (at_index_nat row_ids), Hrj, ret_bind. by rewrite add_one.
Qed.

Lemma results_adds s dist row_ids count : query_count_ s = Z.of_nat n -> topk_ s = Z.of_nat k -> let c := CResults dist row_ids count in
  call_ok c -> 0 <= total_count_ s -> total_count_ s + Z.of_nat (rows_of c) < 2 ^ 63 ->
  run_call s c = (h ← add_all (result_handler_ s) (call_adds c); Ret (with_results s (total_count_ s + Z.of_nat (rows_of c)) h)).
Proof.
  intros Hn Hk c ((Hcount & Hd & Hr) & _) Ht Htot. cbn [MergeKnn.run_call c rows_of] in *. unfold SearchResults. rewrite Hn, Hk, !Nat2Z.id. replace (to_i64 (total_count_ s + Z.of_nat count)) with (total_count_ s + Z.of_nat count) by (symmetry; apply s_wrap_id; unfold s_range; lia).
  unfold call_adds. erewrite for_rows_adds; [done|]. intros h q Hq. rewrite <- Nat2Z.inj_mul. apply add_row; nia.
Qed.

Lemma query_adds s p dist row_ids count : query_count_ s = Z.of_nat n -> let c := CQueryResults p dist row_ids count in
  call_ok c -> 0 <= total_count_ s -> total_count_ s + Z.of_nat (rows_of c) < 2 ^ 63 ->
  run_call s c = (h ← add_all (result_handler_ s) (call_adds c); Ret (with_results s (total_count_ s + Z.of_nat (rows_of c)) h)).
Proof.
  intros Hn c ((Hp & Hd & Hr) & _) Ht Htot. cbn [MergeKnn.run_call c rows_of] in *. unfold SearchQueryResults.
  pose proof (add_row (result_handler_ s) p dist row_ids 0 count ltac:(lia) ltac:(lia)) as Hrow. change (Z.of_nat 0) with 0 in Hrow. rewrite Hrow.
  assert (call_adds c = (fun x => (p, x)) <$> pairs dist row_ids 0 count) as ->.
  { unfold call_adds. rewrite (seq_split p n Hp), !fmap_app, fmap_cons, !concat_app. cbn [concat]. rewrite !concat_nil_found by (cbn [MergeKnn.found c]; intros q Hq%elem_of_seq; rewrite decide_False by lia; done).
    cbn [MergeKnn.found c]. rewrite decide_True by done. by rewrite app_nil_r. }
  destruct (decide (p = 0%nat)) as [->|Hne].
  - change (Z.of_nat 0 =? 0) with true. cbv iota. replace (to_i64 (total_count_ s + Z.of_nat count)) with (total_count_ s + Z.of_nat count) by (symmetry; apply s_wrap_id; unfold s_range; lia). done.
  - rewrite (proj2 (Z.eqb_neq _ _)) by lia. by rewrite Z.add_0_r.
Qed.
End Adds.

(** ** The merged results *)

Section Merged.
Context {D : Type} `{DistanceLaws D} (is_max : bool) (dist_f : list D -> list D -> D) (query : list D) (dim : Z) (dim_pos : 0 <= dim).
Context (k n : nat) (k_pos : (1 <= k)%nat) (k_max : Z.of_nat k <= 100) (n_pos : (1 <= n)%nat).
Abbreviation found := (found dist_f query dim k).
Abbreviation run_calls := (run_calls is_max dist_f query dim).
Abbreviation call_ok := (call_ok is_max dist_f query dim k n).

Definition total (cs : list (search_call D)) : nat := sum_list (rows_of <$> cs).

Lemma call_run (s : MergeKnn D) c : query_count_ s = Z.of_nat n -> topk_ s = Z.of_nat k -> call_ok c -> 0 <= total_count_ s -> total_count_ s + Z.of_nat (rows_of c) < 2 ^ 63 ->
  run_call is_max dist_f query dim s c =
    (h ← add_all (Reservoir_AddResult is_max) (result_handler_ s) (call_adds dist_f query dim k n c); Ret (with_results s (total_count_ s + Z.of_nat (rows_of c)) h)).
Proof. destruct c; intros; [apply block_adds|apply (masked_adds is_max)|apply results_adds|apply query_adds]; done. Qed.

Lemma call_adds_ok c : call_ok c -> Forall (fun x => (x.1 < n)%nat /\ valid is_max x.2) (call_adds dist_f query dim k n c).
Proof.
  intros [_ Hvalid]. unfold call_adds. apply Forall_concat, Forall_fmap, Forall_forall. intros q Hq%elem_of_seq. simpl. apply Forall_fmap. eapply Forall_impl; [apply Hvalid; lia|]. intros x Hx. simpl. split; [lia|done].
Qed.

Lemma calls_run cs : forall s qs, result_handler_ s = reservoir_of k qs -> length qs = n -> Forall (shape k) qs -> Forall (rquery_ok is_max k) qs -> query_count_ s = Z.of_nat n -> topk_ s = Z.of_nat k ->
  Forall call_ok cs -> 0 <= total_count_ s -> total_count_ s + Z.of_nat (total cs) < 2 ^ 63 ->
  exists qs', run_calls s cs = Ret (with_results s (total_count_ s + Z.of_nat (total cs)) (reservoir_of k qs')) /\ length qs' = n /\ Forall (shape k) qs' /\ Forall (rquery_ok is_max k) qs' /\
    forall q qu, qs !! q = Some qu -> exists qu', qs' !! q = Some qu' /\ rseen qu' = rseen qu ++ concat (found q <$> cs).
Proof.
  induction cs as [|c cs IH]; intros s qs Hh Hlen Hsh Hok Hn Hk Hcs Ht Htot.
  - exists qs. split; [|repeat (split; [done|]); intros q qu Hq; exists qu; by rewrite app_nil_r]. cbn [MergeKnn.run_calls]. rewrite <- Hh. destruct s. unfold with_results. cbn. by rewrite Z.add_0_r.
  - apply Forall_cons in Hcs as [Hc Hcs]. assert (total (c :: cs) = (rows_of c + total cs)%nat) as Hsum by done. rewrite Hsum in Htot |- *. cbn [MergeKnn.run_calls]. rewrite (call_run s c) by (done || lia). rewrite Hh.
    destruct (reservoir_add_all is_max k k_pos k_max (call_adds dist_f query dim k n c) qs Hsh Hok) as (qs1 & -> & Hsh1 & Hok1 & Hlen1 & Hseen1); [rewrite Hlen; by apply call_adds_ok|]. rewrite !ret_bind.
    destruct (IH (with_results s (total_count_ s + Z.of_nat (rows_of c)) (reservoir_of k qs1)) qs1) as (qs' & Hrun & Hlen' & Hsh' & Hok' & Hseen'); [done|lia|done|done|done|done|done|cbn; lia|cbn [with_results total_count_]; lia|].
    exists qs'. split; [|repeat (split; [done|])].
    + rewrite Hrun. unfold with_results. cbn. do 2 f_equal. lia.
    + intros q qu Hq. destruct (Hseen1 q qu Hq) as (qu1 & Hqu1 & Hs1). destruct (Hseen' q qu1 Hqu1) as (qu' & Hqu' & Hs'). exists qu'. split; [done|]. rewrite Hs', Hs1, fmap_cons. cbn [concat].
      rewrite (call_results dist_f query dim k n q c) by (apply lookup_lt_Some in Hq; lia). by rewrite app_assoc.
Qed.

(** C12: [MergeKnn] with [topk] up to 100 returns the exact nearest neighbours.  After
    [Begin] on a new object, any calls of the four forms of [Search] (blocks of rows,
    blocks with a bit mask, the results of an index for all queries or for one) with
    arrays of sufficient lengths and distances strictly between the limits of their
    type, and one [End], the arrays of query [q] hold the [topk] best of the rows that
    are visible in the bit masks and of the results given, over all calls, the best
    first and padded with [InitialValue], and [total_count_] is the number of those
    rows; no call throws or accesses memory out of range. *)
Theorem merge_knn_top_k distance_array rd idx_array ri cs :
  length distance_array = (n * k)%nat -> length idx_array = (n * k)%nat -> length rd = (n * cap k)%nat -> length ri = (n * cap k)%nat -> Forall call_ok cs -> Z.of_nat (total cs) < 2 ^ 63 ->
  exists s s', run_calls (Knn_Begin (NewMergeKnn is_max (Z.of_nat n) (Z.of_nat k) distance_array rd idx_array ri)) cs = Ret s /\ Knn_End is_max s = Ret s' /\
    total_count_ s' = Z.of_nat (total cs) /\
    forall q, (q < n)%nat -> exists r d i, top_k_of is_max k (concat (found q <$> cs)) r /\ GetDistancesByIdx s' (Z.of_nat q) = Ret d /\ GetIDsByIdx s' (Z.of_nat q) = Ret i /\
      take k d = r.*1 ++ replicate (k - length r) (InitialValue is_max) /\ take (length r) i = r.*2.
Proof.
  intros Hd Hi Hrd Hri Hcs Htot. destruct (reservoir_new is_max k k_pos k_max n distance_array idx_array rd ri Hd Hi Hrd Hri) as (qs & Hnew & Hsh & Hok & Hlen & Hempty).
  unfold NewMergeKnn, Knn_Begin. rewrite Hnew. cbn [begin_ query_count_ orb total_count_ topk_ result_handler_]. rewrite (proj2 (Z.eqb_neq _ _)) by lia. unfold to_i64. rewrite s_wrap_id by (unfold s_range; lia).
  set (s0 := mkMergeKnn 0 true (Z.of_nat n) (Z.of_nat k) (reservoir_of k qs)). destruct (calls_run cs s0 qs eq_refl Hlen Hsh Hok eq_refl eq_refl Hcs ltac:(done) ltac:(cbn; lia)) as (qs' & -> & Hlen' & Hsh' & Hok' & Hseen).
  eexists _, _. split; [done|]. unfold Knn_End. cbn [with_results begin_ s0 negb result_handler_]. rewrite (reservoir_end_all is_max k k_pos k_max qs' Hsh'), ret_bind. split; [done|]. split; [done|]. intros q Hq.
  destruct (lookup_lt_is_Some_2 qs q ltac:(lia)) as [qu Hqu]. destruct (Hseen q qu Hqu) as (qu' & Hqu' & Hs). rewrite (Forall_lookup_1 _ _ _ _ Hempty Hqu) in Hs. cbn [app] in Hs.
  destruct (reservoir_results is_max k k_pos k_max qs' q qu' Hsh' Hok' Hqu') as (r & Htop & H1 & H2). rewrite Hs in Htop. unfold GetDistancesByIdx, GetIDsByIdx, GetDistances, GetIDs. cbn [query_count_ topk_ result_handler_ with_results s0].
  rewrite Z.geb_leb, (proj2 (Z.leb_gt _ _)) by lia. rewrite <- Nat2Z.inj_mul, Nat2Z.id. eexists r, _, _. split; [done|]. split; [done|]. split; [done|]. split; [done|].
  rewrite take_take in H2. rewrite <- H2. f_equal. destruct Htop as [[Hlr _] _]. lia.
Qed.
End Merged.

(** A masked block whose row 3 is deleted, the results of an index for two queries
    and those for the second one, with the distance of numbers. *)
Definition number_distance (x y : list Z) : Z := match x, y with a :: _, b :: _ => Z.abs (a - b) | _, _ => 0 end.

Definition sample_calls : list (search_call Z) :=
  [ CBlockMasked [1; 9; 5; 0] 4 0 1 sample_buffers sample_mask (buffer_bits [UNIT_MAX - 8]);
    CResults [3; 4; 0; 8] [mkRowID 1 0; mkRowID 1 1; mkRowID 1 2; mkRowID 1 3] 2;
    CQueryResults 1 [2] [mkRowID 2 7] 1 ].

Lemma sample_calls_ok : Forall (call_ok true number_distance [0; 10] 1 2 2) sample_calls.
Proof.
  assert (forall c, forallb (fun q => forallb (fun x => between true (InitialValue false) (InitialValue true) x.1) (found number_distance [0; 10] 1 2 q c)) (seq 0 2) = true ->
    forall q, (q < 2)%nat -> Forall (valid true) (found number_distance [0; 10] 1 2 q c)) as Hvalid.
  { intros c Hc q Hq. rewrite forallb_forall in Hc. specialize (Hc q ltac:(apply in_seq; lia)). apply Forall_forall. intros x Hx. rewrite forallb_forall in Hc. apply Hc. by apply list_elem_of_In. }
  unfold sample_calls. repeat (apply Forall_cons; split); [| | |by apply Forall_nil]; (split; [|apply Hvalid; by vm_compute]).
  - split; [by vm_compute|]. split; [by vm_compute|]. split; [exact sample_mask_ok|]. vm_compute. lia.
  - cbn. lia.
  - cbn. lia.
Qed.

Lemma merge_knn_top_k_witness : Forall (call_ok true number_distance [0; 10] 1 2 2) sample_calls /\ Z.of_nat (total sample_calls) < 2 ^ 63 /\
  exists s s', run_calls true number_distance [0; 10] 1 (Knn_Begin (NewMergeKnn true 2 2 (replicate 4 7) (replicate 16 7) (replicate 4 (mkRowID 0 0)) (replicate 16 (mkRowID 0 0)))) sample_calls = Ret s /\
    Knn_End true s = Ret s' /\ total_count_ s' = Z.of_nat (total sample_calls).
Proof.
  assert (Z.of_nat (total sample_calls) < 2 ^ 63) as Ht by (vm_compute; done). split; [exact sample_calls_ok|]. split; [exact Ht|].
  destruct (merge_knn_top_k true number_distance [0; 10] 1 ltac:(lia) 2 2 ltac:(lia) ltac:(simpl; lia) ltac:(lia) (replicate 4 7) (replicate 16 7) (replicate 4 (mkRowID 0 0)) (replicate 16 (mkRowID 0 0)) sample_calls
    eq_refl eq_refl eq_refl eq_refl sample_calls_ok Ht) as (s & s' & Hrun & Hend & Htotal & _).
  exists s, s'. split; [exact Hrun|]. split; [exact Hend|exact Htotal].
Defined.

(** The results of the sample: row 3 of the block, the nearest to the first query,
    is not among them. *)
Lemma sample_calls_results :
  (s ← run_calls true number_distance [0; 10] 1 (Knn_Begin (NewMergeKnn true 2 2 (replicate 4 7) (replicate 16 7) (replicate 4 (mkRowID 0 0)) (replicate 16 (mkRowID 0 0)))) sample_calls;
   s ← Knn_End true s; Ret (total_count_ s, GetDistances s, GetIDs s)) =
  Ret (5, [1; 3; 0; 1], [mkRowID 0 8192; mkRowID 1 0; mkRowID 1 2; mkRowID 0 8193]).
Proof. by vm_compute. Qed.
