(* ===== verification/VectorHeap.v ===== *)
(** * The heaps of column vectors

    [storage/column_vector/var_heap.cpp], [fix_heap.cpp] and
    [vector_heap_chunk.cppm]: the bytes of strings and embeddings that do not fit
    into a cell are appended to chunks and found again by chunk and offset.  The
    chunks of a [FixHeapManager] have one size; the chunk size of a
    [VarHeapManager] doubles up to [MAX_VECTOR_CHUNK_SIZE] while the data grows.

    A byte that was never written is [None]. *)
From S2P Require Import Prelude Common Arrays.

Local Open Scope Z_scope.

Definition INITIAL_VECTOR_CHUNK_ID : Z := u64_max.
Definition MIN_VECTOR_CHUNK_SIZE : Z := 4096.
Definition MAX_VECTOR_CHUNK_SIZE : Z := 1024 * 1024.
Definition DEFAULT_FIXLEN_CHUNK_SIZE : Z := 65536.

Section VectorHeap.
Context {B : Type}.

Record VectorHeapChunk := mkVectorHeapChunk {
  ptr_ : list (option B);
  capacity_ : Z
}.

Definition NewVectorHeapChunk (capacity : Z) : VectorHeapChunk := mkVectorHeapChunk (replicate (Z.to_nat capacity) None) capacity.

(** The members of both managers. *)
Record HeapManager := mkHeapManager {
  chunks_ : list VectorHeapChunk;
  current_chunk_size_ : Z;
  current_chunk_idx_ : Z;
  current_chunk_offset_ : Z
}.

Definition NewVarHeapManager (chunk_size : Z) : HeapManager := mkHeapManager [] chunk_size INITIAL_VECTOR_CHUNK_ID 0.
Definition NewFixHeapManager (chunk_size : Z) : HeapManager := mkHeapManager [] chunk_size 0 0.

Definition total_size (h : HeapManager) : Z := to_u64 (current_chunk_size_ h * current_chunk_idx_ h + current_chunk_offset_ h).
Definition total_mem (h : HeapManager) : Z := to_u64 (current_chunk_size_ h * to_u64 (current_chunk_idx_ h + 1)).

(** ** Allocation *)

(** The loop that doubles the chunk size until [need] bytes fit. *)
Fixpoint GrowChunkSize (fuel : nat) (need size : Z) : outcome Z :=
  match fuel with
  | O => UB "out of fuel"
  | S fuel => if (size <? need) && (size <? MAX_VECTOR_CHUNK_SIZE) then GrowChunkSize fuel need (to_u64 (size * 2)) else Ret size
  end.

(** [while (rest_nbytes > current_chunk_size_)], and the last chunk: the chunks and
    the rest. *)
Fixpoint AddChunks (fuel : nat) (size : Z) (chunks : list VectorHeapChunk) (rest_nbytes : Z) : outcome (list VectorHeapChunk * Z) :=
  match fuel with
  | O => UB "out of fuel"
  | S fuel =>
      let chunks' := chunks ++ [NewVectorHeapChunk size] in
      if rest_nbytes >? size then AddChunks fuel size chunks' (to_u64 (rest_nbytes - size)) else Ret (chunks', rest_nbytes)
  end.

(** The manager after [AddChunks]. *)
Definition ExtendChunks (size : Z) (chunks : list VectorHeapChunk) (rest_nbytes : Z) : outcome HeapManager :=
  '(chunks, rest) ← AddChunks (S (Z.to_nat rest_nbytes)) size chunks rest_nbytes;
  Ret (mkHeapManager chunks size (to_u64 (Z.of_nat (length chunks) - 1)) rest).

Definition with_offset (h : HeapManager) (offset : Z) : HeapManager := mkHeapManager (chunks_ h) (current_chunk_size_ h) (current_chunk_idx_ h) offset.

Definition empty_allocation {A} : outcome A := Throw ExecutorException "Attempt to allocate memory with size: 0 as the string heap".

(** The case of a chunk size below the maximum that is too small: the current
    chunk is replaced by a larger one. *)
Definition Var_AllocateGrow (h : HeapManager) (nbytes : Z) : outcome HeapManager :=
  let offset := current_chunk_offset_ h in
  size ← GrowChunkSize 22 (to_u64 (offset + nbytes)) (current_chunk_size_ h);
  chunk ← at_index (chunks_ h) (current_chunk_idx_ h);
  chunks ← (if size >? capacity_ chunk then
              old ← read_at (ptr_ chunk) 0 offset;
              new ← write_at (ptr_ (NewVectorHeapChunk size)) 0 old;
              set_index (chunks_ h) (current_chunk_idx_ h) (mkVectorHeapChunk new size)
            else Ret (chunks_ h));
  if to_u64 (offset + nbytes) <? size then Ret (mkHeapManager chunks size (current_chunk_idx_ h) (to_u64 (offset + nbytes)))
  else ExtendChunks size chunks (to_u64 (nbytes - to_u64 (size - offset))).

(** The manager afterwards, and where the bytes start. *)
Definition Var_Allocate (h : HeapManager) (nbytes : Z) : outcome (HeapManager * (Z * Z)) :=
  if nbytes =? 0 then empty_allocation
  else if current_chunk_idx_ h =? INITIAL_VECTOR_CHUNK_ID then
    size ← GrowChunkSize 22 nbytes (current_chunk_size_ h);
    h' ← ExtendChunks size (chunks_ h) nbytes;
    Ret (h', (0, 0))
  else
    let start := (current_chunk_idx_ h, current_chunk_offset_ h) in
    let offset := current_chunk_offset_ h in
    let size := current_chunk_size_ h in
    if to_u64 (offset + nbytes) >? size then
      h' ← (if size <? MAX_VECTOR_CHUNK_SIZE then Var_AllocateGrow h nbytes
            else ExtendChunks size (chunks_ h) (to_u64 (nbytes - to_u64 (size - offset))));
      Ret (h', start)
    else Ret (with_offset h (to_u64 (offset + nbytes)), start).

Definition Fix_Allocate (h : HeapManager) (nbytes : Z) : outcome (HeapManager * (Z * Z)) :=
  if nbytes =? 0 then empty_allocation
  else
    let start := (current_chunk_idx_ h, current_chunk_offset_ h) in
    let offset := current_chunk_offset_ h in
    let size := current_chunk_size_ h in
    let chunks := match chunks_ h with [] => [NewVectorHeapChunk size] | chunks => chunks end in
    if to_u64 (offset + nbytes) >? size then
      h' ← ExtendChunks size chunks (to_u64 (nbytes - to_u64 (size - offset)));
      Ret (h', start)
    else Ret (mkHeapManager chunks size (current_chunk_idx_ h) (to_u64 (offset + nbytes)), start).

(** ** Writing and reading *)

Definition chunk_write (chunks : list VectorHeapChunk) (chunk_id chunk_offset : Z) (data : list (option B)) : outcome (list VectorHeapChunk) :=
  chunk ← at_index chunks chunk_id;
  bytes ← write_at (ptr_ chunk) chunk_offset data;
  set_index chunks chunk_id (mkVectorHeapChunk bytes (capacity_ chunk)).

Definition chunk_read (chunks : list VectorHeapChunk) (chunk_id chunk_offset nbytes : Z) : outcome (list (option B)) :=
  chunk ← at_index chunks chunk_id; read_at (ptr_ chunk) chunk_offset nbytes.

(** The loop of [AppendToHeap]. *)
Fixpoint AppendLoop (fuel : nat) (size : Z) (chunks : list VectorHeapChunk) (chunk_id chunk_offset : Z) (data : list (option B)) : outcome (list VectorHeapChunk) :=
  match fuel with
  | O => UB "out of fuel"
  | S fuel =>
      if Z.of_nat (length data) >? 0 then
        let current_chunk_remain_size := to_u64 (size - chunk_offset) in
        if Z.of_nat (length data) <=? current_chunk_remain_size then chunk_write chunks chunk_id chunk_offset data
        else
          chunks ← chunk_write chunks chunk_id chunk_offset (take (Z.to_nat current_chunk_remain_size) data);
          AppendLoop fuel size chunks (chunk_id + 1) 0 (drop (Z.to_nat current_chunk_remain_size) data)
      else Ret chunks
  end.

(** The loop of [ReadFromHeap]. *)
Fixpoint ReadLoop (fuel : nat) (size : Z) (chunks : list VectorHeapChunk) (chunk_id chunk_offset nbytes : Z) : outcome (list (option B)) :=
  match fuel with
  | O => UB "out of fuel"
  | S fuel =>
      if nbytes >? 0 then
        let current_chunk_remain_size := to_u64 (size - chunk_offset) in
        if nbytes <=? current_chunk_remain_size then chunk_read chunks chunk_id chunk_offset nbytes
        else
          bytes ← chunk_read chunks chunk_id chunk_offset current_chunk_remain_size;
          rest ← ReadLoop fuel size chunks (chunk_id + 1) 0 (nbytes - current_chunk_remain_size);
          Ret (bytes ++ rest)
      else Ret []
  end.

Definition with_chunks (h : HeapManager) (chunks : list VectorHeapChunk) : HeapManager := mkHeapManager chunks (current_chunk_size_ h) (current_chunk_idx_ h) (current_chunk_offset_ h).

Definition AppendAllocated (data : list B) (allocated : HeapManager * (Z * Z)) : outcome (HeapManager * (Z * Z)) :=
  let '(h, (chunk_id, chunk_offset)) := allocated in
  chunks ← AppendLoop (length data + 2) (current_chunk_size_ h) (chunks_ h) chunk_id chunk_offset (Some <$> data);
  Ret (with_chunks h chunks, (chunk_id, chunk_offset)).

(** The manager afterwards, and the chunk and offset of the data. *)
Definition Var_AppendToHeap (h : HeapManager) (data : list B) : outcome (HeapManager * (Z * Z)) :=
  allocated ← Var_Allocate h (Z.of_nat (length data)); AppendAllocated data allocated.

Definition Fix_AppendToHeap (h : HeapManager) (data : list B) : outcome (HeapManager * (Z * Z)) :=
  allocated ← Fix_Allocate h (Z.of_nat (length data)); AppendAllocated data allocated.

Definition Var_ReadFromHeap (h : HeapManager) (chunk_id chunk_offset nbytes : Z) : outcome (list (option B)) :=
  ReadLoop (Z.to_nat nbytes + 2) (current_chunk_size_ h) (chunks_ h) chunk_id chunk_offset nbytes.

Definition Fix_ReadFromHeap (h : HeapManager) (chunk_id chunk_offset nbytes : Z) : outcome (list (option B)) :=
  ReadLoop (Z.to_nat nbytes + 2) (current_chunk_size_ h) (chunks_ h) chunk_id chunk_offset nbytes.

(** The loop that copies bytes of the heap [src] to the heap. *)
Fixpoint CopyLoop (fuel : nat) (size : Z) (chunks : list VectorHeapChunk) (src : HeapManager) (chunk_id chunk_offset src_chunk_id src_chunk_offset nbytes : Z) : outcome (list VectorHeapChunk) :=
  match fuel with
  | O => UB "out of fuel"
  | S fuel =>
      if nbytes >? 0 then
        let current_chunk_remain_size := to_u64 (size - chunk_offset) in
        let src_chunk_remain_size := to_u64 (current_chunk_size_ src - src_chunk_offset) in
        let copy_size := if nbytes >? src_chunk_remain_size then Z.min current_chunk_remain_size src_chunk_remain_size else Z.min current_chunk_remain_size nbytes in
        bytes ← chunk_read (chunks_ src) src_chunk_id src_chunk_offset copy_size;
        chunks ← chunk_write chunks chunk_id chunk_offset bytes;
        let '(chunk_id, chunk_offset) := if current_chunk_remain_size - copy_size =? 0 then (chunk_id + 1, 0) else (chunk_id, chunk_offset + copy_size) in
        let '(src_chunk_id, src_chunk_offset) := if src_chunk_remain_size - copy_size =? 0 then (src_chunk_id + 1, 0) else (src_chunk_id, src_chunk_offset + copy_size) in
        CopyLoop fuel size chunks src chunk_id chunk_offset src_chunk_id src_chunk_offset (nbytes - copy_size)
      else Ret chunks
  end.

(** [AppendToHeap] from another heap. *)
Definition Fix_AppendFrom (h src : HeapManager) (src_chunk_id src_chunk_offset nbytes : Z) : outcome (HeapManager * (Z * Z)) :=
  '(h, (chunk_id, chunk_offset)) ← Fix_Allocate h nbytes;
  chunks ← CopyLoop (Z.to_nat nbytes + 2) (current_chunk_size_ h) (chunks_ h) src chunk_id chunk_offset src_chunk_id src_chunk_offset nbytes;
  Ret (with_chunks h chunks, (chunk_id, chunk_offset)).

End VectorHeap.

Arguments VectorHeapChunk : clear implicits.
Arguments HeapManager : clear implicits.
