(* ===== verification/VectorHeapProps.v ===== *)
(** * Correctness of the heaps of column vectors

    A heap is a log of bytes: what was appended is read back from where it was
    put, whatever is appended later and however the chunks grow. *)
From S2P Require Import Prelude Common Arrays VectorHeap.

Local Open Scope Z_scope.

(** ** Writing into a list *)

Definition overwrite {A} (l : list A) (p : nat) (d : list A) : list A := take p l ++ d ++ drop (p + length d) l.

Lemma overwrite_length {A} (l d : list A) p : (p + length d <= length l)%nat -> length (overwrite l p d) = length l.
Proof. intros Hp. unfold overwrite. rewrite !length_app, length_take, length_drop. lia. Qed.

Lemma overwrite_read {A} (l d : list A) p : (p + length d <= length l)%nat -> take (length d) (drop p (overwrite l p d)) = d.
Proof. intros Hp. unfold overwrite. rewrite drop_app_length' by (rewrite length_take; lia). by rewrite take_app_length. Qed.

Lemma overwrite_before {A} (l d : list A) p : (p <= length l)%nat -> take p (overwrite l p d) = take p l.
Proof. intros Hp. unfold overwrite. apply take_app_length'. rewrite length_take. lia. Qed.

Lemma overwrite_two {A} (l d1 d2 : list A) p : (p + length d1 + length d2 <= length l)%nat -> overwrite (overwrite l p d1) (p + length d1) d2 = overwrite l p (d1 ++ d2).
Proof.
  intros Hp. unfold overwrite. rewrite take_app_ge by (rewrite length_take; lia). rewrite length_take, (Nat.min_l p) by lia.
  replace (p + length d1 - p)%nat with (length d1) by lia. rewrite take_app_length, !drop_app_ge by (rewrite ?length_take; lia).
  rewrite drop_drop, length_take, length_app, <- !app_assoc. do 4 f_equal. lia.
Qed.

Lemma overwrite_app {A} (a b l d : list A) p : (p + length d <= length l)%nat -> a ++ overwrite l p d ++ b = overwrite (a ++ l ++ b) (length a + p) d.
Proof.
  intros Hp. unfold overwrite. rewrite take_app_add', take_app_le by lia. rewrite <- Nat.add_assoc, drop_app_add', drop_app_le by lia. by rewrite <- !app_assoc.
Qed.

(** ** Chunks *)

Section Chunks.
Context {B : Type}.
Implicit Types (cs : list (VectorHeapChunk B)) (h : HeapManager B) (ls : list nat).

Definition flat cs : list (option B) := concat (ptr_ <$> cs).
Definition lens cs : list nat := (fun c => length (ptr_ c)) <$> cs.
Definition sound cs : Prop := Forall (fun c => capacity_ c = Z.of_nat (length (ptr_ c))) cs.
Definition pos ls (id off : nat) : nat := (sum_list (take id ls) + off)%nat.

(** [n] bytes from offset [off] of chunk [id] on, in chunks of which all but the
    last one have the size [s]. *)
Inductive fits (s : nat) ls : nat -> nat -> nat -> Prop :=
  | fits_here id off n l : ls !! id = Some l -> (off + n <= l)%nat -> (l <= s)%nat -> fits s ls id off n
  | fits_next id off n : ls !! id = Some s -> (off <= s)%nat -> (s - off < n)%nat -> fits s ls (S id) 0 (n - (s - off)) -> fits s ls id off n.

Lemma heap_flat_length cs : length (flat cs) = sum_list (lens cs).
Proof. induction cs as [|c cs IH]; [done|]. unfold flat, lens in *. rewrite !fmap_cons. cbn [concat]. rewrite length_app, IH. done. Qed.

Lemma pos_next ls id l : ls !! id = Some l -> pos ls (S id) 0 = pos ls id l.
Proof.
  intros Hl. unfold pos. rewrite (take_S_r _ _ _ Hl). rewrite sum_list_with_app. cbn. lia.
Qed.

Lemma pos_bound ls id off l : ls !! id = Some l -> (off <= l)%nat -> (pos ls id off <= sum_list ls)%nat.
Proof.
  intros Hl Hoff. unfold pos. rewrite <- (take_drop_middle _ _ _ Hl) at 2. rewrite sum_list_with_app. cbn. unfold Datatypes.id. lia.
Qed.

Lemma fits_bound s ls id off n : fits s ls id off n -> (pos ls id off + n <= sum_list ls)%nat.
Proof.
  induction 1 as [id off n l Hl Hn _|id off n Hl Hoff Hn _ IH].
  - pose proof (pos_bound ls id (off + n) l Hl Hn). unfold pos in *. lia.
  - rewrite (pos_next _ _ _ Hl) in IH. unfold pos in *. lia.
Qed.

Lemma fits_app s ls ls' id off n : fits s ls id off n -> fits s (ls ++ ls') id off n.
Proof. induction 1 as [id off n l Hl|id off n Hl]; [eapply fits_here; [by apply lookup_app_l_Some|done|done]|apply fits_next; [by apply lookup_app_l_Some|done|done|done]]. Qed.

Lemma lens_insert cs id c c' : cs !! id = Some c -> length (ptr_ c') = length (ptr_ c) -> lens (<[id := c']> cs) = lens cs.
Proof. intros Hc Hl. unfold lens. rewrite list_fmap_insert, Hl. apply list_insert_id. by rewrite list_lookup_fmap, Hc. Qed.

Lemma flat_split cs id c : cs !! id = Some c -> flat cs = flat (take id cs) ++ ptr_ c ++ flat (drop (S id) cs).
Proof. intros Hc. rewrite <- (take_drop_middle _ _ _ Hc) at 1. unfold flat. rewrite fmap_app, concat_app, fmap_cons. done. Qed.

Lemma lens_take cs id : lens (take id cs) = take id (lens cs).
Proof. apply fmap_take. Qed.

Lemma write_chunk cs id off d l : sound cs -> lens cs !! id = Some l -> (off + length d <= l)%nat ->
  exists cs', chunk_write cs (Z.of_nat id) (Z.of_nat off) d = Ret cs' /\ lens cs' = lens cs /\ sound cs' /\ flat cs' = overwrite (flat cs) (pos (lens cs) id off) d.
Proof.
  intros Hs Hl Hoff. apply list_lookup_fmap_Some in Hl as (c & -> & Hc). unfold chunk_write. rewrite at_index_nat, Hc, ret_bind, array_write_at, ret_bind by done.
  set (c' := mkVectorHeapChunk _ _). pose proof (overwrite_length (ptr_ c) d off Hoff) as Hlen. unfold overwrite in Hlen.
  rewrite set_index_in by (apply lookup_lt_Some in Hc; lia). rewrite Nat2Z.id. eexists. split; [done|]. split; [by apply (lens_insert _ _ c)|]. split.
  - apply Forall_insert; [done|]. simpl. rewrite Hlen. exact (Forall_lookup_1 _ _ _ _ Hs Hc).
  - rewrite (flat_split (<[id := c']> cs) id c') by (apply list_lookup_insert_eq; by eapply lookup_lt_Some). rewrite take_insert_ge, drop_insert_lt, (flat_split cs id c) by (done || lia).
    cbn [c' ptr_]. fold (overwrite (ptr_ c) off d). rewrite overwrite_app by done. do 2 f_equal. unfold pos. by rewrite <- lens_take, <- heap_flat_length.
Qed.

Lemma read_chunk cs id off n l : lens cs !! id = Some l -> (off + n <= l)%nat -> chunk_read cs (Z.of_nat id) (Z.of_nat off) (Z.of_nat n) = Ret (take n (drop (pos (lens cs) id off) (flat cs))).
Proof.
  intros Hl Hoff. apply list_lookup_fmap_Some in Hl as (c & -> & Hc). unfold chunk_read. rewrite at_index_nat, Hc, ret_bind, read_at_in by done.
  f_equal. rewrite (flat_split cs id c Hc). unfold pos. rewrite <- lens_take, <- heap_flat_length, drop_app_add', drop_app_le, take_app_le by (rewrite ?length_drop; lia). done.
Qed.

(** ** The loops *)

Definition enough (s off n fuel : nat) : Prop := (n + (if decide (off < s)%nat then 1 else 2) <= fuel)%nat.

Lemma enough_next s off n fuel : (0 < s)%nat -> (off <= s)%nat -> (s - off < n)%nat -> enough s off n (S fuel) -> enough s 0 (n - (s - off)) fuel.
Proof. unfold enough. intros Hs Ho Hn. rewrite (decide_True (P := (0 < s)%nat)) by lia. destruct (decide (off < s)%nat); lia. Qed.

Lemma remain_eq s off : (off <= s)%nat -> Z.of_nat s < 2 ^ 63 -> to_u64 (Z.of_nat s - Z.of_nat off) = Z.of_nat (s - off).
Proof. intros Ho Hs. rewrite <- Nat2Z.inj_sub by done. apply u_wrap_id. unfold u_range. lia. Qed.

Lemma append_loop s ls id off n : fits s ls id off n -> (0 < s)%nat -> Z.of_nat s < 2 ^ 63 -> forall fuel cs d, n = length d -> ls = lens cs -> sound cs -> enough s off n fuel ->
  exists cs', AppendLoop fuel (Z.of_nat s) cs (Z.of_nat id) (Z.of_nat off) d = Ret cs' /\ lens cs' = lens cs /\ sound cs' /\ flat cs' = overwrite (flat cs) (pos (lens cs) id off) d.
Proof.
  intros Hf Hs Hs63. induction Hf as [id off n l Hl Hn Hls|id off n Hl Hoff Hn Hf IH]; intros fuel cs d -> -> Hsound Hfuel.
  - destruct fuel as [|fuel]; [unfold enough in Hfuel; destruct (decide _); lia|]. cbn [AppendLoop]. rewrite Z.gtb_ltb. destruct (_ <? _) eqn:E; zbool.
    + rewrite remain_eq, (proj2 (Z.leb_le _ _)) by lia. by apply (write_chunk _ _ _ _ l).
    + exists cs. repeat (split; [done|]). destruct d; [|simpl in E; lia]. unfold overwrite. by rewrite app_nil_l, Nat.add_0_r, take_drop.
  - destruct fuel as [|fuel]; [unfold enough in Hfuel; destruct (decide _); lia|]. pose proof (enough_next _ _ _ _ Hs Hoff Hn Hfuel) as Hfuel'. cbn [AppendLoop]. rewrite Z.gtb_ltb, (proj2 (Z.ltb_lt _ _)) by lia.
    rewrite remain_eq, (proj2 (Z.leb_gt _ _)), Nat2Z.id by lia. destruct (write_chunk cs id off (take (s - off) d) s Hsound Hl) as (cs1 & -> & Hl1 & Hs1 & Hf1); [rewrite length_take; lia|].
    rewrite ret_bind. replace (Z.of_nat id + 1) with (Z.of_nat (S id)) by lia. change 0 with (Z.of_nat 0) at 1.
    destruct (IH fuel cs1 (drop (s - off) d)) as (cs' & -> & Hl' & Hs' & Hf'); [by rewrite length_drop|done|done|done|].
    exists cs'. split; [done|]. split; [by rewrite Hl', Hl1|]. split; [done|]. rewrite Hf', Hf1, Hl1, (pos_next _ _ _ Hl).
    pose proof (fits_bound s (lens cs) id off (length d) (fits_next _ _ _ _ _ Hl Hoff Hn Hf)) as Hb. rewrite <- heap_flat_length in Hb.
    assert (pos (lens cs) id s = (pos (lens cs) id off + length (take (s - off) d))%nat) as -> by (rewrite length_take; unfold pos; lia).
    rewrite overwrite_two by (rewrite length_take, length_drop; lia). by rewrite take_drop.
Qed.

Lemma read_loop s ls id off n : fits s ls id off n -> (0 < s)%nat -> Z.of_nat s < 2 ^ 63 -> forall fuel cs, ls = lens cs -> enough s off n fuel ->
  ReadLoop fuel (Z.of_nat s) cs (Z.of_nat id) (Z.of_nat off) (Z.of_nat n) = Ret (take n (drop (pos (lens cs) id off) (flat cs))).
Proof.
  intros Hf Hs Hs63. induction Hf as [id off n l Hl Hn Hls|id off n Hl Hoff Hn Hf IH]; intros fuel cs -> Hfuel.
  - destruct fuel as [|fuel]; [unfold enough in Hfuel; destruct (decide _); lia|]. cbn [ReadLoop]. rewrite Z.gtb_ltb. destruct (_ <? _) eqn:E; zbool.
    + rewrite remain_eq, (proj2 (Z.leb_le _ _)) by lia. by apply (read_chunk _ _ _ _ l).
    + assert (n = 0%nat) as -> by lia. done.
  - destruct fuel as [|fuel]; [unfold enough in Hfuel; destruct (decide _); lia|]. pose proof (enough_next _ _ _ _ Hs Hoff Hn Hfuel) as Hfuel'. cbn [ReadLoop]. rewrite Z.gtb_ltb, (proj2 (Z.ltb_lt _ _)) by lia.
    rewrite remain_eq, (proj2 (Z.leb_gt _ _)) by lia. rewrite (read_chunk cs id off (s - off) s) by (done || lia). rewrite ret_bind. replace (Z.of_nat id + 1) with (Z.of_nat (S id)) by lia.
    rewrite <- Nat2Z.inj_sub by lia. change 0 with (Z.of_nat 0) at 1. rewrite IH, ret_bind by done. f_equal. rewrite (pos_next _ _ _ Hl).
    replace (pos (lens cs) id s) with (pos (lens cs) id off + (s - off))%nat by (unfold pos; lia). rewrite <- drop_drop. replace n with ((s - off) + (n - (s - off)))%nat at 2 by lia.
    apply take_take_drop.
Qed.

(** ** Heaps *)

(** The heap [h] with [F] bytes in use; a heap without chunks has the index
    [fresh]. *)
Definition heap_ok (fresh : Z) h (s F : nat) : Prop :=
  current_chunk_size_ h = Z.of_nat s /\ (0 < s)%nat /\ Z.of_nat s < 2 ^ 62 /\ sound (chunks_ h) /\
  (chunks_ h = [] /\ current_chunk_idx_ h = fresh /\ current_chunk_offset_ h = 0 /\ F = 0%nat \/
   exists pre off, lens (chunks_ h) = pre ++ [s] /\ current_chunk_idx_ h = Z.of_nat (length pre) /\ current_chunk_offset_ h = Z.of_nat off /\
     (off <= s)%nat /\ Forall (fun l => 0 < l <= s)%nat pre /\ F = (sum_list pre + off)%nat).

(** What an allocation of [n] bytes at [id] and [off] makes of a heap: the bytes
    in use stay where they are.  The size of the chunks changes only while it is
    below [limit], and the new bytes cross chunks only once it is not. *)
Record allocated (limit : nat) (h : HeapManager B) (s F n : nat) (h' : HeapManager B) (s' id off : nat) : Prop := mkAllocated {
  al_start : pos (lens (chunks_ h')) id off = F;
  al_fits : fits s' (lens (chunks_ h')) id off n;
  al_single : (limit <= s')%nat \/ exists l, lens (chunks_ h') !! id = Some l /\ (off + n <= l <= s')%nat;
  al_bytes : take F (flat (chunks_ h')) = take F (flat (chunks_ h));
  al_same : (limit <= s)%nat -> s' = s /\ lens (chunks_ h) `prefix_of` lens (chunks_ h');
  al_grow : forall id l, lens (chunks_ h) !! id = Some l -> sum_list (take id (lens (chunks_ h'))) = sum_list (take id (lens (chunks_ h))) /\ exists l', lens (chunks_ h') !! id = Some l' /\ (l <= l' <= s')%nat
}.

(** A piece of data in the heap. *)
Definition piece_ok (limit : nat) h (s F : nat) (a : nat * nat) (d : list B) : Prop :=
  (pos (lens (chunks_ h)) a.1 a.2 + length d <= F)%nat /\
  take (length d) (drop (pos (lens (chunks_ h)) a.1 a.2) (flat (chunks_ h))) = Some <$> d /\
  ((limit <= s)%nat /\ fits s (lens (chunks_ h)) a.1 a.2 (length d) \/ exists l, lens (chunks_ h) !! a.1 = Some l /\ (a.2 + length d <= l <= s)%nat).

Lemma fits_first s ls id off n : fits s ls id off n -> exists l, ls !! id = Some l.
Proof. destruct 1; eauto. Qed.

Lemma heap_in_use fresh h s F : heap_ok fresh h s F -> (F <= length (flat (chunks_ h)))%nat.
Proof.
  intros (_ & _ & _ & _ & [(-> & _ & _ & ->)|(pre & off & Hl & _ & _ & Hoff & _ & ->)]); [done|]. rewrite heap_flat_length, Hl, sum_list_with_app. cbn. lia.
Qed.

Lemma take_drop_prefix {A} (l1 l2 : list A) F p n : take F l1 = take F l2 -> (p + n <= F)%nat -> take n (drop p l1) = take n (drop p l2).
Proof.
  intros Heq Hn. rewrite !take_drop_commute. f_equal. rewrite <- (Nat.min_l (p + n) F), <- !take_take by lia. by rewrite Heq.
Qed.

(** A piece stays where it is. *)
Lemma piece_kept limit h s F n h' s' id off cs' a d :
  allocated limit h s F n h' s' id off -> piece_ok limit h s F a d -> (F <= length (flat (chunks_ h)))%nat -> lens cs' = lens (chunks_ h') -> take F (flat cs') = take F (flat (chunks_ h')) ->
  piece_ok limit (with_chunks h' cs') s' (F + n) a d.
Proof.
  intros [_ _ _ Hbytes Hsame Hgrow] (Hend & Hd & Hloc) HF Hcs Hflat. unfold piece_ok. cbn [with_chunks chunks_]. rewrite Hcs.
  assert (exists l, lens (chunks_ h) !! a.1 = Some l) as [l0 Hl0] by (destruct Hloc as [[_ Hf]|(l & Hl & _)]; [by eapply fits_first|eauto]).
  destruct (Hgrow a.1 l0 Hl0) as (Hp & l' & Hl' & Hle). assert (pos (lens (chunks_ h')) a.1 a.2 = pos (lens (chunks_ h)) a.1 a.2) as -> by (unfold pos; lia). split; [lia|]. split.
  - rewrite <- Hd. apply (take_drop_prefix _ _ F); [by rewrite Hflat|lia].
  - destruct Hloc as [[Hlim Hf]|(l & Hl & Hn)].
    + destruct (Hsame Hlim) as [-> [ls' ->]]. left. split; [done|]. by apply fits_app.
    + right. exists l'. split; [done|]. rewrite Hl in Hl0. injection Hl0 as ->. lia.
Qed.

(** Appending the data of an allocation. *)
Lemma append_allocated limit h s F h' s' id off d : allocated limit h s F (length d) h' s' id off -> (F <= length (flat (chunks_ h)))%nat -> sound (chunks_ h') ->
  current_chunk_size_ h' = Z.of_nat s' -> (0 < s')%nat -> Z.of_nat s' < 2 ^ 62 -> 
  exists cs', AppendAllocated d (h', (Z.of_nat id, Z.of_nat off)) = Ret (with_chunks h' cs', (Z.of_nat id, Z.of_nat off)) /\ lens cs' = lens (chunks_ h') /\ sound cs' /\
    piece_ok limit (with_chunks h' cs') s' (F + length d) (id, off) d /\ take F (flat cs') = take F (flat (chunks_ h')).
Proof.
  intros [Hstart Hfits Hsingle Hbytes _ _] HF Hsound Hsize Hs Hs62. unfold AppendAllocated. rewrite Hsize.
  destruct (append_loop s' (lens (chunks_ h')) id off (length d) Hfits Hs ltac:(lia) (length d + 2) (chunks_ h') (Some <$> d)) as (cs' & -> & Hl & Hsound' & Hflat); [by rewrite length_fmap|done|done|unfold enough; destruct (decide _); lia|].
  rewrite ret_bind. exists cs'. split; [done|]. split; [done|]. split; [done|]. pose proof (fits_bound _ _ _ _ _ Hfits) as Hb. rewrite <- heap_flat_length in Hb.
  rewrite Hflat, Hstart. split; [|apply overwrite_before; lia]. unfold piece_ok. cbn [with_chunks chunks_ fst snd]. rewrite Hl, Hstart, Hflat, Hstart. split; [lia|]. split.
  - rewrite <- (length_fmap Some d) at 1. apply overwrite_read. rewrite length_fmap. lia.
  - destruct Hsingle as [Hlim|(l & Hll & Hn)]; [left; by split|right; eauto].
Qed.

(** ** Allocation *)

Lemma lens_app cs1 cs2 : lens (cs1 ++ cs2) = lens cs1 ++ lens cs2.
Proof. apply fmap_app. Qed.

Lemma flat_app cs1 cs2 : flat (cs1 ++ cs2) = flat cs1 ++ flat cs2.
Proof. unfold flat. by rewrite fmap_app, concat_app. Qed.

Lemma new_chunk_lens (s : nat) : lens [NewVectorHeapChunk (B := B) (Z.of_nat s)] = [s].
Proof. unfold lens. cbn. by rewrite length_replicate, Nat2Z.id. Qed.

Lemma new_chunk_sound (s : nat) : sound [NewVectorHeapChunk (B := B) (Z.of_nat s)].
Proof. repeat constructor. cbn. rewrite length_replicate. lia. Qed.

Lemma add_chunks (s : nat) : (0 < s)%nat -> Z.of_nat s < 2 ^ 62 -> forall fuel cs rest, (rest < fuel)%nat -> Z.of_nat rest < 2 ^ 62 -> sound cs ->
  exists k r cs', AddChunks fuel (Z.of_nat s) cs (Z.of_nat rest) = Ret (cs', Z.of_nat r) /\ rest = (k * s + r)%nat /\ (r <= s)%nat /\ (0 < r \/ k = 0)%nat /\
    lens cs' = lens cs ++ replicate (S k) s /\ sound cs' /\ flat cs `prefix_of` flat cs'.
Proof.
  intros Hs Hs62. induction fuel as [|fuel IH]; intros cs rest Hf Hr Hsound; [lia|]. cbn [AddChunks]. rewrite Z.gtb_ltb. destruct (_ <? _) eqn:E; zbool.
  - unfold to_u64. rewrite u_wrap_id by (unfold u_range; lia). rewrite <- Nat2Z.inj_sub by lia.
    destruct (IH (cs ++ [NewVectorHeapChunk (Z.of_nat s)]) (rest - s)%nat) as (k & r & cs' & -> & Hk & Hrs & Hpos & Hl & Hsound' & Hflat); [lia|lia|apply Forall_app; split; [done|apply new_chunk_sound]|].
    exists (S k), r, cs'. split; [done|]. split; [lia|]. split; [done|]. split; [left; destruct Hpos; [done|subst k; lia]|]. split; [|split; [done|]].
    + by rewrite Hl, lens_app, new_chunk_lens, <- app_assoc.
    + etrans; [|exact Hflat]. rewrite flat_app. by eexists.
  - exists 0%nat, rest, (cs ++ [NewVectorHeapChunk (Z.of_nat s)]). split; [done|]. split; [lia|]. split; [lia|]. split; [lia|]. split; [by rewrite lens_app, new_chunk_lens|]. split.
    + apply Forall_app. split; [done|apply new_chunk_sound].
    + rewrite flat_app. by eexists.
Qed.

Lemma length_le_sum ls s : Forall (fun l => 0 < l <= s)%nat ls -> (length ls <= sum_list ls)%nat.
Proof. induction 1 as [|l ls Hl _ IH]; [done|]. change (sum_list (l :: ls)) with (l + sum_list ls)%nat. cbn [length]. lia. Qed.

Lemma sum_replicate k s : sum_list (replicate k s) = (k * s)%nat.
Proof. induction k as [|k IH]; [done|]. cbn [replicate]. change (sum_list (s :: replicate k s)) with (s + sum_list (replicate k s))%nat. lia. Qed.

Lemma fits_replicate s k r : (r <= s)%nat -> (0 < r \/ k = 0)%nat -> forall ls, fits s (ls ++ replicate (S k) s) (length ls) 0 (k * s + r).
Proof.
  intros Hr. induction k as [|k IH]; intros Hpos ls.
  - eapply fits_here; [|exact Hr|done]. rewrite lookup_app_r, Nat.sub_diag by done. done.
  - apply fits_next; [rewrite lookup_app_r, Nat.sub_diag by done; done|lia|destruct Hpos; lia|]. replace (S k * s + r - (s - 0))%nat with (k * s + r)%nat by lia.
    assert (ls ++ replicate (S (S k)) s = (ls ++ [s]) ++ replicate (S k) s) as -> by (rewrite <- app_assoc; done). replace (S (length ls)) with (length (ls ++ [s])) by (rewrite length_app; simpl; lia).
    apply IH. destruct Hpos; [by left|lia].
Qed.

Lemma extend_chunks (s : nat) cs rest : (0 < s)%nat -> Z.of_nat s < 2 ^ 62 -> sound cs -> Forall (fun l => 0 < l <= s)%nat (lens cs) -> Z.of_nat (sum_list (lens cs) + rest) < 2 ^ 62 ->
  exists h' ls k r, ExtendChunks (Z.of_nat s) cs (Z.of_nat rest) = Ret h' /\ rest = (k * s + r)%nat /\ (r <= s)%nat /\ (0 < r \/ k = 0)%nat /\ ls = lens cs ++ replicate k s /\
    lens (chunks_ h') = lens cs ++ replicate (S k) s /\ flat cs `prefix_of` flat (chunks_ h') /\ forall fresh, heap_ok fresh h' s (sum_list (lens cs) + rest).
Proof.
  intros Hs Hs62 Hsound Hls Hsum. unfold ExtendChunks. rewrite Nat2Z.id. destruct (add_chunks s Hs Hs62 (S rest) cs rest) as (k & r & cs' & -> & Hk & Hr & Hpos & Hl & Hsound' & Hflat); [lia|lia|done|].
  rewrite ret_bind. cbv iota beta. set (h' := mkHeapManager _ _ _ _). exists h', (lens cs ++ replicate k s), k, r. split; [done|]. split; [done|]. split; [done|]. split; [done|]. split; [done|]. split; [done|]. split; [done|]. intros fresh.
  assert (Forall (fun l => 0 < l <= s)%nat (lens cs ++ replicate k s)) as Hpre by (apply Forall_app; split; [done|apply Forall_replicate; lia]).
  pose proof (length_le_sum _ _ Hpre) as Hlen. rewrite sum_list_with_app, sum_replicate in Hlen.
  split; [done|]. split; [done|]. split; [done|]. split; [done|]. right. exists (lens cs ++ replicate k s), r. cbn [h' chunks_ current_chunk_idx_ current_chunk_offset_].
  assert (length cs' = S (length (lens cs ++ replicate k s))) as -> by (rewrite <- (length_fmap (fun c => length (ptr_ c))); fold (lens cs'); rewrite Hl, !length_app, !length_replicate; lia).
  split; [by rewrite Hl, <- app_assoc, replicate_S_end|]. split; [unfold to_u64; rewrite u_wrap_id by (unfold u_range; lia); lia|]. split; [done|]. split; [done|]. split; [done|].
  rewrite sum_list_with_app, sum_replicate. lia.
Qed.

Lemma max_value : MAX_VECTOR_CHUNK_SIZE = 1048576.
Proof. reflexivity. Qed.

Lemma grow_size need : forall fuel (s : nat), (0 < s)%nat -> Z.of_nat s < 2 ^ 62 -> MAX_VECTOR_CHUNK_SIZE <= Z.of_nat s * 2 ^ Z.of_nat fuel ->
  exists s' : nat, GrowChunkSize (S fuel) need (Z.of_nat s) = Ret (Z.of_nat s') /\ (s <= s')%nat /\ Z.of_nat s' < 2 ^ 62 /\ (need <= Z.of_nat s' \/ MAX_VECTOR_CHUNK_SIZE <= Z.of_nat s') /\
    (MAX_VECTOR_CHUNK_SIZE <= Z.of_nat s -> s' = s) /\ (Z.of_nat s < need -> Z.of_nat s < MAX_VECTOR_CHUNK_SIZE -> (s < s')%nat).
Proof.
  induction fuel as [|fuel IH]; intros s Hs Hs62 Hmax; cbn [GrowChunkSize]; destruct (_ && _) eqn:E.
  - rewrite andb_true_iff, !Z.ltb_lt in E. simpl in Hmax. lia.
  - exists s. rewrite andb_false_iff, !Z.ltb_ge in E. repeat (split; [done || lia|]). lia.
  - rewrite andb_true_iff, !Z.ltb_lt in E. pose proof max_value as HM. replace (to_u64 (Z.of_nat s * 2)) with (Z.of_nat (s * 2)) by (unfold to_u64; rewrite u_wrap_id by (unfold u_range; lia); lia).
    destruct (IH (s * 2)%nat) as (s' & Hg & Hle & H62 & Hneed & Hsame & Hlt); [lia|lia|rewrite Nat2Z.inj_succ, Z.pow_succ_r in Hmax by lia; lia|]. cbn [GrowChunkSize] in Hg. rewrite Hg. exists s'. repeat (split; [done || lia|]). lia.
  - exists s. rewrite andb_false_iff, !Z.ltb_ge in E. repeat (split; [done || lia|]). lia.
Qed.

Lemma allocated_from limit h s F n h' s' pre off k : lens (chunks_ h) = pre ++ [s] -> lens (chunks_ h') = pre ++ replicate (S k) s' -> (s <= s')%nat -> ((limit <= s)%nat -> s' = s) ->
  Forall (fun l => 0 < l <= s)%nat pre -> F = (sum_list pre + off)%nat -> take F (flat (chunks_ h')) = take F (flat (chunks_ h)) ->
  fits s' (pre ++ replicate (S k) s') (length pre) off n -> (limit <= s' \/ off + n <= s')%nat -> allocated limit h s F n h' s' (length pre) off.
Proof.
  intros Hl Hl' Hs Hsame Hpre -> Hflat Hfits Hlim. split.
  - rewrite Hl'. unfold pos. by rewrite take_app_length.
  - by rewrite Hl'.
  - destruct Hlim as [Hlim|Hn]; [by left|right]. exists s'. rewrite Hl', lookup_app_r, Nat.sub_diag by done. split; [done|lia].
  - done.
  - intros Hlims. rewrite (Hsame Hlims) in *. split; [done|]. rewrite Hl, Hl'. exists (replicate k s). by rewrite <- app_assoc.
  - intros id l. rewrite Hl, Hl'. intros Hid. destruct (decide (id < length pre)%nat) as [Hlt|Hge].
    + rewrite !take_app_le by lia. split; [done|]. rewrite lookup_app_l in Hid by done. exists l. rewrite lookup_app_l by done. split; [done|]. pose proof (Forall_lookup_1 _ _ _ _ Hpre Hid). simpl in *. lia.
    + assert (id = length pre) as -> by (apply lookup_lt_Some in Hid; rewrite length_app in Hid; simpl in Hid; lia). rewrite !take_app_length. split; [done|].
      rewrite lookup_app_r, Nat.sub_diag in Hid by done. injection Hid as <-. exists s'. rewrite lookup_app_r, Nat.sub_diag by done. split; [done|lia].
Qed.

Section Used.
Context (limit : nat) (fresh : Z) (h : HeapManager B) (s off n s' : nat) (pre : list nat) (cs : list (VectorHeapChunk B)).
Hypotheses (Hl : lens (chunks_ h) = pre ++ [s]) (Hpre : Forall (fun l => 0 < l <= s)%nat pre) (Hoff : (off <= s)%nat) (Hs : (0 < s)%nat).
Hypotheses (Hgrown : (s <= s')%nat) (Hs62 : Z.of_nat s' < 2 ^ 62) (Hsame : (limit <= s)%nat -> s' = s).
Hypotheses (Hcs : sound cs) (Hlcs : lens cs = pre ++ [s']) (Hflat : take (sum_list pre + off) (flat cs) = take (sum_list pre + off) (flat (chunks_ h))).

Lemma pre_grown : Forall (fun l => 0 < l <= s')%nat pre.
Proof. eapply Forall_impl; [exact Hpre|]. simpl. lia. Qed.

(** The bytes fit into the current chunk. *)
Lemma allocate_inside : (off + n <= s')%nat -> let h' := mkHeapManager cs (Z.of_nat s') (Z.of_nat (length pre)) (Z.of_nat (off + n)) in
  allocated limit h s (sum_list pre + off) n h' s' (length pre) off /\ heap_ok fresh h' s' (sum_list pre + off + n).
Proof.
  intros Hn h'. split.
  - apply (allocated_from _ _ _ _ _ _ _ _ _ 0); try done; [|by right]. eapply fits_here; [|exact Hn|done]. by rewrite lookup_app_r, Nat.sub_diag by done.
  - split; [done|]. split; [lia|]. split; [done|]. split; [done|]. right. exists pre, (off + n)%nat. split; [done|]. split; [done|]. split; [done|]. split; [done|]. split; [exact pre_grown|lia].
Qed.

(** The bytes fill the current chunk. *)
Lemma allocate_across : (s' <= off + n)%nat -> (limit <= s' \/ off + n <= s')%nat -> Z.of_nat (sum_list pre + off + n) < 2 ^ 62 ->
  exists h', ExtendChunks (Z.of_nat s') cs (Z.of_nat (off + n - s')) = Ret h' /\
    allocated limit h s (sum_list pre + off) n h' s' (length pre) off /\ heap_ok fresh h' s' (sum_list pre + off + n).
Proof.
  intros Hn Hlim Hsum. assert (Forall (fun l => 0 < l <= s')%nat (lens cs)) as Hls by (rewrite Hlcs; apply Forall_app; split; [exact pre_grown|repeat constructor; lia]).
  assert (sum_list (lens cs) = (sum_list pre + s')%nat) as Hsl by (rewrite Hlcs, sum_list_with_app; cbn; unfold id; lia).
  destruct (extend_chunks s' cs (off + n - s')) as (h' & ls & k & r & Hext & Hrest & Hr & Hpos & _ & Hl' & [bytes Hb] & Hok); [lia|done|done|done|rewrite Hsl; lia|].
  rewrite Hlcs, <- app_assoc in Hl'. exists h'. split; [done|]. split; [|replace (sum_list pre + off + n)%nat with (sum_list (lens cs) + (off + n - s'))%nat by (rewrite Hsl; lia); done].
  apply (allocated_from _ _ _ _ _ _ _ _ _ (S k)); try done.
  - rewrite Hb, take_app_le by (rewrite heap_flat_length, Hsl; lia). exact Hflat.
  - destruct (decide (off + n = s')%nat) as [Heq|Hne].
    + eapply fits_here; [rewrite lookup_app_r, Nat.sub_diag by done; done|lia|done].
    + apply fits_next; [rewrite lookup_app_r, Nat.sub_diag by done; done|lia|lia|]. replace (n - (s' - off))%nat with (k * s' + r)%nat by lia.
      replace (pre ++ replicate (S (S k)) s') with ((pre ++ [s']) ++ replicate (S k) s') by (by rewrite <- app_assoc).
      replace (S (length pre)) with (length (pre ++ [s'])) by (rewrite length_app; simpl; lia). by apply fits_replicate.
Qed.
End Used.

(** The first bytes of a heap without chunks. *)
Lemma allocate_first limit fresh h s s' n : chunks_ h = [] -> ((limit <= s)%nat -> s' = s) -> (0 < s')%nat -> Z.of_nat s' < 2 ^ 62 -> (limit <= s' \/ n <= s')%nat -> Z.of_nat n < 2 ^ 62 ->
  exists h', ExtendChunks (Z.of_nat s') [] (Z.of_nat n) = Ret h' /\ allocated limit h s 0 n h' s' 0 0 /\ heap_ok fresh h' s' n.
Proof.
  intros Hcs Hsame Hs' Hs62 Hlim Hn. destruct (extend_chunks s' [] n) as (h' & ls & k & r & Hext & Hrest & Hr & Hpos & _ & Hl' & _ & Hok); [done|done|constructor|constructor|cbn; lia|].
  exists h'. split; [done|]. split; [|apply Hok]. cbn [lens fmap list_fmap app] in Hl'. split; rewrite ?Hcs.
  - done.
  - rewrite Hl', Hrest. apply (fits_replicate s' k r Hr Hpos []).
  - destruct Hlim as [|Hlim]; [by left|right]. exists s'. rewrite Hl'. split; [done|lia].
  - done.
  - intros Hlims. split; [by apply Hsame|]. by eexists.
  - intros id l Hid. done.
Qed.

(** What the managers ask of their [Allocate]. *)
Class HeapAllocator (allocate : HeapManager B -> Z -> outcome (HeapManager B * (Z * Z))) (limit : nat) (fresh : Z) : Prop :=
  allocate_ok : forall h s F n, heap_ok fresh h s F -> (0 < n)%nat -> Z.of_nat (F + n) < 2 ^ 62 ->
    exists h' s' id off, allocate h (Z.of_nat n) = Ret (h', (Z.of_nat id, Z.of_nat off)) /\ allocated limit h s F n h' s' id off /\ heap_ok fresh h' s' (F + n).

Definition max_chunk : nat := Z.to_nat MAX_VECTOR_CHUNK_SIZE.

Lemma max_chunk_z : Z.of_nat max_chunk = MAX_VECTOR_CHUNK_SIZE.
Proof. unfold max_chunk. by rewrite Z2Nat.id. Qed.

#[local] Opaque max_chunk.

Lemma var_grow h s off n pre : sound (chunks_ h) -> current_chunk_size_ h = Z.of_nat s -> lens (chunks_ h) = pre ++ [s] -> current_chunk_idx_ h = Z.of_nat (length pre) -> current_chunk_offset_ h = Z.of_nat off ->
  (off <= s)%nat -> Forall (fun l => 0 < l <= s)%nat pre -> (0 < s)%nat -> Z.of_nat s < MAX_VECTOR_CHUNK_SIZE -> (s < off + n)%nat -> Z.of_nat (sum_list pre + off + n) < 2 ^ 62 ->
  exists h' s', Var_AllocateGrow h (Z.of_nat n) = Ret h' /\ allocated max_chunk h s (sum_list pre + off) n h' s' (length pre) off /\ heap_ok INITIAL_VECTOR_CHUNK_ID h' s' (sum_list pre + off + n).
Proof.
  intros Hsound Hsize Hl Hidx Hoffset Hoff Hpre Hs Hmax Hn Hsum. pose proof max_chunk_z as HM. pose proof max_value as HM'. unfold Var_AllocateGrow. rewrite Hsize, Hidx, Hoffset.
  replace (to_u64 (Z.of_nat off + Z.of_nat n)) with (Z.of_nat (off + n)) by (rewrite Nat2Z.inj_add; symmetry; apply u_wrap_id; unfold u_range; lia).
  destruct (grow_size (Z.of_nat (off + n)) 21 s Hs) as (s' & -> & Hle & Hs62 & Hneed & _ & Hlt); [lia|lia|]. specialize (Hlt ltac:(lia) Hmax). rewrite ret_bind.
  destruct (lookup_lt_is_Some_2 (chunks_ h) (length pre)) as [c Hc]; [rewrite <- (length_fmap (fun c => length (ptr_ c))); fold (lens (chunks_ h)); rewrite Hl, length_app; simpl; lia|].
  assert (length (ptr_ c) = s) as Hcl. { assert (lens (chunks_ h) !! length pre = Some s) as E by (by rewrite Hl, lookup_app_r, Nat.sub_diag by done). unfold lens in E. rewrite list_lookup_fmap, Hc in E. by injection E. }
  rewrite at_index_nat, Hc, ret_bind, (Forall_lookup_1 _ _ _ _ Hsound Hc), Hcl, Z.gtb_ltb, (proj2 (Z.ltb_lt (Z.of_nat s) (Z.of_nat s'))) by lia.
  change 0 with (Z.of_nat 0). rewrite read_at_in, ret_bind, drop_0 by lia. cbn [NewVectorHeapChunk ptr_]. rewrite Nat2Z.id.
  rewrite array_write_at, ret_bind by (rewrite length_take, length_replicate; lia). set (bytes := take 0 _ ++ _).
  rewrite set_index_in by (apply lookup_lt_Some in Hc; lia). rewrite Nat2Z.id, ret_bind. set (cs := <[_ := _]> _).
  assert (length bytes = s') as Hbl by (unfold bytes; rewrite !length_app, !length_take, length_drop, length_replicate; lia).
  assert (lens cs = pre ++ [s']) as Hlcs.
  { unfold cs, lens. rewrite list_fmap_insert. fold (lens (chunks_ h)). rewrite Hl, insert_app_r_alt, Nat.sub_diag by done. cbn [ptr_]. by rewrite Hbl. }
  assert (sound cs) as Hcs by (apply Forall_insert; [done|cbn; by rewrite Hbl]).
  assert (take (sum_list pre + off) (flat cs) = take (sum_list pre + off) (flat (chunks_ h))) as Hflat.
  { unfold cs. rewrite (flat_split (<[length pre := _]> (chunks_ h)) (length pre) (mkVectorHeapChunk bytes (Z.of_nat s'))) by (apply list_lookup_insert_eq; by eapply lookup_lt_Some).
    rewrite take_insert_ge, (flat_split (chunks_ h) (length pre) c Hc) by done. assert (length (flat (take (length pre) (chunks_ h))) = sum_list pre) as Hp by (rewrite heap_flat_length, lens_take, Hl, take_app_length; done).
    rewrite <- Hp, !take_app_add', !take_app_le by (cbn [ptr_]; lia). f_equal. cbn [ptr_]. unfold bytes. rewrite take_0, app_nil_l. apply take_app_length'. rewrite length_take. lia. }
  destruct (_ <? _) eqn:E; zbool.
  - eexists _, s'. split; [done|]. apply (allocate_inside max_chunk _ h s off n s' pre cs Hl Hpre Hoff Hs Hle Hs62 ltac:(lia) Hcs Hlcs Hflat). lia.
  - replace (to_u64 (Z.of_nat n - to_u64 (Z.of_nat s' - Z.of_nat off))) with (Z.of_nat (off + n - s')).
    + destruct (allocate_across max_chunk INITIAL_VECTOR_CHUNK_ID h s off n s' pre cs Hl Hpre Hoff Hs Hle Hs62 ltac:(lia) Hcs Hlcs Hflat ltac:(lia) ltac:(lia) Hsum) as (h' & Hext & Hal & Hok).
      exists h', s'. split; [exact Hext|]. split; [exact Hal|exact Hok].
    + rewrite remain_eq by lia. rewrite <- Nat2Z.inj_sub by lia. unfold to_u64. rewrite u_wrap_id by (unfold u_range; lia). f_equal. lia.
Qed.

#[export] Instance var_allocator : HeapAllocator Var_Allocate max_chunk INITIAL_VECTOR_CHUNK_ID.
Proof.
  intros h s F n Hok Hn Hsum. pose proof max_chunk_z as HM. pose proof max_value as HM'. assert (INITIAL_VECTOR_CHUNK_ID = 2 ^ 64 - 1) as HI by reflexivity.
  destruct Hok as (Hsize & Hs & Hs62 & Hsound & [(Hcs & Hidx & Hoffset & ->)|(pre & off & Hl & Hidx & Hoffset & Hoff & Hpre & ->)]); unfold Var_Allocate; rewrite (proj2 (Z.eqb_neq (Z.of_nat n) 0)), Hidx, Hsize by lia.
  - rewrite Z.eqb_refl. destruct (grow_size (Z.of_nat n) 21 s Hs) as (s' & -> & Hle & Hs62' & Hneed & Hsame & _); [lia|lia|]. rewrite ret_bind, Hcs.
    destruct (allocate_first max_chunk INITIAL_VECTOR_CHUNK_ID h s s' n Hcs ltac:(lia) ltac:(lia) Hs62' ltac:(lia) ltac:(lia)) as (h' & -> & Hal & Hok). rewrite ret_bind. exists h', s', 0%nat, 0%nat. split; [reflexivity|]. split; [exact Hal|exact Hok].
  - pose proof (length_le_sum _ _ Hpre) as Hlen. rewrite (proj2 (Z.eqb_neq _ _)) by lia. rewrite Hoffset.
    replace (to_u64 (Z.of_nat off + Z.of_nat n)) with (Z.of_nat (off + n)) by (rewrite Nat2Z.inj_add; symmetry; apply u_wrap_id; unfold u_range; lia). rewrite Z.gtb_ltb. destruct (Z.of_nat s <? _) eqn:E; zbool.
    + destruct (Z.of_nat s <? MAX_VECTOR_CHUNK_SIZE) eqn:Emax; zbool.
      * destruct (var_grow h s off n pre Hsound Hsize Hl Hidx Hoffset Hoff Hpre Hs Emax ltac:(lia) Hsum) as (h' & s' & -> & Hal & Hok). rewrite ret_bind. exists h', s', (length pre), off. split; [reflexivity|]. split; [exact Hal|exact Hok].
      * rewrite remain_eq, <- Nat2Z.inj_sub by lia. unfold to_u64. rewrite u_wrap_id by (unfold u_range; lia). replace (n - (s - off))%nat with (off + n - s)%nat by lia.
        destruct (allocate_across max_chunk INITIAL_VECTOR_CHUNK_ID h s off n s pre (chunks_ h) Hl Hpre Hoff Hs ltac:(lia) Hs62 ltac:(lia) Hsound Hl eq_refl ltac:(lia) ltac:(lia) Hsum) as (h' & -> & Hal & Hok).
        rewrite ret_bind. exists h', s, (length pre), off. split; [reflexivity|]. split; [exact Hal|exact Hok].
    + exists (with_offset h (Z.of_nat (off + n))), s, (length pre), off. split; [reflexivity|]. unfold with_offset. rewrite Hsize, Hidx.
      apply (allocate_inside max_chunk _ h s off n s pre (chunks_ h) Hl Hpre Hoff Hs ltac:(lia) Hs62 ltac:(lia) Hsound Hl eq_refl). lia.
Qed.

(** The first chunk of a [FixHeapManager] is added before the bytes are placed. *)
Lemma allocated_empty h h1 s n h' s' id off : chunks_ h = [] -> allocated 0 h1 s 0 n h' s' id off -> allocated 0 h s 0 n h' s' id off.
Proof.
  intros Hcs [H1 H2 H3 H4 H5 H6]. split; [done|done|done|done| |].
  - intros Hlim. destruct (H5 Hlim) as [-> _]. split; [done|]. rewrite Hcs. by eexists.
  - rewrite Hcs. intros i l Hi. done.
Qed.

Lemma fix_used h s off n pre : heap_ok 0 h s (sum_list pre + off) -> lens (chunks_ h) = pre ++ [s] -> current_chunk_idx_ h = Z.of_nat (length pre) -> current_chunk_offset_ h = Z.of_nat off ->
  (off <= s)%nat -> Forall (fun l => 0 < l <= s)%nat pre -> (0 < n)%nat -> Z.of_nat (sum_list pre + off + n) < 2 ^ 62 ->
  exists h' id off', Fix_Allocate h (Z.of_nat n) = Ret (h', (Z.of_nat id, Z.of_nat off')) /\ allocated 0 h s (sum_list pre + off) n h' s id off' /\ heap_ok 0 h' s (sum_list pre + off + n).
Proof.
  intros (Hsize & Hs & Hs62 & Hsound & _) Hl Hidx Hoffset Hoff Hpre Hn Hsum. unfold Fix_Allocate. rewrite (proj2 (Z.eqb_neq (Z.of_nat n) 0)), Hidx, Hsize, Hoffset by lia.
  assert (match chunks_ h with [] => [NewVectorHeapChunk (Z.of_nat s)] | c :: cs => c :: cs end = chunks_ h) as -> by (destruct (chunks_ h); [destruct pre; discriminate Hl|done]).
  replace (to_u64 (Z.of_nat off + Z.of_nat n)) with (Z.of_nat (off + n)) by (rewrite Nat2Z.inj_add; symmetry; apply u_wrap_id; unfold u_range; lia). rewrite Z.gtb_ltb. destruct (Z.of_nat s <? _) eqn:E; zbool.
  - rewrite remain_eq, <- Nat2Z.inj_sub by lia. unfold to_u64. rewrite u_wrap_id by (unfold u_range; lia). replace (n - (s - off))%nat with (off + n - s)%nat by lia.
    destruct (allocate_across 0 0 h s off n s pre (chunks_ h) Hl Hpre Hoff Hs ltac:(lia) Hs62 ltac:(lia) Hsound Hl eq_refl ltac:(lia) ltac:(lia) Hsum) as (h' & -> & Hal & Hok).
    rewrite ret_bind. exists h', (length pre), off. split; [reflexivity|]. split; [exact Hal|exact Hok].
  - eexists _, (length pre), off. split; [done|]. apply (allocate_inside 0 0 h s off n s pre (chunks_ h) Hl Hpre Hoff Hs ltac:(lia) Hs62 ltac:(lia) Hsound Hl eq_refl). lia.
Qed.

#[export] Instance fix_allocator : HeapAllocator Fix_Allocate 0 0.
Proof.
  intros h s F n Hok Hn Hsum. pose proof Hok as (Hsize & Hs & Hs62 & Hsound & [(Hcs & Hidx & Hoffset & ->)|(pre & off & Hl & Hidx & Hoffset & Hoff & Hpre & ->)]).
  - set (h1 := mkHeapManager [NewVectorHeapChunk (B := B) (Z.of_nat s)] (Z.of_nat s) 0 0).
    assert (heap_ok 0 h1 s (sum_list [] + 0)) as Hok1.
    { split; [done|]. split; [done|]. split; [done|]. split; [apply new_chunk_sound|]. right. exists [], 0%nat. split; [apply new_chunk_lens|]. repeat (split; [done || lia|]). done. }
    destruct (fix_used h1 s 0 n [] Hok1 (new_chunk_lens s) eq_refl eq_refl ltac:(lia) ltac:(constructor) Hn ltac:(cbn; lia)) as (h' & id & off & Halloc & Hal & Hok').
    exists h', s, id, off. split; [|split; [by apply (allocated_empty h h1)|done]]. rewrite <- Halloc. unfold Fix_Allocate. by rewrite Hsize, Hcs, Hidx, Hoffset.
  - destruct (fix_used h s off n pre Hok Hl Hidx Hoffset Hoff Hpre Hn Hsum) as (h' & id & off' & ? & ? & ?). exists h', s, id, off'. done.
Qed.
(** ** Appending and reading *)

Definition append_with (allocate : HeapManager B -> Z -> outcome (HeapManager B * (Z * Z))) h (d : list B) : outcome (HeapManager B * (Z * Z)) :=
  allocated ← allocate h (Z.of_nat (length d)); AppendAllocated d allocated.

(** The addresses of all pieces of data. *)
Fixpoint append_all (append : HeapManager B -> list B -> outcome (HeapManager B * (Z * Z))) h (ds : list (list B)) : outcome (HeapManager B * list (Z * Z)) :=
  match ds with
  | [] => Ret (h, [])
  | d :: ds => '(h, a) ← append h d; '(h, l) ← append_all append h ds; Ret (h, a :: l)
  end.

Section Log.
Context (allocate : HeapManager B -> Z -> outcome (HeapManager B * (Z * Z))) (limit : nat) (fresh : Z) `{HA : !HeapAllocator allocate limit fresh}.

Definition address (a : nat * nat) : Z * Z := (Z.of_nat a.1, Z.of_nat a.2).

Lemma heap_ok_chunks h s F cs : heap_ok fresh h s F -> chunks_ h <> [] -> lens cs = lens (chunks_ h) -> sound cs -> heap_ok fresh (with_chunks h cs) s F.
Proof.
  intros (Hsize & Hs & Hs62 & _ & Huse) Hne Hl Hsound. split; [done|]. split; [done|]. split; [done|]. split; [done|]. destruct Huse as [(Hcs & _)|(pre & off & Hpre & Huse)]; [done|].
  right. exists pre, off. cbn [with_chunks chunks_]. by rewrite Hl.
Qed.

Lemma append_ok h s F d : heap_ok fresh h s F -> d <> [] -> Z.of_nat (F + length d) < 2 ^ 62 ->
  exists h' s' a, append_with allocate h d = Ret (h', address a) /\ heap_ok fresh h' s' (F + length d) /\ piece_ok limit h' s' (F + length d) a d /\
    forall b e, piece_ok limit h s F b e -> piece_ok limit h' s' (F + length d) b e.
Proof.
  intros Hok Hd Hsum. pose proof (heap_in_use _ _ _ _ Hok) as HF. destruct (allocate_ok h s F (length d) Hok) as (h1 & s' & id & off & Halloc & Hal & Hok1); [destruct d; [done|simpl; lia]|done|].
  pose proof Hok1 as (Hsize & Hs' & Hs62 & Hsound & _). destruct (append_allocated limit h s F h1 s' id off d Hal HF Hsound Hsize Hs' Hs62) as (cs & Happ & Hl & Hcs & Hpiece & Hflat).
  exists (with_chunks h1 cs), s', (id, off). unfold append_with. rewrite Halloc, ret_bind. split; [done|]. split; [|split; [done|]].
  - apply heap_ok_chunks; [done| |done|done]. intros E. destruct (fits_first _ _ _ _ _ (al_fits _ _ _ _ _ _ _ _ _ Hal)) as [l Hl']. by rewrite E in Hl'.
  - intros b e Hb. by apply (piece_kept limit h s F (length d) h1 s' id off cs b e).
Qed.

Lemma piece_read h s F a d : heap_ok fresh h s F -> piece_ok limit h s F a d ->
  ReadLoop (length d + 2) (current_chunk_size_ h) (chunks_ h) (address a).1 (address a).2 (Z.of_nat (length d)) = Ret (Some <$> d).
Proof.
  intros (Hsize & Hs & Hs62 & _) (_ & Hd & Hloc). rewrite Hsize. cbn [address fst snd]. rewrite (read_loop s (lens (chunks_ h)) a.1 a.2 (length d)); [by rewrite Hd| |done|lia|done|unfold enough; destruct (decide _); lia].
  destruct Hloc as [[_ Hf]|(l & Hl & Hn)]; [done|]. apply (fits_here _ _ _ _ _ l); [done|lia|lia].
Qed.

Lemma append_all_ok ds : forall h s F, heap_ok fresh h s F -> Forall (fun d => d <> []) ds -> Z.of_nat (F + length (concat ds)) < 2 ^ 62 ->
  exists h' s' al, append_all (append_with allocate) h ds = Ret (h', address <$> al) /\ heap_ok fresh h' s' (F + length (concat ds)) /\ Forall2 (piece_ok limit h' s' (F + length (concat ds))) al ds /\
    forall b e, piece_ok limit h s F b e -> piece_ok limit h' s' (F + length (concat ds)) b e.
Proof.
  induction ds as [|d ds IH]; intros h s F Hok Hds Hsum; cbn [append_all concat].
  - exists h, s, []. rewrite Nat.add_0_r. repeat (split; [done|]). done.
  - apply Forall_cons in Hds as [Hd Hds]. cbn [concat] in Hsum. rewrite length_app in Hsum |- *. destruct (append_ok h s F d Hok Hd) as (h1 & s1 & a & -> & Hok1 & Hpiece & Hkept); [lia|].
    rewrite ret_bind. cbv iota beta. destruct (IH h1 s1 (F + length d)%nat Hok1 Hds) as (h' & s' & al & -> & Hok' & Hall & Hkept'); [lia|]. rewrite ret_bind. cbv iota beta. rewrite Nat.add_assoc.
    exists h', s', (a :: al). split; [done|]. split; [done|]. split; [|by auto]. constructor; [by apply Hkept'|done].
Qed.
End Log.

(** ** Copying between heaps *)

Lemma fits_now s ls id off n c : fits s ls id off n -> (c <= n)%nat -> (c <= s - off)%nat -> exists l, ls !! id = Some l /\ (off + c <= l)%nat.
Proof. intros [id' off' n' l Hl Hn Hs|id' off' n' Hl Hoff Hn _] Hc Hcs; eexists; (split; [done|lia]). Qed.

Lemma fits_le s ls id off n : fits s ls id off n -> (off <= s)%nat.
Proof. destruct 1; lia. Qed.

(** Where the loop goes on after [c] bytes. *)
Definition advance (s id off c : nat) : nat * nat := if decide (s - off = c)%nat then (S id, 0%nat) else (id, (off + c)%nat).

Lemma fits_advance s ls id off n c : fits s ls id off n -> (c < n)%nat -> (c <= s - off)%nat -> fits s ls (advance s id off c).1 (advance s id off c).2 (n - c).
Proof.
  intros [id' off' n' l Hl Hn Hs|id' off' n' Hl Hoff Hn Hf] Hc Hcs; unfold advance; destruct (decide _) as [E|E]; cbn [fst snd].
  - lia.
  - apply (fits_here _ _ _ _ _ l); [done|lia|done].
  - by rewrite <- E.
  - apply fits_next; [done|lia|lia|]. by replace (n' - c - (s - (off' + c)))%nat with (n' - (s - off'))%nat by lia.
Qed.

Lemma pos_advance s ls id off n c : fits s ls id off n -> (c < n)%nat -> (c <= s - off)%nat -> pos ls (advance s id off c).1 (advance s id off c).2 = (pos ls id off + c)%nat.
Proof.
  intros Hf Hc Hcs. pose proof (fits_le _ _ _ _ _ Hf). unfold advance. destruct (decide _) as [E|E]; cbn [fst snd]; [|unfold pos; lia].
  destruct Hf as [id' off' n' l Hl Hn Hs|id' off' n' Hl Hoff Hn _]; [lia|]. rewrite (pos_next _ _ _ Hl). unfold pos. lia.
Qed.

Lemma advance_z (s id off c : nat) : (c <= s - off)%nat ->
  (if Z.of_nat (s - off) - Z.of_nat c =? 0 then (Z.of_nat id + 1, 0) else (Z.of_nat id, Z.of_nat off + Z.of_nat c)) = address (advance s id off c).
Proof.
  intros Hc. unfold advance, address. destruct (decide _); destruct (_ =? _) eqn:E; zbool; cbn [fst snd]; [f_equal; lia|lia|lia|f_equal; lia].
Qed.

Lemma copy_size (n r1 r2 : nat) : (if Z.of_nat n >? Z.of_nat r2 then Z.min (Z.of_nat r1) (Z.of_nat r2) else Z.min (Z.of_nat r1) (Z.of_nat n)) = Z.of_nat ((n `min` r1) `min` r2).
Proof. rewrite Z.gtb_ltb. destruct (_ <? _) eqn:E; zbool; lia. Qed.

Lemma heap_copy_loop (s ss : nat) (src : HeapManager B) : (0 < s)%nat -> (0 < ss)%nat -> Z.of_nat s < 2 ^ 63 -> Z.of_nat ss < 2 ^ 63 -> current_chunk_size_ src = Z.of_nat ss ->
  forall fuel cs id off sid soff n, (0 < n)%nat -> fits s (lens cs) id off n -> fits ss (lens (chunks_ src)) sid soff n -> sound cs -> (n + (if decide (off < s /\ soff < ss)%nat then 1 else 2) <= fuel)%nat ->
  exists cs', CopyLoop fuel (Z.of_nat s) cs src (Z.of_nat id) (Z.of_nat off) (Z.of_nat sid) (Z.of_nat soff) (Z.of_nat n) = Ret cs' /\ lens cs' = lens cs /\ sound cs' /\
    flat cs' = overwrite (flat cs) (pos (lens cs) id off) (take n (drop (pos (lens (chunks_ src)) sid soff) (flat (chunks_ src)))).
Proof.
  intros Hs Hss Hs63 Hss63 Hsrc. induction fuel as [|fuel IH]; intros cs id off sid soff n Hn Hf Hfs Hsound Hfuel; [lia|].
  pose proof (fits_le _ _ _ _ _ Hf) as Hoff. pose proof (fits_le _ _ _ _ _ Hfs) as Hsoff. pose proof (fits_bound _ _ _ _ _ Hf) as Hb. pose proof (fits_bound _ _ _ _ _ Hfs) as Hbs. rewrite <- heap_flat_length in Hb, Hbs.
  cbn [CopyLoop]. rewrite Z.gtb_ltb, (proj2 (Z.ltb_lt _ _)), Hsrc, !remain_eq, copy_size by lia. set (c := ((n `min` (s - off)) `min` (ss - soff))%nat).
  destruct (fits_now _ _ _ _ _ c Hf) as (l & Hl & Hcl); [lia|lia|]. destruct (fits_now _ _ _ _ _ c Hfs) as (l' & Hl' & Hcl'); [lia|lia|].
  rewrite (read_chunk _ _ _ _ l' Hl' Hcl'), ret_bind. set (P' := pos (lens (chunks_ src)) sid soff). assert (length (take c (drop P' (flat (chunks_ src)))) = c) as Hlen by (rewrite length_take, length_drop; lia).
  destruct (write_chunk cs id off (take c (drop P' (flat (chunks_ src)))) l Hsound Hl) as (cs1 & -> & Hl1 & Hs1 & Hf1); [by rewrite Hlen|]. rewrite ret_bind, !advance_z by lia. cbn [address]. cbv iota beta.
  rewrite <- Nat2Z.inj_sub by lia. destruct (decide (c = n)) as [Heq|Hne].
  - replace (n - c)%nat with 0%nat by lia. exists cs1. rewrite <- Heq. split; [|done]. destruct fuel; [|done]. destruct (decide _); lia.
  - destruct (IH cs1 (advance s id off c).1 (advance s id off c).2 (advance ss sid soff c).1 (advance ss sid soff c).2 (n - c)%nat) as (cs' & -> & Hl2 & Hs2 & Hf2).
    + lia.
    + rewrite Hl1. apply fits_advance; [done|lia|lia].
    + apply fits_advance; [done|lia|lia].
    + done.
    + rewrite decide_True by (unfold advance; repeat (destruct (decide _)); cbn [fst snd]; lia). destruct (decide _); lia.
    + exists cs'. split; [done|]. split; [by rewrite Hl2|]. split; [done|]. rewrite Hf2, Hf1, Hl1, (pos_advance _ _ _ _ n), (pos_advance _ _ _ _ n) by (done || lia). fold P'.
      rewrite <- Hlen at 2. rewrite overwrite_two by (rewrite Hlen, length_take, length_drop; lia). f_equal. rewrite <- drop_drop, take_take_drop. f_equal. lia.
Qed.

Lemma new_heap_ok fresh (s : nat) : (0 < s)%nat -> Z.of_nat s < 2 ^ 62 -> heap_ok fresh (mkHeapManager (B := B) [] (Z.of_nat s) fresh 0) s 0.
Proof. intros Hs Hs62. split; [done|]. split; [done|]. split; [done|]. split; [constructor|]. left. done. Qed.

Lemma pieces_read limit fresh h s F al ds : heap_ok fresh h s F -> Forall2 (piece_ok limit h s F) al ds ->
  Forall2 (fun a d => ReadLoop (length d + 2) (current_chunk_size_ h) (chunks_ h) a.1 a.2 (Z.of_nat (length d)) = Ret (Some <$> d)) (address <$> al) ds.
Proof. intros Hok Hall. rewrite Forall2_fmap_l. eapply Forall2_impl; [exact Hall|]. intros a d Hd. by apply (piece_read limit fresh h s F). Qed.

(** C24: The heap of strings keeps what is appended: after any sequence of pieces
    of data was appended to a new [VarHeapManager], whatever its first chunk size,
    each piece is read back from the chunk and offset that its [AppendToHeap]
    returned, although the chunks were replaced by larger ones in between and
    pieces cross the boundaries of chunks; no access leaves a chunk. *)
Theorem var_heap_keeps_data (chunk_size : nat) (ds : list (list B)) : (0 < chunk_size)%nat -> Z.of_nat chunk_size < 2 ^ 62 -> Forall (fun d => d <> []) ds -> Z.of_nat (length (concat ds)) < 2 ^ 62 ->
  exists h al, append_all Var_AppendToHeap (NewVarHeapManager (Z.of_nat chunk_size)) ds = Ret (h, al) /\
    Forall2 (fun a d => Var_ReadFromHeap h a.1 a.2 (Z.of_nat (length d)) = Ret (Some <$> d)) al ds.
Proof.
  intros Hs Hs62 Hds Hsum. destruct (append_all_ok Var_Allocate max_chunk INITIAL_VECTOR_CHUNK_ID ds _ _ 0 (new_heap_ok _ chunk_size Hs Hs62) Hds Hsum) as (h & s & al & Happ & Hok & Hall & _).
  exists h, (address <$> al). split; [exact Happ|]. unfold Var_ReadFromHeap. eapply Forall2_impl; [exact (pieces_read _ _ _ _ _ _ _ Hok Hall)|]. intros a d. by rewrite Nat2Z.id.
Qed.

(** What was copied from another heap. *)
Lemma copy_piece h s F src ss G b e : heap_ok 0 h s F -> heap_ok 0 src ss G -> piece_ok 0 src ss G b e -> e <> [] -> Z.of_nat (F + length e) < 2 ^ 62 ->
  exists h' s' a, Fix_AppendFrom h src (address b).1 (address b).2 (Z.of_nat (length e)) = Ret (h', address a) /\ heap_ok 0 h' s' (F + length e) /\ piece_ok 0 h' s' (F + length e) a e /\
    forall c d, piece_ok 0 h s F c d -> piece_ok 0 h' s' (F + length e) c d.
Proof.
  intros Hok (Hsrc & Hss & Hss62 & _ & _) (_ & He & Hloc) Hne Hsum. pose proof (heap_in_use _ _ _ _ Hok) as HF. assert (0 < length e)%nat as Hpos by (destruct e; [done|simpl; lia]).
  destruct (allocate_ok h s F (length e) Hok Hpos Hsum) as (h1 & s' & id & off & Halloc & Hal & Hok1). pose proof Hok1 as (Hsize & Hs' & Hs62 & Hsound & _). pose proof Hal as [Hstart Hfits _ _ _ _].
  assert (fits ss (lens (chunks_ src)) b.1 b.2 (length e)) as Hfs by (destruct Hloc as [[_ Hf]|(l & Hl & Hn)]; [done|apply (fits_here _ _ _ _ _ l); [done|lia|lia]]).
  destruct (heap_copy_loop s' ss src Hs' Hss ltac:(lia) ltac:(lia) Hsrc (length e + 2) (chunks_ h1) id off b.1 b.2 (length e) Hpos Hfits Hfs Hsound ltac:(destruct (decide _); lia)) as (cs & Hcopy & Hl & Hcs & Hflat).
  pose proof (fits_bound _ _ _ _ _ Hfits) as Hb. rewrite <- heap_flat_length, Hstart in Hb. rewrite He, Hstart in Hflat. assert (length (Some <$> e) = length e) as Hle by apply length_fmap.
  exists (with_chunks h1 cs), s', (id, off). unfold Fix_AppendFrom. rewrite Halloc, ret_bind. cbv iota beta. rewrite Nat2Z.id, Hsize. cbn [address fst snd]. rewrite Hcopy, ret_bind. split; [done|].
  assert (take F (flat cs) = take F (flat (chunks_ h1))) as Hbefore by (rewrite Hflat; apply overwrite_before; lia). split; [|split].
  - apply heap_ok_chunks; [done| |done|done]. intros E. destruct (fits_first _ _ _ _ _ Hfits) as [l Hl']. by rewrite E in Hl'.
  - unfold piece_ok. cbn [with_chunks chunks_ fst snd]. rewrite Hl, Hstart, Hflat. split; [lia|]. split; [rewrite <- Hle at 1; apply overwrite_read; lia|]. left. split; [lia|done].
  - intros c d Hd. by apply (piece_kept 0 h s F (length e) h1 s' id off cs c d).
Qed.

(** The heap of fixed chunks keeps what is appended and what is copied from
    another heap: a piece of the heap [src], of any chunk size, that was copied to
    the heap [h] is read back from where [AppendToHeap] put it, and all that [h]
    held before is where it was. *)
Theorem fix_heap_copies (size src_size : nat) (ds es : list (list B)) : (0 < size)%nat -> Z.of_nat size < 2 ^ 62 -> (0 < src_size)%nat -> Z.of_nat src_size < 2 ^ 62 ->
  Forall (fun d => d <> []) (ds ++ es) -> Z.of_nat (length (concat ds) + length (concat es)) < 2 ^ 62 ->
  exists h al src bl, append_all Fix_AppendToHeap (NewFixHeapManager (Z.of_nat size)) ds = Ret (h, al) /\ append_all Fix_AppendToHeap (NewFixHeapManager (Z.of_nat src_size)) es = Ret (src, bl) /\
    forall i b e, bl !! i = Some b -> es !! i = Some e -> exists h' a, Fix_AppendFrom h src b.1 b.2 (Z.of_nat (length e)) = Ret (h', a) /\
      Forall2 (fun a d => Fix_ReadFromHeap h' a.1 a.2 (Z.of_nat (length d)) = Ret (Some <$> d)) (al ++ [a]) (ds ++ [e]).
Proof.
  intros Hs Hs62 Hss Hss62 [Hds Hes]%Forall_app Hsum. destruct (append_all_ok Fix_Allocate 0 0 ds _ _ 0 (new_heap_ok _ size Hs Hs62) Hds ltac:(lia)) as (h & s & al & Happ & Hok & Hall & _).
  destruct (append_all_ok Fix_Allocate 0 0 es _ _ 0 (new_heap_ok _ src_size Hss Hss62) Hes ltac:(lia)) as (src & ss & bl & Hsrc & Hoks & Halls & _).
  exists h, (address <$> al), src, (address <$> bl). split; [exact Happ|]. split; [exact Hsrc|]. intros i b e Hb He. apply list_lookup_fmap_Some in Hb as (b' & -> & Hb').
  destruct (Forall2_lookup_l _ _ _ _ _ Halls Hb') as (e' & He' & Hp). rewrite He in He'. injection He' as <-. pose proof (Forall_lookup_1 _ _ _ _ Hes He) as Hne.
  assert (length e <= length (concat es))%nat as Hle. { rewrite <- (take_drop_middle _ _ _ He), concat_app. cbn [concat]. rewrite !length_app. lia. }
  destruct (copy_piece h s _ src ss _ b' e Hok Hoks Hp Hne ltac:(lia)) as (h' & s' & a & Hcopy & Hok' & Hpiece & Hkept). exists h', (address a). split; [exact Hcopy|].
  assert (Forall2 (piece_ok 0 h' s' (0 + length (concat ds) + length e)) (al ++ [a]) (ds ++ [e])) as Hall'.
  { apply Forall2_app; [eapply Forall2_impl; [exact Hall|]; intros; by apply Hkept|]. constructor; [exact Hpiece|constructor]. }
  pose proof (pieces_read _ _ _ _ _ _ _ Hok' Hall') as Hreads. rewrite fmap_app in Hreads. unfold Fix_ReadFromHeap. eapply Forall2_impl; [exact Hreads|]. intros c d. by rewrite Nat2Z.id.
Qed.
End Chunks.

Lemma var_heap_keeps_data_witness : (0 < 4096)%nat /\ Forall (fun d => d <> []) [[1; 2]; [3]] /\
  exists h al, append_all Var_AppendToHeap (NewVarHeapManager (Z.of_nat 4096)) [[1; 2]; [3]] = Ret (h, al) /\
    Forall2 (fun a d => Var_ReadFromHeap h a.1 a.2 (Z.of_nat (length d)) = Ret (Some <$> d)) al [[1; 2]; [3]].
Proof. split; [lia|]. split; [by repeat constructor|]. apply (var_heap_keeps_data 4096 [[1; 2]; [3]]); [lia|lia|by repeat constructor|simpl; lia]. Defined.

Lemma fix_heap_copies_witness : Forall (fun d => d <> []) [[1; 2]; [3; 4; 5]] /\
  exists h al src bl, append_all Fix_AppendToHeap (NewFixHeapManager (Z.of_nat 4)) [[1; 2]] = Ret (h, al) /\ append_all Fix_AppendToHeap (NewFixHeapManager (Z.of_nat 2)) [[3; 4; 5]] = Ret (src, bl) /\
    (bl !! 0%nat = Some (0, 0) -> exists h' a, Fix_AppendFrom h src 0 0 3 = Ret (h', a)).
Proof.
  split; [by repeat constructor|]. destruct (fix_heap_copies 4 2 [[1; 2]] [[3; 4; 5]] ltac:(lia) ltac:(lia) ltac:(lia) ltac:(lia) ltac:(by repeat constructor) ltac:(simpl; lia)) as (h & al & src & bl & Hh & Hsrc & Hcopy).
  exists h, al, src, bl. split; [exact Hh|]. split; [exact Hsrc|]. intros Hb. destruct (Hcopy 0%nat (0, 0) [3; 4; 5] Hb eq_refl) as (h' & a & Ha & _). exists h', a. exact Ha.
Defined.

(** ** Error cases *)

(** Nothing can be appended without a byte. *)
Lemma append_nothing {B} (h : HeapManager B) : Var_AppendToHeap h [] = empty_allocation /\ Fix_AppendToHeap h [] = empty_allocation.
Proof. done. Qed.

(** [total_size] assumes that all chunks have the current size: after one byte each
    was appended three times and two bytes were, a heap with a first chunk of one
    byte says that it holds 7 bytes. *)
Lemma var_total_size_wrong : ('(h, _) ← append_all Var_AppendToHeap (NewVarHeapManager 1) [[1]; [2]; [3]; [4; 5]]; Ret (total_size h, lens (chunks_ h))) = Ret (7, [2; 4]%nat).
Proof. by vm_compute. Qed.

(** A first chunk size of zero never grows. *)
Lemma var_zero_chunk (B : Type) (d : list B) fuel : d <> [] -> GrowChunkSize fuel (Z.of_nat (length d)) 0 = UB "out of fuel".
Proof.
  intros Hd. assert (0 < Z.of_nat (length d)) as Hpos by (destruct d; [done|simpl; lia]). induction fuel as [|fuel IH]; [done|]. cbn [GrowChunkSize]. rewrite (proj2 (Z.ltb_lt _ _) Hpos). exact IH.
Qed.
