(* ===== verification/DataTypes.v ===== *)
(** * Data types

    [DataType] of [parser/type/data_type.cpp] apart from its binary form, and the
    tables of [parser/type/logical_type.cpp]: names, sizes, the common type of two
    expressions, and the values of texts. *)
From S2P Require Import Prelude Defs Arrays Date.

Local Open Scope Z_scope.

Import LogicalType.

(** The value of an enumerator. *)
Definition type_index (t : LogicalType.t) : Z :=
  match t with
  | kBoolean => 0 | kTinyInt => 1 | kSmallInt => 2 | kInteger => 3 | kBigInt => 4 | kHugeInt => 5 | kDecimal => 6 | kFloat => 7 | kDouble => 8 | kVarchar => 9
  | kDate => 10 | kTime => 11 | kDateTime => 12 | kTimestamp => 13 | kInterval => 14 | kArray => 15 | kTuple => 16 | kPoint => 17 | kLine => 18 | kLineSeg => 19
  | kBox => 20 | kCircle => 21 | kUuid => 22 | kEmbedding => 23 | kRowID => 24 | kMixed => 25 | kNull => 26 | kMissing => 27 | kInvalid => 28
  end.

Definition type2name : list string :=
  ["Boolean"; "TinyInt"; "SmallInt"; "Integer"; "BigInt"; "HugeInt"; "Decimal"; "Float"; "Double"; "Varchar"; "Date"; "Time"; "DateTime"; "Timestamp"; "Interval";
   "Array"; "Tuple"; "Point"; "Line"; "LineSegment"; "Box"; "Circle"; "UUID"; "Embedding"; "RowID"; "Heterogeneous"; "Null"; "Missing"; "Invalid"]%string.

Definition type_size : list Z := [1; 1; 2; 4; 8; 16; 16; 4; 8; 16; 4; 4; 8; 8; 8; 8; 4; 16; 24; 32; 32; 24; 16; 8; 8; 16; 0; 0; 0].

Definition LogicalType2Str (t : LogicalType.t) : outcome string := at_index type2name (type_index t).
Definition LogicalTypeWidth (t : LogicalType.t) : outcome Z := at_index type_size (type_index t).

(** The constructor, for a type without type info. *)
Definition NewDataType (t : LogicalType.t) : DataType := mkDataType t None.

(** [plain_type_], which the constructor sets. *)
Definition plain_type_ (dt : DataType) : bool :=
  match type_ dt with
  | kMixed | kVarchar | kArray | kTuple | kInvalid => false
  | _ => true
  end.

Definition DataType_ToString (dt : DataType) : outcome string := LogicalType2Str (type_ dt).

Definition TypeInfo_eq (a b : TypeInfo) : bool :=
  match a, b with
  | DecimalInfo p s, DecimalInfo p' s' => (p =? p') && (s =? s')
  | EmbeddingInfo t d, EmbeddingInfo t' d' => (d =? d') && bool_decide (t = t')
  | _, _ => false
  end.

Definition DataType_eq (a b : DataType) : bool :=
  if negb (bool_decide (type_ a = type_ b)) then false
  else if negb (Bool.eqb (plain_type_ a) (plain_type_ b)) then false
  else match type_info_ a, type_info_ b with
  | None, None => true
  | Some i, Some j => TypeInfo_eq i j
  | _, _ => false
  end.

Definition embedding_type_width : list Z := [0; 1; 2; 4; 8; 4; 8].

Definition EmbeddingSize (t : EmbeddingDataType.t) (dimension : Z) : outcome Z :=
  match t with
  | EmbeddingDataType.kElemInvalid => Throw ParserException "Invalid embedding data type"
  | EmbeddingDataType.kElemBit => Ret (Z.shiftr (to_u64 (dimension + 7)) 3)
  | _ =>
      width ← at_index embedding_type_width (match t with EmbeddingDataType.kElemInt8 => 1 | EmbeddingDataType.kElemInt16 => 2 | EmbeddingDataType.kElemInt32 => 3
                                             | EmbeddingDataType.kElemInt64 => 4 | EmbeddingDataType.kElemFloat => 5 | _ => 6 end);
      Ret (to_u64 (dimension * width))
  end.

Definition DataType_Size (dt : DataType) : outcome Z :=
  match type_info_ dt with
  | Some (DecimalInfo _ _) => Ret 16
  | Some (EmbeddingInfo t d) => EmbeddingSize t d
  | None => LogicalTypeWidth (type_ dt)
  end.

Definition IsNumeric (dt : DataType) : bool :=
  match type_ dt with
  | kTinyInt | kSmallInt | kInteger | kBigInt | kHugeInt | kFloat | kDouble | kDecimal => true
  | _ => false
  end.

(** [left.MaxDataType(right)]: what [left] becomes. *)
Definition MaxDataType (left right : DataType) : outcome DataType :=
  if DataType_eq left right then Ret left
  else if bool_decide (type_ left = kInvalid) then Ret right
  else if bool_decide (type_ right = kInvalid) then Ret left
  else if IsNumeric left && IsNumeric right then
    if type_index (type_ left) >? type_index (type_ right) then Ret left else Ret right
  else if bool_decide (type_ left = kVarchar) then Ret left
  else if bool_decide (type_ right = kVarchar) then Ret right
  else if bool_decide (type_ left = kDateTime) && bool_decide (type_ right = kTimestamp) then Ret right
  else if bool_decide (type_ left = kTimestamp) && bool_decide (type_ right = kDateTime) then Ret left
  else
    l ← DataType_ToString left;
    r ← DataType_ToString right;
    Throw ParserException ("Max type of left: " ++ l ++ " and right: " ++ r)%string.

(** ** Values of texts *)

(** The digits at the start of a text: their value and how many they are. *)
Fixpoint scan_digits (acc : Z) (cs : list Z) : Z * nat :=
  match cs with
  | c :: rest => if isdigit c then let '(v, n) := scan_digits (acc * 10 + (c - 48)) rest in (v, S n) else (acc, O)
  | [] => (acc, O)
  end.

(** [std::from_chars] for a signed integer of [w] bits: how much of the text
    matches, and the value unless nothing matches or the number does not fit. *)
Definition from_chars (w : Z) (cs : list Z) : nat * option Z :=
  let '(neg, rest) := match cs with 45 :: rest => (true, rest) | _ => (false, cs) end in
  let '(v, n) := scan_digits 0 rest in
  let v := if neg : bool then - v else v in
  match n with
  | O => (O, None)
  | _ => (if neg then S n else n, if (- 2 ^ (w - 1) <=? v) && (v <? 2 ^ (w - 1)) then Some v else None)
  end.

(** [StringToValue] of the integer types; the result of [from_chars] is not
    looked at. *)
Definition StringToInt (w : Z) (error : string) (cs : list Z) : outcome Z :=
  match cs with
  | [] => Ret 0
  | _ => let '(n, v) := from_chars w cs in if bool_decide (n = length cs) then Ret (default 0 v) else Throw ParserException error
  end.

Definition StringToTinyInt := StringToInt 8 "Parse TinyInt error".
Definition StringToSmallInt := StringToInt 16 "Parse SmallInt error".
Definition StringToInteger := StringToInt 32 "Parse Integer error".
Definition StringToBigInt := StringToInt 64 "Parse BigInt error".

Definition tolower (c : Z) : Z := if (65 <=? c) && (c <=? 90) then c + 32 else c.

Definition StringToBoolean (cs : list Z) : outcome bool :=
  match cs with
  | [] => Ret false
  | _ =>
      let str_lower := tolower <$> cs in
      if bool_decide (str_lower = [116; 114; 117; 101]) || bool_decide (str_lower = [102; 97; 108; 115; 101]) then Ret (bool_decide (str_lower = [116; 114; 117; 101]))
      else Throw ParserException "Boolean type should be true or false"
  end.

(** ** Properties *)

(** Every type has a name and a size. *)
Lemma type_tables (t : LogicalType.t) : exists name size, LogicalType2Str t = Ret name /\ LogicalTypeWidth t = Ret size.
Proof. destruct t; eexists _, _; split; reflexivity. Qed.

Lemma type_index_inj t u : type_index t = type_index u -> t = u.
Proof. by destruct t, u. Qed.

(** [operator==] is equality. *)
Lemma DataType_eq_iff a b : DataType_eq a b = true <-> a = b.
Proof.
  destruct a as [t i], b as [u j]. unfold DataType_eq. cbn [type_ type_info_]. case_bool_decide as E; cbn [negb]; [subst u|split; [done|congruence]].
  change (plain_type_ (mkDataType t j)) with (plain_type_ (mkDataType t i)). rewrite Bool.eqb_reflx. cbn [negb].
  destruct i as [[p s|e d]|], j as [[p' s'|e' d']|]; cbn [TypeInfo_eq]; rewrite ?andb_true_iff, ?Z.eqb_eq, ?bool_decide_eq_true; intuition congruence.
Qed.

(** The common type of plain types. *)
Definition max_of (t u : LogicalType.t) : option LogicalType.t :=
  match MaxDataType (NewDataType t) (NewDataType u) with Ret dt => Some (type_ dt) | _ => None end.

Definition opt_max (t u : option LogicalType.t) : option LogicalType.t := match t, u with Some t, Some u => max_of t u | _, _ => None end.

Lemma all_types t : t ∈ LogicalType.all.
Proof. apply list_elem_of_In. destruct t; vm_compute; tauto. Qed.

Lemma types_check (P : LogicalType.t -> bool) : forallb P LogicalType.all = true -> forall t, P t = true.
Proof. intros HP t. rewrite forallb_forall in HP. apply HP, list_elem_of_In, all_types. Qed.

(** The common type of two expressions does not depend on their order, and that of
    three, if two of them have one, not on the order in which they are combined:
    an operation of two types that gives a third gives the same in any order. *)
Theorem max_type_semilattice t u v : max_of t t = Some t /\ max_of t u = max_of u t /\
  (opt_max (max_of t u) (Some v) <> None -> opt_max (Some t) (max_of u v) <> None -> opt_max (max_of t u) (Some v) = opt_max (Some t) (max_of u v)).
Proof.
  assert (forallb (fun t => forallb (fun u => forallb (fun v => bool_decide (max_of t t = Some t) && bool_decide (max_of t u = max_of u t) &&
    (bool_decide (opt_max (max_of t u) (Some v) = None) || bool_decide (opt_max (Some t) (max_of u v) = None) || bool_decide (opt_max (max_of t u) (Some v) = opt_max (Some t) (max_of u v))))
    LogicalType.all) LogicalType.all) LogicalType.all = true) as Hall by (vm_compute; reflexivity).
  pose proof (types_check _ (types_check _ (types_check _ Hall t) u) v) as H. cbv beta in H. rewrite !andb_true_iff, !orb_true_iff, !bool_decide_eq_true in H. tauto.
Qed.

(** Not so for types with type info: the common type of two decimals is the
    second one. *)
Lemma max_decimal_second p s q r : (p, s) <> (q, r) -> MaxDataType (mkDataType kDecimal (Some (DecimalInfo p s))) (mkDataType kDecimal (Some (DecimalInfo q r))) = Ret (mkDataType kDecimal (Some (DecimalInfo q r))).
Proof.
  intros Hne. unfold MaxDataType. destruct (DataType_eq _ _) eqn:E; [|done]. apply DataType_eq_iff in E. congruence.
Qed.

(** The decimal text of an integer. *)
Definition int_text (z : Z) : list Z := if z <? 0 then 45 :: digits 20 (- z) else digits 20 z.

Definition digits_value (acc : Z) (cs : list Z) : Z := fold_left (fun v c => v * 10 + (c - 48)) cs acc.

Lemma scan_all cs : forall acc, Forall (fun c => isdigit c = true) cs -> scan_digits acc cs = (digits_value acc cs, length cs).
Proof. induction cs as [|c cs IH]; intros acc Hcs; [done|]. apply Forall_cons in Hcs as [Hc Hcs]. cbn [scan_digits]. rewrite Hc, IH by done. done. Qed.

Lemma digits_ok fuel : forall n, 0 <= n -> n < 10 ^ Z.of_nat fuel -> Forall (fun c => isdigit c = true) (digits fuel n) /\ digits_value 0 (digits fuel n) = n.
Proof.
  induction fuel as [|fuel IH]; intros n Hn Hlt; [simpl in Hlt; split; [constructor|cbn; lia]|]. cbn [digits]. pose proof (Z.mod_pos_bound n 10 ltac:(lia)) as Hmod. destruct (n <? 10) eqn:E; zbool.
  - split; [|unfold digits_value; cbn [fold_left]; lia]. repeat constructor. unfold isdigit. rewrite andb_true_iff, !Z.leb_le. lia.
  - destruct (IH (n / 10)) as [Hd Hv]; [apply Z.div_pos; lia|rewrite Nat2Z.inj_succ, Z.pow_succ_r in Hlt by lia; apply Z.div_lt_upper_bound; lia|].
    split; [apply Forall_app; split; [done|]; repeat constructor; unfold isdigit; rewrite andb_true_iff, !Z.leb_le; lia|].
    unfold digits_value in *. rewrite fold_left_app, Hv. cbn [fold_left]. pose proof (Z.div_mod n 10 ltac:(lia)). lia.
Qed.

Lemma digits_none_minus fuel n : 0 <= n -> forall c l, digits (S fuel) n = c :: l -> c <> 45.
Proof. intros Hn c l E. destruct (digits_head fuel n Hn) as (c' & l' & E' & Hc). rewrite E in E'. injection E' as -> ->. unfold isdigit in Hc. zbool. lia. Qed.

Lemma no_minus c (l : list Z) : c <> 45 -> match c :: l with 45 :: rest => (true, rest) | _ => (false, c :: l) end = (false, c :: l).
Proof. intros Hc. by destruct c as [|p|p]; [|repeat (destruct p as [p|p|]; try done)|]. Qed.

Lemma from_chars_text w z : 1 <= w <= 64 -> s_range w z -> from_chars w (int_text z) = (length (int_text z), Some z).
Proof.
  intros Hw Hz. unfold s_range in Hz. assert (2 ^ (w - 1) <= 2 ^ 63) as Hpow by (apply Z.pow_le_mono_r; lia). unfold from_chars, int_text. destruct (z <? 0) eqn:E; zbool.
  - destruct (digits_ok 20 (- z)) as [Hd Hv]; [lia|simpl; lia|]. rewrite scan_all, Hv by done. destruct (digits_head 19 (- z)) as (c & l & Hcl & _); [lia|]. rewrite Hcl. cbn [length].
    replace (- - z) with z by lia. rewrite (proj2 (Z.leb_le _ _)), (proj2 (Z.ltb_lt _ _)) by lia. done.
  - destruct (digits_ok 20 z) as [Hd Hv]; [lia|simpl; lia|]. destruct (digits_head 19 z) as (c & l & Hcl & _); [lia|]. pose proof (digits_none_minus 19 z ltac:(lia) c l Hcl) as Hc. rewrite Hcl in *.
    rewrite no_minus by done.
    rewrite scan_all, Hv by done. cbn [length]. rewrite (proj2 (Z.leb_le _ _)), (proj2 (Z.ltb_lt _ _)) by lia. done.
Qed.

(** An integer of any of the four widths is read back from its decimal text. *)
Theorem string_to_int_roundtrip w error z : 1 <= w <= 64 -> s_range w z -> StringToInt w error (int_text z) = Ret z.
Proof.
  intros Hw Hz. unfold StringToInt. rewrite (from_chars_text w z Hw Hz), bool_decide_true by done. destruct (int_text z) eqn:E; [|done].
  unfold int_text in E. destruct (z <? 0) eqn:Ez; [done|]. zbool. destruct (digits_head 19 z) as (c & l & Hcl & _); [lia|congruence].
Qed.

(** A number that does not fit is read as zero, without an error. *)
Lemma string_to_int_overflow w error z : 1 <= w <= 64 -> 0 <= z < 10 ^ 20 -> ~ s_range w z -> StringToInt w error (int_text z) = Ret 0.
Proof.
  intros Hw Hz Hr. unfold s_range in Hr. assert (0 < 2 ^ (w - 1)) as Hpow by (apply Z.pow_pos_nonneg; lia). unfold StringToInt, int_text. rewrite (proj2 (Z.ltb_ge _ _)) by lia.
  destruct (digits_ok 20 z) as [Hd Hv]; [lia|simpl; lia|]. destruct (digits_head 19 z) as (c & l & Hcl & _); [lia|]. pose proof (digits_none_minus 19 z ltac:(lia) c l Hcl) as Hc. rewrite Hcl in *. unfold from_chars.
  rewrite no_minus by done.
  rewrite scan_all, Hv by done. cbn [length]. rewrite (proj2 (Z.ltb_ge z _)), andb_false_r by lia. by rewrite bool_decide_true.
Qed.

Lemma string_to_int_samples : StringToTinyInt [51; 48; 48] = Ret 0 /\ StringToTinyInt [45; 49; 50; 56] = Ret (-128) /\ StringToInteger [49; 50; 97] = Throw ParserException "Parse Integer error".
Proof. by vm_compute. Qed.
