(* ===== verification/FunctionSet.v ===== *)
(** * Overload resolution

    The costs of implicit casts ([function/cast/cast_table.cpp]), scalar functions
    ([function/scalar_function.cpp]) and the choice among the functions of one name
    ([function/scalar_function_set.cpp], [function/function_set.cpp]).

    An argument of a call is known by its data type.  What a function executes is
    given by the wrapper, the C++ types and the operation that instantiate it. *)
From S2P Require Import Prelude Defs Arrays DataTypes.

Local Open Scope Z_scope.

Import LogicalType.

(** ** The cast table *)

(** The assignments of the constructor. *)
Definition cast_rows : list (LogicalType.t * list (LogicalType.t * Z)) :=
  [ (kBoolean, [(kBoolean, 0); (kVarchar, 1)]);
    (kTinyInt, [(kTinyInt, 0); (kSmallInt, 1); (kInteger, 2); (kBigInt, 3); (kHugeInt, 4); (kDecimal, 8); (kFloat, 9); (kDouble, 10); (kVarchar, 12)]);
    (kSmallInt, [(kSmallInt, 0); (kInteger, 1); (kBigInt, 2); (kHugeInt, 3); (kDecimal, 7); (kFloat, 8); (kDouble, 9); (kVarchar, 11)]);
    (kInteger, [(kInteger, 0); (kBigInt, 1); (kHugeInt, 2); (kDecimal, 6); (kFloat, 7); (kDouble, 8); (kVarchar, 10)]);
    (kBigInt, [(kBigInt, 0); (kHugeInt, 1); (kDecimal, 5); (kFloat, 6); (kDouble, 7); (kVarchar, 9)]);
    (kHugeInt, [(kHugeInt, 0); (kDecimal, 4); (kFloat, 5); (kDouble, 6); (kVarchar, 8)]);
    (kDecimal, [(kDecimal, 0); (kFloat, 1); (kDouble, 2); (kVarchar, 4)]);
    (kFloat, [(kFloat, 0); (kDouble, 1); (kVarchar, 3)]);
    (kDouble, [(kDouble, 0); (kVarchar, 2)]);
    (kDate, [(kDate, 0); (kDateTime, 1); (kTimestamp, 2); (kVarchar, 5)]);
    (kTime, [(kTime, 0); (kVarchar, 2)]);
    (kDateTime, [(kDateTime, 0); (kTimestamp, 1); (kTime, 2); (kDate, 2); (kVarchar, 3)]);
    (kTimestamp, [(kTimestamp, 0); (kDateTime, 1); (kTime, 2); (kDate, 2); (kVarchar, 3)]);
    (kInterval, [(kInterval, 0); (kVarchar, 1)]);
    (kPoint, [(kPoint, 0); (kVarchar, 1)]);
    (kLine, [(kLine, 0); (kVarchar, 1)]);
    (kLineSeg, [(kLineSeg, 0); (kVarchar, 1)]);
    (kBox, [(kBox, 0); (kVarchar, 1)]);
    (kCircle, [(kCircle, 0); (kVarchar, 1)]);
    (kUuid, [(kUuid, 0); (kVarchar, 1)]);
    (kEmbedding, [(kEmbedding, 0); (kVarchar, 1)]);
    (kRowID, [(kRowID, 0); (kVarchar, 1)]);
    (kMixed, [(kMixed, 0); (kBigInt, 1); (kFloat, 2); (kVarchar, 4)]);
    (kNull, [(kNull, 0); (kBoolean, 0); (kTinyInt, 0); (kSmallInt, 0); (kInteger, 0); (kBigInt, 0); (kHugeInt, 0); (kFloat, 0); (kDouble, 0); (kDecimal, 0); (kVarchar, 0); (kDate, 0); (kTime, 0); (kDateTime, 0); (kTimestamp, 0); (kInterval, 0); (kArray, 0); (kTuple, 0); (kPoint, 0); (kLine, 0); (kLineSeg, 0); (kBox, 0); (kCircle, 0); (kUuid, 0); (kEmbedding, 0); (kRowID, 0)]);
    (kVarchar, [(kNull, 2); (kBoolean, 2); (kTinyInt, 2); (kSmallInt, 2); (kInteger, 2); (kBigInt, 2); (kHugeInt, 2); (kFloat, 2); (kDouble, 2); (kDecimal, 2); (kVarchar, 0); (kDate, 2); (kTime, 2); (kDateTime, 2); (kTimestamp, 2); (kInterval, 2); (kArray, 2); (kTuple, 2); (kPoint, 2); (kLine, 2); (kLineSeg, 2); (kBox, 2); (kCircle, 2); (kUuid, 2); (kEmbedding, 2); (kRowID, 2)])
  ].

Fixpoint assoc {A} (t : LogicalType.t) (l : list (LogicalType.t * A)) : option A :=
  match l with
  | [] => None
  | (u, x) :: l => if bool_decide (t = u) then Some x else assoc t l
  end.

(** [matrix_[from][to]]; the matrix has no row and no column for [kInvalid]. *)
Definition GetCastCost (from to : LogicalType.t) : outcome Z :=
  if bool_decide (from = kInvalid) || bool_decide (to = kInvalid) then UB "index out of range"
  else Ret (default (-1) (assoc from cast_rows ≫= assoc to)).

(** ** Scalar functions *)

Inductive CppType :=
  | BooleanT | TinyIntT | SmallIntT | IntegerT | BigIntT | HugeIntT | FloatT | DoubleT | DecimalT | VarcharT
  | DateT | TimeT | DateTimeT | TimestampT | IntervalT | PointT | LineT | LineSegT | BoxT | CircleT | UuidT | EmbeddingT | RowIDT | MixedT.

#[export] Instance CppType_eq_dec : EqDecision CppType.
Proof. solve_decision. Defined.

(** The type of the values of a column. *)
Definition cpp_type (t : LogicalType.t) : option CppType :=
  match t with
  | kBoolean => Some BooleanT | kTinyInt => Some TinyIntT | kSmallInt => Some SmallIntT | kInteger => Some IntegerT | kBigInt => Some BigIntT | kHugeInt => Some HugeIntT
  | kFloat => Some FloatT | kDouble => Some DoubleT | kDecimal => Some DecimalT | kVarchar => Some VarcharT
  | kDate => Some DateT | kTime => Some TimeT | kDateTime => Some DateTimeT | kTimestamp => Some TimestampT | kInterval => Some IntervalT
  | kPoint => Some PointT | kLine => Some LineT | kLineSeg => Some LineSegT | kBox => Some BoxT | kCircle => Some CircleT | kUuid => Some UuidT | kEmbedding => Some EmbeddingT
  | kRowID => Some RowIDT | kMixed => Some MixedT
  | kArray | kTuple | kNull | kMissing | kInvalid => None
  end.

Inductive Operation :=
  | AddFunction | SubFunction | MulFunction | DivFunction | ModuloFunction | PlusFunction | MinusFunction | AndFunction | OrFunction | NotFunction
  | AbsFunctionInt | AbsFunctionFloat | PowFunction | EqualsFunction | InEqualsFunction | LessFunction | LessEqualsFunction | GreaterFunction | GreaterEqualsFunction
  | LikeFunction | NotLikeFunction | ExtractYearFunction | ExtractMonthFunction | ExtractDayFunction | SubstrFunction.

(** The static functions of [ScalarFunction] with their template arguments. *)
Inductive ScalarFunctionType :=
  | NoOpFunction
  | UnaryFunction (input output : CppType) (op : Operation)
  | UnaryFunctionWithFailure (input output : CppType) (op : Operation)
  | BinaryFunction (left right output : CppType) (op : Operation)
  | BinaryFunctionWithFailure (left right output : CppType) (op : Operation)
  | TernaryFunctionToVarlenWithFailure (first second third output : CppType) (op : Operation).

Record ScalarFunction := mkScalarFunction {
  function_name_ : string;
  parameter_types_ : list DataType;
  return_type_ : DataType;
  function_ : ScalarFunctionType
}.

Definition join_types (types : list DataType) : outcome string := names ← mapM DataType_ToString types; Ret (String.concat ", " names).

Definition ScalarFunction_ToString (f : ScalarFunction) : outcome string :=
  match parameter_types_ f with
  | [] => Ret (function_name_ f ++ "()")%string
  | types => params ← join_types types; result ← DataType_ToString (return_type_ f); Ret (function_name_ f ++ "(" ++ params ++ ")->" ++ result)%string
  end.

(** [CastArgumentTypes]: the number of arguments is compared with itself. *)
Definition CastArgumentTypes (f : ScalarFunction) (arguments : list DataType) : outcome unit :=
  let arguments_count := length arguments in
  if bool_decide (length arguments = arguments_count) then Throw PlannerException "Function: {} arguments number isn't matched."
  else if forallb (fun p => DataType_eq p.1 p.2) (zip (parameter_types_ f) arguments) then Ret ()
  else Throw PlannerException "Not implemented: need to cast the argument types".

(** ** Sets of functions *)

Record ScalarFunctionSet := mkScalarFunctionSet {
  set_name_ : string;
  functions_ : list ScalarFunction
}.

Definition AddFunction_ (s : ScalarFunctionSet) (f : ScalarFunction) : ScalarFunctionSet := mkScalarFunctionSet (set_name_ s) (functions_ s ++ [f]).

Definition FunctionSet_ToString (name : string) (arguments : list DataType) : outcome string :=
  match arguments with
  | [] => Ret (name ++ "()")%string
  | _ => params ← join_types arguments; Ret (name ++ "(" ++ params ++ ")")%string
  end.

(** The loop of [MatchFunctionCost]. *)
Fixpoint MatchCost (parameters arguments : list DataType) (total_cost : Z) : outcome Z :=
  match parameters, arguments with
  | p :: parameters, a :: arguments =>
      type_cast_cost ← GetCastCost (type_ a) (type_ p);
      if type_cast_cost <? 0 then Ret (-1) else MatchCost parameters arguments (total_cost + type_cast_cost)
  | _, _ => Ret total_cost
  end.

Definition MatchFunctionCost (f : ScalarFunction) (arguments : list DataType) : outcome Z :=
  if negb (bool_decide (length (parameter_types_ f) = length arguments)) then Ret (-1)
  else MatchCost (parameter_types_ f) arguments 0.

(** The loop of [GetMostMatchFunction]: the candidates and their cost. *)
Fixpoint FindCandidates (functions : list ScalarFunction) (arguments : list DataType) (i : Z) (lowest_cost : Z) (candidates_index : list Z) : outcome (list Z) :=
  match functions with
  | [] => Ret candidates_index
  | f :: functions =>
      cost ← MatchFunctionCost f arguments;
      if (cost >=? 0) && (cost <=? lowest_cost) then
        if cost =? lowest_cost then FindCandidates functions arguments (i + 1) lowest_cost (candidates_index ++ [i])
        else FindCandidates functions arguments (i + 1) cost [i]
      else FindCandidates functions arguments (i + 1) lowest_cost candidates_index
  end.

Definition i64_max : Z := 2 ^ 63 - 1.
Definition endl : string := String (Ascii.ascii_of_nat 10) EmptyString.

Definition lines (l : list string) : string := String.concat EmptyString ((fun x => x ++ endl)%string <$> l).

Definition GetMostMatchFunction (s : ScalarFunctionSet) (arguments : list DataType) : outcome ScalarFunction :=
  candidates_index ← FindCandidates (functions_ s) arguments 0 i64_max [];
  match candidates_index with
  | [] =>
      call ← FunctionSet_ToString (set_name_ s) arguments;
      candidates ← mapM ScalarFunction_ToString (functions_ s);
      Throw PlannerException (lines (("Can't find matched function for " ++ call) :: "Candidate functions: " :: candidates))%string
  | [i] => at_index (functions_ s) i
  | _ =>
      call ← FunctionSet_ToString (set_name_ s) arguments;
      matched ← mapM (fun i => f ← at_index (functions_ s) i; ScalarFunction_ToString f) candidates_index;
      Throw PlannerException (lines (("Multiple matched functions for " ++ call) :: "Matched candidate functions: " :: matched))%string
  end.
