(* ===== verification/ScalarFunctions.v ===== *)
(** * The scalar functions of the catalog

    The overloads that the files of [function/scalar] register, in the order of the source,
    and the order in which [function/builtin_functions.cpp] registers the sets.
    An overload is its parameter types, its return type and the function that
    executes it. *)
From S2P Require Import Prelude Defs Arrays Catalog DataTypes FunctionSet.

Local Open Scope Z_scope.

Import LogicalType.

(** The function sets of the catalog; table and special functions are not used here. *)
Definition Registry : Type := Functions ScalarFunctionSet Empty_set Empty_set.

Definition Overload : Type := list LogicalType.t * LogicalType.t * ScalarFunctionType.

(** [ScalarFunction name_(func_name, {DataType ...}, {DataType ...}, &...)] *)
Definition NewScalarFunction (name : string) (o : Overload) : ScalarFunction :=
  mkScalarFunction name (NewDataType <$> o.1.1) (NewDataType o.1.2) o.2.

(** The body of a registration: a new set, its functions, [NewCatalog::AddFunctionSet]. *)
Definition Register (fs : Registry) (func_name : string) (overloads : list Overload) : outcome Registry :=
  let function_set_ptr := foldl AddFunction_ (mkScalarFunctionSet func_name []) (NewScalarFunction func_name <$> overloads) in
  AddFunctionSet fs func_name function_set_ptr.

Definition RegisterAddFunction (fs : Registry) : outcome Registry :=
  Register fs "+"
    [ ([kTinyInt; kTinyInt], kTinyInt, (BinaryFunctionWithFailure TinyIntT TinyIntT TinyIntT AddFunction));
      ([kSmallInt; kSmallInt], kSmallInt, (BinaryFunctionWithFailure SmallIntT SmallIntT SmallIntT AddFunction));
      ([kInteger; kInteger], kInteger, (BinaryFunctionWithFailure IntegerT IntegerT IntegerT AddFunction));
      ([kBigInt; kBigInt], kBigInt, (BinaryFunctionWithFailure BigIntT BigIntT BigIntT AddFunction));
      ([kHugeInt; kHugeInt], kHugeInt, (BinaryFunctionWithFailure HugeIntT HugeIntT HugeIntT AddFunction));
      ([kFloat; kFloat], kFloat, (BinaryFunctionWithFailure FloatT FloatT FloatT AddFunction));
      ([kDouble; kDouble], kDouble, (BinaryFunctionWithFailure DoubleT DoubleT DoubleT AddFunction));
      ([kDecimal; kDecimal], kDecimal, (BinaryFunctionWithFailure DecimalT DecimalT DecimalT AddFunction));
      ([kDate; kInterval], kDate, (BinaryFunctionWithFailure DateT IntervalT DateT AddFunction));
      ([kInterval; kDate], kDate, (BinaryFunctionWithFailure DateT IntervalT DateT AddFunction));
      ([kDateTime; kInterval], kDateTime, (BinaryFunctionWithFailure DateTimeT IntervalT DateTimeT AddFunction));
      ([kInterval; kDateTime], kDateTime, (BinaryFunctionWithFailure IntervalT DateTimeT DateTimeT AddFunction));
      ([kTimestamp; kInterval], kTimestamp, (BinaryFunctionWithFailure TimestampT IntervalT TimestampT AddFunction));
      ([kInterval; kTimestamp], kTimestamp, (BinaryFunctionWithFailure IntervalT TimestampT TimestampT AddFunction));
      ([kMixed; kBigInt], kMixed, (BinaryFunctionWithFailure MixedT BigIntT MixedT AddFunction));
      ([kBigInt; kMixed], kMixed, (BinaryFunctionWithFailure BigIntT MixedT MixedT AddFunction));
      ([kMixed; kDouble], kMixed, (BinaryFunctionWithFailure MixedT DoubleT MixedT AddFunction));
      ([kDouble; kMixed], kMixed, (BinaryFunctionWithFailure DoubleT MixedT MixedT AddFunction));
      ([kMixed; kMixed], kMixed, (BinaryFunctionWithFailure MixedT MixedT MixedT AddFunction)) ].

Definition RegisterSubtractFunction (fs : Registry) : outcome Registry :=
  Register fs "-"
    [ ([kTinyInt; kTinyInt], kTinyInt, (BinaryFunctionWithFailure TinyIntT TinyIntT TinyIntT SubFunction));
      ([kSmallInt; kSmallInt], kSmallInt, (BinaryFunctionWithFailure SmallIntT SmallIntT SmallIntT SubFunction));
      ([kInteger; kInteger], kInteger, (BinaryFunctionWithFailure IntegerT IntegerT IntegerT SubFunction));
      ([kBigInt; kBigInt], kBigInt, (BinaryFunctionWithFailure BigIntT BigIntT BigIntT SubFunction));
      ([kHugeInt; kHugeInt], kHugeInt, (BinaryFunctionWithFailure HugeIntT HugeIntT HugeIntT SubFunction));
      ([kFloat; kFloat], kFloat, (BinaryFunctionWithFailure FloatT FloatT FloatT SubFunction));
      ([kDouble; kDouble], kDouble, (BinaryFunctionWithFailure DoubleT DoubleT DoubleT SubFunction));
      ([kDecimal; kDecimal], kDecimal, (BinaryFunctionWithFailure DecimalT DecimalT DecimalT SubFunction));
      ([kDate; kInterval], kDate, (BinaryFunctionWithFailure DateT IntervalT DateT SubFunction));
      ([kDateTime; kInterval], kDateTime, (BinaryFunctionWithFailure DateTimeT IntervalT DateTimeT SubFunction));
      ([kTimestamp; kInterval], kTimestamp, (BinaryFunctionWithFailure TimestampT IntervalT TimestampT SubFunction));
      ([kMixed; kBigInt], kMixed, (BinaryFunctionWithFailure MixedT BigIntT MixedT SubFunction));
      ([kBigInt; kMixed], kMixed, (BinaryFunctionWithFailure MixedT BigIntT MixedT SubFunction));
      ([kMixed; kDouble], kMixed, (BinaryFunctionWithFailure MixedT DoubleT MixedT SubFunction));
      ([kDouble; kMixed], kMixed, (BinaryFunctionWithFailure MixedT DoubleT MixedT SubFunction));
      ([kMixed; kMixed], kMixed, (BinaryFunctionWithFailure MixedT MixedT MixedT SubFunction)) ].

Definition RegisterMulFunction (fs : Registry) : outcome Registry :=
  Register fs "*"
    [ ([kTinyInt; kTinyInt], kTinyInt, (BinaryFunctionWithFailure TinyIntT TinyIntT TinyIntT MulFunction));
      ([kSmallInt; kSmallInt], kSmallInt, (BinaryFunctionWithFailure SmallIntT SmallIntT SmallIntT MulFunction));
      ([kInteger; kInteger], kInteger, (BinaryFunctionWithFailure IntegerT IntegerT IntegerT MulFunction));
      ([kBigInt; kBigInt], kBigInt, (BinaryFunctionWithFailure BigIntT BigIntT BigIntT MulFunction));
      ([kHugeInt; kHugeInt], kHugeInt, (BinaryFunctionWithFailure HugeIntT HugeIntT HugeIntT MulFunction));
      ([kFloat; kFloat], kFloat, (BinaryFunctionWithFailure FloatT FloatT FloatT MulFunction));
      ([kDouble; kDouble], kDouble, (BinaryFunctionWithFailure DoubleT DoubleT DoubleT MulFunction));
      ([kDecimal; kDecimal], kDecimal, (BinaryFunctionWithFailure DecimalT DecimalT DecimalT MulFunction));
      ([kMixed; kBigInt], kMixed, (BinaryFunctionWithFailure MixedT BigIntT MixedT MulFunction));
      ([kBigInt; kMixed], kMixed, (BinaryFunctionWithFailure BigIntT MixedT MixedT MulFunction));
      ([kMixed; kDouble], kMixed, (BinaryFunctionWithFailure MixedT DoubleT MixedT MulFunction));
      ([kDouble; kMixed], kMixed, (BinaryFunctionWithFailure DoubleT MixedT MixedT MulFunction));
      ([kMixed; kMixed], kMixed, (BinaryFunctionWithFailure MixedT MixedT MixedT MulFunction)) ].

Definition RegisterDivFunction (fs : Registry) : outcome Registry :=
  Register fs "/"
    [ ([kTinyInt; kTinyInt], kTinyInt, (BinaryFunctionWithFailure TinyIntT TinyIntT TinyIntT DivFunction));
      ([kSmallInt; kSmallInt], kSmallInt, (BinaryFunctionWithFailure SmallIntT SmallIntT SmallIntT DivFunction));
      ([kInteger; kInteger], kInteger, (BinaryFunctionWithFailure IntegerT IntegerT IntegerT DivFunction));
      ([kBigInt; kBigInt], kBigInt, (BinaryFunctionWithFailure BigIntT BigIntT BigIntT DivFunction));
      ([kHugeInt; kHugeInt], kHugeInt, (BinaryFunctionWithFailure HugeIntT HugeIntT HugeIntT DivFunction));
      ([kFloat; kFloat], kFloat, (BinaryFunctionWithFailure FloatT FloatT FloatT DivFunction));
      ([kDouble; kDouble], kDouble, (BinaryFunctionWithFailure DoubleT DoubleT DoubleT DivFunction)) ].

Definition RegisterModuloFunction (fs : Registry) : outcome Registry :=
  Register fs "%"
    [ ([kTinyInt; kTinyInt], kTinyInt, (BinaryFunctionWithFailure TinyIntT TinyIntT TinyIntT ModuloFunction));
      ([kSmallInt; kSmallInt], kSmallInt, (BinaryFunctionWithFailure SmallIntT SmallIntT SmallIntT ModuloFunction));
      ([kInteger; kInteger], kInteger, (BinaryFunctionWithFailure IntegerT IntegerT IntegerT ModuloFunction));
      ([kBigInt; kBigInt], kBigInt, (BinaryFunctionWithFailure BigIntT BigIntT BigIntT ModuloFunction));
      ([kHugeInt; kHugeInt], kHugeInt, (BinaryFunctionWithFailure HugeIntT HugeIntT HugeIntT ModuloFunction));
      ([kFloat; kFloat], kFloat, (BinaryFunctionWithFailure FloatT FloatT FloatT ModuloFunction));
      ([kDouble; kDouble], kDouble, (BinaryFunctionWithFailure DoubleT DoubleT DoubleT ModuloFunction)) ].

Definition RegisterPlusFunction (fs : Registry) : outcome Registry :=
  Register fs "+"
    [ ([kTinyInt], kTinyInt, NoOpFunction);
      ([kSmallInt], kSmallInt, NoOpFunction);
      ([kInteger], kInteger, NoOpFunction);
      ([kBigInt], kBigInt, NoOpFunction);
      ([kHugeInt], kHugeInt, NoOpFunction);
      ([kFloat], kFloat, NoOpFunction);
      ([kDouble], kDouble, NoOpFunction);
      ([kDecimal], kDecimal, NoOpFunction);
      ([kMixed], kMixed, (UnaryFunctionWithFailure MixedT MixedT PlusFunction)) ].

Definition RegisterMinusFunction (fs : Registry) : outcome Registry :=
  Register fs "-"
    [ ([kTinyInt], kTinyInt, (UnaryFunctionWithFailure TinyIntT TinyIntT MinusFunction));
      ([kSmallInt], kSmallInt, (UnaryFunctionWithFailure SmallIntT SmallIntT MinusFunction));
      ([kInteger], kInteger, (UnaryFunctionWithFailure IntegerT IntegerT MinusFunction));
      ([kBigInt], kBigInt, (UnaryFunctionWithFailure BigIntT BigIntT MinusFunction));
      ([kHugeInt], kHugeInt, (UnaryFunctionWithFailure HugeIntT HugeIntT MinusFunction));
      ([kFloat], kFloat, (UnaryFunctionWithFailure FloatT FloatT MinusFunction));
      ([kDouble], kDouble, (UnaryFunctionWithFailure DoubleT DoubleT MinusFunction));
      ([kDecimal], kDecimal, (UnaryFunctionWithFailure DecimalT DecimalT MinusFunction));
      ([kMixed], kMixed, (UnaryFunctionWithFailure MixedT MixedT MinusFunction)) ].

Definition RegisterAndFunction (fs : Registry) : outcome Registry :=
  Register fs "AND"
    [ ([kBoolean; kBoolean], kBoolean, (BinaryFunction BooleanT BooleanT BooleanT AndFunction)) ].

Definition RegisterOrFunction (fs : Registry) : outcome Registry :=
  Register fs "OR"
    [ ([kBoolean; kBoolean], kBoolean, (BinaryFunction BooleanT BooleanT BooleanT OrFunction)) ].

Definition RegisterNotFunction (fs : Registry) : outcome Registry :=
  Register fs "NOT"
    [ ([kBoolean], kBoolean, (UnaryFunction BooleanT BooleanT NotFunction)) ].

Definition RegisterAbsFunction (fs : Registry) : outcome Registry :=
  Register fs "ABS"
    [ ([kTinyInt], kTinyInt, (UnaryFunctionWithFailure TinyIntT TinyIntT AbsFunctionInt));
      ([kSmallInt], kSmallInt, (UnaryFunctionWithFailure SmallIntT SmallIntT AbsFunctionInt));
      ([kInteger], kInteger, (UnaryFunctionWithFailure IntegerT IntegerT AbsFunctionInt));
      ([kBigInt], kBigInt, (UnaryFunctionWithFailure BigIntT BigIntT AbsFunctionInt));
      ([kFloat], kFloat, (UnaryFunction FloatT FloatT AbsFunctionFloat));
      ([kDouble], kDouble, (UnaryFunction DoubleT DoubleT AbsFunctionFloat)) ].

Definition RegisterPowFunction (fs : Registry) : outcome Registry :=
  Register fs "POW"
    [ ([kFloat; kFloat], kFloat, (BinaryFunctionWithFailure FloatT FloatT FloatT PowFunction));
      ([kDouble; kDouble], kDouble, (BinaryFunctionWithFailure DoubleT DoubleT DoubleT PowFunction));
      ([kMixed; kDouble], kDouble, (BinaryFunctionWithFailure MixedT DoubleT DoubleT PowFunction)) ].

Definition RegisterEqualsFunction (fs : Registry) : outcome Registry :=
  Register fs "="
    [ ([kBoolean; kBoolean], kBoolean, (BinaryFunction BooleanT BooleanT BooleanT EqualsFunction));
      ([kTinyInt; kTinyInt], kBoolean, (BinaryFunction TinyIntT TinyIntT BooleanT EqualsFunction));
      ([kSmallInt; kSmallInt], kBoolean, (BinaryFunction SmallIntT SmallIntT BooleanT EqualsFunction));
      ([kInteger; kInteger], kBoolean, (BinaryFunction IntegerT IntegerT BooleanT EqualsFunction));
      ([kBigInt; kBigInt], kBoolean, (BinaryFunction BigIntT BigIntT BooleanT EqualsFunction));
      ([kHugeInt; kHugeInt], kBoolean, (BinaryFunction HugeIntT HugeIntT BooleanT EqualsFunction));
      ([kFloat; kFloat], kBoolean, (BinaryFunction FloatT FloatT BooleanT EqualsFunction));
      ([kDouble; kDouble], kBoolean, (BinaryFunction DoubleT DoubleT BooleanT EqualsFunction));
      ([kVarchar; kVarchar], kBoolean, (BinaryFunction VarcharT VarcharT BooleanT EqualsFunction));
      ([kDate; kDate], kBoolean, (BinaryFunction DateT DateT BooleanT EqualsFunction));
      ([kMixed; kBigInt], kBoolean, (BinaryFunction MixedT BigIntT BooleanT EqualsFunction));
      ([kBigInt; kMixed], kBoolean, (BinaryFunction BigIntT MixedT BooleanT EqualsFunction));
      ([kMixed; kDouble], kBoolean, (BinaryFunction MixedT DoubleT BooleanT EqualsFunction));
      ([kDouble; kMixed], kBoolean, (BinaryFunction DoubleT MixedT BooleanT EqualsFunction));
      ([kMixed; kVarchar], kBoolean, (BinaryFunction MixedT VarcharT BooleanT EqualsFunction));
      ([kVarchar; kMixed], kBoolean, (BinaryFunction VarcharT MixedT BooleanT EqualsFunction)) ].

Definition RegisterInEqualsFunction (fs : Registry) : outcome Registry :=
  Register fs "<>"
    [ ([kBoolean; kBoolean], kBoolean, (BinaryFunction BooleanT BooleanT BooleanT InEqualsFunction));
      ([kTinyInt; kTinyInt], kBoolean, (BinaryFunction TinyIntT TinyIntT BooleanT InEqualsFunction));
      ([kSmallInt; kSmallInt], kBoolean, (BinaryFunction SmallIntT SmallIntT BooleanT InEqualsFunction));
      ([kInteger; kInteger], kBoolean, (BinaryFunction IntegerT IntegerT BooleanT InEqualsFunction));
      ([kBigInt; kBigInt], kBoolean, (BinaryFunction BigIntT BigIntT BooleanT InEqualsFunction));
      ([kHugeInt; kHugeInt], kBoolean, (BinaryFunction HugeIntT HugeIntT BooleanT InEqualsFunction));
      ([kFloat; kFloat], kBoolean, (BinaryFunction FloatT FloatT BooleanT InEqualsFunction));
      ([kDouble; kDouble], kBoolean, (BinaryFunction DoubleT DoubleT BooleanT InEqualsFunction));
      ([kVarchar; kVarchar], kBoolean, (BinaryFunction VarcharT VarcharT BooleanT InEqualsFunction));
      ([kMixed; kBigInt], kBoolean, (BinaryFunction MixedT BigIntT BooleanT InEqualsFunction));
      ([kBigInt; kMixed], kBoolean, (BinaryFunction BigIntT MixedT BooleanT InEqualsFunction));
      ([kMixed; kDouble], kBoolean, (BinaryFunction MixedT DoubleT BooleanT InEqualsFunction));
      ([kDouble; kMixed], kBoolean, (BinaryFunction DoubleT MixedT BooleanT InEqualsFunction));
      ([kMixed; kVarchar], kBoolean, (BinaryFunction MixedT VarcharT BooleanT InEqualsFunction));
      ([kVarchar; kMixed], kBoolean, (BinaryFunction VarcharT MixedT BooleanT InEqualsFunction)) ].

Definition RegisterLessFunction (fs : Registry) : outcome Registry :=
  Register fs "<"
    [ ([kTinyInt; kTinyInt], kBoolean, (BinaryFunction TinyIntT TinyIntT BooleanT LessFunction));
      ([kSmallInt; kSmallInt], kBoolean, (BinaryFunction SmallIntT SmallIntT BooleanT LessFunction));
      ([kInteger; kInteger], kBoolean, (BinaryFunction IntegerT IntegerT BooleanT LessFunction));
      ([kBigInt; kBigInt], kBoolean, (BinaryFunction BigIntT BigIntT BooleanT LessFunction));
      ([kHugeInt; kHugeInt], kBoolean, (BinaryFunction HugeIntT HugeIntT BooleanT LessFunction));
      ([kFloat; kFloat], kBoolean, (BinaryFunction FloatT FloatT BooleanT LessFunction));
      ([kDouble; kDouble], kBoolean, (BinaryFunction DoubleT DoubleT BooleanT LessFunction));
      ([kVarchar; kVarchar], kBoolean, (BinaryFunction VarcharT VarcharT BooleanT LessFunction));
      ([kDate; kDate], kBoolean, (BinaryFunction DateT DateT BooleanT LessFunction));
      ([kMixed; kBigInt], kBoolean, (BinaryFunction MixedT BigIntT BooleanT LessFunction));
      ([kBigInt; kMixed], kBoolean, (BinaryFunction BigIntT MixedT BooleanT LessFunction));
      ([kMixed; kDouble], kBoolean, (BinaryFunction MixedT DoubleT BooleanT LessFunction));
      ([kDouble; kMixed], kBoolean, (BinaryFunction DoubleT MixedT BooleanT LessFunction));
      ([kMixed; kVarchar], kBoolean, (BinaryFunction MixedT VarcharT BooleanT LessFunction));
      ([kVarchar; kMixed], kBoolean, (BinaryFunction VarcharT MixedT BooleanT LessFunction)) ].

Definition RegisterLessEqualsFunction (fs : Registry) : outcome Registry :=
  Register fs "<="
    [ ([kTinyInt; kTinyInt], kBoolean, (BinaryFunction TinyIntT TinyIntT BooleanT LessEqualsFunction));
      ([kSmallInt; kSmallInt], kBoolean, (BinaryFunction SmallIntT SmallIntT BooleanT LessEqualsFunction));
      ([kInteger; kInteger], kBoolean, (BinaryFunction IntegerT IntegerT BooleanT LessEqualsFunction));
      ([kBigInt; kBigInt], kBoolean, (BinaryFunction BigIntT BigIntT BooleanT LessEqualsFunction));
      ([kHugeInt; kHugeInt], kBoolean, (BinaryFunction HugeIntT HugeIntT BooleanT LessEqualsFunction));
      ([kFloat; kFloat], kBoolean, (BinaryFunction FloatT FloatT BooleanT LessEqualsFunction));
      ([kDouble; kDouble], kBoolean, (BinaryFunction DoubleT DoubleT BooleanT LessEqualsFunction));
      ([kVarchar; kVarchar], kBoolean, (BinaryFunction VarcharT VarcharT BooleanT LessEqualsFunction));
      ([kDate; kDate], kBoolean, (BinaryFunction DateT DateT BooleanT LessEqualsFunction));
      ([kMixed; kBigInt], kBoolean, (BinaryFunction MixedT BigIntT BooleanT LessEqualsFunction));
      ([kBigInt; kMixed], kBoolean, (BinaryFunction BigIntT MixedT BooleanT LessEqualsFunction));
      ([kMixed; kDouble], kBoolean, (BinaryFunction MixedT DoubleT BooleanT LessEqualsFunction));
      ([kDouble; kMixed], kBoolean, (BinaryFunction DoubleT MixedT BooleanT LessEqualsFunction));
      ([kMixed; kVarchar], kBoolean, (BinaryFunction MixedT VarcharT BooleanT LessEqualsFunction));
      ([kVarchar; kMixed], kBoolean, (BinaryFunction VarcharT MixedT BooleanT LessEqualsFunction)) ].

Definition RegisterGreaterFunction (fs : Registry) : outcome Registry :=
  Register fs ">"
    [ ([kTinyInt; kTinyInt], kBoolean, (BinaryFunction TinyIntT TinyIntT BooleanT GreaterFunction));
      ([kSmallInt; kSmallInt], kBoolean, (BinaryFunction SmallIntT SmallIntT BooleanT GreaterFunction));
      ([kInteger; kInteger], kBoolean, (BinaryFunction IntegerT IntegerT BooleanT GreaterFunction));
      ([kBigInt; kBigInt], kBoolean, (BinaryFunction BigIntT BigIntT BooleanT GreaterFunction));
      ([kHugeInt; kHugeInt], kBoolean, (BinaryFunction HugeIntT HugeIntT BooleanT GreaterFunction));
      ([kFloat; kFloat], kBoolean, (BinaryFunction FloatT FloatT BooleanT GreaterFunction));
      ([kDouble; kDouble], kBoolean, (BinaryFunction DoubleT DoubleT BooleanT GreaterFunction));
      ([kVarchar; kVarchar], kBoolean, (BinaryFunction VarcharT VarcharT BooleanT GreaterFunction));
      ([kDate; kDate], kBoolean, (BinaryFunction DateT DateT BooleanT GreaterFunction));
      ([kMixed; kBigInt], kBoolean, (BinaryFunction MixedT BigIntT BooleanT GreaterFunction));
      ([kBigInt; kMixed], kBoolean, (BinaryFunction BigIntT MixedT BooleanT GreaterFunction));
      ([kMixed; kDouble], kBoolean, (BinaryFunction MixedT DoubleT BooleanT GreaterFunction));
      ([kDouble; kMixed], kBoolean, (BinaryFunction DoubleT MixedT BooleanT GreaterFunction));
      ([kMixed; kVarchar], kBoolean, (BinaryFunction MixedT VarcharT BooleanT GreaterFunction));
      ([kVarchar; kMixed], kBoolean, (BinaryFunction VarcharT MixedT BooleanT GreaterFunction)) ].

Definition RegisterGreaterEqualsFunction (fs : Registry) : outcome Registry :=
  Register fs ">="
    [ ([kTinyInt; kTinyInt], kBoolean, (BinaryFunction TinyIntT TinyIntT BooleanT GreaterEqualsFunction));
      ([kSmallInt; kSmallInt], kBoolean, (BinaryFunction SmallIntT SmallIntT BooleanT GreaterEqualsFunction));
      ([kInteger; kInteger], kBoolean, (BinaryFunction IntegerT IntegerT BooleanT GreaterEqualsFunction));
      ([kBigInt; kBigInt], kBoolean, (BinaryFunction BigIntT BigIntT BooleanT GreaterEqualsFunction));
      ([kHugeInt; kHugeInt], kBoolean, (BinaryFunction HugeIntT HugeIntT BooleanT GreaterEqualsFunction));
      ([kFloat; kFloat], kBoolean, (BinaryFunction FloatT FloatT BooleanT GreaterEqualsFunction));
      ([kDouble; kDouble], kBoolean, (BinaryFunction DoubleT DoubleT BooleanT GreaterEqualsFunction));
      ([kVarchar; kVarchar], kBoolean, (BinaryFunction VarcharT VarcharT BooleanT GreaterEqualsFunction));
      ([kDate; kDate], kBoolean, (BinaryFunction DateT DateT BooleanT GreaterEqualsFunction));
      ([kMixed; kBigInt], kBoolean, (BinaryFunction MixedT BigIntT BooleanT GreaterEqualsFunction));
      ([kBigInt; kMixed], kBoolean, (BinaryFunction BigIntT MixedT BooleanT GreaterEqualsFunction));
      ([kMixed; kDouble], kBoolean, (BinaryFunction MixedT DoubleT BooleanT GreaterEqualsFunction));
      ([kDouble; kMixed], kBoolean, (BinaryFunction DoubleT MixedT BooleanT GreaterEqualsFunction));
      ([kMixed; kVarchar], kBoolean, (BinaryFunction MixedT VarcharT BooleanT GreaterEqualsFunction));
      ([kVarchar; kMixed], kBoolean, (BinaryFunction VarcharT MixedT BooleanT GreaterEqualsFunction)) ].

Definition RegisterLikeFunction (fs : Registry) : outcome Registry :=
  Register fs "like"
    [ ([kVarchar; kVarchar], kBoolean, (BinaryFunction VarcharT VarcharT BooleanT LikeFunction)) ].

Definition RegisterNotLikeFunction (fs : Registry) : outcome Registry :=
  Register fs "not_like"
    [ ([kVarchar; kVarchar], kBoolean, (BinaryFunction VarcharT VarcharT BooleanT NotLikeFunction)) ].

Definition RegisterExtractFunction (fs : Registry) : outcome Registry :=
  fs ← Register fs "extract_year" [([kDate], kBigInt, (UnaryFunction DateT BigIntT ExtractYearFunction))];
  fs ← Register fs "extract_month" [([kDate], kBigInt, (UnaryFunction DateT BigIntT ExtractMonthFunction))];
  Register fs "extract_day" [([kDate], kBigInt, (UnaryFunction DateT BigIntT ExtractDayFunction))].

Definition RegisterSubstringFunction (fs : Registry) : outcome Registry :=
  Register fs "substring"
    [ ([kVarchar; kBigInt; kBigInt], kVarchar, (TernaryFunctionToVarlenWithFailure VarcharT BigIntT BigIntT VarcharT SubstrFunction)) ].

(** [BuiltinFunctions::RegisterScalarFunction] *)
Definition RegisterScalarFunction (fs : Registry) : outcome Registry :=
  fs ← RegisterAddFunction fs;
  fs ← RegisterSubtractFunction fs;
  fs ← RegisterMulFunction fs;
  fs ← RegisterDivFunction fs;
  fs ← RegisterAndFunction fs;
  fs ← RegisterOrFunction fs;
  fs ← RegisterNotFunction fs;
  fs ← RegisterAbsFunction fs;
  fs ← RegisterPowFunction fs;
  fs ← RegisterEqualsFunction fs;
  fs ← RegisterInEqualsFunction fs;
  fs ← RegisterLessFunction fs;
  fs ← RegisterLessEqualsFunction fs;
  fs ← RegisterGreaterFunction fs;
  fs ← RegisterGreaterEqualsFunction fs;
  fs ← RegisterLikeFunction fs;
  fs ← RegisterNotLikeFunction fs;
  fs ← RegisterExtractFunction fs;
  RegisterSubstringFunction fs.
