(* ===== verification/Varchar.v ===== *)
(** * Strings as values

    [parser/type/complex/varchar.cpp]: a [Varchar] keeps a string of at most 13 bytes
    in the object, a longer one as a block on the heap with its first bytes beside the
    pointer, or, in a column vector, as a place in the heap of the vector.  The
    comparisons of strings are those of [function/scalar/equals.cpp] and
    [function/scalar/inequals.cpp].

    The union of the three forms is its 13 bytes; a pointer is stored in eight of them.
    The heap maps the addresses of live blocks to their contents; [operator new] is a
    parameter, and so is which address it takes. *)
From S2P Require Import Prelude Common Arrays Wire.

Local Open Scope Z_scope.

Definition VARCHAR_PREFIX_LENGTH : Z := 5.
Definition VARCHAR_INLINE_LENGTH : Z := 13.
Definition VARCHAR_LENGTH_LIMIT : Z := 8 * 1024 * 1024.

(** ** Objects *)

Record Varchar := mkVarchar {
  is_value_ : bool;
  length_ : Z;
  union_ : list Z
}.

Definition IsInlined (v : Varchar) : bool := length_ v <=? VARCHAR_INLINE_LENGTH.

(** [value_.prefix_], also [vector_.prefix_], and [value_.ptr_]. *)
Definition prefix_ (v : Varchar) : list Z := take 5 (union_ v).
Definition ptr_ (v : Varchar) : Z := le_value (drop 5 (union_ v)).

Definition set_length (v : Varchar) (n : Z) : Varchar := mkVarchar (is_value_ v) (u_wrap 23 n) (union_ v).
Definition set_ptr (v : Varchar) (p : Z) : Varchar := mkVarchar (is_value_ v) (length_ v) (take 5 (union_ v) ++ le_bytes 8 p).

(** ** The heap *)

Notation Heap := (gmap Z (list Z)).

Definition load (h : Heap) (p n : Z) : outcome (list Z) :=
  match h !! p with
  | Some block => read_at block 0 n
  | None => UB "dangling pointer"
  end.

(** [delete[] p] *)
Definition delete_array (h : Heap) (p : Z) : outcome Heap :=
  if p =? 0 then Ret h
  else match h !! p with Some _ => Ret (delete p h) | None => UB "dangling pointer" end.

(** [delete p]: the blocks of the heap are arrays, which it must not release. *)
Definition delete_object (h : Heap) (p : Z) : outcome Heap := if p =? 0 then Ret h else UB "delete of an array".

(** [memcmp(a, b, n) == 0] for [n] bytes of each. *)
Definition memcmp0 (a b : list Z) : bool := bool_decide (a = b).

(** [strncmp(a, b, n) == 0] for at most [n] bytes of each. *)
Fixpoint strncmp0 (a b : list Z) : bool :=
  match a, b with
  | x :: a, y :: b => if x =? y then if x =? 0 then true else strncmp0 a b else false
  | _, _ => true
  end.

Section Varchar.
(** The address of a new block of so many bytes, none when memory is exhausted. *)
Context (new_address : Heap -> Z -> option Z).

(** [new char[n]]; the bytes of the block are indeterminate. *)
Definition new_array (h : Heap) (n : Z) (init : list Z) : outcome (Heap * Z) :=
  match new_address h n with
  | Some p => Ret (<[p := init]> h, p)
  | None => Throw StdException "std::bad_alloc"
  end.

Definition zeros (n : Z) : list Z := replicate (Z.to_nat n) 0.

(** ** Operations *)

Definition Varchar_New (h : Heap) (is_value : bool) (length : Z) : outcome (Heap * Varchar) :=
  let this := mkVarchar is_value (u_wrap 23 length) (zeros 13) in
  if is_value then
    if length =? 0 then Ret (h, this)
    else '(h, p) ← new_array h (length_ this) (zeros (length_ this)); Ret (h, set_ptr this p)
  else Ret (h, this).

Definition Reset (h : Heap) (this : Varchar) (clean_memory : bool) : outcome (Heap * Varchar) :=
  if IsInlined this then Ret (h, set_length this 0)
  else if negb clean_memory then Ret (h, set_ptr (set_length this 0) 0)
  else if is_value_ this then h ← delete_array h (ptr_ this); Ret (h, set_ptr (set_length this 0) 0)
  else Ret (h, this).

Definition DeepCopy (h : Heap) (this other : Varchar) : outcome (Heap * Varchar) :=
  if negb (is_value_ other) && negb (IsInlined other) then Throw ParserException "Only support copy from varchar value to varchar value"
  else
    '(h, this) ← (if 0 <? length_ this then Reset h this true else Ret (h, this));
    if IsInlined other then Ret (h, other)
    else
      '(h, p) ← new_array h (length_ other) (zeros (length_ other));
      source ← load h (ptr_ other) (length_ other);
      Ret (<[p := source]> h, mkVarchar (is_value_ other) (length_ other) (prefix_ other ++ le_bytes 8 p)).

(** The assignment from an rvalue, for two objects: this one and the other after it.
    An exception cannot leave the function, which is [noexcept]. *)
Definition MoveAssign (h : Heap) (this other : Varchar) : outcome (Heap * Varchar * Varchar) :=
  '(h, this) ← (if is_value_ this then Reset h this true else Ret (h, this));
  if IsInlined other then
    let n := Z.to_nat (length_ other) in
    Ret (h, mkVarchar (is_value_ other) (length_ other) (take n (union_ other) ++ drop n (union_ this)), set_length other 0)
  else if is_value_ other then
    Ret (h, mkVarchar (is_value_ other) (length_ other) (prefix_ other ++ le_bytes 8 (ptr_ other)), set_length (set_ptr other 0) 0)
  else UB "std::terminate".

(** The assignment of an object to itself. *)
Definition MoveSelf (h : Heap) (this : Varchar) : outcome (Heap * Varchar) :=
  '(h, this) ← (if is_value_ this then Reset h this true else Ret (h, this));
  if IsInlined this then Ret (h, set_length this 0)
  else UB "std::terminate".

(** [input] is the [input_len] bytes at [input_ptr]; [moved] is [input_ptr] with
    [is_move], and none without. *)
Definition InitAsValue (h : Heap) (this : Varchar) (input : list Z) (moved : option Z) : outcome (Heap * Varchar) :=
  let input_len := Z.of_nat (length input) in
  if VARCHAR_LENGTH_LIMIT <? input_len then Throw ParserException "Attempt to write string with length exceed 8M into value"
  else if negb (length_ this =? 0) then Throw ParserException "Varchar type was already initialized."
  else
    let this := mkVarchar true (u_wrap 23 (to_u16 input_len)) (union_ this) in
    if IsInlined this then
      let n := Z.to_nat (length_ this) in
      let this := mkVarchar true (length_ this) (take n input ++ drop n (union_ this)) in
      match moved with
      | Some p => h ← delete_object h p; Ret (h, this)
      | None => Ret (h, this)
      end
    else
      match moved with
      | Some p => Ret (h, mkVarchar true (length_ this) (take 5 input ++ le_bytes 8 p))
      | None =>
          '(h, p) ← new_array h input_len input;
          Ret (h, mkVarchar true (length_ this) (take 5 input ++ le_bytes 8 p))
      end.

Definition ToString (h : Heap) (this : Varchar) : outcome (list Z) :=
  if IsInlined this then Ret (take (Z.to_nat (length_ this)) (union_ this))
  else if is_value_ this then load h (ptr_ this) (length_ this)
  else Ret (prefix_ this).

(** [operator==] *)
Definition Varchar_eq (h : Heap) (this other : Varchar) : outcome bool :=
  if negb (length_ this =? length_ other) then Ret false
  else if negb (Bool.eqb (is_value_ this) (is_value_ other)) then Ret false
  else if IsInlined this then
    let n := Z.to_nat (length_ this) in Ret (strncmp0 (take n (union_ this)) (take n (union_ other)))
  else if is_value_ this then
    if negb (strncmp0 (prefix_ this) (prefix_ other)) then Ret false
    else
      a ← load h (ptr_ this) (length_ this);
      b ← load h (ptr_ other) (length_ this);
      Ret (strncmp0 a b)
  else Throw ParserException "Only support equal operator from varchar value to varchar value".

(** ** The comparisons of the scalar functions *)

(** [EqualsFunction::Run] on two strings. *)
Definition EqualsFunction_Run (h : Heap) (left right : Varchar) : outcome bool :=
  if negb (length_ left =? length_ right) then Ret false
  else if IsInlined left then
    let n := Z.to_nat (length_ left) in Ret (memcmp0 (take n (union_ left)) (take n (union_ right)))
  else if is_value_ left && is_value_ right then
    if memcmp0 (prefix_ left) (prefix_ right) then
      a ← load h (ptr_ left) (length_ left);
      b ← load h (ptr_ right) (length_ left);
      Ret (memcmp0 a b)
    else Ret false
  else Throw NotImplementException "Column vector varchar can't be compared".

(** [InEqualsFunction::Run] on two strings. *)
Definition InEqualsFunction_Run (h : Heap) (left right : Varchar) : outcome bool :=
  if negb (length_ left =? length_ right) then Ret true
  else if IsInlined left then
    let n := Z.to_nat (length_ left) in Ret (negb (memcmp0 (take n (union_ left)) (take n (union_ right))))
  else if is_value_ left && is_value_ right then
    if negb (memcmp0 (prefix_ left) (prefix_ right)) then
      a ← load h (ptr_ left) (length_ left);
      b ← load h (ptr_ right) (length_ left);
      Ret (negb (memcmp0 a b))
    else Ret true
  else Throw NotImplementException "Column vector varchar can't be compared".

(** ** Programs over several strings

    The variables of a program and the heap; a step is one operation on them.
    [InitMoved] fills a new array and hands it over with [is_move]. *)

Inductive Statement :=
  | Construct
  | Init (i : nat) (input : list Z)
  | InitMoved (i : nat) (input : list Z)
  | CopyAssign (i j : nat)
  | Move (i j : nat)
  | ResetAt (i : nat).

Definition State : Type := Heap * list Varchar.

Definition variable (vs : list Varchar) (i : nat) : outcome Varchar :=
  match vs !! i with Some v => Ret v | None => UB "no variable" end.

Definition execute (s : State) (c : Statement) : outcome State :=
  let '(h, vs) := s in
  match c with
  | Construct => '(h, v) ← Varchar_New h true 0; Ret (h, vs ++ [v])
  | Init i input => this ← variable vs i; '(h, v) ← InitAsValue h this input None; Ret (h, <[i := v]> vs)
  | InitMoved i input =>
      this ← variable vs i; '(h, p) ← new_array h (Z.of_nat (length input)) input;
      '(h, v) ← InitAsValue h this input (Some p); Ret (h, <[i := v]> vs)
  | CopyAssign i j =>
      this ← variable vs i; other ← variable vs j;
      if bool_decide (i = j) then Ret (h, vs) else '(h, v) ← DeepCopy h this other; Ret (h, <[i := v]> vs)
  | Move i j =>
      this ← variable vs i; other ← variable vs j;
      if bool_decide (i = j) then '(h, v) ← MoveSelf h this; Ret (h, <[i := v]> vs)
      else '(h, v, w) ← MoveAssign h this other; Ret (h, <[j := w]> (<[i := v]> vs))
  | ResetAt i => this ← variable vs i; '(h, v) ← Reset h this true; Ret (h, <[i := v]> vs)
  end.
End Varchar.
