(* ===== verification/VarcharProps.v ===== *)
(** * Strings as values: theorems

    The objects of a program implement strings: each operation does to the strings
    what its name says, no object shares its block with another, no block is lost and
    no block is freed twice.  The comparisons of two values. *)
From S2P Require Import Prelude Common Arrays Wire Varchar.

Local Open Scope Z_scope.

(** ** Strings held by objects *)

(** The block of an object. *)
Definition owned (v : Varchar) : option Z := if is_value_ v && negb (IsInlined v) then Some (ptr_ v) else None.

(** The value [v] holds the string [s]. *)
Definition holds (h : Heap) (v : Varchar) (s : list Z) : Prop :=
  is_value_ v = true /\ length (union_ v) = 13%nat /\ length_ v = Z.of_nat (length s) /\ length_ v < 2 ^ 23 /\
  if IsInlined v then take (length s) (union_ v) = s
  else 0 < ptr_ v < 2 ^ 64 /\ prefix_ v = take 5 s /\ exists block, h !! ptr_ v = Some block /\ take (length s) block = s.

(** What the variables of a program hold; [strings] is the abstract state. *)
Definition represents (st : State) (strings : list (list Z)) : Prop :=
  Forall2 (holds st.1) st.2 strings /\
  (forall i j v w p, st.2 !! i = Some v -> st.2 !! j = Some w -> owned v = Some p -> owned w = Some p -> i = j) /\
  (forall p, is_Some (st.1 !! p) -> exists i v, st.2 !! i = Some v /\ owned v = Some p).

(** The length of a string is kept in 16 bits. *)
Definition stored (input : list Z) : list Z := take (Z.to_nat (to_u16 (Z.of_nat (length input)))) input.

(** The operations on strings; an operation that is refused has no result. *)
Definition specified (strings : list (list Z)) (c : Statement) : option (list (list Z)) :=
  match c with
  | Construct => Some (strings ++ [[]])
  | Init i input | InitMoved i input =>
      s ← strings !! i;
      if bool_decide (s = []) && (Z.of_nat (length input) <=? VARCHAR_LENGTH_LIMIT) then Some (<[i := stored input]> strings) else None
  | CopyAssign i j => _ ← strings !! i; s ← strings !! j; Some (<[i := s]> strings)
  | Move i j => _ ← strings !! i; s ← strings !! j; Some (<[j := []]> (<[i := s]> strings))
  | ResetAt i => _ ← strings !! i; Some (<[i := []]> strings)
  end.

(** The variables of the operation exist, and an array that is handed over is longer
    than what is kept in the object: a shorter one is released with [delete]. *)
Definition in_scope (n : nat) (c : Statement) : bool :=
  match c with
  | Construct => true
  | Init i _ | ResetAt i => bool_decide (i < n)%nat
  | InitMoved i input => bool_decide (i < n)%nat && (VARCHAR_INLINE_LENGTH <? to_u16 (Z.of_nat (length input)))
  | CopyAssign i j | Move i j => bool_decide (i < n)%nat && bool_decide (j < n)%nat
  end.

(** ** Lemmas *)

Lemma owned_value v : is_value_ v = true -> owned v = if IsInlined v then None else Some (ptr_ v).
Proof. intros Hv. unfold owned. rewrite Hv. by destruct (IsInlined v). Qed.

Lemma holds_frame h h' v s : (forall p, owned v = Some p -> h' !! p = h !! p) -> holds h v s -> holds h' v s.
Proof.
  intros Hh (Hv & Hu & Hl & Hm & Hs). do 4 (split; [done|]). rewrite (owned_value _ Hv) in Hh.
  destruct (IsInlined v); [done|]. by rewrite (Hh _ eq_refl).
Qed.

Lemma holds_block h v s p : holds h v s -> owned v = Some p -> is_Some (h !! p).
Proof.
  intros (Hv & _ & _ & _ & Hs) Hp. rewrite (owned_value _ Hv) in Hp. destruct (IsInlined v); [done|].
  injection Hp as <-. destruct Hs as (Hp & _ & block & Hb & _). by exists block.
Qed.

Lemma holds_to_string h v s : holds h v s -> ToString h v = Ret s.
Proof.
  intros (Hv & _ & Hl & _ & Hs). unfold ToString. destruct (IsInlined v).
  - rewrite Hl, Nat2Z.id. by rewrite Hs.
  - rewrite Hv. destruct Hs as (_ & _ & block & Hb & Ht). unfold load. rewrite Hb, Hl, (read_at_in _ 0); [by rewrite drop_0, Ht|].
    rewrite <- Ht, length_take. lia.
Qed.

(** Objects of the two forms. *)
Lemma holds_long h s block p : 13 < Z.of_nat (length s) < 2 ^ 23 -> 0 < p < 2 ^ 64 -> h !! p = Some block -> take (length s) block = s ->
  holds h (mkVarchar true (Z.of_nat (length s)) (take 5 s ++ le_bytes 8 p)) s /\ owned (mkVarchar true (Z.of_nat (length s)) (take 5 s ++ le_bytes 8 p)) = Some p.
Proof.
  intros Hs Hp Hb Ht. unfold holds, owned, IsInlined, VARCHAR_INLINE_LENGTH, ptr_, prefix_. cbn [is_value_ length_ union_].
  rewrite (proj2 (Z.leb_gt _ _)) by lia. assert (length (take 5 s) = 5%nat) as H5 by (rewrite length_take; lia).
  rewrite take_app_length', drop_app_length' by done. rewrite le_value_bytes, u_wrap_id by (unfold u_range; lia).
  split; [|done]. rewrite length_app, le_bytes_length, H5. split_and!; [done|lia|done|lia|lia|lia|done|by exists block].
Qed.

Lemma holds_short h s u : (length s <= 13)%nat -> length u = 13%nat ->
  let v := mkVarchar true (Z.of_nat (length s)) (take (length s) s ++ drop (length s) u) in holds h v s /\ owned v = None.
Proof.
  intros Hs Hu v. unfold holds, owned, IsInlined, VARCHAR_INLINE_LENGTH. subst v. cbn [is_value_ length_ union_].
  rewrite (proj2 (Z.leb_le _ _)) by lia. rewrite (firstn_all s). split; [|done].
  rewrite length_app, length_drop, take_app_length. repeat split; lia.
Qed.

Lemma holds_empty h v : is_value_ v = true -> length (union_ v) = 13%nat -> holds h (set_length v 0) [] /\ owned (set_length v 0) = None.
Proof. intros Hv Hu. destruct v as [b n u]. cbn in Hv, Hu. subst b. split; [by repeat split|done]. Qed.

Lemma holds_inlined h v s : holds h v s -> IsInlined v = true -> owned v = None /\ forall h', holds h' v s.
Proof.
  intros Hh Hi. assert (owned v = None) as Ho by (unfold owned; rewrite Hi; by destruct (is_value_ v)).
  split; [done|]. intros h'. eapply holds_frame; [|done]. by rewrite Ho.
Qed.

Section States.
Implicit Types (h : Heap) (vs : list Varchar) (a : list (list Z)).

(** One variable is replaced: its block is freed unless the new object has it, and a
    block that the new object takes is a new one. *)
Lemma replace_at h vs a i v h' v' s' : represents (h, vs) a -> vs !! i = Some v -> holds h' v' s' ->
  (forall p, owned v = Some p -> owned v' <> Some p -> h' !! p = None) ->
  (forall p, owned v <> Some p -> owned v' <> Some p -> h' !! p = h !! p) ->
  (forall p, owned v' = Some p -> owned v = Some p \/ h !! p = None) ->
  represents (h', <[i := v']> vs) (<[i := s']> a).
Proof.
  intros (Hf & Hd & Hl) Hi Hh Hrel Hfr Had. cbn [fst snd] in *. pose proof (lookup_lt_Some _ _ _ Hi) as Hlt.
  assert (forall k x y p, k <> i -> vs !! k = Some x -> a !! k = Some y -> owned x = Some p -> owned v <> Some p /\ owned v' <> Some p) as Hne.
  { intros k x y p Hk Hx Hy Hp. assert (owned v <> Some p) as Hv by (intros Hv; by apply Hk, (Hd k i x v p)). split; [done|].
    intros Hv'. destruct (Had p Hv') as [|Hn]; [done|]. pose proof (Forall2_lookup_lr _ _ _ _ _ _ Hf Hx Hy) as Hxy.
    destruct (holds_block _ _ _ _ Hxy Hp) as [b Hb]. cbn in Hb. congruence. }
  split; [|split]; cbn [fst snd].
  - apply Forall2_same_length_lookup. split; [rewrite !length_insert; by eapply Forall2_length|]. intros k x y Hx Hy.
    destruct (decide (k = i)) as [->|Hk].
    + rewrite list_lookup_insert_eq in Hx by done. rewrite list_lookup_insert_eq in Hy by (by rewrite <- (Forall2_length _ _ _ Hf)). by simplify_eq.
    + rewrite list_lookup_insert_ne in Hx by done; rewrite list_lookup_insert_ne in Hy by done. apply (holds_frame h); [|by eapply Forall2_lookup_lr].
      intros p Hp. destruct (Hne k x y p Hk Hx Hy Hp). by apply Hfr.
  - assert (forall k x p, k <> i -> vs !! k = Some x -> owned x = Some p -> owned v' <> Some p) as Hne'.
    { intros k x p Hk Hx Hp. destruct (Forall2_lookup_l _ _ _ _ _ Hf Hx) as (y & Hy & _). by eapply Hne. }
    intros k l x y p Hx Hy Hpx Hpy. destruct (decide (k = i)) as [->|Hk], (decide (l = i)) as [->|Hm]; [done| | |].
    + rewrite list_lookup_insert_eq in Hx by done. rewrite list_lookup_insert_ne in Hy by done. simplify_eq. by destruct (Hne' l y p).
    + rewrite list_lookup_insert_eq in Hy by done. rewrite list_lookup_insert_ne in Hx by done. simplify_eq. by destruct (Hne' k x p).
    + rewrite list_lookup_insert_ne in Hx by done; rewrite list_lookup_insert_ne in Hy by done. by eapply Hd.
  - intros p Hp. destruct (decide (owned v' = Some p)) as [Ho'|Ho']; [exists i, v'; by rewrite list_lookup_insert_eq|].
    destruct (decide (owned v = Some p)) as [Ho|Ho]; [rewrite (Hrel p Ho Ho') in Hp; by destruct Hp|].
    rewrite (Hfr p Ho Ho') in Hp. destruct (Hl p Hp) as (k & x & Hx & Hpx). exists k, x. rewrite list_lookup_insert_ne; [done|]. intros ->. congruence.
Qed.

(** The string of [j] passes to [i], which has no block. *)
Lemma transfer h vs a i j v w s v' w' : represents (h, vs) a -> i <> j -> vs !! i = Some v -> vs !! j = Some w -> owned v = None ->
  holds h v' s -> holds h w' [] -> owned v' = owned w -> owned w' = None ->
  represents (h, <[j := w']> (<[i := v']> vs)) (<[j := []]> (<[i := s]> a)).
Proof.
  intros (Hf & Hd & Hl) Hij Hi Hj Hv Hh Hw Ho Ho'. cbn [fst snd] in *.
  pose proof (lookup_lt_Some _ _ _ Hi). pose proof (lookup_lt_Some _ _ _ Hj). pose proof (Forall2_length _ _ _ Hf) as Hlen.
  assert (forall k x, <[j := w']> (<[i := v']> vs) !! k = Some x -> (k = j /\ x = w') \/ (k = i /\ x = v') \/ (k <> i /\ k <> j /\ vs !! k = Some x)) as Hc.
  { intros k x Hx. destruct (decide (k = j)) as [->|Hkj]; [rewrite list_lookup_insert_eq in Hx by (by rewrite length_insert); left; split; congruence|].
    rewrite list_lookup_insert_ne in Hx by done. destruct (decide (k = i)) as [->|Hki]; [rewrite list_lookup_insert_eq in Hx by done; right; left; split; congruence|].
    rewrite list_lookup_insert_ne in Hx by done. tauto. }
  split; [|split]; cbn [fst snd].
  - apply Forall2_insert; [|done]. by apply Forall2_insert.
  - intros k l x y p Hx Hy Hpx Hpy. destruct (Hc _ _ Hx) as [[-> ->]|[[-> ->]|(? & ? & Hx')]]; [congruence| |]; (destruct (Hc _ _ Hy) as [[-> ->]|[[-> ->]|(? & ? & Hy')]]; [congruence| |]).
    + done.
    + rewrite Ho in Hpx. by destruct (Hd j l w y p).
    + rewrite Ho in Hpy. by destruct (Hd j k w x p).
    + by eapply Hd.
  - intros p Hp. destruct (Hl p Hp) as (k & x & Hx & Hpx). destruct (decide (k = j)) as [->|Hkj].
    + exists i, v'. rewrite list_lookup_insert_ne, list_lookup_insert_eq by done. split; [done|congruence].
    + assert (k <> i) by (intros ->; congruence). exists k, x. by rewrite !list_lookup_insert_ne.
Qed.
End States.

Section Operations.
Context (new_address : Heap -> Z -> option Z).
(** [operator new] returns an address that is neither null nor in use. *)
Hypothesis new_ok : forall h n p, new_address h n = Some p -> h !! p = None /\ 0 < p < 2 ^ 64.

Lemma reset_at h vs a i v : represents (h, vs) a -> vs !! i = Some v ->
  exists h' v', Reset h v true = Ret (h', v') /\ is_value_ v' = true /\ length (union_ v') = 13%nat /\ length_ v' = 0 /\
    owned v' = None /\ (forall p, owned v <> Some p -> h' !! p = h !! p) /\ represents (h', <[i := v']> vs) (<[i := []]> a).
Proof.
  intros HR Hi. destruct (Forall2_lookup_l _ _ _ _ _ (proj1 HR) Hi) as (s & Hs & Hh). cbn [fst snd] in *.
  pose proof Hh as (Hv & Hu & Hl & Hm & Hf). pose proof (owned_value _ Hv) as Ho. unfold Reset. destruct (IsInlined v) eqn:E.
  - destruct (holds_empty h v Hv Hu) as [He Ho']. exists h, (set_length v 0). split_and!; [done..|].
    apply (replace_at h vs a i v); [done|done|done|congruence|done|congruence].
  - rewrite Hv. destruct Hf as (Hp & _ & block & Hb & _). unfold delete_array. rewrite (proj2 (Z.eqb_neq _ _)), Hb by lia. cbn [mbind outcome_bind negb].
    assert (length (union_ (set_ptr v 0)) = 13%nat) as Hu' by (cbn [union_ set_ptr]; rewrite length_app, length_take, le_bytes_length; lia).
    destruct (holds_empty (delete (ptr_ v) h) (set_ptr v 0) Hv Hu') as [He Ho'].
    change (set_ptr (set_length v 0) 0) with (set_length (set_ptr v 0) 0).
    exists (delete (ptr_ v) h), (set_length (set_ptr v 0) 0). split_and!; [done|done|done|done|done|intros p Hne; by rewrite lookup_delete_ne by congruence|].
    apply (replace_at h vs a i v); [done|done|done| | |by rewrite Ho'].
    + intros p Hq _. rewrite Ho in Hq. injection Hq as <-. by rewrite lookup_delete_eq.
    + intros p Hq _. rewrite lookup_delete_ne; [done|]. congruence.
Qed.

(** A string that has at most 13 bytes, or is copied to a new block. *)
Lemma put_at h vs a i v v' s : represents (h, vs) a -> vs !! i = Some v -> owned v = None -> holds h v' s -> owned v' = None ->
  represents (h, <[i := v']> vs) (<[i := s]> a).
Proof. intros HR Hi Hv Hh Ho. apply (replace_at h vs a i v); [done|done|done|congruence|done|congruence]. Qed.

Lemma put_new h vs a i v s block n p : represents (h, vs) a -> vs !! i = Some v -> owned v = None -> new_address h n = Some p ->
  13 < Z.of_nat (length s) < 2 ^ 23 -> take (length s) block = s ->
  represents (<[p := block]> h, <[i := mkVarchar true (Z.of_nat (length s)) (take 5 s ++ le_bytes 8 p)]> vs) (<[i := s]> a).
Proof.
  intros HR Hi Hv Hp Hs Ht. destruct (new_ok _ _ _ Hp) as [Hn Hr].
  destruct (holds_long (<[p := block]> h) s block p Hs Hr (lookup_insert_eq _ _ _) Ht) as [Hh Ho].
  apply (replace_at h vs a i v); [done|done|done|congruence| |].
  - intros q _ Hq. rewrite lookup_insert_ne by congruence. done.
  - intros q Hq. right. congruence.
Qed.

(** The object is initialised only when it is empty, and its block is then the array
    that is handed over or a new one. *)
Lemma init_cases h h' v s input moved : holds h v s -> (forall p, moved = Some p -> 13 < to_u16 (Z.of_nat (length input)) /\ h' !! p = Some input) ->
  match InitAsValue new_address h' v input moved with
  | Ret (h'', v') => s = [] /\ owned v = None /\ Z.of_nat (length input) <= VARCHAR_LENGTH_LIMIT /\
      ((moved = None /\ h'' = h' /\ holds h' v' (stored input) /\ owned v' = None) \/
       exists p, 13 < Z.of_nat (length (stored input)) < 2 ^ 23 /\ v' = mkVarchar true (Z.of_nat (length (stored input))) (take 5 (stored input) ++ le_bytes 8 p) /\
         match moved with
         | Some q => p = q /\ h'' = h'
         | None => new_address h' (Z.of_nat (length input)) = Some p /\ h'' = <[p := input]> h'
         end)
  | Throw ParserException _ => s <> [] \/ VARCHAR_LENGTH_LIMIT < Z.of_nat (length input)
  | Throw StdException _ => exists n, new_address h' n = None
  | _ => False
  end.
Proof.
  intros (Hv & Hu & Hl & Hm & _) Hmoved.
  unfold InitAsValue. destruct (_ <? _) eqn:E1; zbool; [by right|]. destruct (length_ v =? 0) eqn:E2; zbool; cbn [negb].
  2: { left. intros ->. by rewrite Hl in E2. }
  assert (s = []) as -> by (apply nil_length_inv; lia).
  assert (owned v = None) as Ho by (rewrite (owned_value _ Hv); unfold IsInlined, VARCHAR_INLINE_LENGTH; by rewrite E2).
  set (n := to_u16 (Z.of_nat (length input))). assert (0 <= n < 2 ^ 16) as Hn by (apply (u_wrap_range 16); lia).
  assert (n <= Z.of_nat (length input)) as Hle by (apply Z.mod_le; lia).
  assert (Z.of_nat (length (stored input)) = n) as Hst by (unfold stored; rewrite length_take; fold n; lia).
  rewrite u_wrap_id by (unfold u_range; lia). unfold IsInlined at 1, VARCHAR_INLINE_LENGTH. cbn [length_]. destruct (n <=? 13) eqn:E3; zbool.
  - destruct moved as [q|]; [destruct (Hmoved q eq_refl) as [Hq _]; fold n in Hq; lia|]. split_and!; [done|done|done|]. left.
    destruct (holds_short h' (stored input) (union_ v)) as [Hs Hs']; [lia|done|].
    rewrite firstn_all, Hst in Hs, Hs'. replace (length (stored input)) with (Z.to_nat n) in Hs, Hs' by lia. done.
  - assert (take 5 (stored input) = take 5 input) as Hp5 by (unfold stored; rewrite take_take; f_equal; fold n; lia).
    destruct moved as [q|]; [|unfold new_array; destruct (new_address h' _) as [p|] eqn:Ep; [|by eexists]; cbn [mbind outcome_bind]].
    all: split_and!; [done|done|done|]; right; eexists; rewrite Hst, Hp5; split_and!; [lia|lia|done|done|done].
Qed.

Lemma stored_prefix input : take (length (stored input)) input = stored input.
Proof. unfold stored at 1. rewrite length_take. unfold stored. pose proof (Z.mod_le (Z.of_nat (length input)) (2 ^ 16)). f_equal. unfold to_u16, u_wrap. lia. Qed.

Lemma init_at h vs a i v s input : represents (h, vs) a -> vs !! i = Some v -> a !! i = Some s ->
  match InitAsValue new_address h v input None with
  | Ret (h', v') => s = [] /\ Z.of_nat (length input) <= VARCHAR_LENGTH_LIMIT /\ represents (h', <[i := v']> vs) (<[i := stored input]> a)
  | Throw ParserException _ => s <> [] \/ VARCHAR_LENGTH_LIMIT < Z.of_nat (length input)
  | Throw StdException _ => exists h' n, new_address h' n = None
  | _ => False
  end.
Proof.
  intros HR Hi Ha. pose proof (init_cases h h v s input None (Forall2_lookup_lr _ _ _ _ _ _ (proj1 HR) Hi Ha) ltac:(done)) as H.
  destruct (InitAsValue _ _ _ _ _) as [[h' v']|e ?|]; [|destruct e; try done; destruct H as [n H]; by exists h, n|done].
  destruct H as (-> & Ho & Hle & [(_ & -> & Hs & Hs')|(p & Hs & -> & Hp & ->)]); split_and!; [done|done| |done|done|].
  - by apply (put_at h vs a i v).
  - eapply put_new; [done|done|done|done|done|apply stored_prefix].
Qed.

Lemma init_moved_at h vs a i v s input : represents (h, vs) a -> vs !! i = Some v -> a !! i = Some s -> 13 < to_u16 (Z.of_nat (length input)) ->
  match '(h, p) ← new_array new_address h (Z.of_nat (length input)) input; InitAsValue new_address h v input (Some p) with
  | Ret (h', v') => s = [] /\ Z.of_nat (length input) <= VARCHAR_LENGTH_LIMIT /\ represents (h', <[i := v']> vs) (<[i := stored input]> a)
  | Throw ParserException _ => s <> [] \/ VARCHAR_LENGTH_LIMIT < Z.of_nat (length input)
  | Throw StdException _ => exists h' n, new_address h' n = None
  | _ => False
  end.
Proof.
  intros HR Hi Ha H13. unfold new_array at 1. destruct (new_address h _) as [q|] eqn:Eq; [|by exists h, (Z.of_nat (length input))]. cbn [mbind outcome_bind].
  pose proof (init_cases h (<[q := input]> h) v s input (Some q) (Forall2_lookup_lr _ _ _ _ _ _ (proj1 HR) Hi Ha)) as H.
  specialize (H ltac:(intros ? [= <-]; split; [done|apply lookup_insert_eq])).
  destruct (InitAsValue _ _ _ _ _) as [[h' v']|e ?|]; [|destruct e; try done; destruct H as [n H]; by eexists _, n|done].
  destruct H as (-> & Ho & Hle & [(? & _)|(p & Hs & -> & -> & ->)]); [done|]. split_and!; [done|done|].
  eapply put_new; [done|done|done|done|done|apply stored_prefix].
Qed.

(** The object of a string after its place in the program was given to another. *)
Lemma load_block h v s : holds h v s -> IsInlined v = false -> load h (ptr_ v) (length_ v) = Ret s.
Proof. intros Hh Hi. pose proof (holds_to_string _ _ _ Hh) as Ht. unfold ToString in Ht. by rewrite Hi, (proj1 Hh) in Ht. Qed.

Lemma long_string h v s : holds h v s -> IsInlined v = false -> 13 < Z.of_nat (length s) < 2 ^ 23.
Proof. intros (_ & _ & Hl & Hm & _) Hi. unfold IsInlined, VARCHAR_INLINE_LENGTH in Hi. zbool. lia. Qed.

(** The state in which the old string of [i] is freed. *)
Lemma clear_at h vs a i j v w s (c : bool) : represents (h, vs) a -> i <> j -> vs !! i = Some v -> vs !! j = Some w -> a !! j = Some s ->
  (c = false -> length_ v = 0) ->
  exists h' v', (if c then Reset h v true else Ret (h, v)) = Ret (h', v') /\ length (union_ v') = 13%nat /\ owned v' = None /\
    holds h' w s /\ represents (h', <[i := v']> vs) (<[i := []]> a).
Proof.
  intros HR Hij Hi Hj Ha Hc. pose proof (Forall2_lookup_lr _ _ _ _ _ _ (proj1 HR) Hj Ha) as Hw. destruct c.
  - destruct (reset_at h vs a i v HR Hi) as (h' & v' & -> & _ & Hu & _ & Ho & Hfr & HR'). exists h', v'. split_and!; try done.
    apply (holds_frame h); [|done]. intros p Hp. apply Hfr. intros Hv. by apply Hij, (proj1 (proj2 HR) i j v w p).
  - specialize (Hc eq_refl). destruct (Forall2_lookup_l _ _ _ _ _ (proj1 HR) Hi) as (s0 & Hs0 & Hh). pose proof Hh as (Hv & Hu & Hl & _).
    assert (s0 = []) as -> by (apply nil_length_inv; lia).
    assert (owned v = None) as Ho by (rewrite (owned_value _ Hv); unfold IsInlined, VARCHAR_INLINE_LENGTH; by rewrite Hc).
    exists h, v. split_and!; [done..|]. by rewrite !list_insert_id.
Qed.

Lemma copy_at h vs a i j v w s : represents (h, vs) a -> i <> j -> vs !! i = Some v -> vs !! j = Some w -> a !! j = Some s ->
  match DeepCopy new_address h v w with
  | Ret (h', v') => represents (h', <[i := v']> vs) (<[i := s]> a)
  | Throw StdException _ => exists h n, new_address h n = None
  | _ => False
  end.
Proof.
  intros HR Hij Hi Hj Ha. pose proof (lookup_lt_Some _ _ _ Hi) as Hlt. unfold DeepCopy.
  destruct (Forall2_lookup_l _ _ _ _ _ (proj1 HR) Hi) as (s0 & _ & Hv). assert (0 <= length_ v) as H0 by (destruct Hv as (_ & _ & -> & _); lia).
  pose proof (Forall2_lookup_lr _ _ _ _ _ _ (proj1 HR) Hj Ha) as Hw. cbn [fst] in Hw. rewrite (proj1 Hw). cbn [negb andb].
  destruct (clear_at h vs a i j v w s (0 <? length_ v) HR Hij Hi Hj Ha) as (h' & v' & -> & _ & Ho & Hw' & HR'); [intros; zbool; lia|].
  cbn [mbind outcome_bind]. rewrite <- (list_insert_insert_eq a i s []). destruct (IsInlined w) eqn:E.
  - rewrite <- (list_insert_insert_eq vs i w v'). destruct (holds_inlined _ _ _ Hw' E). eapply put_at; [done|by apply list_lookup_insert_eq|done..].
  - unfold new_array. destruct (new_address h' _) as [p|] eqn:Ep; [|by eexists _, _]. cbn [mbind outcome_bind].
    assert (load (<[p := zeros (length_ w)]> h') (ptr_ w) (length_ w) = Ret s) as ->.
    { eapply load_block; [|done]. apply (holds_frame h'); [|done]. intros q Hq. destruct (holds_block _ _ _ _ Hw' Hq) as [b Hb].
      destruct (new_ok _ _ _ Ep) as [Hn _]. rewrite lookup_insert_ne by congruence. done. }
    cbn [mbind outcome_bind]. rewrite insert_insert_eq. pose proof (long_string _ _ _ Hw' E) as Hs. destruct Hw' as (_ & _ & Hl & _ & Hf). rewrite E in Hf.
    destruct Hf as (_ & -> & _). rewrite Hl, <- (list_insert_insert_eq vs i _ v'). eapply put_new; [done|by apply list_lookup_insert_eq|done|done|done|apply firstn_all].
Qed.

Lemma move_at h vs a i j v w s : represents (h, vs) a -> i <> j -> vs !! i = Some v -> vs !! j = Some w -> a !! j = Some s ->
  exists h' v' w', MoveAssign h v w = Ret (h', v', w') /\ represents (h', <[j := w']> (<[i := v']> vs)) (<[j := []]> (<[i := s]> a)).
Proof.
  intros HR Hij Hi Hj Ha. pose proof (lookup_lt_Some _ _ _ Hi) as Hlt. unfold MoveAssign.
  destruct (Forall2_lookup_l _ _ _ _ _ (proj1 HR) Hi) as (s0 & _ & Hv). rewrite (proj1 Hv).
  destruct (clear_at h vs a i j v w s true HR Hij Hi Hj Ha) as (h' & v' & Hr & Hu & Ho & Hw & HR'); [done|]. cbn in Hr. rewrite Hr. cbn [mbind outcome_bind].
  pose proof Hw as (Hwv & Hwu & Hwl & _ & Hf). rewrite Hwv.
  assert (forall x y, holds h' x s -> owned x = owned w -> holds h' y [] -> owned y = None ->
    represents (h', <[j := y]> (<[i := x]> vs)) (<[j := []]> (<[i := s]> a))) as Hgo.
  { intros x y Hx Hxo Hy Hyo. rewrite <- (list_insert_insert_eq a i s []), <- (list_insert_insert_eq vs i x v').
    eapply (transfer _ _ _ _ _ v' w); [done|done|by apply list_lookup_insert_eq|by rewrite list_lookup_insert_ne|done..]. }
  destruct (IsInlined w) eqn:E.
  - eexists _, _, _. split; [done|]. destruct (holds_inlined _ _ _ Hw E) as [Hwo _]. destruct (holds_empty h' w Hwv Hwu) as [He Heo].
    assert (length s <= 13)%nat as Hs by (unfold IsInlined, VARCHAR_INLINE_LENGTH in E; zbool; lia).
    destruct (holds_short h' s (union_ v') Hs Hu) as [Hx Hxo]. rewrite Hwl, Nat2Z.id, Hf. rewrite firstn_all in Hx, Hxo. apply Hgo; congruence.
  - eexists _, _, _. split; [done|]. destruct Hf as (Hp & Hpre & block & Hb & Ht). assert (owned w = Some (ptr_ w)) as Hwo by (by rewrite (owned_value _ Hwv), E).
    assert (length (union_ (set_ptr w 0)) = 13%nat) as Hu' by (cbn [union_ set_ptr]; rewrite length_app, length_take, le_bytes_length; lia).
    destruct (holds_empty h' (set_ptr w 0) Hwv Hu') as [He Heo]. rewrite Hpre, Hwl.
    destruct (holds_long h' s block (ptr_ w) (long_string _ _ _ Hw E) Hp Hb Ht) as [Hx Hxo]. apply Hgo; congruence.
Qed.

Lemma move_self h vs a i v : represents (h, vs) a -> vs !! i = Some v ->
  exists h' v', MoveSelf h v = Ret (h', v') /\ represents (h', <[i := v']> vs) (<[i := []]> a).
Proof.
  intros HR Hi. destruct (Forall2_lookup_l _ _ _ _ _ (proj1 HR) Hi) as (s & _ & Hv). unfold MoveSelf. rewrite (proj1 Hv).
  destruct (reset_at h vs a i v HR Hi) as (h' & [b n u] & -> & _ & _ & Hl & _ & _ & HR'). cbn in Hl. subst n. by eexists _, _.
Qed.

Lemma construct_at h vs a : represents (h, vs) a -> represents (h, vs ++ [mkVarchar true 0 (zeros 13)]) (a ++ [[]]).
Proof.
  intros (Hf & Hd & Hl). cbn [fst snd] in *.
  assert (forall k x p, (vs ++ [mkVarchar true 0 (zeros 13)]) !! k = Some x -> owned x = Some p -> vs !! k = Some x) as Hk.
  { intros k x p Hx Hp. apply lookup_snoc_Some in Hx as [[_ Hx]|[_ <-]]; [done|]. by vm_compute in Hp. }
  split; [|split]; cbn [fst snd].
  - apply Forall2_app; [done|]. constructor; [|done]. by repeat split.
  - intros i j v w p Hv Hw Hp Hq. apply (Hd i j v w p); [by eapply Hk|by eapply Hk|done|done].
  - intros p Hp. destruct (Hl p Hp) as (i & v & Hi & Hv). exists i, v. split; [by apply lookup_app_l_Some|done].
Qed.

Lemma init_refused (a : list (list Z)) i (s input : list Z) : s <> [] \/ VARCHAR_LENGTH_LIMIT < Z.of_nat (length input) ->
  (if bool_decide (s = []) && (Z.of_nat (length input) <=? VARCHAR_LENGTH_LIMIT) then Some (<[i := stored input]> a) else None) = None.
Proof. intros [Hne|Hgt]; [by rewrite (bool_decide_false _ Hne)|]. rewrite (proj2 (Z.leb_gt _ _) Hgt). by rewrite andb_false_r. Qed.

(** C20: A program over [Varchar] variables, with the copy and move assignments,
    [InitAsValue], also with an array that is handed over and is too long for the
    object, and [Reset], does to the strings that the variables hold what the
    operations say of strings: a copy has the string of the original and does not
    share its memory, a move leaves the empty string, an object that holds a string is
    not initialised again.  No operation uses a freed block or frees one twice, the
    heap has no block but those the variables own, and [std::bad_alloc] is thrown only
    when an allocation fails.  Only the low 16 bits of the length of an input are
    kept. *)
Theorem varchar_refines_strings (st : State) a c : represents st a -> in_scope (length st.2) c = true ->
  match execute new_address st c with
  | Ret st' => exists a', specified a c = Some a' /\ represents st' a'
  | Throw ParserException _ => specified a c = None
  | Throw StdException _ => exists h n, new_address h n = None
  | _ => False
  end.
Proof.
  destruct st as [h vs]. intros HR Hs. cbn [snd] in Hs. pose proof (Forall2_length _ _ _ (proj1 HR)) as Hlen. cbn [fst snd] in Hlen.
  assert (forall i, bool_decide (i < length vs)%nat = true -> exists v s, vs !! i = Some v /\ a !! i = Some s) as Hv.
  { intros i Hi. apply bool_decide_eq_true in Hi. destruct (lookup_lt_is_Some_2 vs i Hi) as [v Hv].
    destruct (lookup_lt_is_Some_2 a i) as [s Hs']; [lia|]. by exists v, s. }
  destruct c as [|i input|i input|i j|i j|i]; cbn [execute in_scope specified] in *; rewrite ?andb_true_iff in Hs; unfold variable.
  - eexists. split; [done|]. by apply construct_at.
  - destruct (Hv i Hs) as (v & s & Hi & Ha). rewrite Hi, Ha. cbn [mbind outcome_bind option_bind].
    pose proof (init_at h vs a i v s input HR Hi Ha) as H. destruct (InitAsValue _ _ _ _ _) as [[h' v']|e ?|]; cbn [mbind outcome_bind]; [|destruct e; try done|done].
    + destruct H as (-> & Hle & HR'). eexists. split; [|done]. by rewrite (proj2 (Z.leb_le _ _) Hle).
    + by apply init_refused.
  - destruct Hs as [Hs H13]. zbool. destruct (Hv i Hs) as (v & s & Hi & Ha). rewrite Hi, Ha. cbn [mbind outcome_bind option_bind].
    pose proof (init_moved_at h vs a i v s input HR Hi Ha H13) as H. destruct (new_array _ _ _ _) as [[h1 p]|e ?|]; cbn [mbind outcome_bind] in *; [|destruct e; try done; by apply init_refused|done].
    destruct (InitAsValue _ _ _ _ _) as [[h' v']|e ?|]; cbn [mbind outcome_bind]; [|destruct e; try done|done].
    + destruct H as (-> & Hle & HR'). eexists. split; [|done]. by rewrite (proj2 (Z.leb_le _ _) Hle).
    + by apply init_refused.
  - destruct (Hv i (proj1 Hs)) as (v & s & Hi & Ha), (Hv j (proj2 Hs)) as (w & s' & Hj & Hb). rewrite Hi, Hj, Ha, Hb. cbn [mbind outcome_bind option_bind].
    clear Hs. case_bool_decide as E; [subst j; simplify_eq; eexists; split; [done|]; by rewrite list_insert_id|].
    pose proof (copy_at h vs a i j v w s' HR E Hi Hj Hb) as H. destruct (DeepCopy _ _ _ _) as [[h' v']|e ?|]; cbn [mbind outcome_bind]; [|by destruct e|done].
    by eexists.
  - destruct (Hv i (proj1 Hs)) as (v & s & Hi & Ha), (Hv j (proj2 Hs)) as (w & s' & Hj & Hb). rewrite Hi, Hj, Ha, Hb. cbn [mbind outcome_bind option_bind].
    clear Hs. case_bool_decide as E.
    + subst j. destruct (move_self h vs a i v HR Hi) as (h' & v' & -> & HR'). cbn [mbind outcome_bind]. eexists. split; [done|]. by rewrite list_insert_insert_eq.
    + destruct (move_at h vs a i j v w s' HR E Hi Hj Hb) as (h' & v' & w' & -> & HR'). cbn [mbind outcome_bind]. by eexists.
  - destruct (Hv i Hs) as (v & s & Hi & Ha). rewrite Hi, Ha. cbn [mbind outcome_bind option_bind].
    destruct (reset_at h vs a i v HR Hi) as (h' & v' & -> & _ & _ & _ & _ & _ & HR'). cbn [mbind outcome_bind]. by eexists.
Qed.
End Operations.

(** An allocator: the address after the last. *)
Definition next_address (h : Heap) (n : Z) : option Z :=
  let p := 1 + foldr Z.max 0 (map_to_list h).*1 in if p <? 2 ^ 64 then Some p else None.

Lemma next_address_ok h n p : next_address h n = Some p -> h !! p = None /\ 0 < p < 2 ^ 64.
Proof.
  unfold next_address. destruct (_ <? _) eqn:E; [|done]. intros Hp. zbool.
  assert (forall l : list Z, 0 <= foldr Z.max 0 l /\ forall q, q ∈ l -> q <= foldr Z.max 0 l) as Hm.
  { induction l as [|x l [IH0 IH]]; cbn [foldr]; [split; [lia|]; intros q Hq; by apply not_elem_of_nil in Hq|]. split; [lia|].
    intros q Hq. apply elem_of_cons in Hq as [->|Hq]; [lia|]. specialize (IH q Hq). lia. }
  destruct (Hm (map_to_list h).*1) as [H0 Hall]. injection Hp as <-. split; [|lia]. destruct (h !! _) as [b|] eqn:Hb; [exfalso|done].
  specialize (Hall (1 + foldr Z.max 0 (map_to_list h).*1)). apply elem_of_map_to_list in Hb.
  enough (1 + foldr Z.max 0 (map_to_list h).*1 <= foldr Z.max 0 (map_to_list h).*1) by lia. apply Hall. apply list_elem_of_fmap. by eexists (_, b).
Qed.

Lemma varchar_refines_strings_witness :
  exists st, execute next_address (∅, [mkVarchar true 0 (zeros 13)]) (Init 0 (replicate 20 65)) = Ret st /\ represents st [replicate 20 65].
Proof.
  assert (represents (∅, [mkVarchar true 0 (zeros 13)]) [[]]) as HR.
  { apply (construct_at ∅ [] []). split; [constructor|]. split; [intros i j v w p Hv; by destruct i|]. intros p [b Hb]. cbn in Hb; by rewrite lookup_empty in Hb. }
  pose proof (varchar_refines_strings next_address next_address_ok _ _ (Init 0 (replicate 20 65)) HR eq_refl) as H.
  destruct (execute _ _ _) as [st|e m|m] eqn:E; [|vm_compute in E; discriminate E|done]. exists st. split; [done|].
  destruct H as (a' & Ha & HR'). vm_compute in Ha. injection Ha as <-. exact HR'.
Defined.

(** ** Comparisons *)

Lemma strncmp0_eq a b : length a = length b -> 0 ∉ a -> strncmp0 a b = bool_decide (a = b).
Proof.
  revert b. induction a as [|x a IH]; intros [|y b] Hl Ha; [by rewrite bool_decide_true|done|done|]. cbn [strncmp0].
  apply not_elem_of_cons in Ha as [Hx Ha]. destruct (x =? y) eqn:E; zbool; [subst y|by rewrite bool_decide_false by congruence].
  rewrite (proj2 (Z.eqb_neq x 0)) by congruence. rewrite IH by (done || by injection Hl). apply bool_decide_ext. split; [by intros ->|by injection 1].
Qed.

Lemma holds_equal_length h v w s t : holds h v s -> holds h w t -> (length_ v =? length_ w) = bool_decide (length s = length t) /\ IsInlined v = bool_decide (length s <= 13)%nat.
Proof.
  intros (_ & _ & Hs & _) (_ & _ & Ht & _). unfold IsInlined, VARCHAR_INLINE_LENGTH. rewrite Hs, Ht.
  split; [destruct (_ =? _) eqn:E|destruct (_ <=? _) eqn:E]; symmetry; zbool; [apply bool_decide_eq_true|apply bool_decide_eq_false|apply bool_decide_eq_true|apply bool_decide_eq_false]; lia.
Qed.

(** C25: The comparisons of two string values.  [=] is equality of the strings; so is
    [operator==] of [Varchar] for strings without a zero byte, at which [strncmp]
    stops.  [<>] is the negation of [=] only for strings of different lengths or of at
    most 13 bytes: two longer strings of the same length are always different, also
    when they are equal. *)
Theorem varchar_comparisons h v w s t : holds h v s -> holds h w t ->
  EqualsFunction_Run h v w = Ret (bool_decide (s = t)) /\
  (0 ∉ s -> Varchar_eq h v w = Ret (bool_decide (s = t))) /\
  InEqualsFunction_Run h v w = Ret (negb (bool_decide (s = t)) || bool_decide (13 < length s)%nat).
Proof.
  intros Hv Hw. destruct (holds_equal_length h v w s t Hv Hw) as [Hl Hi]. destruct (holds_equal_length h w v t s Hw Hv) as [_ Hj].
  unfold EqualsFunction_Run, InEqualsFunction_Run, Varchar_eq, memcmp0. rewrite Hl, Hi, (proj1 Hv), (proj1 Hw).
  clear Hl. destruct (decide (length s = length t)) as [Hlen|Hlen].
  2: { rewrite !(bool_decide_false (length s = length t)), !(bool_decide_false (s = t)) by (done || by intros ->). done. }
  rewrite !(bool_decide_true (length s = length t)) by done. cbn [negb andb Bool.eqb]. destruct (decide (length s <= 13)%nat) as [Hs|Hs].
  - rewrite (bool_decide_true _ Hs) in Hi |- *. rewrite (bool_decide_false (13 < length s)%nat) by lia. rewrite orb_false_r. rewrite <- Hlen, bool_decide_true in Hj by done.
    destruct Hv as (_ & _ & Hvl & _ & Hvs), Hw as (_ & _ & _ & _ & Hws). rewrite Hi in Hvs. rewrite Hj, <- Hlen in Hws. rewrite Hvl, Nat2Z.id, Hvs, Hws.
    split_and!; [done| |done]. intros H0. by rewrite strncmp0_eq.
  - rewrite (bool_decide_false _ Hs) in Hi |- *. rewrite (bool_decide_true (13 < length s)%nat) by lia. rewrite orb_true_r. rewrite <- Hlen, bool_decide_false in Hj by done.
    assert (length_ v = length_ w) as Hvw by (destruct Hv as (_ & _ & -> & _), Hw as (_ & _ & -> & _); lia).
    pose proof (load_block _ _ _ Hv Hi) as Lv. pose proof (load_block _ _ _ Hw Hj) as Lw. rewrite <- Hvw in Lw. rewrite Lv, Lw. cbn [mbind outcome_bind].
    destruct Hv as (_ & _ & _ & _ & Hv), Hw as (_ & _ & _ & _ & Hw). rewrite Hi in Hv. rewrite Hj in Hw. destruct Hv as (_ & -> & _), Hw as (_ & -> & _).
    destruct (decide (s = t)) as [->|Hne].
    + rewrite !(bool_decide_true (t = t)), !(bool_decide_true (take 5 t = take 5 t)) by done. split_and!; [done| |done]. intros H0.
      rewrite !strncmp0_eq; [by rewrite !bool_decide_true|done|done|done|]. intros H5. apply elem_of_take in H5 as (k & Hk & _). by apply H0, (list_elem_of_lookup_2 _ k).
    + rewrite !(bool_decide_false (s = t)) by done. split_and!; [by case_bool_decide| |by case_bool_decide]. intros H0.
      rewrite !strncmp0_eq, (bool_decide_false (s = t)); [by destruct (negb _)|done..|by rewrite !length_take, Hlen|].
      intros H5. apply elem_of_take in H5 as (k & Hk & _). by apply H0, (list_elem_of_lookup_2 _ k).
Qed.

(** Two long strings that are equal compare as different, too. *)
Lemma varchar_comparisons_witness : exists h v,
  holds h v (replicate 20 65) /\ EqualsFunction_Run h v v = Ret true /\ Varchar_eq h v v = Ret true /\ InEqualsFunction_Run h v v = Ret true.
Proof.
  destruct (holds_long {[8 := replicate 20 65]} (replicate 20 65) (replicate 20 65) 8) as [Hh _]; [rewrite length_replicate; lia|lia|apply lookup_singleton_eq|reflexivity|].
  exists {[8 := replicate 20 65]}, (mkVarchar true (Z.of_nat (length (replicate 20 65))) (take 5 (replicate 20 65) ++ le_bytes 8 8)).
  destruct (varchar_comparisons _ _ _ _ _ Hh Hh) as (H1 & H2 & H3). split_and!; [done|done|apply H2; by apply (bool_decide_eq_true_1 _)|done].
Defined.

(** Strings that differ after a zero byte are equal for [operator==], not for [=]. *)
Lemma varchar_eq_zero_byte : let v := mkVarchar true 3 [65; 0; 66; 0; 0; 0; 0; 0; 0; 0; 0; 0; 0] in let w := mkVarchar true 3 [65; 0; 67; 0; 0; 0; 0; 0; 0; 0; 0; 0; 0] in
  Varchar_eq ∅ v w = Ret true /\ EqualsFunction_Run ∅ v w = Ret false.
Proof. by vm_compute. Qed.

(** A constructor call for a value of at most 13 bytes allocates a block that no
    object owns, and its address is part of the string. *)
Lemma varchar_new_loses_block : exists h v, Varchar_New next_address ∅ true 6 = Ret (h, v) /\ owned v = None /\ is_Some (h !! 1) /\ ToString h v = Ret [0; 0; 0; 0; 0; 1].
Proof. eexists _, _. split; [by vm_compute|]. split; [by vm_compute|]. split; [|by vm_compute]. by eexists. Qed.

(** A short string that is handed over is released with [delete], which is not defined
    for an array. *)
Lemma varchar_moved_short : execute next_address (∅, [mkVarchar true 0 (zeros 13)]) (InitMoved 0 [65]) = UB "delete of an array".
Proof. reflexivity. Qed.
