(* ===== verification/ScalarOps.v ===== *)
(** * The operations of the scalar functions

    The [Run] functions of [function/scalar]: arithmetic with overflow, comparisons,
    logic and the parts of a date.  A [Run] is instantiated at C++ types; [value T] are
    the values of [T], and a combination of types without an instance is not defined.

    Floating-point numbers are those of [SpecFloat], in single and double precision;
    [std::fmod] and [std::pow] are parameters.  Dates are computed with [date_fuel]. *)
From Stdlib Require Import SpecFloat.
From S2P Require Import Prelude Common Defs Arrays Date DataTypes FunctionSet Varchar.

Local Open Scope Z_scope.

(** ** Values *)

Record HugeInt := mkHugeInt { upper : Z; lower : Z }.

Inductive MixedValueType := MInvalid | MInteger | MFloat | MLongStr | MShortStr | MTuple | MArray | MNull | MMissing | MDummy.

(** A value of a mixed column: its type and the eight bytes of a number. *)
Record MixedType := mkMixed { mixed_type : MixedValueType; mixed_bits : Z }.

Definition value (T : CppType) : Type :=
  match T with
  | BooleanT => bool
  | TinyIntT | SmallIntT | IntegerT | BigIntT => Z
  | HugeIntT => HugeInt
  | FloatT | DoubleT => spec_float
  | VarcharT => Varchar
  | DateT => Z
  | IntervalT => IntervalType
  | MixedT => MixedType
  | _ => unit
  end.

Definition int_bits (T : CppType) : Z := match T with TinyIntT => 8 | SmallIntT => 16 | IntegerT => 32 | _ => 64 end.
Definition int_min (T : CppType) : Z := - 2 ^ (int_bits T - 1).
Definition int_max (T : CppType) : Z := 2 ^ (int_bits T - 1) - 1.

(** [__builtin_add_overflow] and the like, negated, for the exact result [z]. *)
Definition no_overflow (T : CppType) (z : Z) : outcome (bool * Z) := Ret ((int_min T <=? z) && (z <=? int_max T), s_wrap (int_bits T) z).

Definition prec (T : CppType) : Z := match T with FloatT => 24 | _ => 53 end.
Definition emax (T : CppType) : Z := match T with FloatT => 128 | _ => 1024 end.

Definition isnan_or_isinf (x : spec_float) : bool := match x with S754_nan | S754_infinity _ => true | _ => false end.
Definition float_result (x : spec_float) : outcome (bool * spec_float) := Ret (negb (isnan_or_isinf x), x).

Definition not_implemented {A} (msg : string) : outcome A := Throw NotImplementException msg.
Definition no_instance {A} : outcome A := UB "no instance of the template".

(** A computation on a date. *)
Definition of_date {A} (r : option (outcome A)) : outcome A := match r with Some r => r | None => UB "not enough fuel" end.

(** ** Arithmetic *)

Definition AddFunction_Run (A B C : CppType) : value A -> value B -> value C -> outcome (bool * value C) :=
  match A, B, C with
  | TinyIntT, TinyIntT, TinyIntT => fun l r _ => no_overflow TinyIntT (l + r)
  | SmallIntT, SmallIntT, SmallIntT => fun l r _ => no_overflow SmallIntT (l + r)
  | IntegerT, IntegerT, IntegerT => fun l r _ => no_overflow IntegerT (l + r)
  | BigIntT, BigIntT, BigIntT => fun l r _ => no_overflow BigIntT (l + r)
  | HugeIntT, HugeIntT, HugeIntT => fun _ _ _ => not_implemented "Not implemented: HugeIntT + HugeIntT = HugeIntT"
  | FloatT, FloatT, FloatT => fun l r _ => float_result (SFadd (prec FloatT) (emax FloatT) l r)
  | DoubleT, DoubleT, DoubleT => fun l r _ => float_result (SFadd (prec DoubleT) (emax DoubleT) l r)
  | DecimalT, DecimalT, DecimalT => fun _ _ _ => not_implemented "Not implemented: Decimal + Decimal"
  | DateT, IntervalT, DateT => fun l r result => of_date (Date.Add date_fuel l r result)
  | IntervalT, DateT, DateT => fun l r result => of_date (Date.Add date_fuel r l result)
  | DateTimeT, IntervalT, DateTimeT | IntervalT, DateTimeT, DateTimeT => fun _ _ _ => not_implemented "Not implemented: DateTimeT + IntervalT"
  | TimestampT, IntervalT, TimestampT | IntervalT, TimestampT, TimestampT => fun _ _ _ => not_implemented "Not implemented: TimestampT + IntervalT"
  | MixedT, BigIntT, MixedT | BigIntT, MixedT, MixedT => fun _ _ _ => not_implemented "Not implemented: MixedT + BigIntT"
  | MixedT, DoubleT, MixedT | DoubleT, MixedT, MixedT => fun _ _ _ => not_implemented "Not implemented: MixedT + DoubleT"
  | MixedT, MixedT, MixedT => fun _ _ _ => not_implemented "Not implemented: MixedT + MixedT"
  | _, _, _ => fun _ _ _ => not_implemented "Not implemented"
  end.

Definition SubFunction_Run (A B C : CppType) : value A -> value B -> value C -> outcome (bool * value C) :=
  match A, B, C with
  | TinyIntT, TinyIntT, TinyIntT => fun l r _ => no_overflow TinyIntT (l - r)
  | SmallIntT, SmallIntT, SmallIntT => fun l r _ => no_overflow SmallIntT (l - r)
  | IntegerT, IntegerT, IntegerT => fun l r _ => no_overflow IntegerT (l - r)
  | BigIntT, BigIntT, BigIntT => fun l r _ => no_overflow BigIntT (l - r)
  | FloatT, FloatT, FloatT => fun l r _ => float_result (SFsub (prec FloatT) (emax FloatT) l r)
  | DoubleT, DoubleT, DoubleT => fun l r _ => float_result (SFsub (prec DoubleT) (emax DoubleT) l r)
  | DateT, IntervalT, DateT => fun l r result => of_date (Date.Subtract date_fuel l r result)
  | _, _, _ => fun _ _ _ => not_implemented "Not implement"
  end.

Definition MulFunction_Run (A B C : CppType) : value A -> value B -> value C -> outcome (bool * value C) :=
  match A, B, C with
  | TinyIntT, TinyIntT, TinyIntT => fun l r _ => no_overflow TinyIntT (l * r)
  | SmallIntT, SmallIntT, SmallIntT => fun l r _ => no_overflow SmallIntT (l * r)
  | IntegerT, IntegerT, IntegerT => fun l r _ => no_overflow IntegerT (l * r)
  | BigIntT, BigIntT, BigIntT => fun l r _ => no_overflow BigIntT (l * r)
  | FloatT, FloatT, FloatT => fun l r _ => float_result (SFmul (prec FloatT) (emax FloatT) l r)
  | DoubleT, DoubleT, DoubleT => fun l r _ => float_result (SFmul (prec DoubleT) (emax DoubleT) l r)
  | _, _, _ => fun _ _ _ => not_implemented "Not implement"
  end.

(** The bodies of the templates of division and remainder at an integer type; the
    operands are promoted to [int], and the result converted back. *)
Definition int_divide (T : CppType) (f : Z -> Z -> Z) (l r result : Z) : outcome (bool * Z) :=
  if r =? 0 then Ret (false, result)
  else if (l =? int_min T) && (r =? -1) then Ret (false, result)
  else Ret (true, s_wrap (int_bits T) (f l r)).

Definition DivFunction_Run (A B C : CppType) : value A -> value B -> value C -> outcome (bool * value C) :=
  match A, B, C with
  | TinyIntT, TinyIntT, TinyIntT => int_divide TinyIntT Z.quot
  | SmallIntT, SmallIntT, SmallIntT => int_divide SmallIntT Z.quot
  | IntegerT, IntegerT, IntegerT => int_divide IntegerT Z.quot
  | BigIntT, BigIntT, BigIntT => int_divide BigIntT Z.quot
  | FloatT, FloatT, FloatT => fun l r _ => float_result (SFdiv (prec FloatT) (emax FloatT) l r)
  | DoubleT, DoubleT, DoubleT => fun l r _ => float_result (SFdiv (prec DoubleT) (emax DoubleT) l r)
  | HugeIntT, HugeIntT, HugeIntT => fun _ _ _ => not_implemented "Not implement huge int divide operator."
  | _, _, _ => fun _ _ _ => no_instance
  end.

Section Libm.
Context (std_fmod std_pow : CppType -> spec_float -> spec_float -> spec_float).

Definition ModuloFunction_Run (A B C : CppType) : value A -> value B -> value C -> outcome (bool * value C) :=
  match A, B, C with
  | TinyIntT, TinyIntT, TinyIntT => int_divide TinyIntT Z.rem
  | SmallIntT, SmallIntT, SmallIntT => int_divide SmallIntT Z.rem
  | IntegerT, IntegerT, IntegerT => int_divide IntegerT Z.rem
  | BigIntT, BigIntT, BigIntT => int_divide BigIntT Z.rem
  | HugeIntT, HugeIntT, HugeIntT => fun _ _ _ => not_implemented "Not implement"
  | FloatT, FloatT, FloatT => fun l r _ => float_result (std_fmod FloatT l r)
  | DoubleT, DoubleT, DoubleT => fun l r _ => float_result (std_fmod DoubleT l r)
  | _, _, _ => fun _ _ _ => no_instance
  end.

Definition PowFunction_Run (A B C : CppType) : value A -> value B -> value C -> outcome (bool * value C) :=
  match A, B, C with
  | FloatT, FloatT, FloatT => fun l r _ => Ret (true, std_pow FloatT l r)
  | DoubleT, DoubleT, DoubleT => fun l r _ => Ret (true, std_pow DoubleT l r)
  | MixedT, DoubleT, DoubleT => fun _ _ _ => not_implemented "Not implement"
  | _, _, _ => fun _ _ _ => no_instance
  end.

(** [-value] at an integer type. *)
Definition int_minus (T : CppType) (x result : Z) : outcome (bool * Z) := if x =? int_min T then Ret (false, result) else Ret (true, - x).
Definition int_abs (T : CppType) (x result : Z) : outcome (bool * Z) := if x =? int_min T then Ret (false, result) else Ret (true, if x <? 0 then - x else x).
Definition float_minus (x result : spec_float) : outcome (bool * spec_float) := if isnan_or_isinf x then Ret (false, result) else Ret (true, SFopp x).

(** A mixed value: the type of [result] is not set when the sign changes. *)
Definition mixed_minus (x result : MixedType) : outcome (bool * MixedType) :=
  match mixed_type x with
  | MInteger => if mixed_bits x =? 2 ^ 63 then UB "signed overflow" else Ret (true, mkMixed (mixed_type result) (to_u64 (- mixed_bits x)))
  | MFloat => Ret (true, mkMixed (mixed_type result) (Z.lxor (mixed_bits x) (2 ^ 63)))
  | _ => Ret (false, mkMixed MNull (mixed_bits result))
  end.

Definition MinusFunction_Run (A B : CppType) : value A -> value B -> outcome (bool * value B) :=
  match A, B with
  | TinyIntT, TinyIntT => int_minus TinyIntT
  | SmallIntT, SmallIntT => int_minus SmallIntT
  | IntegerT, IntegerT => int_minus IntegerT
  | BigIntT, BigIntT => int_minus BigIntT
  | HugeIntT, HugeIntT => fun _ _ => not_implemented "Not implement"
  | DecimalT, DecimalT => fun _ _ => not_implemented "Not implement"
  | FloatT, FloatT => float_minus
  | DoubleT, DoubleT => float_minus
  | MixedT, MixedT => mixed_minus
  | _, _ => fun _ _ => no_instance
  end.

Definition PlusFunction_Run (A B : CppType) : value A -> value B -> outcome (bool * value B) :=
  match A, B with
  | MixedT, MixedT => fun x result =>
      match mixed_type x with
      | MInteger | MFloat => Ret (true, x)
      | _ => Ret (false, mkMixed MNull (mixed_bits result))
      end
  | _, _ => fun _ _ => not_implemented "Not implement"
  end.

Definition AbsFunctionInt_Run (A B : CppType) : value A -> value B -> outcome (bool * value B) :=
  match A, B with
  | TinyIntT, TinyIntT => int_abs TinyIntT
  | SmallIntT, SmallIntT => int_abs SmallIntT
  | IntegerT, IntegerT => int_abs IntegerT
  | BigIntT, BigIntT => int_abs BigIntT
  | _, _ => fun _ _ => no_instance
  end.

Definition AbsFunctionFloat_Run (A B : CppType) : value A -> outcome (value B) :=
  match A, B with
  | FloatT, FloatT => fun x => Ret (if SFltb x (S754_zero false) then SFopp x else x)
  | DoubleT, DoubleT => fun x => Ret (if SFltb x (S754_zero false) then SFopp x else x)
  | _, _ => fun _ => no_instance
  end.
End Libm.

(** ** Logic, and the parts of a date *)

Definition AndFunction_Run (left right : bool) : bool := left && right.
Definition OrFunction_Run (left right : bool) : bool := left || right.
Definition NotFunction_Run (input : bool) : bool := negb input.

Definition ExtractFunction_Run (unit : TimeUnit) (left : Z) : outcome Z := of_date (GetDatePart date_fuel left unit).
Definition ExtractYearFunction_Run := ExtractFunction_Run kYear.
Definition ExtractMonthFunction_Run := ExtractFunction_Run kMonth.
Definition ExtractDayFunction_Run := ExtractFunction_Run kDay.

(** ** Comparisons *)

(** The comparison operators of [HugeInt]. *)
Definition HugeInt_eq (a b : HugeInt) : bool := (upper b =? upper a) && (lower b =? lower a).
Definition HugeInt_gt (a b : HugeInt) : bool := if upper a >? upper b then true else (upper a =? upper b) && (lower a >? lower b).
Definition HugeInt_lt (a b : HugeInt) : bool := if upper a <? upper b then true else (upper a =? upper b) && (lower a <? lower b).
Definition HugeInt_le (a b : HugeInt) : bool := negb (HugeInt_gt a b).
Definition HugeInt_ge (a b : HugeInt) : bool := negb (HugeInt_lt a b).

(** The comparison operators of a type. *)
Record Comparison := mkComparison {
  compare_int : Z -> Z -> bool;
  compare_float : spec_float -> spec_float -> bool;
  compare_huge : HugeInt -> HugeInt -> bool
}.

(** The instances of the six templates at equal types of numbers and dates.
    [Run] of [=] and [<>] at [VarcharT] is in [Varchar], the others are not
    implemented, and so are the comparisons with mixed values. *)
Definition Compare_Run (symbol : string) (c : Comparison) (A B : CppType) : value A -> value B -> outcome bool :=
  match A, B with
  | TinyIntT, TinyIntT => fun l r => Ret (compare_int c l r)
  | SmallIntT, SmallIntT => fun l r => Ret (compare_int c l r)
  | IntegerT, IntegerT => fun l r => Ret (compare_int c l r)
  | BigIntT, BigIntT => fun l r => Ret (compare_int c l r)
  | DateT, DateT => fun l r => Ret (compare_int c l r)
  | HugeIntT, HugeIntT => fun l r => Ret (compare_huge c l r)
  | FloatT, FloatT => fun l r => Ret (compare_float c l r)
  | DoubleT, DoubleT => fun l r => Ret (compare_float c l r)
  | VarcharT, VarcharT => fun _ _ => not_implemented ("Not implement: varchar " ++ symbol ++ " varchar")
  | MixedT, BigIntT | BigIntT, MixedT => fun _ _ => not_implemented ("Not implement: mixed " ++ symbol ++ " bigint")
  | MixedT, DoubleT | DoubleT, MixedT => fun _ _ => not_implemented ("Not implement: mixed " ++ symbol ++ " double")
  | MixedT, VarcharT | VarcharT, MixedT => fun _ _ => not_implemented ("Not implement: mixed " ++ symbol ++ " varchar")
  | _, _ => fun _ _ => no_instance
  end.

Definition LessFunction_Run := Compare_Run "<" (mkComparison Z.ltb SFltb HugeInt_lt).
Definition LessEqualsFunction_Run := Compare_Run "<=" (mkComparison Z.leb SFleb HugeInt_le).
Definition GreaterFunction_Run := Compare_Run ">" (mkComparison Z.gtb (fun l r => SFltb r l) HugeInt_gt).
Definition GreaterEqualsFunction_Run := Compare_Run ">=" (mkComparison Z.geb (fun l r => SFleb r l) HugeInt_ge).

Section Heap.
Context (h : Heap).

Definition EqualsFunction_Run (A B : CppType) : value A -> value B -> outcome bool :=
  match A, B with
  | BooleanT, BooleanT => fun l r => Ret (Bool.eqb l r)
  | VarcharT, VarcharT => fun l r => Varchar.EqualsFunction_Run h l r
  | A, B => Compare_Run "==" (mkComparison Z.eqb SFeqb HugeInt_eq) A B
  end.

Definition InEqualsFunction_Run (A B : CppType) : value A -> value B -> outcome bool :=
  match A, B with
  | BooleanT, BooleanT => fun l r => Ret (negb (Bool.eqb l r))
  | VarcharT, VarcharT => fun l r => Varchar.InEqualsFunction_Run h l r
  | A, B => Compare_Run "<>" (mkComparison (fun l r => negb (l =? r)) (fun l r => negb (SFeqb l r)) (fun l r => negb (HugeInt_eq l r))) A B
  end.
End Heap.

(** ** Integer arithmetic *)

Definition int_types : list CppType := [TinyIntT; SmallIntT; IntegerT; BigIntT].

(** The instances at one integer type. *)
Definition int_run (run : forall A B C, value A -> value B -> value C -> outcome (bool * value C)) (T : CppType) : Z -> Z -> Z -> outcome (bool * Z) :=
  match T with
  | TinyIntT => run TinyIntT TinyIntT TinyIntT
  | SmallIntT => run SmallIntT SmallIntT SmallIntT
  | IntegerT => run IntegerT IntegerT IntegerT
  | BigIntT => run BigIntT BigIntT BigIntT
  | _ => fun _ _ _ => no_instance
  end.

Definition int_run1 (run : forall A B, value A -> value B -> outcome (bool * value B)) (T : CppType) : Z -> Z -> outcome (bool * Z) :=
  match T with
  | TinyIntT => run TinyIntT TinyIntT
  | SmallIntT => run SmallIntT SmallIntT
  | IntegerT => run IntegerT IntegerT
  | BigIntT => run BigIntT BigIntT
  | _ => fun _ _ => no_instance
  end.

Definition int_in (T : CppType) (z : Z) : Prop := int_min T <= z <= int_max T.

(** The function succeeds if the exact result [z] has the type, and then gives it. *)
Definition computes (T : CppType) (r : outcome (bool * Z)) (z : Z) : Prop :=
  exists x, r = Ret (bool_decide (int_in T z), x) /\ (int_in T z -> x = z).

Lemma int_wrap T z : int_in T z -> s_wrap (int_bits T) z = z.
Proof. intros Hz. apply s_wrap_id; [by destruct T|]. unfold int_in, int_min, int_max in Hz. unfold s_range. lia. Qed.

Lemma no_overflow_computes T z : computes T (no_overflow T z) z.
Proof.
  unfold computes, no_overflow. eexists. split; [|apply int_wrap]. do 2 f_equal. unfold int_in.
  destruct (_ && _) eqn:E; symmetry; [apply bool_decide_eq_true|apply bool_decide_eq_false]; zbool; lia.
Qed.

Lemma fails_computes T z old : ~ int_in T z -> computes T (Ret (false, old)) z.
Proof. intros Hz. exists old. by rewrite bool_decide_false. Qed.

Lemma returns_computes T z : int_in T z -> computes T (Ret (true, z)) z.
Proof. intros Hz. exists z. by rewrite bool_decide_true. Qed.

Lemma int_cases T (P : CppType -> Prop) : T ∈ int_types -> P TinyIntT -> P SmallIntT -> P IntegerT -> P BigIntT -> P T.
Proof. intros HT H1 H2 H3 H4. repeat (apply elem_of_cons in HT as [->|HT]; [done|]). by apply not_elem_of_nil in HT. Qed.

Lemma int_divide_quot T l r old : int_in T l -> int_in T r -> r <> 0 -> computes T (int_divide T Z.quot l r old) (Z.quot l r).
Proof.
  intros Hl Hr H0. unfold int_divide. rewrite (proj2 (Z.eqb_neq r 0) H0). assert (0 < 2 ^ (int_bits T - 1)) as Hp by (by destruct T).
  unfold int_in, int_min, int_max in *. destruct (_ && _) eqn:E; zbool.
  - subst r. apply fails_computes. unfold int_in, int_min, int_max. change (-1) with (Z.opp 1). rewrite Z.quot_opp_r, Z.quot_1_r by lia. lia.
  - assert (int_in T (Z.quot l r)) as Hq.
    { unfold int_in, int_min, int_max. assert (Z.abs (Z.quot l r) <= Z.abs l) as Ha.
      { rewrite <- Z.quot_abs by done. apply Z.quot_le_upper_bound; [lia|]. nia. }
      destruct (decide (Z.quot l r = 2 ^ (int_bits T - 1))) as [Hq|Hq]; [exfalso|lia]. apply andb_false_iff in E.
      assert (l = - 2 ^ (int_bits T - 1)) as Hl' by lia. pose proof (Z.quot_rem l r H0) as Hqr. pose proof (Z.rem_bound_abs l r H0) as Hrem.
      destruct E as [E|E]; zbool; nia. }
    rewrite (int_wrap _ _ Hq). by apply returns_computes.
Qed.

(** C23: The arithmetic of the four integer types is exact.  A sum, difference, product,
    quotient, opposite or absolute value is computed if it has the type of its
    operands; otherwise, and for a division by zero, the function fails.  So does a
    remainder by zero, and that of the least number by -1, which is 0. *)
Theorem integer_arithmetic fmod T l r old : T ∈ int_types -> int_in T l -> int_in T r ->
  computes T (int_run AddFunction_Run T l r old) (l + r) /\
  computes T (int_run SubFunction_Run T l r old) (l - r) /\
  computes T (int_run MulFunction_Run T l r old) (l * r) /\
  computes T (int_run1 MinusFunction_Run T l old) (- l) /\
  computes T (int_run1 AbsFunctionInt_Run T l old) (Z.abs l) /\
  (r <> 0 -> computes T (int_run DivFunction_Run T l r old) (Z.quot l r)) /\
  (r = 0 -> int_run DivFunction_Run T l r old = Ret (false, old)) /\
  int_run (ModuloFunction_Run fmod) T l r old =
    Ret (if (r =? 0) || ((l =? int_min T) && (r =? -1)) then (false, old) else (true, Z.rem l r)).
Proof.
  intros HT Hl Hr. assert (0 < 2 ^ (int_bits T - 1)) as Hp by (by destruct T).
  assert (int_run AddFunction_Run T l r old = no_overflow T (l + r) /\ int_run SubFunction_Run T l r old = no_overflow T (l - r) /\
    int_run MulFunction_Run T l r old = no_overflow T (l * r) /\ int_run DivFunction_Run T l r old = int_divide T Z.quot l r old /\
    int_run (ModuloFunction_Run fmod) T l r old = int_divide T Z.rem l r old /\
    int_run1 MinusFunction_Run T l old = int_minus T l old /\ int_run1 AbsFunctionInt_Run T l old = int_abs T l old) as (-> & -> & -> & -> & -> & -> & ->).
  { clear -HT. pattern T. apply (int_cases T _ HT); split_and!; reflexivity. }
  split_and!; [apply no_overflow_computes..| | | | |].
  - unfold int_minus. destruct (_ =? _) eqn:E; zbool; [apply fails_computes|apply returns_computes]; unfold int_in, int_min, int_max in *; lia.
  - unfold int_abs. destruct (_ =? _) eqn:E; zbool; [apply fails_computes; unfold int_in, int_min, int_max in *; lia|].
    replace (if l <? 0 then - l else l) with (Z.abs l) by (destruct (l <? 0) eqn:?; zbool; lia). apply returns_computes; unfold int_in, int_min, int_max in *; lia.
  - by apply int_divide_quot.
  - intros ->. done.
  - unfold int_divide. destruct (r =? 0) eqn:E0; [done|]. destruct (_ && _); [done|]. zbool. cbn [orb]. do 2 f_equal. apply int_wrap.
    pose proof (Z.rem_bound_abs l r E0). unfold int_in, int_min, int_max in *. lia.
Qed.

Lemma integer_arithmetic_witness : computes TinyIntT (int_run DivFunction_Run TinyIntT (-128) (-1) 0) 128 /\ ~ int_in TinyIntT 128.
Proof.
  split; [|unfold int_in; vm_compute; intuition congruence].
  apply (integer_arithmetic (fun _ x _ => x) TinyIntT (-128) (-1) 0); [left|by vm_compute|by vm_compute|done].
Defined.
