(* ===== verification/Casts.v ===== *)
(** * Casts

    The casts that the binder puts around the arguments of a scalar function
    ([planner/expression_binder.cpp]): which there are ([expression/cast_expression.cpp]),
    the function that executes one ([function/cast/cast_function.cpp] and the [Bind]
    functions of [function/cast]), and what it does to an integer
    ([function/cast/integer_cast.cppm]).

    A bound cast is the template of [ColumnVectorCast] with its arguments.  The [Run]
    functions of casts from floating-point numbers, strings and embeddings are not
    modelled. *)
From Stdlib Require Import SpecFloat.
From S2P Require Import Prelude Defs Arrays DataTypes FunctionSet ScalarOps.

Local Open Scope Z_scope.

Import LogicalType.

Inductive CastOperator :=
  | TryCastBoolean | IntegerTryCastToFixlen | IntegerTryCastToVarlen | FloatTryCastToFixlen | FloatTryCastToVarlen | TryCastVarchar | EmbeddingTryCastToFixlen.

Inductive BoundCastFunc :=
  | TryCastColumnVector (source target : CppType) (op : CastOperator)
  | TryCastColumnVectorToVarlen (source target : CppType) (op : CastOperator)
  | TryCastColumnVectorEmbedding (source target : CppType) (op : CastOperator).

#[export] Instance CastOperator_eq_dec : EqDecision CastOperator.
Proof. solve_decision. Defined.
#[export] Instance BoundCastFunc_eq_dec : EqDecision BoundCastFunc.
Proof. solve_decision. Defined.

(** ** Binding a cast *)

Definition BindBoolCast (source target : DataType) : outcome BoundCastFunc :=
  match type_ source with
  | kBoolean =>
      match type_ target with
      | kVarchar => Ret (TryCastColumnVector BooleanT VarcharT TryCastBoolean)
      | _ => Throw TypeException "Can't cast from Boolean to {}"
      end
  | _ => Throw TypeException "Expect boolean type, but it is {}"
  end.

Definition BindIntegerCast (SourceType : CppType) (source target : DataType) : outcome BoundCastFunc :=
  if bool_decide (type_ source = type_ target) then Throw FunctionException "Can't cast from the same type"
  else match type_ target with
  | kTinyInt => Ret (TryCastColumnVector SourceType TinyIntT IntegerTryCastToFixlen)
  | kSmallInt => Ret (TryCastColumnVector SourceType SmallIntT IntegerTryCastToFixlen)
  | kInteger => Ret (TryCastColumnVector SourceType IntegerT IntegerTryCastToFixlen)
  | kBigInt => Ret (TryCastColumnVector SourceType BigIntT IntegerTryCastToFixlen)
  | kHugeInt => Ret (TryCastColumnVector SourceType HugeIntT IntegerTryCastToFixlen)
  | kFloat => Ret (TryCastColumnVector SourceType FloatT IntegerTryCastToFixlen)
  | kDouble => Ret (TryCastColumnVector SourceType DoubleT IntegerTryCastToFixlen)
  | kDecimal => Ret (TryCastColumnVector SourceType DecimalT IntegerTryCastToFixlen)
  | kVarchar => Ret (TryCastColumnVectorToVarlen SourceType VarcharT IntegerTryCastToVarlen)
  | _ => Throw TypeException "Attempt to cast from {} to {}"
  end.

Definition BindFloatCast (SourceType : CppType) (source target : DataType) : outcome BoundCastFunc :=
  if bool_decide (type_ source = type_ target) then Throw FunctionException "Can't cast from the same type"
  else match type_ target with
  | kTinyInt => Ret (TryCastColumnVector SourceType TinyIntT FloatTryCastToFixlen)
  | kSmallInt => Ret (TryCastColumnVector SourceType SmallIntT FloatTryCastToFixlen)
  | kInteger => Ret (TryCastColumnVector SourceType IntegerT FloatTryCastToFixlen)
  | kBigInt => Ret (TryCastColumnVector SourceType BigIntT FloatTryCastToFixlen)
  | kHugeInt => Ret (TryCastColumnVector SourceType HugeIntT FloatTryCastToFixlen)
  | kFloat => Ret (TryCastColumnVector SourceType FloatT FloatTryCastToFixlen)
  | kDouble => Ret (TryCastColumnVector SourceType DoubleT FloatTryCastToFixlen)
  | kDecimal => Throw NotImplementException "Not implement cast from numeric to decimal128 type."
  | kVarchar => Ret (TryCastColumnVectorToVarlen SourceType VarcharT FloatTryCastToVarlen)
  | _ => Throw TypeException "Attempt to cast from {} to {}"
  end.

Definition BindVarcharCast (source target : DataType) : outcome BoundCastFunc :=
  match type_ source with
  | kVarchar =>
      match type_ target with
      | kBoolean => Ret (TryCastColumnVector VarcharT BooleanT TryCastVarchar)
      | kTinyInt => Ret (TryCastColumnVector VarcharT TinyIntT TryCastVarchar)
      | kSmallInt => Ret (TryCastColumnVector VarcharT SmallIntT TryCastVarchar)
      | kInteger => Ret (TryCastColumnVector VarcharT IntegerT TryCastVarchar)
      | kBigInt => Ret (TryCastColumnVector VarcharT BigIntT TryCastVarchar)
      | kHugeInt => Ret (TryCastColumnVector VarcharT HugeIntT TryCastVarchar)
      | kFloat => Ret (TryCastColumnVector VarcharT FloatT TryCastVarchar)
      | kDouble => Ret (TryCastColumnVector VarcharT DoubleT TryCastVarchar)
      | kDecimal => Throw NotImplementException "Not implement cast from varchar to decimal128 type."
      | kVarchar => Throw TypeException "Attempt to cast from varchar to varchar"
      | kDate => Ret (TryCastColumnVector VarcharT DateT TryCastVarchar)
      | kTime => Ret (TryCastColumnVector VarcharT TimeT TryCastVarchar)
      | kDateTime => Ret (TryCastColumnVector VarcharT DateTimeT TryCastVarchar)
      | kTimestamp => Ret (TryCastColumnVector VarcharT TimestampT TryCastVarchar)
      | kInterval => Ret (TryCastColumnVector VarcharT IntervalT TryCastVarchar)
      | kRowID => Ret (TryCastColumnVector VarcharT RowIDT TryCastVarchar)
      | kArray => Throw TypeException "Cast from varchar to array"
      | kTuple => Throw TypeException "Cast from varchar to tuple"
      | kPoint => Throw TypeException "Cast from varchar to point"
      | kLine => Throw TypeException "Cast from varchar to line"
      | kLineSeg => Throw TypeException "Cast from varchar to line segment"
      | kBox => Throw TypeException "Cast from varchar to box"
      | kCircle => Throw TypeException "Cast from varchar to circle"
      | kUuid => Throw TypeException "Cast from varchar to uuid"
      | kEmbedding => Throw TypeException "Cast from varchar to embedding"
      | kMixed => Throw TypeException "Cast from varchar to mix"
      | _ => Throw TypeException "Can't convert varchar"
      end
  | _ => Throw TypeException "Expect Varchar type, but it is {}"
  end.

(** The C++ type of an element that an embedding can be cast from or to. *)
Definition element_type (t : EmbeddingDataType.t) : option CppType :=
  match t with
  | EmbeddingDataType.kElemInt8 => Some TinyIntT
  | EmbeddingDataType.kElemInt16 => Some SmallIntT
  | EmbeddingDataType.kElemInt32 => Some IntegerT
  | EmbeddingDataType.kElemInt64 => Some BigIntT
  | EmbeddingDataType.kElemFloat => Some FloatT
  | EmbeddingDataType.kElemDouble => Some DoubleT
  | _ => None
  end.

Definition BindEmbeddingCast (source target : DataType) : outcome BoundCastFunc :=
  if negb (bool_decide (type_ source = kEmbedding)) || negb (bool_decide (type_ target = kEmbedding)) then Throw TypeException "Type here is expected as Embedding, but actually it is: {} and {}"
  else match type_info_ source, type_info_ target with
  | Some (EmbeddingInfo s sd), Some (EmbeddingInfo t td) =>
      if negb (sd =? td) then Throw TypeException "Can't cast from Embedding type to {}"
      else match element_type s with
      | None => Throw TypeException "Can't cast from {} to Embedding type"
      | Some s =>
          match element_type t with
          | None => Throw TypeException "Can't cast from Embedding type to {}"
          | Some t => Ret (TryCastColumnVectorEmbedding s t EmbeddingTryCastToFixlen)
          end
      end
  | _, _ => UB "type info"
  end.

(** [CastFunction::GetBoundFunc] *)
Definition GetBoundFunc (source target : DataType) : outcome BoundCastFunc :=
  if DataType_eq source target then Throw TypeException "Attempt to cast from {} to {}"
  else match type_ source with
  | kBoolean => BindBoolCast source target
  | kTinyInt => BindIntegerCast TinyIntT source target
  | kSmallInt => BindIntegerCast SmallIntT source target
  | kInteger => BindIntegerCast IntegerT source target
  | kBigInt => BindIntegerCast BigIntT source target
  | kHugeInt => BindIntegerCast HugeIntT source target
  | kFloat => BindFloatCast FloatT source target
  | kDouble => BindFloatCast DoubleT source target
  | kVarchar => BindVarcharCast source target
  | kEmbedding => BindEmbeddingCast source target
  | _ => Throw NotImplementException "Can't cast from {} to {}"
  end.

(** ** Cast expressions *)

(** The types among which [CanCast] allows all casts. *)
Definition plain_number (t : LogicalType.t) : bool :=
  match t with
  | kBoolean | kTinyInt | kSmallInt | kInteger | kBigInt | kFloat | kDouble | kDecimal => true
  | _ => false
  end.

(** [CastExpression::CanCast] *)
Definition CanCast (source target : DataType) : outcome bool :=
  match type_ target with
  | kNull | kInvalid => Throw PlannerException "Invalid data type"
  | t =>
      match type_ source with
      | kBoolean | kTinyInt | kSmallInt | kInteger | kBigInt | kFloat | kDouble | kDecimal => Ret (plain_number t)
      | kDate | kDateTime => Ret (match t with kDate | kDateTime | kVarchar => true | _ => false end)
      | kTime => Ret (match t with kTime | kVarchar => true | _ => false end)
      | kInterval => Ret (match t with kInterval | kVarchar => true | _ => false end)
      | kVarchar => Ret (plain_number t || match t with kDate | kTime | kDateTime | kInterval | kVarchar => true | _ => false end)
      | _ => Throw PlannerException "Invalid data type"
      end
  end.

(** An argument of a call as it is bound: its type, and the cast around it. *)
Record Argument := mkArgument {
  argument_type : DataType;
  cast_func : option BoundCastFunc
}.

(** [CastExpression::AddCastToType], for an expression of the type [source] *)
Definition AddCastToType (source target : DataType) : outcome Argument :=
  if DataType_eq source target then Ret (mkArgument source None)
  else
    can_cast ← CanCast source target;
    if can_cast : bool then cast ← GetBoundFunc source target; Ret (mkArgument target (Some cast))
    else Throw PlannerException "Can't cast from: {} to {}".

(** The loop over the arguments of a scalar function in [BuildFuncExpr]. *)
Fixpoint CastArguments (arguments parameters : list DataType) : outcome (list Argument) :=
  match arguments, parameters with
  | [], _ => Ret []
  | _ :: _, [] => UB "index out of range"
  | a :: arguments, p :: parameters =>
      a ← (if DataType_eq a p then Ret (mkArgument a None) else AddCastToType a p);
      rest ← CastArguments arguments parameters;
      Ret (a :: rest)
  end.

(** The case of a scalar function. *)
Definition BuildScalarFuncExpr (s : ScalarFunctionSet) (arguments : list DataType) : outcome (ScalarFunction * list Argument) :=
  scalar_function ← GetMostMatchFunction s arguments;
  arguments ← CastArguments arguments (parameter_types_ scalar_function);
  Ret (scalar_function, arguments).

(** ** Casts of integers *)

(** The conversion of an integer to a floating-point number rounds to the nearest. *)
Definition of_integer (T : CppType) (z : Z) : spec_float := binary_normalize (prec T) (emax T) z 0 false.

Definition narrow (T : CppType) (source old : Z) : outcome (bool * Z) :=
  if (source <? int_min T) || (source >? int_max T) then Ret (false, old) else Ret (true, s_wrap (int_bits T) source).

Definition to_huge (source : Z) : HugeInt := mkHugeInt (if source <? 0 then -1 else 0) source.

(** [IntegerTryCastToFixlen::Run] *)
Definition IntegerTryCastToFixlen_Run (A B : CppType) : value A -> value B -> outcome (bool * value B) :=
  match A, B with
  | TinyIntT, SmallIntT => fun source _ => Ret (true, source)
  | TinyIntT, IntegerT => fun source _ => Ret (true, source)
  | TinyIntT, BigIntT => fun source _ => Ret (true, source)
  | TinyIntT, HugeIntT => fun source _ => Ret (true, to_huge source)
  | TinyIntT, FloatT => fun source _ => Ret (true, of_integer FloatT source)
  | TinyIntT, DoubleT => fun source _ => Ret (true, of_integer DoubleT source)
  | SmallIntT, TinyIntT => narrow TinyIntT
  | SmallIntT, IntegerT => fun source _ => Ret (true, source)
  | SmallIntT, BigIntT => fun source _ => Ret (true, source)
  | SmallIntT, HugeIntT => fun source _ => Ret (true, to_huge source)
  | SmallIntT, FloatT => fun source _ => Ret (true, of_integer FloatT source)
  | SmallIntT, DoubleT => fun source _ => Ret (true, of_integer DoubleT source)
  | IntegerT, TinyIntT => narrow TinyIntT
  | IntegerT, SmallIntT => narrow SmallIntT
  | IntegerT, BigIntT => fun source _ => Ret (true, source)
  | IntegerT, HugeIntT => fun source _ => Ret (true, to_huge source)
  | IntegerT, FloatT => fun source _ => Ret (true, of_integer FloatT source)
  | IntegerT, DoubleT => fun source _ => Ret (true, of_integer DoubleT source)
  | BigIntT, TinyIntT => narrow TinyIntT
  | BigIntT, SmallIntT => narrow SmallIntT
  | BigIntT, IntegerT => narrow IntegerT
  | BigIntT, HugeIntT => fun source _ => Ret (true, to_huge source)
  | BigIntT, FloatT => fun source _ => Ret (true, of_integer FloatT source)
  | BigIntT, DoubleT => fun source _ => Ret (true, of_integer DoubleT source)
  | (TinyIntT | SmallIntT | IntegerT | BigIntT), DecimalT => fun _ _ => not_implemented "Not implemented"
  | HugeIntT, (TinyIntT | SmallIntT | IntegerT | BigIntT | FloatT | DoubleT | DecimalT) => fun _ _ => not_implemented "Not implemented"
  | _, _ => fun _ _ => Throw FunctionException "Not support to cast from {} to {}"
  end.

(** A cast between two integer types, on values as numbers. *)
Definition int_cast (A B : CppType) (source old : Z) : outcome (bool * Z) :=
  match A, B return (value A -> value B -> outcome (bool * value B)) -> outcome (bool * Z) with
  | (TinyIntT | SmallIntT | IntegerT | BigIntT), (TinyIntT | SmallIntT | IntegerT | BigIntT) => fun run => run source old
  | _, _ => fun _ => no_instance
  end (IntegerTryCastToFixlen_Run A B).

Lemma narrow_computes T z old : computes T (narrow T z old) z.
Proof.
  unfold narrow. destruct (_ || _) eqn:E; [apply orb_true_iff in E; apply fails_computes|apply orb_false_iff in E].
  - unfold int_in. rewrite Z.gtb_ltb in E. destruct E as [E|E]; zbool; lia.
  - rewrite Z.gtb_ltb in E. assert (int_in T z) as Hz by (unfold int_in; destruct E; zbool; lia). rewrite int_wrap by done. by apply returns_computes.
Qed.

(** A cast between two integer types gives the number if the target type has it, and
    otherwise fails. *)
Lemma integer_casts A B z old : A ∈ int_types -> B ∈ int_types -> A <> B -> int_in A z -> computes B (int_cast A B z old) z.
Proof.
  intros HA HB. apply (int_cases B (fun B => A <> B -> int_in A z -> computes B (int_cast A B z old) z)); [done|..];
    apply (int_cases A (fun A => A <> _ -> int_in A z -> computes _ (int_cast A _ z old) z)); try done; intros Hne Hz; try done; cbn -[narrow];
    try apply narrow_computes; apply returns_computes; unfold int_in, int_min, int_max in *; cbn in *; lia.
Qed.
