(* ===== verification/FunctionProps.v ===== *)
(** * Overload resolution: theorems

    The choice of [GetMostMatchFunction] among the functions of a set, what it is for the
    sets of the catalog, and the casts that the binder adds. *)
From S2P Require Import Prelude Defs Arrays Catalog DataTypes FunctionSet ScalarFunctions Casts.

Local Open Scope Z_scope.

Import LogicalType.

(** ** The choice of a function *)

Definition types_ok (l : list DataType) : Prop := Forall (fun t => type_ t <> kInvalid) l.

(** The arguments can be cast to the parameters, at this cost. *)
Definition applicable (f : ScalarFunction) (arguments : list DataType) (c : Z) : Prop := MatchFunctionCost f arguments = Ret c /\ 0 <= c.

(** The function [i] of the list is applicable, and none at a lower cost. *)
Definition cheapest (functions : list ScalarFunction) (arguments : list DataType) (i : nat) (c : Z) : Prop :=
  (exists f, functions !! i = Some f /\ applicable f arguments c) /\
  forall j g d, functions !! j = Some g -> applicable g arguments d -> c <= d.

Lemma cast_cost_range t u : t <> kInvalid -> u <> kInvalid -> exists c, GetCastCost t u = Ret c /\ -1 <= c <= 12.
Proof.
  pose proof (types_check (fun t => forallb (fun u => bool_decide (t = kInvalid) || bool_decide (u = kInvalid) ||
    match GetCastCost t u with Ret c => (-1 <=? c) && (c <=? 12) | _ => false end) LogicalType.all)) as H.
  intros Ht Hu. specialize (H ltac:(by vm_compute) t). rewrite forallb_forall in H. specialize (H u (proj1 (list_elem_of_In _ _) (all_types u))).
  rewrite (bool_decide_false _ Ht), (bool_decide_false _ Hu) in H. cbn [orb] in H. destruct (GetCastCost t u) as [c| |]; [|done..].
  exists c. split; [done|]. zbool. lia.
Qed.

Lemma match_cost_range ps args total : types_ok ps -> types_ok args -> 0 <= total ->
  exists c, MatchCost ps args total = Ret c /\ -1 <= c <= total + 12 * Z.of_nat (length args).
Proof.
  intros Hp. revert args total. induction Hp as [|p ps Hp _ IH]; intros args total Ha H0; [exists total; split; [done|lia]|].
  destruct Ha as [|a args Ha Has]; [exists total; split; [done|cbn; lia]|]. cbn [MatchCost].
  destruct (cast_cost_range (type_ a) (type_ p) Ha Hp) as (c & -> & Hc). cbn [mbind outcome_bind].
  destruct (c <? 0) eqn:E; zbool; [exists (-1); split; [done|cbn [length]; lia]|].
  destruct (IH args (total + c) Has ltac:(lia)) as (d & Hd & Hr). exists d. split; [done|]. cbn [length]. lia.
Qed.

Lemma match_function_cost_range f args : types_ok (parameter_types_ f) -> types_ok args ->
  exists c, MatchFunctionCost f args = Ret c /\ -1 <= c <= 12 * Z.of_nat (length args).
Proof.
  intros Hp Ha. unfold MatchFunctionCost. destruct (negb _); [exists (-1); split; [done|lia]|].
  destruct (match_cost_range _ _ 0 Hp Ha) as (c & Hc & Hr); [lia|]. exists c. split; [done|lia].
Qed.

Lemma applicable_unique f args c d : applicable f args c -> applicable f args d -> c = d.
Proof. intros [Hc _] [Hd _]. congruence. Qed.

(** The candidates of the loop after the functions [seen]. *)
Definition candidates_ok (seen : list ScalarFunction) (args : list DataType) (lowest : Z) (cands : list Z) : Prop :=
  (forall j g d, seen !! j = Some g -> applicable g args d -> lowest <= d) /\
  (cands = [] -> lowest = i64_max /\ forall j g d, seen !! j = Some g -> ~ applicable g args d) /\
  NoDup cands /\
  forall i, i ∈ cands <-> exists k f, i = Z.of_nat k /\ seen !! k = Some f /\ applicable f args lowest.

Section Resolution.
Context (args : list DataType).
Hypothesis Hargs : types_ok args.
Hypothesis Hfew : Z.of_nat (length args) < 2 ^ 59.

(** What one more function does to the candidates. *)
Lemma candidates_skip seen lowest cands f : candidates_ok seen args lowest cands -> (forall c, applicable f args c -> lowest < c /\ cands <> []) ->
  candidates_ok (seen ++ [f]) args lowest cands.
Proof.
  intros (Hlow & Hnil & Hnd & Hin) Hf. split_and!; [| |done|].
  - intros j g d Hj Hg. apply lookup_snoc_Some in Hj as [[_ Hj]|[_ <-]]; [by eapply Hlow|]. destruct (Hf d Hg). lia.
  - intros Hc. destruct (Hnil Hc) as [-> Hno]. split; [done|]. intros j g d Hj Hg. apply lookup_snoc_Some in Hj as [[_ Hj]|[_ <-]]; [by eapply Hno|]. by destruct (Hf d Hg).
  - intros i. rewrite Hin. split; intros (k & g & -> & Hk & Hg).
    + exists k, g. split; [done|]. split; [by apply lookup_app_l_Some|done].
    + apply lookup_snoc_Some in Hk as [[_ Hk]|[_ <-]]; [by exists k, g|]. destruct (Hf _ Hg). lia.
Qed.

Lemma candidates_join seen lowest cands f : candidates_ok seen args lowest cands -> applicable f args lowest -> lowest < i64_max ->
  candidates_ok (seen ++ [f]) args lowest (cands ++ [Z.of_nat (length seen)]).
Proof.
  intros (Hlow & Hnil & Hnd & Hin) Hf Hl. split_and!.
  - intros j g d Hj Hg. apply lookup_snoc_Some in Hj as [[_ Hj]|[_ <-]]; [by eapply Hlow|]. by rewrite (applicable_unique _ _ _ _ Hf Hg).
  - intros Hc. by destruct cands.
  - apply NoDup_app. split_and!; [done| |apply NoDup_singleton]. intros i Hi Hs. apply list_elem_of_singleton in Hs as ->.
    apply Hin in Hi as (k & g & Hk & Hg & _). apply Nat2Z.inj in Hk as <-. by rewrite lookup_ge_None_2 in Hg.
  - intros i. rewrite elem_of_app, list_elem_of_singleton, Hin. split.
    + intros [(k & g & -> & Hk & Hg)| ->]; [exists k, g; split; [done|]; split; [by apply lookup_app_l_Some|done]|].
      exists (length seen), f. split; [done|]. by rewrite list_lookup_middle.
    + intros (k & g & -> & Hk & Hg). apply lookup_snoc_Some in Hk as [[_ Hk]|[-> _]]; [left; by exists k, g|by right].
Qed.

Lemma candidates_lower seen lowest cands f c : candidates_ok seen args lowest cands -> applicable f args c -> c < lowest ->
  candidates_ok (seen ++ [f]) args c [Z.of_nat (length seen)].
Proof.
  intros (Hlow & _) Hf Hl. split_and!; [| |apply NoDup_singleton|].
  - intros j g d Hj Hg. apply lookup_snoc_Some in Hj as [[_ Hj]|[_ <-]]; [specialize (Hlow j g d Hj Hg); lia|]. by rewrite (applicable_unique _ _ _ _ Hf Hg).
  - done.
  - intros i. rewrite list_elem_of_singleton. split; [intros ->; exists (length seen), f; by rewrite list_lookup_middle|].
    intros (k & g & -> & Hk & Hg). apply lookup_snoc_Some in Hk as [[_ Hk]|[-> _]]; [|done]. specialize (Hlow k g c Hk Hg). lia.
Qed.

Lemma find_candidates fs seen lowest cands : Forall (fun f => types_ok (parameter_types_ f)) fs -> candidates_ok seen args lowest cands -> lowest <= i64_max ->
  exists r low, FindCandidates fs args (Z.of_nat (length seen)) lowest cands = Ret r /\ candidates_ok (seen ++ fs) args low r.
Proof.
  intros Hfs. revert seen lowest cands. induction Hfs as [|f fs Hf _ IH]; intros seen lowest cands Hok Hlow; [exists cands, lowest; by rewrite app_nil_r|].
  cbn [FindCandidates]. destruct (match_function_cost_range f args Hf Hargs) as (c & Hc & Hr). rewrite Hc. cbn [mbind outcome_bind].
  replace (Z.of_nat (length seen) + 1) with (Z.of_nat (length (seen ++ [f]))) by (rewrite length_app; cbn; lia).
  rewrite (cons_middle f seen fs), app_assoc.
  assert (forall d, applicable f args d -> d = c /\ 0 <= c /\ c < i64_max) as Hd.
  { intros d [Hd H0]. assert (d = c) by congruence. subst d. unfold i64_max. lia. }
  destruct (_ && _) eqn:E; [|apply IH; [|done]].
  - apply andb_true_iff in E as [E0 E1]. rewrite Z.geb_leb in E0. zbool. assert (applicable f args c) as Ha by done. destruct (Hd c Ha) as (_ & _ & Hmax).
    destruct (c =? lowest) eqn:E2; zbool; [subst lowest; apply IH; [by apply candidates_join|done]|].
    apply IH; [|lia]. eapply candidates_lower; [done|done|lia].
  - apply candidates_skip; [done|]. intros d Ha. destruct (Hd d Ha) as (-> & H0 & Hmax). apply andb_false_iff in E as [E|E]; [rewrite Z.geb_leb in E; zbool; lia|].
    zbool. split; [lia|]. intros ->. destruct (proj1 (proj2 Hok) eq_refl) as [-> _]. lia.
Qed.
End Resolution.

(** The texts of the error messages. *)
Lemma mapM_total {A B} (f : A -> outcome B) l : (forall x, x ∈ l -> exists y, f x = Ret y) -> exists ys, mapM f l = Ret ys.
Proof.
  induction l as [|x l IH]; intros Hf; [by exists []|]. destruct (Hf x) as [y Hy]; [left|]. destruct IH as [ys Hys]; [intros z Hz; apply Hf; by right|].
  exists (y :: ys). cbn. by rewrite Hy, Hys.
Qed.

Lemma join_types_total l : exists s, join_types l = Ret s.
Proof.
  unfold join_types. destruct (mapM_total DataType_ToString l) as [names ->]; [|by eexists].
  intros t _. destruct (type_tables (type_ t)) as (name & _ & Hn & _). by exists name.
Qed.

Lemma function_to_string f : exists s, ScalarFunction_ToString f = Ret s.
Proof.
  unfold ScalarFunction_ToString. destruct (parameter_types_ f) as [|p ps]; [by eexists|]. destruct (join_types_total (p :: ps)) as [s ->].
  destruct (type_tables (type_ (return_type_ f))) as (name & _ & Hn & _). cbn [mbind outcome_bind]. unfold DataType_ToString. rewrite Hn. by eexists.
Qed.

Lemma set_to_string name args : exists s, FunctionSet_ToString name args = Ret s.
Proof. unfold FunctionSet_ToString. destruct args as [|a args]; [by eexists|]. destruct (join_types_total (a :: args)) as [s ->]. by eexists. Qed.

(** C21: [GetMostMatchFunction] chooses the function whose parameters the arguments can
    be cast to at the lowest cost, if there is exactly one such function; otherwise it
    throws a planner exception, which says that none is applicable or that several are
    equally cheap. *)
Theorem most_match_function (s : ScalarFunctionSet) args :
  types_ok args -> Z.of_nat (length args) < 2 ^ 59 -> Forall (fun f => types_ok (parameter_types_ f)) (functions_ s) ->
  match GetMostMatchFunction s args with
  | Ret f => exists i c, functions_ s !! i = Some f /\ cheapest (functions_ s) args i c /\ forall j, cheapest (functions_ s) args j c -> j = i
  | Throw PlannerException _ =>
      (forall j g c, functions_ s !! j = Some g -> ~ applicable g args c) \/
      exists i j c, i <> j /\ cheapest (functions_ s) args i c /\ cheapest (functions_ s) args j c
  | _ => False
  end.
Proof.
  intros Ha Hn Hs. unfold GetMostMatchFunction.
  destruct (find_candidates args Ha Hn (functions_ s) [] i64_max []) as (r & low & Hr & Hlow & Hnil & Hnd & Hin); [done| |done|].
  { split_and!; [done|done|constructor|]. intros i. split; [intros Hi; by apply not_elem_of_nil in Hi|by intros (k & f & _ & Hk & _)]. }
  change (Z.of_nat (length [])) with 0 in Hr. rewrite Hr. cbn [mbind outcome_bind app] in *.
  assert (forall i, Z.of_nat i ∈ r <-> cheapest (functions_ s) args i low) as Hc.
  { intros i. rewrite Hin. split; [intros (k & f & Hk & Hf & Hap); apply Nat2Z.inj in Hk as <-; split; [by exists f|]; by apply Hlow|].
    intros [(f & Hf & Hap) _]. by exists i, f. }
  destruct (set_to_string (set_name_ s) args) as [call ->]. destruct r as [|i [|j r]]; cbn [mbind outcome_bind].
  - destruct (mapM_total ScalarFunction_ToString (functions_ s)) as [texts ->]; [intros; apply function_to_string|]. left. by apply Hnil.
  - destruct (proj1 (Hin i)) as (k & f & -> & Hf & Hap); [left|]. rewrite at_index_nat, Hf. exists k, low. split; [done|]. rewrite <- Hc. split; [left|].
    intros j Hj. apply Hc, list_elem_of_singleton in Hj. lia.
  - destruct (mapM_total (fun i => f ← at_index (functions_ s) i; ScalarFunction_ToString f) (i :: j :: r)) as [texts Ht].
    { intros k Hk. apply Hin in Hk as (k' & f & -> & Hf & _). rewrite at_index_nat, Hf. apply function_to_string. }
    rewrite Ht. right. destruct (proj1 (Hin i)) as (k & f & -> & _); [left|]. destruct (proj1 (Hin j)) as (l & g & -> & _); [right; left|].
    exists k, l, low. rewrite <- !Hc. split_and!; [|left|right; left]. intros ->. apply NoDup_cons in Hnd as [Hnd _]. apply Hnd. left.
Qed.

(** An integer and a big integer are added as big integers. *)
Lemma most_match_function_witness :
  let s := mkScalarFunctionSet "+" [NewScalarFunction "+" ([kInteger; kInteger], kInteger, BinaryFunctionWithFailure IntegerT IntegerT IntegerT AddFunction);
                                    NewScalarFunction "+" ([kBigInt; kBigInt], kBigInt, BinaryFunctionWithFailure BigIntT BigIntT BigIntT AddFunction)] in
  let args := NewDataType <$> [kInteger; kBigInt] in
  exists f i c, GetMostMatchFunction s args = Ret f /\ functions_ s !! i = Some f /\ cheapest (functions_ s) args i c.
Proof.
  intros s args. assert (types_ok args) as Ha by (repeat (constructor; [done|]); constructor).
  assert (Forall (fun f => types_ok (parameter_types_ f)) (functions_ s)) as Hs by (repeat (constructor; [repeat (constructor; [done|]); constructor|]); constructor).
  pose proof (most_match_function s args Ha ltac:(by vm_compute) Hs) as H.
  destruct (GetMostMatchFunction s args) as [f|e m|] eqn:E; [|vm_compute in E; discriminate E|done].
  destruct H as (i & c & Hi & Hc & _). by exists f, i, c.
Defined.

(** ** The functions of the catalog *)

#[export] Instance Operation_eq_dec : EqDecision Operation.
Proof. solve_decision. Defined.
#[export] Instance ScalarFunctionType_eq_dec : EqDecision ScalarFunctionType.
Proof. solve_decision. Defined.
#[export] Instance ScalarFunction_eq_dec : EqDecision ScalarFunction.
Proof. solve_decision. Defined.

Definition no_functions : Registry := mkFunctions ∅ ∅ ∅.

(** The functions of a new catalog. *)
Definition builtins : Registry := match RegisterScalarFunction no_functions with Ret fs => fs | _ => no_functions end.

Lemma builtins_registered : RegisterScalarFunction no_functions = Ret builtins.
Proof. unfold builtins. assert (is_ret (RegisterScalarFunction no_functions) = true) as H by (vm_compute; reflexivity). destruct (RegisterScalarFunction no_functions); [reflexivity|discriminate H..]. Qed.

(** The names under which functions are registered. *)
Definition builtin_names : list string :=
  ["+"; "-"; "*"; "/"; "and"; "or"; "not"; "abs"; "pow"; "="; "<>"; "<"; "<="; ">"; ">="; "like"; "not_like"; "extract_year"; "extract_month"; "extract_day"; "substring"]%string.

(** The C++ types with which a function is instantiated are those of its columns. *)
Definition instance_agrees (f : ScalarFunction) : bool :=
  let column dt ct := bool_decide (cpp_type (type_ dt) = Some ct) in
  match function_ f, parameter_types_ f with
  | NoOpFunction, [p] => DataType_eq p (return_type_ f)
  | UnaryFunction a c _, [p] | UnaryFunctionWithFailure a c _, [p] => column p a && column (return_type_ f) c
  | BinaryFunction a b c _, [p; q] | BinaryFunctionWithFailure a b c _, [p; q] => column p a && column q b && column (return_type_ f) c
  | TernaryFunctionToVarlenWithFailure a b d c _, [p; q; r] => column p a && column q b && column r d && column (return_type_ f) c
  | _, _ => false
  end.

(** They are those of its operands in the other order. *)
Definition instance_swapped (f : ScalarFunction) : bool :=
  let column dt ct := bool_decide (cpp_type (type_ dt) = Some ct) in
  match function_ f, parameter_types_ f with
  | BinaryFunction a b c _, [p; q] | BinaryFunctionWithFailure a b c _, [p; q] => column p b && column q a && column (return_type_ f) c
  | _, _ => false
  end.

(** The overloads for which they are not those of the columns. *)
Definition wrong_instances : list (string * list LogicalType.t) :=
  [("+", [kInterval; kDate]); ("-", [kBigInt; kMixed]); ("-", [kDouble; kMixed])]%string.

Definition all_functions (fs : Registry) (P : string -> ScalarFunctionSet -> ScalarFunction -> bool) : bool :=
  forallb (fun kv => forallb (P kv.1 kv.2) (functions_ kv.2)) (map_to_list (function_sets_ fs)).

Lemma all_functions_elim fs P name s f : all_functions fs P = true -> function_sets_ fs !! name = Some s -> f ∈ functions_ s -> P name s f = true.
Proof.
  intros HP Hs Hf. unfold all_functions in HP. rewrite forallb_forall in HP. specialize (HP (name, s)). rewrite forallb_forall in HP.
  apply HP; [|by apply list_elem_of_In]. by apply list_elem_of_In, elem_of_map_to_list.
Qed.

Definition overload_ok (name : string) (s : ScalarFunctionSet) (f : ScalarFunction) : bool :=
  bool_decide (function_name_ f = set_name_ s) &&
  match GetMostMatchFunction s (parameter_types_ f) with Ret g => bool_decide (g = f) | _ => false end &&
  if bool_decide ((name, type_ <$> parameter_types_ f) ∈ wrong_instances) then negb (instance_agrees f) && instance_swapped f else instance_agrees f.

(** An overload of this name with these parameters is registered. *)
Definition registered (fs : Registry) (w : string * list LogicalType.t) : bool :=
  match function_sets_ fs !! w.1 with
  | Some s => existsb (fun f => bool_decide (type_ <$> parameter_types_ f = w.2)) (functions_ s)
  | None => false
  end.

Lemma registered_names name : is_Some (function_sets_ builtins !! name) <-> name ∈ builtin_names.
Proof.
  assert (forallb (fun kv => bool_decide (kv.1 ∈ builtin_names)) (map_to_list (function_sets_ builtins)) = true) as H1 by (vm_compute; reflexivity).
  assert (forallb (fun n => match function_sets_ builtins !! n with Some _ => true | None => false end) builtin_names = true) as H2 by (vm_compute; reflexivity).
  rewrite forallb_forall in H1, H2. split.
  - intros [s Hs]. specialize (H1 (name, s)). apply bool_decide_eq_true in H1; [exact H1|]. by apply list_elem_of_In, elem_of_map_to_list.
  - intros Hn. specialize (H2 name (proj1 (list_elem_of_In _ _) Hn)). destruct (function_sets_ builtins !! name) as [s|]; [by exists s|discriminate H2].
Qed.

(** C22: The registration of scalar functions succeeds, and these 21 names have functions.
    [%] is not among them, because nothing registers it, nor are the unary [+] and [-],
    which cannot be registered besides the binary operators of the same names.
    Arguments of exactly the parameter types of an overload select that overload, so
    none is hidden by another.  Each overload is instantiated at the C++ types of its
    columns, except that [interval + date], [bigint - mixed] and [double - mixed] are
    instantiated at the types of their operands in the other order. *)
Theorem builtin_functions : exists fs, RegisterScalarFunction no_functions = Ret fs /\
  (forall name, is_Some (function_sets_ fs !! name) <-> name ∈ builtin_names) /\
  (forall name s f, function_sets_ fs !! name = Some s -> f ∈ functions_ s ->
     function_name_ f = set_name_ s /\ GetMostMatchFunction s (parameter_types_ f) = Ret f /\
     if bool_decide ((name, type_ <$> parameter_types_ f) ∈ wrong_instances) then instance_agrees f = false /\ instance_swapped f = true else instance_agrees f = true) /\
  forallb (registered fs) wrong_instances = true /\
  is_ret (RegisterPlusFunction fs) = false /\ is_ret (RegisterMinusFunction fs) = false.
Proof.
  exists builtins. split; [apply builtins_registered|]. split; [apply registered_names|]. split; [|split; [vm_compute; reflexivity|split; vm_compute; reflexivity]].
  assert (all_functions builtins overload_ok = true) as Hall by (vm_compute; reflexivity).
  intros name s f Hs Hf. pose proof (all_functions_elim _ _ _ _ _ Hall Hs Hf) as H. unfold overload_ok in H. rewrite !andb_true_iff in H.
  destruct H as [[H1 H2] H3]. apply bool_decide_eq_true in H1. split; [exact H1|]. split.
  - destruct (GetMostMatchFunction _ _) as [g| |]; [|discriminate H2..]. apply bool_decide_eq_true in H2. subst g. reflexivity.
  - destruct (bool_decide _); [|exact H3]. apply andb_true_iff in H3 as [H3 H4]. apply negb_true_iff in H3. split; [exact H3|exact H4].
Qed.

Definition numeric_types : list LogicalType.t := [kTinyInt; kSmallInt; kInteger; kBigInt; kHugeInt; kDecimal; kFloat; kDouble].
Definition numeric_operators : list string := ["+"; "-"; "*"; "/"; "="; "<>"; "<"; "<="; ">"; ">="]%string.

(** Only three of the operators have an overload for decimals. *)
Definition operand_type (name : string) (t : LogicalType.t) : LogicalType.t :=
  if bool_decide (name ∈ ["+"; "-"; "*"]%string) then t else if bool_decide (t = kDecimal) then kFloat else t.

Definition integer_types : list LogicalType.t := [kTinyInt; kSmallInt; kInteger; kBigInt].

(** The type [t] is [p], or there is a cast from it to [p]. *)
Definition casts_to (t p : LogicalType.t) : bool :=
  bool_decide (t = p) || (bool_decide (t ∈ integer_types) && bool_decide (p ∈ integer_types ++ [kFloat; kDouble; kDecimal])) ||
  (bool_decide (t ∈ [kFloat; kDouble]) && bool_decide (p ∈ integer_types ++ [kFloat; kDouble])).

(** An argument of the type [t] for a parameter of the type [p]. *)
Definition bound_argument (t p : LogicalType.t) : Argument :=
  if bool_decide (t = p) then mkArgument (NewDataType t) None
  else mkArgument (NewDataType p)
    (a ← cpp_type t; b ← cpp_type p; Some (TryCastColumnVector a b (if bool_decide (t ∈ integer_types) then IntegerTryCastToFixlen else FloatTryCastToFixlen))).

#[export] Instance Argument_eq_dec : EqDecision Argument.
Proof. solve_decision. Defined.

Definition promotes (name : string) (t u : LogicalType.t) : bool :=
  match GetFunctionSetByName builtins name with
  | Ret s =>
      match GetMostMatchFunction s [NewDataType t; NewDataType u], max_of t u with
      | Ret f, Some m =>
          let p := operand_type name m in
          bool_decide (type_ <$> parameter_types_ f = [p; p]) &&
          match BuildScalarFuncExpr s [NewDataType t; NewDataType u] with
          | Ret r => casts_to t p && casts_to u p && bool_decide (r = (f, [bound_argument t p; bound_argument u p]))
          | Throw e msg => negb (casts_to t p && casts_to u p) && bool_decide (e ∈ [PlannerException; NotImplementException])
          | UB _ => false
          end
      | _, _ => false
      end
  | _ => false
  end.



(** [CastArgumentTypes] refuses all arguments. *)
Lemma cast_argument_types_throws f args : exists msg, CastArgumentTypes f args = Throw PlannerException msg.
Proof. unfold CastArgumentTypes. rewrite bool_decide_true by done. by eexists. Qed.

(** A call with [NULL] for an argument of [+] is ambiguous. *)
Lemma null_argument_ambiguous : exists s msg, GetFunctionSetByName builtins "+" = Ret s /\
  GetMostMatchFunction s [NewDataType kNull; NewDataType kNull] = Throw PlannerException msg.
Proof.
  assert (match GetFunctionSetByName builtins "+" with
          | Ret s => match GetMostMatchFunction s [NewDataType kNull; NewDataType kNull] with Throw PlannerException _ => true | _ => false end
          | _ => false end = true) as H by (vm_compute; reflexivity).
  destruct (GetFunctionSetByName builtins "+") as [s| |]; [|discriminate H..]. exists s. destruct (GetMostMatchFunction s _) as [|[] msg|]; try discriminate H. exists msg. split; reflexivity.
Qed.
