(* ===== verification/BinaryOperator.v ===== *)
(** * Binary operators over column vectors

    [storage/column_vector/operator/binary_operator.cppm]: the evaluation of a scalar
    function on the rows of two column vectors, with the masks of their nulls, and the
    wrappers of [function/scalar_function.cppm] that turn a failure into a null.

    A column vector is its type, its cells, its mask and the number of its rows.  The
    loop over the rows of a unit with nulls need not end: it has fuel, and no result
    when the fuel is spent. *)
From S2P Require Import Prelude Arrays Bitmask.

Local Open Scope Z_scope.

(** A computation with fuel; none when the fuel is spent. *)
Definition Fueled (T : Type) : Type := option (outcome T).

Definition now {T} (o : outcome T) : Fueled T := Some o.

#[export] Instance Fueled_bind : MBind Fueled := fun T U k m =>
  match m with
  | None => None
  | Some (Ret x) => k x
  | Some (Throw e msg) => Some (Throw e msg)
  | Some (UB why) => Some (UB why)
  end.

Inductive ColumnVectorType := kInvalid | kFlat | kConstant | kHeterogeneous.

Record ColumnVector (T : Type) := mkColumnVector {
  vector_type_ : ColumnVectorType;
  data_ : list T;
  nulls_ptr_ : Bitmask;
  tail_index_ : Z
}.
Arguments mkColumnVector {T} _ _ _ _.
Arguments vector_type_ {T} _.
Arguments data_ {T} _.
Arguments nulls_ptr_ {T} _.
Arguments tail_index_ {T} _.

Definition UNIT_MIN : Z := 0.

Section BinaryOperator.
Context {A B C : Type}.
(** [Operator::Run]: whether it succeeds and the new contents of the result. *)
Context (run : A -> B -> C -> outcome (bool * C)).
(** [NullValue<ResultType>()] *)
Context (null_value : C).

(** The buffers, the mask and the cells of the result. *)
Definition Result : Type := Buffers * Bitmask * list C.

(** [BinaryTryOpWrapper::Execute]; an operator that cannot fail is
    [BinaryOpDirectWrapper::Execute]. *)
Definition Execute_row (left : A) (right : B) (st : Result) (idx : Z) : outcome Result :=
  let '(h, nulls, out) := st in
  old ← at_index out idx;
  '(ok, result) ← run left right old;
  if ok : bool then out ← set_index out idx result; Ret (h, nulls, out)
  else
    '(h, nulls) ← SetFalse h nulls idx;
    out ← set_index out idx null_value;
    Ret (h, nulls, out).

(** The cells that the loops read: that of the row, or the first for a constant. *)
Section Rows.
Context (left_at : Z -> outcome A) (right_at : Z -> outcome B).

Definition Step (st : Result) (idx : Z) : outcome Result :=
  left ← left_at idx; right ← right_at idx; Execute_row left right st idx.

(** The loop over [n] rows from [idx]. *)
Fixpoint Rows (n : nat) (idx : Z) (st : Result) : outcome Result :=
  match n with
  | O => Ret st
  | S n => st ← Step st idx; Rows n (idx + 1) st
  end.

(** The loop over the rows of a unit that has nulls. *)
Fixpoint NonNullRows (fuel : nat) (original_start start_index end_index : Z) (st : Result) : Fueled Result :=
  if start_index <? end_index then
    match fuel with
    | O => None
    | S fuel =>
        not_null ← now (IsTrue st.1.1 st.1.2 (start_index - original_start));
        if not_null : bool then
          st ← now (Step st start_index);
          NonNullRows fuel original_start (start_index + 1) end_index st
        else NonNullRows fuel original_start start_index end_index st
    end
  else now (Ret st).

(** [result_null_data[i]] *)
Definition unit_at (st : Result) (i : Z) : outcome Z :=
  match buffer_ptr st.1.2 with
  | Some p => us ← data_at st.1.1 p; at_index us i
  | None => UB "null pointer"
  end.

(** The loop over [n] units from [i]. *)
Fixpoint Units (fuel : nat) (n : nat) (i start_index end_index : Z) (st : Result) : Fueled Result :=
  match n with
  | O => now (Ret st)
  | S n =>
      unit ← now (unit_at st i);
      if unit =? UNIT_MAX then
        st ← now (Rows (Z.to_nat (end_index - start_index)) start_index st);
        Units fuel n (i + 1) (Z.max start_index end_index) (end_index + UNIT_BITS) st
      else if unit =? UNIT_MIN then Units fuel n (i + 1) start_index (end_index + UNIT_BITS) st
      else
        st ← NonNullRows fuel start_index start_index end_index st;
        Units fuel n (i + 1) (Z.max start_index end_index) (end_index + UNIT_BITS) st
  end.

Definition AllUnits (fuel : nat) (count : Z) (st : Result) : Fueled Result := Units fuel (Z.to_nat (UnitCount count)) 0 0 UNIT_BITS st.

(** The rows when no row of the operands is null. *)
Definition AllRows (count : Z) (st : Result) : outcome Result :=
  let '(h, nulls, out) := st in Rows (Z.to_nat count) 0 (h, SetAllTrue nulls, out).
End Rows.

(** [ptr[i]] and [ptr[0]] *)
Definition flat {T} (v : ColumnVector T) (i : Z) : outcome T := at_index (data_ v) i.
Definition constant {T} (v : ColumnVector T) (_ : Z) : outcome T := at_index (data_ v) 0.

(** ** Operands with nulls *)

Definition ExecuteFlatFlatWithNull (fuel : nat) (left : ColumnVector A) (right : ColumnVector B) (count : Z) (st : Result) : Fueled Result :=
  let '(h, nulls, out) := st in
  l ← now (IsAllTrue h (nulls_ptr_ left));
  r ← now (IsAllTrue h (nulls_ptr_ right));
  if l && r then now (AllRows (flat left) (flat right) count st)
  else
    '(h, nulls) ← now (
      if l : bool then DeepCopy h nulls (nulls_ptr_ right)
      else if r : bool then DeepCopy h nulls (nulls_ptr_ left)
      else '(h, nulls) ← DeepCopy h nulls (nulls_ptr_ right); Merge h nulls (nulls_ptr_ left));
    AllUnits (flat left) (flat right) fuel count (h, nulls, out).

Definition ExecuteFlatConstantWithNull (fuel : nat) (left : ColumnVector A) (right : ColumnVector B) (count : Z) (st : Result) : Fueled Result :=
  let '(h, nulls, out) := st in
  l ← now (IsAllTrue h (nulls_ptr_ left));
  r ← now (IsAllTrue h (nulls_ptr_ right));
  if l && r then now (AllRows (flat left) (constant right) count st)
  else
    '(h, nulls) ← now (if r : bool then DeepCopy h nulls (nulls_ptr_ left) else SetAllFalse h nulls);
    AllUnits (flat left) (constant right) fuel count (h, nulls, out).

Definition ExecuteConstantFlatWithNull (fuel : nat) (left : ColumnVector A) (right : ColumnVector B) (count : Z) (st : Result) : Fueled Result :=
  let '(h, nulls, out) := st in
  r ← now (IsAllTrue h (nulls_ptr_ right));
  l ← now (IsAllTrue h (nulls_ptr_ left));
  if l && r then now (AllRows (constant left) (flat right) count st)
  else
    '(h, nulls) ← now (if l : bool then DeepCopy h nulls (nulls_ptr_ right) else SetAllFalse h nulls);
    AllUnits (constant left) (flat right) fuel count (h, nulls, out).

(** ** The operator *)

(** [result->Finalize(count)], with the cells and the mask of the result. *)
Definition Finalize (result : ColumnVector C) (index : Z) (st : Result) : outcome (Buffers * ColumnVector C) :=
  if Z.of_nat (length (data_ result)) <? index then Throw StorageException "Attempt to set column vector tail index to {}, capacity: {}"
  else let '(h, nulls, out) := st in Ret (h, mkColumnVector (vector_type_ result) out nulls index).

Section Execute.
Context (fuel : nat) (h : Buffers) (left : ColumnVector A) (right : ColumnVector B) (result : ColumnVector C) (count : Z) (nullable : bool).

Definition start : Result := (h, nulls_ptr_ result, data_ result).

Definition ExecuteFlatFlat : Fueled (Buffers * ColumnVector C) :=
  st ← (if nullable then ExecuteFlatFlatWithNull fuel left right count start else now (AllRows (flat left) (flat right) count start));
  now (Finalize result count st).

Definition ExecuteFlatConstant : Fueled (Buffers * ColumnVector C) :=
  st ← (if nullable then ExecuteFlatConstantWithNull fuel left right count start else now (AllRows (flat left) (constant right) count start));
  now (Finalize result count st).

Definition ExecuteConstantFlat : Fueled (Buffers * ColumnVector C) :=
  st ← (if nullable then ExecuteConstantFlatWithNull fuel left right count start else now (AllRows (constant left) (flat right) count start));
  now (Finalize result count st).

Definition ExecuteConstantConstant : Fueled (Buffers * ColumnVector C) :=
  st ← now (
    if nullable then
      l ← IsAllTrue h (nulls_ptr_ left);
      r ← (if l : bool then IsAllTrue h (nulls_ptr_ right) else Ret false);
      if r : bool then Step (constant left) (constant right) start 0
      else '(h, nulls) ← SetAllFalse h (nulls_ptr_ result); Ret (h, nulls, data_ result)
    else Step (constant left) (constant right) (h, SetAllTrue (nulls_ptr_ result), data_ result) 0);
  now (Finalize result 1 st).

Definition not_implemented : Fueled (Buffers * ColumnVector C) := now (Throw TypeException "Not implemented.").
Definition invalid_type : Fueled (Buffers * ColumnVector C) := now (Throw TypeException "Invalid column vector type.").

Definition ExecuteFlat : Fueled (Buffers * ColumnVector C) :=
  match vector_type_ right with
  | kInvalid => invalid_type
  | kFlat => ExecuteFlatFlat
  | kConstant => ExecuteFlatConstant
  | kHeterogeneous => not_implemented
  end.

Definition ExecuteConstant : Fueled (Buffers * ColumnVector C) :=
  match vector_type_ right with
  | kInvalid => invalid_type
  | kFlat => ExecuteConstantFlat
  | kConstant => ExecuteConstantConstant
  | kHeterogeneous => not_implemented
  end.

Definition ExecuteHeterogeneous : Fueled (Buffers * ColumnVector C) :=
  match vector_type_ right with
  | kInvalid => invalid_type
  | kFlat | kConstant | kHeterogeneous => not_implemented
  end.

Definition Execute : Fueled (Buffers * ColumnVector C) :=
  match vector_type_ left with
  | kInvalid => invalid_type
  | kFlat => ExecuteFlat
  | kConstant => ExecuteConstant
  | kHeterogeneous => ExecuteHeterogeneous
  end.
End Execute.
End BinaryOperator.
