(* ===== verification/BinaryOperatorProps.v ===== *)
(** * Binary operators over column vectors: theorems

    Without nulls the operator gives, for each row, the result of the function, and a
    null where the function fails.  With nulls it does so if in every unit of 64 rows
    all rows are null or none is; if the first unit has rows of both kinds, the
    operator does not end. *)
From S2P Require Import Prelude Arrays Bits Bitmask BitmaskProps FunctionSet ScalarOps BinaryOperator.

Local Open Scope Z_scope.

Section BinaryOperator.
Context {A B C : Type} (run : A -> B -> C -> outcome (bool * C)) (null_value : C).

(** The function computes [eval]; what it leaves in the result when it fails does not
    matter. *)
Context (eval : A -> B -> option C).
Hypothesis run_eval : forall a b old, match eval a b with Some c => run a b old = Ret (true, c) | None => exists x, run a b old = Ret (false, x) end.

Section Loops.
(** The masks of the operands; [vl] and [vr] are their rows. *)
Context (ml mr : Bitmask) (vl vr : nat * list bool).

(** The result has the rows [l] and the cells [out]; its mask is not that of an operand. *)
Definition result_is (st : Result) (l : list bool) (out : list C) : Prop :=
  st.2 = out /\ exists g, masks_rel (mkMasks st.1.1 [ml; mr; st.1.2]) [vl; vr; (g, l)] /\ g <> vl.1 /\ g <> vr.1.

Lemma assign_third g l l' : g <> vl.1 -> g <> vr.1 -> assign [vl; vr; (g, l)] g l' = [vl; vr; (g, l')].
Proof. intros Hl Hr. unfold assign. cbn. by rewrite !decide_False, decide_True by congruence. Qed.

Lemma set_false_ok h m out l idx : result_is (h, m, out) l out -> (idx < length l)%nat ->
  exists h' m', SetFalse h m (Z.of_nat idx) = Ret (h', m') /\ forall out', result_is (h', m', out') (<[idx := false]> l) out'.
Proof.
  intros (_ & g & HR & Hl & Hr) Hi. cbn [fst snd] in HR.
  assert (mask_op_ok [vl; vr; (g, l)] (OSet 2 (Z.of_nat idx) false)) as Hok by (exists (g, l); split; [done|cbn; lia]).
  pose proof (mask_sim_set _ _ 2 (Z.of_nat idx) false HR Hok) as H. unfold mask_simulates in H. cbn [spec_mask_op mask_at lookup list_lookup mbind outcome_bind fst snd] in H.
  rewrite assign_third, Nat2Z.id in H by done. destruct H as (s' & Hrun & HR'). cbn [run_mask_op mask_at lookup list_lookup mbind outcome_bind masks buffers Bitmask_Set] in Hrun.
  destruct (SetFalse h m (Z.of_nat idx)) as [[h' m']| |]; [|done..]. cbn [mbind outcome_bind] in Hrun. injection Hrun as <-.
  exists h', m'. split; [done|]. intros out'. split; [done|]. by exists g.
Qed.

Context (left_at : Z -> outcome A) (right_at : Z -> outcome B).
(** The results of the rows; the operands have cells for the first [rows] of them. *)
Context (res : nat -> option C) (rows : nat).
Hypothesis cells : forall i, (i < rows)%nat -> exists a b, left_at (Z.of_nat i) = Ret a /\ right_at (Z.of_nat i) = Ret b /\ eval a b = res i.

Definition valid (i : nat) : bool := bool_decide (is_Some (res i)).

Lemma step_ok st l out i : result_is st l out -> (i < rows)%nat -> (i < length l)%nat -> (i < length out)%nat ->
  exists st', Step run null_value left_at right_at st (Z.of_nat i) = Ret st' /\
    result_is st' (if valid i then l else <[i := false]> l) (<[i := default null_value (res i)]> out).
Proof.
  intros HR Hi Hl Ho. destruct (cells i Hi) as (a & b & Ha & Hb & Hev). destruct st as [[h m] o]. pose proof HR as [Heq _]. cbn in Heq. subst o.
  unfold Step, Execute_row. rewrite Ha, Hb. cbn [mbind outcome_bind]. destruct (lookup_lt_is_Some_2 out i Ho) as [old Hold].
  rewrite at_index_nat, Hold. cbn [mbind outcome_bind]. pose proof (run_eval a b old) as Hrun. rewrite Hev in Hrun. unfold valid. destruct (res i) as [c|] eqn:Er.
  - rewrite Hrun. cbn [mbind outcome_bind]. rewrite set_index_in, Nat2Z.id by lia. cbn [mbind outcome_bind]. rewrite bool_decide_true by done.
    eexists. split; [done|]. destruct HR as (_ & g & HR). split; [done|]. by exists g.
  - destruct Hrun as [x ->]. cbn [mbind outcome_bind]. destruct (set_false_ok h m out l i HR Hl) as (h' & m' & -> & HR'). cbn [mbind outcome_bind].
    rewrite set_index_in, Nat2Z.id by lia. cbn [mbind outcome_bind]. rewrite bool_decide_false by (by intros [? ?]). eexists. split; [done|]. apply HR'.
Qed.

(** The rows [i], ..., [i + n - 1] are computed. *)
Definition computed (i n : nat) (l : list bool) : list bool := imap (fun j b => if decide (i <= j < i + n)%nat then b && valid j else b) l.
Definition filled (i n : nat) (out : list C) : list C := imap (fun j c => if decide (i <= j < i + n)%nat then default null_value (res j) else c) out.

Lemma rows_ok n : forall i st l out, result_is st l out -> (i + n <= rows)%nat -> (i + n <= length l)%nat -> (i + n <= length out)%nat ->
  exists st', Rows run null_value left_at right_at n (Z.of_nat i) st = Ret st' /\ result_is st' (computed i n l) (filled i n out).
Proof.
  induction n as [|n IH]; intros i st l out HR Hr Hl Ho; cbn [Rows].
  - exists st. split; [done|].
    assert (computed i 0 l = l /\ filled i 0 out = out) as [-> ->]; [|done].
    split; apply list_eq; intros j; unfold computed, filled; rewrite list_lookup_imap; [destruct (l !! j)|destruct (out !! j)]; cbn [fmap option_fmap option_map]; try done; by rewrite decide_False by lia.
  - destruct (step_ok st l out i HR) as (st1 & -> & HR1); [lia..|]. cbn [mbind outcome_bind].
    replace (Z.of_nat i + 1) with (Z.of_nat (S i)) by lia.
    destruct (IH (S i) st1 _ _ HR1) as (st' & Hrows & HR'); [lia|destruct (valid i); rewrite ?length_insert; lia|rewrite length_insert; lia|].
    exists st'. split; [done|]. assert (computed (S i) n (if valid i then l else <[i := false]> l) = computed i (S n) l /\
      filled (S i) n (<[i := default null_value (res i)]> out) = filled i (S n) out) as [Hc Hf]; [|by rewrite Hc, Hf in HR'].
    split; apply list_eq; intros j; unfold computed, filled; rewrite !list_lookup_imap.
    + destruct (decide (j = i)) as [->|Hj].
      * destruct (lookup_lt_is_Some_2 l i) as [b Hb]; [lia|]. destruct (valid i) eqn:Ev; rewrite ?list_lookup_insert_eq, ?Hb by lia; cbn [fmap option_fmap option_map];
          rewrite decide_False, decide_True by lia; by destruct b.
      * destruct (valid i); rewrite ?list_lookup_insert_ne by done; destruct (l !! j); cbn [fmap option_fmap option_map]; [|done| |done]; destruct (decide _), (decide _); (done || lia).
    + destruct (decide (j = i)) as [->|Hj].
      * rewrite list_lookup_insert_eq by lia. destruct (lookup_lt_is_Some_2 out i) as [c ->]; [lia|]. cbn [fmap option_fmap option_map]. by rewrite decide_False, decide_True by lia.
      * rewrite list_lookup_insert_ne by done. destruct (out !! j); cbn [fmap option_fmap option_map]; [|done]. destruct (decide _), (decide _); (done || lia).
Qed.

(** ** Units of rows *)

Definition all_of (b : bool) (i : nat) (l : list bool) : Prop := forall r, (r < 64)%nat -> l !! (64 * i + r)%nat = Some b.

Lemma result_mask st l out : result_is st l out -> mask_ok st.1.1 st.1.2 l.
Proof. intros (_ & g & HR & _). destruct (rel_at _ _ 2 HR) as (m & v & Hm & Hv & Hok); [cbn; lia|]. cbn in Hm, Hv. by simplify_eq. Qed.

Lemma unit_ok st l out i : result_is st l out -> false ∈ l -> (64 * i + 64 <= length l)%nat ->
  exists u, unit_at st (Z.of_nat i) = Ret u /\ (u = UNIT_MAX <-> all_of true i l) /\ (u = UNIT_MIN <-> all_of false i l).
Proof.
  intros HR Hf Hi. pose proof (result_mask _ _ _ HR) as Hm.
  assert (forallb id l = false) as Hn by (apply not_true_is_false; rewrite forallb_forall; intros Hall; by specialize (Hall false (proj1 (list_elem_of_In _ _) Hf))).
  destruct (not_all_buffer _ _ _ Hm Hn) as [p Hp]. unfold unit_at. rewrite Hp. destruct Hm as (_ & _ & Hm). rewrite Hp in Hm. destruct Hm as (_ & b & Hb & Hr & Hbits).
  unfold data_at. rewrite Hb. cbn [mbind outcome_bind]. rewrite at_index_nat.
  destruct (lookup_lt_is_Some_2 (units b) i) as [u Hu]; [rewrite <- Hbits, buffer_bits_length in Hi; lia|]. rewrite Hu. exists u. split; [done|].
  assert (u_range 64 u) as Hu64 by (by eapply (Forall_lookup_1 _ _ _ _ Hr)).
  assert (forall (c : bool) k, u_range 64 k -> (forall r, (r < 64)%nat -> Z.testbit k (Z.of_nat r) = c) -> (u = k <-> all_of c i l)) as Hgo.
  { intros c k Hk Hkc. unfold all_of. rewrite <- Hbits. split; [intros -> r Hr'; rewrite buffer_bits_lookup, Hu by done; cbn; by rewrite Hkc|].
    intros Hall. apply Z.bits_inj'. intros z Hz. destruct (decide (z < 64)) as [Hz'|Hz'].
    - specialize (Hall (Z.to_nat z) ltac:(lia)). rewrite buffer_bits_lookup, Hu in Hall by lia. cbn in Hall. rewrite <- (Hkc (Z.to_nat z)) in Hall by lia. rewrite Z2Nat.id in Hall by lia. congruence.
    - unfold u_range in Hk, Hu64. rewrite <- (Z.mod_small u (2 ^ 64)), <- (Z.mod_small k (2 ^ 64)) by done. rewrite !Z.mod_pow2_bits_high by lia. done. }
  split; apply Hgo; [unfold u_range, UNIT_MAX; lia| |unfold u_range, UNIT_MIN; lia|intros; apply Z.testbit_0_l].
  intros r Hr'. change UNIT_MAX with (Z.ones 64). by rewrite Z.ones_spec_low by lia.
Qed.

(** The loop over units that have no nulls or only nulls; [l0] are the rows of the
    merged masks. *)
Section Units.
Context (l0 : list bool).

Definition cells_ok (k : nat) (out : list C) : Prop := forall j, (j < k)%nat -> l0 !! j = Some true -> out !! j = Some (default null_value (res j)).

Lemma computed_lookup i n l j : computed i n l !! j = (fun b => if decide (i <= j < i + n)%nat then b && valid j else b) <$> l !! j.
Proof. apply list_lookup_imap. Qed.

Lemma computed_length i n l : length (computed i n l) = length l.
Proof. apply length_imap. Qed.

Lemma filled_length i n out : length (filled i n out) = length out.
Proof. apply length_imap. Qed.

Lemma computed_more s i : (s <= 64 * i)%nat -> (forall j, (s <= j < 64 * i)%nat -> l0 !! j = Some false) ->
  computed s (64 * S i - s) (computed 0 (64 * i) l0) = computed 0 (64 * S i) l0.
Proof.
  intros Hs Hf. apply list_eq. intros j. rewrite !computed_lookup. specialize (Hf j). destruct (l0 !! j) as [b|]; [|done]. cbn [fmap option_fmap option_map]. f_equal.
  destruct (decide (s <= j < 64 * i)%nat) as [Hj|Hj].
  - specialize (Hf Hj). injection Hf as ->. repeat destruct (decide _); try lia; done.
  - repeat destruct (decide _); try lia; done.
Qed.

Lemma computed_null i : all_of false i l0 -> computed 0 (64 * i) l0 = computed 0 (64 * S i) l0.
Proof.
  intros Hf. apply list_eq. intros j. rewrite !computed_lookup. destruct (l0 !! j) as [b|] eqn:Ej; [|done]. cbn [fmap option_fmap option_map]. f_equal.
  destruct (decide (64 * i <= j < 64 * S i)%nat) as [Hj|Hj]; [|repeat destruct (decide _); try lia; done].
  specialize (Hf (j - 64 * i)%nat ltac:(lia)). replace (64 * i + (j - 64 * i))%nat with j in Hf by lia. simplify_eq. repeat destruct (decide _); done.
Qed.

Lemma computed_unit b i : all_of b i (computed 0 (64 * i) l0) <-> all_of b i l0.
Proof.
  unfold all_of. split; intros H r Hr; specialize (H r Hr); rewrite computed_lookup in *; destruct (l0 !! _); cbn [fmap option_fmap option_map] in *; try done;
    rewrite decide_False in * by lia; done.
Qed.

Lemma computed_false j i n : l0 !! j = Some false -> false ∈ computed i n l0.
Proof. intros Hj. apply (list_elem_of_lookup_2 _ j). rewrite computed_lookup, Hj. cbn. by destruct (decide _). Qed.

Lemma units_ok fuel N n : forall i s st out, (i + n = N)%nat -> (s <= 64 * i)%nat -> (forall j, (s <= j < 64 * i)%nat -> l0 !! j = Some false) ->
  (forall k, (k < N)%nat -> all_of true k l0 \/ all_of false k l0) -> false ∈ l0 ->
  (64 * N <= rows)%nat -> (64 * N <= length l0)%nat -> (64 * N <= length out)%nat ->
  result_is st (computed 0 (64 * i) l0) out -> cells_ok (64 * i) out ->
  exists st' out', Units run null_value left_at right_at fuel n (Z.of_nat i) (Z.of_nat s) (Z.of_nat (64 * S i)) st = Some (Ret st') /\
    result_is st' (computed 0 (64 * N) l0) out' /\ cells_ok (64 * N) out' /\ length out' = length out.
Proof.
  induction n as [|n IH]; intros i s st out HN Hs Hnull Huni Hf Hrows Hl Ho HR Hc; cbn [Units].
  { exists st, out. replace N with i by lia. done. }
  apply list_elem_of_lookup_1 in Hf as [j Hj]. pose proof (computed_false j 0 (64 * i) Hj) as Hcf. apply list_elem_of_lookup_2 in Hj as Hf.
  destruct (unit_ok st _ out i HR Hcf) as (u & -> & Hmax & Hmin); [rewrite computed_length; lia|]. rewrite computed_unit in Hmax, Hmin. cbn [now mbind Fueled_bind].
  replace (Z.of_nat i + 1) with (Z.of_nat (S i)) by lia. replace (Z.of_nat (64 * S i) + UNIT_BITS) with (Z.of_nat (64 * S (S i))) by (unfold UNIT_BITS; lia).
  destruct (Huni i ltac:(lia)) as [Hall|Hall].
  - rewrite (proj2 Hmax Hall), Z.eqb_refl. replace (Z.to_nat _) with (64 * S i - s)%nat by lia.
    destruct (rows_ok (64 * S i - s) s st _ out HR) as (st1 & -> & HR1); [lia|rewrite computed_length; lia|lia|]. cbn [now mbind Fueled_bind].
    rewrite Z.max_r by lia. rewrite computed_more in HR1 by done.
    destruct (IH (S i) (64 * S i)%nat st1 (filled s (64 * S i - s) out)) as (st' & out' & Hu & HR' & Hc' & Hlen); try done; [lia|intros; lia|by rewrite filled_length| |].
    + intros k Hk Hk1. unfold filled. rewrite list_lookup_imap. destruct (decide (k < s)%nat) as [Hks|Hks].
      * rewrite (Hc k ltac:(lia) Hk1). cbn [fmap option_fmap option_map]. by rewrite decide_False by lia.
      * destruct (lookup_lt_is_Some_2 out k) as [c ->]; [lia|]. cbn [fmap option_fmap option_map]. by rewrite decide_True by lia.
    + exists st', out'. split; [done|]. split; [done|]. split; [done|]. by rewrite Hlen, filled_length.
  - assert ((u =? UNIT_MAX) = false) as ->. { apply Z.eqb_neq. rewrite Hmax. intros Ht. specialize (Ht 0%nat ltac:(lia)). specialize (Hall 0%nat ltac:(lia)). congruence. }
    rewrite (proj2 Hmin Hall), Z.eqb_refl. apply IH; try done; [lia|lia| |by rewrite <- computed_null|].
    + intros k Hk. destruct (decide (k < 64 * i)%nat); [apply Hnull; lia|]. specialize (Hall (k - 64 * i)%nat ltac:(lia)). by replace (64 * i + (k - 64 * i))%nat with k in Hall by lia.
    + intros k Hk Hk1. destruct (decide (k < 64 * i)%nat); [by apply Hc|]. specialize (Hall (k - 64 * i)%nat ltac:(lia)). replace (64 * i + (k - 64 * i))%nat with k in Hall by lia. congruence.
Qed.

(** The loop over a unit stays at its first null row. *)
Lemma null_row_stuck k fuel : forall i st l out, result_is st l out -> (k < 64)%nat -> (64 <= rows)%nat -> (64 <= length l)%nat -> (64 <= length out)%nat ->
  (i <= k)%nat -> l !! k = Some false -> (forall j, (i <= j < k)%nat -> l !! j = Some true) ->
  NonNullRows run null_value left_at right_at fuel 0 (Z.of_nat i) 64 st = None.
Proof.
  induction fuel as [|fuel IH]; intros i st l out HR Hk Hrows Hl Ho Hi Hlk Hbefore; cbn [NonNullRows].
  { by rewrite (proj2 (Z.ltb_lt _ _)) by lia. }
  rewrite (proj2 (Z.ltb_lt _ _)), Z.sub_0_r by lia. pose proof (result_mask _ _ _ HR) as Hm.
  rewrite (is_true_ok _ _ l) by (done || lia). rewrite Nat2Z.id. destruct (decide (i = k)) as [->|Hne].
  - rewrite (mask_at_some _ _ _ Hlk). cbn [now mbind Fueled_bind]. by apply (IH k st l out).
  - rewrite (mask_at_some _ _ true) by (apply Hbefore; lia). cbn [now mbind Fueled_bind].
    destruct (step_ok st l out i HR) as (st' & -> & HR'); [lia..|]. cbn [now mbind Fueled_bind]. replace (Z.of_nat i + 1) with (Z.of_nat (S i)) by lia.
    apply (IH (S i) st' _ _ HR'); [done|done|destruct (valid i); by rewrite ?length_insert|by rewrite length_insert|lia| |].
    + destruct (valid i); [done|]. by rewrite list_lookup_insert_ne.
    + intros j Hj. destruct (valid i); [apply Hbefore; lia|]. rewrite list_lookup_insert_ne by lia. apply Hbefore. lia.
Qed.
End Units.
End Loops.

(** ** The mask of the result *)

Section Masks.
Context (ml mr : Bitmask) (vl vr : nat * list bool).
Context (h : Buffers) (m : Bitmask) (v : nat * list bool).
Hypothesis HR : masks_rel (mkMasks h [ml; mr; m]) [vl; vr; v].

Lemma fresh_third : fresh_name [vl; vr; v] <> vl.1 /\ fresh_name [vl; vr; v] <> vr.1.
Proof. split; [by apply (fresh_name_ne _ 0)|by apply (fresh_name_ne _ 1)]. Qed.

Lemma all_true_result out : result_is ml mr vl vr (h, SetAllTrue m, out) (replicate (length v.2) true) out.
Proof.
  pose proof (sim_set_all_true _ _ 2 HR ltac:(cbn; lia)) as H. unfold mask_simulates in H. cbn [spec_mask_op mask_at lookup list_lookup mbind outcome_bind] in H.
  destruct H as (s' & Hrun & HR'). cbn in Hrun. injection Hrun as <-. split; [done|]. exists (fresh_name [vl; vr; v]). split; [|apply fresh_third].
  replace (replicate (length v.2) true) with ((fun _ => true) <$> v.2); [done|]. clear. induction v.2; [done|]. cbn. by f_equal.
Qed.

Lemma copied_result (j : nat) mj vj : [ml; mr] !! j = Some mj -> [vl; vr] !! j = Some vj ->
  exists h' m', DeepCopy h m mj = Ret (h', m') /\ forall out : list C, result_is ml mr vl vr (h', m', out) vj.2 out.
Proof.
  intros Hm Hv. assert ([ml; mr; m] !! j = Some mj /\ [vl; vr; v] !! j = Some vj) as [Hm' Hv'] by (destruct j as [|[|j]]; by simplify_eq/=).
  pose proof (sim_deep_copy _ _ 2 j HR ltac:(split; [cbn; lia|by eapply lookup_lt_Some])) as H. unfold mask_simulates in H.
  cbn [spec_mask_op] in H. rewrite (mask_at_some _ _ _ Hv') in H. cbn [mbind outcome_bind] in H. destruct H as (s' & Hrun & HR').
  cbn [run_mask_op masks buffers] in Hrun. rewrite (mask_at_some _ j _ Hm') in Hrun. cbn [mask_at lookup list_lookup mbind outcome_bind] in Hrun.
  destruct (DeepCopy h m mj) as [[h' m']| |]; [|done..]. cbn [mbind outcome_bind] in Hrun. injection Hrun as <-. exists h', m'. split; [done|]. intros out. split; [done|].
  exists (fresh_name [vl; vr; v]). split; [exact HR'|apply fresh_third].
Qed.
End Masks.

Lemma zip_trues l l' : length l = length l' -> forallb id l = true -> zip_with andb l l' = l'.
Proof.
  revert l'. induction l as [|b l IH]; intros [|b' l'] Hl Ha; try done. cbn in *. apply andb_true_iff in Ha as [-> Ha]. f_equal. apply IH; [by injection Hl|done].
Qed.

Lemma zip_andb_comm l : forall l', zip_with andb l l' = zip_with andb l' l.
Proof. induction l as [|b l IH]; intros [|b' l']; try done. cbn. rewrite IH. f_equal. apply andb_comm. Qed.

Lemma merged_result ml mr vl vr h m v : masks_rel (mkMasks h [ml; mr; m]) [vl; vr; v] -> length vl.2 = length vr.2 ->
  forallb id vl.2 && forallb id vr.2 = false ->
  exists h' m', (if forallb id vl.2 then DeepCopy h m mr
                 else if forallb id vr.2 then DeepCopy h m ml
                 else '(h, m) ← DeepCopy h m mr; Merge h m ml) = Ret (h', m') /\
    forall out : list C, result_is ml mr vl vr (h', m', out) (zip_with andb vl.2 vr.2) out.
Proof.
  intros HR Hl Ha. destruct (forallb id vl.2) eqn:El.
  { rewrite zip_trues by done. by apply (copied_result ml mr vl vr h m v HR 1). }
  destruct (forallb id vr.2) eqn:Er.
  { rewrite zip_andb_comm, zip_trues by done. by apply (copied_result ml mr vl vr h m v HR 0). }
  destruct (copied_result ml mr vl vr h m v HR 1 mr vr eq_refl eq_refl) as (h1 & m1 & -> & HR1). cbn [mbind outcome_bind].
  destruct (HR1 []) as (_ & g & HR2 & Hgl & Hgr). cbn [fst snd] in HR2.
  pose proof (sim_merge _ _ 2 0 HR2 ltac:(split; cbn; lia)) as H. unfold mask_simulates in H. cbn [spec_mask_op mask_at lookup list_lookup mbind outcome_bind fst snd] in H.
  rewrite El, Er, decide_False, Hl, Z.eqb_refl, assign_third in H by done. cbn [negb] in H. destruct H as (s' & Hrun & HR').
  cbn [run_mask_op masks buffers mask_at lookup list_lookup mbind outcome_bind] in Hrun. destruct (Merge h1 m1 ml) as [[h' m']| |]; [|done..].
  cbn [mbind outcome_bind] in Hrun. injection Hrun as <-. exists h', m'. split; [done|]. intros out. split; [done|]. exists g.
  rewrite zip_andb_comm. done.
Qed.

(** ** The operator *)

Definition cell {T} (v : ColumnVector T) (i : nat) : option T :=
  match vector_type_ v with
  | kFlat => data_ v !! i
  | kConstant => data_ v !! 0%nat
  | _ => None
  end.

(** The results of the rows. *)
Definition row_result (left : ColumnVector A) (right : ColumnVector B) (i : nat) : option C := a ← cell left i; b ← cell right i; eval a b.

(** The vector [v] holds the results of the first [n] rows, those of null rows not being
    computed: [merged i] if no operand is null in the row. *)
Definition holds_results (h : Buffers) (left : ColumnVector A) (right : ColumnVector B) (merged : nat -> bool) (n : nat) (v : ColumnVector C) : Prop :=
  tail_index_ v = Z.of_nat n /\ exists l, mask_ok h (nulls_ptr_ v) l /\ forall i, (i < n)%nat ->
    l !! i = Some (merged i && bool_decide (is_Some (row_result left right i))) /\
    (merged i = true -> data_ v !! i = Some (default null_value (row_result left right i))).

Definition accessor {T} (v : ColumnVector T) : Z -> outcome T := match vector_type_ v with kConstant => constant v | _ => flat v end.

Lemma accessor_cell {T} (v : ColumnVector T) i x : cell v i = Some x -> accessor v (Z.of_nat i) = Ret x.
Proof.
  unfold cell, accessor, flat, constant. destruct (vector_type_ v); intros Hx; try done; [by rewrite at_index_nat, Hx|].
  by rewrite (at_index_nat _ 0), Hx.
Qed.

Lemma row_cells left right rows : (forall i, (i < rows)%nat -> is_Some (cell left i) /\ is_Some (cell right i)) -> forall i, (i < rows)%nat ->
  exists a b, accessor left (Z.of_nat i) = Ret a /\ accessor right (Z.of_nat i) = Ret b /\ eval a b = row_result left right i.
Proof.
  intros Hc i Hi. destruct (Hc i Hi) as [[a Ha] [b Hb]]. exists a, b. split; [by apply accessor_cell|]. split; [by apply accessor_cell|]. unfold row_result. by rewrite Ha, Hb.
Qed.

Section Execute.
Context (fuel : nat) (h : Buffers) (left : ColumnVector A) (right : ColumnVector B) (result : ColumnVector C) (vl vr v : nat * list bool) (n : nat).
Hypothesis HR : masks_rel (mkMasks h [nulls_ptr_ left; nulls_ptr_ right; nulls_ptr_ result]) [vl; vr; v].

Lemma operand_masks : IsAllTrue h (nulls_ptr_ left) = Ret (forallb id vl.2) /\ IsAllTrue h (nulls_ptr_ right) = Ret (forallb id vr.2).
Proof.
  split; apply all_true_ok; [destruct (rel_at _ _ 0 HR) as (m & w & Hm & Hw & Hok)|destruct (rel_at _ _ 1 HR) as (m & w & Hm & Hw & Hok)]; cbn in *; (lia || by simplify_eq).
Qed.

(** The rows when the result starts with the mask [m0], in which they are not null. *)
Lemma rows_result m0 l0 : result_is (nulls_ptr_ left) (nulls_ptr_ right) vl vr (h, m0, data_ result) l0 (data_ result) ->
  (forall i, (i < n)%nat -> l0 !! i = Some true) ->
  (forall i, (i < n)%nat -> is_Some (cell left i) /\ is_Some (cell right i)) -> (n <= length (data_ result))%nat ->
  exists h' result', (st ← now (Rows run null_value (accessor left) (accessor right) n 0 (h, m0, data_ result)); now (Finalize result (Z.of_nat n) st)) = Some (Ret (h', result')) /\
    holds_results h' left right (fun _ => true) n result'.
Proof.
  intros H0 Hl Hc Ho. assert (n <= length l0)%nat as Hn by (destruct n as [|k]; [lia|]; specialize (Hl k ltac:(lia)); by apply lookup_lt_Some in Hl).
  destruct (rows_ok _ _ _ _ (accessor left) (accessor right) (row_result left right) n (row_cells left right n Hc) n 0 _ _ _ H0) as (st & Hst & H1); [lia|done|done|].
  change (Z.of_nat 0) with 0 in Hst. rewrite Hst. cbn [now mbind Fueled_bind]. unfold Finalize. rewrite (proj2 (Z.ltb_ge _ _)) by lia. pose proof (result_mask _ _ _ _ _ _ _ H1) as Hm.
  destruct st as [[h' m'] out']. destruct H1 as [Heq _]. cbn in Heq, Hm. subst out'. eexists _, _. split; [done|]. split; [done|]. eexists. split; [exact Hm|].
  intros i Hi. split.
  - unfold computed. rewrite list_lookup_imap, Hl by lia. cbn [fmap option_fmap option_map]. by rewrite decide_True by lia.
  - intros _. cbn [data_]. unfold filled. rewrite list_lookup_imap. destruct (lookup_lt_is_Some_2 (data_ result) i) as [c ->]; [lia|]. cbn [fmap option_fmap option_map]. by rewrite decide_True by lia.
Qed.

Lemma all_rows_result : (forall i, (i < n)%nat -> is_Some (cell left i) /\ is_Some (cell right i)) -> (n <= length v.2)%nat -> (n <= length (data_ result))%nat ->
  exists h' result', (st ← now (AllRows run null_value (accessor left) (accessor right) (Z.of_nat n) (start h result)); now (Finalize result (Z.of_nat n) st)) = Some (Ret (h', result')) /\
    holds_results h' left right (fun _ => true) n result'.
Proof.
  intros Hc Hv Ho. unfold AllRows, start. rewrite Nat2Z.id. apply (rows_result _ _ (all_true_result _ _ _ _ _ _ _ HR (data_ result))); [|done..].
  intros i Hi. by rewrite lookup_replicate_2 by lia.
Qed.
End Execute.

(** The rows that are computed: one, if both operands are constant. *)
Definition result_rows (left : ColumnVector A) (right : ColumnVector B) (n : nat) : nat :=
  match vector_type_ left, vector_type_ right with kConstant, kConstant => 1%nat | _, _ => n end.

(** Two constant operands compute one row. *)
Lemma one_row left_at right_at (st : @Result C) : Step run null_value left_at right_at st 0 = Rows run null_value left_at right_at 1 0 st.
Proof. cbn [Rows]. by destruct (Step _ _ _ _ _ _). Qed.

(** C19: Without nulls a binary operator on flat or constant operands, in any of the four
    combinations, computes the function on every row: the result of a row is that of the
    function on the cells of the operands, the only cell of an operand that is constant,
    and the row is null exactly where the function fails.  If both operands are constant
    there is one row; the mask of the result, which the code then does not reset when the
    operands may have nulls, must show that row and must not be that of an operand. *)
Theorem binary_operator_rows fuel h (left : ColumnVector A) (right : ColumnVector B) (result : ColumnVector C) (vl vr v : nat * list bool) n nullable :
  masks_rel (mkMasks h [nulls_ptr_ left; nulls_ptr_ right; nulls_ptr_ result]) [vl; vr; v] ->
  vector_type_ left ∈ [kFlat; kConstant] -> vector_type_ right ∈ [kFlat; kConstant] ->
  (nullable = true -> forallb id vl.2 = true /\ forallb id vr.2 = true) ->
  (nullable = true -> vector_type_ left = kConstant -> vector_type_ right = kConstant -> v.2 !! 0%nat = Some true /\ v.1 <> vl.1 /\ v.1 <> vr.1) ->
  let rows := result_rows left right n in
  (forall i, (i < rows)%nat -> is_Some (cell left i) /\ is_Some (cell right i)) -> (rows <= length v.2)%nat -> (rows <= length (data_ result))%nat ->
  exists h' result', Execute run null_value fuel h left right result (Z.of_nat n) nullable = Some (Ret (h', result')) /\
    holds_results h' left right (fun _ => true) rows result'.
Proof.
  intros HR Hkl Hkr Hn Hcc rows Hc Hv Ho. destruct (operand_masks h left right result vl vr v HR) as [Hl Hr].
  destruct (all_rows_result h left right result vl vr v rows HR Hc Hv Ho) as (h1 & result1 & Hall & Hres).
  unfold rows, result_rows in *. clear rows. unfold accessor in Hall.
  rewrite !elem_of_cons in Hkl, Hkr. destruct Hkl as [Ekl|[Ekl|Hk]]; [| |by apply not_elem_of_nil in Hk]; (destruct Hkr as [Ekr|[Ekr|Hk]]; [| |by apply not_elem_of_nil in Hk]);
    rewrite Ekl, Ekr in *; unfold Execute, ExecuteFlat, ExecuteConstant; rewrite Ekl, Ekr.
  1-3: exists h1, result1; split; [|done]; rewrite <- Hall; unfold ExecuteFlatFlat, ExecuteFlatConstant, ExecuteConstantFlat;
    (destruct nullable; [|done]); destruct (Hn eq_refl) as [Hl1 Hr1]; unfold ExecuteFlatFlatWithNull, ExecuteFlatConstantWithNull, ExecuteConstantFlatWithNull, start;
    rewrite Hl, Hr, Hl1, Hr1; done.
  unfold ExecuteConstantConstant. rewrite !one_row. destruct nullable; [|exists h1, result1; split; [exact Hall|done]].
  destruct (Hn eq_refl) as [Hl1 Hr1]. rewrite Hl, Hl1. cbn [mbind outcome_bind]. rewrite Hr, Hr1. cbn [mbind outcome_bind].
  destruct (Hcc eq_refl eq_refl eq_refl) as (H0 & Hvl & Hvr). unfold start.
  pose proof (rows_result h left right result vl vr 1 (nulls_ptr_ result) v.2) as H. unfold accessor in H. rewrite Ekl, Ekr in H. apply H; [|by intros [|i] Hi; [|lia]|done..].
  split; [done|]. exists v.1. by destruct v.
Qed.

Lemma first_false (l : list bool) : forall k, l !! k = Some false -> exists k', (k' <= k)%nat /\ l !! k' = Some false /\ forall j, (j < k')%nat -> l !! j = Some true.
Proof.
  induction l as [|b l IH]; intros k Hk; [done|]. destruct b; [|exists 0%nat; split; [lia|]; split; [done|intros; lia]].
  destruct k as [|k]; [done|]. destruct (IH k Hk) as (k' & Hle & Hf & Hb). exists (S k'). split; [lia|]. split; [done|]. intros [|j] Hj; [done|]. apply Hb. lia.
Qed.

Lemma unit_count n c : valid_count c -> Z.of_nat n <= c -> Z.to_nat (UnitCount (Z.of_nat n)) = ((n + 63) / 64)%nat.
Proof.
  intros Hc Hn. destruct (valid_units c Hc) as [Hr Hu]. unfold UnitCount, UNIT_BITS. unfold to_u64. rewrite u_wrap_id by (unfold u_range; lia).
  replace (Z.of_nat n + (64 - 1)) with (Z.of_nat (n + 63)) by lia. change 64 with (Z.of_nat 64). by rewrite <- Nat2Z.inj_div, Nat2Z.id.
Qed.

(** C18: Two flat operands of which some rows are null.  If in every unit of 64 rows all
    rows are null or none is, the rows of the result are null where an operand is null
    or the function fails, and the others have the results of the function.  But if the
    first unit has null and other rows, the operator does not end: it stays at the
    first null row. *)
Theorem binary_operator_nulls h left right (result : ColumnVector C) vl vr v n :
  let l0 := zip_with andb vl.2 vr.2 in
  let N := ((n + 63) / 64)%nat in
  masks_rel (mkMasks h [nulls_ptr_ left; nulls_ptr_ right; nulls_ptr_ result]) [vl; vr; v] ->
  vector_type_ left = kFlat -> vector_type_ right = kFlat -> length vl.2 = length vr.2 -> (0 < n)%nat -> false ∈ l0 ->
  (forall i, (i < 64 * N)%nat -> is_Some (cell left i) /\ is_Some (cell right i)) -> (64 * N <= length l0)%nat -> (64 * N <= length (data_ result))%nat ->
  ((forall k, (k < N)%nat -> all_of true k l0 \/ all_of false k l0) ->
   forall fuel, exists h' result', Execute run null_value fuel h left right result (Z.of_nat n) true = Some (Ret (h', result')) /\
     holds_results h' left right (fun i => default false (l0 !! i)) n result') /\
  ((exists j k, (j < 64)%nat /\ (k < 64)%nat /\ l0 !! j = Some true /\ l0 !! k = Some false) ->
   forall fuel, Execute run null_value fuel h left right result (Z.of_nat n) true = None).
Proof.
  intros l0 N HR Hkl Hkr Hlen Hn Hf Hc Hl Ho. destruct (operand_masks h left right result vl vr v HR) as [Hal Har].
  assert (n <= 64 * N)%nat as HnN by (unfold N; pose proof (Nat.div_mod_eq (n + 63) 64); pose proof (Nat.mod_upper_bound (n + 63) 64 ltac:(lia)); lia).
  assert (forallb id vl.2 && forallb id vr.2 = false) as Hne.
  { apply not_true_is_false. intros Ha. apply andb_true_iff in Ha as [Ha Hb]. unfold l0 in Hf. rewrite zip_trues in Hf by done.
    rewrite forallb_forall in Hb. by specialize (Hb false (proj1 (list_elem_of_In _ _) Hf)). }
  destruct (merged_result _ _ _ _ _ _ _ HR Hlen Hne) as (h1 & m1 & Hprep & HR1). specialize (HR1 (data_ result)). fold l0 in HR1.
  pose proof (mask_ok_count _ _ _ (result_mask _ _ _ _ _ _ _ HR1)) as Hcount.
  assert (forall fuel, Execute run null_value fuel h left right result (Z.of_nat n) true =
    (st ← Units run null_value (accessor left) (accessor right) fuel N 0 0 64 (h1, m1, data_ result); now (Finalize result (Z.of_nat n) st))) as Hex.
  { intros fuel. unfold Execute, ExecuteFlat, ExecuteFlatFlat, ExecuteFlatFlatWithNull, start, accessor. rewrite Hkl, Hkr, Hal, Har. cbn [now mbind Fueled_bind].
    rewrite Hne. unfold id in Hprep |- *. rewrite Hprep. cbn [now mbind Fueled_bind]. unfold AllUnits. rewrite (unit_count n _ Hcount) by lia. done. }
  pose proof (row_cells left right _ Hc) as Hcells. clearbody N l0. split.
  - intros Huni fuel. rewrite Hex.
    assert (computed (row_result left right) 0 (64 * 0) l0 = l0) as Hc0.
    { apply list_eq. intros j. unfold computed. rewrite list_lookup_imap. destruct (l0 !! j); cbn [fmap option_fmap option_map]; [|done]. by rewrite decide_False by lia. }
    destruct (units_ok (nulls_ptr_ left) (nulls_ptr_ right) vl vr (accessor left) (accessor right) (row_result left right) (64 * N) Hcells l0 fuel N N 0 0 (h1, m1, data_ result) (data_ result)) as (st' & out' & Hu & HR' & Hcell & Hlo);
      try done; [intros; lia|by rewrite Hc0|intros j Hj; lia|].
    change (Z.of_nat 0) with 0 in Hu. change (Z.of_nat (64 * 1)) with 64 in Hu. rewrite Hu. cbn [now mbind Fueled_bind]. unfold Finalize. rewrite (proj2 (Z.ltb_ge _ _)) by lia.
    pose proof (result_mask _ _ _ _ _ _ _ HR') as Hm. destruct st' as [[h' m'] o']. destruct HR' as [Heq _]. cbn [fst snd] in Heq, Hm. subst o'.
    eexists _, _. split; [done|]. split; [done|]. eexists. split; [exact Hm|]. intros i Hi. destruct (lookup_lt_is_Some_2 l0 i) as [b Hb]; [lia|]. rewrite Hb. change (default false (Some b)) with b. split.
    + unfold computed. rewrite list_lookup_imap, Hb. cbn [fmap option_fmap option_map]. by rewrite decide_True by lia.
    + intros ->. cbn [data_]. apply Hcell; [lia|done].
  - intros (j & k & Hj & Hk & Hjt & Hkf) fuel. rewrite Hex. destruct (first_false l0 k Hkf) as (k' & Hk' & Hf' & Hbefore).
    assert (0 < N)%nat as HN by lia. destruct N as [|N']; [lia|]. cbn [Units].
    destruct (unit_ok _ _ _ _ _ _ _ 0 HR1 Hf) as (u & Hu & Hmax & Hmin); [lia|]. change (Z.of_nat 0) with 0 in Hu. rewrite Hu. cbn [now mbind Fueled_bind].
    rewrite (proj2 (Z.eqb_neq u UNIT_MAX)), (proj2 (Z.eqb_neq u UNIT_MIN)).
    2: { rewrite Hmin. intros Hall. specialize (Hall j Hj). cbn in Hall. congruence. }
    2: { rewrite Hmax. intros Hall. specialize (Hall k Hk). cbn in Hall. congruence. }
    pose proof (null_row_stuck (nulls_ptr_ left) (nulls_ptr_ right) vl vr (accessor left) (accessor right) (row_result left right) (64 * S N') Hcells k' fuel 0 _ l0 (data_ result) HR1) as Hstuck.
    change (Z.of_nat 0) with 0 in Hstuck. rewrite Hstuck; [done|lia..|done|]. intros i Hi. apply Hbefore. lia.
Qed.
End BinaryOperator.

(** ** Addition of small integers *)

Definition add_tinyint (a b : Z) : option Z := if bool_decide (int_in TinyIntT (a + b)) then Some (a + b) else None.

Lemma add_tinyint_eval a b old : match add_tinyint a b with
  | Some c => AddFunction_Run TinyIntT TinyIntT TinyIntT a b old = Ret (true, c)
  | None => exists x, AddFunction_Run TinyIntT TinyIntT TinyIntT a b old = Ret (false, x)
  end.
Proof.
  destruct (no_overflow_computes TinyIntT (a + b)) as (x & Hx & Hin). unfold add_tinyint. change (AddFunction_Run TinyIntT TinyIntT TinyIntT a b old) with (no_overflow TinyIntT (a + b)).
  rewrite Hx. destruct (decide (int_in TinyIntT (a + b))) as [Hi|Hi]; [rewrite !(bool_decide_true _ Hi), (Hin Hi)|rewrite !(bool_decide_false _ Hi)]; [done|by exists x].
Qed.

Lemma full_mask h : mask_ok h (mkBitmask None 64) (trues 64).
Proof. apply mask_ok_null; [done|right; split; [done|lia]|done]. Qed.

(** Three vectors without nulls. *)
Lemma valid_masks h : masks_rel (mkMasks h [mkBitmask None 64; mkBitmask None 64; mkBitmask None 64]) [(0%nat, trues 64); (1%nat, trues 64); (2%nat, trues 64)].
Proof.
  split; cbn [masks buffers].
  - constructor; [apply full_mask|]. constructor; [apply full_mask|]. constructor; [apply full_mask|constructor].
  - intros i j m m' v v' Hm Hm' Hv Hv' Hij.
    assert (v.1 = i /\ v'.1 = j) as [-> ->] by (destruct i as [|[|[|i]]], j as [|[|[|j]]]; by simplify_eq/=).
    split; [done|]. intros (p & Hp & _). destruct i as [|[|[|i]]]; by simplify_eq/=.
Qed.

(** 127 + 1 is null, 3 + 4 is 7. *)
Lemma binary_operator_rows_witness :
  let left := mkColumnVector kFlat [127; 3] (mkBitmask None 64) 2 in
  let right := mkColumnVector kFlat [1; 4] (mkBitmask None 64) 2 in
  let result := mkColumnVector kFlat [9; 9] (mkBitmask None 64) 0 in
  exists h' result', Execute (AddFunction_Run TinyIntT TinyIntT TinyIntT) 0 0 ∅ left right result 2 true = Some (Ret (h', result')) /\
    holds_results 0 add_tinyint h' left right (fun _ => true) 2 result'.
Proof.
  intros left right result.
  apply (binary_operator_rows _ 0 add_tinyint add_tinyint_eval 0 ∅ left right result _ _ _ 2 true (valid_masks ∅)); [left|left|done|done| |apply (bool_decide_eq_true_1 _); reflexivity|apply (bool_decide_eq_true_1 _); reflexivity].
  intros [|[|i]] Hi; [by split; eexists|by split; eexists|change (result_rows left right 2) with 2%nat in Hi; lia].
Defined.

(** The first operand is null in the fourth row. *)
Lemma one_null_masks : masks_rel (mkMasks sample_buffers [sample_mask; mkBitmask None 64; mkBitmask None 64]) [(0%nat, buffer_bits [UNIT_MAX - 8]); (1%nat, trues 64); (2%nat, trues 64)].
Proof.
  split; cbn [masks buffers].
  - constructor; [apply sample_mask_ok|]. constructor; [apply full_mask|]. constructor; [apply full_mask|constructor].
  - intros i j m m' v v' Hm Hm' Hv Hv' Hij.
    assert (v.1 = i /\ v'.1 = j) as [-> ->] by (destruct i as [|[|[|i]]], j as [|[|[|j]]]; by simplify_eq/=).
    split; [done|]. intros (p & Hp & Hp'). destruct i as [|[|[|i]]], j as [|[|[|j]]]; by simplify_eq/=.
Qed.

Lemma binary_operator_nulls_witness :
  let left := mkColumnVector kFlat (replicate 64 1) sample_mask 64 in
  let right := mkColumnVector kFlat (replicate 64 1) (mkBitmask None 64) 64 in
  let result := mkColumnVector kFlat (replicate 64 0) (mkBitmask None 64) 0 in
  buffer_bits [UNIT_MAX - 8] !! 3%nat = Some false /\
  forall fuel, Execute (AddFunction_Run TinyIntT TinyIntT TinyIntT) 0 fuel sample_buffers left right result 64 true = None.
Proof.
  intros left right result. split; [reflexivity|].
  apply (binary_operator_nulls _ 0 add_tinyint add_tinyint_eval sample_buffers left right result _ _ _ 64 one_null_masks); [done|done|reflexivity|lia| | | | |].
  - apply (list_elem_of_lookup_2 _ 3). reflexivity.
  - intros i Hi. change (64 * ((64 + 63) / 64))%nat with 64%nat in Hi. unfold cell, left, right. cbn [vector_type_ data_]. rewrite !lookup_replicate_2 by done. by split; eexists.
  - apply (bool_decide_eq_true_1 _). reflexivity.
  - apply (bool_decide_eq_true_1 _). reflexivity.
  - exists 0%nat, 3%nat. split_and!; [lia|lia|reflexivity|reflexivity].
Defined.
