(* ===== verification/DataBlockCodec.v ===== *)
(** * Data blocks in the log

    The binary form of data blocks, which the append commands of the write-ahead log
    carry: [GetSizeInBytes], [WriteAdv] and [ReadAdv] of [storage/data_block.cpp] and of
    [storage/column_vector/column_vector.cpp].  They implement the interface that the
    entries of the log are proved against ([BlockCodec]).

    A column vector is represented by what its binary form depends on: the cells in use,
    the bytes of its string heap in their order, and the number of rows and the units of
    its bit mask, without the units if all rows are true. *)
From S2P Require Import Prelude Common Defs Wire WalEntry Arrays DataTypes Bitmask BitmaskProps VectorHeap VectorHeapProps BinaryOperator.

Local Open Scope Z_scope.

(** ** Masks *)

Record Mask := mkMask { mask_count : Z; mask_units : option (list Z) }.

(** The mask in a store of its own. *)
Definition mask_of (k : Mask) : Buffers * Bitmask :=
  match mask_units k with
  | None => (∅, mkBitmask None (mask_count k))
  | Some us => ({[1%positive := mkBitmaskBuffer us (mask_count k)]}, mkBitmask (Some 1%positive) (mask_count k))
  end.

(** What is known of a mask in any store. *)
Definition mask_contents (h : Buffers) (m : Bitmask) : outcome Mask :=
  all_true ← IsAllTrue h m;
  if all_true : bool then Ret (mkMask (count_ m) None)
  else match buffer_ptr m with None => UB "null pointer" | Some p => us ← data_at h p; Ret (mkMask (count_ m) (Some us)) end.

Definition Mask_GetSizeInBytes (k : Mask) : outcome Z := let '(h, m) := mask_of k in Bitmask_GetSizeInBytes h m.
Definition Mask_WriteAdv (k : Mask) : outcome (list Z) := let '(h, m) := mask_of k in Bitmask_WriteAdv h m.
Definition Mask_ReadAdv : Reader Mask := '(h, m) ← Bitmask_ReadAdv ∅; lift (mask_contents h m).

(** ** Column vectors *)

Definition ColumnVectorTypes : list ColumnVectorType := [kInvalid; kFlat; kConstant; kHeterogeneous].

#[export] Instance column_vector_type_eq_dec : EqDecision ColumnVectorType.
Proof. solve_decision. Defined.

Record Column := mkColumn {
  column_data_type : DataType;
  column_vector_type : ColumnVectorType;
  column_tail_index : Z;
  column_cells : list Z;  (** [tail_index_ * data_type_size_] bytes of [data_ptr_] *)
  column_heap : list Z;  (** the bytes of [buffer_->fix_heap_mgr_] *)
  column_nulls : Mask
}.

Definition is_varchar (dt : DataType) : bool := bool_decide (type_ dt = LogicalType.kVarchar).

Definition supported (c : Column) : bool := bool_decide (column_vector_type c = kFlat) || bool_decide (column_vector_type c = kConstant).

Definition Column_GetSizeInBytes (c : Column) : outcome Z :=
  if negb (supported c) then Throw StorageException "Not supported vector_type"
  else
    type_bytes ← DataType_GetSizeInBytes (column_data_type c);
    data_type_size ← DataType_Size (column_data_type c);
    nulls_bytes ← Mask_GetSizeInBytes (column_nulls c);
    Ret (to_i32 (type_bytes + 1 + (4 + column_tail_index c * data_type_size) +
                 (if is_varchar (column_data_type c) then 4 + Z.of_nat (length (column_heap c)) else 0) + nulls_bytes)).

Definition Column_WriteAdv (c : Column) : outcome (list Z) :=
  if negb (supported c) then Throw NotImplementException "Not supported vector_type"
  else
    type_bytes ← DataType_WriteAdv (column_data_type c);
    data_type_size ← DataType_Size (column_data_type c);
    cells ← read_at (column_cells c) 0 (column_tail_index c * data_type_size);
    nulls_bytes ← Mask_WriteAdv (column_nulls c);
    Ret (type_bytes ++ write_enum 1 ColumnVectorTypes (column_vector_type c) ++ le_bytes 4 (to_i32 (column_tail_index c)) ++ cells ++
         (if is_varchar (column_data_type c) then le_bytes 4 (to_i32 (Z.of_nat (length (column_heap c)))) ++ column_heap c else []) ++ nulls_bytes).

(** [Initialize(vector_type, DEFAULT_VECTOR_SIZE)] on a new vector: the number of cells
    of its buffer. *)
Definition Column_Initialize (dt : DataType) (vector_type : ColumnVectorType) : outcome Z :=
  match type_ dt with
  | LogicalType.kInvalid => Throw StorageException "Data type isn't assigned."
  | _ =>
      match vector_type with
      | kInvalid => Throw StorageException "Attempt to initialize column vector to invalid type."
      | _ =>
          match type_ dt with
          | LogicalType.kNull | LogicalType.kMissing => Throw TypeException "Unexpected data type for column vector."
          | _ => Ret (if bool_decide (vector_type = kConstant) then 1 else DEFAULT_VECTOR_SIZE)
          end
      end
  end.

(** [Memcpy] of the cells that were written to the buffer of the new vector: their
    number of bytes is computed as an [i32]. *)
Definition read_cells (tail_index data_type_size capacity : Z) : Reader (list Z) :=
  let bytes := tail_index * data_type_size in
  if (bytes <? 0) || (2 ^ 31 <=? bytes) || (capacity * data_type_size <? bytes) then out_of_model "memcpy out of range"
  else read_bytes (Z.to_nat bytes).

(** The variable part: nothing is read if the length is not positive. *)
Definition read_heap (dt : DataType) : Reader (list Z) :=
  if is_varchar dt then
    heap_len ← read_s 4;
    if heap_len >? 0 then read_bytes (Z.to_nat heap_len) else mret []
  else mret [].

Definition Column_ReadAdv (maxbytes : Z) : Reader Column :=
  start ← left;
  data_type ← DataType_ReadAdv maxbytes;
  vector_type ← read_enum 1 ColumnVectorTypes;
  capacity ← lift (Column_Initialize data_type vector_type);
  tail_index ← read_s 4;
  size ← lift (DataType_Size data_type);
  cells ← read_cells tail_index (to_i32 size) capacity;
  heap ← read_heap data_type;
  now ← left;
  if maxbytes - (start - now) <? 0 then throw StorageException "ptr goes out of range when reading ColumnVector"
  else
    nulls ← Mask_ReadAdv;
    now ← left;
    if maxbytes - (start - now) <? 0 then throw StorageException "ptr goes out of range when reading ColumnVector"
    else mret (mkColumn data_type vector_type tail_index cells heap nulls).

(** ** Data blocks *)

Record ColumnBlock := mkColumnBlock { block_columns : list Column; block_finalized : bool }.

(** [Finalize]: the vectors that are not constant have the same number of rows. *)
Fixpoint same_rows (row_count : option Z) (cs : list Column) : bool :=
  match cs with
  | [] => true
  | c :: cs =>
      if bool_decide (column_vector_type c = kConstant) then same_rows row_count cs
      else match row_count with
           | Some n => (n =? column_tail_index c) && same_rows row_count cs
           | None => same_rows (Some (column_tail_index c)) cs
           end
  end.

(** [Init] with the column vectors of the block, and [Finalize]. *)
Definition Block_Init (cs : list Column) : outcome ColumnBlock :=
  match cs with
  | [] => Throw StorageException "Empty column vectors."
  | _ => if same_rows None cs then Ret (mkColumnBlock cs true) else Throw StorageException "Column vectors in same data block have different size."
  end.

Definition Block_GetSizeInBytes (b : ColumnBlock) : outcome Z :=
  if negb (block_finalized b) then Throw StorageException "Data block is not finalized."
  else size ← sum_sizes Column_GetSizeInBytes (block_columns b); Ret (to_i32 (4 + size)).

Definition Block_WriteAdv (b : ColumnBlock) : outcome (list Z) :=
  if negb (block_finalized b) then Throw StorageException "Data block is not finalized."
  else bs ← write_all Column_WriteAdv (block_columns b); Ret (le_bytes 4 (to_i32 (Z.of_nat (length (block_columns b)))) ++ bs).

(** The loop body of [ReadAdv]; [ptr_end] is given as the number of bytes left when
    [ptr] reaches it. *)
Definition BlockColumn_ReadAdv (ptr_end : Z) : Reader Column :=
  now ← left;
  if now - ptr_end <=? 0 then throw StorageException "ptr goes out of range when reading DataBlock" else Column_ReadAdv (now - ptr_end).

Definition Block_ReadAdv (maxbytes : Z) : Reader ColumnBlock :=
  start ← left;
  column_count ← read_s 4;
  cs ← read_n (Z.to_nat column_count) (BlockColumn_ReadAdv (start - maxbytes));
  block ← lift (Block_Init cs);
  now ← left;
  if maxbytes - (start - now) <? 0 then throw StorageException "ptr goes out of range when reading DataBlock"
  else mret block.

(** ** Valid blocks *)

(** A mask that [Make] accepts, of which at least one row is not true if its units are
    written. *)
Definition mask_valid (k : Mask) : Prop :=
  0 <= mask_count k < 2 ^ 31 /\ not_power_of_2 (mask_count k) = false /\
  match mask_units k with
  | None => True
  | Some us => valid_count (mask_count k) /\ Forall (u_range 64) us /\ mask_count k = Z.of_nat (64 * length us) /\ forallb id (buffer_bits us) = false
  end.

(** The vectors of a valid block: flat with at most [DEFAULT_VECTOR_SIZE] cells or
    constant with one, with a heap only for strings. *)
Definition column_ok (c : Column) : Prop :=
  valid_type (column_data_type c) /\ supported c = true /\ mask_valid (column_nulls c) /\
  Forall is_byte (column_cells c) /\ Forall is_byte (column_heap c) /\ Z.of_nat (length (column_heap c)) < 2 ^ 31 /\
  (is_varchar (column_data_type c) = false -> column_heap c = []) /\
  exists capacity size, Column_Initialize (column_data_type c) (column_vector_type c) = Ret capacity /\ DataType_Size (column_data_type c) = Ret size /\
    0 <= size < 2 ^ 31 /\ 0 <= column_tail_index c <= capacity /\ Z.of_nat (length (column_cells c)) = column_tail_index c * size /\ Z.of_nat (length (column_cells c)) < 2 ^ 31.

Definition column_block_ok (b : ColumnBlock) : Prop :=
  Forall column_ok (block_columns b) /\ block_columns b <> [] /\ same_rows None (block_columns b) = true /\ block_finalized b = true /\
  forall w, Block_WriteAdv b = Ret w -> Z.of_nat (length w) < 2 ^ 31.

(** ** Round trips *)

#[local] Opaque le_bytes write_enum.

Lemma mask_write_bytes h m w : Bitmask_WriteAdv h m = Ret w -> Forall is_byte w.
Proof.
  unfold Bitmask_WriteAdv. destruct (IsAllTrue h m) as [[]| |]; cbn [mbind outcome_bind]; [|destruct (buffer_ptr m) as [p|]; [|done]|done..].
  - intros [= <-]. auto with wire.
  - destruct (data_at h p) as [us| |]; cbn [mbind outcome_bind]; [|done..]. destruct (_ || _); [done|]. intros [= <-]. apply Forall_app. split; [auto with wire|].
    apply Forall_take. unfold unit_bytes. auto with wire.
Qed.

Lemma mask_contents_ok h m us : mask_ok h m (buffer_bits us) -> Forall (u_range 64) us -> forallb id (buffer_bits us) = false -> mask_contents h m = Ret (mkMask (count_ m) (Some us)).
Proof.
  intros Hm Hus Hf. unfold mask_contents. rewrite (all_true_ok _ _ _ Hm), ret_bind, Hf. destruct (not_all_buffer _ _ _ Hm Hf) as [p Hp]. rewrite Hp.
  destruct (mask_buffer _ _ _ _ Hm Hp) as (b & _ & [Hub Hbits] & -> & _). rewrite ret_bind. by rewrite (buffer_bits_inj (units b) us).
Qed.

Lemma mask_of_ok c us : mask_valid (mkMask c (Some us)) -> mask_ok (mask_of (mkMask c (Some us))).1 (mask_of (mkMask c (Some us))).2 (buffer_bits us).
Proof.
  intros (_ & _ & Hv & Hus & Hc & Hf). cbn [mask_units mask_count] in *. unfold mask_of. cbn [mask_units mask_count fst snd]. rewrite <- insert_empty.
  apply mask_ok_new; [done|by rewrite buffer_bits_length|done|]. intros E. by rewrite E in Hf.
Qed.

Lemma mask_back k : mask_valid k ->
  exists w, Mask_WriteAdv k = Ret w /\ Forall is_byte w /\ Mask_GetSizeInBytes k = Ret (Z.of_nat (length w)) /\ reads_back Mask_ReadAdv w k.
Proof.
  intros Hk. destruct k as [c [us|]].
  - pose proof (mask_of_ok c us Hk) as Hm. pose proof Hk as ([_ Hc] & _ & Hv & Hus & Hn & Hf). cbn [mask_units mask_count] in *.
    assert (exists w, Mask_WriteAdv (mkMask c (Some us)) = Ret w) as [w Hw] by (destruct (bitmask_roundtrip _ _ _ ∅ [] Hm Hc) as (w & ? & ? & ? & _); by exists w).
    exists w. split; [done|]. split; [exact (mask_write_bytes _ _ _ Hw)|]. split.
    + destruct (bitmask_roundtrip _ _ _ ∅ [] Hm Hc) as (w' & ? & ? & Hw' & Hs & _). unfold Mask_WriteAdv, mask_of in Hw. cbn in Hw, Hw'. rewrite Hw in Hw'. injection Hw' as <-. done.
    + intros rest. destruct (bitmask_roundtrip _ _ _ ∅ rest Hm Hc) as (w' & h' & m' & Hw' & _ & Hr & Hm' & _). unfold Mask_WriteAdv, mask_of in Hw. cbn in Hw, Hw'. rewrite Hw in Hw'. injection Hw' as <-.
      unfold Mask_ReadAdv. erewrite bind_ret; [|exact Hr]. unfold lift. rewrite (mask_contents_ok h' m' us Hm' Hus Hf). destruct Hm' as (-> & _). rewrite buffer_bits_length, Hn. done.
  - destruct Hk as (Hc & Hp & _). cbn [mask_units mask_count] in *. unfold Mask_WriteAdv, Mask_GetSizeInBytes, mask_of, Bitmask_WriteAdv, Bitmask_GetSizeInBytes. cbn [mask_units IsAllTrue buffer_ptr mbind outcome_bind count_ mask_count].
    eexists. split; [done|]. split; [auto with wire|]. split; [done|]. intros rest. unfold Mask_ReadAdv, Bitmask_ReadAdv. erewrite bind_ret.
    2: { rewrite to_i32_id by done. rewrite <- app_assoc. rewrite (read_back _ _ _ _ c) by (apply read_s_back; [lia|unfold s_range; simpl; lia]).
         rewrite (lift_bind _ _ (mkBitmask None c)).
         2: { unfold to_u64. rewrite u_wrap_id by (unfold u_range; lia). unfold Bitmask_Make, Bitmask_Initialize. cbn. by rewrite Hp. }
         rewrite (read_back _ _ _ _ 1) by (apply read_s_back; [lia|unfold s_range; simpl; lia]). reflexivity. }
    done.
Qed.

(** What is appended to a new heap is read back from its beginning. *)
Lemma heap_read_back (d : list Z) : d <> [] -> Z.of_nat (length d) < 2 ^ 62 ->
  exists h, Fix_AppendToHeap (NewFixHeapManager DEFAULT_FIXLEN_CHUNK_SIZE) d = Ret (h, (0, 0)) /\ Fix_ReadFromHeap h 0 0 (Z.of_nat (length d)) = Ret (Some <$> d).
Proof.
  intros Hd Hl. destruct (append_ok Fix_Allocate 0 0 _ _ 0 d (new_heap_ok 0 (Z.to_nat DEFAULT_FIXLEN_CHUNK_SIZE) ltac:(unfold DEFAULT_FIXLEN_CHUNK_SIZE; lia) ltac:(unfold DEFAULT_FIXLEN_CHUNK_SIZE; lia)) Hd Hl) as (h & s & a & Ha & Hok & Hp & _).
  rewrite Z2Nat.id in Ha by (unfold DEFAULT_FIXLEN_CHUNK_SIZE; lia). fold (NewFixHeapManager (B := Z) DEFAULT_FIXLEN_CHUNK_SIZE) in Ha. exists h.
  assert (address a = (0, 0)) as E.
  { unfold append_with, Fix_Allocate in Ha. destruct (_ =? 0) eqn:E0; [zbool; destruct d; [done|simpl in E0; lia]|]. cbn [current_chunk_idx_ current_chunk_offset_ NewFixHeapManager] in Ha.
    unfold AppendAllocated in Ha. destruct (_ >? _); [destruct (ExtendChunks _ _ _) as [h1| |]; [|done..]|]; cbn [mbind outcome_bind] in Ha.
    all: destruct (AppendLoop _ _ _ _ _ _) as [cs| |]; cbn [mbind outcome_bind] in Ha; try discriminate Ha; by (unfold address; injection Ha as _ <- <-). }
  rewrite E in Ha. split; [exact Ha|]. pose proof (piece_read 0 0 h s _ a d Hok Hp) as Hr. rewrite E in Hr. unfold Fix_ReadFromHeap. by rewrite Nat2Z.id.
Qed.

Lemma read_cells_back cells n size capacity : 0 <= n <= capacity -> 0 <= size -> Z.of_nat (length cells) = n * size -> Z.of_nat (length cells) < 2 ^ 31 ->
  reads_back (read_cells n size capacity) cells cells.
Proof.
  intros Hn Hs Hl H31. unfold read_cells. assert (n * size <= capacity * size) by (apply Z.mul_le_mono_nonneg_r; lia).
  assert ((n * size <? 0) || (2 ^ 31 <=? n * size) || (capacity * size <? n * size) = false) as ->.
  { rewrite !orb_false_iff, !Z.ltb_ge, Z.leb_gt. lia. }
  apply read_bytes_app. lia.
Qed.

Definition heap_bytes (c : Column) : list Z :=
  if is_varchar (column_data_type c) then le_bytes 4 (to_i32 (Z.of_nat (length (column_heap c)))) ++ column_heap c else [].

Lemma read_heap_back c : Z.of_nat (length (column_heap c)) < 2 ^ 31 -> (is_varchar (column_data_type c) = false -> column_heap c = []) ->
  reads_back (read_heap (column_data_type c)) (heap_bytes c) (column_heap c).
Proof.
  intros Hl Hh. unfold read_heap, heap_bytes. destruct (is_varchar _); [|rewrite Hh by done; apply reads_back_ret].
  rewrite to_i32_id by lia. eapply reads_back_bind; [apply read_s_back; [lia|unfold s_range; simpl; lia]|]. cbv beta. rewrite Z.gtb_ltb. destruct (0 <? _) eqn:E; zbool.
  - apply read_bytes_app. lia.
  - assert (column_heap c = []) as -> by (apply nil_length_inv; lia). apply reads_back_ret.
Qed.

Lemma initialize_bound dt vt capacity : Column_Initialize dt vt = Ret capacity -> capacity <= 8192.
Proof. unfold Column_Initialize. destruct (type_ dt), vt; try discriminate; by intros [= <-]. Qed.

Lemma column_written c : column_ok c -> exists wt wm,
  DataType_WriteAdv (column_data_type c) = Ret wt /\ Forall is_byte wt /\ (0 < length wt)%nat /\ DataType_GetSizeInBytes (column_data_type c) = Ret (Z.of_nat (length wt)) /\
  Forall is_byte wm /\ Mask_GetSizeInBytes (column_nulls c) = Ret (Z.of_nat (length wm)) /\ reads_back Mask_ReadAdv wm (column_nulls c) /\
  Column_WriteAdv c = Ret (wt ++ write_enum 1 ColumnVectorTypes (column_vector_type c) ++ le_bytes 4 (column_tail_index c) ++ column_cells c ++ heap_bytes c ++ wm).
Proof.
  intros (Ht & Hs & Hm & _ & _ & _ & _ & capacity & size & Hi & Hsz & Hr & Htail & Hl & H31).
  destruct (DataType_write_ok _ Ht) as (wt & Hwt & Hbt). destruct (DataType_info_back _ _ Ht Hwt) as (w' & Ew & _ & Hst).
  destruct (mask_back _ Hm) as (wm & Hwm & Hbm & Hsm & Hrm). exists wt, wm. do 3 (split; [done || (rewrite Ew, length_app, write_enum_length; unfold SizeofLogicalType; lia)|]).
  do 4 (split; [done|]). unfold Column_WriteAdv. rewrite Hs. cbn [negb]. rewrite Hwt, Hsz, Hwm. cbn [mbind outcome_bind]. unfold read_at. rewrite <- Hl.
  destruct (_ || _) eqn:E; [rewrite !orb_true_iff, !Z.ltb_lt in E; lia|]. cbn [mbind outcome_bind]. rewrite drop_0, take_ge by lia.
  pose proof (initialize_bound _ _ _ Hi) as Hcap.
  by rewrite to_i32_id by lia.
Qed.

Lemma column_size c w : column_ok c -> Column_WriteAdv c = Ret w -> Z.of_nat (length w) < 2 ^ 31 -> Column_GetSizeInBytes c = Ret (Z.of_nat (length w)) /\ Forall is_byte w.
Proof.
  intros Hok Hw H31. destruct (column_written c Hok) as (wt & wm & _ & Hbt & _ & Hst & Hbm & Hsm & _ & Hw'). rewrite Hw in Hw'. injection Hw' as ->.
  destruct Hok as (_ & Hs & _ & Hbc & Hbh & Hlh & _ & capacity & size & _ & Hsz & _ & _ & Hl & _). split.
  - unfold Column_GetSizeInBytes. rewrite Hs. cbn [negb]. rewrite Hst, Hsz, Hsm. cbn [mbind outcome_bind]. f_equal. rewrite <- Hl. rewrite !length_app, write_enum_length, le_bytes_length in *.
    assert (Z.of_nat (length (heap_bytes c)) = if is_varchar (column_data_type c) then 4 + Z.of_nat (length (column_heap c)) else 0) as Eh.
    { unfold heap_bytes. destruct (is_varchar _); [|done]. rewrite length_app, le_bytes_length. lia. }
    rewrite <- Eh, to_i32_id by lia. lia.
  - unfold heap_bytes. destruct (is_varchar _); auto 10 with wire.
Qed.

Lemma column_back c w maxbytes rest : column_ok c -> Column_WriteAdv c = Ret w -> Z.of_nat (length w) <= maxbytes -> Column_ReadAdv maxbytes (w ++ rest) = Ret (c, rest).
Proof.
  intros Hok Hw Hm. destruct (column_written c Hok) as (wt & wm & Hwt & _ & _ & _ & _ & _ & Hrm & Hw'). rewrite Hw in Hw'. injection Hw' as ->.
  destruct Hok as (Ht & Hs & _ & _ & _ & Hlh & Hh & capacity & size & Hi & Hsz & Hr & Htail & Hl & H31). rewrite !length_app, write_enum_length, le_bytes_length in Hm.
  pose proof (initialize_bound _ _ _ Hi) as Hcap.
  unfold Column_ReadAdv. read_step left_eq. read_step (DataType_ReadAdv_back (column_data_type c)); [|done|done|lia].
  read_step (read_enum_back 1 ColumnVectorTypes (column_vector_type c)); [|lia|simpl; lia|unfold ColumnVectorTypes; destruct (column_vector_type c); set_solver].
  rewrite (lift_bind _ _ _ _ Hi). read_step (read_s_back 4 (column_tail_index c)); [|lia|unfold s_range; simpl; lia]. rewrite (lift_bind _ _ _ _ Hsz), to_i32_id by lia.
  read_step (read_cells_back (column_cells c) (column_tail_index c) size capacity); [|done|lia|done|done]. read_step (read_heap_back c); [|done|done]. read_step left_eq.
  rewrite !length_app, write_enum_length, le_bytes_length. match goal with |- context [?x <? 0] => assert ((x <? 0) = false) as -> by (apply Z.ltb_ge; lia) end.
  read_step Hrm. read_step left_eq. match goal with |- context [?x <? 0] => assert ((x <? 0) = false) as -> by (apply Z.ltb_ge; lia) end. by destruct c.
Qed.

Lemma block_columns_size cs w : Forall column_ok cs -> write_all Column_WriteAdv cs = Ret w -> Z.of_nat (length w) < 2 ^ 31 ->
  sum_sizes Column_GetSizeInBytes cs = Ret (Z.of_nat (length w)) /\ Forall is_byte w.
Proof.
  intros Hok. revert w. induction Hok as [|c cs Hc _ IH]; intros w Hw H31; cbn [write_all sum_sizes] in *; [by injection Hw as <-|].
  destruct (Column_WriteAdv c) as [w1| |] eqn:E1; cbn [mbind outcome_bind] in Hw; [|done..]. destruct (write_all _ cs) as [w2| |]; cbn [mbind outcome_bind] in Hw; [|done..].
  injection Hw as <-. rewrite length_app in *. destruct (column_size c w1 Hc E1 ltac:(lia)) as [-> Hb1], (IH w2 eq_refl ltac:(lia)) as [-> Hb2]. cbn [mbind outcome_bind].
  split; [f_equal; lia|]. by apply Forall_app.
Qed.

Lemma block_columns_back cs w ptr_end rest : Forall column_ok cs -> write_all Column_WriteAdv cs = Ret w -> ptr_end <= Z.of_nat (length rest) ->
  read_n (length cs) (BlockColumn_ReadAdv ptr_end) (w ++ rest) = Ret (cs, rest).
Proof.
  intros Hok. revert w. induction Hok as [|c cs Hc _ IH]; intros w Hw Hend; cbn [write_all length read_n] in *; [by injection Hw as <-|].
  destruct (Column_WriteAdv c) as [w1| |] eqn:E1; cbn [mbind outcome_bind] in Hw; [|done..]. destruct (write_all _ cs) as [w2| |]; cbn [mbind outcome_bind] in Hw; [|done..].
  injection Hw as <-. rewrite <- app_assoc. erewrite bind_ret; [erewrite bind_ret; [|by apply IH]; done|].
  destruct (column_written c Hc) as (wt & wm & _ & _ & Hpos & _ & _ & _ & _ & Hw'). assert (0 < length w1)%nat as Hw1 by (rewrite E1 in Hw'; injection Hw' as ->; rewrite length_app; lia).
  unfold BlockColumn_ReadAdv. read_step left_eq. rewrite !length_app. match goal with |- context [?x <=? 0] => assert ((x <=? 0) = false) as -> by (apply Z.leb_gt; lia) end.
  apply column_back; [done|done|lia].
Qed.

(** ** The interface of the log *)

#[export] Instance column_block_codec : BlockCodec ColumnBlock := {
  block_size := Block_GetSizeInBytes;
  block_write := Block_WriteAdv;
  block_read := Block_ReadAdv;
  block_valid := column_block_ok;
}.

Lemma block_written b : column_block_ok b -> exists bs, write_all Column_WriteAdv (block_columns b) = Ret bs /\
  Block_WriteAdv b = Ret (le_bytes 4 (Z.of_nat (length (block_columns b))) ++ bs) /\ Z.of_nat (4 + length bs) < 2 ^ 31 /\ (length (block_columns b) <= length bs)%nat.
Proof.
  intros (Hok & _ & _ & Hf & H31). assert (exists bs, write_all Column_WriteAdv (block_columns b) = Ret bs /\ (length (block_columns b) <= length bs)%nat) as (bs & Hbs & Hlen).
  { clear -Hok. induction Hok as [|c cs Hc _ (bs & Hbs & Hlen)]; [by exists []|]. destruct (column_written c Hc) as (wt & wm & _ & _ & Hpos & _ & _ & _ & _ & Hw).
    cbn [write_all]. rewrite Hw, Hbs. cbn [mbind outcome_bind]. eexists. split; [done|]. cbn [length]. rewrite !length_app. lia. }
  exists bs. split; [done|]. unfold Block_WriteAdv in *. rewrite Hf, Hbs in *. cbn [negb mbind outcome_bind] in *. specialize (H31 _ eq_refl). rewrite length_app, le_bytes_length in H31.
  rewrite to_i32_id by lia. done.
Qed.

(** Blocks as they are in the log have the laws of the interface: a valid block can be
    written, in as many bytes as [GetSizeInBytes] says, and is read back. *)
#[export] Instance column_block_laws : BlockCodecLaws ColumnBlock.
Proof.
  split.
  - intros b Hb. destruct (block_written b Hb) as (bs & Hbs & Hw & H31 & _). eexists. split; [exact Hw|]. destruct Hb as (Hok & _).
    apply Forall_app. split; [apply le_bytes_are_bytes|]. by apply (block_columns_size _ _ Hok Hbs ltac:(lia)).
  - intros b w Hb Hw. destruct (block_written b Hb) as (bs & Hbs & Hw' & H31 & _). cbn [block_write column_block_codec] in Hw. rewrite Hw in Hw'. injection Hw' as ->. destruct Hb as (Hok & _ & _ & Hf & _).
    cbn [block_size column_block_codec]. unfold Block_GetSizeInBytes. rewrite Hf. cbn [negb]. destruct (block_columns_size _ _ Hok Hbs ltac:(lia)) as [-> _]. cbn [mbind outcome_bind].
    rewrite length_app, le_bytes_length, to_i32_id by lia. f_equal. lia.
  - intros b w maxbytes rest Hb Hw Hm. destruct (block_written b Hb) as (bs & Hbs & Hw' & H31 & Hlen). cbn [block_write column_block_codec] in Hw. rewrite Hw in Hw'. injection Hw' as ->.
    destruct Hb as (Hok & Hne & Hsame & Hf & _). cbn [block_read column_block_codec]. unfold Block_ReadAdv. rewrite length_app, le_bytes_length in Hm. read_step left_eq.
    read_step (read_s_back 4); [|lia|unfold s_range; simpl; lia]. rewrite Nat2Z.id. erewrite bind_ret; [|apply block_columns_back; [done|done|rewrite !length_app, le_bytes_length; lia]].
    rewrite (lift_bind _ _ b) by (unfold Block_Init; rewrite Hsame; destruct b as [[] fin]; cbn in *; by subst). read_step left_eq. rewrite !length_app, le_bytes_length.
    by match goal with |- context [?x <? 0] => assert ((x <? 0) = false) as -> by (apply Z.ltb_ge; lia) end.
Qed.

(** A block of an integer and a string column with two rows, the second string null. *)
Definition sample_column_block : ColumnBlock :=
  mkColumnBlock [mkColumn (NewDataType LogicalType.kTinyInt) kFlat 2 [5; 7] [] (mkMask 64 None);
                 mkColumn (NewDataType LogicalType.kVarchar) kFlat 2 (replicate 32 0) [65; 66] (mkMask 64 (Some [UNIT_MAX - 2]))] true.

Lemma sample_column_block_ok : column_block_ok sample_column_block.
Proof.
  assert (forall l, forallb (fun b => (0 <=? b) && (b <? 256)) l = true -> Forall is_byte l) as Hb.
  { intros l Hl. rewrite forallb_forall in Hl. apply Forall_forall. intros x Hx. apply list_elem_of_In, Hl in Hx. apply andb_true_iff in Hx as [H1 H2]. zbool. by split. }
  split_and!; [|done|done|done|intros w Hw; vm_compute in Hw; injection Hw as <-; vm_compute; reflexivity].
  repeat apply Forall_cons_2; [..|constructor].
  all: split_and!; [done|done| |by apply Hb|by apply Hb|vm_compute; reflexivity|done|].
  - split_and!; [cbn; lia|cbn; lia|vm_compute; reflexivity|done].
  - eexists _, _. split_and!; [reflexivity|reflexivity|lia|lia|cbn; lia|vm_compute; discriminate|reflexivity|vm_compute; reflexivity].
  - split_and!; [cbn; lia|cbn; lia|vm_compute; reflexivity|]. cbn [mask_units mask_count column_nulls]. split_and!; [right; split; [vm_compute; reflexivity|lia]| |vm_compute; reflexivity|vm_compute; reflexivity].
    apply Forall_cons_2; [unfold u_range, UNIT_MAX; lia|constructor].
  - eexists _, _. split_and!; [reflexivity|reflexivity|lia|lia|cbn; lia|vm_compute; discriminate|reflexivity|vm_compute; reflexivity].
Qed.

Lemma sample_column_block_read : exists w, Block_WriteAdv sample_column_block = Ret w /\ Block_ReadAdv (Z.of_nat (length w)) (w ++ [1]) = Ret (sample_column_block, [1]).
Proof.
  pose proof (sample_column_block_ok : block_valid sample_column_block) as Hok. destruct (block_write_total _ Hok) as (w & Hw & _). exists w. split; [exact Hw|].
  exact (block_read_law _ w _ [1] Hok Hw (Z.le_refl _)).
Qed.
