(* ===== verification/RingBuffer.v ===== *)
(** * The buffers of a connection

    [network/buffer_writer.cpp], [network/buffer_reader.cpp] and
    [network/ring_buffer_iterator.cppm]: the messages of the PostgreSQL protocol are
    written to and read from a socket through ring buffers.

    A buffer is its array, the position of the first byte and that after the last.  The
    socket is [boost::asio]: the bytes it was given or will give, and how many of them
    one call transfers is a parameter, at least as many as the call asks for. *)
From S2P Require Import Prelude Arrays Wire.

Local Open Scope Z_scope.

Definition PG_MSG_BUFFER_SIZE : Z := 4096.
Definition NULL_END : Z := 0.

(** ** Ring buffers *)

Record Ring := mkRing {
  data_ : list Z;
  start_pos_ : Z;
  current_pos_ : Z
}.

Definition new_ring : Ring := mkRing (replicate (Z.to_nat PG_MSG_BUFFER_SIZE) 0) 0 0.

(** [RingBufferIterator::increment] *)
Definition increment (position n : Z) : Z := (position + n) mod PG_MSG_BUFFER_SIZE.

Definition Distance (begin_iter end_iter : Z) : Z := end_iter - begin_iter.

Definition size (r : Ring) : Z :=
  let current_size := Distance (start_pos_ r) (current_pos_ r) in
  if current_size <? 0 then current_size + PG_MSG_BUFFER_SIZE else current_size.

Definition max_capacity : Z := PG_MSG_BUFFER_SIZE - 1.
Definition full (r : Ring) : bool := size r =? max_capacity.

(** [CopyN] into a ring. *)
Fixpoint copy_in (src : list Z) (array_idx : Z) (data : list Z) : outcome (list Z) :=
  match src with
  | [] => Ret data
  | c :: src => data ← set_index data array_idx c; copy_in src (increment array_idx 1) data
  end.

(** [CopyN] out of a ring. *)
Fixpoint copy_out (data : list Z) (iter : Z) (len : nat) : outcome (list Z) :=
  match len with
  | O => Ret []
  | S len => c ← at_index data iter; output ← copy_out data (increment iter 1) len; Ret (c :: output)
  end.

(** [Find] and [Copy]; [fuel] is the number of steps, which the size of a ring bounds. *)
Fixpoint Find (fuel : nat) (data : list Z) (iter end_iter finding : Z) : outcome Z :=
  match fuel with
  | O => Ret iter
  | S fuel =>
      if iter =? end_iter then Ret iter
      else c ← at_index data iter; if c =? finding then Ret iter else Find fuel data (increment iter 1) end_iter finding
  end.

Fixpoint CopyLoop (fuel : nat) (data : list Z) (iter end_iter : Z) (output : list Z) : outcome (list Z) :=
  match fuel with
  | O => Ret output
  | S fuel =>
      if iter =? end_iter then Ret output
      else c ← at_index data iter; CopyLoop fuel data (increment iter 1) end_iter (output ++ [c])
  end.

(** [reserve] gets the distance as a [SizeT]: a negative one is too large. *)
Definition Copy (fuel : nat) (data : list Z) (begin_iter end_iter : Z) (output : list Z) : outcome (list Z) :=
  if Distance begin_iter end_iter <? 0 then Throw StdException "basic_string::_M_create"
  else CopyLoop fuel data begin_iter end_iter output.

(** ** The writer *)

Section Writer.
(** The number of bytes that a write of so many bytes transfers, at least the first number. *)
Context (transferred : Z -> Z -> Z).

(** The buffer, the bytes the socket has taken, and whether the connection is closed. *)
Record BufferWriter := mkBufferWriter {
  ring : Ring;
  sent : list Z;
  closed : bool
}.

(** The bytes of the one or two segments that are written. *)
Definition segments (r : Ring) : outcome (list Z) :=
  if Distance (start_pos_ r) (current_pos_ r) <? 0 then
    first ← read_at (data_ r) (start_pos_ r) (PG_MSG_BUFFER_SIZE - start_pos_ r);
    second ← read_at (data_ r) 0 (current_pos_ r);
    Ret (first ++ second)
  else read_at (data_ r) (start_pos_ r) (size r).

Definition flush (w : BufferWriter) (bytes : Z) : outcome BufferWriter :=
  let r := ring w in
  if size r <? bytes then Throw NetworkException "Can't flush more bytes than available"
  else
    let bytes_to_send := if bytes =? 0 then size r else bytes in
    out ← segments r;
    let bytes_sent := if closed w then 0 else transferred bytes_to_send (Z.of_nat (length out)) in
    if bytes_sent =? 0 then Throw NetworkException "Write failed. Client close connection."
    else Ret (mkBufferWriter (mkRing (data_ r) (increment (start_pos_ r) bytes_sent) (current_pos_ r)) (sent w ++ take (Z.to_nat bytes_sent) out) (closed w)).

Definition try_flush (w : BufferWriter) (bytes : Z) : outcome BufferWriter :=
  if max_capacity - size (ring w) <=? bytes then flush w bytes else Ret w.

(** [CopyN(src, len, current_pos_); current_pos_.increment(len)] *)
Definition put (w : BufferWriter) (src : list Z) : outcome BufferWriter :=
  let r := ring w in
  data ← copy_in src (current_pos_ r) (data_ r);
  Ret (mkBufferWriter (mkRing data (start_pos_ r) (increment (current_pos_ r) (Z.of_nat (length src)))) (sent w) (closed w)).

(** [send_value_i8] and the like, for the bytes of a value in network order. *)
Definition send_bytes (w : BufferWriter) (bytes : list Z) : outcome BufferWriter :=
  w ← try_flush w (Z.of_nat (length bytes));
  put w bytes.

Definition network_bytes (n : nat) (z : Z) : list Z := rev (le_bytes n z).

Definition send_value_i8 (w : BufferWriter) (host_value : Z) := send_bytes w (network_bytes 1 host_value).
Definition send_value_u8 (w : BufferWriter) (host_value : Z) := send_bytes w (network_bytes 1 host_value).
Definition send_value_i16 (w : BufferWriter) (host_value : Z) := send_bytes w (network_bytes 2 host_value).
Definition send_value_u16 (w : BufferWriter) (host_value : Z) := send_bytes w (network_bytes 2 host_value).
Definition send_value_i32 (w : BufferWriter) (host_value : Z) := send_bytes w (network_bytes 4 host_value).
Definition send_value_u32 (w : BufferWriter) (host_value : Z) := send_bytes w (network_bytes 4 host_value).

(** The loop of [send_string]: the bytes that are left.  The position in the string, a
    [u32], is that of a string shorter than [2 ^ 32] bytes. *)
Fixpoint SendRest (fuel : nat) (w : BufferWriter) (rest : list Z) : outcome BufferWriter :=
  match rest, fuel with
  | [], _ => Ret w
  | _ :: _, O => UB "not enough fuel"
  | _ :: _, S fuel =>
      let bytes_to_transfer := Z.min max_capacity (Z.of_nat (length rest)) in
      w ← try_flush w bytes_to_transfer;
      w ← put w (take (Z.to_nat bytes_to_transfer) rest);
      SendRest fuel w (drop (Z.to_nat bytes_to_transfer) rest)
  end.

Definition send_string (w : BufferWriter) (value : list Z) (null_terminator : bool) : outcome BufferWriter :=
  let position_in_string := if full (ring w) then 0 else Z.min (max_capacity - size (ring w)) (Z.of_nat (length value)) in
  w ← (if full (ring w) then Ret w else put w (take (Z.to_nat position_in_string) value));
  w ← SendRest (length value) w (drop (Z.to_nat position_in_string) value);
  if null_terminator then send_bytes w [NULL_END] else Ret w.
End Writer.

(** ** The reader *)

Section Reader.
(** The number of bytes that a read transfers: of what arrives, at least the first
    number and no more than the second. *)
Context (received : list Z -> Z -> Z -> Z).

(** The buffer, and the bytes that the socket will give before it is closed. *)
Record BufferReader := mkBufferReader {
  input : Ring;
  incoming : list Z
}.

(** Bytes are written to [current_pos_] and on, in one segment or two. *)
Definition receive_segments (r : Ring) (bytes : list Z) : outcome (list Z) :=
  let available_size := max_capacity - size r in
  let n := Z.of_nat (length bytes) in
  if (Distance (start_pos_ r) (current_pos_ r) <? 0) || (start_pos_ r =? 0) then
    if available_size <? n then UB "buffer" else write_at (data_ r) (current_pos_ r) bytes
  else
    let first := PG_MSG_BUFFER_SIZE - current_pos_ r in
    if first + (start_pos_ r - 1) <? n then UB "buffer"
    else data ← write_at (data_ r) (current_pos_ r) (take (Z.to_nat first) bytes); write_at data 0 (drop (Z.to_nat first) bytes).

Definition receive_more (rd : BufferReader) (bytes : Z) : outcome BufferReader :=
  let r := input rd in
  if bytes <=? size r then Ret rd
  else
    let available_size := max_capacity - size r in
    let least := bytes - size r in
    if Z.of_nat (length (incoming rd)) <? least then
      if (length (incoming rd) =? 0)%nat then Throw ClientException "Client close the connection." else Throw NetworkException "End of file"
    else
      let bytes_read := received (incoming rd) least available_size in
      if bytes_read =? 0 then Throw ClientException "Client close the connection."
      else
        data ← receive_segments r (take (Z.to_nat bytes_read) (incoming rd));
        Ret (mkBufferReader (mkRing data (start_pos_ r) (increment (current_pos_ r) bytes_read)) (drop (Z.to_nat bytes_read) (incoming rd))).

(** [CopyN(start_pos_, len, ...); start_pos_.increment(len)] *)
Definition get (rd : BufferReader) (len : Z) : outcome (list Z * BufferReader) :=
  let r := input rd in
  bytes ← copy_out (data_ r) (start_pos_ r) (Z.to_nat len);
  Ret (bytes, mkBufferReader (mkRing (data_ r) (increment (start_pos_ r) len) (current_pos_ r)) (incoming rd)).

(** [read_value_u8] and the like: the bytes of a value. *)
Definition read_value_bytes (rd : BufferReader) (n : Z) : outcome (list Z * BufferReader) :=
  rd ← receive_more rd n;
  get rd n.

Definition host_value (bytes : list Z) : Z := le_value (rev bytes).

Definition read_value_i8 (rd : BufferReader) : outcome (Z * BufferReader) := '(bytes, rd) ← read_value_bytes rd 1; Ret (to_i8 (host_value bytes), rd).
Definition read_value_u8 (rd : BufferReader) : outcome (Z * BufferReader) := '(bytes, rd) ← read_value_bytes rd 1; Ret (host_value bytes, rd).
Definition read_value_i16 (rd : BufferReader) : outcome (Z * BufferReader) := '(bytes, rd) ← read_value_bytes rd 2; Ret (to_i16 (host_value bytes), rd).
Definition read_value_u16 (rd : BufferReader) : outcome (Z * BufferReader) := '(bytes, rd) ← read_value_bytes rd 2; Ret (host_value bytes, rd).
Definition read_value_i32 (rd : BufferReader) : outcome (Z * BufferReader) := '(bytes, rd) ← read_value_bytes rd 4; Ret (to_i32 (host_value bytes), rd).
Definition read_value_u32 (rd : BufferReader) : outcome (Z * BufferReader) := '(bytes, rd) ← read_value_bytes rd 4; Ret (host_value bytes, rd).

(** The loop of [read_string] with a length: so many bytes are missing. *)
Fixpoint ReadRest (fuel : nat) (rd : BufferReader) (missing : Z) (result : list Z) : outcome (list Z * BufferReader) :=
  if missing <=? 0 then Ret (result, rd)
  else
    match fuel with
    | O => UB "not enough fuel"
    | S fuel =>
        let substring_length := Z.min missing max_capacity in
        rd ← receive_more rd substring_length;
        '(bytes, rd) ← get rd substring_length;
        ReadRest fuel rd (missing - substring_length) (result ++ bytes)
    end.

Definition read_string_n (rd : BufferReader) (string_length : Z) (null_terminator : bool) : outcome (list Z * BufferReader) :=
  '(result, rd) ← (if size (input rd) =? 0 then Ret ([], rd) else get rd (Z.min string_length (size (input rd))));
  '(result, rd) ← ReadRest (Z.to_nat string_length) rd (string_length - Z.of_nat (length result)) result;
  if null_terminator then
    match last result with
    | None => UB "back of an empty string"
    | Some c => if negb (c =? NULL_END) then Throw NetworkException "Last character isn't null." else Ret (take (length result - 1) result, rd)
    end
  else Ret (result, rd).

(** [read_string] without a length. *)
Definition steps : nat := Z.to_nat PG_MSG_BUFFER_SIZE.

Fixpoint ReadToNull (fuel : nat) (rd : BufferReader) (end_pos : Z) (result : list Z) : outcome (list Z * BufferReader) :=
  c ← at_index (data_ (input rd)) end_pos;
  if c =? NULL_END then Ret (result, rd)
  else
    match fuel with
    | O => UB "not enough fuel"
    | S fuel =>
        rd ← receive_more rd 1;
        let r := input rd in
        end_pos ← Find steps (data_ r) (start_pos_ r) (current_pos_ r) NULL_END;
        result ← Copy steps (data_ r) (start_pos_ r) (current_pos_ r) result;
        ReadToNull fuel (mkBufferReader (mkRing (data_ r) end_pos (current_pos_ r)) (incoming rd)) end_pos result
    end.

Definition read_string (fuel : nat) (rd : BufferReader) : outcome (list Z * BufferReader) :=
  let r := input rd in
  '(end_pos, result, rd) ← (
    if size r =? 0 then Ret (0, [], rd)
    else
      end_pos ← Find steps (data_ r) (start_pos_ r) (current_pos_ r) NULL_END;
      result ← Copy steps (data_ r) (start_pos_ r) (current_pos_ r) [];
      Ret (end_pos, result, mkBufferReader (mkRing (data_ r) (increment (start_pos_ r) (Z.of_nat (length result))) (current_pos_ r)) (incoming rd)));
  '(result, rd) ← ReadToNull fuel rd end_pos result;
  let r := input rd in
  Ret (result, mkBufferReader (mkRing (data_ r) (increment (start_pos_ r) 1) (current_pos_ r)) (incoming rd)).
End Reader.
