(* ===== verification/RingBufferProps.v ===== *)
(** * The buffers of a connection: theorems

    A ring buffer is a queue of at most 4095 bytes.  What was sent and what is in the
    buffer of the writer are, in order, all the bytes it was given; what the reader
    returns are, in order, the bytes that arrive.  Both hold whatever number of bytes
    the socket transfers at a time. *)
From S2P Require Import Prelude Arrays Wire RingBuffer.

Local Open Scope Z_scope.

(** The ring [r] holds the bytes [c]. *)
Definition ring_holds (r : Ring) (c : list Z) : Prop :=
  Z.of_nat (length (data_ r)) = PG_MSG_BUFFER_SIZE /\ 0 <= start_pos_ r < PG_MSG_BUFFER_SIZE /\ Z.of_nat (length c) <= max_capacity /\
  current_pos_ r = increment (start_pos_ r) (Z.of_nat (length c)) /\
  forall k x, c !! k = Some x -> data_ r !! Z.to_nat (increment (start_pos_ r) (Z.of_nat k)) = Some x.

(** ** Positions *)

Lemma increment_range p n : 0 <= increment p n < PG_MSG_BUFFER_SIZE.
Proof. apply Z.mod_pos_bound. done. Qed.

Lemma increment_add p m n : increment (increment p m) n = increment p (m + n).
Proof. unfold increment. rewrite Zplus_mod_idemp_l. f_equal. lia. Qed.

Lemma increment_0 p : 0 <= p < PG_MSG_BUFFER_SIZE -> increment p 0 = p.
Proof. intros Hp. unfold increment. rewrite Z.add_0_r. by apply Z.mod_small. Qed.

Lemma increment_small p n : 0 <= p -> 0 <= n -> p + n < PG_MSG_BUFFER_SIZE -> increment p n = p + n.
Proof. intros. apply Z.mod_small. lia. Qed.

Lemma increment_wrap p n : p < PG_MSG_BUFFER_SIZE -> n < PG_MSG_BUFFER_SIZE -> PG_MSG_BUFFER_SIZE <= p + n -> increment p n = p + n - PG_MSG_BUFFER_SIZE.
Proof. intros. unfold increment, PG_MSG_BUFFER_SIZE in *. rewrite <- (Z.mod_small (p + n - 4096) 4096) by lia. rewrite <- (Z_mod_plus_full (p + n - 4096) 1 4096). f_equal. lia. Qed.

(** Where the position after [n] steps is. *)
Lemma increment_cases p n : 0 <= p < PG_MSG_BUFFER_SIZE -> 0 <= n < PG_MSG_BUFFER_SIZE ->
  (p + n < PG_MSG_BUFFER_SIZE /\ increment p n = p + n) \/ (PG_MSG_BUFFER_SIZE <= p + n /\ increment p n = p + n - PG_MSG_BUFFER_SIZE).
Proof.
  intros Hp Hn. destruct (decide (p + n < PG_MSG_BUFFER_SIZE)); [left; split; [done|apply increment_small; lia]|right; split; [lia|apply increment_wrap; lia]].
Qed.

Lemma increment_end p : 0 <= p < PG_MSG_BUFFER_SIZE -> increment p (PG_MSG_BUFFER_SIZE - p) = 0.
Proof. intros Hp. unfold increment. replace (p + (PG_MSG_BUFFER_SIZE - p)) with PG_MSG_BUFFER_SIZE by lia. apply Z_mod_same_full. Qed.

Lemma increment_inj p m n : 0 <= p < PG_MSG_BUFFER_SIZE -> 0 <= m < PG_MSG_BUFFER_SIZE -> 0 <= n < PG_MSG_BUFFER_SIZE -> increment p m = increment p n -> m = n.
Proof. intros Hp Hm Hn. destruct (increment_cases p m Hp Hm) as [[? ->]|[? ->]], (increment_cases p n Hp Hn) as [[? ->]|[? ->]]; lia. Qed.

Lemma ring_size r c : ring_holds r c -> size r = Z.of_nat (length c) /\ 0 <= current_pos_ r < PG_MSG_BUFFER_SIZE.
Proof.
  intros (_ & Hs & Hc & Hp & _). unfold size, Distance. rewrite Hp. unfold max_capacity in Hc. split; [|apply increment_range].
  destruct (increment_cases (start_pos_ r) (Z.of_nat (length c)) Hs ltac:(lia)) as [[? ->]|[? ->]]; destruct (_ <? 0) eqn:E; zbool; unfold PG_MSG_BUFFER_SIZE in *; lia.
Qed.

(** ** Copies *)

Lemma copy_in_ok src : forall r c, ring_holds r c -> Z.of_nat (length c) + Z.of_nat (length src) <= max_capacity ->
  exists data, copy_in src (current_pos_ r) (data_ r) = Ret data /\
    ring_holds (mkRing data (start_pos_ r) (increment (current_pos_ r) (Z.of_nat (length src)))) (c ++ src).
Proof.
  induction src as [|x src IH]; intros r c HR Hle.
  - destruct (ring_size r c HR) as [_ Hcur]. exists (data_ r). split; [done|]. cbn [length]. rewrite increment_0, app_nil_r by done. by destruct r.
  - pose proof HR as (Hd & Hs & Hc & Hp & Hk). pose proof (increment_range (start_pos_ r) (Z.of_nat (length c))) as Hr. rewrite <- Hp in Hr.
    cbn [copy_in]. rewrite set_index_in by lia. cbn [mbind outcome_bind].
    set (r1 := mkRing (<[Z.to_nat (current_pos_ r) := x]> (data_ r)) (start_pos_ r) (increment (current_pos_ r) 1)).
    assert (ring_holds r1 (c ++ [x])) as HR1.
    { cbn [length] in Hle. unfold max_capacity in *. unfold ring_holds, r1. cbn [data_ start_pos_ current_pos_]. rewrite length_insert, length_app. cbn [length]. unfold max_capacity.
      split_and!; [done|lia|lia|lia|rewrite Hp, increment_add; f_equal; lia|].
      intros k y Hy. apply lookup_snoc_Some in Hy as [[Hlt Hy]|[-> <-]].
      - rewrite list_lookup_insert_ne; [by apply Hk|]. pose proof (increment_range (start_pos_ r) (Z.of_nat k)) as Hk'. intros Heq. apply Z2Nat.inj in Heq; [|lia..].
        rewrite Hp in Heq. apply increment_inj in Heq; lia.
      - rewrite <- Hp, list_lookup_insert_eq; [done|]. lia. }
    destruct (IH r1 (c ++ [x]) HR1) as (data & Hcopy & HR2); [rewrite length_app; cbn [length] in *; lia|]. exists data. split; [done|].
    cbn [r1 start_pos_ current_pos_] in HR2. rewrite increment_add, <- app_assoc in HR2. by replace (Z.of_nat (length (x :: src))) with (1 + Z.of_nat (length src)) by (cbn [length]; lia).
Qed.

Lemma copy_out_ok n : forall r c, ring_holds r c -> (n <= length c)%nat -> copy_out (data_ r) (start_pos_ r) n = Ret (take n c) /\
  ring_holds (mkRing (data_ r) (increment (start_pos_ r) (Z.of_nat n)) (current_pos_ r)) (drop n c).
Proof.
  induction n as [|n IH]; intros r c HR Hn.
  - split; [done|]. pose proof HR as (_ & Hs & _). change (Z.of_nat 0) with 0. rewrite increment_0, drop_0 by done. by destruct r.
  - destruct c as [|x c]; [cbn in Hn; lia|]. pose proof HR as (Hd & Hs & Hc & Hp & Hk). cbn [copy_out].
    pose proof (Hk 0%nat x eq_refl) as H0. change (Z.of_nat 0) with 0 in H0. rewrite increment_0 in H0 by done. rewrite (at_index_lookup _ _ x) by (done || lia). cbn [mbind outcome_bind].
    set (r1 := mkRing (data_ r) (increment (start_pos_ r) 1) (current_pos_ r)).
    assert (ring_holds r1 c) as HR1.
    { unfold ring_holds, r1. cbn [data_ start_pos_ current_pos_]. cbn [length] in *. split_and!; [done|apply increment_range..|lia| |].
      - rewrite increment_add, Hp. f_equal. lia.
      - intros k y Hy. rewrite increment_add. specialize (Hk (S k) y Hy). by replace (Z.of_nat (S k)) with (1 + Z.of_nat k) in Hk by lia. }
    destruct (IH r1 c HR1) as [Hcopy HR2]; [cbn [length] in Hn; lia|]. cbn [r1 data_ start_pos_ current_pos_] in *. rewrite Hcopy. split; [done|].
    cbn [drop]. rewrite increment_add in HR2. by replace (Z.of_nat (S n)) with (1 + Z.of_nat n) by lia.
Qed.

(** Copies that do not pass the end of the array. *)
Lemma copy_out_read data n : forall pos, Z.of_nat (length data) = PG_MSG_BUFFER_SIZE -> 0 <= pos -> pos + Z.of_nat n <= PG_MSG_BUFFER_SIZE ->
  copy_out data pos n = read_at data pos (Z.of_nat n).
Proof.
  induction n as [|n IH]; intros pos Hd Hp Hn; rewrite <- (Z2Nat.id pos) by done; rewrite read_at_in by lia; [done|]. cbn [copy_out].
  destruct (lookup_lt_is_Some_2 data (Z.to_nat pos)) as [x Hx]; [lia|]. rewrite at_index_nat, Hx. cbn [mbind outcome_bind].
  rewrite (drop_S data x) by done. rewrite Z2Nat.id by done. destruct n as [|n]; [done|].
  rewrite increment_small, IH by lia. replace (pos + 1) with (Z.of_nat (S (Z.to_nat pos))) by lia. rewrite read_at_in by lia. done.
Qed.

Lemma copy_out_app data m n : forall pos, 0 <= pos < PG_MSG_BUFFER_SIZE ->
  copy_out data pos (m + n) = (a ← copy_out data pos m; b ← copy_out data (increment pos (Z.of_nat m)) n; Ret (a ++ b)).
Proof.
  induction m as [|m IH]; intros pos Hp.
  - cbn [copy_out Nat.add mbind outcome_bind]. change (Z.of_nat 0) with 0. rewrite increment_0 by done. by destruct (copy_out data pos n).
  - cbn [copy_out Nat.add]. destruct (at_index data pos) as [x| |]; [|done..]. cbn [mbind outcome_bind]. rewrite IH by apply increment_range.
    replace (increment (increment pos 1) (Z.of_nat m)) with (increment pos (Z.of_nat (S m))) by (rewrite increment_add; f_equal; lia).
    destruct (copy_out data (increment pos 1) m) as [a| |]; [|done..]. cbn [mbind outcome_bind]. by destruct (copy_out data _ n).
Qed.

Lemma copy_in_write src : forall pos data, Z.of_nat (length data) = PG_MSG_BUFFER_SIZE -> 0 <= pos -> pos + Z.of_nat (length src) <= PG_MSG_BUFFER_SIZE ->
  copy_in src pos data = write_at data pos src.
Proof.
  induction src as [|x src IH]; intros pos data Hd Hp Hn; rewrite <- (Z2Nat.id pos) by done; rewrite array_write_at by (cbn [length] in *; lia).
  - cbn [copy_in length]. rewrite Nat.add_0_r. cbn [app]. by rewrite take_drop.
  - cbn [copy_in length] in *. rewrite set_index_in, Z2Nat.id by lia. cbn [mbind outcome_bind]. destruct src as [|y src].
    + cbn [copy_in length app]. rewrite insert_take_drop by lia. by rewrite Nat.add_1_r.
    + rewrite increment_small, IH by (rewrite ?length_insert; cbn [length] in *; lia). replace (pos + 1) with (Z.of_nat (Z.to_nat pos + 1)) by lia.
      rewrite array_write_at by (rewrite length_insert; cbn [length] in *; lia). f_equal. rewrite drop_insert_lt by lia.
      rewrite Nat.add_1_r, (take_S_r _ _ x) by (by rewrite list_lookup_insert_eq by lia).
      rewrite take_insert_ge by lia. rewrite <- app_assoc. cbn [app]. do 4 f_equal. cbn [length]. f_equal. lia.
Qed.

Lemma copy_in_app a b : forall pos data, 0 <= pos < PG_MSG_BUFFER_SIZE ->
  copy_in (a ++ b) pos data = (data ← copy_in a pos data; copy_in b (increment pos (Z.of_nat (length a))) data).
Proof.
  induction a as [|x a IH]; intros pos data Hp.
  - cbn [copy_in app mbind outcome_bind length]. change (Z.of_nat 0) with 0. by rewrite increment_0.
  - cbn [copy_in app]. destruct (set_index data pos x) as [d| |]; [|done..]. cbn [mbind outcome_bind]. rewrite IH by apply increment_range.
    replace (increment (increment pos 1) (Z.of_nat (length a))) with (increment pos (Z.of_nat (length (x :: a)))) by (rewrite increment_add; f_equal; cbn [length]; lia). done.
Qed.

(** What a flush offers to the socket. *)
Lemma segments_ok r c : ring_holds r c -> segments r = Ret c.
Proof.
  intros HR. destruct (ring_size r c HR) as [Hsz Hcur]. destruct (copy_out_ok (length c) r c HR (le_n _)) as [Hout _]. rewrite firstn_all in Hout. rewrite <- Hout.
  pose proof HR as (Hd & Hs & Hc & Hp & _). unfold max_capacity in Hc. unfold segments, Distance.
  destruct (increment_cases (start_pos_ r) (Z.of_nat (length c)) Hs ltac:(lia)) as [[Hle Heq]|[Hle Heq]]; rewrite <- Hp in Heq; destruct (_ <? 0) eqn:E; zbool; try (unfold PG_MSG_BUFFER_SIZE in *; lia).
  - rewrite Hsz, copy_out_read by lia. done.
  - replace (length c) with (Z.to_nat (PG_MSG_BUFFER_SIZE - start_pos_ r) + Z.to_nat (current_pos_ r))%nat by lia. rewrite copy_out_app by done.
    rewrite (copy_out_read _ _ (start_pos_ r)) by lia. rewrite !Z2Nat.id, increment_end by lia. by rewrite (copy_out_read _ _ 0), Z2Nat.id by lia.
Qed.

(** Where a read puts the bytes it receives. *)
Lemma receive_segments_ok r c bytes : ring_holds r c -> Z.of_nat (length c) + Z.of_nat (length bytes) <= max_capacity ->
  exists data, receive_segments r bytes = Ret data /\ ring_holds (mkRing data (start_pos_ r) (increment (current_pos_ r) (Z.of_nat (length bytes)))) (c ++ bytes).
Proof.
  intros HR Hle. destruct (copy_in_ok bytes r c HR Hle) as (data & Hin & HR'). exists data. split; [|done]. rewrite <- Hin. clear HR' Hin data.
  destruct (ring_size r c HR) as [Hsz Hcur]. pose proof HR as (Hd & Hs & Hc & Hp & _). unfold max_capacity in *. unfold receive_segments, Distance, max_capacity. rewrite Hsz.
  destruct (increment_cases (start_pos_ r) (Z.of_nat (length c)) Hs ltac:(lia)) as [[Hle' Heq]|[Hle' Heq]]; rewrite <- Hp in Heq; destruct (_ <? 0) eqn:E; zbool; try (unfold PG_MSG_BUFFER_SIZE in *; lia); cbn [orb].
  - destruct (_ =? 0) eqn:E0; zbool.
    + rewrite (proj2 (Z.ltb_ge _ _)) by lia. by rewrite copy_in_write by lia.
    + rewrite (proj2 (Z.ltb_ge _ _)) by lia. set (n := Z.to_nat (PG_MSG_BUFFER_SIZE - current_pos_ r)).
      replace (copy_in bytes (current_pos_ r) (data_ r)) with (copy_in (take n bytes ++ drop n bytes) (current_pos_ r) (data_ r)) by (by rewrite take_drop). rewrite copy_in_app by done. rewrite copy_in_write by (rewrite ?length_take; lia).
      destruct (write_at (data_ r) (current_pos_ r) (take n bytes)) as [data| |] eqn:Ew; [|done..]. cbn [mbind outcome_bind].
      assert (Z.of_nat (length data) = PG_MSG_BUFFER_SIZE) as Hlen.
      { rewrite <- (Z2Nat.id (current_pos_ r)), array_write_at in Ew by (rewrite ?length_take; lia). injection Ew as <-. rewrite !length_app, length_take, length_drop, length_take. lia. }
      rewrite length_take. destruct (decide (n <= length bytes)%nat) as [Hn|Hn].
      * rewrite Nat.min_l by done. unfold n at 3. rewrite Z2Nat.id, increment_end by lia. by rewrite copy_in_write by (rewrite ?length_drop; lia).
      * rewrite (drop_ge bytes) by lia. cbn [copy_in]. change 0 with (Z.of_nat 0). by rewrite (array_write_at data [] 0) by (cbn; lia).
  - rewrite (proj2 (Z.ltb_ge _ _)) by lia. by rewrite copy_in_write by lia.
Qed.

(** ** The writer *)

Section Writer.
Context (transferred : Z -> Z -> Z).
(** A call of [write] transfers as many bytes as it asks for, and no more than there are. *)
Hypothesis transferred_ok : forall least total, 1 <= least <= total -> least <= transferred least total <= total.

(** The writer has been given the bytes [all]; [c] of them are in its buffer. *)
Definition writer_holds (w : BufferWriter) (all c : list Z) : Prop := ring_holds (ring w) c /\ sent w ++ c = all /\ closed w = false.

Lemma flush_ok w all c bytes : writer_holds w all c -> 0 <= bytes <= Z.of_nat (length c) -> c <> [] ->
  exists w' c', flush transferred w bytes = Ret w' /\ writer_holds w' all c' /\ Z.of_nat (length c') <= Z.of_nat (length c) - bytes /\ (bytes = 0 -> c' = []).
Proof.
  intros (HR & Hall & Hcl) Hb Hc. destruct (ring_size _ _ HR) as [Hsz _]. unfold flush. rewrite Hsz, (proj2 (Z.ltb_ge _ _)), (segments_ok _ _ HR) by lia. cbn [mbind outcome_bind].
  rewrite Hcl. set (least := if bytes =? 0 then Z.of_nat (length c) else bytes).
  assert (1 <= least <= Z.of_nat (length c) /\ bytes <= least /\ (bytes = 0 -> least = Z.of_nat (length c))) as (Hl & Hbl & Hl0).
  { unfold least. destruct c; [done|]. cbn [length] in *. destruct (bytes =? 0) eqn:E; zbool; lia. }
  pose proof (transferred_ok least (Z.of_nat (length c)) Hl) as Ht. set (n := transferred least (Z.of_nat (length c))) in *.
  rewrite (proj2 (Z.eqb_neq n 0)) by lia. eexists _, (drop (Z.to_nat n) c). split; [done|].
  destruct (copy_out_ok (Z.to_nat n) _ _ HR) as [_ HR']; [lia|]. rewrite Z2Nat.id in HR' by lia.
  split; [|split; [rewrite length_drop; lia|intros H0; apply drop_ge; lia]].
  split_and!; [done|cbn [sent]; by rewrite <- app_assoc, take_drop|done].
Qed.

Lemma try_flush_ok w all c bytes : writer_holds w all c -> 1 <= bytes <= max_capacity -> (max_capacity - Z.of_nat (length c) <= bytes -> bytes <= Z.of_nat (length c)) ->
  exists w' c', try_flush transferred w bytes = Ret w' /\ writer_holds w' all c' /\ Z.of_nat (length c') + bytes <= max_capacity.
Proof.
  intros Hw Hb Hn. pose proof Hw as (HR & _). destruct (ring_size _ _ HR) as [Hsz _]. unfold try_flush. rewrite Hsz. pose proof HR as (_ & _ & Hc & _).
  destruct (_ <=? _) eqn:E; zbool.
  - destruct (flush_ok w all c bytes Hw) as (w' & c' & -> & Hw' & Hlen & _); [lia|intros ->; specialize (Hn E); cbn [length] in Hn; lia|]. exists w', c'. split; [done|]. split; [done|]. lia.
  - exists w, c. split; [done|]. split; [done|]. lia.
Qed.

Lemma put_ok w all c src : writer_holds w all c -> Z.of_nat (length c) + Z.of_nat (length src) <= max_capacity ->
  exists w', put w src = Ret w' /\ writer_holds w' (all ++ src) (c ++ src).
Proof.
  intros (HR & Hall & Hcl) Hle. unfold put. destruct (copy_in_ok src _ _ HR Hle) as (data & -> & HR'). cbn [mbind outcome_bind]. eexists. split; [done|].
  split_and!; [done|cbn [sent]; by rewrite app_assoc, Hall|done].
Qed.

Lemma send_bytes_ok w all c bytes : writer_holds w all c -> 1 <= Z.of_nat (length bytes) <= 4 ->
  exists w' c', send_bytes transferred w bytes = Ret w' /\ writer_holds w' (all ++ bytes) c' /\ c' <> [].
Proof.
  intros Hw Hb. unfold send_bytes. destruct (try_flush_ok w all c (Z.of_nat (length bytes)) Hw) as (w1 & c1 & -> & Hw1 & Hlen); [unfold max_capacity, PG_MSG_BUFFER_SIZE; lia..|].
  cbn [mbind outcome_bind]. destruct (put_ok w1 all c1 bytes Hw1 Hlen) as (w2 & -> & Hw2). eexists _, _. split; [done|]. split; [done|]. destruct bytes; [cbn in Hb; lia|]. by destruct c1.
Qed.

Lemma send_rest_ok fuel : forall w all c rest, writer_holds w all c -> (length rest <= fuel)%nat -> (rest <> [] -> Z.of_nat (length c) = max_capacity) ->
  exists w' c', SendRest transferred fuel w rest = Ret w' /\ writer_holds w' (all ++ rest) c' /\ (c <> [] -> c' <> []).
Proof.
  induction fuel as [|fuel IH]; intros w all c rest Hw Hf Hfull; (destruct rest as [|x rest']; [exists w, c; by rewrite app_nil_r|]); [cbn in Hf; lia|].
  set (rest := x :: rest') in *. cbn [SendRest]. fold rest. specialize (Hfull ltac:(done)). assert (1 <= Z.of_nat (length rest)) as H1 by (cbn; lia).
  set (n := Z.min max_capacity (Z.of_nat (length rest))). assert (1 <= n <= max_capacity) as Hn by (unfold n, max_capacity, PG_MSG_BUFFER_SIZE; lia).
  destruct (try_flush_ok w all c n Hw Hn) as (w1 & c1 & -> & Hw1 & Hlen); [lia|]. cbn [mbind outcome_bind].
  destruct (put_ok w1 all c1 (take (Z.to_nat n) rest) Hw1) as (w2 & -> & Hw2); [rewrite length_take; lia|]. cbn [mbind outcome_bind].
  destruct (IH w2 _ _ (drop (Z.to_nat n) rest) Hw2) as (w3 & c3 & -> & Hw3 & Hne).
  - rewrite length_drop. lia.
  - intros Hd. assert (n < Z.of_nat (length rest)) as Hlt. { destruct (decide (n < Z.of_nat (length rest))); [done|]. exfalso. apply Hd, drop_ge. lia. }
    rewrite length_app, length_take. destruct (put_ok w1 all c1 [] Hw1) as (w0 & _ & (HR0 & _)); [cbn; lia|]. destruct HR0 as (_ & _ & Hc0 & _). rewrite length_app in Hc0. cbn in Hc0. unfold n in *. lia.
  - exists w3, c3. split; [done|]. rewrite <- app_assoc, take_drop in Hw3. split; [done|]. intros _. apply Hne. intros Hnil. apply app_nil in Hnil as [_ Hnil].
    apply (f_equal length) in Hnil. rewrite length_take in Hnil. cbn in Hnil. lia.
Qed.

Definition terminated (value : list Z) (null_terminator : bool) : list Z := value ++ (if null_terminator then [NULL_END] else []).

Lemma send_string_ok w all c value nt : writer_holds w all c ->
  exists w' c', send_string transferred w value nt = Ret w' /\ writer_holds w' (all ++ terminated value nt) c' /\ (c <> [] \/ terminated value nt <> [] -> c' <> []).
Proof.
  intros Hw. pose proof Hw as (HR & _). destruct (ring_size _ _ HR) as [Hsz _]. pose proof HR as (_ & _ & Hc & _). unfold send_string, full. rewrite Hsz.
  set (p := if Z.of_nat (length c) =? max_capacity then 0 else Z.min (max_capacity - Z.of_nat (length c)) (Z.of_nat (length value))).
  assert (exists w1 c1, (if Z.of_nat (length c) =? max_capacity then Ret w else put w (take (Z.to_nat p) value)) = Ret w1 /\
    writer_holds w1 (all ++ take (Z.to_nat p) value) c1 /\ (drop (Z.to_nat p) value <> [] -> Z.of_nat (length c1) = max_capacity) /\
    (c <> [] \/ value <> [] -> c1 <> [])) as (w1 & c1 & -> & Hw1 & Hfull & Hne1).
  { unfold p. destruct (_ =? _) eqn:E; zbool.
    - exists w, c. split; [done|]. cbn [take]. rewrite app_nil_r. split; [done|]. split; [done|]. intros _ ->. cbn in E. unfold max_capacity, PG_MSG_BUFFER_SIZE in E. lia.
    - set (q := Z.min (max_capacity - Z.of_nat (length c)) (Z.of_nat (length value))).
      destruct (put_ok w all c (take (Z.to_nat q) value) Hw) as (w1 & -> & Hw1); [rewrite length_take; lia|]. eexists _, _. split; [done|]. split; [done|]. split.
      + intros Hd. rewrite length_app, length_take. assert (q < Z.of_nat (length value)) as Hq; [|lia]. destruct (decide (q < Z.of_nat (length value))); [done|]. exfalso. apply Hd, drop_ge. lia.
      + intros Hor Hnil. apply app_nil in Hnil as [-> Hnil]. destruct Hor as [|Hv]; [done|]. apply (f_equal length) in Hnil. rewrite length_take in Hnil. cbn [length] in *. destruct value; [done|]. cbn [length] in *. unfold max_capacity, PG_MSG_BUFFER_SIZE in *. lia. }
  cbn [mbind outcome_bind]. destruct (send_rest_ok (length value) w1 _ c1 (drop (Z.to_nat p) value) Hw1) as (w2 & c2 & -> & Hw2 & Hne2); [rewrite length_drop; lia|done|].
  cbn [mbind outcome_bind]. rewrite <- app_assoc, take_drop in Hw2. unfold terminated in *. destruct nt.
  - destruct (send_bytes_ok w2 _ c2 [NULL_END] Hw2) as (w3 & c3 & -> & Hw3 & Hc3); [cbn; lia|]. exists w3, c3. by rewrite app_assoc.
  - rewrite app_nil_r. exists w2, c2. split; [done|]. split; [done|]. intros Hne. by apply Hne2, Hne1.
Qed.
End Writer.

(** ** The reader *)

Section Reader.
Context (received : list Z -> Z -> Z -> Z).
(** A call of [read] transfers as many bytes as it asks for when so many arrive, and no
    more than arrive or the buffer has room for. *)
Hypothesis received_ok : forall arriving least room, 1 <= least <= room -> least <= Z.of_nat (length arriving) ->
  least <= received arriving least room <= Z.min room (Z.of_nat (length arriving)).

(** The bytes [all] are still to be read, [c] of them from the buffer. *)
Definition reader_holds (rd : BufferReader) (all c : list Z) : Prop := ring_holds (input rd) c /\ c ++ incoming rd = all.

Lemma receive_more_ok rd all c bytes : reader_holds rd all c -> 1 <= bytes <= max_capacity -> bytes <= Z.of_nat (length all) ->
  exists rd' c', receive_more received rd bytes = Ret rd' /\ reader_holds rd' all c' /\ bytes <= Z.of_nat (length c').
Proof.
  intros [HR Hall] Hb Hle. destruct (ring_size _ _ HR) as [Hsz _]. pose proof HR as (_ & _ & Hc & _). unfold receive_more. rewrite Hsz.
  destruct (_ <=? _) eqn:E; zbool; [by exists rd, c|]. rewrite <- Hall, length_app in Hle. rewrite (proj2 (Z.ltb_ge _ _)) by lia.
  pose proof (received_ok (incoming rd) (bytes - Z.of_nat (length c)) (max_capacity - Z.of_nat (length c)) ltac:(lia) ltac:(lia)) as Hr.
  set (n := received _ _ _) in *. rewrite (proj2 (Z.eqb_neq n 0)) by lia.
  destruct (receive_segments_ok _ _ (take (Z.to_nat n) (incoming rd)) HR) as (data & -> & HR'); [rewrite length_take; lia|]. cbn [mbind outcome_bind].
  eexists _, (c ++ take (Z.to_nat n) (incoming rd)). split; [done|]. split; [split; cbn [input incoming]|].
  - rewrite length_take, Nat.min_l, Z2Nat.id in HR' by lia. done.
  - by rewrite <- app_assoc, take_drop.
  - rewrite length_app, length_take. lia.
Qed.

Lemma receive_more_eof rd all c bytes : reader_holds rd all c -> Z.of_nat (length all) < bytes -> exists e msg, receive_more received rd bytes = Throw e msg.
Proof.
  intros [HR Hall] Hle. destruct (ring_size _ _ HR) as [Hsz _]. unfold receive_more. rewrite Hsz. rewrite <- Hall, length_app in Hle.
  rewrite (proj2 (Z.leb_gt _ _)), (proj2 (Z.ltb_lt _ _)) by lia. destruct (_ =? _)%nat; by eexists _, _.
Qed.

Lemma get_ok rd all c n : reader_holds rd all c -> 0 <= n <= Z.of_nat (length c) ->
  exists rd', get rd n = Ret (take (Z.to_nat n) c, rd') /\ reader_holds rd' (drop (Z.to_nat n) all) (drop (Z.to_nat n) c).
Proof.
  intros [HR Hall] Hn. unfold get. destruct (copy_out_ok (Z.to_nat n) _ _ HR) as [-> HR']; [lia|]. cbn [mbind outcome_bind]. eexists. split; [done|].
  split; [by rewrite Z2Nat.id in HR' by lia|]. cbn [incoming]. rewrite <- Hall, drop_app_le by lia. done.
Qed.

Lemma read_value_bytes_ok rd bs rest c : reader_holds rd (bs ++ rest) c -> 1 <= Z.of_nat (length bs) <= max_capacity ->
  exists rd' c', read_value_bytes received rd (Z.of_nat (length bs)) = Ret (bs, rd') /\ reader_holds rd' rest c'.
Proof.
  intros Hrd Hb. unfold read_value_bytes. destruct (receive_more_ok rd _ c _ Hrd Hb) as (rd1 & c1 & -> & Hrd1 & Hlen); [rewrite length_app; lia|]. cbn [mbind outcome_bind].
  destruct (get_ok rd1 _ c1 (Z.of_nat (length bs)) Hrd1) as (rd2 & -> & Hrd2); [lia|]. rewrite Nat2Z.id in *. rewrite drop_app_length in Hrd2.
  exists rd2, (drop (length bs) c1). split; [|done]. destruct Hrd1 as [_ Hall]. do 2 f_equal. apply (f_equal (take (length bs))) in Hall. by rewrite take_app_le, take_app_length in Hall by lia.
Qed.

Lemma read_rest_ok fuel : forall rd s rest c result, reader_holds rd (s ++ rest) c -> (length s <= fuel)%nat ->
  exists rd' c', ReadRest received fuel rd (Z.of_nat (length s)) result = Ret (result ++ s, rd') /\ reader_holds rd' rest c'.
Proof.
  induction fuel as [|fuel IH]; intros rd s rest c result Hrd Hf; cbn [ReadRest]; destruct (_ <=? 0) eqn:E; zbool.
  1,3: assert (s = []) as -> by (apply nil_length_inv; lia); rewrite app_nil_r; by exists rd, c.
  1: lia.
  set (n := Z.min (Z.of_nat (length s)) max_capacity). assert (1 <= n <= max_capacity /\ n <= Z.of_nat (length s)) as [Hn Hns] by (unfold n, max_capacity, PG_MSG_BUFFER_SIZE; lia).
  assert (Z.of_nat (length (take (Z.to_nat n) s)) = n) as Hlen by (rewrite length_take; lia).
  rewrite <- (take_drop (Z.to_nat n) s), <- app_assoc in Hrd. pose proof (read_value_bytes_ok rd (take (Z.to_nat n) s) _ c Hrd) as H. rewrite Hlen in H.
  destruct (H Hn) as (rd1 & c1 & Hread & Hrd1). unfold read_value_bytes in Hread. destruct (receive_more received rd n) as [rd0| |]; [|done..]. cbn [mbind outcome_bind] in *. rewrite Hread.
  cbn [mbind outcome_bind]. replace (Z.of_nat (length s) - n) with (Z.of_nat (length (drop (Z.to_nat n) s))) by (rewrite length_drop; lia).
  destruct (IH rd1 (drop (Z.to_nat n) s) rest c1 (result ++ take (Z.to_nat n) s) Hrd1) as (rd2 & c2 & -> & Hrd2); [rewrite length_drop; lia|].
  exists rd2, c2. split; [|done]. by rewrite <- app_assoc, take_drop.
Qed.

Lemma read_string_n_ok rd s rest c (nt : bool) : reader_holds rd (terminated s nt ++ rest) c ->
  exists rd' c', read_string_n received rd (Z.of_nat (length (terminated s nt))) nt = Ret (s, rd') /\ reader_holds rd' rest c'.
Proof.
  intros Hrd. set (t := terminated s nt) in *. pose proof Hrd as [HR Hall]. destruct (ring_size _ _ HR) as [Hsz _]. unfold read_string_n. rewrite Hsz.
  set (n := Z.min (Z.of_nat (length t)) (Z.of_nat (length c))).
  assert (exists rd1 c1, (if Z.of_nat (length c) =? 0 then Ret ([], rd) else get rd n) = Ret (take (Z.to_nat n) t, rd1) /\ reader_holds rd1 (drop (Z.to_nat n) t ++ rest) c1) as (rd1 & c1 & -> & Hrd1).
  { destruct (_ =? 0) eqn:E; zbool.
    - exists rd, c. unfold n. rewrite E, Z.min_r by lia. done.
    - destruct (get_ok rd _ c n Hrd) as (rd1 & -> & Hrd1); [unfold n; lia|]. eexists rd1, _. rewrite drop_app_le in Hrd1 by (unfold n; lia). split; [|done].
      do 2 f_equal. apply (f_equal (take (Z.to_nat n))) in Hall. by rewrite !take_app_le in Hall by (unfold n; lia). }
  cbn [mbind outcome_bind]. replace (Z.of_nat (length t) - Z.of_nat (length (take (Z.to_nat n) t))) with (Z.of_nat (length (drop (Z.to_nat n) t))) by (rewrite length_take, length_drop; unfold n; lia).
  destruct (read_rest_ok (Z.to_nat (Z.of_nat (length t))) rd1 (drop (Z.to_nat n) t) rest c1 (take (Z.to_nat n) t) Hrd1) as (rd2 & c2 & -> & Hrd2); [rewrite length_drop; lia|].
  cbn [mbind outcome_bind]. rewrite take_drop. exists rd2, c2. split; [|done]. unfold t, terminated. destruct nt; [|by rewrite app_nil_r].
  rewrite last_snoc. cbn [NULL_END Z.eqb negb]. rewrite length_app. cbn [length]. rewrite Nat.add_sub, take_app_length. done.
Qed.
End Reader.

(** ** Values *)

Lemma network_bytes_length n z : length (network_bytes n z) = n.
Proof. unfold network_bytes. by rewrite length_rev, le_bytes_length. Qed.

Lemma host_network n z : host_value (network_bytes n z) = u_wrap (8 * Z.of_nat n) z.
Proof. unfold host_value, network_bytes. rewrite rev_involutive. apply le_value_bytes. Qed.

(** What is sent and read: integers of the protocol, and strings of a known length. *)
Inductive Item :=
  | U8 (z : Z) | I8 (z : Z) | U16 (z : Z) | I16 (z : Z) | U32 (z : Z) | I32 (z : Z)
  | Text (s : list Z) (null_terminator : bool).

Definition item_ok (i : Item) : Prop :=
  match i with
  | U8 z => u_range 8 z | I8 z => s_range 8 z | U16 z => u_range 16 z | I16 z => s_range 16 z | U32 z => u_range 32 z | I32 z => s_range 32 z
  | Text s _ => Z.of_nat (length s) < 2 ^ 32
  end.

Definition item_bytes (i : Item) : list Z :=
  match i with
  | U8 z | I8 z => network_bytes 1 z
  | U16 z | I16 z => network_bytes 2 z
  | U32 z | I32 z => network_bytes 4 z
  | Text s nt => terminated s nt
  end.

Definition send_item transferred (w : BufferWriter) (i : Item) : outcome BufferWriter :=
  match i with
  | U8 z => send_value_u8 transferred w z
  | I8 z => send_value_i8 transferred w z
  | U16 z => send_value_u16 transferred w z
  | I16 z => send_value_i16 transferred w z
  | U32 z => send_value_u32 transferred w z
  | I32 z => send_value_i32 transferred w z
  | Text s nt => send_string transferred w s nt
  end.

(** The item that is read where [i] is expected. *)
Definition read_item received (rd : BufferReader) (i : Item) : outcome (Item * BufferReader) :=
  match i with
  | U8 _ => '(z, rd) ← read_value_u8 received rd; Ret (U8 z, rd)
  | I8 _ => '(z, rd) ← read_value_i8 received rd; Ret (I8 z, rd)
  | U16 _ => '(z, rd) ← read_value_u16 received rd; Ret (U16 z, rd)
  | I16 _ => '(z, rd) ← read_value_i16 received rd; Ret (I16 z, rd)
  | U32 _ => '(z, rd) ← read_value_u32 received rd; Ret (U32 z, rd)
  | I32 _ => '(z, rd) ← read_value_i32 received rd; Ret (I32 z, rd)
  | Text s nt => '(s, rd) ← read_string_n received rd (Z.of_nat (length (terminated s nt))) nt; Ret (Text s nt, rd)
  end.

Fixpoint send_items transferred (w : BufferWriter) (items : list Item) : outcome BufferWriter :=
  match items with
  | [] => Ret w
  | i :: items => w ← send_item transferred w i; send_items transferred w items
  end.

Fixpoint read_items received (rd : BufferReader) (items : list Item) : outcome (list Item * BufferReader) :=
  match items with
  | [] => Ret ([], rd)
  | i :: items => '(i, rd) ← read_item received rd i; '(items, rd) ← read_items received rd items; Ret (i :: items, rd)
  end.

Section Connection.
Context (transferred : Z -> Z -> Z) (received : list Z -> Z -> Z -> Z).
Hypothesis transferred_ok : forall least total, 1 <= least <= total -> least <= transferred least total <= total.
Hypothesis received_ok : forall arriving least room, 1 <= least <= room -> least <= Z.of_nat (length arriving) ->
  least <= received arriving least room <= Z.min room (Z.of_nat (length arriving)).

Lemma send_item_ok w all c i : writer_holds w all c ->
  exists w' c', send_item transferred w i = Ret w' /\ writer_holds w' (all ++ item_bytes i) c' /\ (c <> [] \/ item_bytes i <> [] -> c' <> []).
Proof.
  intros Hw. destruct i as [z|z|z|z|z|z|s nt]; cbn [send_item item_bytes] in *.
  7: by apply (send_string_ok transferred transferred_ok w all c).
  all: unfold send_value_u8, send_value_i8, send_value_u16, send_value_i16, send_value_u32, send_value_i32;
    match goal with |- context [network_bytes ?n ?x] => destruct (send_bytes_ok transferred transferred_ok w all c (network_bytes n x) Hw) as (w' & c' & -> & Hw' & Hc') end;
    [rewrite network_bytes_length; lia|]; by exists w', c'.
Qed.

Lemma send_items_ok items : forall w all c, writer_holds w all c ->
  exists w' c', send_items transferred w items = Ret w' /\ writer_holds w' (all ++ concat (item_bytes <$> items)) c' /\ (c <> [] \/ concat (item_bytes <$> items) <> [] -> c' <> []).
Proof.
  induction items as [|i items IH]; intros w all c Hw; cbn [send_items].
  - exists w, c. cbn. rewrite app_nil_r. split; [done|]. split; [done|]. by intros [|].
  - destruct (send_item_ok w all c i Hw) as (w1 & c1 & -> & Hw1 & Hc1). cbn [mbind outcome_bind].
    destruct (IH w1 _ c1 Hw1) as (w2 & c2 & -> & Hw2 & Hc2). exists w2, c2. cbn [fmap list_fmap concat]. rewrite app_assoc. split; [done|]. split; [done|].
    intros Hne. apply Hc2. destruct (decide (c1 = [])) as [->|]; [right|by left]. intros Hnil. destruct Hne as [Hc|Hne]; [by destruct (Hc1 (or_introl Hc))|].
    rewrite Hnil, app_nil_r in Hne. by destruct (Hc1 (or_intror Hne)).
Qed.

Lemma signed_back w z : 1 <= w -> s_range w z -> s_wrap w (u_wrap w z) = z.
Proof. intros Hw Hz. rewrite s_wrap_u_wrap by done. by apply s_wrap_id. Qed.

Lemma read_item_ok rd i rest c : item_ok i -> reader_holds rd (item_bytes i ++ rest) c ->
  exists rd' c', read_item received rd i = Ret (i, rd') /\ reader_holds rd' rest c'.
Proof.
  intros Hi Hrd. destruct i as [z|z|z|z|z|z|s nt]; cbn [read_item item_bytes item_ok] in *.
  7: { destruct (read_string_n_ok received received_ok rd s rest c nt Hrd) as (rd' & c' & -> & Hrd'). by exists rd', c'. }
  all: unfold read_value_u8, read_value_i8, read_value_u16, read_value_i16, read_value_u32, read_value_i32;
    pose proof (read_value_bytes_ok received received_ok rd _ rest c Hrd) as H; rewrite network_bytes_length in H;
    (destruct H as (rd' & c' & H & Hrd'); [unfold max_capacity, PG_MSG_BUFFER_SIZE; lia|]);
    try change (Z.of_nat 1) with 1 in H; try change (Z.of_nat 2) with 2 in H; try change (Z.of_nat 4) with 4 in H;
    rewrite H; cbn [mbind outcome_bind]; rewrite host_network; exists rd', c'; (split; [|done]); do 2 f_equal; f_equal.
  1,3,5: by apply u_wrap_id.
  - by apply (signed_back 8).
  - by apply (signed_back 16).
  - by apply (signed_back 32).
Qed.

Lemma read_items_ok items : forall rd rest c, Forall item_ok items -> reader_holds rd (concat (item_bytes <$> items) ++ rest) c ->
  exists rd' c', read_items received rd items = Ret (items, rd') /\ reader_holds rd' rest c'.
Proof.
  induction items as [|i items IH]; intros rd rest c Hok Hrd; cbn [read_items]; [by exists rd, c|].
  apply Forall_cons in Hok as [Hi Hok]. cbn [fmap list_fmap concat] in Hrd. rewrite <- app_assoc in Hrd.
  destruct (read_item_ok rd i _ c Hi Hrd) as (rd1 & c1 & -> & Hrd1). cbn [mbind outcome_bind].
  destruct (IH rd1 rest c1 Hok Hrd1) as (rd2 & c2 & -> & Hrd2). by exists rd2, c2.
Qed.

Lemma new_ring_holds : ring_holds new_ring [].
Proof. split_and!; try done. Qed.

(** C17: Integers and strings of any length that are sent through the buffer of a
    connection and flushed arrive complete and in order, and are read back through the
    buffer of the other side with what follows them left to read, whatever number of
    bytes the socket transfers at a time. *)
Theorem connection_roundtrip items rest : Forall item_ok items -> concat (item_bytes <$> items) <> [] ->
  exists w w' rd c, send_items transferred (mkBufferWriter new_ring [] false) items = Ret w /\ flush transferred w 0 = Ret w' /\
    sent w' = concat (item_bytes <$> items) /\
    read_items received (mkBufferReader new_ring (sent w' ++ rest)) items = Ret (items, rd) /\ reader_holds rd rest c.
Proof.
  intros Hok Hne. assert (writer_holds (mkBufferWriter new_ring [] false) [] []) as Hw by (split; [apply new_ring_holds|done]).
  destruct (send_items_ok items _ _ _ Hw) as (w & c & Hsend & Hw1 & Hc). specialize (Hc (or_intror Hne)).
  destruct (flush_ok transferred transferred_ok w _ c 0 Hw1) as (w' & c' & Hflush & (_ & Hall & _) & _ & Hnil); [lia|done|]. rewrite (Hnil eq_refl), app_nil_r in Hall. cbn in Hall.
  destruct (read_items_ok items (mkBufferReader new_ring (sent w' ++ rest)) rest [] Hok) as (rd & c1 & Hread & Hrd); [split; [apply new_ring_holds|by rewrite Hall]|].
  by exists w, w', rd, c1.
Qed.
End Connection.

(** A socket that transfers what is asked for. *)
Lemma connection_roundtrip_witness : exists w w' rd c,
  send_items (fun least _ => least) (mkBufferWriter new_ring [] false) [U8 81; U32 8; Text [115; 101; 108] true] = Ret w /\ flush (fun least _ => least) w 0 = Ret w' /\
  sent w' = [81; 0; 0; 0; 8; 115; 101; 108; 0] /\
  read_items (fun _ least _ => least) (mkBufferReader new_ring (sent w' ++ [1])) [U8 81; U32 8; Text [115; 101; 108] true] = Ret ([U8 81; U32 8; Text [115; 101; 108] true], rd) /\
  reader_holds rd [1] c.
Proof.
  apply (connection_roundtrip (fun least _ => least) (fun _ least _ => least)); [intros; lia|intros; lia| |done].
  repeat constructor; done.
Defined.

(** [read_string] without a length: with bytes after the terminator in the buffer it
    returns them, too, and with an empty buffer nothing at all. *)
Lemma read_string_misreads :
  (exists rd rd' rd'', receive_more (fun _ _ room => Z.min room 6) (mkBufferReader new_ring [97; 0; 98; 99; 0; 100]) 1 = Ret rd /\
     read_string (fun _ least _ => least) 10 rd = Ret ([97; 0; 98; 99; 0; 100], rd') /\ size (input rd') = max_capacity /\
     read_string (fun _ least _ => least) 10 (mkBufferReader new_ring [97; 98; 0]) = Ret ([], rd'') /\ size (input rd'') = max_capacity).
Proof. eexists _, _, _. split; [vm_compute; reflexivity|]. split; [vm_compute; reflexivity|]. split; [vm_compute; reflexivity|]. split; vm_compute; reflexivity. Qed.

(** A flush of an empty buffer is taken for a closed connection. *)
Lemma flush_empty_throws transferred : (forall least total, 0 <= least <= total -> transferred least total <= total /\ 0 <= transferred least total) ->
  flush transferred (mkBufferWriter new_ring [] false) 0 = Throw NetworkException "Write failed. Client close connection.".
Proof.
  intros Ht. unfold flush. cbn [ring closed sent]. rewrite (segments_ok new_ring []) by apply new_ring_holds. cbn [mbind outcome_bind closed length]. change (Z.of_nat 0) with 0. change (size new_ring) with 0. cbn [Z.ltb Z.eqb Z.compare].
  specialize (Ht 0 0 ltac:(lia)). by replace (transferred 0 0) with 0 by lia.
Qed.
