(* ===== verification/Protocol.v ===== *)
(** * Connections of the PostgreSQL protocol

    [network/pg_protocol_handler.cpp] and [network/connection.cpp]: the messages that
    the server reads and sends, the start of a connection, and the loop over the
    requests of the client.

    The execution of a query ([QueryContext::Query]) is a parameter with a state of its
    own.  Of its result the code below reads the columns, the texts of the values
    ([ColumnVector::ToString]), the number of rows and the message. *)
From S2P Require Import Prelude Defs Arrays Wire Date RingBuffer.

Local Open Scope Z_scope.

(** ** Computations on a connection

    A computation returns, or raises an exception in a state that the code goes on
    with.  When the exception is one of a buffer, the state is not followed further. *)

Inductive result (S A : Type) :=
  | Done (a : A) (s : S)
  | Raised (e : exn) (msg : string) (s : S)
  | Broken (e : exn) (msg : string)
  | Undefined (why : string).
Arguments Done {S A} a s.
Arguments Raised {S A} e msg s.
Arguments Broken {S A} e msg.
Arguments Undefined {S A} why.

Definition M (S A : Type) : Type := S -> result S A.

#[export] Instance M_ret S : MRet (M S) := fun A a s => Done a s.
#[export] Instance M_bind S : MBind (M S) := fun A B k m s =>
  match m s with
  | Done a s => k a s
  | Raised e msg s => Raised e msg s
  | Broken e msg => Broken e msg
  | Undefined why => Undefined why
  end.

Definition raise {S A} (e : exn) (msg : string) : M S A := fun s => Raised e msg s.

(** Code that does not use the connection. *)
Definition calling {S A} (o : outcome A) : M S A := fun s =>
  match o with
  | Ret a => Done a s
  | Throw e msg => Raised e msg s
  | UB why => Undefined why
  end.

Fixpoint for_each {S A} (f : A -> M S ()) (l : list A) : M S () :=
  match l with
  | [] => mret ()
  | x :: l => f x ≫= fun _ => for_each f l
  end.

(** ** Types of messages *)

Module PGMessageType.
Definition kAuthentication : Z := 82.
Definition kError : Z := 69.
Definition kParameterStatus : Z := 83.
Definition kReadyForQuery : Z := 90.
Definition kRowDescription : Z := 84.
Definition kData : Z := 68.
Definition kComplete : Z := 67.
Definition kHumanReadableError : Z := 77.
Definition kSSLNo : Z := 78.
Definition kExecuteCommand : Z := 69.
Definition kSyncCommand : Z := 83.
Definition kTerminateCommand : Z := 88.
Definition kDescribeCommand : Z := 68.
Definition kBindCommand : Z := 66.
Definition kParseCommand : Z := 80.
Definition kSimpleQueryCommand : Z := 81.
End PGMessageType.

(** [TransactionStateType::kIDLE] *)
Definition kIDLE : Z := 73.

Definition LENGTH_FIELD_SIZE : Z := 4.
Definition SSL_MESSAGE_VERSION : Z := 80877103.

Notation bytes := (list Z).

Definition length_of (s : bytes) : Z := Z.of_nat (length s).

(** ** The handler of the protocol *)

Record PGProtocolHandler := mkPGProtocolHandler {
  buffer_reader_ : BufferReader;
  buffer_writer_ : BufferWriter
}.

Section Handler.
Context (transferred : Z -> Z -> Z) (received : list Z -> Z -> Z -> Z).

Definition writing (f : BufferWriter -> outcome BufferWriter) : M PGProtocolHandler () := fun h =>
  match f (buffer_writer_ h) with
  | Ret w => Done () (mkPGProtocolHandler (buffer_reader_ h) w)
  | Throw e msg => Broken e msg
  | UB why => Undefined why
  end.

Definition reading {A} (f : BufferReader -> outcome (A * BufferReader)) : M PGProtocolHandler A := fun h =>
  match f (buffer_reader_ h) with
  | Ret (a, rd) => Done a (mkPGProtocolHandler rd (buffer_writer_ h))
  | Throw e msg => Broken e msg
  | UB why => Undefined why
  end.

Definition send_u8 (z : Z) := writing (fun w => send_value_u8 transferred w z).
Definition send_i8 (z : Z) := writing (fun w => send_value_i8 transferred w z).
Definition send_u16 (z : Z) := writing (fun w => send_value_u16 transferred w z).
Definition send_i16 (z : Z) := writing (fun w => send_value_i16 transferred w z).
Definition send_u32 (z : Z) := writing (fun w => send_value_u32 transferred w z).
Definition send_i32 (z : Z) := writing (fun w => send_value_i32 transferred w z).
Definition send_text (s : bytes) (null_terminator : bool) := writing (fun w => send_string transferred w s null_terminator).
Definition flush_all := writing (fun w => flush transferred w 0).

(** [fuel] is the number of messages that are read. *)
Fixpoint read_startup_header (fuel : nat) : M PGProtocolHandler Z :=
  match fuel with
  | O => fun _ => Undefined "not enough fuel"
  | S fuel =>
      length ← reading (read_value_u32 received);
      version ← reading (read_value_u32 received);
      if version =? SSL_MESSAGE_VERSION then
        send_u8 PGMessageType.kSSLNo ≫= fun _ =>
        flush_all ≫= fun _ =>
        read_startup_header fuel
      else mret (to_u32 (length - 2 * LENGTH_FIELD_SIZE))
  end.

Definition read_startup_body (body_size : Z) : M PGProtocolHandler () :=
  _ ← reading (fun rd => read_string_n received rd body_size false); mret ().

Definition send_authentication : M PGProtocolHandler () :=
  send_u8 PGMessageType.kAuthentication ≫= fun _ =>
  send_u32 (LENGTH_FIELD_SIZE + 4) ≫= fun _ =>
  send_u32 0.

Definition send_parameter (key value : bytes) : M PGProtocolHandler () :=
  send_u8 PGMessageType.kParameterStatus ≫= fun _ =>
  send_u32 (to_u32 (LENGTH_FIELD_SIZE + length_of key + length_of value + 2)) ≫= fun _ =>
  send_text key true ≫= fun _ =>
  send_text value true.

Definition send_ready_for_query : M PGProtocolHandler () :=
  send_i8 PGMessageType.kReadyForQuery ≫= fun _ =>
  send_u32 (LENGTH_FIELD_SIZE + 1) ≫= fun _ =>
  send_i8 kIDLE ≫= fun _ =>
  flush_all.

(** The value of the enumeration is a byte. *)
Definition read_command_type : M PGProtocolHandler Z :=
  c ← reading (read_value_i8 received); mret (to_u8 c).

Definition read_command_body : M PGProtocolHandler bytes :=
  length ← reading (read_value_u32 received);
  reading (fun rd => read_string_n received rd (to_u32 (length - LENGTH_FIELD_SIZE)) true).

(** [error_response_map] in the order of its iteration. *)
Definition error_message_size (error_response_map : list (Z * bytes)) : Z :=
  to_u32 (fold_left (fun message_size error => to_u32 (message_size + (length_of error.2 + 1 + 1))) error_response_map 0 + (LENGTH_FIELD_SIZE + 1)).

Definition send_error_response (error_response_map : list (Z * bytes)) : M PGProtocolHandler () :=
  send_u8 PGMessageType.kError ≫= fun _ =>
  send_u32 (error_message_size error_response_map) ≫= fun _ =>
  for_each (fun error => send_u8 error.1 ≫= fun _ => send_text error.2 true) error_response_map ≫= fun _ =>
  send_u8 NULL_END ≫= fun _ =>
  flush_all.

Definition SendDescriptionHeader (total_column_name_length column_count : Z) : M PGProtocolHandler () :=
  send_u8 PGMessageType.kRowDescription ≫= fun _ =>
  send_u32 (to_u32 (LENGTH_FIELD_SIZE + 2 + column_count * (1 + 3 * 4 + 3 * 2) + total_column_name_length)) ≫= fun _ =>
  send_u16 (to_u16 column_count).

Definition SendDescription (column_name : bytes) (object_id width : Z) : M PGProtocolHandler () :=
  send_text column_name true ≫= fun _ =>
  send_u32 0 ≫= fun _ =>
  send_u16 0 ≫= fun _ =>
  send_u32 object_id ≫= fun _ =>
  send_u16 width ≫= fun _ =>
  send_i32 (-1) ≫= fun _ =>
  send_i16 0.

Definition SendValue (value_string : option bytes) : M PGProtocolHandler () :=
  match value_string with
  | Some value_ref => send_u32 (to_u32 (length_of value_ref)) ≫= fun _ => send_text value_ref false
  | None => send_i32 (-1)
  end.

Definition SendData (values_as_strings : list (option bytes)) (string_length_sum : Z) : M PGProtocolHandler () :=
  let message_size := to_u32 (LENGTH_FIELD_SIZE + 2 + Z.of_nat (length values_as_strings) * LENGTH_FIELD_SIZE + string_length_sum) in
  let column_count := to_u16 (Z.of_nat (length values_as_strings)) in
  send_u8 PGMessageType.kData ≫= fun _ =>
  send_u32 message_size ≫= fun _ =>
  send_u16 column_count ≫= fun _ =>
  for_each SendValue (take (Z.to_nat column_count) values_as_strings).

Definition SendComplete (complete_message : bytes) : M PGProtocolHandler () :=
  let message_size := to_u32 (LENGTH_FIELD_SIZE + length_of complete_message + 1) in
  send_u8 PGMessageType.kComplete ≫= fun _ =>
  send_u32 message_size ≫= fun _ =>
  send_text complete_message true.
End Handler.

(** ** Results of queries *)

Module LogicalNodeType.
Inductive t :=
  | kInvalid | kAggregate | kExcept | kUnion | kIntersect | kJoin | kCrossProduct | kLimit | kFilter | kProjection | kSort
  | kDelete | kUpdate | kInsert | kImport | kExport
  | kAlter | kCreateTable | kCreateIndex | kCreateCollection | kCreateSchema | kCreateView
  | kDropTable | kDropIndex | kDropCollection | kDropSchema | kDropView
  | kFusion | kMatch | kTableScan | kViewScan | kDummyScan | kKnnScan
  | kShow | kExplain | kCommand | kPrepare | kFlush | kOptimize.
End LogicalNodeType.

(** The columns, the rows of the blocks as the texts of their values, the number of
    rows and the message of a table. *)
Record DataTable := mkDataTable {
  columns : list (bytes * DataType);
  data_blocks_ : list (list (list bytes));
  row_count_ : Z;
  result_msg_ : option bytes
}.

(** [message] is that of the status. *)
Record QueryResult := mkQueryResult {
  status_message : option bytes;
  result_table_ : option DataTable;
  root_operator_type_ : LogicalNodeType.t
}.

(** A [String] made of a pointer to characters ends at the first zero. *)
Fixpoint c_str (s : bytes) : bytes :=
  match s with
  | [] => []
  | c :: s => if c =? 0 then [] else c :: c_str s
  end.

(** The first word of the message of an exception.  [ParserException] and those of the
    standard library are no [Exception]. *)
Definition error_class (e : exn) : option string :=
  match e with
  | StorageException => Some "Storage Error:"
  | TransactionException => Some "Transaction Error:"
  | ExecutorException => Some "Executor Error:"
  | CatalogException => Some "Catalog Error:"
  | NotImplementException => Some "NotImplement Error:"
  | TypeException => Some "Type Error:"
  | PlannerException => Some "Planner Error:"
  | NetworkException => Some "Network Error:"
  | ClientException => Some "Client Error:"
  | FunctionException => Some "Function Error:"
  | ParserException | StdException => None
  end%string.

(** ** Connections *)

Section Connection.
Context (transferred : Z -> Z -> Z) (received : list Z -> Z -> Z -> Z).
Context {Engine : Type} (Query : Engine -> bytes -> Engine * outcome QueryResult).
(** The place in the source that [Error] adds to a message. *)
Context (location : exn -> string -> bytes).

Record Connection := mkConnection {
  pg_handler_ : PGProtocolHandler;
  terminate_connection_ : bool;
  engine : Engine
}.

Definition handling {A} (m : M PGProtocolHandler A) : M Connection A := fun c =>
  match m (pg_handler_ c) with
  | Done a h => Done a (mkConnection h (terminate_connection_ c) (engine c))
  | Raised e msg h => Raised e msg (mkConnection h (terminate_connection_ c) (engine c))
  | Broken e msg => Broken e msg
  | Undefined why => Undefined why
  end.

Definition HandleConnection (fuel : nat) : M Connection () :=
  body_length ← handling (read_startup_header transferred received fuel);
  handling (read_startup_body received body_length) ≫= fun _ =>
  handling (send_authentication transferred) ≫= fun _ =>
  handling (send_parameter transferred (bytes_of_string "server_version") (bytes_of_string "14")) ≫= fun _ =>
  handling (send_parameter transferred (bytes_of_string "server_encoding") (bytes_of_string "UTF8")) ≫= fun _ =>
  handling (send_parameter transferred (bytes_of_string "client_encoding") (bytes_of_string "UTF8")) ≫= fun _ =>
  handling (send_parameter transferred (bytes_of_string "DateStyle") (bytes_of_string "IOS, DMY")) ≫= fun _ =>
  handling (send_ready_for_query transferred).

(** The object id and the width of the elements of an embedding. *)
Definition EmbeddingObject (t : EmbeddingDataType.t) : outcome (Z * Z) :=
  match t with
  | EmbeddingDataType.kElemBit => Ret (1000, 1)
  | EmbeddingDataType.kElemInt8 => Ret (1002, 1)
  | EmbeddingDataType.kElemInt16 => Ret (1005, 2)
  | EmbeddingDataType.kElemInt32 => Ret (1007, 4)
  | EmbeddingDataType.kElemInt64 => Ret (1016, 8)
  | EmbeddingDataType.kElemFloat => Ret (1021, 4)
  | EmbeddingDataType.kElemDouble => Ret (1022, 8)
  | EmbeddingDataType.kElemInvalid => Throw TypeException "Invalid embedding data type"
  end.

(** The object id and the width of a column. *)
Definition ColumnObject (column_type : DataType) : outcome (Z * Z) :=
  match type_ column_type with
  | LogicalType.kBoolean => Ret (16, 1)
  | LogicalType.kTinyInt => Ret (18, 1)
  | LogicalType.kSmallInt => Ret (21, 2)
  | LogicalType.kInteger => Ret (23, 4)
  | LogicalType.kBigInt => Ret (20, 8)
  | LogicalType.kFloat => Ret (700, 4)
  | LogicalType.kDouble => Ret (701, 8)
  | LogicalType.kVarchar => Ret (25, -1)
  | LogicalType.kDate => Ret (1082, 8)
  | LogicalType.kTime => Ret (1266, 12)
  | LogicalType.kInterval => Ret (1186, 16)
  | LogicalType.kEmbedding =>
      match type_info_ column_type with
      | None => UB "type info"
      | Some (DecimalInfo _ _) => Throw TypeException "Not embedding type"
      | Some (EmbeddingInfo t _) => EmbeddingObject t
      end
  | _ => Throw TypeException "Unexpected type"
  end.

Definition SendTableDescription (result_table : DataTable) : M Connection () :=
  let column_name_length_sum := fold_left (fun sum column => to_u32 (sum + length_of column.1)) (columns result_table) 0 in
  let column_count := Z.of_nat (length (columns result_table)) in
  if column_name_length_sum =? 0 then mret ()
  else
    handling (SendDescriptionHeader transferred column_name_length_sum (to_u32 column_count)) ≫= fun _ =>
    for_each (fun column =>
      object ← calling (ColumnObject column.2);
      handling (SendDescription transferred column.1 object.1 (to_u16 object.2))) (columns result_table).

Definition SendRow (column_count : Z) (row : list bytes) : M Connection () :=
  values ← calling (read_at row 0 column_count);
  let string_length_sum := fold_left (fun sum value => to_u64 (sum + length_of value)) values 0 in
  handling (SendData transferred (Some <$> values) string_length_sum).

Definition SendQueryResponse (query_result : QueryResult) (result_table : DataTable) : M Connection () :=
  let column_count := Z.of_nat (length (columns result_table)) in
  for_each (for_each (SendRow column_count)) (data_blocks_ result_table) ≫= fun _ =>
  message ← calling (
    match root_operator_type_ query_result with
    | LogicalNodeType.kInsert => Ret (bytes_of_string "INSERT 0 1")
    | LogicalNodeType.kImport => match result_msg_ result_table with Some msg => Ret msg | None => UB "result message" end
    | _ => Ret (bytes_of_string "SELECT " ++ digits 20 (row_count_ result_table))
    end);
  handling (SendComplete transferred message).

Definition run_query (query : bytes) : M Connection QueryResult := fun c =>
  let '(engine', o) := Query (engine c) query in
  calling o (mkConnection (pg_handler_ c) (terminate_connection_ c) engine').

Definition HandlerSimpleQuery : M Connection () :=
  query ← handling (read_command_body received);
  query_result ← run_query query;
  match result_table_ query_result with
  | None =>
      match status_message query_result with
      | None => raise StdException "basic_string: construction from null is not valid"
      | Some message => handling (send_error_response transferred [(PGMessageType.kHumanReadableError, c_str message)])
      end
  | Some result_table =>
      SendTableDescription result_table ≫= fun _ => SendQueryResponse query_result result_table
  end ≫= fun _ =>
  handling (send_ready_for_query transferred).

Definition HandleRequest : M Connection () :=
  cmd_type ← handling (read_command_type received);
  if (cmd_type =? PGMessageType.kBindCommand) || (cmd_type =? PGMessageType.kDescribeCommand) || (cmd_type =? PGMessageType.kExecuteCommand)
     || (cmd_type =? PGMessageType.kParseCommand) then mret ()
  else if cmd_type =? PGMessageType.kSimpleQueryCommand then HandlerSimpleQuery
  else if cmd_type =? PGMessageType.kSyncCommand then mret ()
  else if cmd_type =? PGMessageType.kTerminateCommand then fun c => Done () (mkConnection (pg_handler_ c) true (engine c))
  else raise NetworkException "Unknown PG command type".

(** [what] of an exception that the loop catches. *)
Definition what (e : exn) (msg : string) : option bytes :=
  class ← error_class e;
  Some (c_str (bytes_of_string class ++ 32 :: bytes_of_string msg ++ location e msg)).

(** The loop of [Run]; [fuel] is the number of requests.  [Broken ClientException] is
    the end of the loop when the client has closed the connection. *)
Fixpoint Requests (fuel : nat) : M Connection () := fun c =>
  if terminate_connection_ c then Done () c
  else
    match fuel with
    | O => Undefined "not enough fuel"
    | S fuel =>
        match HandleRequest c with
        | Done _ c => Requests fuel c
        | Raised e msg c =>
            if bool_decide (e = ClientException) then Done () c
            else
              match what e msg with
              | None => Raised e msg c
              | Some text =>
                  ((handling (send_error_response transferred [(PGMessageType.kHumanReadableError, text)]) ≫= fun _ =>
                    handling (send_ready_for_query transferred)) ≫= fun _ =>
                   Requests fuel) c
              end
        | Broken e msg => Broken e msg
        | Undefined why => Undefined why
        end
    end.

Definition Run (startups requests : nat) : M Connection () :=
  HandleConnection startups ≫= fun _ => Requests requests.
End Connection.
