(* ===== verification/ProtocolProps.v ===== *)
(** * Sessions of the PostgreSQL protocol

    What a client receives: every message that the server sends is framed with its
    length, and a session is answered by the greeting and, query by query, the messages
    of its result. *)
From S2P Require Import Prelude Defs Arrays Wire Date RingBuffer RingBufferProps Protocol.

Local Open Scope Z_scope.

(** ** Messages *)

Definition be16 (z : Z) : bytes := network_bytes 2 z.
Definition be32 (z : Z) : bytes := network_bytes 4 z.

(** A message is its type and its contents. *)
Definition Message : Type := Z * bytes.

Definition message_bytes (m : Message) : bytes := network_bytes 1 m.1 ++ be32 (LENGTH_FIELD_SIZE + length_of m.2) ++ m.2.

(** The length of a message fits its field. *)
Definition fits (m : Message) : Prop := u_range 8 m.1 /\ LENGTH_FIELD_SIZE + length_of m.2 < 2 ^ 32.

(** What a client reads: messages up to the end of the bytes. *)
Fixpoint parse_messages (fuel : nat) (bs : bytes) : option (list Message) :=
  match fuel, bs with
  | _, [] => Some []
  | O, _ => None
  | S fuel, t :: b0 :: b1 :: b2 :: b3 :: bs =>
      let n := host_value [b0; b1; b2; b3] - LENGTH_FIELD_SIZE in
      if (n <? 0) || (length_of bs <? n) then None
      else ms ← parse_messages fuel (drop (Z.to_nat n) bs); Some ((t, take (Z.to_nat n) bs) :: ms)
  | _, _ => None
  end.

(** ** What is sent *)

Definition authentication : Message := (PGMessageType.kAuthentication, be32 0).
Definition parameter (key value : string) : Message :=
  (PGMessageType.kParameterStatus, bytes_of_string key ++ [0] ++ bytes_of_string value ++ [0]).
Definition ready : Message := (PGMessageType.kReadyForQuery, [kIDLE]).

Definition greeting : list Message :=
  [authentication; parameter "server_version" "14"; parameter "server_encoding" "UTF8"; parameter "client_encoding" "UTF8"; parameter "DateStyle" "IOS, DMY"; ready].

Definition error_message (text : bytes) : Message := (PGMessageType.kError, PGMessageType.kHumanReadableError :: text ++ [0; 0]).

Definition object_of (t : DataType) : Z * Z := match ColumnObject t with Ret o => o | _ => (0, 0) end.

Definition column_description (column : bytes * DataType) : bytes :=
  column.1 ++ [0] ++ be32 0 ++ be16 0 ++ be32 (object_of column.2).1 ++ be16 (object_of column.2).2 ++ be32 (-1) ++ be16 0.

Definition description (cols : list (bytes * DataType)) : Message :=
  (PGMessageType.kRowDescription, be16 (Z.of_nat (length cols)) ++ concat (column_description <$> cols)).

Definition data_row (row : list bytes) : Message :=
  (PGMessageType.kData, be16 (Z.of_nat (length row)) ++ concat ((fun value => be32 (length_of value) ++ value) <$> row)).

Definition complete (text : bytes) : Message := (PGMessageType.kComplete, text ++ [0]).

Definition completion (r : QueryResult) (t : DataTable) : bytes :=
  match root_operator_type_ r with
  | LogicalNodeType.kInsert => bytes_of_string "INSERT 0 1"
  | LogicalNodeType.kImport => default [] (result_msg_ t)
  | _ => bytes_of_string "SELECT " ++ digits 20 (row_count_ t)
  end.

Definition table_messages (r : QueryResult) (t : DataTable) : list Message :=
  (if bool_decide (concat (columns t).*1 = []) then [] else [description (columns t)]) ++ (data_row <$> concat (data_blocks_ t)) ++ [complete (completion r t)].

(** The answer to a query, by its outcome. *)
Definition answer (location : exn -> string -> bytes) (o : outcome QueryResult) : list Message :=
  match o with
  | Ret r =>
      match result_table_ r with
      | None => [error_message (c_str (default [] (status_message r)))]
      | Some t => table_messages r t
      end
  | Throw e msg => [error_message (default [] (what location e msg))]
  | UB _ => []
  end ++ [ready].

(** The outcomes that have an answer: every column has a type that the protocol
    knows, every row a value for every column, and an exception is one of the server. *)
Definition table_ok (r : QueryResult) (t : DataTable) : Prop :=
  Forall (fun column => is_ret (ColumnObject column.2) = true) (columns t) /\ Z.of_nat (length (columns t)) < 2 ^ 16 /\
  Forall (fun row => length row = length (columns t)) (concat (data_blocks_ t)) /\
  (root_operator_type_ r = LogicalNodeType.kImport -> is_Some (result_msg_ t)).

Definition answerable (location : exn -> string -> bytes) (o : outcome QueryResult) : Prop :=
  match o with
  | Ret r => match result_table_ r with None => is_Some (status_message r) | Some t => table_ok r t end
  | Throw e msg => e <> ClientException /\ is_Some (error_class e)
  | UB _ => False
  end /\ Forall fits (answer location o).

(** ** What a client sends *)

Definition ssl_request : bytes := be32 (2 * LENGTH_FIELD_SIZE) ++ be32 SSL_MESSAGE_VERSION.
Definition startup (version : Z) (body : bytes) : bytes := be32 (2 * LENGTH_FIELD_SIZE + length_of body) ++ be32 version ++ body.
Definition simple_query (q : bytes) : Message := (PGMessageType.kSimpleQueryCommand, q ++ [0]).

(** The outcomes of queries, one after the other. *)
Fixpoint outcomes {Engine} (Query : Engine -> bytes -> Engine * outcome QueryResult) (e : Engine) (qs : list bytes) : list (outcome QueryResult) :=
  match qs with
  | [] => []
  | q :: qs => (Query e q).2 :: outcomes Query (Query e q).1 qs
  end.

Definition engine_after {Engine} (Query : Engine -> bytes -> Engine * outcome QueryResult) (e : Engine) (qs : list bytes) : Engine :=
  fold_left (fun e q => (Query e q).1) qs e.

(** ** Messages are read back *)

Lemma network_byte z : u_range 8 z -> network_bytes 1 z = [z].
Proof. intros Hz. unfold network_bytes. cbn [le_bytes rev app]. f_equal. by apply Z.mod_small. Qed.

Lemma host_be32 z : u_range 32 z -> host_value (be32 z) = z.
Proof. intros Hz. unfold be32. rewrite host_network. by apply (u_wrap_id 32). Qed.

Lemma be32_bytes z : exists b0 b1 b2 b3, be32 z = [b0; b1; b2; b3].
Proof. unfold be32, network_bytes. cbn. eauto. Qed.

Lemma parse_messages_ok ms : forall fuel, Forall fits ms -> (length (concat (message_bytes <$> ms)) <= fuel)%nat ->
  parse_messages fuel (concat (message_bytes <$> ms)) = Some ms.
Proof.
  induction ms as [|[t p] ms IH]; intros fuel Hfits Hfuel; [by destruct fuel|]. apply Forall_cons in Hfits as [[Ht Hp] Hfits]. cbn [fst snd] in *.
  cbn [fmap list_fmap concat] in *. unfold message_bytes in *. cbn [fst snd] in *. rewrite network_byte in * by done. unfold length_of, LENGTH_FIELD_SIZE in *.
  pose proof (host_be32 (4 + Z.of_nat (length p)) ltac:(unfold u_range; lia)) as Hn. destruct (be32_bytes (4 + Z.of_nat (length p))) as (b0 & b1 & b2 & b3 & E). rewrite E in *.
  destruct fuel as [|fuel]; [cbn in Hfuel; lia|]. cbn [app parse_messages]. rewrite Hn. replace (4 + Z.of_nat (length p) - LENGTH_FIELD_SIZE) with (Z.of_nat (length p)) by (unfold LENGTH_FIELD_SIZE; lia). rewrite Nat2Z.id.
  cbn [app length] in Hfuel. unfold length_of. rewrite length_app in *. rewrite !(proj2 (Z.ltb_ge _ _)), drop_app_length, take_app_length by lia. cbn [orb].
  unfold message_bytes in IH. unfold length_of, LENGTH_FIELD_SIZE in IH. rewrite IH by (done || lia). done.
Qed.

(** ** Computations on a connection *)

(** A state with a handler of the protocol. *)
Class Handles (S : Type) := {
  handler_of : S -> PGProtocolHandler;
  set_handler : S -> PGProtocolHandler -> S;
  handler_of_set : forall s h, handler_of (set_handler s h) = h;
  set_handler_set : forall s h h', set_handler (set_handler s h) h' = set_handler s h';
  set_handler_same : forall s, set_handler s (handler_of s) = s
}.

#[export] Instance Handles_handler : Handles PGProtocolHandler.
Proof. by refine {| handler_of h := h; set_handler _ h := h |}. Defined.

#[export] Instance Handles_connection Engine : Handles (@Connection Engine).
Proof. by refine {| handler_of := pg_handler_; set_handler c h := mkConnection h (terminate_connection_ c) (engine c) |}; try done; intros []. Defined.

(** The bytes [all] have been sent, [p] of them wait in the buffer, and [rest] is to be read. *)
Definition holds (h : PGProtocolHandler) (all p rest : bytes) : Prop :=
  writer_holds (buffer_writer_ h) all p /\ exists c, reader_holds (buffer_reader_ h) rest c.

Section Does.
Context {S : Type} `{Handles S}.

(** [m] reads [inp], sends [out] and returns [a]; with [flushed] nothing waits then. *)
Definition does {A} (m : M S A) (a : A) (inp out : bytes) (flushed : bool) : Prop :=
  forall s all p rest, holds (handler_of s) all p (inp ++ rest) -> (flushed = true -> p <> [] \/ out <> []) ->
    exists h' p', m s = Done a (set_handler s h') /\ holds h' (all ++ out) p' rest /\
      if flushed then p' = [] else p <> [] \/ out <> [] -> p' <> [].

Lemma does_bind {A B} (m : M S A) (k : A -> M S B) a b i1 i2 o1 o2 (f1 f2 : bool) :
  does m a i1 o1 f1 -> does (k a) b i2 o2 f2 -> (f1 = true -> o1 <> [] /\ o2 <> []) -> does (m ≫= k) b (i1 ++ i2) (o1 ++ o2) f2.
Proof.
  intros Hm Hk Hf s all p rest Hs Hp. rewrite <- app_assoc in Hs.
  assert (f1 = true -> p <> [] \/ o1 <> []) as Hp1 by (intros E; right; by apply Hf).
  destruct (Hm s all p _ Hs Hp1) as (h1 & p1 & E1 & Hs1 & Hfl1).
  assert (p <> [] \/ o1 ++ o2 <> [] -> p1 <> [] \/ o2 <> []) as Hout.
  { intros Hor. destruct f1; [right; by apply Hf|]. destruct (decide (o2 = [])) as [->|]; [left|by right]. rewrite app_nil_r in Hor. by apply Hfl1. }
  rewrite <- (handler_of_set s h1) in Hs1. destruct (Hk (set_handler s h1) _ p1 rest Hs1) as (h2 & p2 & E2 & Hs2 & Hfl2); [intros E; by apply Hout, Hp|].
  exists h2, p2. unfold mbind, M_bind. rewrite E1, E2, set_handler_set, app_assoc. split; [done|]. split; [done|]. destruct f2; [done|]. intros Hor. by apply Hfl2, Hout.
Qed.

Lemma does_seq {A B} (m : M S A) (k : A -> M S B) a b i1 i2 o1 o2 f : does m a i1 o1 false -> does (k a) b i2 o2 f -> does (m ≫= k) b (i1 ++ i2) (o1 ++ o2) f.
Proof. intros Hm Hk. by apply (does_bind m k a b i1 i2 o1 o2 false f). Qed.

Lemma does_writes {B} (m : M S ()) (k : () -> M S B) b o1 o2 f : does m () [] o1 false -> does (k ()) b [] o2 f -> does (m ≫= k) b [] (o1 ++ o2) f.
Proof. apply (does_seq m k () b [] []). Qed.

Lemma does_for_each {A} (g : A -> M S ()) (out : A -> bytes) l :
  Forall (fun x => does (g x) () [] (out x) false) l -> does (for_each g l) () [] (concat (out <$> l)) false.
Proof.
  induction l as [|x l IH]; intros Hl; cbn [for_each fmap list_fmap concat].
  - intros s all p rest Hs _. exists (handler_of s), p. rewrite set_handler_same, app_nil_r. split; [done|]. split; [done|]. by intros [|].
  - apply Forall_cons in Hl as [Hx Hl]. apply does_writes; [done|by apply IH].
Qed.

Lemma does_calling {A B} (k : A -> M S B) a b i o f : does (k a) b i o f -> does (calling (Ret a) ≫= k) b i o f.
Proof. done. Qed.

Lemma does_out {A} (m : M S A) a i o o' f : does m a i o f -> o = o' -> does m a i o' f.
Proof. by intros ? <-. Qed.
End Does.

Lemma does_handling {Engine A} (m : M PGProtocolHandler A) a i o f : does m a i o f -> does (handling (Engine := Engine) m) a i o f.
Proof.
  intros Hm s all p rest Hs Hp. destruct (Hm (pg_handler_ s) all p rest Hs Hp) as (h & p' & E & Hh & Hf). exists h, p'. unfold handling. by rewrite E.
Qed.

Section Session.
Context (transferred : Z -> Z -> Z) (received : list Z -> Z -> Z -> Z).
Hypothesis transferred_ok : forall least total, 1 <= least <= total -> least <= transferred least total <= total.
Hypothesis received_ok : forall arriving least room, 1 <= least <= room -> least <= Z.of_nat (length arriving) ->
  least <= received arriving least room <= Z.min room (Z.of_nat (length arriving)).

(** ** The handler of the protocol *)

Lemma does_send i : does (writing (fun w => send_item transferred w i)) () [] (item_bytes i) false.
Proof.
  intros h all p rest [Hw Hr] _. destruct (send_item_ok transferred transferred_ok _ all p i Hw) as (w & p' & E & Hw' & Hp').
  eexists (mkPGProtocolHandler _ w), p'. change (handler_of h) with h in *. unfold writing. rewrite E. by split; [|split].
Qed.

Lemma does_flush : does (flush_all transferred) () [] [] true.
Proof.
  intros h all p rest [Hw Hr] Hp. destruct (Hp eq_refl) as [Hne|]; [|done].
  destruct (flush_ok transferred transferred_ok _ all p 0 Hw) as (w & p' & E & Hw' & _ & Hp'); [lia|done|]. rewrite (Hp' eq_refl) in Hw'.
  eexists (mkPGProtocolHandler _ w), []. change (handler_of h) with h in *. unfold flush_all, writing. rewrite E, app_nil_r. by split; [|split].
Qed.

(** [m] reads [bs] and returns [a]. *)
Definition reads {A} (m : M PGProtocolHandler A) (a : A) (bs : bytes) : Prop :=
  forall h all p rest, holds h all p (bs ++ rest) -> exists h', m h = Done a h' /\ holds h' all p rest.

Lemma reads_does {A} (m : M PGProtocolHandler A) a bs : reads m a bs -> does m a bs [] false.
Proof.
  intros Hm h all p rest Hh _. destruct (Hm h all p rest Hh) as (h' & E & Hh'). exists h', p. rewrite app_nil_r. split; [done|]. split; [done|]. by intros [|].
Qed.

Lemma reads_bind {A B} (m : M PGProtocolHandler A) (k : A -> M PGProtocolHandler B) a b i1 i2 : reads m a i1 -> reads (k a) b i2 -> reads (m ≫= k) b (i1 ++ i2).
Proof.
  intros Hm Hk h all p rest Hh. rewrite <- app_assoc in Hh. destruct (Hm h all p _ Hh) as (h1 & E1 & Hh1). destruct (Hk h1 all p rest Hh1) as (h2 & E2 & Hh2).
  exists h2. unfold mbind, M_bind. by rewrite E1.
Qed.

Lemma reads_reading {A} (f : BufferReader -> outcome (A * BufferReader)) a bs :
  (forall rd rest c, reader_holds rd (bs ++ rest) c -> exists rd' c', f rd = Ret (a, rd') /\ reader_holds rd' rest c') -> reads (reading f) a bs.
Proof.
  intros Hf h all p rest [Hw [c Hr]]. destruct (Hf _ _ _ Hr) as (rd & c' & E & Hr'). eexists (mkPGProtocolHandler rd _). unfold reading. rewrite E.
  split; [done|]. split; [done|by exists c'].
Qed.

Lemma reads_u32 z : u_range 32 z -> reads (reading (read_value_u32 received)) z (be32 z).
Proof.
  intros Hz. apply reads_reading. intros rd rest c Hr. destruct (read_item_ok received received_ok rd (U32 z) rest c Hz Hr) as (rd' & c' & E & Hr').
  cbn [read_item] in E. destruct (read_value_u32 received rd) as [[z' rd'']| |]; [|done..]. cbn in E. injection E as -> ->. by exists rd', c'.
Qed.

Lemma reads_text s (nt : bool) : reads (reading (fun rd => read_string_n received rd (Z.of_nat (length (terminated s nt))) nt)) s (terminated s nt).
Proof. apply reads_reading. intros rd rest c Hr. by apply (read_string_n_ok received received_ok _ _ _ c). Qed.

Lemma reads_command_type z : u_range 8 z -> reads (read_command_type received) z [z].
Proof.
  intros Hz. apply (reads_bind _ _ (to_i8 z) z [z] []).
  - apply reads_reading. intros rd rest c Hr. rewrite <- (network_byte z Hz) in Hr.
    destruct (read_value_bytes_ok received received_ok rd _ rest c Hr) as (rd' & c' & E & Hr'); [rewrite network_bytes_length; unfold max_capacity, PG_MSG_BUFFER_SIZE; lia|].
    rewrite network_bytes_length in E. exists rd', c'. unfold read_value_i8. change (Z.of_nat 1) with 1 in E. rewrite E. cbn [mbind outcome_bind].
    rewrite host_network. unfold to_i8. change (8 * Z.of_nat 1) with 8. by rewrite s_wrap_u_wrap.
  - intros h all p rest Hh. exists h. split; [|done]. unfold mret, M_ret, to_u8, to_i8, u_wrap, s_wrap. f_equal. unfold u_range in Hz. Z.to_euclidean_division_equations. lia.
Qed.

Ltac send_one :=
  lazymatch goal with
  | |- does (send_u8 _ ?z) _ _ _ _ => exact (does_send (U8 z))
  | |- does (send_i8 _ ?z) _ _ _ _ => exact (does_send (I8 z))
  | |- does (send_u16 _ ?z) _ _ _ _ => exact (does_send (U16 z))
  | |- does (send_i16 _ ?z) _ _ _ _ => exact (does_send (I16 z))
  | |- does (send_u32 _ ?z) _ _ _ _ => exact (does_send (U32 z))
  | |- does (send_i32 _ ?z) _ _ _ _ => exact (does_send (I32 z))
  | |- does (send_text _ ?s ?nt) _ _ _ _ => exact (does_send (Text s nt))
  | |- does (flush_all _) _ _ _ _ => exact does_flush
  end.

Ltac sends :=
  repeat (cbv beta; lazymatch goal with |- does (_ ≫= _) _ _ _ _ => apply does_writes; [send_one|] | _ => send_one end).

Lemma send_authentication_ok : does (send_authentication transferred) () [] (message_bytes authentication) false.
Proof. unfold send_authentication. eapply does_out; [sends|reflexivity]. Qed.

Lemma send_ready_ok : does (send_ready_for_query transferred) () [] (message_bytes ready) true.
Proof. unfold send_ready_for_query. eapply does_out; [sends|reflexivity]. Qed.

(** A length field, and what follows it. *)
Lemma message_out t p n o : fits (t, p) -> n = to_u32 (LENGTH_FIELD_SIZE + length_of p) -> o = p ->
  item_bytes (U8 t) ++ item_bytes (U32 n) ++ o = message_bytes (t, p).
Proof.
  intros [_ Hp] -> ->. unfold message_bytes. cbn [item_bytes fst snd] in *. unfold to_u32. rewrite u_wrap_id; [done|]. unfold u_range, length_of, LENGTH_FIELD_SIZE in *. lia.
Qed.

Lemma send_parameter_ok key value : fits (parameter key value) -> does (send_parameter transferred (bytes_of_string key) (bytes_of_string value)) () [] (message_bytes (parameter key value)) false.
Proof.
  intros Hf. unfold send_parameter. eapply does_out; [sends|]. apply message_out; [done| |cbn [item_bytes terminated]; unfold terminated; by rewrite <- app_assoc].
  f_equal. unfold length_of. rewrite !length_app. cbn [length]. lia.
Qed.

Lemma send_error_ok text : fits (error_message text) -> does (send_error_response transferred [(PGMessageType.kHumanReadableError, text)]) () [] (message_bytes (error_message text)) true.
Proof.
  intros Hf. pose proof Hf as [_ Hl]. unfold error_message, length_of, LENGTH_FIELD_SIZE in Hl. cbn [snd length] in Hl. rewrite length_app in Hl. cbn [length] in Hl.
  unfold send_error_response. cbn [for_each]. eapply does_out.
  - do 2 (apply does_writes; [send_one|]). apply does_writes; [|sends].
    apply does_writes; [sends|]. apply (does_for_each (S := PGProtocolHandler) (fun _ : () => mret ()) (fun _ => []) []). by constructor.
  - apply message_out; [done| |cbn; by rewrite app_nil_r, <- app_assoc].
    unfold error_message_size. cbn [fold_left fst snd]. unfold to_u32 at 2. rewrite u_wrap_id by (unfold u_range, length_of; lia). f_equal. unfold length_of, LENGTH_FIELD_SIZE. cbn [length]. rewrite length_app. cbn [length]. lia.
Qed.

Lemma send_complete_ok text : fits (complete text) -> does (SendComplete transferred text) () [] (message_bytes (complete text)) false.
Proof.
  intros Hf. unfold SendComplete. eapply does_out; [sends|]. apply message_out; [done| |done]. f_equal. unfold length_of. rewrite length_app. cbn [length]. lia.
Qed.

Lemma send_value_ok value : length_of value < 2 ^ 32 -> does (SendValue transferred (Some value)) () [] (be32 (length_of value) ++ value) false.
Proof.
  intros Hv. unfold SendValue. eapply does_out; [sends|]. cbn [item_bytes]. unfold terminated, to_u32, be32. rewrite app_nil_r, u_wrap_id; [done|]. unfold u_range, length_of in *. lia.
Qed.

Lemma network_bytes_wrap n z : network_bytes n (u_wrap (8 * Z.of_nat n) z) = network_bytes n z.
Proof.
  unfold network_bytes. f_equal. apply le_value_inj; [by rewrite !le_bytes_length|apply le_bytes_are_bytes..|]. rewrite !le_value_bytes. unfold u_wrap. by rewrite Zmod_mod.
Qed.

Lemma send_description_ok name object_id width :
  does (SendDescription transferred name object_id (to_u16 width)) () [] (name ++ [0] ++ be32 0 ++ be16 0 ++ be32 object_id ++ be16 width ++ be32 (-1) ++ be16 0) false.
Proof.
  unfold SendDescription. eapply does_out; [sends|]. cbn [item_bytes]. unfold terminated. rewrite <- app_assoc. change (to_u16 width) with (u_wrap (8 * Z.of_nat 2) width). by rewrite network_bytes_wrap.
Qed.

Lemma sum_lengths w {A} (f : A -> bytes) l : forall sum, 0 <= sum -> sum + length_of (concat (f <$> l)) < 2 ^ w ->
  fold_left (fun sum x => u_wrap w (sum + length_of (f x))) l sum = sum + length_of (concat (f <$> l)).
Proof.
  induction l as [|x l IH]; intros sum Hs Hl; cbn [fold_left fmap list_fmap concat] in *; unfold length_of in *; [cbn; lia|]. rewrite length_app in *.
  rewrite u_wrap_id by (unfold u_range; lia). rewrite IH by lia. lia.
Qed.

Lemma descriptions_length cols : length_of (concat (column_description <$> cols)) = length_of (concat cols.*1) + 19 * Z.of_nat (length cols).
Proof.
  induction cols as [|c cols IH]; [done|]. unfold length_of in *. cbn [fmap list_fmap concat length]. rewrite !length_app, Nat2Z.inj_add, IH.
  unfold column_description, be16, be32. rewrite !length_app, !network_bytes_length. cbn [length]. lia.
Qed.

Lemma row_length row : length_of (concat ((fun value => be32 (length_of value) ++ value) <$> row)) = length_of (concat row) + 4 * Z.of_nat (length row).
Proof.
  induction row as [|v row IH]; [done|]. unfold length_of in *. cbn [fmap list_fmap concat length]. rewrite !length_app, Nat2Z.inj_add, IH. unfold be32. rewrite network_bytes_length. lia.
Qed.

(** ** Results *)

Context {Engine : Type}.

Lemma concat_nested {A} (f : A -> bytes) ls : concat ((fun l => concat (f <$> l)) <$> ls) = concat (f <$> concat ls).
Proof. induction ls as [|l ls IH]; [done|]. cbn [fmap list_fmap concat]. by rewrite IH, fmap_app, concat_app. Qed.

Lemma send_table_description_ok t : Forall (fun column => is_ret (ColumnObject column.2) = true) (columns t) -> Z.of_nat (length (columns t)) < 2 ^ 16 ->
  (concat (columns t).*1 <> [] -> fits (description (columns t))) ->
  does (S := @Connection Engine) (SendTableDescription transferred t) () [] (concat (message_bytes <$> (if bool_decide (concat (columns t).*1 = []) then [] else [description (columns t)]))) false.
Proof.
  intros Hret Hn Hfits. unfold SendTableDescription. set (total := length_of (concat (columns t).*1)).
  assert (fits (description (columns t)) -> LENGTH_FIELD_SIZE + (2 + total + 19 * Z.of_nat (length (columns t))) = LENGTH_FIELD_SIZE + length_of (description (columns t)).2 /\ total + 19 * Z.of_nat (length (columns t)) < 2 ^ 32) as Hlen.
  { intros [_ Hd]. unfold total, description in *. cbn [snd] in *. pose proof (descriptions_length (columns t)) as Hdl. unfold length_of, LENGTH_FIELD_SIZE in *.
    rewrite length_app in *. unfold be16 in *. rewrite network_bytes_length in *. lia. }
  assert (fold_left (fun sum column => to_u32 (sum + length_of column.1)) (columns t) 0 = total) as ->.
  { change total with (0 + total). apply (sum_lengths 32 fst); [lia|]. fold total. destruct (decide (concat (columns t).*1 = [])) as [E|E]; [unfold total; rewrite E; done|]. destruct (Hlen (Hfits E)). lia. }
  case_bool_decide as E; [unfold total; rewrite E; cbn; intros s all p rest Hs _; exists (handler_of s), p; rewrite set_handler_same, app_nil_r; split; [done|]; split; [done|]; by intros [|]|].
  specialize (Hfits E). destruct (Hlen Hfits) as [Hsize Hsmall]. rewrite (proj2 (Z.eqb_neq total 0)) by (unfold total, length_of; destruct (concat (columns t).*1); [done|cbn [length]; lia]).
  cbn [fmap list_fmap concat]. rewrite app_nil_r. eapply does_out.
  - apply does_writes; [apply does_handling; unfold SendDescriptionHeader; sends|]. apply (does_for_each _ column_description).
    apply (Forall_impl _ _ _ Hret). intros column Hc. unfold column_description, object_of. destruct (ColumnObject column.2) as [object| |]; [|done..].
    apply does_calling, does_handling, send_description_ok.
  - rewrite <- !app_assoc. apply message_out; [done| |].
    + transitivity (to_u32 (LENGTH_FIELD_SIZE + length_of (description (columns t)).2)); [|done]. rewrite <- Hsize. f_equal. unfold to_u32. rewrite u_wrap_id by (unfold u_range; lia). unfold LENGTH_FIELD_SIZE. lia.
    + cbn [item_bytes]. unfold be16, to_u16, to_u32. rewrite (u_wrap_id 32) by (unfold u_range; lia). by rewrite (u_wrap_id 16) by (unfold u_range; lia).
Qed.

Lemma send_row_ok (row : list bytes) : Z.of_nat (length row) < 2 ^ 16 -> fits (data_row row) ->
  does (S := @Connection Engine) (SendRow transferred (Z.of_nat (length row)) row) () [] (message_bytes (data_row row)) false.
Proof.
  intros Hn Hf. pose proof Hf as [_ Hl]. unfold data_row in Hl. cbn [snd] in Hl. pose proof (row_length row) as Hrow. unfold length_of, LENGTH_FIELD_SIZE in Hl, Hrow. rewrite length_app in Hl. unfold be16 in Hl. rewrite network_bytes_length in Hl.
  unfold SendRow, read_at. rewrite Z.add_0_l, !Z.ltb_irrefl, (proj2 (Z.ltb_ge (Z.of_nat (length row)) 0)) by lia. rewrite Nat2Z.id. change (drop (Z.to_nat 0) row) with row. rewrite firstn_all. cbn [orb]. apply does_calling, does_handling.
  rewrite (sum_lengths 64 id) by (rewrite ?list_fmap_id; unfold length_of; lia). rewrite list_fmap_id. unfold SendData. rewrite length_fmap. unfold to_u16. rewrite (u_wrap_id 16) by (unfold u_range; lia).
  rewrite Nat2Z.id, (take_ge (Some <$> row)) by (rewrite length_fmap; lia). eapply does_out.
  - do 3 (apply does_writes; [send_one|]).
    apply (does_for_each _ (fun v => from_option (fun value => be32 (length_of value) ++ value) [] v)). apply Forall_fmap, Forall_forall. intros value Hv. apply send_value_ok.
    assert (length value <= length (concat row))%nat; [|unfold length_of; lia]. apply list_elem_of_split in Hv as (l1 & l2 & ->). rewrite concat_app. cbn [concat]. rewrite !length_app. lia.
  - apply message_out; [done| |].
    + f_equal. unfold length_of, LENGTH_FIELD_SIZE. cbn [id]. rewrite length_app. unfold be16. rewrite network_bytes_length. unfold length_of in Hrow. lia.
    + cbn [item_bytes]. by rewrite <- list_fmap_compose.
Qed.

Lemma send_query_response_ok r t : table_ok r t -> Forall fits ((data_row <$> concat (data_blocks_ t)) ++ [complete (completion r t)]) ->
  does (S := @Connection Engine) (SendQueryResponse transferred r t) () [] (concat (message_bytes <$> (data_row <$> concat (data_blocks_ t)) ++ [complete (completion r t)])) false.
Proof.
  intros (_ & Hn & Hrows & Himp) Hfits. apply Forall_app in Hfits as [Hrfits Hc]. rewrite Forall_singleton in Hc. rewrite Forall_fmap in Hrfits. unfold SendQueryResponse.
  rewrite fmap_app, concat_app. apply does_writes.
  - rewrite <- list_fmap_compose, <- concat_nested. apply (does_for_each _ (fun block => concat ((message_bytes ∘ data_row) <$> block))).
    apply Forall_forall. intros block Hb. apply does_for_each, Forall_forall. intros row Hr.
    assert (row ∈ concat (data_blocks_ t)) as Hin by (apply list_elem_of_In, in_concat; exists block; split; by apply list_elem_of_In).
    rewrite Forall_forall in Hrows. rewrite Forall_forall in Hrfits. rewrite <- (Hrows row Hin). apply send_row_ok; [by rewrite (Hrows row Hin)|exact (Hrfits row Hin)].
  - cbn [fmap list_fmap concat]. rewrite app_nil_r. unfold completion in *.
    destruct (root_operator_type_ r); try (by apply does_calling, does_handling, send_complete_ok).
    destruct (Himp eq_refl) as [msg Hmsg]. rewrite Hmsg in *. by apply does_calling, does_handling, send_complete_ok.
Qed.

(** ** Requests *)

Lemma read_command_body_ok q : fits (simple_query q) ->
  reads (read_command_body received) q (be32 (LENGTH_FIELD_SIZE + length_of (q ++ [0])) ++ q ++ [0]).
Proof.
  intros [_ Hf]. cbn [snd simple_query] in Hf. apply (reads_bind _ _ (LENGTH_FIELD_SIZE + length_of (q ++ [0])) q).
  - apply reads_u32. unfold u_range, length_of, LENGTH_FIELD_SIZE in *. lia.
  - replace (to_u32 (LENGTH_FIELD_SIZE + length_of (q ++ [0]) - LENGTH_FIELD_SIZE)) with (Z.of_nat (length (terminated q true))); [apply (reads_text q true)|].
    change (terminated q true) with (q ++ [0]). unfold to_u32. rewrite u_wrap_id; unfold u_range, length_of, LENGTH_FIELD_SIZE in *; lia.
Qed.

Lemma send_answer_ok location r : answerable location (Ret r) ->
  does (S := @Connection Engine)
    (match result_table_ r with
     | None =>
         match status_message r with
         | None => raise StdException "basic_string: construction from null is not valid"
         | Some message => handling (send_error_response transferred [(PGMessageType.kHumanReadableError, c_str message)])
         end
     | Some t => SendTableDescription transferred t ≫= fun _ => SendQueryResponse transferred r t
     end ≫= fun _ => handling (send_ready_for_query transferred)) () [] (concat (message_bytes <$> answer location (Ret r))) true.
Proof.
  intros [Hok Hfits]. unfold answer in *. rewrite fmap_app, concat_app. destruct (result_table_ r) as [t|].
  - apply Forall_app in Hfits as [Hfits _]. unfold table_messages in *. rewrite fmap_app, concat_app. apply Forall_app in Hfits as [Hd Hrest].
    apply does_writes; [apply does_writes; [|by apply send_query_response_ok]|cbn [fmap list_fmap concat]; rewrite app_nil_r; apply does_handling, send_ready_ok].
    destruct Hok as (Hret & Hn & _). apply send_table_description_ok; [done..|]. intros Hne. rewrite bool_decide_false in Hd by done. by rewrite Forall_singleton in Hd.
  - destruct Hok as [msg Hmsg]. rewrite Hmsg in *. cbn [default] in *. apply Forall_app in Hfits as [Hf _]. rewrite Forall_singleton in Hf. cbn [fmap list_fmap concat]. rewrite !app_nil_r.
    apply (does_bind _ _ () () [] [] _ _ true true); [by apply does_handling, send_error_ok|apply does_handling, send_ready_ok|]. intros _. split; discriminate.
Qed.

Context (Query : Engine -> bytes -> Engine * outcome QueryResult) (location : exn -> string -> bytes).

Lemma handling_done {A} (m : M PGProtocolHandler A) a bs (c : @Connection Engine) all p rest : reads m a bs -> holds (pg_handler_ c) all p (bs ++ rest) ->
  exists h, handling m c = Done a (set_handler c h) /\ holds h all p rest.
Proof. intros Hm Hc. destruct (Hm _ _ _ _ Hc) as (h & E & Hh). exists h. unfold handling. by rewrite E. Qed.

Lemma send_error_answer_ok e msg text : what location e msg = Some text -> Forall fits (answer location (Throw e msg)) ->
  does (S := @Connection Engine) (handling (send_error_response transferred [(PGMessageType.kHumanReadableError, text)]) ≫= fun _ => handling (send_ready_for_query transferred))
    () [] (concat (message_bytes <$> answer location (Throw e msg))) true.
Proof.
  intros Hw Hfits. unfold answer in *. rewrite Hw in *. apply Forall_cons in Hfits as [Hf _]. cbn [fmap list_fmap concat app]. rewrite app_nil_r.
  apply (does_bind _ _ () () [] [] _ _ true true); [by apply does_handling, send_error_ok|apply does_handling, send_ready_ok|]. intros _. split; discriminate.
Qed.

Lemma answer_nonempty o : concat (message_bytes <$> answer location o) <> [].
Proof. unfold answer. rewrite fmap_app, concat_app. intros E. by apply app_nil in E as [_ E]. Qed.

(** A query is read, and then run. *)
Lemma handle_request_query (c : @Connection Engine) q rest all : holds (pg_handler_ c) all [] (message_bytes (simple_query q) ++ rest) -> fits (simple_query q) ->
  exists h, holds h all [] rest /\
    HandleRequest transferred received Query c =
    (query_result ← run_query Query q;
     match result_table_ query_result with
     | None =>
         match status_message query_result with
         | None => raise StdException "basic_string: construction from null is not valid"
         | Some message => handling (send_error_response transferred [(PGMessageType.kHumanReadableError, c_str message)])
         end
     | Some t => SendTableDescription transferred t ≫= fun _ => SendQueryResponse transferred query_result t
     end ≫= fun _ => handling (send_ready_for_query transferred)) (set_handler c h).
Proof.
  intros Hc Hq. unfold message_bytes in Hc. rewrite network_byte, <- !app_assoc in Hc by apply Hq. cbn [simple_query fst snd] in Hc.
  destruct (handling_done _ _ _ c all [] _ (reads_command_type PGMessageType.kSimpleQueryCommand ltac:(done)) Hc) as (h1 & E1 & H1). rewrite app_assoc in H1. change h1 with (pg_handler_ (set_handler c h1)) in H1.
  destruct (handling_done _ _ _ (set_handler c h1) all [] rest (read_command_body_ok q Hq) H1) as (h2 & E2 & H2). exists h2. split; [done|].
  unfold HandleRequest. unfold mbind at 1, M_bind at 1. rewrite E1. cbn [Z.eqb Pos.eqb orb PGMessageType.kSimpleQueryCommand PGMessageType.kBindCommand PGMessageType.kDescribeCommand PGMessageType.kExecuteCommand PGMessageType.kParseCommand].
  unfold HandlerSimpleQuery. unfold mbind at 1, M_bind at 1. rewrite E2, set_handler_set. done.
Qed.

Lemma request_query fuel (c : @Connection Engine) q rest all : terminate_connection_ c = false -> holds (pg_handler_ c) all [] (message_bytes (simple_query q) ++ rest) ->
  fits (simple_query q) -> answerable location (Query (engine c) q).2 ->
  exists h, holds h (all ++ concat (message_bytes <$> answer location (Query (engine c) q).2)) [] rest /\
    Requests transferred received Query location (S fuel) c = Requests transferred received Query location fuel (mkConnection h false (Query (engine c) q).1).
Proof.
  intros Hopen Hc Hq Hans. destruct (handle_request_query c q rest all Hc Hq) as (h & Hh & E). cbn [Requests]. rewrite Hopen, E. clear E.
  unfold mbind at 1, M_bind at 1, run_query at 1. cbn [engine set_handler Handles_connection]. destruct (Query (engine c) q) as [e' o]. cbn [fst snd] in *. cbn [pg_handler_ terminate_connection_]. rewrite Hopen.
  pose proof (answer_nonempty o) as Hne. destruct o as [r|e msg|]; [| |by destruct Hans].
  - destruct (send_answer_ok location r Hans (mkConnection h false e') all [] rest Hh) as (h' & p & E & Hh' & ->); [by right|]. exists h'. split; [done|]. cbn [calling]. by rewrite E.
  - destruct Hans as [[Hce [cl Hcl]] Hfits]. destruct (what location e msg) as [text|] eqn:Hw; [|unfold what in Hw; by rewrite Hcl in Hw].
    destruct (send_error_answer_ok e msg text Hw Hfits (mkConnection h false e') all [] rest Hh) as (h' & p & E & Hh' & ->); [by right|]. exists h'. split; [done|]. cbn [calling].
    rewrite bool_decide_false, Hw by done. unfold mbind at 1, M_bind at 1. by rewrite E.
Qed.

Lemma requests_ok qs : forall fuel (c : @Connection Engine) all rest, terminate_connection_ c = false ->
  holds (pg_handler_ c) all [] (concat (message_bytes <$> (simple_query <$> qs)) ++ PGMessageType.kTerminateCommand :: rest) ->
  Forall fits (simple_query <$> qs) -> Forall (answerable location) (outcomes Query (engine c) qs) -> (length qs < fuel)%nat ->
  exists h, holds h (all ++ concat (message_bytes <$> concat (answer location <$> outcomes Query (engine c) qs))) [] rest /\
    Requests transferred received Query location fuel c = Done () (mkConnection h true (engine_after Query (engine c) qs)).
Proof.
  induction qs as [|q qs IH]; intros fuel c all rest Hopen Hc Hq Hans Hfuel; (destruct fuel as [|fuel]; [cbn in Hfuel; lia|]).
  - destruct (handling_done _ _ [PGMessageType.kTerminateCommand] c all [] rest (reads_command_type PGMessageType.kTerminateCommand ltac:(done)) Hc) as (h & E & Hh).
    exists h. cbn. rewrite app_nil_r. split; [done|]. rewrite Hopen. unfold HandleRequest. unfold mbind, M_bind. rewrite E. by destruct fuel.
  - cbn [fmap list_fmap concat outcomes] in *. rewrite <- app_assoc in Hc. apply Forall_cons in Hq as [Hq Hqs]. apply Forall_cons in Hans as [Ha Hans].
    destruct (request_query fuel c q _ all Hopen Hc Hq Ha) as (h & Hh & ->).
    destruct (IH fuel (mkConnection h false (Query (engine c) q).1) _ rest eq_refl Hh Hqs Hans) as (h' & Hh' & E); [cbn [length] in Hfuel; lia|].
    exists h'. rewrite fmap_app, concat_app, app_assoc. by split.
Qed.

(** ** The start of a connection *)

Lemma startup_header_ok body version k : forall fuel h all rest, (k < fuel)%nat -> u_range 32 version -> version <> SSL_MESSAGE_VERSION -> 2 * LENGTH_FIELD_SIZE + length_of body < 2 ^ 32 ->
  holds h all [] (concat (replicate k ssl_request) ++ startup version body ++ rest) ->
  exists h', read_startup_header transferred received fuel h = Done (length_of body) h' /\ holds h' (all ++ replicate k PGMessageType.kSSLNo) [] (body ++ rest).
Proof.
  unfold LENGTH_FIELD_SIZE, length_of. induction k as [|k IH]; intros fuel h all rest Hk Hv Hssl Hb Hh; (destruct fuel as [|fuel]; [lia|]); cbn [read_startup_header replicate concat] in *.
  - unfold startup in Hh. cbn [app] in Hh. rewrite <- !app_assoc in Hh.
    destruct (reads_u32 (2 * LENGTH_FIELD_SIZE + length_of body) ltac:(unfold u_range, LENGTH_FIELD_SIZE, length_of; lia) h all [] _ Hh) as (h1 & E1 & H1).
    destruct (reads_u32 version Hv h1 all [] _ H1) as (h2 & E2 & H2). exists h2. rewrite app_nil_r. split; [|done].
    unfold mbind, M_bind. rewrite E1, E2, (proj2 (Z.eqb_neq _ _)) by done. unfold mret, M_ret, to_u32, LENGTH_FIELD_SIZE, length_of. f_equal. rewrite u_wrap_id; unfold u_range; lia.
  - unfold ssl_request in Hh at 1. rewrite <- !app_assoc in Hh.
    destruct (reads_u32 (2 * LENGTH_FIELD_SIZE) ltac:(done) h all [] _ Hh) as (h1 & E1 & H1). destruct (reads_u32 SSL_MESSAGE_VERSION ltac:(done) h1 all [] _ H1) as (h2 & E2 & H2).
    assert (does (send_u8 transferred PGMessageType.kSSLNo ≫= fun _ => flush_all transferred) () [] [PGMessageType.kSSLNo] true) as Hsend by (eapply does_out; [sends|reflexivity]).
    destruct (Hsend h2 all [] _ H2) as (h3 & p & E3 & H3 & ->); [by right|]. destruct (IH fuel h3 _ rest ltac:(lia) Hv Hssl Hb H3) as (h' & E & H').
    exists h'. rewrite <- app_assoc in H'. split; [|done]. unfold mbind, M_bind in *. rewrite E1, E2. cbn [Z.eqb Pos.eqb SSL_MESSAGE_VERSION].
    destruct (send_u8 transferred PGMessageType.kSSLNo h2); [|done..]. by rewrite E3.
Qed.

Lemma greeting_ok : does (S := @Connection Engine)
  (handling (send_authentication transferred) ≫= fun _ =>
   handling (send_parameter transferred (bytes_of_string "server_version") (bytes_of_string "14")) ≫= fun _ =>
   handling (send_parameter transferred (bytes_of_string "server_encoding") (bytes_of_string "UTF8")) ≫= fun _ =>
   handling (send_parameter transferred (bytes_of_string "client_encoding") (bytes_of_string "UTF8")) ≫= fun _ =>
   handling (send_parameter transferred (bytes_of_string "DateStyle") (bytes_of_string "IOS, DMY")) ≫= fun _ =>
   handling (send_ready_for_query transferred)) () [] (concat (message_bytes <$> greeting)) true.
Proof.
  unfold greeting. cbn [fmap list_fmap concat]. rewrite app_nil_r. apply does_writes; [apply does_handling, send_authentication_ok|].
  do 4 (apply does_writes; [by apply does_handling, send_parameter_ok|]). apply does_handling, send_ready_ok.
Qed.

Lemma handle_connection_ok (c : @Connection Engine) k fuel version body all rest : (k < fuel)%nat -> u_range 32 version -> version <> SSL_MESSAGE_VERSION -> 2 * LENGTH_FIELD_SIZE + length_of body < 2 ^ 32 ->
  holds (pg_handler_ c) all [] (concat (replicate k ssl_request) ++ startup version body ++ rest) ->
  exists h, HandleConnection transferred received fuel c = Done () (set_handler c h) /\
    holds h ((all ++ replicate k PGMessageType.kSSLNo) ++ concat (message_bytes <$> greeting)) [] rest.
Proof.
  intros Hk Hv Hssl Hb Hc. destruct (startup_header_ok body version k fuel _ all rest Hk Hv Hssl Hb Hc) as (h1 & E1 & H1).
  rewrite <- (app_nil_r body) in H1 at 1. destruct (reads_text body false h1 _ [] rest H1) as (h2 & E2 & H2).
  rewrite <- (handler_of_set c h2) in H2. destruct (greeting_ok (set_handler c h2) _ [] rest H2) as (h & p & E & Hh & ->); [by right|]. exists h. split; [|done]. rewrite set_handler_set in E.
  unfold HandleConnection. unfold mbind at 1, M_bind at 1, handling at 1. rewrite E1. unfold mbind at 1, M_bind at 1, handling at 1, read_startup_body.
  unfold terminated in E2. rewrite app_nil_r in E2. unfold length_of. unfold mbind at 1, M_bind at 1. cbn [pg_handler_]. rewrite E2. exact E.
Qed.

Lemma greeting_fits : Forall fits greeting.
Proof. by repeat constructor. Qed.

(** C11: A whole session of a client.  Requests for SSL are declined, the greeting is
    sent, and every query is answered, in their order, by the messages of its outcome:
    a description of the columns, the rows and the completion, or the error, and that
    the server is ready.  The loop ends when the client terminates the session; by then
    everything has been sent, and the client reads back exactly these messages by
    their lengths.  This is for outcomes that can be answered: a table has columns of
    types with a wire format, fewer than 65536 of them, and complete rows; a statement
    without a table is one with a completion message; an exception is one of the
    classes of the server; and all messages, also those of the client, have lengths of
    32 bits. *)
Theorem session_answers e0 k version body qs rest startups requests :
  u_range 32 version -> version <> SSL_MESSAGE_VERSION -> 2 * LENGTH_FIELD_SIZE + length_of body < 2 ^ 32 ->
  Forall fits (simple_query <$> qs) -> Forall (answerable location) (outcomes Query e0 qs) -> (k < startups)%nat -> (length qs < requests)%nat ->
  let stream := concat (replicate k ssl_request) ++ startup version body ++ concat (message_bytes <$> (simple_query <$> qs)) ++ PGMessageType.kTerminateCommand :: rest in
  let messages := greeting ++ concat (answer location <$> outcomes Query e0 qs) in
  exists h c, Run transferred received Query location startups requests
      (mkConnection (mkPGProtocolHandler (mkBufferReader new_ring stream) (mkBufferWriter new_ring [] false)) false e0) = Done () (mkConnection h true (engine_after Query e0 qs)) /\
    sent (buffer_writer_ h) = replicate k PGMessageType.kSSLNo ++ concat (message_bytes <$> messages) /\
    parse_messages (length (sent (buffer_writer_ h))) (drop k (sent (buffer_writer_ h))) = Some messages /\
    reader_holds (buffer_reader_ h) rest c.
Proof.
  intros Hv Hssl Hb Hq Hans Hk Hn stream messages. set (c0 := mkConnection _ false e0).
  assert (holds (pg_handler_ c0) [] [] stream) as H0 by (split; [split; [apply new_ring_holds|done]|exists []; split; [apply new_ring_holds|done]]).
  destruct (handle_connection_ok c0 k startups version body [] _ Hk Hv Hssl Hb H0) as (h1 & E1 & H1).
  change (set_handler c0 h1) with (mkConnection h1 false e0) in E1. destruct (requests_ok qs requests (mkConnection h1 false e0) _ rest eq_refl H1 Hq Hans Hn) as (h & [Hw [c Hr]] & E). exists h, c.
  assert (sent (buffer_writer_ h) = replicate k PGMessageType.kSSLNo ++ concat (message_bytes <$> messages)) as Hsent.
  { destruct Hw as (_ & Hs & _). rewrite app_nil_r in Hs. rewrite Hs. unfold messages. by rewrite fmap_app, concat_app, app_assoc. }
  split; [|split; [done|split; [|done]]].
  - unfold Run. unfold mbind at 1, M_bind at 1. rewrite E1. exact E.
  - rewrite Hsent. rewrite (drop_app_length' _ _ k) by (by rewrite length_replicate). apply parse_messages_ok; [|rewrite length_app; lia]. unfold messages. apply Forall_app. split; [apply greeting_fits|].
    apply Forall_concat, Forall_fmap, (Forall_impl _ _ _ Hans). by intros o [_ Ho].
Qed.
End Session.

(** An engine that answers its first query by a table and fails on others, and a socket
    that transfers what is asked for. *)
Definition sample_table : DataTable :=
  mkDataTable [(bytes_of_string "id", mkDataType LogicalType.kInteger None); (bytes_of_string "name", mkDataType LogicalType.kVarchar None)]
    [[[bytes_of_string "1"; bytes_of_string "a"]; [bytes_of_string "2"; []]]] 2 None.

Definition sample_query (n : nat) (q : bytes) : nat * outcome QueryResult :=
  (S n, if (n =? 0)%nat then Ret (mkQueryResult None (Some sample_table) LogicalNodeType.kProjection) else Throw PlannerException "Only support single statement.").

Definition at_least (least _ : Z) : Z := least.
Definition at_least_of (_ : list Z) (least _ : Z) : Z := least.

Lemma session_answers_witness :
  let stream := concat (replicate 1 ssl_request) ++ startup 196608 [117; 0; 0] ++ concat (message_bytes <$> (simple_query <$> [bytes_of_string "select"; bytes_of_string ";;"])) ++ [PGMessageType.kTerminateCommand; 0; 0; 0; 4] in
  let messages := greeting ++ concat (answer (fun _ _ => []) <$> outcomes sample_query 0%nat [bytes_of_string "select"; bytes_of_string ";;"]) in
  exists h c, Run at_least at_least_of sample_query (fun _ _ => []) 2 3
      (mkConnection (mkPGProtocolHandler (mkBufferReader new_ring stream) (mkBufferWriter new_ring [] false)) false 0%nat) = Done () (mkConnection h true (engine_after sample_query 0%nat [bytes_of_string "select"; bytes_of_string ";;"])) /\
    sent (buffer_writer_ h) = replicate 1 PGMessageType.kSSLNo ++ concat (message_bytes <$> messages) /\
    parse_messages (length (sent (buffer_writer_ h))) (drop 1 (sent (buffer_writer_ h))) = Some messages /\
    reader_holds (buffer_reader_ h) [0; 0; 0; 4] c.
Proof.
  apply (session_answers at_least at_least_of); unfold at_least, at_least_of.
  - intros; lia.
  - intros; lia.
  - unfold u_range; lia.
  - discriminate.
  - reflexivity.
  - cbn [fmap list_fmap]. repeat (apply Forall_cons; split; [done|]). by apply Forall_nil.
  - repeat constructor; try reflexivity; try discriminate. by exists "Planner Error:"%string.
  - lia.
  - cbn [length]; lia.
Defined.

(** Of the messages that are no query only the type is read: what follows it is taken
    for the next request. *)
Lemma other_requests_desynchronize :
  exists c c', HandleRequest at_least at_least_of sample_query
      (mkConnection (mkPGProtocolHandler (mkBufferReader new_ring (message_bytes (PGMessageType.kSyncCommand, []))) (mkBufferWriter new_ring [] false)) false 0%nat) = Done () c /\
    HandleRequest at_least at_least_of sample_query c = Raised NetworkException "Unknown PG command type" c'.
Proof. eexists _, _. split; [vm_compute; reflexivity|vm_compute; reflexivity]. Qed.

(** A column of another type: the description has been begun when the exception is
    raised, and the client cannot read the error. *)
Definition huge_query (n : nat) (q : bytes) : nat * outcome QueryResult :=
  (S n, Ret (mkQueryResult None (Some (mkDataTable [(bytes_of_string "h", mkDataType LogicalType.kHugeInt None)] [] 0 None)) LogicalNodeType.kProjection)).

Definition sent_by (r : result (@Connection nat) ()) : bytes :=
  match r with Done _ c | Raised _ _ c => sent (buffer_writer_ (pg_handler_ c)) | _ => [] end.

Lemma unknown_column_type_breaks_framing :
  let sent_bytes := sent_by (Requests at_least at_least_of huge_query (fun _ _ => []) 2
      (mkConnection (mkPGProtocolHandler (mkBufferReader new_ring (message_bytes (simple_query (bytes_of_string "q")) ++ [PGMessageType.kTerminateCommand])) (mkBufferWriter new_ring [] false)) false 0%nat)) in
  take 1 sent_bytes = [PGMessageType.kRowDescription] /\ parse_messages (length sent_bytes) sent_bytes = None.
Proof. intros sent_bytes. vm_compute in sent_bytes. split; vm_compute; reflexivity. Qed.
